(* ===== verification/_CoqProject ===== *)
-Q . S2P
Prelude.v
Message.v
Connection.v
Va.v
QObject.v
QHeap.v
QHeapProofs.v
QHeapClients.v
JsonLexer.v
JsonParser.v
QJson.v
JsonRoundTrip.v
AesTables.v
Aes.v
AesCipher.v
AesKeys.v
AesFips.v
AesCbc.v
I8259.v
I8259Proofs.v
PicLine.v
HostUtils.v
NetChecksum.v
NetQueue.v
NetQueueOrder.v
I8254.v
I8254Proofs.v
Timers.v
CUtils.v
Readline.v
ReadlineSpec.v
ReadlineProofs.v
ReadlineHistory.v
ReadlineScreen.v
ReadlineSession.v
ReadlineTyped.v
MonitorOutput.v
PcTimer.v
Ring.v
Ps2.v
Ps2Proofs.v
Pckbd.v
PckbdProofs.v
PcKeyboard.v
Rtc.v
RtcProofs.v
RtcTimers.v
Serial.v
SerialProofs.v
SerialReceive.v
QemuFile.v
VmState.v
VmCopy.v
SavedDevices.v
SavedDevicesProofs.v
SerialSave.v
Savevm.v
SavevmProofs.v
SavevmRegistry.v
Snapshot.v
BufferedFile.v
Migration.v
MigrationProofs.v
