(* ===== verification/Prelude.v ===== *)
(** * A verification of the video playback path of a virtual machine monitor

    The repository lets a guest of QEMU hand its video streams to the host: a guest driver
    sends encoded frames and window positions over a message library, a back end in the
    monitor decodes them, and the drawing code of the monitor puts the pictures over the
    guest's screen.  The monitor itself is qemu-kvm 0.12.3, kept whole in the repository
    ([qemu/] below stands for src/qemu/qemu-kvm-0.12.3+noroms/).  This development models
    the repository's own code on that path and the parts of the monitor that carry logic of
    their own: its object and JSON layer, its cipher, its interrupt controller, interval
    timer, real-time clock, serial port, keyboard and mouse with their controller, the saving
    and loading of machine state and its migration, the line editor of its console, its
    timer lists, its network queue and some arithmetic and memory helpers.

    ** The files

    - Prelude: outcomes of C and C++ code ([Ret], [Throw], [Fault] for undefined behaviour)
      with their monad notation, w-bit integers as [Z] with the wrap-around written out,
      memory as lists with [load] and [store], little-endian bytes, and the hint database
      [vm].
    - Message: src/comm/bknd/Message, MessageBuilder, MessageReader.  The reference-counted
      buffers are a heap; a builder, a reader and a message are records of the source's
      fields; every method is a definition.  Reading back what was written gives the same
      values, the builder refines appending to a list and hands over exactly those bytes, a read whose end does not wrap around
      32 bits never leaves the message, and copying, assigning and destroying messages in
      any order never leads to a use after free, a double free or a leak.
    - Connection: MessageConnection.cpp over the class [IConnection], with the two
      implementations of connection.cpp and UdpConnection.cpp.  Messages written at one end
      are read at the other in order and unchanged; a UDT receive delivers all the bytes
      asked for or throws.
    - Va: qemu/va.c and the handlers of src/qemu/vabknd/vabknd.cc.  The video rectangle
      stays in the window and keeps the picture's proportions, and is undefined exactly for
      the client rectangles whose place overflows an int; drawing returns and never uses an
      overlay that was refused or is gone or loses one, and each decoded frame is drawn once.
    - QObject: qemu/qdict.c, qlist.c, qstring.c, qint.c, qbool.c.  The hash table refines a
      finite map; strings grow correctly.
    - QHeap, QHeapProofs and QHeapClients: the same objects in memory, shared and with their
      reference counts (qemu/qobject.h).  Counts are the numbers of references, nothing is used
      after it was freed and nothing is left at the end but circles.
    - JsonLexer, JsonParser, QJson: qemu/json-lexer.c, json-streamer.c, json-parser.c,
      qjson.c.  JsonRoundTrip composes them: printing an object and parsing the text gives
      an equal object, for texts of the basic multilingual plane without backslashes.  The lexer drops no character of a token, feeding in pieces is
      feeding at once, errors are final, and the parser terminates on every token list.
    - AesTables, Aes, and the proofs in AesCipher, AesKeys, AesFips, AesCbc: qemu/aes.c.
      The tables are those FIPS-197 derives, key expansion and encryption compute the
      standard's functions, decryption inverts encryption, and so it is for CBC mode in
      place or between disjoint buffers.
    - I8259 and I8259Proofs: qemu/hw/i8259.c, the two cascaded interrupt controllers as
      one state.  An invariant of all reachable states, priority resolution, nesting, and
      edge and level semantics of the lines.
    - I8254 and I8254Proofs: qemu/hw/i8254.c with muldiv64 of qemu/vl.c.  No access by the
      guest faults, the computed transition times are exact, a count can be programmed and
      read back.
    - PicLine: the interrupt handler of qemu/hw/pc.c in front of the interrupt
      controllers, and the life of a request on one of the first two lines: the edge, the
      vector, the end of interrupt, whatever the other lines do.
    - PcTimer: the timer on line 0.  The periodic interrupt, from the counter of
      the timer to the vector the CPU gets and the end of interrupt, period after period.
    - Ps2 and Ps2Proofs: qemu/hw/ps2.c.  The rings are bounded first-in first-out queues with
      the interrupt line following them, commands are answered, and what a guest reads
      decodes to the keys pressed and adds up to the mouse's movement.
    - Pckbd and PckbdProofs: qemu/hw/pckbd.c.  The status register and the two interrupt
      lines follow the queues of the devices in every reachable state, and polling delivers
      the keyboard's bytes, then the mouse's.
    - PcKeyboard: keyboard, controller and interrupt controllers together.  Every byte of
      every key interrupts the CPU once and arrives in order, whatever the lines of lower
      priority do.
    - Rtc, RtcProofs and RtcTimers: qemu/hw/mc146818rtc.c.  The calendar is the Gregorian
      one that [mktimegm] counts, the guest reads the date it has set as many seconds later
      as updates were made, in each of the formats, the periodic interrupt does not drift,
      the update cycle never stops and the interrupt line is high only with its flag set.
    - Ring: rings as the lists they hold, for the queues of Ps2 and Serial.
    - Serial, SerialProofs, SerialReceive and SerialSave: qemu/hw/serial.c.  No access
      faults, the interrupt identification and the line follow the pending causes, what the
      guest sends leaves in order if the character device takes it, and what arrives within
      the room offered is read in order, with an interrupt or a timeout for every byte left.  SerialSave has the saved state and what it loses.
    - Readline: qemu/readline.c, with the buffers as memory and what is printed as a log of
      terminal commands.  ReadlineSpec is the editor it is meant to be, without memory, and a
      terminal; ReadlineProofs (the line), ReadlineHistory (the history), ReadlineScreen (the
      display) and ReadlineSession (completion, the bytes, whole sessions) show that it is
      that editor: commands and terminal agree after every byte, while the line keeps within
      its buffer.  ReadlineTyped: typed lines become commands and come back with the arrow
      keys; and what happens outside those bounds.
    - MonitorOutput: the output buffer of qemu/monitor.c.  Everything printed arrives at the
      device, lines at once; while the device is multiplexed away the buffer can overflow.
    - QemuFile: the buffered file of qemu/savevm.c in front of any transport that keeps the
      laws of the class [Transport]: it takes each block as a whole, and delivers in pieces of
      any sizes.  A file that is written is a list that grows and a file that is read is a list
      that is consumed; what a short write loses is shown as well.
    - VmState and VmCopy: the field codecs and the walk over descriptions of qemu/savevm.c
      and qemu/hw/hw.h.  A codec keeps the laws of the class [InfoLaw]; saving with a
      description and loading over another state is the direct copy [copy].
    - SavedDevices and SavedDevicesProofs: the descriptions of the devices above, and what
      each device is after a load.
    - Savevm, SavevmProofs and SavevmRegistry: the registry of entries and the sections of
      qemu/savevm.c.  Registered entries can be told apart if their names fit; a saved machine, live parts
      included, is read back entry by entry by a machine with twin entries; bad files are
      refused with the machine untouched.
    - Snapshot: the devices of this development registered as qemu/hw/pc.c does, and the
      round trip of a snapshot of them.
    - BufferedFile: the rate-limited file of qemu/buffered_file.c, over a device that keeps
      the laws of the classes [Pipe] and [Drains].  What is put arrives in order, and
      closing ends with everything sent.
    - Migration and MigrationProofs: qemu/migration.c over BufferedFile and Savevm.  With a
      socket that does not fail, a migration that is followed event by event, with the guest running in between, delivers
      a stream the other machine loads, and closes and resumes what it should once.
    - Timers: the timer lists of qemu/vl.c.  The lists stay ordered whatever callbacks do,
      and running the expired timers ends with none left.
    - NetQueue and NetQueueOrder: qemu/net/queue.c.  No packet is lost or duplicated though
      handlers may call the queue again, and flushing ends.  NetQueueOrder: packets of a client
      stay in order while handlers and callbacks send, purge and (callbacks) flush, and such
      runs end when the calls from inside them are limited.
    - NetChecksum: qemu/net/checksum.c.  The checksum put into a packet verifies.
    - HostUtils: qemu/host-utils.c.  The 128-bit products are exact.
    - CUtils: qemu/cutils.c.  String helpers truncate and terminate, [mktimegm] is the
      Gregorian calendar, I/O vectors concatenate, scatter and gather.

    Components meet in interfaces: [IConnection] is a class whose laws the framing theorem
    assumes and each transport discharges; [Transport], [Wire] and [InfoLaw] stand between
    the layers of saved state in the same way, and [Pipe], [Drains], [Stable] and [SockLaw]
    between the file, the migration and the socket, so that a migration is one more
    [Transport]; handlers and callbacks (the network queue's, the timers', the
    line editor's completions) are parameters that return the calls they make, which the model then runs.

    ** Bounds and fuel

    Integers keep the width they have in the source wherever a result could wrap; each file
    says what it leaves unbounded.  Fuel appears where a loop is not structural.  The
    parser takes one unit per nesting level and token, and more fuel than tokens is always
    enough; the lexer's retry of a character happens at most once and needs none;
    [qemu_run_timers] needs one unit per expired timer; the mouse's packets are as
    many as the movement takes; dropping a reference takes at most one unit per object;
    polling the keyboard controller takes one unit per byte;
    loading a machine takes one unit per section, so that the number of bytes is enough;
    saving takes one per round of live parts; closing a migration's file takes one per byte
    and per time the socket would block before it; a write is retried as often as it is
    interrupted in a row; the network queue's [exec] needs fuel because handlers may call
    back, and with handlers that make no calls one unit more than the queued packets is
    enough, otherwise twice the calls they still make and the calls asked for.  Each of these is a theorem, and the theorems that claim a
    result claim that one is returned.  Times of the interval timer and of the clock are
    below 2^62 ns.

    ** Not modelled

    Sockets, threads and mutexes (the operating system), SDL, libavcodec and libswscale
    (parameters where their answers matter), the Windows guest driver, and the rest of QEMU:
    CPU emulation, other devices, the block layer, slirp, the set-up of migration's sockets,
    the monitor's commands.  Of the modelled files: the in-kernel variants of devices
    and printing of errors.
    PROJECT.json lists every part with its state. *)

From Stdlib Require Export ZArith Lia.
From Stdlib Require Ascii String.
From stdpp Require Export base list list_numbers numbers.

Declare Scope vm_scope.
Delimit Scope vm_scope with vm.
Open Scope Z_scope.

Create HintDb vm discriminated.

(** ** Outcomes of a piece of C or C++ code

    [Ret] is a normal return, [Throw] a C++ exception (for C code the exception
    type is [Empty_set]), [Fault] undefined behaviour: an access outside an
    allocation, a NULL dereference, a failed assertion, a division by zero or an
    overflow of a signed integer. *)
Inductive outcome (E A : Type) : Type :=
| Ret (a : A)
| Throw (e : E)
| Fault.
Arguments Ret {E A} a.
Arguments Throw {E A} e.
Arguments Fault {E A}.

Definition obind {E A B} (m : outcome E A) (k : A -> outcome E B) : outcome E B :=
  match m with
  | Ret a => k a
  | Throw e => Throw e
  | Fault => Fault
  end.

Notation "'let!' x ':=' m 'in' k" := (obind m (fun x => k))
  (at level 10, x name, m at level 100, k at level 200) : vm_scope.
Notation "'let!' ' p ':=' m 'in' k" := (obind m (fun x => match x with p => k end))
  (at level 10, p pattern, m at level 100, k at level 200) : vm_scope.
Notation "'do!' m 'in' k" := (obind m (fun _ => k))
  (at level 10, m at level 100, k at level 200) : vm_scope.
Open Scope vm_scope.

(** An option whose [None] means undefined behaviour. *)
Definition oget {E A} (o : option A) : outcome E A :=
  match o with Some a => Ret a | None => Fault end.

Definition is_ret {E A} (m : outcome E A) : bool :=
  match m with Ret _ => true | _ => false end.

Lemma Ret_inj {E A} (a b : A) : Ret (E:=E) a = Ret b -> a = b.
Proof. by intros [= ->]. Qed.

Lemma obind_assoc {E A B C} (m : outcome E A) (f : A -> outcome E B) (g : B -> outcome E C) :
  obind (obind m f) g = obind m (fun x => obind (f x) g).
Proof. by destruct m. Qed.

Lemma obind_ret_inv {E A B} (m : outcome E A) (k : A -> outcome E B) (b : B) :
  obind m k = Ret b -> exists a, m = Ret a /\ k a = Ret b.
Proof. destruct m; simpl; naive_solver. Qed.

(** ** Machine integers: a w-bit value is a [Z], wrap-around is written out *)
Definition wrap (w z : Z) : Z := z mod 2 ^ w.
Definition swrap (w z : Z) : Z := (z + 2 ^ (w - 1)) mod 2 ^ w - 2 ^ (w - 1).

Abbreviation u8 := (wrap 8).
Abbreviation u16 := (wrap 16).
Abbreviation u32 := (wrap 32).
Abbreviation u64 := (wrap 64).
Abbreviation s32 := (swrap 32).
Abbreviation s64 := (swrap 64).

Definition is_u (w z : Z) : Prop := 0 <= z < 2 ^ w.
Definition is_s (w z : Z) : Prop := - 2 ^ (w - 1) <= z < 2 ^ (w - 1).

Lemma wrap_range w z : 0 <= w -> is_u w (wrap w z).
Proof. intros. apply Z.mod_pos_bound. lia. Qed.

Lemma wrap_small w z : is_u w z -> wrap w z = z.
Proof. intros. by apply Z.mod_small. Qed.

Lemma wrap_wrap w z : wrap w (wrap w z) = wrap w z.
Proof. apply Zmod_mod. Qed.

Lemma wrap_add_l w a b : wrap w (wrap w a + b) = wrap w (a + b).
Proof. apply Zplus_mod_idemp_l. Qed.

Lemma wrap_add_r w a b : wrap w (a + wrap w b) = wrap w (a + b).
Proof. apply Zplus_mod_idemp_r. Qed.

Lemma swrap_small w z : 0 < w -> is_s w z -> swrap w z = z.
Proof.
  intros Hw [H1 H2]. unfold swrap.
  assert (2 ^ w = 2 * 2 ^ (w - 1)) as E.
  { rewrite <- Z.pow_succ_r by lia. f_equal. lia. }
  rewrite Z.mod_small; lia.
Qed.

Lemma swrap_range w z : 0 < w -> is_s w (swrap w z).
Proof.
  intros Hw. unfold swrap, is_s.
  assert (2 ^ w = 2 * 2 ^ (w - 1)) as E.
  { rewrite <- Z.pow_succ_r by lia. f_equal. lia. }
  pose proof (Z.mod_pos_bound (z + 2 ^ (w - 1)) (2 ^ w)). lia.
Qed.

Lemma swrap_wrap w z : 0 < w -> swrap w (wrap w z) = swrap w z.
Proof. intros. unfold swrap, wrap. by rewrite Zplus_mod_idemp_l. Qed.

Lemma wrap_swrap w z : 0 < w -> wrap w (swrap w z) = wrap w z.
Proof.
  intros. unfold swrap, wrap.
  rewrite Zminus_mod_idemp_l. f_equal. lia.
Qed.

(** The bytes of a string literal. *)
Definition str (s : String.string) : list Z := map (fun a => Z.of_N (Ascii.N_of_ascii a)) (String.list_ascii_of_string s).

(** ** Bytes and little-endian stores *)
Definition is_byte (b : Z) : Prop := 0 <= b < 256.
Abbreviation bytes := (Forall is_byte).

#[export] Instance is_byte_dec b : Decision (is_byte b).
Proof. unfold is_byte. apply _. Defined.

Fixpoint le_bytes (n : nat) (z : Z) : list Z :=
  match n with
  | O => []
  | S n => z mod 256 :: le_bytes n (z / 256)
  end.

Fixpoint le_val (bs : list Z) : Z :=
  match bs with
  | [] => 0
  | b :: bs => b + 256 * le_val bs
  end.

Lemma length_le_bytes n z : length (le_bytes n z) = n.
Proof. revert z. induction n; intros; simpl; congruence. Qed.

Lemma le_bytes_bytes n z : bytes (le_bytes n z).
Proof.
  revert z. induction n; intros; simpl; constructor; auto.
  apply Z.mod_pos_bound. lia.
Qed.

Lemma le_val_le_bytes n z : le_val (le_bytes n z) = wrap (8 * Z.of_nat n) z.
Proof.
  revert z. induction n as [|n IH]; intros z.
  - unfold wrap. simpl. by rewrite Z.mod_1_r.
  - cbn [le_bytes le_val]. rewrite IH. unfold wrap.
    replace (8 * Z.of_nat (S n)) with (8 + 8 * Z.of_nat n) by lia.
    rewrite Z.pow_add_r by lia. change (2 ^ 8) with 256.
    rewrite Z.rem_mul_r; lia.
Qed.

Lemma le_val_range bs : bytes bs -> 0 <= le_val bs < 2 ^ (8 * Z.of_nat (length bs)).
Proof.
  induction 1 as [|b bs [Hb1 Hb2] _ IH]; [simpl; lia|].
  cbn [le_val length].
  replace (8 * Z.of_nat (S (length bs))) with (8 + 8 * Z.of_nat (length bs)) by lia.
  rewrite Z.pow_add_r by lia. change (2 ^ 8) with 256. nia.
Qed.

Lemma le_bytes_le_val bs : bytes bs -> le_bytes (length bs) (le_val bs) = bs.
Proof.
  induction 1 as [|b bs [Hb1 Hb2] _ IH]; [done|].
  cbn [le_val length le_bytes].
  replace (b + 256 * le_val bs) with (b + le_val bs * 256) by lia.
  rewrite Z_mod_plus, Z.div_add, Z.mod_small, Z.div_small by lia.
  by rewrite Z.add_0_l, IH.
Qed.

(** ** Contiguous memory: bounds-checked loads and stores *)
Definition load {A} (m : list A) (pos n : Z) : option (list A) :=
  if (0 <=? pos) && (0 <=? n) && (pos + n <=? Z.of_nat (length m))
  then Some (take (Z.to_nat n) (drop (Z.to_nat pos) m))
  else None.

Definition store {A} (m : list A) (pos : Z) (vs : list A) : option (list A) :=
  if (0 <=? pos) && (pos + Z.of_nat (length vs) <=? Z.of_nat (length m))
  then Some (take (Z.to_nat pos) m ++ vs ++ drop (Z.to_nat pos + length vs) m)
  else None.

Lemma length_store {A} (m m' : list A) pos vs :
  store m pos vs = Some m' -> length m' = length m.
Proof.
  unfold store. destruct (_ && _) eqn:E; [|done]. intros [= <-].
  rewrite !length_app, length_take, length_drop. lia.
Qed.

(** ** Tactics *)
Ltac bool_hyps :=
  repeat match goal with
  | H : _ && _ = true |- _ => apply andb_true_iff in H; destruct H
  | H : _ || _ = false |- _ => apply orb_false_iff in H; destruct H
  | H : negb _ = true |- _ => apply negb_true_iff in H
  | H : negb _ = false |- _ => apply negb_false_iff in H
  | H : (_ <=? _) = true |- _ => apply Z.leb_le in H
  | H : (_ <=? _) = false |- _ => apply Z.leb_gt in H
  | H : (_ <? _) = true |- _ => apply Z.ltb_lt in H
  | H : (_ <? _) = false |- _ => apply Z.ltb_ge in H
  | H : (_ =? _) = true |- _ => apply Z.eqb_eq in H
  | H : (_ =? _) = false |- _ => apply Z.eqb_neq in H
  end.

(** Case analysis on the first [if] of the goal, with its condition in [Prop]. *)
Ltac if_case :=
  match goal with
  | |- context [if ?b then _ else _] => let E := fresh "E" in destruct b eqn:E; bool_hyps
  end.

#[export] Hint Resolve le_bytes_bytes length_le_bytes : vm.

(** ** Bytes and bit operations *)
Lemma byte_bits x : is_byte x <-> 0 <= x /\ forall n, 8 <= n -> Z.testbit x n = false.
Proof.
  split.
  - intros [H1 H2]. split; [done|]. intros n Hn. by apply (proj1 (Z.bounded_iff_bits_nonneg 8 x ltac:(lia) H1)).
  - intros [H1 H2]. split; [done|]. change 256 with (2 ^ 8). by apply Z.bounded_iff_bits_nonneg.
Qed.

Lemma u8_byte x : is_byte (u8 x).
Proof. apply (wrap_range 8). lia. Qed.
Lemma land_byte x m : is_byte x -> is_byte (Z.land x m).
Proof.
  rewrite !byte_bits. intros [H1 H2]. split; [apply Z.land_nonneg; auto|]. intros n Hn. by rewrite Z.land_spec, H2.
Qed.
Lemma land_byte_r x m : is_byte m -> is_byte (Z.land x m).
Proof. rewrite Z.land_comm. apply land_byte. Qed.
Lemma lor_byte x y : is_byte x -> is_byte y -> is_byte (Z.lor x y).
Proof.
  rewrite !byte_bits. intros [H1 H2] [H3 H4]. split; [by apply Z.lor_nonneg|]. intros n Hn. by rewrite Z.lor_spec, H2, H4.
Qed.
Lemma lxor_byte x y : is_byte x -> is_byte y -> is_byte (Z.lxor x y).
Proof.
  rewrite !byte_bits. intros [H1 H2] [H3 H4]. split; [apply Z.lxor_nonneg; lia|]. intros n Hn. by rewrite Z.lxor_spec, H2, H4.
Qed.
Lemma shiftr_byte x n : 0 <= n -> is_byte x -> is_byte (Z.shiftr x n).
Proof.
  intros Hn. rewrite !byte_bits. intros [H1 H2]. split; [by apply Z.shiftr_nonneg|]. intros k Hk. rewrite Z.shiftr_spec by lia. apply H2. lia.
Qed.
#[export] Hint Resolve u8_byte land_byte lor_byte lxor_byte : vm.

(** ** Loads and stores: what they return *)
Lemma load_ok {A} (m : list A) pos n :
  0 <= pos -> 0 <= n -> pos + n <= Z.of_nat (length m) ->
  load m pos n = Some (take (Z.to_nat n) (drop (Z.to_nat pos) m)).
Proof. intros. unfold load. by rewrite !(proj2 (Z.leb_le _ _)) by lia. Qed.

Lemma load_none {A} (m : list A) pos n :
  Z.of_nat (length m) < pos + n -> load m pos n = None.
Proof.
  intros. unfold load. rewrite (proj2 (Z.leb_gt (pos + n) _)) by lia.
  by rewrite andb_false_r.
Qed.

Lemma store_ok {A} (m vs : list A) pos :
  0 <= pos -> pos + Z.of_nat (length vs) <= Z.of_nat (length m) ->
  store m pos vs = Some (take (Z.to_nat pos) m ++ vs ++ drop (Z.to_nat pos + length vs) m).
Proof. intros. unfold store. by rewrite !(proj2 (Z.leb_le _ _)) by lia. Qed.

(** A load that stays inside a segment of the memory sees only that segment. *)
Lemma load_app {A} (p m s : list A) n :
  n = Z.of_nat (length m) ->
  load (p ++ m ++ s) (Z.of_nat (length p)) n = Some m.
Proof.
  intros ->. rewrite load_ok by (rewrite ?length_app; lia).
  by rewrite !Nat2Z.id, drop_app_length, take_app_length.
Qed.

Lemma mapM_id_Some {A} (l : list A) : mapM (M:=option) id (map Some l) = Some l.
Proof. induction l as [|x l IH]; [done|]. simpl. by rewrite IH. Qed.

(** ** Finite checks: a property of every integer of a range, by computation *)
Fixpoint forallZ (P : Z -> bool) (lo : Z) (n : nat) : bool :=
  match n with O => true | S n => P lo && forallZ P (lo + 1) n end.

Lemma range_check (P : Z -> bool) lo n :
  forallZ P lo (Z.to_nat n) = true -> forall c, lo <= c < lo + n -> P c = true.
Proof.
  intros H c Hc. assert (n = Z.of_nat (Z.to_nat n)) as En by lia. rewrite En in Hc. clear En.
  revert lo H Hc. induction (Z.to_nat n) as [|k IH]; intros lo H Hc; [lia|].
  cbn [forallZ] in H. apply andb_true_iff in H as [H1 H2].
  destruct (Z.eq_dec c lo) as [->|Hne]; [done|]. apply (IH (lo + 1)); [done|lia].
Qed.

(** ** Loads after stores *)
Lemma load_Some {A} (m : list A) pos n l :
  load m pos n = Some l ->
  0 <= pos /\ 0 <= n /\ pos + n <= Z.of_nat (length m) /\ Z.of_nat (length l) = n /\
  l = take (Z.to_nat n) (drop (Z.to_nat pos) m).
Proof.
  unfold load. destruct (_ && _) eqn:E; [|done]. intros [= <-]. bool_hyps.
  rewrite length_take, length_drop. split_and!; (lia || done).
Qed.

Lemma store_Some {A} (m m' : list A) pos vs :
  store m pos vs = Some m' ->
  0 <= pos /\ pos + Z.of_nat (length vs) <= Z.of_nat (length m) /\
  m' = take (Z.to_nat pos) m ++ vs ++ drop (Z.to_nat pos + length vs) m.
Proof. unfold store. destruct (_ && _) eqn:E; [|done]. intros [= <-]. bool_hyps. done. Qed.

Lemma load_store_same {A} (m m' vs : list A) pos n :
  store m pos vs = Some m' -> n = Z.of_nat (length vs) -> load m' pos n = Some vs.
Proof.
  intros (H1 & H2 & ->)%store_Some ->.
  pose proof (load_app (take (Z.to_nat pos) m) vs (drop (Z.to_nat pos + length vs) m) _ eq_refl) as H.
  rewrite length_take in H. by replace (Z.of_nat (Z.to_nat pos `min` length m)) with pos in H by lia.
Qed.

Lemma load_store_other {A} (m m' vs : list A) pos q n :
  store m pos vs = Some m' -> q + n <= pos \/ pos + Z.of_nat (length vs) <= q -> load m' q n = load m q n.
Proof.
  intros E Hd. pose proof (length_store _ _ _ _ E) as Hl. apply store_Some in E as (H1 & H2 & ->).
  unfold load. rewrite Hl. destruct ((0 <=? q) && (0 <=? n) && (q + n <=? Z.of_nat (length m))) eqn:Eb; [|done].
  bool_hyps. f_equal. apply list_eq. intros i.
  destruct (decide (i < Z.to_nat n)%nat) as [Hi|Hi];
    [|by rewrite !lookup_take_ge by lia].
  rewrite !lookup_take_lt, !lookup_drop by done. destruct Hd as [Hd|Hd].
  - rewrite lookup_app_l by (rewrite length_take; lia). by rewrite lookup_take_lt by lia.
  - rewrite lookup_app_r by (rewrite length_take; lia). rewrite lookup_app_r by (rewrite length_take; lia).
    rewrite lookup_drop, length_take. f_equal. lia.
Qed.

Lemma store_store_same {A} (m m' a b : list A) pos :
  store m pos a = Some m' -> length a = length b -> store m' pos b = store m pos b.
Proof.
  intros E Hl. pose proof (length_store _ _ _ _ E) as Hm. apply store_Some in E as (H1 & H2 & ->).
  rewrite !store_ok by lia. do 2 f_equal.
  - by rewrite take_app_le, take_take, Nat.min_l by (rewrite ?length_take; lia).
  - f_equal. rewrite app_assoc, drop_app_ge by (rewrite length_app, length_take; lia).
    rewrite drop_drop, length_app, length_take. f_equal. lia.
Qed.

Lemma store_app {A} (m m' a b : list A) pos :
  store m pos a = Some m' -> store m' (pos + Z.of_nat (length a)) b = store m pos (a ++ b).
Proof.
  intros E. pose proof (length_store _ _ _ _ E) as Hm. apply store_Some in E as (H1 & H2 & ->).
  unfold store. rewrite Hm, length_app, Nat2Z.inj_add, Z.add_assoc.
  rewrite (proj2 (Z.leb_le 0 pos)), (proj2 (Z.leb_le 0 (pos + Z.of_nat (length a)))) by lia. cbn [andb].
  destruct (_ <=? _) eqn:El; [|done]. bool_hyps. f_equal.
  rewrite (app_assoc (take (Z.to_nat pos) m) a).
  rewrite take_app_length' by (rewrite length_app, length_take; lia).
  rewrite drop_app_ge by (rewrite length_app, length_take; lia).
  rewrite <- !app_assoc. do 3 f_equal. rewrite drop_drop, length_app, length_take. f_equal. lia.
Qed.

Lemma load_split {A} (m l1 l2 : list A) pos n :
  load m pos n = Some (l1 ++ l2) ->
  load m pos (Z.of_nat (length l1)) = Some l1 /\
  load m (pos + Z.of_nat (length l1)) (Z.of_nat (length l2)) = Some l2.
Proof.
  intros E. apply load_Some in E as (H1 & H2 & H3 & H4 & E). rewrite length_app in H4.
  rewrite !load_ok by lia. rewrite !Nat2Z.id. replace (Z.to_nat n) with (length l1 + length l2)%nat in E by lia.
  split.
  - f_equal. transitivity (take (length l1) (l1 ++ l2)); [|by rewrite take_app_length].
    rewrite E, take_take. f_equal. lia.
  - f_equal. replace (Z.to_nat (pos + Z.of_nat (length l1))) with (Z.to_nat pos + length l1)%nat by lia.
    transitivity (drop (length l1) (l1 ++ l2)); [|by rewrite drop_app_length].
    rewrite E, skipn_firstn_comm, drop_drop. f_equal. lia.
Qed.

(** ** Checked [int] arithmetic: a result that does not fit is undefined *)
Definition int_ok (z : Z) : bool := (- 2 ^ 31 <=? z) && (z <? 2 ^ 31).
Definition cint {E} (z : Z) : outcome E Z := if int_ok z then Ret z else Fault.
Definition cmul {E} (a b : Z) : outcome E Z := cint (a * b).
Definition cadd {E} (a b : Z) : outcome E Z := cint (a + b).
Definition csub {E} (a b : Z) : outcome E Z := cint (a - b).
Definition cdiv {E} (a b : Z) : outcome E Z := if b =? 0 then Fault else cint (Z.quot a b).

Lemma cint_ret {E} z : - 2 ^ 31 <= z < 2 ^ 31 -> @cint E z = Ret z.
Proof. intros [H1 H2]. unfold cint, int_ok. by rewrite (proj2 (Z.leb_le _ _) H1), (proj2 (Z.ltb_lt _ _) H2). Qed.
