(* ===== verification/Message.v ===== *)
(** * The guest/host message library: Message, MessageBuilder, MessageReader

    Models src/comm/bknd/Message.{h,cpp}, MessageBuilder.{h,cpp} and
    MessageReader.{h,cpp}.  A [char] array is a list of cells, [None] being a byte
    that was allocated but never written; the reference-counted [Refbuf] objects live
    in a heap and a [Message] holds the address of one of them.  [unsigned int] is
    kept at 32 bits with its wrap-around. *)

From S2P Require Import Prelude.
From stdpp Require Import gmap strings.

Open Scope Z_scope.

Abbreviation cell := (option Z).

Inductive exn : Type :=
| ReaderException (what : string)
| ConnectionException (what : string)
| UdpException (what : string).

(** ** Message.cpp *)

Record Refbuf := { rb_content : list cell; rb_refcount : Z }.

Record heap := Heap { bufs : gmap nat Refbuf; next : nat }.

Record Message := { m_header : Z; m_length : Z; m_content : nat }.

Definition Refbuf_inc (l : nat) (h : heap) : outcome exn heap :=
  match bufs h !! l with
  | None => Fault
  | Some rb =>
      Ret (Heap (<[l := {| rb_content := rb_content rb; rb_refcount := u32 (rb_refcount rb + 1) |}]> (bufs h))
                (next h))
  end.

(** [dec] deletes the buffer object when the count reaches zero. *)
Definition Refbuf_dec (l : nat) (h : heap) : outcome exn heap :=
  match bufs h !! l with
  | None => Fault
  | Some rb =>
      let n := u32 (rb_refcount rb - 1) in
      if n =? 0 then Ret (Heap (delete l (bufs h)) (next h))
      else Ret (Heap (<[l := {| rb_content := rb_content rb; rb_refcount := n |}]> (bufs h)) (next h))
  end.

Definition Message_new (header length : Z) (buf : list cell) (h : heap) : Message * heap :=
  ({| m_header := header; m_length := length; m_content := next h |},
   Heap (<[next h := {| rb_content := buf; rb_refcount := 1 |}]> (bufs h)) (S (next h))).

Definition Message_copy (other : Message) (h : heap) : outcome exn (Message * heap) :=
  let! h := Refbuf_inc (m_content other) h in
  Ret ({| m_header := m_header other; m_length := m_length other; m_content := m_content other |}, h).

(** [this_is_other] is the test [this == &other]. *)
Definition Message_assign (this_is_other : bool) (this other : Message) (h : heap)
  : outcome exn (Message * heap) :=
  if this_is_other then Ret (this, h)
  else
    let! h := Refbuf_dec (m_content this) h in
    let this := {| m_header := m_header other; m_length := m_length other;
                   m_content := m_content other |} in
    let! h := Refbuf_inc (m_content this) h in
    Ret (this, h).

Definition Message_destroy (this : Message) (h : heap) : outcome exn heap :=
  Refbuf_dec (m_content this) h.

Definition getContentPtr (m : Message) (h : heap) : outcome exn (list cell) :=
  match bufs h !! m_content m with
  | None => Fault
  | Some rb => Ret (rb_content rb)
  end.

(** ** MessageBuilder.cpp *)

Record MessageBuilder := {
  mb_content : list cell;
  mb_init_cap : Z;
  mb_capacity : Z;
  mb_size : Z;
  mb_header : Z
}.

Definition DEFAULT_CAP : Z := 10.

Definition new_array (n : Z) : list cell := replicate (Z.to_nat n) None.

Definition MessageBuilder_new (header init_cap : Z) : MessageBuilder :=
  {| mb_content := new_array init_cap; mb_init_cap := init_cap; mb_capacity := init_cap;
     mb_size := 0; mb_header := header |}.

Definition MessageBuilder_default : MessageBuilder := MessageBuilder_new 0 DEFAULT_CAP.

Definition toMessage (b : MessageBuilder) (h : heap) : Message * MessageBuilder * heap :=
  let '(m, h) := Message_new (mb_header b) (mb_size b) (mb_content b) h in
  (m, {| mb_content := new_array (mb_init_cap b); mb_init_cap := mb_init_cap b;
         mb_capacity := mb_init_cap b; mb_size := 0; mb_header := mb_header b |}, h).

Definition setHeader (header : Z) (b : MessageBuilder) : MessageBuilder :=
  {| mb_content := mb_content b; mb_init_cap := mb_init_cap b; mb_capacity := mb_capacity b;
     mb_size := mb_size b; mb_header := header |}.

Definition set_buffer (c : list cell) (cap : Z) (b : MessageBuilder) : MessageBuilder :=
  {| mb_content := c; mb_init_cap := mb_init_cap b; mb_capacity := cap;
     mb_size := mb_size b; mb_header := mb_header b |}.

Definition reserve (size : Z) (b : MessageBuilder) : outcome exn MessageBuilder :=
  let capacity := mb_capacity b in
  if capacity <? size then
    let capacity := u32 (Z.shiftl capacity 1) in
    let capacity := if capacity <? size then size else capacity in
    let new_content := new_array capacity in
    let! old := oget (load (mb_content b) 0 (mb_size b)) in
    let! new_content := oget (store new_content 0 old) in
    Ret (set_buffer new_content capacity b)
  else Ret b.

(** [*(T* )(content + size) = value; size += sizeof(value)], and the [memcpy] forms. *)
Definition put (vs : list Z) (b : MessageBuilder) : outcome exn MessageBuilder :=
  let! c := oget (store (mb_content b) (mb_size b) (map Some vs)) in
  Ret {| mb_content := c; mb_init_cap := mb_init_cap b; mb_capacity := mb_capacity b;
         mb_size := u32 (mb_size b + Z.of_nat (length vs)); mb_header := mb_header b |}.

(** The scalar overloads: [n] is [sizeof(value)], a value (for [float] and [double] its
    IEEE bit pattern) is stored little-endian. *)
Definition write_scalar (n : nat) (value : Z) (b : MessageBuilder) : outcome exn MessageBuilder :=
  let! b := reserve (u32 (mb_size b + Z.of_nat n)) b in
  put (le_bytes n value) b.

Definition write_char := write_scalar 1.
Definition write_uchar := write_scalar 1.
Definition write_short := write_scalar 2.
Definition write_ushort := write_scalar 2.
Definition write_int := write_scalar 4.
Definition write_uint := write_scalar 4.
Definition write_int64 := write_scalar 8.
Definition write_uint64 := write_scalar 8.
Definition write_float := write_scalar 4.
Definition write_double := write_scalar 8.

Definition write_string (value : list Z) (b : MessageBuilder) : outcome exn MessageBuilder :=
  let len := Z.of_nat (length value) in
  let! b := reserve (u32 (mb_size b + 4 + len)) b in
  let! b := put (le_bytes 4 (u32 len)) b in
  put value b.

Definition write_bytes (bs : list Z) (b : MessageBuilder) : outcome exn MessageBuilder :=
  let! b := reserve (u32 (mb_size b + Z.of_nat (length bs))) b in
  put bs b.

(** ** MessageReader.cpp *)

Record MessageReader := { mr_message : Message; mr_content : nat; seek_pos : Z }.

Definition MessageReader_new (mess : Message) (h : heap) : outcome exn (MessageReader * heap) :=
  let! '(m, h) := Message_copy mess h in
  Ret ({| mr_message := m; mr_content := m_content m; seek_pos := 0 |}, h).

(** [getLength] converts the length to [int], [getSize] converts it back. *)
Definition getLength (m : Message) : Z := s32 (m_length m).
Definition getSize (r : MessageReader) : Z := u32 (getLength (mr_message r)).

Definition set_pos (pos : Z) (r : MessageReader) : MessageReader :=
  {| mr_message := mr_message r; mr_content := mr_content r; seek_pos := pos |}.

Definition seek (pos : Z) (r : MessageReader) : outcome exn MessageReader :=
  if getSize r <? pos then Throw (ReaderException "Seek out of range.")
  else Ret (set_pos pos r).

Definition tell (r : MessageReader) : Z := seek_pos r.

Definition assureSize (size_to_read : Z) (r : MessageReader) : outcome exn unit :=
  if getSize r <? u32 (seek_pos r + size_to_read)
  then Throw (ReaderException "Not enough data to read.")
  else Ret tt.

(** The bytes at [content + pos]; reading outside the buffer or a byte that was never
    written is undefined. *)
Definition fetch (h : heap) (l : nat) (pos n : Z) : outcome exn (list Z) :=
  match bufs h !! l with
  | None => Fault
  | Some rb => let! cs := oget (load (rb_content rb) pos n) in oget (mapM id cs)
  end.

Definition read_raw (h : heap) (n : Z) (r : MessageReader) : outcome exn (list Z * MessageReader) :=
  do! assureSize n r in
  let! bs := fetch h (mr_content r) (seek_pos r) n in
  Ret (bs, set_pos (u32 (seek_pos r + n)) r).

Definition read_scalar (conv : Z -> Z) (n : Z) (h : heap) (r : MessageReader)
  : outcome exn (Z * MessageReader) :=
  let! '(bs, r) := read_raw h n r in Ret (conv (le_val bs), r).

Definition readSByte := read_scalar (swrap 8) 1.
Definition readByte := read_scalar id 1.
Definition readInt16 := read_scalar (swrap 16) 2.
Definition readUInt16 := read_scalar id 2.
Definition readInt32 := read_scalar (swrap 32) 4.
Definition readUInt32 := read_scalar id 4.
Definition readInt64 := read_scalar (swrap 64) 8.
Definition readUInt64 := read_scalar id 8.

Definition readString (h : heap) (r : MessageReader) : outcome exn (list Z * MessageReader) :=
  let! '(size, r) := readUInt32 h r in
  do! assureSize size r in
  let org_seek_pos := seek_pos r in
  let r := set_pos (u32 (seek_pos r + size)) r in
  let! bs := fetch h (mr_content r) org_seek_pos size in
  Ret (bs, r).

Definition readBytes (size : Z) (h : heap) (r : MessageReader) : outcome exn (list Z * MessageReader) :=
  read_raw h size r.

(** ** The builder implements an append-only byte string

    [repr b bs]: the first [size] cells of the buffer hold exactly [bs], and the
    capacity field is the true size of the allocation. *)
Record repr (b : MessageBuilder) (bs : list Z) : Prop := {
  repr_cells : take (length bs) (mb_content b) = map Some bs;
  repr_size : mb_size b = Z.of_nat (length bs);
  repr_cap : mb_capacity b = Z.of_nat (length (mb_content b));
  repr_fits : (length bs <= length (mb_content b))%nat;
  repr_u32 : mb_capacity b < 2 ^ 32;
  repr_init : 0 <= mb_init_cap b < 2 ^ 32
}.

Lemma length_new_array n : 0 <= n -> Z.of_nat (length (new_array n)) = n.
Proof. intros. unfold new_array. rewrite length_replicate. lia. Qed.

Lemma repr_new header cap :
  0 <= cap < 2 ^ 32 -> repr (MessageBuilder_new header cap) [].
Proof.
  intros [H1 H2]. split; simpl; rewrite ?length_new_array by lia; try lia; done.
Qed.

(** [reserve] keeps the written bytes, never shrinks, and makes room. *)
Lemma reserve_spec b bs size :
  repr b bs -> Z.of_nat (length bs) <= size < 2 ^ 32 ->
  exists b', reserve size b = Ret b' /\ repr b' bs /\ size <= mb_capacity b' /\
    mb_capacity b <= mb_capacity b' /\
    mb_header b' = mb_header b /\ mb_init_cap b' = mb_init_cap b.
Proof.
  intros [Hc Hs Hcap Hfit Hu Hi] Hsz. unfold reserve.
  if_case; [|exists b; repeat split; auto; lia].
  set (cap := if u32 (Z.shiftl (mb_capacity b) 1) <? size then size else u32 (Z.shiftl (mb_capacity b) 1)).
  assert (size <= cap < 2 ^ 32) as [Hlo Hhi].
  { subst cap. pose proof (wrap_range 32 (Z.shiftl (mb_capacity b) 1)) as [? ?]; [lia|].
    if_case; lia. }
  rewrite load_ok by lia. cbn [oget obind]. rewrite drop_0, Hs, Nat2Z.id, Hc.
  rewrite store_ok by (rewrite ?length_map, ?length_new_array; lia). cbn [oget obind].
  eexists. split; [done|]. split_and!; [|simpl; lia..|done|done].
  split; simpl; rewrite ?length_app, ?length_map, ?length_drop; auto; try lia.
  - rewrite ?take_0; simpl; rewrite take_app_le by (rewrite length_map; lia).
    by rewrite take_ge by (rewrite length_map; lia).
  - rewrite ?take_0; simpl; pose proof (length_new_array cap). lia.
Qed.

(** Storing inside the reserved room appends. *)
Lemma put_spec b bs vs :
  repr b bs -> Z.of_nat (length bs + length vs) <= mb_capacity b ->
  exists b', put vs b = Ret b' /\ repr b' (bs ++ vs) /\ mb_capacity b' = mb_capacity b /\
    mb_header b' = mb_header b /\ mb_init_cap b' = mb_init_cap b.
Proof.
  intros [Hc Hs Hcap Hfit Hu Hi] Hroom. unfold put.
  rewrite store_ok by (rewrite ?length_map; lia). cbn [oget obind].
  eexists. split; [done|]. split_and!; [|done..].
  assert (length bs + length vs <= length (mb_content b))%nat by lia.
  rewrite length_map, Hs, Nat2Z.id.
  split; simpl; rewrite ?length_app, ?length_take, ?length_map, ?length_drop; auto; try lia.
  - rewrite map_app, Hc, app_assoc.
    rewrite take_app_le by (rewrite length_app, !length_map; lia).
    by rewrite take_ge by (rewrite length_app, !length_map; lia).
  - rewrite ?Hs, wrap_small by (unfold is_u; lia). lia.
Qed.

Lemma write_scalar_spec b bs n v :
  repr b bs -> Z.of_nat (length bs + n) < 2 ^ 32 ->
  exists b', write_scalar n v b = Ret b' /\ repr b' (bs ++ le_bytes n v) /\
    mb_header b' = mb_header b /\ mb_init_cap b' = mb_init_cap b.
Proof.
  intros Hr Hn. unfold write_scalar.
  rewrite (repr_size _ _ Hr), wrap_small by (unfold is_u; lia).
  edestruct reserve_spec as (b1 & -> & Hr1 & Hroom & _ & Hh & Hi); [done| |]; [lia|].
  destruct (put_spec b1 bs (le_bytes n v)) as (b2 & E & Hr2 & _ & Hh2 & Hi2);
    [done|rewrite length_le_bytes; lia|].
  exists b2. cbn [obind]. rewrite E. split_and!; congruence || done.
Qed.

Lemma write_bytes_spec b bs vs :
  repr b bs -> Z.of_nat (length bs + length vs) < 2 ^ 32 ->
  exists b', write_bytes vs b = Ret b' /\ repr b' (bs ++ vs) /\
    mb_header b' = mb_header b /\ mb_init_cap b' = mb_init_cap b.
Proof.
  intros Hr Hn. unfold write_bytes.
  rewrite (repr_size _ _ Hr), wrap_small by (unfold is_u; lia).
  edestruct reserve_spec as (b1 & -> & Hr1 & Hroom & _ & Hh & Hi); [done| |]; [lia|].
  destruct (put_spec b1 bs vs) as (b2 & E & Hr2 & _ & Hh2 & Hi2); [done|lia|].
  exists b2. cbn [obind]. rewrite E. split_and!; congruence || done.
Qed.

Lemma write_string_spec b bs vs :
  repr b bs -> Z.of_nat (length bs + 4 + length vs) < 2 ^ 32 ->
  exists b', write_string vs b = Ret b' /\
    repr b' (bs ++ le_bytes 4 (Z.of_nat (length vs)) ++ vs) /\
    mb_header b' = mb_header b /\ mb_init_cap b' = mb_init_cap b.
Proof.
  intros Hr Hn. unfold write_string.
  rewrite (repr_size _ _ Hr), !wrap_small by (unfold is_u; lia).
  edestruct reserve_spec as (b1 & -> & Hr1 & Hroom & _ & Hh & Hi); [done| |]; [lia|].
  destruct (put_spec b1 bs (le_bytes 4 (Z.of_nat (length vs)))) as (b2 & E2 & Hr2 & Hc2 & Hh2 & Hi2);
    [done|rewrite length_le_bytes; lia|].
  destruct (put_spec b2 (bs ++ le_bytes 4 (Z.of_nat (length vs))) vs)
    as (b3 & E3 & Hr3 & _ & Hh3 & Hi3);
    [done|rewrite length_app, length_le_bytes; lia|].
  exists b3. cbn [obind]. rewrite E2. cbn [obind]. rewrite E3, app_assoc.
  split_and!; congruence || done.
Qed.

(** ** The reader walks over the bytes of the message

    [reads h r done rest]: the buffer under [r] starts with [done ++ rest], the message
    length says so, and the seek position is after [done]. *)
Record reads (h : heap) (r : MessageReader) (done rest : list Z) : Prop := {
  reads_buf : exists tail rc, bufs h !! mr_content r =
      Some {| rb_content := map Some (done ++ rest) ++ tail; rb_refcount := rc |};
  reads_len : m_length (mr_message r) = Z.of_nat (length (done ++ rest));
  reads_u32 : Z.of_nat (length (done ++ rest)) < 2 ^ 32;
  reads_pos : seek_pos r = Z.of_nat (length done)
}.

Lemma reads_getSize h r d rest : reads h r d rest -> getSize r = Z.of_nat (length (d ++ rest)).
Proof.
  intros [_ Hl Hu _]. unfold getSize, getLength.
  rewrite Hl, wrap_swrap, wrap_small by (unfold is_u; lia). done.
Qed.

Lemma fetch_spec h r d vs rest :
  reads h r d (vs ++ rest) ->
  fetch h (mr_content r) (seek_pos r) (Z.of_nat (length vs)) = Ret vs.
Proof.
  intros [(tail & rc & Hb) _ _ Hp]. unfold fetch. rewrite Hb, Hp. cbn [rb_content].
  rewrite !map_app, <- app_assoc, <- (length_map Some d), <- app_assoc.
  rewrite load_app by (by rewrite length_map). cbn [oget obind].
  by rewrite mapM_id_Some.
Qed.

Lemma reads_advance h r d vs rest :
  reads h r d (vs ++ rest) ->
  reads h (set_pos (u32 (seek_pos r + Z.of_nat (length vs))) r) (d ++ vs) rest.
Proof.
  intros [Hb Hl Hu Hp]. split; simpl; rewrite <- ?app_assoc; auto.
  rewrite !length_app in Hu. rewrite Hp, wrap_small by (unfold is_u; lia).
  rewrite length_app. lia.
Qed.

Lemma assureSize_ok h r d vs rest :
  reads h r d (vs ++ rest) -> assureSize (Z.of_nat (length vs)) r = Ret tt.
Proof.
  intros Hr. unfold assureSize. rewrite (reads_getSize _ _ _ _ Hr).
  destruct Hr as [_ _ Hu Hp]. rewrite !length_app in *.
  rewrite Hp, wrap_small by (unfold is_u; lia).
  if_case; [lia|done].
Qed.

Lemma assureSize_short h r d rest n :
  reads h r d rest -> Z.of_nat (length rest) < n -> Z.of_nat (length d) + n < 2 ^ 32 ->
  assureSize n r = Throw (ReaderException "Not enough data to read.").
Proof.
  intros Hr Hn Hw. unfold assureSize. rewrite (reads_getSize _ _ _ _ Hr).
  destruct Hr as [_ _ _ Hp]. rewrite length_app, Hp, wrap_small by (unfold is_u; lia).
  if_case; [done|lia].
Qed.

Lemma read_raw_spec h r d vs rest :
  reads h r d (vs ++ rest) ->
  exists r', read_raw h (Z.of_nat (length vs)) r = Ret (vs, r') /\ reads h r' (d ++ vs) rest.
Proof.
  intros Hr. unfold read_raw.
  rewrite (assureSize_ok _ _ _ _ _ Hr), (fetch_spec _ _ _ _ _ Hr). simpl.
  eauto using reads_advance.
Qed.

(** ** Typed fields: what the overloads of [write] and the [read] functions exchange *)
Inductive kind := KSByte | KByte | KInt16 | KUInt16 | KInt32 | KUInt32 | KInt64 | KUInt64.

Inductive field :=
| FScalar (k : kind) (v : Z)
| FString (bs : list Z)
| FBytes (bs : list Z).

Definition write_kind (k : kind) : Z -> MessageBuilder -> outcome exn MessageBuilder :=
  match k with
  | KSByte => write_char | KByte => write_uchar | KInt16 => write_short
  | KUInt16 => write_ushort | KInt32 => write_int | KUInt32 => write_uint
  | KInt64 => write_int64 | KUInt64 => write_uint64
  end.

Definition read_kind (k : kind) : heap -> MessageReader -> outcome exn (Z * MessageReader) :=
  match k with
  | KSByte => readSByte | KByte => readByte | KInt16 => readInt16 | KUInt16 => readUInt16
  | KInt32 => readInt32 | KUInt32 => readUInt32 | KInt64 => readInt64 | KUInt64 => readUInt64
  end.

Definition write_field (f : field) (b : MessageBuilder) : outcome exn MessageBuilder :=
  match f with
  | FScalar k v => write_kind k v b
  | FString bs => write_string bs b
  | FBytes bs => write_bytes bs b
  end.

(** Reads a field of the shape of [f] ([readBytes] is told how many bytes to read). *)
Definition read_field (f : field) (h : heap) (r : MessageReader)
  : outcome exn (field * MessageReader) :=
  match f with
  | FScalar k _ => let! '(v, r) := read_kind k h r in Ret (FScalar k v, r)
  | FString _ => let! '(bs, r) := readString h r in Ret (FString bs, r)
  | FBytes bs => let! '(bs, r) := readBytes (Z.of_nat (length bs)) h r in Ret (FBytes bs, r)
  end.

Fixpoint write_all (fs : list field) (b : MessageBuilder) : outcome exn MessageBuilder :=
  match fs with
  | [] => Ret b
  | f :: fs => let! b := write_field f b in write_all fs b
  end.

Fixpoint read_all (fs : list field) (h : heap) (r : MessageReader)
  : outcome exn (list field * MessageReader) :=
  match fs with
  | [] => Ret ([], r)
  | f :: fs =>
      let! '(x, r) := read_field f h r in
      let! '(xs, r) := read_all fs h r in
      Ret (x :: xs, r)
  end.

Definition kind_width (k : kind) : nat :=
  match k with
  | KSByte | KByte => 1 | KInt16 | KUInt16 => 2
  | KInt32 | KUInt32 => 4 | KInt64 | KUInt64 => 8
  end.

Definition kind_ok (k : kind) (v : Z) : Prop :=
  let w := 8 * Z.of_nat (kind_width k) in
  match k with
  | KSByte | KInt16 | KInt32 | KInt64 => is_s w v
  | _ => is_u w v
  end.

Definition field_ok (f : field) : Prop :=
  match f with FScalar k v => kind_ok k v | _ => True end.

Definition encode (f : field) : list Z :=
  match f with
  | FScalar k v => le_bytes (kind_width k) v
  | FString bs => le_bytes 4 (Z.of_nat (length bs)) ++ bs
  | FBytes bs => bs
  end.

Definition encode_all (fs : list field) : list Z := concat (map encode fs).

Lemma write_field_spec f b bs :
  repr b bs -> Z.of_nat (length (bs ++ encode f)) < 2 ^ 32 ->
  exists b', write_field f b = Ret b' /\ repr b' (bs ++ encode f) /\
    mb_header b' = mb_header b /\ mb_init_cap b' = mb_init_cap b.
Proof.
  intros Hr. rewrite length_app. intros Hl. destruct f as [k v|vs|vs]; cbn [encode write_field] in *.
  - rewrite length_le_bytes in Hl.
    destruct k; simpl; apply write_scalar_spec; auto.
  - apply write_string_spec; auto. rewrite length_app, length_le_bytes in Hl. lia.
  - apply write_bytes_spec; auto; lia.
Qed.

Lemma write_all_spec fs b bs :
  repr b bs -> Z.of_nat (length (bs ++ encode_all fs)) < 2 ^ 32 ->
  exists b', write_all fs b = Ret b' /\ repr b' (bs ++ encode_all fs) /\
    mb_header b' = mb_header b /\ mb_init_cap b' = mb_init_cap b.
Proof.
  revert b bs. induction fs as [|f fs IH]; intros b bs Hr Hl.
  { exists b. rewrite app_nil_r. auto. }
  change (encode_all (f :: fs)) with (encode f ++ encode_all fs) in *.
  rewrite app_assoc in Hl |- *.
  destruct (write_field_spec f b bs) as (b1 & E1 & Hr1 & Hh1 & Hi1); [done| |].
  { rewrite length_app in Hl. lia. }
  destruct (IH b1 _ Hr1 Hl) as (b2 & E2 & Hr2 & Hh2 & Hi2).
  exists b2. cbn [write_all]. rewrite E1. cbn [obind]. split_and!; congruence || done.
Qed.

Lemma read_scalar_spec h r d n v conv rest :
  reads h r d (le_bytes n v ++ rest) -> conv (wrap (8 * Z.of_nat n) v) = v ->
  exists r', read_scalar conv (Z.of_nat n) h r = Ret (v, r') /\ reads h r' (d ++ le_bytes n v) rest.
Proof.
  intros Hr Hc. destruct (read_raw_spec _ _ _ _ _ Hr) as (r' & E & Hr').
  exists r'. split; [|done]. unfold read_scalar. rewrite length_le_bytes in E.
  rewrite E. cbn [obind]. by rewrite le_val_le_bytes, Hc.
Qed.

Definition kind_conv (k : kind) : Z -> Z :=
  match k with
  | KSByte | KInt16 | KInt32 | KInt64 => swrap (8 * Z.of_nat (kind_width k))
  | _ => id
  end.

Lemma read_kind_scalar k : read_kind k = read_scalar (kind_conv k) (Z.of_nat (kind_width k)).
Proof. by destruct k. Qed.

Lemma kind_conv_ok k v :
  kind_ok k v -> kind_conv k (wrap (8 * Z.of_nat (kind_width k)) v) = v.
Proof.
  destruct k; cbn [kind_conv kind_ok]; intros H;
    first [ by apply wrap_small | rewrite swrap_wrap by (simpl; lia); apply swrap_small; simpl; [lia|done] ].
Qed.

Lemma read_field_spec f h r d rest :
  field_ok f -> reads h r d (encode f ++ rest) ->
  exists r', read_field f h r = Ret (f, r') /\ reads h r' (d ++ encode f) rest.
Proof.
  intros Hok Hr. destruct f as [k v|vs|vs]; cbn [encode read_field] in *.
  - rewrite read_kind_scalar.
    destruct (read_scalar_spec h r d _ v (kind_conv k) rest Hr) as (r' & -> & Hr');
      [by apply kind_conv_ok|by exists r'].
  - rewrite <- app_assoc in Hr.
    assert (is_u 32 (Z.of_nat (length vs))) as Hu.
    { pose proof (reads_u32 _ _ _ _ Hr) as Hu. rewrite !length_app in Hu. unfold is_u. lia. }
    destruct (read_scalar_spec h r d 4 (Z.of_nat (length vs)) id (vs ++ rest))
      as (r1 & E1 & Hr1); [done|by apply wrap_small|].
    unfold readString, readUInt32. change (Z.of_nat 4) with 4 in E1. rewrite E1. cbn [obind].
    rewrite (assureSize_ok _ _ _ _ _ Hr1). cbn [obind].
    cbn [mr_content set_pos]. rewrite (fetch_spec _ _ _ _ _ Hr1). cbn [obind].
    eexists. split; [done|]. rewrite app_assoc. by apply reads_advance.
  - destruct (read_raw_spec _ _ _ _ _ Hr) as (r' & E & Hr').
    unfold readBytes. rewrite E. by exists r'.
Qed.

Lemma read_all_spec fs h r d rest :
  Forall field_ok fs -> reads h r d (encode_all fs ++ rest) ->
  exists r', read_all fs h r = Ret (fs, r') /\ reads h r' (d ++ encode_all fs) rest.
Proof.
  intros Hok. revert r d. induction Hok as [|f fs Hf _ IH]; intros r d Hr.
  { exists r. by rewrite app_nil_r. }
  change (encode_all (f :: fs)) with (encode f ++ encode_all fs) in *.
  rewrite <- app_assoc in Hr. rewrite app_assoc.
  destruct (read_field_spec f h r d _ Hf Hr) as (r1 & E1 & Hr1).
  destruct (IH r1 _ Hr1) as (r2 & E2 & Hr2).
  exists r2. cbn [read_all]. rewrite E1. cbn [obind]. by rewrite E2.
Qed.

Lemma toMessage_reads b bs h :
  repr b bs ->
  exists m b' h' r h'',
    toMessage b h = (m, b', h') /\ repr b' [] /\ m_header m = mb_header b /\
    MessageReader_new m h' = Ret (r, h'') /\ reads h'' r [] bs.
Proof.
  intros [Hc Hs Hcap Hfit Hu Hi].
  do 5 eexists. split; [reflexivity|].
  split; [by apply (repr_new (mb_header b)) in Hi|].
  split; [reflexivity|].
  unfold MessageReader_new, Message_copy, Refbuf_inc. simpl.
  rewrite lookup_insert_eq. simpl. split; [reflexivity|].
  split; simpl; auto; try lia.
  eexists (drop (length bs) (mb_content b)), _. rewrite lookup_insert_eq. f_equal.
  by rewrite <- Hc, take_drop.
Qed.

(** ** Lifetimes of the shared buffers

    The live [Message] objects by address, and the operations C++ runs on them.
    [counts n h]: every buffer in the heap is counted, and counted exactly. *)
Record sys := Sys { live : gmap nat Message; hp : heap }.

Inductive op :=
| ONew (a : nat) (header length : Z) (buf : list cell)
| OCopy (a src : nat)
| OAssign (a src : nat)
| ODestroy (a : nat).

Definition exec (o : op) (s : sys) : outcome exn sys :=
  match o with
  | ONew a header length buf =>
      let '(m, h) := Message_new header length buf (hp s) in
      Ret (Sys (<[a := m]> (live s)) h)
  | OCopy a src =>
      let! other := oget (live s !! src) in
      let! '(m, h) := Message_copy other (hp s) in
      Ret (Sys (<[a := m]> (live s)) h)
  | OAssign a src =>
      let! this := oget (live s !! a) in
      let! other := oget (live s !! src) in
      let! '(m, h) := Message_assign (Nat.eqb a src) this other (hp s) in
      Ret (Sys (<[a := m]> (live s)) h)
  | ODestroy a =>
      let! this := oget (live s !! a) in
      let! h := Message_destroy this (hp s) in
      Ret (Sys (delete a (live s)) h)
  end.

(** What the language guarantees about the addresses: a constructor runs at an address
    that holds no object, the other operations run on live objects; and the number of
    live objects fits the address space. *)
Definition op_ok (o : op) (s : sys) : Prop :=
  match o with
  | ONew a _ _ _ => live s !! a = None
  | OCopy a src => live s !! a = None /\ is_Some (live s !! src)
  | OAssign a src => is_Some (live s !! a) /\ is_Some (live s !! src)
  | ODestroy a => is_Some (live s !! a)
  end /\ Z.of_nat (size (live s)) + 1 < 2 ^ 32.

Definition refs (ms : gmap nat Message) (l : nat) : nat :=
  size (filter (fun p => m_content p.2 = l) ms).

Definition counts (n : nat -> nat) (h : heap) : Prop :=
  forall l, match bufs h !! l with
  | Some rb => rb_refcount rb = Z.of_nat (n l) /\ (0 < n l)%nat /\ Z.of_nat (n l) < 2 ^ 32
  | None => n l = O
  end.

Definition lifetime_inv (s : sys) : Prop :=
  counts (refs (live s)) (hp s) /\ forall l, (next (hp s) <= l)%nat -> bufs (hp s) !! l = None.

Inductive reachable : sys -> Prop :=
| reach_init : reachable (Sys ∅ (Heap ∅ 0))
| reach_step s o s' : reachable s -> op_ok o s -> exec o s = Ret s' -> reachable s'.

Definition point (l x : nat) : nat := if decide (x = l) then 1 else 0.

Lemma refs_insert ms a m l :
  ms !! a = None -> refs (<[a := m]> ms) l = (point (m_content m) l + refs ms l)%nat.
Proof.
  intros Ha. unfold refs, point. rewrite map_filter_insert. simpl.
  destruct (decide (l = m_content m)) as [->|Hne].
  - rewrite decide_True by done. rewrite map_size_insert_None; [done|].
    rewrite map_lookup_filter_None. by left.
  - rewrite decide_False by done. by rewrite delete_id by done.
Qed.

Lemma refs_delete ms a m l :
  ms !! a = Some m -> refs ms l = (point (m_content m) l + refs (delete a ms) l)%nat.
Proof.
  intros Ha. rewrite <- (insert_delete_id ms a m Ha) at 1.
  apply refs_insert. apply lookup_delete_eq.
Qed.

Lemma refs_le_size ms l : (refs ms l <= size ms)%nat.
Proof. unfold refs. apply map_subseteq_size, map_filter_subseteq. Qed.

Lemma counts_ext n n' h : (forall l, n l = n' l) -> counts n h -> counts n' h.
Proof. intros E H l. specialize (H l). by rewrite <- E. Qed.

Lemma counts_inc n h l :
  counts n h -> (0 < n l)%nat -> Z.of_nat (n l) + 1 < 2 ^ 32 ->
  exists h', Refbuf_inc l h = Ret h' /\ counts (fun x => point l x + n x)%nat h' /\
    next h' = next h /\ dom (bufs h') = dom (bufs h).
Proof.
  intros Hn Hpos Hw. unfold Refbuf_inc. pose proof (Hn l) as Hl.
  destruct (bufs h !! l) as [rb|] eqn:E; [|lia]. destruct Hl as (Hrc & _ & _).
  eexists. split; [done|]. split_and!; [|done|simpl].
  - intros x. simpl. unfold point. rewrite lookup_insert. case_decide as D.
    + subst x. simpl. rewrite decide_True by done.
      rewrite Hrc, wrap_small by (unfold is_u; lia). lia.
    + rewrite decide_False by done. apply Hn.
  - rewrite dom_insert_L. apply elem_of_dom_2 in E. set_solver.
Qed.

Lemma counts_dec n n' h l :
  counts n h -> (forall x, n x = point l x + n' x)%nat ->
  exists h', Refbuf_dec l h = Ret h' /\ counts n' h' /\
    next h' = next h /\ dom (bufs h') ⊆ dom (bufs h).
Proof.
  intros Hn Hn'. unfold Refbuf_dec. pose proof (Hn l) as Hl.
  assert (n l = S (n' l)) as El by (rewrite Hn'; unfold point; by rewrite decide_True).
  assert (forall x, l <> x -> n x = n' x) as Ex
    by (intros x Hx; rewrite Hn'; unfold point; by rewrite decide_False).
  destruct (bufs h !! l) as [rb|] eqn:E; [|lia]. destruct Hl as (Hrc & _ & Hw).
  rewrite Hrc, El, wrap_small by (unfold is_u; lia).
  if_case; (eexists; split; [done|]; split_and!; [|done|simpl]).
  - intros x. simpl. rewrite lookup_delete. case_decide as D; [subst; lia|].
    rewrite <- Ex by done. apply Hn.
  - rewrite dom_delete_L. set_solver.
  - intros x. simpl. rewrite lookup_insert. case_decide as D; [subst; simpl; lia|].
    rewrite <- Ex by done. apply Hn.
  - rewrite dom_insert_L. apply elem_of_dom_2 in E. set_solver.
Qed.

Lemma fresh_mono (h h' : heap) :
  dom (bufs h') ⊆ dom (bufs h) -> next h' = next h ->
  (forall l, (next h <= l)%nat -> bufs h !! l = None) ->
  forall l, (next h' <= l)%nat -> bufs h' !! l = None.
Proof.
  intros Hd Hn H l Hl. apply not_elem_of_dom. rewrite Hn in Hl.
  specialize (H l Hl). apply not_elem_of_dom in H. set_solver.
Qed.

Lemma refs_pos ms a m : ms !! a = Some m -> (0 < refs ms (m_content m))%nat.
Proof. intros H. rewrite (refs_delete _ _ _ _ H). unfold point. rewrite decide_True by done. lia. Qed.

Lemma exec_new a hd len buf s :
  lifetime_inv s -> op_ok (ONew a hd len buf) s ->
  exists s', exec (ONew a hd len buf) s = Ret s' /\ lifetime_inv s'.
Proof.
  intros [Hc Hf] [Hok Hsz]. eexists. split; [reflexivity|]. split; simpl.
  - intros x. simpl. pose proof (Hc x) as Hx. rewrite refs_insert by done. simpl. unfold point.
    rewrite lookup_insert. case_decide as D.
    + subst x. rewrite Hf in Hx by lia. rewrite decide_True, Hx by done. simpl. lia.
    + rewrite decide_False by done. apply Hx.
  - intros l Hl. rewrite lookup_insert_ne by lia. apply Hf. lia.
Qed.

Lemma exec_copy a src s :
  lifetime_inv s -> op_ok (OCopy a src) s ->
  exists s', exec (OCopy a src) s = Ret s' /\ lifetime_inv s'.
Proof.
  intros [Hc Hf] [[Ha [m Hm]] Hsz]. simpl. rewrite Hm. simpl. unfold Message_copy.
  pose proof (refs_le_size (live s) (m_content m)).
  destruct (counts_inc _ _ (m_content m) Hc) as (h' & -> & Hc' & Hn & Hd);
    [by eapply refs_pos|lia|].
  simpl. eexists. split; [reflexivity|]. split; simpl.
  - eapply counts_ext; [|done]. intros l. simpl. by rewrite refs_insert by done.
  - eapply fresh_mono; [by rewrite Hd|done..].
Qed.

Lemma exec_destroy a s :
  lifetime_inv s -> op_ok (ODestroy a) s ->
  exists s', exec (ODestroy a) s = Ret s' /\ lifetime_inv s'.
Proof.
  intros [Hc Hf] [[m Hm] Hsz]. simpl. rewrite Hm. simpl. unfold Message_destroy.
  destruct (counts_dec _ (refs (delete a (live s))) _ (m_content m) Hc)
    as (h' & -> & Hc' & Hn & Hd); [intros x; by apply refs_delete|].
  simpl. eexists. split; [reflexivity|]. split; [done|].
  by eapply fresh_mono.
Qed.

Lemma exec_assign a src s :
  lifetime_inv s -> op_ok (OAssign a src) s ->
  exists s', exec (OAssign a src) s = Ret s' /\ lifetime_inv s'.
Proof.
  intros [Hc Hf] [[[m Hm] [m2 Hm2]] Hsz]. simpl. rewrite Hm, Hm2. simpl. unfold Message_assign.
  destruct (Nat.eqb_spec a src) as [->|Hne].
  { simplify_eq. eexists. split; [reflexivity|]. rewrite insert_id by done. by split. }
  destruct (counts_dec _ (refs (delete a (live s))) _ (m_content m) Hc)
    as (h1 & -> & Hc1 & Hn1 & Hd1); [intros x; by apply refs_delete|].
  assert (delete a (live s) !! src = Some m2) as Hm2' by (by rewrite lookup_delete_ne).
  pose proof (refs_le_size (delete a (live s)) (m_content m2)).
  rewrite map_size_delete_Some in H by done.
  destruct (counts_inc _ _ (m_content m2) Hc1) as (h2 & E2 & Hc2 & Hn2 & Hd2);
    [by eapply refs_pos|lia|].
  simpl. rewrite E2. simpl. eexists. split; [reflexivity|]. split; simpl.
  - eapply counts_ext; [|done]. intros l. simpl.
    rewrite <- insert_delete_eq, refs_insert by apply lookup_delete_eq. done.
  - apply (fresh_mono h1 h2); [by rewrite Hd2|done|]. by apply (fresh_mono (hp s) h1).
Qed.

Lemma exec_ok o s :
  lifetime_inv s -> op_ok o s -> exists s', exec o s = Ret s' /\ lifetime_inv s'.
Proof.
  destruct o; eauto using exec_new, exec_copy, exec_assign, exec_destroy.
Qed.

Lemma reachable_inv s : reachable s -> lifetime_inv s.
Proof.
  induction 1 as [|s o s' _ IH Hok E].
  - split; [|done]. intros l. simpl. unfold refs. by rewrite map_filter_empty.
  - destruct (exec_ok o s IH Hok) as (s2 & E2 & H2). congruence.
Qed.

Lemma refs_witness ms l : (0 < refs ms l)%nat -> exists a m, ms !! a = Some m /\ m_content m = l.
Proof.
  unfold refs. intros H.
  destruct (decide (filter (fun p => m_content p.2 = l) ms = ∅)) as [E|E].
  - rewrite E, map_size_empty in H. lia.
  - apply map_choose in E as (a & m & (Ha & Hl)%map_lookup_filter_Some). eauto.
Qed.

(** ** Properties *)

(** C1. Message round trip: whatever sequence of typed fields is written with a
    [MessageBuilder], of any initial capacity, the message it produces carries the
    builder's header, and a [MessageReader] that reads fields of the same types gets the
    same values back, ends exactly at the end of the message, and any further scalar read
    throws instead of touching memory. *)
Theorem message_roundtrip header cap fs h :
  0 <= cap < 2 ^ 32 -> Forall field_ok fs -> Z.of_nat (length (encode_all fs)) + 8 < 2 ^ 32 ->
  exists b m b' h1 r h2 r',
    write_all fs (MessageBuilder_new header cap) = Ret b /\
    toMessage b h = (m, b', h1) /\ m_header m = header /\
    MessageReader_new m h1 = Ret (r, h2) /\
    read_all fs h2 r = Ret (fs, r') /\ tell r' = getSize r' /\
    forall k, read_kind k h2 r' = Throw (ReaderException "Not enough data to read.").
Proof.
  intros Hcap Hok Hlen.
  destruct (write_all_spec fs _ _ (repr_new header cap Hcap)) as (b & Eb & Hr & Hh & _);
    [rewrite app_nil_l; lia|].
  destruct (toMessage_reads b _ h Hr) as (m & b' & h1 & r & h2 & Em & _ & Hm & Er & Hrd).
  simpl app in Hrd. rewrite <- (app_nil_r (encode_all fs)) in Hrd.
  destruct (read_all_spec fs h2 r [] [] Hok Hrd) as (r' & Ea & Hrd').
  exists b, m, b', h1, r, h2, r'. split_and!; try done; [by rewrite Hm| |].
  - rewrite (reads_getSize _ _ _ _ Hrd'), app_nil_r. apply (reads_pos _ _ _ _ Hrd').
  - intros k. rewrite read_kind_scalar. unfold read_scalar, read_raw.
    rewrite (assureSize_short _ _ _ _ _ Hrd'); [done|destruct k; simpl; lia|].
    simpl app. destruct k; simpl Z.of_nat; lia.
Qed.

Lemma message_roundtrip_witness :
  exists b, write_all [FScalar KInt16 (-20); FString [104; 105]; FScalar KUInt64 305555556777770]
              (MessageBuilder_new 7 0) = Ret b.
Proof.
  destruct (message_roundtrip 7 0 [FScalar KInt16 (-20); FString [104; 105]; FScalar KUInt64 305555556777770]
    (Heap ∅ 0)) as (b & _ & _ & _ & _ & _ & _ & H & _); [lia| |vm_compute; done|by exists b].
  repeat constructor; done.
Defined.

(** The twelve overloads of [write]: those whose values a reader can read back, and [float]
    and [double], whose values are their bit patterns. *)
Inductive overload := OField (f : field) | OFloat (bits : Z) | ODouble (bits : Z).
Definition write (o : overload) (b : MessageBuilder) : outcome exn MessageBuilder :=
  match o with OField f => write_field f b | OFloat v => write_float v b | ODouble v => write_double v b end.
Definition encoding (o : overload) : list Z :=
  match o with OField f => encode f | OFloat v => le_bytes 4 v | ODouble v => le_bytes 8 v end.

Lemma write_spec o b bs : repr b bs -> Z.of_nat (length (bs ++ encoding o)) < 2 ^ 32 ->
  exists b', write o b = Ret b' /\ repr b' (bs ++ encoding o) /\ mb_header b' = mb_header b /\ mb_init_cap b' = mb_init_cap b.
Proof.
  intros Hr Hl. destruct o as [f|v|v]; cbn [write encoding] in *; [by apply write_field_spec|..];
    rewrite length_app, length_le_bytes in Hl; by apply write_scalar_spec.
Qed.

(** C2. The builder implements an append-only byte string: each of the twelve overloads of
    [write], from any buffer state that holds some bytes, returns normally, keeps the bytes
    already written and appends exactly the encoding of its argument, as long as the total
    stays below 4 GiB; and [toMessage] then makes a message with the builder's header, the
    total as its length and a buffer of its own that starts with exactly these bytes, which a
    reader of the message reads from the first to the last, and leaves an empty builder with
    the same header and initial capacity. *)
Theorem builder_refines_append o b bs h :
  repr b bs -> Z.of_nat (length (bs ++ encoding o)) < 2 ^ 32 ->
  exists b', write o b = Ret b' /\ repr b' (bs ++ encoding o) /\ mb_header b' = mb_header b /\
    exists m b'' h' cells r h'', toMessage b' h = (m, b'', h') /\
      m_length m = Z.of_nat (length (bs ++ encoding o)) /\ m_header m = mb_header b /\
      getContentPtr m h' = Ret cells /\ take (length (bs ++ encoding o)) cells = map Some (bs ++ encoding o) /\
      MessageReader_new m h' = Ret (r, h'') /\ reads h'' r [] (bs ++ encoding o) /\
      repr b'' [] /\ mb_header b'' = mb_header b /\ mb_init_cap b'' = mb_init_cap b.
Proof.
  intros Hr Hl. destruct (write_spec o b bs Hr Hl) as (b' & E & Hr' & Hh & Hi).
  exists b'. split_and!; [done..|].
  destruct (toMessage_reads b' _ h Hr') as (m & b'' & h' & r & h2 & Em & Hr'' & Hm & Er & Hrd).
  exists m, b'', h', (mb_content b'), r, h2. pose proof Em as Em'. injection Em' as <- <- <-.
  split_and!; try done; [apply (repr_size _ _ Hr')| |apply (repr_cells _ _ Hr')].
  unfold getContentPtr. cbn. by rewrite lookup_insert_eq.
Qed.

Lemma builder_refines_append_witness :
  exists b', write (ODouble 4607182418800017408) (MessageBuilder_new 3 2) = Ret b' /\
    repr b' ([] ++ encoding (ODouble 4607182418800017408)).
Proof.
  destruct (builder_refines_append (ODouble 4607182418800017408) (MessageBuilder_new 3 2) [] (Heap ∅ 0))
    as (b' & E & Hr & _); [apply repr_new; lia|vm_compute; done|by exists b'].
Defined.

(** C4. Bounds of the reader: as long as [seek_pos + n] does not wrap around 32 bits, a
    read of [n] bytes returns exactly the next [n] bytes of the message, or throws when
    fewer are left; it never accesses memory outside the message. *)
Theorem reader_bounds h r d rest n :
  reads h r d rest -> 0 <= n -> Z.of_nat (length d) + n < 2 ^ 32 ->
  (n <= Z.of_nat (length rest) -> exists r',
     read_raw h n r = Ret (take (Z.to_nat n) rest, r') /\
     reads h r' (d ++ take (Z.to_nat n) rest) (drop (Z.to_nat n) rest)) /\
  (Z.of_nat (length rest) < n ->
     read_raw h n r = Throw (ReaderException "Not enough data to read.")).
Proof.
  intros Hr Hn Hw. split.
  - intros Hle. rewrite <- (take_drop (Z.to_nat n) rest) in Hr.
    destruct (read_raw_spec _ _ _ _ _ Hr) as (r' & E & Hr').
    rewrite length_take, Nat.min_l, Z2Nat.id in E by lia. eauto.
  - intros Hlt. unfold read_raw. by rewrite (assureSize_short _ _ _ _ _ Hr).
Qed.

Definition example_heap : heap :=
  Heap {[ 0%nat := {| rb_content := map Some [255; 255; 255; 255]; rb_refcount := 1 |} ]} 1.

Definition example_reader : MessageReader :=
  {| mr_message := {| m_header := 4; m_length := 4; m_content := 0 |};
     mr_content := 0; seek_pos := 0 |}.

Lemma example_reads : reads example_heap example_reader [] [255; 255; 255; 255].
Proof. split; try done. exists [], 1. reflexivity. Qed.

Lemma reader_bounds_witness :
  read_raw example_heap 5 example_reader = Throw (ReaderException "Not enough data to read.").
Proof.
  apply (reader_bounds example_heap example_reader [] [255; 255; 255; 255] 5 example_reads);
    simpl; lia.
Defined.

(** The bounds check of [readString] wraps: when the length field [L] that follows
    is so large that the end of the string passes 2^32, [assureSize] accepts it and the
    string is read outside the buffer. *)
Theorem readString_length_wraps h r d L rest tail rc :
  reads h r d (le_bytes 4 L ++ rest) -> is_u 32 L ->
  bufs h !! mr_content r =
    Some {| rb_content := map Some (d ++ le_bytes 4 L ++ rest) ++ tail; rb_refcount := rc |} ->
  Z.of_nat (length (d ++ le_bytes 4 L ++ rest) + length tail) < 2 ^ 32 ->
  2 ^ 32 <= Z.of_nat (length d) + 4 + L ->
  readString h r = Fault.
Proof.
  intros Hr HL Hb Hsz Hw.
  destruct (read_scalar_spec h r d 4 L id rest Hr) as (r1 & E1 & Hr1); [by apply wrap_small|].
  assert (bufs h !! mr_content r1 = bufs h !! mr_content r) as Hb1.
  { unfold read_scalar, read_raw in E1. destruct (assureSize _ r); try done.
    simpl in E1. destruct (fetch h _ _ _); try done. simpl in E1. by injection E1 as _ <-. }
  unfold readString, readUInt32. change (Z.of_nat 4) with 4 in E1. rewrite E1. cbn [obind].
  unfold assureSize. rewrite (reads_getSize _ _ _ _ Hr1), (reads_pos _ _ _ _ Hr1).
  rewrite !length_app, length_le_bytes in *.
  assert (u32 (Z.of_nat (length d + 4) + L) = Z.of_nat (length d + 4) + L - 2 ^ 32) as ->.
  { unfold wrap, is_u in *. rewrite <- (Z_mod_plus_full _ (-1)).
    rewrite Z.mod_small; lia. }
  unfold is_u in HL. if_case; [lia|]. cbn [obind mr_content set_pos]. unfold fetch.
  rewrite Hb1, Hb. cbn [rb_content]. rewrite load_none; [done|].
  rewrite length_app, length_map, !length_app, length_le_bytes. lia.
Qed.

Lemma readString_length_wraps_witness : readString example_heap example_reader = Fault.
Proof.
  apply (readString_length_wraps example_heap example_reader [] (2 ^ 32 - 1) [] [] 1).
  - apply example_reads.
  - unfold is_u. lia.
  - reflexivity.
  - simpl. lia.
  - simpl. lia.
Defined.

(** C5. Lifetimes: in every state reachable by constructing, copying, assigning (also to
    itself, and between messages that already share a buffer) and destroying messages, the
    next operation on live messages cannot touch a freed buffer, every live message's
    buffer is allocated with its reference count equal to the number of messages that
    share it, and a buffer no message refers to is not in the heap. *)
Theorem message_lifetimes_safe s o :
  reachable s -> op_ok o s ->
  (exists s', exec o s = Ret s' /\ reachable s') /\
  (forall a m, live s !! a = Some m -> exists rb,
     bufs (hp s) !! m_content m = Some rb /\
     rb_refcount rb = Z.of_nat (refs (live s) (m_content m))) /\
  (forall l, is_Some (bufs (hp s) !! l) -> exists a m, live s !! a = Some m /\ m_content m = l).
Proof.
  intros Hr Hok. pose proof (reachable_inv s Hr) as Hinv. split_and!.
  - destruct (exec_ok o s Hinv Hok) as (s' & E & _). eauto using reach_step.
  - intros a m Hm. destruct Hinv as [Hc _]. specialize (Hc (m_content m)).
    pose proof (refs_pos _ _ _ Hm). destruct (bufs (hp s) !! m_content m) as [rb|]; [|lia].
    exists rb. naive_solver.
  - intros l [rb Hl]. destruct Hinv as [Hc _]. specialize (Hc l). rewrite Hl in Hc.
    apply refs_witness. naive_solver.
Qed.

Lemma message_lifetimes_safe_witness :
  exists s', exec (ONew 0 1 0 []) (Sys ∅ (Heap ∅ 0)) = Ret s' /\ reachable s'.
Proof.
  apply (message_lifetimes_safe (Sys ∅ (Heap ∅ 0)) (ONew 0 1 0 [])).
  - apply reach_init.
  - split; [done|]. vm_compute. done.
Defined.
