(* ===== verification/Connection.v ===== *)
(** * Connections and message framing

    Models src/comm/bknd/IConnection.h (the interface, a type class),
    MessageConnection.cpp (framing on top of the interface), connection.cpp (the TCP
    implementation) and UdpConnection.cpp (the UDT implementation, whose receive loop
    reassembles partial reads).  The socket layer (the kernel's send and recv, the UDT
    library) is a parameter.  A method keeps the state of its connection also when it
    throws. *)

From S2P Require Import Prelude Message.
From stdpp Require Import gmap strings.

Open Scope Z_scope.

(** A method of a connection: its new state, and how it ended. *)
Definition method (C A : Type) : Type := C -> C * outcome exn A.

Definition mret {C A} (a : A) : method C A := fun c => (c, Ret a).

Definition mbnd {C A B} (m : method C A) (k : A -> method C B) : method C B := fun c =>
  let '(c, r) := m c in
  match r with
  | Ret a => k a c
  | Throw e => (c, Throw e)
  | Fault => (c, Fault)
  end.

Notation "'mlet!' x ':=' m 'in' k" := (mbnd m (fun x => k))
  (at level 10, x name, m at level 100, k at level 200) : vm_scope.
Open Scope vm_scope.

(** ** IConnection.h *)
Class IConnection (C : Type) := {
  send : list Z -> method C unit;
  receive : Z -> method C (list Z)
}.

(** What a client may rely on while both ends are up: [send] appends to the outgoing
    byte stream, [receive] takes exactly the requested bytes off the incoming one. *)
Class StreamLaws (C : Type) `{IConnection C} := {
  up : C -> Prop;
  out_bytes : C -> list Z;
  in_bytes : C -> list Z;
  send_law : forall c bs, up c -> bs <> [] -> Z.of_nat (length bs) < 2 ^ 31 ->
    exists c', send bs c = (c', Ret tt) /\ up c' /\
      out_bytes c' = out_bytes c ++ bs /\ in_bytes c' = in_bytes c;
  receive_law : forall c n, up c -> 0 < n < 2 ^ 31 -> n <= Z.of_nat (length (in_bytes c)) ->
    exists c', receive n c = (c', Ret (take (Z.to_nat n) (in_bytes c))) /\ up c' /\
      in_bytes c' = drop (Z.to_nat n) (in_bytes c) /\ out_bytes c' = out_bytes c
}.

(** ** MessageConnection.cpp *)
Section MessageConnection.
Context {C : Type} `{IConnection C}.

(** [struct msg_struct], as it lies in memory. *)
Definition msg_struct (msg_header msg_length : Z) : list Z :=
  le_bytes 4 msg_header ++ le_bytes 4 msg_length.

Definition readMessage (h : heap) : method C (Message * heap) :=
  mlet! msg := receive 8 in
  let msg_header := le_val (take 4 msg) in
  let msg_length := le_val (drop 4 msg) in
  let content := new_array (Z.max msg_length 1) in
  mlet! content :=
    (if 0 <? msg_length then
       mlet! bs := receive msg_length in
       fun c => (c, oget (store content 0 (map Some bs)))
     else mret content) in
  mret (Message_new (s32 msg_header) msg_length content h).

Definition writeMessage (mess : Message) (h : heap) : method C unit :=
  let msg_header := u32 (m_header mess) in
  let msg_length := u32 (getLength mess) in
  mlet! _ := send (msg_struct msg_header msg_length) in
  if 0 <? msg_length then
    fun c => match fetch h (m_content mess) 0 msg_length with
             | Ret bs => send bs c
             | Throw e => (c, Throw e)
             | Fault => (c, Fault)
             end
  else mret tt.

(** A message whose buffer in [h] holds the bytes [bs]. *)
Definition holds (h : heap) (m : Message) (hdr : Z) (bs : list Z) : Prop :=
  m_header m = hdr /\ m_length m = Z.of_nat (length bs) /\
  exists tail rc, bufs h !! m_content m =
    Some {| rb_content := map Some bs ++ tail; rb_refcount := rc |}.

Definition frame (hdr : Z) (bs : list Z) : list Z :=
  msg_struct hdr (Z.of_nat (length bs)) ++ bs.

Context {L : StreamLaws C}.

Lemma length_msg_struct a b : length (msg_struct a b) = 8%nat.
Proof. unfold msg_struct. by rewrite length_app, !length_le_bytes. Qed.

Lemma le_bytes_wrap n z : le_bytes n (wrap (8 * Z.of_nat n) z) = le_bytes n z.
Proof.
  rewrite <- le_val_le_bytes.
  rewrite <- (length_le_bytes n z) at 1.
  apply le_bytes_le_val, le_bytes_bytes.
Qed.

Lemma le_val_take4 a b : is_u 32 a -> le_val (take 4 (msg_struct a b)) = a.
Proof.
  intros. unfold msg_struct. rewrite take_app_le, take_ge by (rewrite length_le_bytes; lia).
  rewrite le_val_le_bytes. by apply wrap_small.
Qed.

Lemma le_val_drop4 a b : is_u 32 b -> le_val (drop 4 (msg_struct a b)) = b.
Proof.
  intros. unfold msg_struct. rewrite drop_app_ge by (rewrite length_le_bytes; lia).
  rewrite length_le_bytes. cbn [Nat.sub]. rewrite drop_0, le_val_le_bytes. by apply wrap_small.
Qed.

Lemma holds_fetch h m hdr bs :
  holds h m hdr bs -> fetch h (m_content m) 0 (Z.of_nat (length bs)) = Ret bs.
Proof.
  intros (_ & _ & tail & rc & Hb). unfold fetch. rewrite Hb. cbn [rb_content].
  pose proof (load_app [] (map Some bs) tail (Z.of_nat (length bs))) as E.
  simpl app in E. change (Z.of_nat (length (@nil cell))) with 0 in E. rewrite E by (by rewrite length_map). cbn [oget obind].
  by rewrite mapM_id_Some.
Qed.

Lemma writeMessage_spec c h m hdr bs :
  up c -> holds h m hdr bs -> Z.of_nat (length bs) < 2 ^ 31 ->
  exists c', writeMessage m h c = (c', Ret tt) /\ up c' /\
    out_bytes c' = out_bytes c ++ frame (u32 hdr) bs /\ in_bytes c' = in_bytes c.
Proof.
  intros Hup Hh Hlen. pose proof Hh as (Ehdr & El & _). unfold writeMessage.
  assert (u32 (getLength m) = Z.of_nat (length bs)) as ->.
  { unfold getLength. rewrite El, wrap_swrap, wrap_small by (unfold is_u; lia). done. }
  rewrite Ehdr.
  destruct (send_law c (msg_struct (u32 hdr) (Z.of_nat (length bs)))) as (c1 & E1 & Hup1 & Ho1 & Hi1);
    [done|intros E; by apply (f_equal length) in E; rewrite length_msg_struct in E
    |rewrite length_msg_struct; lia|].
  unfold mbnd at 1. rewrite E1. if_case.
  - rewrite (holds_fetch _ _ _ _ Hh).
    destruct (send_law c1 bs) as (c2 & E2 & Hup2 & Ho2 & Hi2);
      [done|by intros ->|lia|].
    exists c2. split_and!; [done..| |congruence]. rewrite Ho2, Ho1, <- app_assoc. done.
  - assert (bs = []) as -> by (destruct bs; simpl in *; [done|lia]).
    exists c1. split_and!; [done..| |done]. rewrite Ho1. unfold frame. by rewrite app_nil_r.
Qed.

Lemma readMessage_spec c h hdr bs rest :
  up c -> is_s 32 hdr -> Z.of_nat (length bs) < 2 ^ 31 ->
  in_bytes c = frame (u32 hdr) bs ++ rest ->
  exists c' m h', readMessage h c = (c', Ret (m, h')) /\ up c' /\ holds h' m hdr bs /\
    in_bytes c' = rest /\ out_bytes c' = out_bytes c.
Proof.
  intros Hup Hhdr Hlen Hin. unfold readMessage. unfold frame in Hin. rewrite <- app_assoc in Hin.
  destruct (receive_law c 8) as (c1 & E1 & Hup1 & Hi1 & Ho1); [done|lia| |].
  { rewrite Hin, length_app, length_msg_struct. lia. }
  unfold mbnd at 1. rewrite E1, Hin.
  change (Z.to_nat 8) with 8%nat in *.
  rewrite take_app_le, take_ge by (rewrite length_msg_struct; lia).
  rewrite Hin, drop_app_ge, length_msg_struct, Nat.sub_diag, drop_0 in Hi1
    by (rewrite length_msg_struct; lia).
  rewrite le_val_take4, le_val_drop4 by (first [apply wrap_range; lia | unfold is_u; lia]).
  assert (s32 (u32 hdr) = hdr) as -> by (rewrite swrap_wrap by lia; apply swrap_small; [lia|done]).
  unfold mbnd at 1. if_case.
  - unfold mbnd at 1.
    destruct (receive_law c1 (Z.of_nat (length bs))) as (c2 & E2 & Hup2 & Hi2 & Ho2);
      [done|lia|rewrite Hi1, length_app; lia|].
    rewrite E2, Hi1, Nat2Z.id, take_app_length.
    rewrite store_ok by (rewrite ?length_map, ?length_new_array; lia). simpl.
    do 3 eexists. split; [reflexivity|]. split_and!; [done| |rewrite Hi2, Hi1, Nat2Z.id; by rewrite drop_app_length|congruence].
    unfold holds. simpl. split_and!; [done..|].
    rewrite lookup_insert_eq. by eexists _, _.
  - assert (bs = []) as -> by (destruct bs; simpl in *; [done|lia]).
    simpl. do 3 eexists. split; [reflexivity|]. split_and!; [done| |done|congruence].
    unfold holds. simpl. split_and!; [done..|]. rewrite lookup_insert_eq.
    by eexists _, _.
Qed.

End MessageConnection.

(** ** connection.cpp: the TCP connection *)
Section Tcp.
Context {OS : Type}.
(** The kernel: [::send] gives the number of bytes sent or -1, [::recv] with
    [MSG_WAITALL] the bytes received or an error. *)
Variable os_send : list Z -> OS -> OS * Z.
Variable os_recv : Z -> OS -> OS * option (list Z).
Variable os_close : OS -> OS.

Record Connection := { client : OS; conn_open : bool }.

Definition close (c : Connection) : Connection :=
  if negb (conn_open c) then c
  else {| client := os_close (client c); conn_open := false |}.

Definition sendDirect (content : list Z) : method Connection unit := fun c =>
  let size := u32 (Z.of_nat (length content)) in
  let '(os, bytes_send) := os_send content (client c) in
  let c := {| client := os; conn_open := conn_open c |} in
  if (bytes_send =? -1) || (u32 bytes_send <? size)
  then (close c, Throw (ConnectionException "Send failed."))
  else (c, Ret tt).

Definition receiveDirect (size : Z) : method Connection (list Z) := fun c =>
  let '(os, got) := os_recv size (client c) in
  let c := {| client := os; conn_open := conn_open c |} in
  match got with
  | None => (close c, Throw (ConnectionException "Receive failed."))
  | Some bs =>
      if u32 (Z.of_nat (length bs)) <? size
      then (close c, Throw (ConnectionException "Receive failed."))
      else (c, Ret bs)
  end.

#[export] Instance tcp_connection : IConnection Connection := {
  send content c :=
    if negb (conn_open c) then (c, Throw (ConnectionException "Connection closed."))
    else sendDirect content c;
  receive size c :=
    if negb (conn_open c) then (c, Throw (ConnectionException "Connection closed."))
    else receiveDirect size c
}.

(** A kernel whose peer is up: a blocking [send] takes everything, [MSG_WAITALL] waits
    for everything. *)
Variable os_out os_in : OS -> list Z.
Hypothesis os_send_all : forall bs s, exists s', os_send bs s = (s', Z.of_nat (length bs)) /\
  os_out s' = os_out s ++ bs /\ os_in s' = os_in s.
Hypothesis os_recv_all : forall n s, 0 < n -> n <= Z.of_nat (length (os_in s)) ->
  exists s', os_recv n s = (s', Some (take (Z.to_nat n) (os_in s))) /\
    os_in s' = drop (Z.to_nat n) (os_in s) /\ os_out s' = os_out s.

#[export] Instance tcp_stream : StreamLaws Connection.
Proof using os_send_all os_recv_all.
  refine {| up c := conn_open c = true; out_bytes c := os_out (client c); in_bytes c := os_in (client c) |}.
  - intros c bs Hup _ Hlen. simpl. rewrite Hup. simpl. unfold sendDirect.
    destruct (os_send_all bs (client c)) as (s' & -> & Ho & Hi).
    rewrite !wrap_small by (unfold is_u; lia).
    if_case; [exfalso; apply orb_true_iff in E as [E|E]; bool_hyps; lia|].
    eexists. split; [reflexivity|]. auto.
  - intros c n Hup Hn Hle. simpl. rewrite Hup. simpl. unfold receiveDirect.
    destruct (os_recv_all n (client c)) as (s' & -> & Hi & Ho); [lia|done|].
    rewrite length_take, Nat.min_l, Z2Nat.id, wrap_small by (unfold is_u; lia).
    if_case; [lia|]. eexists. split; [reflexivity|]. auto.
Defined.

End Tcp.

(** ** UdpConnection.cpp: the UDT connection *)
Section Udt.
Context {LIB : Type}.
(** The UDT library: [UDT::recv] gives [None] for [UDT::ERROR], otherwise between zero and
    the requested number of bytes. *)
Variable udt_send : list Z -> LIB -> LIB * Z.
Variable udt_recv : Z -> LIB -> LIB * option (list Z).
Variable udt_close : LIB -> LIB.

Record UdpConnection := { udp_client : LIB; udp_open : bool }.

Definition udp_close (c : UdpConnection) : UdpConnection :=
  if negb (udp_open c) then c
  else {| udp_client := udt_close (udp_client c); udp_open := false |}.

Definition udp_sendDirect (content : list Z) : method UdpConnection unit := fun c =>
  let size := u32 (Z.of_nat (length content)) in
  let '(os, bytes_send) := udt_send content (udp_client c) in
  let c := {| udp_client := os; udp_open := udp_open c |} in
  if (bytes_send =? -1) || (u32 bytes_send <? size)
  then (udp_close c, Throw (UdpException "Send failed."))
  else (c, Ret tt).

(** The loop of [receiveDirect]; [acc] are the bytes already stored at the start of
    [content].  Every round but the last consumes at least one byte of [size], so a fuel
    of [size] rounds is enough ([udp_receive_all_or_nothing]). *)
Fixpoint udp_receive_loop (fuel : nat) (size : Z) (acc : list Z) : method UdpConnection (list Z) := fun c =>
  match fuel with
  | O => (c, Fault)
  | S fuel =>
      let '(os, got) := udt_recv size (udp_client c) in
      let c := {| udp_client := os; udp_open := udp_open c |} in
      let bytes_recv := match got with None => -1 | Some bs => Z.of_nat (length bs) end in
      let bs := match got with None => [] | Some bs => bs end in
      if (0 <? bytes_recv) && (bytes_recv <? size)
      then udp_receive_loop fuel (size - bytes_recv) (acc ++ bs) c
      else if bytes_recv <=? 0
      then (udp_close c, Throw (UdpException "Receive failed"))
      else (c, Ret (acc ++ bs))
  end.

Definition udp_receiveDirect (size : Z) : method UdpConnection (list Z) :=
  udp_receive_loop (Z.to_nat size) size [].

#[export] Instance udp_connection : IConnection UdpConnection := {
  send content c :=
    if negb (udp_open c) then (c, Throw (UdpException "UdpConnection closed."))
    else udp_sendDirect content c;
  receive size c :=
    if negb (udp_open c) then (c, Throw (UdpException "UdpConnection closed."))
    else udp_receiveDirect size c
}.

(** The documented contract of [UDT::recv]: what it returns is the next part of the
    incoming stream, no longer than requested. *)
Variable udt_out udt_in : LIB -> list Z.
Hypothesis udt_recv_prefix : forall n s s' bs, 0 < n -> udt_recv n s = (s', Some bs) ->
  Z.of_nat (length bs) <= n /\ udt_in s = bs ++ udt_in s' /\ udt_out s' = udt_out s.

Lemma udp_receive_loop_spec fuel size acc c :
  0 < size -> (Z.to_nat size <= fuel)%nat -> udp_open c = true ->
  exists c', (exists bs, udp_receive_loop fuel size acc c = (c', Ret (acc ++ bs)) /\
      Z.of_nat (length bs) = size /\ udp_open c' = true /\
      udt_in (udp_client c) = bs ++ udt_in (udp_client c') /\
      udt_out (udp_client c') = udt_out (udp_client c)) \/
    (exists e, udp_receive_loop fuel size acc c = (c', Throw e) /\ udp_open c' = false).
Proof using udt_recv_prefix.
  revert size acc c. induction fuel as [|fuel IH]; intros size acc c Hs Hf Hop; [lia|].
  cbn [udp_receive_loop]. destruct (udt_recv size (udp_client c)) as [os got] eqn:E.
  destruct got as [bs|]; simpl.
  2:{ eexists. right. eexists. split; [reflexivity|]. unfold udp_close. simpl. by rewrite Hop. }
  destruct (udt_recv_prefix _ _ _ _ Hs E) as (Hle & Hin & Hout).
  if_case.
  - edestruct (IH (size - Z.of_nat (length bs)) (acc ++ bs) {| udp_client := os; udp_open := udp_open c |})
      as (c' & [(bs' & E' & Hl & Hop' & Hin' & Hout')|(e & E' & Hop')]); [lia|lia|done| |].
    + exists c'. left. exists (bs ++ bs'). rewrite E', app_assoc, length_app. simpl in *.
      split_and!; [done|lia|done| |congruence]. by rewrite Hin, Hin', app_assoc.
    + exists c'. right. eauto.
  - if_case.
    + eexists. right. eexists. split; [reflexivity|]. unfold udp_close. simpl. by rewrite Hop.
    + eexists. left. exists bs. split; [reflexivity|]. simpl. split_and!; auto.
      apply andb_false_iff in E0 as [?|?]; bool_hyps; lia.
Qed.

End Udt.

(** ** Sequences of messages *)
Fixpoint writeMessages {C} `{IConnection C} (ms : list Message) (h : heap) : method C unit :=
  match ms with
  | [] => mret tt
  | m :: ms => mlet! _ := writeMessage m h in writeMessages ms h
  end.

Fixpoint readMessages {C} `{IConnection C} (n : nat) (h : heap) : method C (list Message * heap) :=
  match n with
  | O => mret ([], h)
  | S n =>
      mlet! mh := readMessage h in
      mlet! msh := readMessages n (snd mh) in
      mret (fst mh :: fst msh, snd msh)
  end.

Definition wire (p : Z * list Z) : list Z := frame (u32 (fst p)) (snd p).

Definition sendable (p : Z * list Z) : Prop :=
  is_s 32 (fst p) /\ Z.of_nat (length (snd p)) < 2 ^ 31.

Lemma writeMessages_spec {C} `{StreamLaws C} h ms ps (c : C) :
  up c -> Forall2 (fun m p => holds h m (fst p) (snd p)) ms ps -> Forall sendable ps ->
  exists c', writeMessages ms h c = (c', Ret tt) /\
    out_bytes c' = out_bytes c ++ concat (map wire ps).
Proof.
  intros Hup HF Hs. revert c Hup. induction HF as [|m p ms ps Hm _ IH]; intros c Hup.
  { exists c. simpl. by rewrite app_nil_r. }
  apply Forall_cons in Hs as [[Hp1 Hp2] Hs].
  destruct (writeMessage_spec c h m _ _ Hup Hm Hp2) as (c1 & E1 & Hup1 & Ho1 & _).
  destruct (IH Hs c1 Hup1) as (c2 & E2 & Ho2).
  exists c2. cbn [writeMessages]. unfold mbnd. rewrite E1, E2. split; [done|].
  rewrite Ho2, Ho1. simpl. by rewrite <- app_assoc.
Qed.

(** A message in the heap survives the allocation of another one. *)
Lemma holds_alloc h m hdr bs hd len buf :
  (forall l, (next h <= l)%nat -> bufs h !! l = None) ->
  holds h m hdr bs -> holds (snd (Message_new hd len buf h)) m hdr bs.
Proof.
  intros Hf (H1 & H2 & tail & rc & Hb). split_and!; [done..|]. exists tail, rc. simpl.
  rewrite lookup_insert_ne; [done|]. intros E. rewrite Hf in Hb by lia. done.
Qed.

Lemma readMessage_alloc {C} `{IConnection C} h (c c' : C) m h' :
  readMessage h c = (c', Ret (m, h')) ->
  exists hd len buf, (m, h') = Message_new hd len buf h.
Proof.
  unfold readMessage, mbnd, mret. destruct (receive 8 c) as [c1 [msg| |]]; try done.
  destruct (0 <? le_val (drop 4 msg)).
  - destruct (receive _ c1) as [c2 [bs| |]]; try done. destruct (store _ _ _); simpl; try done.
    intros [= _ <- <-]. by do 3 eexists.
  - intros [= _ <- <-]. by do 3 eexists.
Qed.

Lemma readMessages_spec {C} `{StreamLaws C} ps rest (c : C) h :
  up c -> (forall l, (next h <= l)%nat -> bufs h !! l = None) -> Forall sendable ps ->
  in_bytes c = concat (map wire ps) ++ rest ->
  exists c' ms h', readMessages (length ps) h c = (c', Ret (ms, h')) /\
    Forall2 (fun m p => holds h' m (fst p) (snd p)) ms ps /\ in_bytes c' = rest /\
    (forall m hdr bs, holds h m hdr bs -> holds h' m hdr bs).
Proof.
  intros Hup Hf Hs. revert c h Hup Hf. induction Hs as [|p ps [Hp1 Hp2] Hs IH]; intros c h Hup Hf Hin.
  { exists c, [], h. auto. }
  simpl in Hin. rewrite <- app_assoc in Hin.
  destruct (readMessage_spec c h _ _ _ Hup Hp1 Hp2 Hin) as (c1 & m & h1 & E1 & Hup1 & Hm & Hi1 & _).
  destruct (readMessage_alloc _ _ _ _ _ E1) as (hd & len & buf & Ea).
  assert (h1 = snd (Message_new hd len buf h)) as Eh by (by rewrite <- Ea).
  assert (forall l, (next h1 <= l)%nat -> bufs h1 !! l = None) as Hf1.
  { intros l Hl. rewrite Eh in *. simpl in *. rewrite lookup_insert_ne by lia. apply Hf. lia. }
  destruct (IH c1 h1 Hup1 Hf1 Hi1) as (c2 & ms & h2 & E2 & HF & Hi2 & Hkeep).
  exists c2, (m :: ms), h2. cbn [readMessages length]. unfold mbnd. rewrite E1. cbn [snd]. rewrite E2.
  split_and!; [done| |done|].
  - constructor; auto.
  - intros m' hdr bs Hm'. apply Hkeep. rewrite Eh. by apply holds_alloc.
Qed.

(** ** Properties *)

(** C3. Framing: whatever two connections implement [IConnection] as byte streams, the
    messages written on one are read back on the other in order, with the same headers
    and contents (empty contents included), and the reader is left exactly at the first
    byte after the last message. *)
Theorem framing_fifo {C1 C2} `{StreamLaws C1} `{StreamLaws C2} h1 ms ps (c1 : C1) :
  up c1 -> Forall2 (fun m p => holds h1 m (fst p) (snd p)) ms ps -> Forall sendable ps ->
  exists c1' (sent : list Z),
    writeMessages ms h1 c1 = (c1', Ret tt) /\ out_bytes c1' = out_bytes c1 ++ sent /\
    forall (c2 : C2) h2 rest,
      up c2 -> (forall l, (next h2 <= l)%nat -> bufs h2 !! l = None) -> in_bytes c2 = sent ++ rest ->
      exists c2' ms' h2',
        readMessages (length ps) h2 c2 = (c2', Ret (ms', h2')) /\
        Forall2 (fun m p => holds h2' m (fst p) (snd p)) ms' ps /\ in_bytes c2' = rest.
Proof.
  intros Hup1 HF Hs.
  destruct (writeMessages_spec h1 ms ps c1 Hup1 HF Hs) as (c1' & E1 & Ho).
  exists c1', (concat (map wire ps)). split_and!; [done..|].
  intros c2 h2 rest Hup2 Hf Hin.
  destruct (readMessages_spec ps rest c2 h2 Hup2 Hf Hs Hin) as (c2' & ms' & h2' & E2 & HF2 & Hi & _).
  by exists c2', ms', h2'.
Qed.

(** A loop-back kernel, which instantiates the parameters of the TCP connection. *)
Definition loop_send (bs : list Z) (s : list Z * list Z) := ((fst s ++ bs, snd s), Z.of_nat (length bs)).
Definition loop_recv (n : Z) (s : list Z * list Z) :=
  ((fst s, drop (Z.to_nat n) (snd s)), Some (take (Z.to_nat n) (snd s))).

#[local] Instance loop_laws : @StreamLaws (@Connection (list Z * list Z)) (tcp_connection loop_send loop_recv id).
Proof.
  apply (tcp_stream loop_send loop_recv id fst snd).
  - intros bs s. eexists. split; [reflexivity|]. done.
  - intros n s _ _. eexists. split; [reflexivity|]. done.
Defined.

Lemma framing_fifo_witness :
  exists c1' (sent : list Z),
    writeMessages (H := tcp_connection loop_send loop_recv id)
      [{| m_header := -3; m_length := 0; m_content := 0 |}]
      (Heap {[ 0%nat := {| rb_content := [None]; rb_refcount := 1 |} ]} 1)
      {| client := ([], []); conn_open := true |} = (c1', Ret tt) /\
    out_bytes (StreamLaws := loop_laws) c1' = [] ++ sent.
Proof.
  destruct (framing_fifo (H0 := loop_laws) (H2 := loop_laws)
    (Heap {[ 0%nat := {| rb_content := [None]; rb_refcount := 1 |} ]} 1)
    [{| m_header := -3; m_length := 0; m_content := 0 |}] [(-3, [])]
    {| client := ([], []); conn_open := true |}) as (c1' & sent & E & Ho & _); [done| | |by exists c1', sent].
  - repeat constructor; try done. eexists [None], 1. reflexivity.
  - repeat constructor; done.
Defined.

(** C6. The UDT receive loop is all-or-nothing, however the library splits the stream
    and whenever it fails: on an open connection a [receive] of [n] bytes terminates, and
    either returns exactly the next [n] bytes of the stream, or throws with the connection
    closed. *)
Theorem udp_receive_all_or_nothing {LIB} udt_send (udt_recv : Z -> LIB -> LIB * option (list Z)) udt_close
    (udt_out udt_in : LIB -> list Z) (n : Z) (c : UdpConnection) :
  (forall n s s' bs, 0 < n -> udt_recv n s = (s', Some bs) ->
     Z.of_nat (length bs) <= n /\ udt_in s = bs ++ udt_in s' /\ udt_out s' = udt_out s) ->
  0 < n -> udp_open c = true ->
  exists c',
    (exists bs, @receive _ (udp_connection udt_send udt_recv udt_close) n c = (c', Ret bs) /\
       Z.of_nat (length bs) = n /\ udp_open c' = true /\
       udt_in (udp_client c) = bs ++ udt_in (udp_client c')) \/
    (exists e, @receive _ (udp_connection udt_send udt_recv udt_close) n c = (c', Throw e) /\
       udp_open c' = false).
Proof.
  intros Hlib Hn Hop. simpl. rewrite Hop. simpl. unfold udp_receiveDirect.
  destruct (udp_receive_loop_spec udt_recv udt_close udt_out udt_in Hlib (Z.to_nat n) n [] c)
    as (c' & [(bs & E & Hl & Ho & Hi & _)|(e & E & Ho)]); [lia..|done| |];
    exists c'; [left; exists bs|right; exists e]; by rewrite E.
Qed.

(** A library that delivers one byte at a time. *)
Definition one_byte_recv (n : Z) (s : list Z) : list Z * option (list Z) :=
  match s with
  | [] => (s, None)
  | b :: s => (s, Some [b])
  end.

Lemma udp_receive_all_or_nothing_witness :
  exists c', (exists bs,
      @receive _ (udp_connection (fun _ s => (s, -1)) one_byte_recv id) 3
        {| udp_client := [7; 8; 9; 10]; udp_open := true |} = (c', Ret bs) /\
      Z.of_nat (length bs) = 3 /\ udp_open c' = true /\ [7; 8; 9; 10] = bs ++ udp_client c') \/
    (exists e, @receive _ (udp_connection (fun _ s => (s, -1)) one_byte_recv id) 3
        {| udp_client := [7; 8; 9; 10]; udp_open := true |} = (c', Throw e) /\ udp_open c' = false).
Proof.
  apply (udp_receive_all_or_nothing (fun _ s => (s, -1)) one_byte_recv id (fun _ => []) id 3
    {| udp_client := [7; 8; 9; 10]; udp_open := true |}); [|lia|done].
  intros n s s' bs Hn E. destruct s as [|b s]; [done|]. injection E as <- <-. simpl. split; [lia|done].
Defined.
