(* ===== verification/Va.v ===== *)
(** * Video overlay drawing (src/qemu/.../va.c, va.h) and the decoder back end
      (src/qemu/vabknd/vabknd.cc)

    [va_do_drawing] runs after each emulated frame and puts the last decoded video frame
    over the guest's screen; the back end's two threads receive window moves and encoded
    frames from the guest and update the shared [VAContext].  [int] is 32 bits and signed:
    an operation whose exact result does not fit is a [Fault], and so is a division by
    zero.  SDL, libavcodec and libswscale are parameters: what they return is an argument
    of the step that calls them. *)

From S2P Require Import Prelude.
From stdpp Require Import list sets.

Open Scope Z_scope.

(** ** va.h *)
Record Rect := { r_l : Z; r_t : Z; r_w : Z; r_h : Z }.

Record AVCodecContext := { av_width : Z; av_height : Z }.

(** The mutex is part of the model: [va_mutex] is true while it is held. *)
Record VAContext := {
  va_mutex : bool;
  va_avctx : option AVCodecContext;
  va_clientRect : Rect;
  va_needDraw : Z;
  va_playing : Z
}.

Record SDL_Surface := { sf_id : nat; sf_w : Z; sf_h : Z }.
Record SDL_Overlay := { ov_id : nat; ov_w : Z; ov_h : Z }.

(** The static [state] of va.c. *)
Record va_state := { overlay : option SDL_Overlay; last_screen : nat }.

(** Calls into SDL and libswscale, in order. *)
Inductive event :=
| ELock | EUnlock
| ECreate (id : nat) (w h : Z)
| ECreateFailed
| EFree (id : nat)
| EConvert (id : nat)
| EDisplay (id : nat) (x y w h : Z).

Definition clamp2000 (z : Z) : Z :=
  let z := if z <? 0 then 0 else z in
  if 2000 <? z then 2000 else z.

(** [calcScale]: the rectangle (vl, vt, vw, vh). *)
Definition calcScale (av : AVCodecContext) (client : Rect) (screen : SDL_Surface)
    (reswidth resheight : Z) : outcome Empty_set (Z * Z * Z * Z) :=
  let videow := av_width av in
  let videoh := av_height av in
  let windoww := clamp2000 (r_w client) in
  let windowh := clamp2000 (r_h client) in
  let! a := cmul windoww videoh in
  let! b := cmul windowh videow in
  let! nwindoww := (if b <? a then let! p := cmul videow windowh in cdiv p videoh
                    else Ret windoww) in
  let! nwindowh := (if b <? a then Ret windowh
                    else let! p := cmul videoh windoww in cdiv p videow) in
  let! dx := csub windoww nwindoww in
  let! dy := csub windowh nwindowh in
  let! hx := cdiv dx 2 in
  let! hy := cdiv dy 2 in
  let! nwindowl := cadd (r_l client) hx in
  let! nwindowt := cadd (r_t client) hy in
  let! pl := cmul nwindowl (sf_w screen) in
  let! vl := cdiv pl reswidth in
  let! pt := cmul nwindowt (sf_h screen) in
  let! vt := cdiv pt resheight in
  let! pw := cmul nwindoww (sf_w screen) in
  let! vw := cdiv pw reswidth in
  let! ph := cmul nwindowh (sf_h screen) in
  let! vh := cdiv ph resheight in
  Ret (vl, vt, vw, vh).

(** ** va_do_drawing *)
Definition set_mutex (b : bool) (c : VAContext) : VAContext :=
  {| va_mutex := b; va_avctx := va_avctx c; va_clientRect := va_clientRect c;
     va_needDraw := va_needDraw c; va_playing := va_playing c |}.

Definition set_needDraw (n : Z) (c : VAContext) : VAContext :=
  {| va_mutex := va_mutex c; va_avctx := va_avctx c; va_clientRect := va_clientRect c;
     va_needDraw := n; va_playing := va_playing c |}.

(** What SDL and libswscale answer during one call: the new overlay's identity, if
    [SDL_CreateYUVOverlay] succeeds, and the result of [sws_scale]. *)
Record answers := { an_create : option nat; an_scale : Z }.

(** [convert]: dereferences the overlay and returns the result of [sws_scale]. *)
Definition convert (st : va_state) (an : answers) : outcome Empty_set (list event * Z) :=
  match overlay st with
  | None => Fault
  | Some bmp => Ret ([EConvert (ov_id bmp)], an_scale an)
  end.

Definition overlay_stale (st : va_state) (screen : SDL_Surface) (vw vh : Z) : bool :=
  match overlay st with
  | None => true
  | Some o => negb (ov_w o =? vw) || negb (ov_h o =? vh) || negb (Nat.eqb (last_screen st) (sf_id screen))
  end.

Definition free_overlay (st : va_state) : list event * va_state :=
  match overlay st with
  | None => ([], st)
  | Some o => ([EFree (ov_id o)], {| overlay := None; last_screen := last_screen st |})
  end.

(** The overlay part: free a stale overlay and create a new one.  The boolean says
    whether drawing goes on. *)
Definition adjust_overlay (av : AVCodecContext) (st : va_state) (screen : SDL_Surface)
    (vw vh : Z) (an : answers) : list event * va_state * bool :=
  if overlay_stale st screen vw vh then
    let '(ev, st) := free_overlay st in
    if (vw <? Z.quot (av_width av) 20) || (vh <? Z.quot (av_height av) 20) then (ev, st, false)
    else match an_create an with
         | None => (ev ++ [ECreateFailed], st, false)
         | Some id =>
             (ev ++ [ECreate id vw vh],
              {| overlay := Some {| ov_id := id; ov_w := vw; ov_h := vh |};
                 last_screen := sf_id screen |}, true)
         end
  else ([], st, true).

(** [SDL_Rect] has 16-bit fields. *)
Definition display (st : va_state) (vl vt vw vh : Z) : outcome Empty_set (list event) :=
  match overlay st with
  | None => Fault
  | Some o => Ret [EDisplay (ov_id o) (swrap 16 vl) (swrap 16 vt) (u16 vw) (u16 vh)]
  end.

Definition va_do_drawing_locked (c : VAContext) (st : va_state) (real_screen : SDL_Surface)
    (width height : Z) (an : answers) : outcome Empty_set (list event * VAContext * va_state) :=
  let c := set_mutex true c in
  if negb (va_playing c =? 0) then
    if va_needDraw c =? 0 then Ret ([ELock; EUnlock], set_mutex false c, st)
    else
      let! av := oget (va_avctx c) in
      let! '(vl, vt, vw, vh) := calcScale av (va_clientRect c) real_screen width height in
      let '(ev, st, go) := adjust_overlay av st real_screen vw vh an in
      if negb go then Ret (ELock :: ev ++ [EUnlock], set_mutex false c, st)
      else
        let! '(cv, success) := convert st an in
        let c := set_mutex false (set_needDraw 0 c) in
        let! shown := (if 0 <? success then display st vl vt vw vh else Ret []) in
        Ret (ELock :: ev ++ cv ++ [EUnlock] ++ shown, c, st)
  else
    let '(ev, st) := free_overlay st in
    Ret ([ELock; EUnlock] ++ ev, set_mutex false c, st).

(** [va_do_drawing]: nothing happens before [va_init] has made a context. *)
Definition va_do_drawing (ctx : option VAContext) (st : va_state) (real_screen : SDL_Surface)
    (width height : Z) (an : answers)
  : outcome Empty_set (list event * option VAContext * va_state) :=
  match ctx with
  | None => Ret ([], None, st)
  | Some c =>
      let! '(ev, c, st) := va_do_drawing_locked c st real_screen width height an in
      Ret (ev, Some c, st)
  end.

(** ** vabknd.cc *)

(** [codec_init] throws the [CodecID], which is no [std::exception]. *)
Inductive va_exn := CodecIDException.

(** What libavcodec answers during one message. *)
Record codec_answers := {
  ca_found : bool;                        (* avcodec_find_decoder *)
  ca_h264 : option AVCodecContext;        (* the context h264init finds; None is exit(1) *)
  ca_open : Z;                            (* avcodec_open *)
  ca_len : Z;                             (* avcodec_decode_video2 *)
  ca_got : Z;
  ca_size : AVCodecContext                (* the context's dimensions after decoding *)
}.

Definition set_avctx (a : option AVCodecContext) (c : VAContext) : VAContext :=
  {| va_mutex := va_mutex c; va_avctx := a; va_clientRect := va_clientRect c;
     va_needDraw := va_needDraw c; va_playing := va_playing c |}.

Definition set_flags (playing needDraw : Z) (c : VAContext) : VAContext :=
  {| va_mutex := va_mutex c; va_avctx := va_avctx c; va_clientRect := va_clientRect c;
     va_needDraw := needDraw; va_playing := playing |}.

Definition set_clientRect (r : Rect) (c : VAContext) : VAContext :=
  {| va_mutex := va_mutex c; va_avctx := va_avctx c; va_clientRect := r;
     va_needDraw := va_needDraw c; va_playing := va_playing c |}.

(** [va_init]: [memset] clears the context. *)
Definition va_init : VAContext :=
  {| va_mutex := false; va_avctx := None; va_clientRect := {| r_l := 0; r_t := 0; r_w := 0; r_h := 0 |};
     va_needDraw := 0; va_playing := 0 |}.

(** One message of [changeHandler_thread], which expects header 7 and four [int]s. *)
Definition handle_change (header left width top height : Z) (c : VAContext) : VAContext :=
  if negb (header =? 7) then c
  else set_clientRect {| r_l := left; r_t := top; r_w := width; r_h := height |} c.

Inductive CodecID := CODEC_ID_H264 | CODEC_ID_MPEG4 | CODEC_ID_MPEG2VIDEO.

Definition codec_of (i : Z) : option CodecID :=
  if i =? 5 then Some CODEC_ID_H264
  else if i =? 8 then Some CODEC_ID_MPEG4
  else if i =? 7 then Some CODEC_ID_MPEG2VIDEO
  else None.

(** A context fresh from [avcodec_alloc_context] has no dimensions yet. *)
Definition fresh_context : AVCodecContext := {| av_width := 0; av_height := 0 |}.

Definition codec_init (i : Z) (ca : codec_answers) (c : VAContext) : VAContext * outcome va_exn unit :=
  match codec_of i with
  | None => (c, Throw CodecIDException)
  | Some cid =>
      if negb (ca_found ca) then (c, Throw CodecIDException)
      else
        let c := set_avctx None c in
        match (match cid with CODEC_ID_H264 => ca_h264 ca | _ => Some fresh_context end) with
        | None => (c, Fault)
        | Some a =>
            let c := set_avctx (Some a) c in
            if ca_open ca <? 0 then (c, Throw CodecIDException) else (c, Ret tt)
        end
  end.

(** An [int] at the start of the message content, which is an allocation of
    [content] bytes. *)
Definition content_int (content : list Z) : option Z :=
  match load content 0 4 with Some bs => Some (s32 (le_val bs)) | None => None end.

(** One message of [decode_thread].  The packet handed to the decoder is
    [content + 4] with the size the message claims. *)
Definition handle_decode (header : Z) (content : list Z) (ca : codec_answers) (c : VAContext)
  : VAContext * outcome va_exn unit :=
  if header =? 1 then
    match content_int content with
    | None => (c, Fault)
    | Some cid =>
        let '(c, r) := codec_init cid ca (set_mutex true c) in
        match r with
        | Ret _ => (set_mutex false c, Ret tt)
        | _ => (c, r)
        end
    end
  else if negb (header =? 4) then (c, Ret tt)
  else
    match content_int content with
    | None => (c, Fault)
    | Some size =>
        let c := set_mutex true c in
        match va_avctx c, load content 4 size with
        | Some _, Some _ =>
            if ca_len ca <? 0 then (set_mutex false c, Ret tt)
            else
              let c := set_avctx (Some (ca_size ca)) c in
              let c := if negb (ca_got ca =? 0) then set_flags 1 1 c else c in
              (set_mutex false c, Ret tt)
        | _, _ => (c, Fault)
        end
    end.

(** ** The geometry *)
Lemma cdiv_ret {E} a b : b <> 0 -> - 2 ^ 31 <= Z.quot a b < 2 ^ 31 -> @cdiv E a b = Ret (Z.quot a b).
Proof. intros Hb H. unfold cdiv. rewrite (proj2 (Z.eqb_neq _ _) Hb). by apply cint_ret. Qed.

Lemma clamp2000_range z : 0 <= clamp2000 z <= 2000.
Proof. unfold clamp2000. destruct (Z.ltb_spec z 0); if_case; lia. Qed.

Lemma clamp2000_id z : 0 <= z <= 2000 -> clamp2000 z = z.
Proof. intros. unfold clamp2000. destruct (Z.ltb_spec z 0); [lia|]. if_case; lia. Qed.

Lemma quot_nonneg_bound a b m : 0 <= a <= m -> 0 < b -> 0 <= Z.quot a b <= m.
Proof.
  intros [H1 H2] Hb. rewrite Z.quot_div_nonneg by lia.
  pose proof (Z.div_pos a b H1 Hb). pose proof (Z.div_le_upper_bound a b a Hb). nia.
Qed.

Lemma mul_bound a b m n : 0 <= a <= m -> 0 <= b <= n -> 0 <= a * b <= m * n.
Proof. nia. Qed.

Lemma calcScale_no_dims cl screen w h : calcScale fresh_context cl screen w h = Fault.
Proof.
  unfold calcScale, cmul, fresh_context. simpl av_width. simpl av_height.
  by rewrite !Z.mul_0_r.
Qed.

(** The size of the letter box: one side fills the window, the other is rounded down. *)
Definition letterbox (W H vw vh : Z) : Z * Z :=
  if H * vw <? W * vh then (vw * H / vh, H) else (W, vh * W / vw).

Lemma letterbox_fits W H vw vh :
  0 <= W -> 0 <= H -> 0 < vw -> 0 < vh ->
  0 <= fst (letterbox W H vw vh) <= W /\ 0 <= snd (letterbox W H vw vh) <= H.
Proof.
  intros HW HH Hvw Hvh. unfold letterbox. if_case; simpl.
  - split; [|lia]. split; [apply Z.div_pos; nia|]. apply Z.div_le_upper_bound; nia.
  - split; [lia|]. split; [apply Z.div_pos; nia|]. apply Z.div_le_upper_bound; nia.
Qed.

Record sane (av : AVCodecContext) (screen : SDL_Surface) (rw rh : Z) : Prop := {
  sane_vw : 0 < av_width av <= 16384;
  sane_vh : 0 < av_height av <= 16384;
  sane_sw : 0 < sf_w screen <= 16384;
  sane_sh : 0 < sf_h screen <= 16384;
  sane_rw : 0 < rw;
  sane_rh : 0 < rh
}.

Lemma quot_abs_bound a b m : - m <= a <= m -> 0 < b -> - m <= Z.quot a b <= m.
Proof.
  intros Ha Hb. pose proof (Z.quot_abs a b ltac:(lia)) as Eq.
  assert (Z.abs a ÷ Z.abs b <= m).
  { pose proof (quot_nonneg_bound (Z.abs a) (Z.abs b) m). lia. }
  lia.
Qed.

(** The place of the letter box in the guest's coordinates. *)
Definition place (av : AVCodecContext) (cl : Rect) : Z * Z :=
  let '(nw, nh) := letterbox (clamp2000 (r_w cl)) (clamp2000 (r_h cl)) (av_width av) (av_height av) in
  (r_l cl + Z.quot (clamp2000 (r_w cl) - nw) 2, r_t cl + Z.quot (clamp2000 (r_h cl) - nh) 2).

(** The place, and the place times the size of the screen, are [int]s. *)
Definition place_fits (av : AVCodecContext) (cl : Rect) (screen : SDL_Surface) : bool :=
  let '(x, y) := place av cl in int_ok x && int_ok y && int_ok (x * sf_w screen) && int_ok (y * sf_h screen).

Lemma int_ok_spec z : int_ok z = true <-> - 2 ^ 31 <= z < 2 ^ 31.
Proof. unfold int_ok. rewrite andb_true_iff, Z.leb_le, Z.ltb_lt. done. Qed.

(** The steps of [calcScale] before the place is computed never overflow. *)
Lemma calcScale_place av cl screen rw rh :
  sane av screen rw rh ->
  let '(nw, nh) := letterbox (clamp2000 (r_w cl)) (clamp2000 (r_h cl)) (av_width av) (av_height av) in
  let '(x, y) := place av cl in
  calcScale av cl screen rw rh =
  let! x := cint x in let! y := cint y in
  let! pl := cint (x * sf_w screen) in let! vl := cdiv pl rw in
  let! pt := cint (y * sf_h screen) in let! vt := cdiv pt rh in
  Ret (vl, vt, Z.quot (nw * sf_w screen) rw, Z.quot (nh * sf_h screen) rh).
Proof.
  intros [Hvw Hvh Hsw Hsh Hrw Hrh]. unfold place. set (W := clamp2000 (r_w cl)). set (H := clamp2000 (r_h cl)).
  pose proof (clamp2000_range (r_w cl)) as HW. fold W in HW. pose proof (clamp2000_range (r_h cl)) as HH. fold H in HH.
  pose proof (letterbox_fits W H (av_width av) (av_height av)) as Hfit.
  destruct (letterbox W H (av_width av) (av_height av)) as [nw nh] eqn:E. simpl in Hfit. destruct Hfit as [Hnw Hnh]; [lia..|].
  pose proof (mul_bound W (av_height av) 2000 16384). pose proof (mul_bound H (av_width av) 2000 16384).
  pose proof (quot_abs_bound (W - nw) 2 2000). pose proof (quot_abs_bound (H - nh) 2 2000).
  pose proof (mul_bound nw (sf_w screen) 2000 16384). pose proof (mul_bound nh (sf_h screen) 2000 16384).
  pose proof (quot_nonneg_bound (nw * sf_w screen) rw 32768000). pose proof (quot_nonneg_bound (nh * sf_h screen) rh 32768000).
  assert (forall k : Z * Z -> outcome Empty_set (Z * Z * Z * Z),
    (let! a := cmul W (av_height av) in let! b := cmul H (av_width av) in
     let! nwindoww := (if b <? a then let! p := cmul (av_width av) H in cdiv p (av_height av) else Ret W) in
     let! nwindowh := (if b <? a then Ret H else let! p := cmul (av_height av) W in cdiv p (av_width av)) in k (nwindoww, nwindowh)) = k (nw, nh)) as Hbox.
  { intros k. unfold cmul. rewrite !cint_ret by lia. cbn [obind]. unfold letterbox in E. destruct (H * av_width av <? W * av_height av); injection E as <- <-; cbn [obind]; rewrite ?cint_ret by lia; cbn [obind];
      rewrite cdiv_ret; rewrite ?(Z.quot_div_nonneg (av_width av * H)), ?(Z.quot_div_nonneg (av_height av * W)) by lia; done || lia. }
  unfold calcScale. fold W H. cbv zeta. etransitivity; [apply (Hbox (fun '(nwindoww, nwindowh) => _))|]. cbn beta iota. unfold csub, cadd, cmul.
  rewrite !cint_ret by lia. cbn [obind]. rewrite !cdiv_ret by lia. cbn [obind].
  destruct (cint (r_l cl + _)) as [x| |]; cbn [obind]; [|done..]. destruct (cint (r_t cl + _)) as [y| |]; cbn [obind]; [|done..].
  destruct (cint (x * _)) as [pl| |]; cbn [obind]; [|done..]. destruct (cdiv pl rw) as [vl| |]; cbn [obind]; [|done..].
  destruct (cint (y * _)) as [pt| |]; cbn [obind]; [|done..]. destruct (cdiv pt rh) as [vt| |]; cbn [obind]; [|done..].
  rewrite ?cint_ret by lia. cbn [obind]. rewrite ?cdiv_ret by lia. done.
Qed.

Lemma calcScale_eq av cl screen rw rh :
  sane av screen rw rh ->
  let '(nw, nh) := letterbox (clamp2000 (r_w cl)) (clamp2000 (r_h cl)) (av_width av) (av_height av) in
  let '(x, y) := place av cl in
  calcScale av cl screen rw rh =
  if place_fits av cl screen then
    Ret (Z.quot (x * sf_w screen) rw, Z.quot (y * sf_h screen) rh, Z.quot (nw * sf_w screen) rw, Z.quot (nh * sf_h screen) rh)
  else Fault.
Proof.
  intros Hs. pose proof (calcScale_place av cl screen rw rh Hs) as E. destruct Hs as [_ _ _ _ Hrw Hrh]. unfold place_fits.
  destruct (letterbox _ _ _ _) as [nw nh]. destruct (place av cl) as [x y]. rewrite E. clear E. unfold cint.
  assert (forall z r, 0 < r -> int_ok z = true -> @cdiv Empty_set z r = Ret (Z.quot z r)) as Hd.
  { intros z r Hr Hz%int_ok_spec. apply cdiv_ret; [lia|]. destruct (Z.eq_dec z (- 2 ^ 31)) as [->|N]; [|pose proof (quot_abs_bound z r (2 ^ 31 - 1)); lia].
    pose proof (quot_abs_bound (2 ^ 31) r (2 ^ 31) ltac:(lia) Hr). rewrite Z.quot_opp_l by lia. pose proof (Z.quot_pos (2 ^ 31) r ltac:(lia) ltac:(lia)). lia. }
  destruct (int_ok x); cbn [obind andb]; [|done]. destruct (int_ok y); cbn [obind andb]; [|done].
  destruct (int_ok (x * sf_w screen)) eqn:E1; cbn [obind andb]; [|done]. rewrite (Hd _ _ Hrw E1). cbn [obind].
  destruct (int_ok (y * sf_h screen)) eqn:E2; cbn [obind]; [|done]. by rewrite (Hd _ _ Hrh E2).
Qed.

(** ** The overlay protocol

    The automaton of what SDL requires: the mutex is taken when free and released when
    held, one overlay exists at a time, and only an existing overlay is freed, filled or
    shown. *)
Definition protocol_step (s : bool * option nat) (e : event) : option (bool * option nat) :=
  let '(locked, cur) := s in
  match e with
  | ELock => if locked then None else Some (true, cur)
  | EUnlock => if locked then Some (false, cur) else None
  | ECreate id _ _ => match cur with None => if locked then Some (true, Some id) else None | Some _ => None end
  | ECreateFailed => match cur with None => Some (locked, None) | Some _ => None end
  | EFree id => if decide (cur = Some id) then Some (locked, None) else None
  | EConvert id => if locked && bool_decide (cur = Some id) then Some (locked, cur) else None
  | EDisplay id _ _ _ _ => if decide (cur = Some id) then Some (locked, cur) else None
  end.

Fixpoint protocol (s : bool * option nat) (evs : list event) : option (bool * option nat) :=
  match evs with
  | [] => Some s
  | e :: evs => match protocol_step s e with Some s => protocol s evs | None => None end
  end.

Definition current (st : va_state) : option nat := ov_id <$> overlay st.

Lemma protocol_app s evs1 evs2 :
  protocol s (evs1 ++ evs2) = match protocol s evs1 with Some s => protocol s evs2 | None => None end.
Proof.
  revert s. induction evs1 as [|e evs1 IH]; intros s; [done|]. simpl.
  destruct (protocol_step s e); auto.
Qed.

Lemma free_overlay_protocol st ev st' lk :
  free_overlay st = (ev, st') ->
  protocol (lk, current st) ev = Some (lk, current st') /\ current st' = None.
Proof.
  unfold free_overlay, current. destruct (overlay st) as [o|] eqn:E; intros [= <- <-]; simpl.
  - by rewrite decide_True.
  - by rewrite E.
Qed.

Lemma adjust_overlay_protocol av st screen vw vh an ev st' go :
  adjust_overlay av st screen vw vh an = (ev, st', go) ->
  protocol (true, current st) ev = Some (true, current st') /\
  (go = true -> is_Some (overlay st')).
Proof.
  unfold adjust_overlay. destruct (overlay_stale st screen vw vh) eqn:Es.
  - destruct (free_overlay st) as [ev0 st0] eqn:Ef.
    destruct (free_overlay_protocol _ _ _ true Ef) as [Hp Hc].
    destruct (_ || _); [intros [= <- <- <-]; done|].
    destruct (an_create an) as [id|]; intros [= <- <- <-]; rewrite protocol_app, Hp, Hc; simpl; rewrite ?Hc; naive_solver.
  - intros [= <- <- <-]. split; [done|]. intros _.
    unfold overlay_stale in Es. destruct (overlay st); [eauto|done].
Qed.

Lemma va_do_drawing_locked_protocol c st screen w h an evs c' st' :
  va_do_drawing_locked c st screen w h an = Ret (evs, c', st') ->
  protocol (false, current st) evs = Some (false, current st') /\ va_mutex c' = false.
Proof.
  unfold va_do_drawing_locked.
  destruct (negb (va_playing (set_mutex true c) =? 0)).
  - destruct (va_needDraw _ =? 0); [by intros [= <- <- <-]|].
    destruct (va_avctx _) as [av|]; [|done]. simpl.
    destruct (calcScale _ _ _ _ _) as [[[[vl vt] vw] vh]| |]; try done. simpl.
    destruct (adjust_overlay _ _ _ _ _ _) as [[ev st1] go] eqn:Ea.
    destruct (adjust_overlay_protocol _ _ _ _ _ _ _ _ _ Ea) as [Hp Hgo].
    destruct go; simpl.
    + destruct (Hgo eq_refl) as [o Ho]. unfold convert, display. rewrite Ho. simpl.
      destruct (0 <? an_scale an); simpl; intros [= <- <- <-]; simpl;
        rewrite protocol_app, Hp; unfold current; rewrite Ho; simpl;
        rewrite bool_decide_true by done; simpl; rewrite ?decide_True by done; done.
    + intros [= <- <- <-]. simpl. by rewrite protocol_app, Hp.
  - destruct (free_overlay st) as [ev st1] eqn:Ef. intros [= <- <- <-]. simpl.
    destruct (free_overlay_protocol _ _ _ false Ef) as [Hp _]. done.
Qed.

(** A draw call, with what the other threads have made of the context before it, and the
    answers it gets. *)
Record draw_call := {
  dc_ctx : option VAContext; dc_screen : SDL_Surface; dc_width : Z; dc_height : Z; dc_answers : answers
}.

(** A call that has a frame to draw has a codec context and a geometry. *)
Definition drawable (d : draw_call) : bool :=
  match dc_ctx d with
  | None => true
  | Some c =>
      (va_playing c =? 0) || (va_needDraw c =? 0) ||
      match va_avctx c with
      | None => false
      | Some av => is_ret (calcScale av (va_clientRect c) (dc_screen d) (dc_width d) (dc_height d))
      end
  end.

Definition draw (st : va_state) (d : draw_call) : outcome Empty_set (list event * option VAContext * va_state) :=
  va_do_drawing (dc_ctx d) st (dc_screen d) (dc_width d) (dc_height d) (dc_answers d).

(** The events of a sequence of calls, and the contexts they leave. *)
Fixpoint draws (st : va_state) (ds : list draw_call) : outcome Empty_set (list event * list (option VAContext) * va_state) :=
  match ds with
  | [] => Ret ([], [], st)
  | d :: ds =>
      let! '(evs, c, st) := draw st d in
      let! '(evs', cs, st) := draws st ds in
      Ret (evs ++ evs', c :: cs, st)
  end.

Definition released (c : option VAContext) : Prop := match c with Some c => va_mutex c = false | None => True end.

Lemma draw_protocol st d : drawable d = true ->
  exists evs c st', draw st d = Ret (evs, c, st') /\ protocol (false, current st) evs = Some (false, current st') /\ released c.
Proof.
  intros Hd. unfold draw, drawable in *. destruct d as [[c|] screen w h an]; cbn [dc_ctx dc_screen dc_width dc_height dc_answers] in *; [|by exists [], None, st]. cbn [va_do_drawing].
  destruct (va_do_drawing_locked c st screen w h an) as [[[evs c'] st']|[]|] eqn:E.
  - destruct (va_do_drawing_locked_protocol _ _ _ _ _ _ _ _ _ E) as [Hp Hm]. cbn [obind]. by exists evs, (Some c'), st'.
  - exfalso. revert E. unfold va_do_drawing_locked. cbn [set_mutex va_playing va_needDraw va_avctx va_clientRect]. destruct (va_playing c =? 0); cbn [negb orb] in *; [by destruct (free_overlay st)|].
    destruct (va_needDraw c =? 0); cbn [orb] in *; [done|]. destruct (va_avctx c) as [av|]; [|done]. cbn [oget obind]. destruct (calcScale _ _ _ _ _) as [[[[vl vt] vw] vh]| |]; try done. cbn [obind].
    destruct (adjust_overlay av st screen vw vh an) as [[ev st1] go] eqn:Ea. destruct (adjust_overlay_protocol _ _ _ _ _ _ _ _ _ Ea) as [_ Hgo]. destruct go; cbn [negb]; [|done].
    destruct (Hgo eq_refl) as [o Ho]. unfold convert, display. rewrite Ho. cbn [obind]. destruct (0 <? an_scale an); done.
Qed.

(** ** Properties *)

(** C7. Geometry of the video rectangle: for every client rectangle, any [int]s, that the
    guest reports, a video and a screen with sides from 1 to 16384 and any positive
    resolution, [calcScale] never divides by zero, and overflows exactly when the place of
    the letter box, or that place times the screen's size, is not an [int] ([place_fits]).
    Otherwise the result is no larger than the (clamped) window scaled to the screen; and at
    scale one, for a window of at most 2000 by 2000, it lies inside the window, touches two
    opposite sides, and the other dimension is the exact aspect ratio rounded down. *)
Theorem calcScale_letterbox av cl screen rw rh :
  sane av screen rw rh ->
  (place_fits av cl screen = false -> calcScale av cl screen rw rh = Fault) /\
  (place_fits av cl screen = true ->
   exists vl vt vw vh, calcScale av cl screen rw rh = Ret (vl, vt, vw, vh) /\
    0 <= vw * rw <= clamp2000 (r_w cl) * sf_w screen /\
    0 <= vh * rh <= clamp2000 (r_h cl) * sf_h screen /\
    (rw = sf_w screen -> rh = sf_h screen -> 0 <= r_w cl <= 2000 -> 0 <= r_h cl <= 2000 ->
     r_l cl <= vl /\ vl + vw <= r_l cl + r_w cl /\
     r_t cl <= vt /\ vt + vh <= r_t cl + r_h cl /\
     ((vh = r_h cl /\ vw * av_height av <= av_width av * r_h cl < (vw + 1) * av_height av) \/
      (vw = r_w cl /\ vh * av_width av <= av_height av * r_w cl < (vh + 1) * av_width av)))).
Proof.
  intros Hs. pose proof (calcScale_eq av cl _ _ _ Hs) as E. unfold place in E.
  destruct Hs as [Hvw Hvh Hsw Hsh Hrw Hrh].
  pose proof (clamp2000_range (r_w cl)) as HW. pose proof (clamp2000_range (r_h cl)) as HH.
  destruct (letterbox_fits (clamp2000 (r_w cl)) (clamp2000 (r_h cl)) (av_width av) (av_height av))
    as [Hnw Hnh]; [lia..|].
  destruct (letterbox _ _ _ _) as [nw nh] eqn:El. simpl in Hnw, Hnh.
  split; intros Hp; rewrite Hp in E; [exact E|].
  do 4 eexists. split; [exact E|]. split_and!.
  - apply Z.mul_nonneg_nonneg; [apply Z.quot_pos; nia|lia].
  - pose proof (Z.mul_quot_le (nw * sf_w screen) rw). nia.
  - apply Z.mul_nonneg_nonneg; [apply Z.quot_pos; nia|lia].
  - pose proof (Z.mul_quot_le (nh * sf_h screen) rh). nia.
  - intros -> -> HW2 HH2. rewrite !Z.quot_mul by lia.
    rewrite !(clamp2000_id _ HW2), !(clamp2000_id _ HH2) in *.
    rewrite !Z.quot_div_nonneg by lia.
    pose proof (Z.mul_div_le (r_w cl - nw) 2). pose proof (Z.mul_div_le (r_h cl - nh) 2).
    pose proof (Z.div_pos (r_w cl - nw) 2). pose proof (Z.div_pos (r_h cl - nh) 2).
    split_and!; [lia..|]. unfold letterbox in El.
    destruct (_ <? _); injection El as <- <-; [left|right]; (split; [done|]).
    + pose proof (Z.mul_div_le (av_width av * r_h cl) (av_height av)).
      pose proof (Z.mul_succ_div_gt (av_width av * r_h cl) (av_height av)). lia.
    + pose proof (Z.mul_div_le (av_height av * r_w cl) (av_width av)).
      pose proof (Z.mul_succ_div_gt (av_height av * r_w cl) (av_width av)). lia.
Qed.

Definition example_screen : SDL_Surface := {| sf_id := 1; sf_w := 1024; sf_h := 768 |}.

Lemma calcScale_letterbox_witness :
  (exists vl vt vw vh,
    calcScale {| av_width := 640; av_height := 360 |} {| r_l := 10; r_t := -5; r_w := 800; r_h := 600 |}
      example_screen 1024 768 = Ret (vl, vt, vw, vh)) /\
  calcScale {| av_width := 640; av_height := 360 |} {| r_l := 2097152; r_t := 0; r_w := 800; r_h := 600 |} example_screen 1024 768 = Fault.
Proof.
  split.
  - destruct (proj2 (calcScale_letterbox {| av_width := 640; av_height := 360 |}
      {| r_l := 10; r_t := -5; r_w := 800; r_h := 600 |} example_screen 1024 768 ltac:(split; simpl; lia)) eq_refl)
      as (vl & vt & vw & vh & E & _); by exists vl, vt, vw, vh.
  - apply (calcScale_letterbox {| av_width := 640; av_height := 360 |}
      {| r_l := 2097152; r_t := 0; r_w := 800; r_h := 600 |} example_screen 1024 768); [split; simpl; lia|reflexivity].
Defined.

(** The guest chooses the place: a window far to the right makes the drawing overflow. *)
Lemma far_window_overflows : forall st an,
  va_do_drawing (Some {| va_mutex := false; va_avctx := Some {| av_width := 640; av_height := 360 |};
      va_clientRect := {| r_l := 2097152; r_t := 0; r_w := 800; r_h := 600 |}; va_needDraw := 1; va_playing := 1 |})
    st example_screen 1024 768 an = Fault.
Proof. intros st an. by vm_compute. Qed.

(** C8. Overlay and mutex protocol: whatever the decoder threads do to the shared context
    between the calls, whatever the guest's screen does and whatever SDL answers, a failed
    [SDL_CreateYUVOverlay] included, every call of a sequence of [va_do_drawing] calls
    returns, without ever using an overlay that does not exist, as long as a call that has a
    frame to draw finds a codec context and a geometry that does not overflow ([drawable]);
    the calls together release the mutex each time, never have two overlays at once or lose
    one without freeing it, only free, fill or show the overlay that is allocated, and end
    with [state.overlay] being exactly that overlay. *)
Theorem va_drawing_protocol st ds :
  forallb drawable ds = true ->
  exists evs cs st', draws st ds = Ret (evs, cs, st') /\
    protocol (false, current st) evs = Some (false, current st') /\ Forall released cs.
Proof.
  revert st. induction ds as [|d ds IH]; intros st; cbn [forallb draws]; [intros _; exists [], [], st; by repeat split; constructor|].
  intros [Hd Hds]%andb_true_iff. destruct (draw_protocol st d Hd) as (evs & c & st1 & -> & Hp & Hc). cbn [obind].
  destruct (IH st1 Hds) as (evs' & cs & st2 & -> & Hp' & Hcs). cbn [obind]. exists (evs ++ evs'), (c :: cs), st2.
  split; [done|]. split; [by rewrite protocol_app, Hp|by constructor].
Qed.

(** Two frames: the overlay cannot be made for the first, and is made for the second. *)
Definition example_draws : list draw_call :=
  let c := {| va_mutex := false; va_avctx := Some {| av_width := 640; av_height := 360 |};
      va_clientRect := {| r_l := 0; r_t := 0; r_w := 800; r_h := 600 |}; va_needDraw := 1; va_playing := 1 |} in
  [ {| dc_ctx := Some c; dc_screen := example_screen; dc_width := 1024; dc_height := 768; dc_answers := {| an_create := None; an_scale := 450 |} |};
    {| dc_ctx := Some c; dc_screen := example_screen; dc_width := 1024; dc_height := 768; dc_answers := {| an_create := Some 7%nat; an_scale := 450 |} |} ].
Lemma va_drawing_protocol_witness :
  exists evs cs st', draws {| overlay := None; last_screen := 0 |} example_draws = Ret (evs, cs, st') /\
    protocol (false, None) evs = Some (false, current st') /\ Forall released cs.
Proof. apply (va_drawing_protocol {| overlay := None; last_screen := 0 |} example_draws). reflexivity. Defined.

(** C9. A decoded frame is drawn once: with a sane geometry, a call that finds a frame
    waiting and an overlay available converts it into an overlay of exactly the computed
    size, shows it there, and clears [needDraw], so that the next call draws nothing and
    changes nothing. *)
Theorem va_frame_drawn_once c st screen w h an av id vl vt vw vh :
  va_playing c <> 0 -> va_needDraw c <> 0 -> va_avctx c = Some av ->
  calcScale av (va_clientRect c) screen w h = Ret (vl, vt, vw, vh) ->
  an_create an = Some id -> 0 < an_scale an ->
  Z.quot (av_width av) 20 <= vw -> Z.quot (av_height av) 20 <= vh ->
  exists evs c' st' oid,
    va_do_drawing_locked c st screen w h an = Ret (evs, c', st') /\
    overlay st' = Some {| ov_id := oid; ov_w := vw; ov_h := vh |} /\
    last_screen st' = sf_id screen /\
    last evs = Some (EDisplay oid (swrap 16 vl) (swrap 16 vt) (u16 vw) (u16 vh)) /\
    EConvert oid ∈ evs /\ va_needDraw c' = 0 /\ va_mutex c' = false /\
    forall an', va_do_drawing_locked c' st' screen w h an' = Ret ([ELock; EUnlock], c', st').
Proof.
  intros Hp Hn Ha Hc Hid Hs Hw Hh. unfold va_do_drawing_locked at 1. simpl.
  rewrite (proj2 (Z.eqb_neq _ _) Hp), (proj2 (Z.eqb_neq _ _) Hn), Ha. simpl. rewrite Hc. simpl.
  assert (exists ev o, adjust_overlay av st screen vw vh an =
    (ev, {| overlay := Some o; last_screen := sf_id screen |}, true) /\ ov_w o = vw /\ ov_h o = vh)
    as (ev & [oid ow oh] & -> & Ew & Eh).
  { unfold adjust_overlay. destruct (overlay_stale st screen vw vh) eqn:Es.
    - destruct (free_overlay st) as [ev0 st0].
      rewrite (proj2 (Z.ltb_ge _ _) Hw), (proj2 (Z.ltb_ge _ _) Hh), Hid. simpl. by do 2 eexists.
    - unfold overlay_stale in Es. destruct (overlay st) as [o|] eqn:Eo; [|done].
      apply orb_false_iff in Es as [[E1 E2]%orb_false_iff E3].
      apply negb_false_iff, Nat.eqb_eq in E3. bool_hyps.
      exists [], o. destruct st. simpl in *. by subst. }
  simpl in Ew, Eh. subst. simpl. rewrite (proj2 (Z.ltb_lt _ _) Hs). simpl.
  do 4 eexists. split; [reflexivity|]. simpl. split_and!; [done|done| | |done|done|].
  - by rewrite app_comm_cons, last_app.
  - set_solver.
  - intros an'. unfold va_do_drawing_locked. simpl. by rewrite (proj2 (Z.eqb_neq _ _) Hp).
Qed.

Lemma va_frame_drawn_once_witness :
  exists evs c' st' oid,
    va_do_drawing_locked {| va_mutex := false; va_avctx := Some {| av_width := 640; av_height := 360 |};
      va_clientRect := {| r_l := 0; r_t := 0; r_w := 800; r_h := 600 |};
      va_needDraw := 1; va_playing := 1 |} {| overlay := None; last_screen := 0 |} example_screen 1024 768
      {| an_create := Some 7%nat; an_scale := 450 |} = Ret (evs, c', st') /\
    overlay st' = Some {| ov_id := oid; ov_w := 800; ov_h := 450 |}.
Proof.
  destruct (va_frame_drawn_once {| va_mutex := false; va_avctx := Some {| av_width := 640; av_height := 360 |};
      va_clientRect := {| r_l := 0; r_t := 0; r_w := 800; r_h := 600 |};
      va_needDraw := 1; va_playing := 1 |} {| overlay := None; last_screen := 0 |} example_screen 1024 768
      {| an_create := Some 7%nat; an_scale := 450 |} {| av_width := 640; av_height := 360 |} 7 0 75 800 450)
    as (evs & c' & st' & oid & E & Ho & _); [done|done|done|vm_compute; reflexivity|done|vm_compute; done..|].
  by exists evs, c', st', oid.
Defined.

(** The decoder thread and the drawing code do not agree on when a context has
    dimensions: when the guest selects a codec (other than H.264) while a decoded frame is
    still waiting to be drawn, [codec_init] installs a context without dimensions and
    leaves [playing] and [needDraw] set, and the next [va_do_drawing] divides by zero. *)
Theorem codec_change_faults_next_draw c cid content ca st screen w h an :
  va_playing c <> 0 -> va_needDraw c <> 0 ->
  content_int content = Some cid -> cid = 8 \/ cid = 7 -> ca_found ca = true -> 0 <= ca_open ca ->
  exists c', handle_decode 1 content ca c = (c', Ret tt) /\ va_mutex c' = false /\
    va_do_drawing (Some c') st screen w h an = Fault.
Proof.
  intros Hp Hn Hcid Hmp Hf Ho. unfold handle_decode. simpl. rewrite Hcid. unfold codec_init.
  assert (exists k, codec_of cid = Some k /\ k <> CODEC_ID_H264) as (k & -> & Hk).
  { destruct Hmp as [->| ->]; by eexists. }
  rewrite Hf. destruct k; [done|..]; simpl; rewrite (proj2 (Z.ltb_ge _ _) Ho);
    (eexists; split; [reflexivity|]; split; [done|]);
    unfold va_do_drawing, va_do_drawing_locked; simpl;
    rewrite (proj2 (Z.eqb_neq _ _) Hp), (proj2 (Z.eqb_neq _ _) Hn); simpl;
    by rewrite calcScale_no_dims.
Qed.

Lemma codec_change_faults_next_draw_witness :
  exists c', handle_decode 1 [8; 0; 0; 0] {| ca_found := true; ca_h264 := None; ca_open := 0; ca_len := 0;
      ca_got := 0; ca_size := fresh_context |} (set_flags 1 1 va_init) = (c', Ret tt) /\
    va_do_drawing (Some c') {| overlay := None; last_screen := 0 |} example_screen 1024 768
      {| an_create := None; an_scale := 0 |} = Fault.
Proof.
  destruct (codec_change_faults_next_draw (set_flags 1 1 va_init) 8 [8; 0; 0; 0]
    {| ca_found := true; ca_h264 := None; ca_open := 0; ca_len := 0; ca_got := 0; ca_size := fresh_context |}
    {| overlay := None; last_screen := 0 |} example_screen 1024 768 {| an_create := None; an_scale := 0 |})
    as (c' & E & _ & F); [done|done|reflexivity|by left|done|done|by exists c'].
Defined.
