(* ===== verification/QObject.v ===== *)
(** * QObjects: qobject.h, qint.c, qbool.c, qfloat.c, qstring.c, qlist.c, qdict.c

    The objects the monitor and the JSON code pass around.  A C string is the list of its
    bytes before the terminating NUL.  [QDict] is the hash table the code has: 512 buckets,
    a new entry goes to the head of its bucket.  Here a reference is its object; the
    reference counts and the sharing of objects are in QHeap. *)

From S2P Require Import Prelude.
From stdpp Require Import gmap list.

Open Scope Z_scope.

Abbreviation cstring := (list Z).

Definition nul_free (s : cstring) : Prop := Forall (fun b => 0 < b < 256) s.

#[export] Instance nul_free_dec s : Decision (nul_free s).
Proof. unfold nul_free. apply _. Defined.

(** ** qdict.c, for values of any type *)
Definition QDICT_HASH_SIZE : nat := 512.

Record qdict (V : Type) := Build_qdict {
  qd_size : Z;
  qd_table : list (list (cstring * V))
}.
Arguments Build_qdict {V}.
Arguments qd_size {V}.
Arguments qd_table {V}.

Definition qdict_new {V} : qdict V :=
  Build_qdict 0 (replicate QDICT_HASH_SIZE []).

(** The loop of [tdb_hash] over the bytes of the name, [i] being the index. *)
Fixpoint tdb_hash_loop (name : cstring) (i value : Z) : Z :=
  match name with
  | [] => value
  | b :: name => tdb_hash_loop name (i + 1) (u32 (value + Z.shiftl b ((i * 5) mod 24)))
  end.

Definition tdb_hash (name : cstring) : Z :=
  let value := tdb_hash_loop name 0 (u32 (0x238F13AF * Z.of_nat (length name))) in
  u32 (1103515243 * value + 12345).

Definition hash_of (key : cstring) : nat := Z.to_nat (tdb_hash key mod Z.of_nat QDICT_HASH_SIZE).

Section Buckets.
Context {V : Type}.
Implicit Types (b : list (cstring * V)) (d : qdict V) (k : cstring).

(** [QLIST_FOREACH] with [strcmp]: the first entry with the key. *)
Fixpoint bucket_find k b : option V :=
  match b with
  | [] => None
  | (k', v) :: b => if decide (k' = k) then Some v else bucket_find k b
  end.

(** [entry->value = value] on the entry [bucket_find] finds. *)
Fixpoint bucket_replace k (v : V) b : list (cstring * V) :=
  match b with
  | [] => []
  | (k', v') :: b => if decide (k' = k) then (k', v) :: b else (k', v') :: bucket_replace k v b
  end.

(** [QLIST_REMOVE] of the entry [bucket_find] finds. *)
Fixpoint bucket_remove k b : list (cstring * V) :=
  match b with
  | [] => []
  | (k', v') :: b => if decide (k' = k) then b else (k', v') :: bucket_remove k b
  end.

Definition bucket d (hash : nat) : list (cstring * V) := default [] (qd_table d !! hash).

Definition qdict_find d k (hash : nat) : option V := bucket_find k (bucket d hash).

Definition qdict_put_obj d k (value : V) : qdict V :=
  let hash := hash_of k in
  match qdict_find d k hash with
  | Some _ =>
      Build_qdict (qd_size d) (<[hash := bucket_replace k value (bucket d hash)]> (qd_table d))
  | None =>
      Build_qdict (qd_size d + 1) (<[hash := (k, value) :: bucket d hash]> (qd_table d))
  end.

Definition qdict_get d k : option V := qdict_find d k (hash_of k).

Definition qdict_haskey d k : bool :=
  match qdict_find d k (hash_of k) with None => false | Some _ => true end.

Definition qdict_size d : Z := qd_size d.

Definition qdict_del d k : qdict V :=
  let hash := hash_of k in
  match qdict_find d k hash with
  | Some _ =>
      Build_qdict (qd_size d - 1) (<[hash := bucket_remove k (bucket d hash)]> (qd_table d))
  | None => d
  end.

(** [qdict_iter]: the calls of [iter], in order, thread [opaque]. *)
Definition qdict_iter {S : Type} d (iter : cstring -> V -> S -> S) (opaque : S) : S :=
  fold_left (fun s b => fold_left (fun s e => iter (fst e) (snd e) s) b s) (qd_table d) opaque.

(** *** Lemmas on one bucket *)
Lemma bucket_find_replace k v b j :
  bucket_find k b <> None ->
  bucket_find j (bucket_replace k v b) = if decide (j = k) then Some v else bucket_find j b.
Proof.
  induction b as [|[k' v'] b IH]; simpl; [done|].
  destruct (decide (k' = k)) as [->|Hk]; simpl; intros H.
  - destruct (decide (k = j)), (decide (j = k)); congruence.
  - destruct (decide (k' = j)); [|by apply IH]. destruct (decide (j = k)); congruence.
Qed.

Lemma bucket_remove_find k b j :
  NoDup b.*1 ->
  bucket_find j (bucket_remove k b) = if decide (j = k) then None else bucket_find j b.
Proof.
  induction b as [|[k' v'] b IH]; simpl; intros Hnd; [by destruct (decide _)|].
  apply NoDup_cons in Hnd as [Hnin Hnd].
  destruct (decide (k' = k)) as [->|Hk]; simpl.
  - destruct (decide (j = k)) as [->|Hj]; [|by rewrite decide_False by done].
    clear -Hnin. induction b as [|[k' v'] b IH]; simpl in *; [done|].
    rewrite decide_False by set_solver. apply IH. set_solver.
  - rewrite IH by done. destruct (decide (k' = j)), (decide (j = k)); congruence.
Qed.

Lemma bucket_replace_keys k v b : (bucket_replace k v b).*1 = b.*1.
Proof.
  induction b as [|[k' v'] b IH]; csimpl; [done|].
  destruct (decide (k' = k)); csimpl; congruence.
Qed.

Lemma bucket_remove_keys k b :
  (forall j, j ∈ (bucket_remove k b).*1 -> j ∈ b.*1) /\
  (NoDup b.*1 -> NoDup (bucket_remove k b).*1).
Proof.
  induction b as [|[k' v'] b [IH1 IH2]]; csimpl; [done|].
  destruct (decide (k' = k)); csimpl.
  - split; [set_solver|by intros [_ ?]%NoDup_cons].
  - split; [set_solver|]. intros [Hn Hnd]%NoDup_cons. constructor; [set_solver|auto].
Qed.

Lemma bucket_find_Some_elem k v b : bucket_find k b = Some v -> (k, v) ∈ b.
Proof.
  induction b as [|[k' v'] b IH]; csimpl; [done|].
  destruct (decide (k' = k)); set_solver.
Qed.

Lemma bucket_find_elem k v b : NoDup b.*1 -> (k, v) ∈ b -> bucket_find k b = Some v.
Proof.
  induction b as [|[k' v'] b IH]; csimpl; intros Hnd Hin; [set_solver|].
  apply NoDup_cons in Hnd as [Hnin Hnd]. apply elem_of_cons in Hin as [[= <- <-]|Hin].
  - by rewrite decide_True.
  - rewrite decide_False; [by apply IH|]. intros ->. apply Hnin.
    apply list_elem_of_fmap. by exists (k, v).
Qed.

Lemma bucket_find_None k b : bucket_find k b = None <-> k ∉ b.*1.
Proof.
  induction b as [|[k' v'] b IH]; csimpl; [set_solver|].
  destruct (decide (k' = k)); set_solver.
Qed.

Lemma length_bucket_remove k b :
  bucket_find k b <> None -> S (length (bucket_remove k b)) = length b.
Proof.
  induction b as [|[k' v'] b IH]; csimpl; [done|].
  destruct (decide (k' = k)); [done|]. intros H. csimpl. by rewrite IH.
Qed.

(** *** The table *)
Lemma hash_of_lt k : (hash_of k < QDICT_HASH_SIZE)%nat.
Proof.
  unfold hash_of. pose proof (Z.mod_pos_bound (tdb_hash k) (Z.of_nat QDICT_HASH_SIZE)).
  unfold QDICT_HASH_SIZE in *. lia.
Qed.

(** Well-formed: every entry is in the bucket of its hash, keys are unique, and the
    size field counts the entries. *)
Record qdict_wf d : Prop := {
  wf_len : length (qd_table d) = QDICT_HASH_SIZE;
  wf_nodup : forall i, NoDup (bucket d i).*1;
  wf_hash : forall i k, k ∈ (bucket d i).*1 -> hash_of k = i;
  wf_size : qd_size d = Z.of_nat (length (concat (qd_table d)))
}.

Definition with_bucket d (sz : Z) (h : nat) b : qdict V := Build_qdict sz (<[h := b]> (qd_table d)).

Lemma bucket_with d sz h b i :
  length (qd_table d) = QDICT_HASH_SIZE -> (h < QDICT_HASH_SIZE)%nat ->
  bucket (with_bucket d sz h b) i = if decide (i = h) then b else bucket d i.
Proof.
  intros Hl Hh. unfold bucket, with_bucket. simpl. destruct (decide (i = h)) as [->|Hi].
  - rewrite list_lookup_insert_eq; [done|]. unfold QDICT_HASH_SIZE in *. lia.
  - by rewrite list_lookup_insert_ne.
Qed.

Lemma length_concat_insert (t : list (list (cstring * V))) h b b' :
  t !! h = Some b ->
  (length (concat (<[h := b']> t)) + length b = length (concat t) + length b')%nat.
Proof.
  revert h. induction t as [|x t IH]; intros [|h] H; simpl in *; try done.
  - injection H as ->. rewrite !length_app. lia.
  - rewrite !length_app. specialize (IH _ H). lia.
Qed.

Lemma bucket_lookup d h :
  length (qd_table d) = QDICT_HASH_SIZE -> (h < QDICT_HASH_SIZE)%nat ->
  qd_table d !! h = Some (bucket d h).
Proof.
  intros Hl Hh. unfold bucket. destruct (qd_table d !! h) eqn:E; [done|].
  apply lookup_ge_None in E. unfold QDICT_HASH_SIZE in *. lia.
Qed.

(** Replacing the bucket of [h] by one with hash-[h] keys keeps the table well formed. *)
Lemma with_bucket_wf d h b sz :
  qdict_wf d -> (h < QDICT_HASH_SIZE)%nat -> NoDup b.*1 -> (forall k, k ∈ b.*1 -> hash_of k = h) ->
  sz + Z.of_nat (length (bucket d h)) = qd_size d + Z.of_nat (length b) ->
  qdict_wf (with_bucket d sz h b).
Proof.
  intros [Hl Hn Hh Hs] Hlt Hnd Hkeys Hsz. split.
  - simpl. by rewrite length_insert.
  - intros i. rewrite bucket_with by done. by destruct (decide (i = h)).
  - intros i k. rewrite bucket_with by done. destruct (decide (i = h)) as [->|]; eauto.
  - simpl. pose proof (length_concat_insert (qd_table d) h _ b (bucket_lookup d h Hl Hlt)). lia.
Qed.

Lemma qdict_new_wf : qdict_wf (@qdict_new V).
Proof.
  assert (forall i, bucket (@qdict_new V) i = []) as Hb.
  { intros i. unfold bucket. destruct (qd_table (@qdict_new V) !! i) as [x|] eqn:E; [|done].
    by apply lookup_replicate in E as [-> _]. }
  split.
  - apply length_replicate.
  - intros i. rewrite Hb. constructor.
  - intros i k. rewrite Hb. set_solver.
  - reflexivity.
Qed.

Lemma qdict_put_wf d k v : qdict_wf d -> qdict_wf (qdict_put_obj d k v).
Proof.
  intros Hwf. pose proof (hash_of_lt k). unfold qdict_put_obj, qdict_find.
  destruct (bucket_find k (bucket d (hash_of k))) as [v0|] eqn:E.
  - apply (with_bucket_wf d (hash_of k)); rewrite ?bucket_replace_keys; auto.
    + apply (wf_nodup d Hwf).
    + apply (wf_hash d Hwf).
    + rewrite <- (length_fmap fst (bucket_replace _ _ _)), bucket_replace_keys, length_fmap. lia.
  - apply (with_bucket_wf d (hash_of k)); simpl; auto.
    + apply bucket_find_None in E. constructor; [done|apply (wf_nodup d Hwf)].
    + intros j [->|Hj]%elem_of_cons; [done|]. by apply (wf_hash d Hwf).
    + lia.
Qed.

Lemma qdict_del_wf d k : qdict_wf d -> qdict_wf (qdict_del d k).
Proof.
  intros Hwf. pose proof (hash_of_lt k). unfold qdict_del, qdict_find.
  destruct (bucket_find k (bucket d (hash_of k))) as [v0|] eqn:E; [|done].
  apply (with_bucket_wf d (hash_of k)); auto.
  - apply bucket_remove_keys, (wf_nodup d Hwf).
  - intros j Hj. by apply (wf_hash d Hwf), (bucket_remove_keys k).
  - pose proof (length_bucket_remove k (bucket d (hash_of k))). rewrite E in *.
    assert (S (length (bucket_remove k (bucket d (hash_of k)))) = length (bucket d (hash_of k))) by auto.
    lia.
Qed.

(** Lookups after an update. *)
Lemma qdict_get_put d k v j :
  qdict_wf d -> qdict_get (qdict_put_obj d k v) j = if decide (j = k) then Some v else qdict_get d j.
Proof.
  intros Hwf. unfold qdict_get, qdict_put_obj, qdict_find.
  pose proof (hash_of_lt k) as Hk. pose proof (wf_len d Hwf) as Hl.
  destruct (bucket_find k (bucket d (hash_of k))) as [v0|] eqn:E.
  - change (Build_qdict (qd_size d) (<[hash_of k := ?b]> (qd_table d)))
      with (with_bucket d (qd_size d) (hash_of k) b).
    rewrite bucket_with by done. destruct (decide (hash_of j = hash_of k)) as [Hj|Hj].
    + rewrite bucket_find_replace by congruence. by rewrite Hj.
    + rewrite decide_False by congruence. done.
  - change (Build_qdict (qd_size d + 1) (<[hash_of k := ?b]> (qd_table d)))
      with (with_bucket d (qd_size d + 1) (hash_of k) b).
    rewrite bucket_with by done. destruct (decide (hash_of j = hash_of k)) as [Hj|Hj]; simpl.
    + rewrite Hj. destruct (decide (k = j)), (decide (j = k)); congruence.
    + rewrite decide_False by congruence. done.
Qed.

Lemma qdict_get_del d k j :
  qdict_wf d -> qdict_get (qdict_del d k) j = if decide (j = k) then None else qdict_get d j.
Proof.
  intros Hwf. unfold qdict_get, qdict_del, qdict_find.
  pose proof (hash_of_lt k) as Hk. pose proof (wf_len d Hwf) as Hl.
  destruct (bucket_find k (bucket d (hash_of k))) as [v0|] eqn:E.
  - change (Build_qdict (qd_size d - 1) (<[hash_of k := ?b]> (qd_table d)))
      with (with_bucket d (qd_size d - 1) (hash_of k) b).
    rewrite bucket_with by done. destruct (decide (hash_of j = hash_of k)) as [Hj|Hj].
    + rewrite bucket_remove_find by apply (wf_nodup d Hwf). by rewrite Hj.
    + rewrite decide_False by congruence. done.
  - destruct (decide (j = k)) as [->|]; done.
Qed.

Lemma qdict_get_new k : qdict_get (@qdict_new V) k = None.
Proof.
  unfold qdict_get, qdict_find, bucket. cbn [qd_table qdict_new].
  by rewrite lookup_replicate_2 by apply hash_of_lt.
Qed.

End Buckets.

(** *** The dictionary as a finite map *)
Definition entries {V} (d : qdict V) : list (cstring * V) := concat (qd_table d).
Definition interp {V} (d : qdict V) : gmap cstring V := list_to_map (entries d).

Lemma qdict_iter_entries {V S} (d : qdict V) (f : cstring -> V -> S -> S) s :
  qdict_iter d f s = fold_left (fun s e => f (fst e) (snd e) s) (entries d) s.
Proof.
  unfold qdict_iter, entries. revert s. induction (qd_table d) as [|b t IH]; intros s; [done|].
  simpl. by rewrite fold_left_app, IH.
Qed.

Lemma table_keys_nodup {V} (t : list (list (cstring * V))) off :
  (forall i b, t !! i = Some b -> NoDup b.*1) ->
  (forall i b k, t !! i = Some b -> k ∈ b.*1 -> hash_of k = (off + i)%nat) ->
  NoDup (concat t).*1 /\ (forall k, k ∈ (concat t).*1 -> (off <= hash_of k)%nat).
Proof.
  revert off. induction t as [|b t IH]; intros off Hn Hh; [split; [constructor|set_solver]|].
  destruct (IH (S off)) as [IH1 IH2].
  { intros i. apply (Hn (S i)). }
  { intros i b' k Hi Hk. rewrite (Hh (S i) b' k Hi Hk). lia. }
  simpl. rewrite fmap_app. split.
  - apply NoDup_app. split_and!; [apply (Hn O); done| |done].
    intros k Hk Hk'. pose proof (Hh O b k eq_refl Hk). specialize (IH2 k Hk'). lia.
  - intros k [Hk|Hk]%elem_of_app; [pose proof (Hh O b k eq_refl Hk); lia|].
    specialize (IH2 k Hk). lia.
Qed.

Section Map.
Context {V : Type}.
Implicit Types d : qdict V.

Lemma bucket_of_lookup d i b : qd_table d !! i = Some b -> b = bucket d i.
Proof. intros E. unfold bucket. by rewrite E. Qed.

Lemma entries_nodup d : qdict_wf d -> NoDup (entries d).*1.
Proof.
  intros Hwf. apply (table_keys_nodup (qd_table d) 0).
  - intros i b ->%bucket_of_lookup. apply (wf_nodup d Hwf).
  - intros i b k ->%bucket_of_lookup. apply (wf_hash d Hwf).
Qed.

Lemma interp_lookup d k : qdict_wf d -> interp d !! k = qdict_get d k.
Proof.
  intros Hwf. unfold interp. pose proof (entries_nodup d Hwf) as Hnd.
  pose proof (bucket_lookup d (hash_of k) (wf_len d Hwf) (hash_of_lt k)) as Hb.
  unfold qdict_get, qdict_find. destruct (bucket_find k (bucket d (hash_of k))) as [v|] eqn:E.
  - apply elem_of_list_to_map_1; [done|]. apply list_elem_of_In, in_concat.
    exists (bucket d (hash_of k)). rewrite <- !list_elem_of_In.
    split; [by apply list_elem_of_lookup_2 in Hb|by apply bucket_find_Some_elem].
  - apply not_elem_of_list_to_map_1. intros Hin. apply list_elem_of_fmap in Hin as ([k' v] & -> & Hin).
    apply list_elem_of_In, in_concat in Hin as (b & Hbin & Hin). apply list_elem_of_In in Hbin, Hin.
    apply list_elem_of_lookup in Hbin as (i & Hi).
    pose proof (bucket_of_lookup _ _ _ Hi) as ->.
    assert (hash_of k' = i) as <-.
    { apply (wf_hash d Hwf). by apply (list_elem_of_fmap_2 fst) in Hin. }
    apply bucket_find_None in E. apply E. by apply (list_elem_of_fmap_2 fst) in Hin.
Qed.

Lemma interp_put d k v : qdict_wf d -> interp (qdict_put_obj d k v) = <[k := v]> (interp d).
Proof.
  intros Hwf. apply map_eq. intros j.
  rewrite interp_lookup by (by apply qdict_put_wf). rewrite qdict_get_put by done.
  rewrite lookup_insert, interp_lookup by done.
  destruct (decide (j = k)), (decide (k = j)); congruence.
Qed.

Lemma interp_del d k : qdict_wf d -> interp (qdict_del d k) = delete k (interp d).
Proof.
  intros Hwf. apply map_eq. intros j.
  rewrite interp_lookup by (by apply qdict_del_wf). rewrite qdict_get_del by done.
  rewrite lookup_delete, interp_lookup by done.
  destruct (decide (j = k)), (decide (k = j)); congruence.
Qed.

Lemma entries_perm d : qdict_wf d -> entries d ≡ₚ map_to_list (interp d).
Proof. intros Hwf. symmetry. apply map_to_list_to_map, entries_nodup, Hwf. Qed.

(** A sequence of updates, on the table and on the finite map. *)
Inductive dict_op := DPut (k : cstring) (v : V) | DDel (k : cstring).

Definition dict_run (ops : list dict_op) d : qdict V :=
  fold_left (fun d o => match o with DPut k v => qdict_put_obj d k v | DDel k => qdict_del d k end) ops d.

Definition map_run (ops : list dict_op) (m : gmap cstring V) : gmap cstring V :=
  fold_left (fun m o => match o with DPut k v => <[k := v]> m | DDel k => delete k m end) ops m.

Lemma dict_run_refines ops d :
  qdict_wf d -> qdict_wf (dict_run ops d) /\ interp (dict_run ops d) = map_run ops (interp d).
Proof.
  revert d. induction ops as [|[k v|k] ops IH]; intros d Hwf; [done|..]; simpl.
  - rewrite <- interp_put by done. apply IH. by apply qdict_put_wf.
  - rewrite <- interp_del by done. apply IH. by apply qdict_del_wf.
Qed.

Lemma interp_new : interp (@qdict_new V) = ∅.
Proof.
  apply map_eq. intros k. rewrite interp_lookup by apply qdict_new_wf.
  by rewrite qdict_get_new, lookup_empty.
Qed.

End Map.

Arguments dict_op : clear implicits.

(** ** The objects *)
Inductive qtype_code :=
| QTYPE_NONE | QTYPE_QINT | QTYPE_QSTRING | QTYPE_QDICT | QTYPE_QLIST
| QTYPE_QFLOAT | QTYPE_QBOOL | QTYPE_QERROR.

#[export] Instance qtype_code_eq_dec : EqDecision qtype_code.
Proof. solve_decision. Defined.

#[local] Unset Elimination Schemes.

(** A [double] is its IEEE bit pattern. *)
Inductive QObject :=
| QInt (value : Z)
| QString (string : cstring)
| QDict (d : qdict QObject)
| QList (l : list QObject)
| QFloat (value : Z)
| QBool (value : Z)
| QError.

#[local] Set Elimination Schemes.

(** Induction over an object and everything it contains. *)
Section QObjectInd.
Variable P : QObject -> Prop.
Hypothesis HInt : forall v, P (QInt v).
Hypothesis HString : forall s, P (QString s).
Hypothesis HDict : forall d, Forall (Forall (fun e => P (snd e))) (qd_table d) -> P (QDict d).
Hypothesis HList : forall l, Forall P l -> P (QList l).
Hypothesis HFloat : forall v, P (QFloat v).
Hypothesis HBool : forall v, P (QBool v).
Hypothesis HError : P QError.

Lemma QObject_ind (o : QObject) : P o.
Proof using HInt HString HDict HList HFloat HBool HError.
  revert o. fix IH 1. intros [v|s|[sz t]|l|v|v|].
  - apply HInt.
  - apply HString.
  - apply HDict. simpl. induction t as [|b t IHt]; constructor; [|exact IHt].
    induction b as [|[k v] b IHb]; constructor; [apply IH|exact IHb].
  - apply HList. induction l as [|v l IHl]; constructor; [apply IH|exact IHl].
  - apply HFloat.
  - apply HBool.
  - apply HError.
Qed.
End QObjectInd.

Definition qobject_type (obj : QObject) : qtype_code :=
  match obj with
  | QInt _ => QTYPE_QINT
  | QString _ => QTYPE_QSTRING
  | QDict _ => QTYPE_QDICT
  | QList _ => QTYPE_QLIST
  | QFloat _ => QTYPE_QFLOAT
  | QBool _ => QTYPE_QBOOL
  | QError => QTYPE_QERROR
  end.

(** qint.c, qbool.c, qstring.c, qlist.c, qdict.c: the conversions give NULL on an object
    of another type. *)
Definition qint_from_int (value : Z) : QObject := QInt (s64 value).
Definition qbool_from_int (value : Z) : QObject := QBool (s32 value).
Definition qobject_to_qint (obj : QObject) : option Z :=
  match obj with QInt v => Some v | _ => None end.
Definition qobject_to_qbool (obj : QObject) : option Z :=
  match obj with QBool v => Some v | _ => None end.
Definition qobject_to_qstring (obj : QObject) : option cstring :=
  match obj with QString s => Some s | _ => None end.
Definition qobject_to_qlist (obj : QObject) : option (list QObject) :=
  match obj with QList l => Some l | _ => None end.
Definition qobject_to_qdict (obj : QObject) : option (qdict QObject) :=
  match obj with QDict d => Some d | _ => None end.

(** [qdict_get_obj] asserts that the key is there with the wanted type. *)
Definition qdict_get_obj {E} (d : qdict QObject) (key : cstring) (type : qtype_code) : outcome E QObject :=
  match qdict_get d key with
  | None => Fault
  | Some obj => if decide (qobject_type obj = type) then Ret obj else Fault
  end.

Definition qdict_get_int {E} (d : qdict QObject) (key : cstring) : outcome E Z :=
  let! obj := qdict_get_obj d key QTYPE_QINT in oget (qobject_to_qint obj).
Definition qdict_get_bool {E} (d : qdict QObject) (key : cstring) : outcome E Z :=
  let! obj := qdict_get_obj d key QTYPE_QBOOL in oget (qobject_to_qbool obj).
Definition qdict_get_qlist {E} (d : qdict QObject) (key : cstring) : outcome E (list QObject) :=
  let! obj := qdict_get_obj d key QTYPE_QLIST in oget (qobject_to_qlist obj).
Definition qdict_get_str {E} (d : qdict QObject) (key : cstring) : outcome E cstring :=
  let! obj := qdict_get_obj d key QTYPE_QSTRING in oget (qobject_to_qstring obj).

Definition qdict_get_try_int (d : qdict QObject) (key : cstring) (err_value : Z) : Z :=
  match qdict_get d key with
  | Some (QInt v) => v
  | _ => err_value
  end.

Definition qdict_get_try_str (d : qdict QObject) (key : cstring) : option cstring :=
  match qdict_get d key with
  | Some (QString s) => Some s
  | _ => None
  end.

(** ** qlist.c *)
Definition qlist_new : list QObject := [].
Definition qlist_append_obj (l : list QObject) (v : QObject) : list QObject := l ++ [v].
Definition qlist_iter {S} (l : list QObject) (iter : QObject -> S -> S) (opaque : S) : S :=
  fold_left (fun s v => iter v s) l opaque.
Definition qlist_copy (src : list QObject) : list QObject :=
  qlist_iter src (fun v dst => qlist_append_obj dst v) qlist_new.
Definition qlist_pop (l : list QObject) : option QObject * list QObject :=
  match l with [] => (None, []) | v :: l => (Some v, l) end.
Definition qlist_peek (l : list QObject) : option QObject :=
  match l with [] => None | v :: _ => Some v end.
Definition qlist_empty (l : list QObject) : bool :=
  match l with [] => true | _ => false end.

Lemma qlist_copy_id l : qlist_copy l = l.
Proof.
  unfold qlist_copy, qlist_iter, qlist_append_obj, qlist_new.
  enough (forall acc, fold_left (fun s v => s ++ [v]) l acc = acc ++ l) as H by apply H.
  induction l as [|x l IH]; intros acc; simpl; [by rewrite app_nil_r|].
  by rewrite IH, <- app_assoc.
Qed.

(** ** qstring.c: the growing buffer *)
Record QStr := { qs_string : list (option Z); qs_length : Z; qs_capacity : Z }.

(** [qemu_malloc(n)]; [qemu_realloc] keeps the old contents. *)
Definition malloc (n : Z) : list (option Z) := replicate (Z.to_nat n) None.
Definition realloc (m : list (option Z)) (n : Z) : list (option Z) :=
  take (Z.to_nat n) m ++ replicate (Z.to_nat n - length m) None.

Definition qstring_from_substr (str : cstring) (start last : Z) : outcome Empty_set QStr :=
  let len := u32 (last - start + 1) in
  let m := malloc (u32 (len + 1)) in
  let! src := oget (load str start len) in
  let! m := oget (store m 0 (map Some src)) in
  let! m := oget (store m len [Some 0]) in
  Ret {| qs_string := m; qs_length := len; qs_capacity := len |}.

Definition qstring_from_str (str : cstring) : outcome Empty_set QStr :=
  qstring_from_substr str 0 (Z.of_nat (length str) - 1).

Definition qstring_new : outcome Empty_set QStr := qstring_from_str [].

Definition capacity_increase (q : QStr) (len : Z) : QStr :=
  if qs_capacity q <? u32 (qs_length q + len) then
    let cap := u32 (u32 (qs_capacity q + len) * 2) in
    {| qs_string := realloc (qs_string q) (u32 (cap + 1)); qs_length := qs_length q; qs_capacity := cap |}
  else q.

Definition qstring_append (q : QStr) (str : cstring) : outcome Empty_set QStr :=
  let len := Z.of_nat (length str) in
  let q := capacity_increase q len in
  let! m := oget (store (qs_string q) (qs_length q) (map Some str)) in
  let n := u32 (qs_length q + len) in
  let! m := oget (store m n [Some 0]) in
  Ret {| qs_string := m; qs_length := n; qs_capacity := qs_capacity q |}.

Definition qstring_append_chr (q : QStr) (c : Z) : outcome Empty_set QStr :=
  let q := capacity_increase q 1 in
  let! m := oget (store (qs_string q) (qs_length q) [Some (u8 c)]) in
  let n := u32 (qs_length q + 1) in
  let! m := oget (store m n [Some 0]) in
  Ret {| qs_string := m; qs_length := n; qs_capacity := qs_capacity q |}.

(** What a C function sees at [qstring_get_str]: the bytes up to the first NUL. *)
Fixpoint cstr_read (m : list (option Z)) : option cstring :=
  match m with
  | Some 0 :: _ => Some []
  | Some b :: m => match cstr_read m with Some s => Some (b :: s) | None => None end
  | _ => None
  end.

Definition qstring_get_str (q : QStr) : option cstring := cstr_read (qs_string q).

(** [qs_repr q s]: the buffer holds [s] with its NUL, inside the allocation the capacity
    field describes; the capacity is at most four times the length. *)
Record qs_repr (q : QStr) (s : cstring) : Prop := {
  qs_nul_free : nul_free s;
  qs_len : qs_length q = Z.of_nat (length s);
  qs_cells : take (S (length s)) (qs_string q) = map Some s ++ [Some 0];
  qs_alloc : Z.of_nat (length (qs_string q)) = qs_capacity q + 1;
  qs_room : qs_length q <= qs_capacity q <= 4 * qs_length q
}.

Lemma cstr_read_app s m : nul_free s -> cstr_read (map Some s ++ Some 0 :: m) = Some s.
Proof.
  induction 1 as [|b s [Hb _] _ IH]; [done|]. cbn [map app]. 
  cbn [cstr_read]. destruct b; try lia. by rewrite IH.
Qed.

Lemma qs_repr_get q s : qs_repr q s -> qstring_get_str q = Some s.
Proof.
  intros [Hn Hl Hc Ha Hr]. unfold qstring_get_str.
  rewrite <- (take_drop (S (length s)) (qs_string q)), Hc, <- app_assoc. by apply cstr_read_app.
Qed.

(** Storing [t] and a NUL after [s], in an allocation with room for both. *)
Lemma append_stores (m : list (option Z)) s t cap :
  nul_free s -> nul_free t -> take (length s) m = map Some s ->
  Z.of_nat (length m) = cap + 1 -> Z.of_nat (length s + length t) <= cap ->
  exists m1 m2, store m (Z.of_nat (length s)) (map Some t) = Some m1 /\
    store m1 (Z.of_nat (length s + length t)) [Some 0] = Some m2 /\
    length m2 = length m /\ take (S (length (s ++ t))) m2 = map Some (s ++ t) ++ [Some 0].
Proof.
  intros Hs Ht Hm Hlm Hcap.
  rewrite store_ok by (rewrite ?length_map; lia). eexists _, _. split; [done|].
  rewrite Nat2Z.id, length_map, Hm, app_assoc, <- map_app.
  set (r := drop (length s + length t) m).
  assert (length r <> 0%nat) by (subst r; rewrite length_drop; lia).
  rewrite store_ok by (rewrite ?length_app, ?length_map; subst r; rewrite ?length_app, ?length_drop; simpl; lia).
  split; [done|]. rewrite Nat2Z.id, length_app.
  split.
  - rewrite !length_app, length_take, !length_drop, !length_app, length_map, length_app.
    subst r. rewrite length_drop. simpl. lia.
  - rewrite (take_app_length' (map Some (s ++ t)) _ (length s + length t))
      by (by rewrite length_map, length_app).
    rewrite app_assoc. apply take_app_length'.
    rewrite !length_app, length_map, length_app. simpl. lia.
Qed.

Lemma capacity_increase_spec q s len :
  qs_repr q s -> 0 <= len -> Z.of_nat (length s) + len < 2 ^ 29 ->
  let q' := capacity_increase q len in
  qs_length q' = qs_length q /\ take (length s) (qs_string q') = map Some s /\
  Z.of_nat (length (qs_string q')) = qs_capacity q' + 1 /\
  Z.of_nat (length s) + len <= qs_capacity q' <= 4 * (Z.of_nat (length s) + len).
Proof.
  intros [Hn Hl Hc Ha Hr] H0 Hsz. unfold capacity_increase.
  assert (take (length s) (qs_string q) = map Some s) as Ht.
  { replace (length s) with (length s `min` S (length s))%nat at 1 by lia.
    rewrite <- take_take, Hc, take_app_length' by (by rewrite length_map). done. }
  rewrite wrap_small by (unfold is_u; lia). if_case; simpl.
  - rewrite (wrap_small 32 (qs_capacity q + len)), !wrap_small
      by (rewrite ?wrap_small; unfold is_u; lia).
    split_and!; [done| | |lia..].
    + unfold realloc. rewrite take_app_le by (rewrite length_take; lia).
      rewrite take_take, Nat.min_l by lia. done.
    + unfold realloc. rewrite length_app, length_take, length_replicate. lia.
  - split_and!; [done..|lia|lia].
Qed.

Lemma qstring_append_spec q s t :
  qs_repr q s -> nul_free t -> Z.of_nat (length s + length t) < 2 ^ 29 ->
  exists q', qstring_append q t = Ret q' /\ qs_repr q' (s ++ t).
Proof.
  intros Hr Ht Hsz. unfold qstring_append.
  destruct (capacity_increase_spec q s (Z.of_nat (length t)) Hr) as (El & Em & Ea & Ecap); [lia..|].
  set (q1 := capacity_increase q (Z.of_nat (length t))) in *.
  pose proof (qs_len _ _ Hr) as Hl.
  destruct (append_stores (qs_string q1) s t (qs_capacity q1)) as (m1 & m2 & E1 & E2 & Elen & Etk);
    [apply Hr|done..|lia|].
  rewrite El, Hl, E1. cbn [oget obind].
  rewrite wrap_small by (unfold is_u; lia).
  rewrite <- Nat2Z.inj_add, E2. cbn [oget obind].
  eexists. split; [done|]. split; simpl; rewrite ?length_app; try done; try lia.
  - apply Forall_app. split; [apply Hr|done].
  - by rewrite length_app in Etk.
Qed.

Lemma qstring_new_spec : exists q, qstring_new = Ret q /\ qs_repr q [].
Proof.
  eexists. split; [reflexivity|]. split; simpl; try done. constructor.
Qed.

(** ** Properties *)

(** C10. The dictionary is a finite map: after any sequence of [qdict_put_obj] and
    [qdict_del] on a new [QDict], a lookup finds exactly what the same sequence leaves in a
    finite map, [qdict_size] is its size, [qdict_haskey] its membership, and [qdict_iter]
    visits every binding once. *)
Theorem qdict_refines_map {V} (ops : list (dict_op V)) :
  let d := dict_run ops qdict_new in
  let m := map_run ops ∅ in
  (forall k, qdict_get d k = m !! k) /\
  (forall k, qdict_haskey d k = bool_decide (is_Some (m !! k))) /\
  qdict_size d = Z.of_nat (size m) /\
  exists l, l ≡ₚ map_to_list m /\
    forall S (f : cstring -> V -> S -> S) (s : S),
      qdict_iter d f s = fold_left (fun s e => f (fst e) (snd e) s) l s.
Proof.
  intros d m. destruct (dict_run_refines ops (@qdict_new V) qdict_new_wf) as [Hwf Hi].
  rewrite interp_new in Hi. fold d m in Hwf, Hi.
  assert (forall k, qdict_get d k = m !! k) as Hget.
  { intros k. by rewrite <- Hi, interp_lookup. }
  split_and!; [done| | |].
  - intros k. rewrite <- Hget. unfold qdict_haskey, qdict_get.
    destruct (qdict_find d k (hash_of k)); [by rewrite bool_decide_true by eauto|].
    rewrite bool_decide_false; [done|]. by intros [? ?].
  - unfold qdict_size. rewrite (wf_size d Hwf), <- Hi.
    rewrite <- length_map_to_list, <- (entries_perm d Hwf). done.
  - exists (entries d). split; [rewrite <- Hi; by apply entries_perm|].
    intros S f s. apply qdict_iter_entries.
Qed.

(** [qstring_append] appends: on a string built by the library, as long as the total
    stays below 2^29 bytes so that the doubling of the capacity cannot wrap, every store is
    inside the (re)allocated buffer and the C string read back is the concatenation; the
    capacity stays within four times the length. *)
Theorem qstring_append_correct q s t :
  qs_repr q s -> nul_free t -> Z.of_nat (length s + length t) < 2 ^ 29 ->
  exists q', qstring_append q t = Ret q' /\ qs_repr q' (s ++ t) /\
    qstring_get_str q' = Some (s ++ t).
Proof.
  intros Hr Ht Hsz. destruct (qstring_append_spec q s t Hr Ht Hsz) as (q' & E & Hr').
  exists q'. eauto using qs_repr_get.
Qed.

Lemma qstring_append_correct_witness :
  exists q q', qstring_new = Ret q /\ qstring_append q [104; 105] = Ret q' /\
    qstring_get_str q' = Some [104; 105].
Proof.
  destruct qstring_new_spec as (q & E & Hr). exists q.
  destruct (qstring_append_correct q [] [104; 105] Hr) as (q' & E' & _ & G);
    [repeat constructor; done|simpl; lia|by exists q'].
Defined.
