(* ===== verification/QHeap.v ===== *)
(** * Reference counts of QObjects: qobject.h, qlist.c, qdict.c

    The objects as they lie in memory: containers hold the addresses of their members, which
    may be shared, and an object is freed when its count reaches zero.  The tables are those
    of QObject, with addresses for values.  Using an object that was freed is a [Fault].  A
    count is not bounded: it counts references that lie in memory themselves, so that 2^64 is
    not reached.  Null pointers are left out: [qobject_incref] and [qobject_decref] do nothing
    on them, and a container holds none.  [decref] takes fuel because destroying a container drops its members. *)

From S2P Require Import Prelude QObject.
From stdpp Require Import gmap list.

Open Scope Z_scope.

Abbreviation res A := (outcome Empty_set A).
Abbreviation loc := positive.

Inductive qbody : Type :=
| BInt (value : Z)
| BBool (value : Z)
| BString (s : cstring)
| BFloat (bits : Z)
| BDict (d : qdict loc)
| BList (l : list loc).

Record qobj : Type := mkObj { refcnt : Z; qcontent : qbody }.
Abbreviation heap := (gmap loc qobj).

(** What [malloc] gives: an address that is not in use. *)
Definition qnew (h : heap) (b : qbody) : loc * heap := let l := fresh (dom h) in (l, <[l := mkObj 1 b]> h).
Definition the_object (h : heap) (l : loc) : res qobj := oget (h !! l).
Definition the_dict (h : heap) (l : loc) : res (Z * qdict loc) := let! o := the_object h l in match qcontent o with BDict d => Ret (refcnt o, d) | _ => Fault end.
Definition the_list (h : heap) (l : loc) : res (Z * list loc) := let! o := the_object h l in match qcontent o with BList es => Ret (refcnt o, es) | _ => Fault end.

Definition qobject_incref (h : heap) (l : loc) : res heap := let! o := the_object h l in Ret (<[l := mkObj (refcnt o + 1) (qcontent o)]> h).

(** The first entry of a table leaves its bucket. *)
Fixpoint table_pop (t : list (list (cstring * loc))) : option (loc * list (list (cstring * loc))) :=
  match t with
  | [] => None
  | (e :: b) :: t => Some (e.2, b :: t)
  | [] :: t => match table_pop t with Some (c, t) => Some (c, [] :: t) | None => None end
  end.
(** The next member to be dropped, and the container without its entry. *)
Definition unlink_member (b : qbody) : option (loc * qbody) :=
  match b with
  | BDict d => match table_pop (qd_table d) with Some (c, t) => Some (c, BDict (Build_qdict (qd_size d) t)) | None => None end
  | BList (c :: l) => Some (c, BList l)
  | _ => None
  end.
Definition members (b : qbody) : list loc := match b with BDict d => (entries d).*2 | BList l => l | _ => [] end.

(** The loops of [qdict_destroy_obj] and [qlist_destroy_obj] over [n] members. *)
Fixpoint drop_members (decref : heap -> loc -> res heap) (n : nat) (h : heap) (l : loc) : res heap :=
  match n with
  | O => Ret h
  | S n =>
      let! o := the_object h l in
      match unlink_member (qcontent o) with
      | None => Ret h
      | Some (c, b) =>
          let! h := decref (<[l := mkObj (refcnt o) b]> h) c in
          drop_members decref n h l
      end
  end.
(** [obj->type->destroy(obj)]. *)
Definition destroy_obj (decref : heap -> loc -> res heap) (h : heap) (l : loc) : res heap :=
  let! o := the_object h l in
  let! h := drop_members decref (length (members (qcontent o))) h l in
  let! _ := the_object h l in
  Ret (delete l h).

Fixpoint decref (fuel : nat) (h : heap) (l : loc) : res heap :=
  match fuel with
  | O => Fault
  | S fuel =>
      let! o := the_object h l in
      let h := <[l := mkObj (refcnt o - 1) (qcontent o)]> h in
      if refcnt o - 1 =? 0 then destroy_obj (decref fuel) h l else Ret h
  end.
Definition qobject_decref (h : heap) (l : loc) : res heap := decref (S (size h)) h l.

(** ** Containers *)
(** The old value is dropped while its entry still points to it. *)
Definition heap_dict_put (h : heap) (d : loc) (key : cstring) (value : loc) : res heap :=
  let! '(_, q) := the_dict h d in
  let! h := (match qdict_find q key (hash_of key) with Some old => qobject_decref h old | None => Ret h end) in
  let! '(n, q) := the_dict h d in
  Ret (<[d := mkObj n (BDict (qdict_put_obj q key value))]> h).

(** The entry is unlinked, its value dropped, and then the size decremented. *)
Definition heap_dict_del (h : heap) (d : loc) (key : cstring) : res heap :=
  let! '(n, q) := the_dict h d in
  match qdict_find q key (hash_of key) with
  | None => Ret h
  | Some old =>
      let h := <[d := mkObj n (BDict (Build_qdict (qd_size q) (qd_table (qdict_del q key))))]> h in
      let! h := qobject_decref h old in
      let! '(n, q) := the_dict h d in
      Ret (<[d := mkObj n (BDict (Build_qdict (qd_size q - 1) (qd_table q)))]> h)
  end.
Definition heap_dict_get (h : heap) (d : loc) (key : cstring) : res (option loc) := let! '(_, q) := the_dict h d in Ret (qdict_get q key).

Definition heap_list_append (h : heap) (l value : loc) : res heap := let! '(n, es) := the_list h l in Ret (<[l := mkObj n (BList (es ++ [value]))]> h).
Definition heap_list_pop (h : heap) (l : loc) : res (option loc * heap) :=
  let! '(n, es) := the_list h l in
  match es with [] => Ret (None, h) | e :: es => Ret (Some e, <[l := mkObj n (BList es)]> h) end.
(** [qlist_copy_elem] for every element. *)
Fixpoint copy_elems (h : heap) (dst : loc) (es : list loc) : res heap :=
  match es with
  | [] => Ret h
  | e :: es =>
      let! h := qobject_incref h e in
      let! h := heap_list_append h dst e in
      copy_elems h dst es
  end.

Definition heap_list_copy (h : heap) (src : loc) : res (loc * heap) :=
  let '(dst, h) := qnew h (BList []) in
  let! '(_, es) := the_list h src in
  let! h := copy_elems h dst es in
  Ret (dst, h).
