(* ===== verification/QHeapProofs.v ===== *)
(** * Reference counts are right

    [sound h refs]: every count is the number of references to the object, those in [refs],
    which clients hold, and those in containers; and no reference leads to a freed object. *)

From S2P Require Import Prelude QObject QHeap.
From stdpp Require Import gmap list.

Open Scope Z_scope.

(** ** Counting references *)
Fixpoint cnt (x : loc) (l : list loc) : nat := match l with [] => 0%nat | y :: l => ((if decide (x = y) then 1 else 0) + cnt x l)%nat end.
Lemma cnt_app x l1 l2 : cnt x (l1 ++ l2) = (cnt x l1 + cnt x l2)%nat.
Proof. induction l1 as [|y l1 IH]; cbn; [done|]. rewrite IH. lia. Qed.
Lemma cnt_perm x l1 l2 : l1 ≡ₚ l2 -> cnt x l1 = cnt x l2.
Proof. induction 1; cbn; lia. Qed.
Lemma cnt_elem x l : x ∈ l <-> (0 < cnt x l)%nat.
Proof. induction l as [|y l IH]; cbn; [split; [by intros ?%not_elem_of_nil|lia]|]. rewrite elem_of_cons, IH. destruct (decide (x = y)); [split; [lia|auto]|]. split; [intros [|]; [done|lia]|auto]. Qed.

(** The references containers hold. *)
Definition edges (h : heap) : list loc := concat (map (fun p : loc * qobj => members (qcontent p.2)) (map_to_list h)).
Definition held (x : loc) (h : heap) : nat := cnt x (edges h).

Lemma held_new x h l o : h !! l = None -> held x (<[l := o]> h) = (cnt x (members (qcontent o)) + held x h)%nat.
Proof. intros H. unfold held, edges. rewrite <- cnt_app. apply cnt_perm. by rewrite (map_to_list_insert h l o H). Qed.
Lemma held_delete x h l o : h !! l = Some o -> (held x (delete l h) + cnt x (members (qcontent o)))%nat = held x h.
Proof. intros H. rewrite <- (insert_delete_id h l o H) at 2. rewrite held_new by apply lookup_delete_eq. lia. Qed.
Lemma held_update x h l o o' : h !! l = Some o -> (held x (<[l := o']> h) + cnt x (members (qcontent o)) = held x h + cnt x (members (qcontent o')))%nat.
Proof. intros H. rewrite <- insert_delete_eq, held_new by apply lookup_delete_eq. pose proof (held_delete x h l o H). lia. Qed.

Definition sound (h : heap) (refs : list loc) : Prop :=
  (forall l o, h !! l = Some o -> refcnt o = Z.of_nat (cnt l refs + held l h)) /\ (forall l, (0 < cnt l refs + held l h)%nat -> is_Some (h !! l)).

(** An update that moves references between the object and [refs]. *)
Lemma sound_update h refs refs' l o o' : sound h refs -> h !! l = Some o -> refcnt o' = Z.of_nat (cnt l refs' + held l (<[l := o']> h)) ->
  (forall x, x <> l -> cnt x refs' + cnt x (members (qcontent o')) = cnt x refs + cnt x (members (qcontent o)))%nat -> sound (<[l := o']> h) refs'.
Proof.
  intros [H1 H2] Hl Hc Hm. split.
  - intros x ox. destruct (decide (x = l)) as [->|N]; [by rewrite lookup_insert_eq; intros [= <-]|]. rewrite lookup_insert_ne by done. intros E. rewrite (H1 _ _ E). f_equal.
    pose proof (held_update x h l o o' Hl). specialize (Hm x N). lia.
  - intros x Hx. destruct (decide (x = l)) as [->|N]; [rewrite lookup_insert_eq; by eexists|]. rewrite lookup_insert_ne by done. apply H2. pose proof (held_update x h l o o' Hl). specialize (Hm x N). lia.
Qed.
Lemma sound_perm h refs refs' : refs ≡ₚ refs' -> sound h refs -> sound h refs'.
Proof. intros P [H1 H2]. split; [intros l o E|intros l]; rewrite <- (cnt_perm l _ _ P); auto. Qed.

(** ** What dropping a reference keeps *)
(** But for [l], what is left has its content, and objects under destruction stay as they are. *)
Definition kept_but (P : loc -> Prop) (h h' : heap) : Prop := forall x, P x ->
  (forall o', h' !! x = Some o' -> exists o, h !! x = Some o /\ qcontent o' = qcontent o /\ (refcnt o' = 0 -> o' = o)) /\ (forall o, h !! x = Some o -> refcnt o = 0 -> h' !! x = Some o).
Abbreviation kept := (kept_but (fun _ => True)).

Lemma kept_but_refl P h : kept_but P h h.
Proof. intros x _. split; eauto. Qed.
Lemma kept_but_trans P h1 h2 h3 : kept_but P h1 h2 -> kept_but P h2 h3 -> kept_but P h1 h3.
Proof.
  intros H1 H2 x Hx. destruct (H1 x Hx) as [A1 B1], (H2 x Hx) as [A2 B2]. split; [|eauto]. intros o3 E3. destruct (A2 _ E3) as (o2 & E2 & C2 & Z2). destruct (A1 _ E2) as (o1 & E1 & C1 & Z1).
  exists o1. split; [done|]. split; [congruence|]. intros Z3. specialize (Z2 Z3). subst o3. auto.
Qed.
Lemma kept_weaken (P Q : loc -> Prop) h h' : (forall x, Q x -> P x) -> kept_but P h h' -> kept_but Q h h'.
Proof. intros HPQ H x Hx. apply H. auto. Qed.
Lemma kept_insert l o h : kept_but (fun x => x <> l) h (<[l := o]> h).
Proof. intros x Hx. rewrite lookup_insert_ne by done. split; eauto. Qed.

Definition live (h : heap) : gset loc := dom (filter (fun p : loc * qobj => refcnt p.2 <> 0) h).
Lemma elem_of_live x h : x ∈ live h <-> exists o, h !! x = Some o /\ refcnt o <> 0.
Proof. unfold live. rewrite elem_of_dom. split; [intros [o E]; apply map_lookup_filter_Some in E; eauto|]. intros (o & E & N). exists o. by apply map_lookup_filter_Some. Qed.
Lemma live_kept l h h' : kept_but (fun x => x <> l) h h' -> l ∉ live h' -> (size (live h') <= size (live h))%nat.
Proof.
  intros K N. apply subseteq_size. intros x Hx. assert (x <> l) as Nx by congruence. destruct (K x Nx) as [A B]. apply elem_of_live in Hx as (o' & E' & N'). destruct (A _ E') as (o & E & C & Z').
  apply elem_of_live. exists o. split; [done|]. intros Z0. rewrite (B _ E Z0) in E'. congruence.
Qed.

(** ** Dropping a reference *)
Lemma table_pop_members t : match table_pop t with Some (c, t') => (concat t).*2 = c :: (concat t').*2 | None => concat t = [] end.
Proof. induction t as [|[|e b] t IH]; cbn; [done| |done]. destruct (table_pop t) as [[c t']|]; exact IH. Qed.
Lemma unlink_members b : match unlink_member b with Some (c, b') => members b = c :: members b' | None => members b = [] end.
Proof.
  destruct b as [| | | |d|[|c l]]; cbn; try done. pose proof (table_pop_members (qd_table d)) as H. destruct (table_pop (qd_table d)) as [[c t]|]; [exact H|]. unfold entries. by rewrite H.
Qed.

Definition decref_ok (decref : heap -> loc -> res heap) (fuel : nat) : Prop := forall h l refs, sound h (l :: refs) -> (size (live h) < fuel)%nat ->
  exists h', decref h l = Ret h' /\ sound h' refs /\ kept h h'.

(** An object whose count is zero loses its members. *)
Lemma drop_members_ok decref fuel n l : decref_ok decref fuel -> forall h refs b, sound h refs -> h !! l = Some (mkObj 0 b) -> length (members b) = n -> (size (live h) < fuel)%nat ->
  exists h' b', drop_members decref n h l = Ret h' /\ sound h' refs /\ h' !! l = Some (mkObj 0 b') /\ members b' = [] /\ kept_but (fun x => x <> l) h h'.
Proof.
  intros Hd. induction n as [|n IH]; intros h refs b Hs Hl Hn Hf; cbn [drop_members].
  { exists h, b. split; [done|]. split; [done|]. split; [done|]. split; [by apply length_zero_iff_nil|apply kept_but_refl]. }
  unfold the_object. rewrite Hl. cbn [oget obind qcontent refcnt]. pose proof (unlink_members b) as U. destruct (unlink_member b) as [[c b']|]; [|rewrite U in Hn; done]. rewrite U in Hn. cbn in Hn.
  destruct Hs as [S1 S2]. pose proof (S1 _ _ Hl) as C0. cbn in C0. assert (sound (<[l := mkObj 0 b']> h) (c :: refs)) as Hs1.
  { apply (sound_update h refs _ l (mkObj 0 b)); [done|done| |].
    - pose proof (held_update l h l _ (mkObj 0 b') Hl) as U1. cbn [qcontent refcnt] in U1 |- *. rewrite U in U1. cbn [cnt] in *. lia.
    - intros x Nx. cbn [qcontent]. rewrite U. cbn [cnt]. lia. }
  assert (l ∉ live (<[l := mkObj 0 b']> h)) as Nl by (intros (o & E & N)%elem_of_live; rewrite lookup_insert_eq in E; by injection E as <-).
  pose proof (live_kept l _ _ (kept_insert l (mkObj 0 b') h) Nl) as L1. destruct (Hd _ _ _ Hs1) as (h2 & E2 & Hs2 & K2); [lia|]. rewrite E2. cbn [obind].
  assert (h2 !! l = Some (mkObj 0 b')) as Hl2. { destruct (K2 l I) as [_ B]. apply B; [apply lookup_insert_eq|done]. }
  assert (l ∉ live h2) as Nl2 by (intros (o & E & N)%elem_of_live; rewrite Hl2 in E; by injection E as <-).
  pose proof (live_kept l _ _ (kept_weaken _ _ _ _ (fun _ _ => I) K2) Nl2) as L2.
  destruct (IH h2 refs b' Hs2 Hl2) as (h3 & b3 & E3 & Hs3 & Hl3 & M3 & K3); [lia|lia|]. exists h3, b3. split; [done|]. split; [done|]. split; [done|]. split; [done|].
  apply (kept_but_trans _ _ h2); [|done]. apply (kept_but_trans _ _ (<[l := mkObj 0 b']> h)); [apply kept_insert|]. exact (kept_weaken _ _ _ _ (fun _ _ => I) K2).
Qed.

Lemma destroy_ok decref fuel h l refs b : decref_ok decref fuel -> sound h refs -> h !! l = Some (mkObj 0 b) -> (size (live h) < fuel)%nat ->
  exists h', destroy_obj decref h l = Ret h' /\ sound h' refs /\ h' !! l = None /\ kept_but (fun x => x <> l) h h'.
Proof.
  intros Hd Hs Hl Hf. unfold destroy_obj, the_object. rewrite Hl. cbn [oget obind qcontent]. destruct (drop_members_ok _ _ _ l Hd h refs b Hs Hl eq_refl Hf) as (h' & b' & -> & [S1 S2] & Hl' & M & K). cbn [obind].
  rewrite Hl'. cbn [oget obind]. exists (delete l h'). split; [done|]. pose proof (S1 _ _ Hl') as C0. cbn [refcnt] in C0. split; [|split; [apply lookup_delete_eq|]].
  - assert (forall x, held x (delete l h') = held x h') as Hh by (intros x; pose proof (held_delete x h' l _ Hl') as D; cbn [qcontent] in D; rewrite M in D; cbn in D; lia). split.
    + intros x o. rewrite lookup_delete_Some. intros [_ E]. rewrite Hh. by apply S1.
    + intros x. rewrite Hh. intros Hx. destruct (decide (x = l)) as [->|N]; [lia|]. rewrite lookup_delete_ne by done. by apply S2.
  - apply (kept_but_trans _ _ h'); [done|]. intros x Nx. rewrite lookup_delete_ne by done. split; eauto.
Qed.

Lemma decref_spec fuel : decref_ok (decref fuel) fuel.
Proof.
  induction fuel as [|fuel IH]; intros h l refs Hs Hf; [lia|]. pose proof Hs as [S1 S2]. destruct (S2 l) as [[n b] El]; [cbn [cnt]; rewrite decide_True by done; lia|].
  pose proof (S1 _ _ El) as C. cbn [refcnt cnt] in C. rewrite decide_True in C by done. cbn [decref]. unfold the_object. rewrite El. cbn [oget obind refcnt qcontent].
  assert (sound (<[l := mkObj (n - 1) b]> h) refs) as Hs1.
  { apply (sound_update h (l :: refs) _ l (mkObj n b)); [done|done| |].
    - pose proof (held_update l h l _ (mkObj (n - 1) b) El) as U. cbn [qcontent refcnt] in *. lia.
    - intros x N. cbn [cnt qcontent]. rewrite decide_False by done. lia. }
  assert (forall h', kept_but (fun x => x <> l) (<[l := mkObj (n - 1) b]> h) h' -> (forall o', h' !! l = Some o' -> qcontent o' = b /\ refcnt o' <> 0) -> kept h h') as KK.
  { intros h' K Kl x _. destruct (decide (x = l)) as [->|N].
    - split; [|intros o E Z0; rewrite El in E; injection E as <-; cbn in Z0; lia]. intros o' E'. destruct (Kl _ E') as [Cl Nl]. eexists. split; [done|]. split; [done|]. intros; done.
    - destruct (K x N) as [A B]. by rewrite lookup_insert_ne in A, B by done. }
  destruct (Z.eqb_spec (n - 1) 0) as [E0|N0].
  - rewrite E0 in *. assert (l ∉ live (<[l := mkObj 0 b]> h)) as Nl by (intros (o & E & N)%elem_of_live; rewrite lookup_insert_eq in E; by injection E as <-).
    assert (size (live (<[l := mkObj 0 b]> h)) < size (live h))%nat as Lt.
    { apply subset_size. split.
      - intros x (o & E & N)%elem_of_live. destruct (decide (x = l)) as [->|Nx]; [exfalso; apply Nl; apply elem_of_live; eauto|]. rewrite lookup_insert_ne in E by done. apply elem_of_live; eauto.
      - intros Sub. apply Nl, Sub, elem_of_live. eexists. split; [done|]. cbn. lia. }
    destruct (destroy_ok _ fuel _ l refs b IH Hs1) as (h' & E' & Hs' & El' & K'); [apply lookup_insert_eq|lia|]. exists h'. split; [done|]. split; [done|]. apply KK; [done|]. by rewrite El'.
  - eexists. split; [done|]. split; [done|]. apply KK; [apply kept_but_refl|]. intros o'. rewrite lookup_insert_eq. by intros [= <-].
Qed.

Lemma qobject_decref_spec h l refs : sound h (l :: refs) -> exists h', qobject_decref h l = Ret h' /\ sound h' refs /\ kept h h'.
Proof.
  intros Hs. apply decref_spec; [done|]. assert (size (live h) <= size (dom h))%nat as H by (apply subseteq_size, dom_filter_subseteq). rewrite size_dom in H. lia.
Qed.

(** ** The content of an object that stays does not matter *)
Definition swap (d : loc) (b : qbody) (h : heap) : heap := alter (fun o => mkObj (refcnt o) b) d h.

Lemma swap_lookup d b h l : l <> d -> swap d b h !! l = h !! l.
Proof. intros N. by apply lookup_alter_ne. Qed.
Lemma swap_insert d b h l o : l <> d -> swap d b (<[l := o]> h) = <[l := o]> (swap d b h).
Proof. intros N. apply map_eq. intros x. destruct (decide (x = l)) as [->|Nx]; [by rewrite swap_lookup, !lookup_insert_eq|]. rewrite lookup_insert_ne by done. unfold swap.
  destruct (decide (x = d)) as [->|Nd]; [by rewrite !lookup_alter_eq, lookup_insert_ne|]. by rewrite !lookup_alter_ne, lookup_insert_ne. Qed.
Lemma swap_count d b h n c : swap d b (<[d := mkObj n c]> h) = <[d := mkObj n b]> (swap d b h).
Proof. apply map_eq. intros x. unfold swap. destruct (decide (x = d)) as [->|N]; [by rewrite lookup_alter_eq, !lookup_insert_eq|]. by rewrite lookup_alter_ne, !lookup_insert_ne, lookup_alter_ne. Qed.
Lemma swap_delete d b h l : l <> d -> swap d b (delete l h) = delete l (swap d b h).
Proof. intros N. apply map_eq. intros x. unfold swap. destruct (decide (x = l)) as [->|Nx]; [by rewrite lookup_alter_ne, !lookup_delete_eq|]. rewrite lookup_delete_ne by done.
  destruct (decide (x = d)) as [->|Nd]; [by rewrite !lookup_alter_eq, lookup_delete_ne|]. by rewrite !lookup_alter_ne, lookup_delete_ne. Qed.

(** A run that ends with [d] alive never had it freed, and does the same whatever [d] holds. *)
Definition swaps (decref : heap -> loc -> res heap) (d : loc) (b : qbody) : Prop := forall h l h', decref h l = Ret h' ->
  (is_Some (h' !! d) -> is_Some (h !! d)) /\ (is_Some (h' !! d) -> decref (swap d b h) l = Ret (swap d b h')).

Lemma drop_swaps decref d b n l : swaps decref d b -> l <> d -> forall h h', drop_members decref n h l = Ret h' ->
  (is_Some (h' !! d) -> is_Some (h !! d)) /\ (is_Some (h' !! d) -> drop_members decref n (swap d b h) l = Ret (swap d b h')).
Proof.
  intros Hd N. induction n as [|n IH]; intros h h' E; cbn [drop_members] in E |- *; [apply Ret_inj in E as <-; done|]. unfold the_object in *. rewrite swap_lookup by done.
  destruct (h !! l) as [o|]; [|done]. cbn [oget obind] in *. destruct (unlink_member (qcontent o)) as [[c b']|]; [|apply Ret_inj in E as <-; done].
  destruct (decref _ c) as [h1| |] eqn:E1; cbn [obind] in E; try done. destruct (Hd _ _ _ E1) as [A1 B1], (IH _ _ E) as [A2 B2]. split.
  - intros Hx. specialize (A1 (A2 Hx)). by rewrite lookup_insert_ne in A1.
  - intros Hx. rewrite <- swap_insert by done. rewrite (B1 (A2 Hx)). cbn [obind]. auto.
Qed.
Lemma destroy_swaps decref d b l : swaps decref d b -> forall h h', destroy_obj decref h l = Ret h' ->
  (is_Some (h' !! d) -> is_Some (h !! d)) /\ (is_Some (h' !! d) -> destroy_obj decref (swap d b h) l = Ret (swap d b h')).
Proof.
  intros Hd h h' E. unfold destroy_obj, the_object in *. destruct (h !! l) as [o|] eqn:El; [|done]. cbn [oget obind] in E. destruct (drop_members _ _ _ _) as [h1| |] eqn:E1; cbn [obind] in E; try done.
  destruct (h1 !! l) as [o1|] eqn:El1; [|done]. cbn [oget obind] in E. apply Ret_inj in E as <-. destruct (decide (l = d)) as [->|N]; [rewrite lookup_delete_eq; split; by intros [? ?]|].
  rewrite lookup_delete_ne by done. rewrite swap_lookup, El by done. cbn [oget obind]. destruct (drop_swaps _ _ _ _ _ Hd N _ _ E1) as [A B]. split; [done|]. intros Hx. rewrite (B Hx). cbn [obind].
  rewrite swap_lookup, El1 by done. cbn [oget obind]. by rewrite swap_delete.
Qed.
Lemma decref_swaps fuel d b : swaps (decref fuel) d b.
Proof.
  induction fuel as [|fuel IH]; intros h l h' E; cbn [decref] in E |- *; [done|]. unfold the_object in *. destruct (h !! l) as [[n c]|] eqn:El; [|done]. cbn [oget obind refcnt qcontent] in E.
  assert (swap d b h !! l = Some (mkObj n (if decide (l = d) then b else c))) as Es.
  { destruct (decide (l = d)) as [->|N]; [unfold swap; by rewrite lookup_alter_eq, El|by rewrite swap_lookup]. }
  assert (<[l := mkObj (n - 1) (if decide (l = d) then b else c)]> (swap d b h) = swap d b (<[l := mkObj (n - 1) c]> h)) as Ei.
  { destruct (decide (l = d)) as [->|N]; [by rewrite swap_count|by rewrite swap_insert]. }
  rewrite Es. cbn [oget obind refcnt qcontent]. rewrite Ei. assert (is_Some (<[l := mkObj (n - 1) c]> h !! d) -> is_Some (h !! d)) as Hd.
  { destruct (decide (d = l)) as [->|N]; [by eexists|by rewrite lookup_insert_ne]. }
  destruct (n - 1 =? 0).
  - destruct (destroy_swaps _ d b l IH _ _ E) as [A B]. auto.
  - apply Ret_inj in E as <-. auto.
Qed.

(** ** Containers *)
Lemma sound_held h refs d : sound h refs -> d ∈ refs -> exists o, h !! d = Some o /\ 0 < refcnt o.
Proof. intros [S1 S2] Hd%cnt_elem. destruct (S2 d) as [o E]; [lia|]. exists o. split; [done|]. rewrite (S1 _ _ E). lia. Qed.
Lemma sound_dict_kept h h' refs d : sound h' refs -> d ∈ refs -> kept h h' -> exists o, h !! d = Some o /\ exists n, h' !! d = Some (mkObj n (qcontent o)).
Proof.
  intros Hs Hd K. destruct (sound_held _ _ _ Hs Hd) as ([n b] & E & _). destruct (K d I) as [A _]. destruct (A _ E) as (o & Eo & C & _). exists o. split; [done|]. cbn in C. subst b. eauto.
Qed.

(** *** The members of a dictionary *)
Lemma cnt_table x (t : list (list (cstring * loc))) i b b' : t !! i = Some b -> (cnt x (concat (<[i := b']> t)).*2 + cnt x b.*2 = cnt x (concat t).*2 + cnt x b'.*2)%nat.
Proof.
  revert i. induction t as [|b0 t IH]; intros [|i] H; [done|done| |].
  - injection H as ->. cbn. rewrite !fmap_app, !cnt_app. lia.
  - change (<[S i := b']> (b0 :: t)) with (b0 :: <[i := b']> t). cbn [concat]. rewrite !fmap_app, !cnt_app. specialize (IH i H). lia.
Qed.
Lemma cnt_replace x k v (b : list (cstring * loc)) old : bucket_find k b = Some old -> (cnt x (bucket_replace k v b).*2 + cnt x [old] = cnt x b.*2 + cnt x [v])%nat.
Proof.
  induction b as [|[k' v'] b IH]; cbn; [done|]. destruct (decide (k' = k)) as [->|N]; cbn; [intros [= ->]; lia|]. intros H. specialize (IH H). cbn in IH. lia.
Qed.
Lemma cnt_remove x k (b : list (cstring * loc)) old : bucket_find k b = Some old -> (cnt x (bucket_remove k b).*2 + cnt x [old] = cnt x b.*2)%nat.
Proof.
  induction b as [|[k' v'] b IH]; cbn; [done|]. destruct (decide (k' = k)) as [->|N]; cbn; [intros [= ->]; lia|]. intros H. specialize (IH H). cbn in IH. lia.
Qed.

Lemma members_put x (q : qdict loc) k v : qdict_wf q -> (cnt x (members (BDict (qdict_put_obj q k v))) + match qdict_find q k (hash_of k) with Some old => cnt x [old] | None => 0 end = cnt x (members (BDict q)) + cnt x [v])%nat.
Proof.
  intros Hq. pose proof (bucket_lookup q (hash_of k) (wf_len _ Hq) (hash_of_lt k)) as L. cbn [members]. unfold entries, qdict_put_obj, qdict_find. destruct (bucket_find k (bucket q (hash_of k))) as [old|] eqn:E; cbn [qd_table].
  - pose proof (cnt_table x _ _ _ (bucket_replace k v (bucket q (hash_of k))) L). pose proof (cnt_replace x k v _ _ E). lia.
  - pose proof (cnt_table x _ _ _ ((k, v) :: bucket q (hash_of k)) L) as T. cbn [fmap list_fmap snd cnt] in T. cbn [cnt]. lia.
Qed.
Lemma members_del x (q : qdict loc) k old : qdict_wf q -> qdict_find q k (hash_of k) = Some old -> (cnt x (concat (qd_table (qdict_del q k))).*2 + cnt x [old] = cnt x (members (BDict q)))%nat.
Proof.
  intros Hq E. pose proof (bucket_lookup q (hash_of k) (wf_len _ Hq) (hash_of_lt k)) as L. cbn [members]. unfold entries, qdict_del, qdict_find in *. rewrite E. cbn [qd_table].
  pose proof (cnt_table x _ _ _ (bucket_remove k (bucket q (hash_of k))) L). pose proof (cnt_remove x k _ _ E). lia.
Qed.
