(* ===== verification/QHeapClients.v ===== *)
(** * Clients of QObjects

    A client holds references ("strong references" in qobject.h), passes them to containers
    and drops them.  Whatever it does, no freed object is used, every count is right, and when
    the last reference is gone so are the objects, unless they hold each other in a circle. *)

From S2P Require Import Prelude QObject QHeap QHeapProofs.
From stdpp Require Import gmap list.

Open Scope Z_scope.

(** ** The invariant *)
Record good (h : heap) (refs : list loc) : Prop := {
  gd_sound : sound h refs; gd_clean : forall l o, h !! l = Some o -> refcnt o <> 0; gd_dicts : forall l n q, h !! l = Some (mkObj n (BDict q)) -> qdict_wf q
}.

Lemma good_kept h h' refs refs' : good h refs -> kept h h' -> sound h' refs' -> good h' refs'.
Proof.
  intros [_ C D] K S. split; [done| |].
  - intros l o E. destruct (K l I) as [A _]. destruct (A _ E) as (o0 & E0 & _ & Z0). intros Z. specialize (Z0 Z). subst o0. by apply (C _ _ E0).
  - intros l n q E. destruct (K l I) as [A _]. destruct (A _ E) as ([n0 b0] & E0 & B & _). cbn in B. subst b0. by apply (D _ _ _ E0).
Qed.
Lemma good_update h refs refs' l n b b' : good h refs -> h !! l = Some (mkObj n b) -> (forall q, b' = BDict q -> qdict_wf q) ->
  (forall x, cnt x refs' + cnt x (members b') = cnt x refs + cnt x (members b))%nat -> good (<[l := mkObj n b']> h) refs'.
Proof.
  intros [S C D] E Hb Hm. split.
  - apply (sound_update h refs _ l (mkObj n b)); [done|done| |by intros x _; apply Hm]. destruct S as [S1 _]. pose proof (S1 _ _ E) as Sc. pose proof (held_update l h l _ (mkObj n b') E). specialize (Hm l). cbn [refcnt qcontent] in *. lia.
  - intros x o. destruct (decide (x = l)) as [->|N]; [rewrite lookup_insert_eq; intros [= <-]; exact (C _ _ E)|]. rewrite lookup_insert_ne by done. apply C.
  - intros x m q. destruct (decide (x = l)) as [->|N]; [rewrite lookup_insert_eq; intros [= _ Eq]; by apply Hb|]. rewrite lookup_insert_ne by done. apply D.
Qed.

(** ** References *)
Lemma decref_good h l refs : good h (l :: refs) -> exists h', qobject_decref h l = Ret h' /\ good h' refs /\ kept h h'.
Proof. intros G. destruct (qobject_decref_spec _ _ _ (gd_sound _ _ G)) as (h' & E & S & K). exists h'. split; [done|]. split; [by eapply good_kept|done]. Qed.

Lemma incref_good h l o refs : good h refs -> h !! l = Some o -> exists h', qobject_incref h l = Ret h' /\ good h' (l :: refs) /\ h' = <[l := mkObj (refcnt o + 1) (qcontent o)]> h.
Proof.
  intros [S C D] E. unfold qobject_incref, the_object. rewrite E. cbn [oget obind]. eexists. split; [done|]. split; [|done]. destruct o as [n b]. pose proof S as [S1 _]. pose proof (S1 _ _ E) as Sc. cbn [refcnt qcontent] in *. split.
  - apply (sound_update h refs _ l (mkObj n b)); [done|done| |].
    + pose proof (held_update l h l _ (mkObj (n + 1) b) E). cbn [refcnt qcontent cnt] in *. rewrite decide_True by done. lia.
    + intros x N. cbn [cnt qcontent]. rewrite decide_False by done. lia.
  - intros x o. destruct (decide (x = l)) as [->|N]; [rewrite lookup_insert_eq; intros [= <-]; cbn; lia|]. rewrite lookup_insert_ne by done. apply C.
  - intros x m q. destruct (decide (x = l)) as [->|N]; [rewrite lookup_insert_eq; intros [= _ ->]; by apply (D _ _ _ E)|]. rewrite lookup_insert_ne by done. apply D.
Qed.

Definition empty_body (b : qbody) : bool := match b with BDict _ | BList (_ :: _) => false | _ => true end.
Lemma new_good h refs b : good h refs -> members b = [] -> (forall q, b = BDict q -> qdict_wf q) -> let '(l, h') := qnew h b in good h' (l :: refs) /\ h !! l = None /\ h' = <[l := mkObj 1 b]> h.
Proof.
  intros [[S1 S2] C D] Hm Hb. unfold qnew. set (l := fresh (dom h)). assert (h !! l = None) as N by (apply not_elem_of_dom, is_fresh). split; [|done].
  assert (forall x, held x (<[l := mkObj 1 b]> h) = held x h) as Hh by (intros x; rewrite held_new by done; cbn [qcontent]; by rewrite Hm).
  assert (cnt l refs + held l h = 0)%nat as Z0. { destruct (decide (cnt l refs + held l h = 0)%nat) as [|P]; [done|]. destruct (S2 l) as [o E]; [lia|]. congruence. }
  split; [split| |].
  - intros x o. rewrite Hh. cbn [cnt]. destruct (decide (x = l)) as [->|Nx]; [rewrite lookup_insert_eq; intros [= <-]; cbn; lia|]. rewrite lookup_insert_ne by done. intros E. by rewrite (S1 _ _ E).
  - intros x. rewrite Hh. cbn [cnt]. destruct (decide (x = l)) as [->|Nx]; [rewrite lookup_insert_eq; by eexists|]. rewrite lookup_insert_ne by done. apply S2.
  - intros x o. destruct (decide (x = l)) as [->|Nx]; [rewrite lookup_insert_eq; by intros [= <-]|]. rewrite lookup_insert_ne by done. apply C.
  - intros x m q. destruct (decide (x = l)) as [->|Nx]; [rewrite lookup_insert_eq; intros [= _ Eq]; by apply Hb|]. rewrite lookup_insert_ne by done. apply D.
Qed.

(** ** Dictionaries *)
Lemma dict_of h d n q : h !! d = Some (mkObj n (BDict q)) -> the_dict h d = Ret (n, q).
Proof. intros E. unfold the_dict, the_object. by rewrite E. Qed.

(** A member is dropped while the dictionary, which somebody holds, has a content [b] that is
    not yet its new one, [bu]. *)
Lemma decref_meanwhile h refs d n b bu old : good (<[d := mkObj n bu]> h) (old :: refs) -> d ∈ refs ->
  exists h' m, qobject_decref (<[d := mkObj n b]> h) old = Ret (swap d b h') /\ good h' refs /\ h' !! d = Some (mkObj m bu).
Proof.
  intros G Hd. set (hu := <[d := mkObj n bu]> h) in *. destruct (decref_good _ _ _ G) as (h' & E & G' & K). destruct (sound_dict_kept _ _ _ d (gd_sound _ _ G') Hd K) as (o & Eo & m & Em).
  unfold hu in Eo. rewrite lookup_insert_eq in Eo. injection Eo as <-. cbn [qcontent] in Em. exists h', m. split; [|done].
  assert (<[d := mkObj n b]> h = swap d b hu) as Eh.
  { unfold hu. rewrite swap_count. apply map_eq. intros x. destruct (decide (x = d)) as [->|N]; [by rewrite !lookup_insert_eq|]. by rewrite !lookup_insert_ne, swap_lookup. }
  assert (size (<[d := mkObj n b]> h) = size hu) as Hsz by (rewrite <- !size_dom; unfold hu; by rewrite !dom_insert_L).
  unfold qobject_decref in *. rewrite Hsz, Eh. apply (decref_swaps _ d b _ _ _ E). rewrite Em. by eexists.
Qed.
Lemma swap_back h d m b bu : h !! d = Some (mkObj m bu) -> swap d b h !! d = Some (mkObj m b) /\ <[d := mkObj m bu]> (swap d b h) = h.
Proof.
  intros E. split; [unfold swap; by rewrite lookup_alter_eq, E|]. apply map_eq. intros x. destruct (decide (x = d)) as [->|N]; [by rewrite lookup_insert_eq|]. by rewrite lookup_insert_ne, swap_lookup.
Qed.

Lemma put_good h refs d n q k v : good h (v :: refs) -> d ∈ refs -> h !! d = Some (mkObj n (BDict q)) ->
  exists h' m, heap_dict_put h d k v = Ret h' /\ good h' refs /\ h' !! d = Some (mkObj m (BDict (qdict_put_obj q k v))).
Proof.
  intros G Hd E. pose proof (gd_dicts _ _ G _ _ _ E) as Hq. unfold heap_dict_put. rewrite (dict_of _ _ _ _ E). cbn [obind].
  assert (forall x, (cnt x (members (BDict (qdict_put_obj q k v))) + match qdict_find q k (hash_of k) with Some old => cnt x [old] | None => 0 end = cnt x (members (BDict q)) + cnt x [v])%nat) as M by (intros x; by apply members_put).
  destruct (qdict_find q k (hash_of k)) as [old|].
  - destruct (decref_meanwhile h refs d n (BDict q) (BDict (qdict_put_obj q k v)) old) as (h' & m & Ed & G' & E'); [|done|].
    { apply (good_update h (v :: refs) _ d n (BDict q)); [done|done|intros ? [= <-]; by apply qdict_put_wf|]. intros x. specialize (M x). cbn [cnt] in *. lia. }
    rewrite (insert_id _ _ _ E) in Ed. rewrite Ed. cbn [obind]. destruct (swap_back _ _ _ (BDict q) _ E') as [Es Eb]. rewrite (dict_of _ _ _ _ Es). cbn [obind]. exists h', m. by rewrite Eb.
  - cbn [obind]. rewrite (dict_of _ _ _ _ E). cbn [obind]. eexists _, n. split; [done|]. split; [|apply lookup_insert_eq].
    apply (good_update h (v :: refs) _ d n (BDict q)); [done|done|intros ? [= <-]; by apply qdict_put_wf|]. intros x. specialize (M x). cbn [cnt] in *. lia.
Qed.

Lemma del_good h refs d n q k : good h refs -> d ∈ refs -> h !! d = Some (mkObj n (BDict q)) ->
  exists h' m, heap_dict_del h d k = Ret h' /\ good h' refs /\ h' !! d = Some (mkObj m (BDict (qdict_del q k))).
Proof.
  intros G Hd E. pose proof (gd_dicts _ _ G _ _ _ E) as Hq. unfold heap_dict_del. rewrite (dict_of _ _ _ _ E). cbn [obind]. destruct (qdict_find q k (hash_of k)) as [old|] eqn:Ef.
  - destruct (decref_meanwhile h refs d n (BDict (Build_qdict (qd_size q) (qd_table (qdict_del q k)))) (BDict (qdict_del q k)) old) as (h' & m & Ed & G' & E'); [|done|].
    { apply (good_update h refs _ d n (BDict q)); [done|done|intros ? [= <-]; by apply qdict_del_wf|]. intros x. pose proof (members_del x q k old Hq Ef). cbn [cnt members] in *. unfold entries in *. lia. }
    rewrite Ed. cbn [obind]. destruct (swap_back _ _ _ (BDict (Build_qdict (qd_size q) (qd_table (qdict_del q k)))) _ E') as [Es Eb]. rewrite (dict_of _ _ _ _ Es). cbn [obind qd_size qd_table]. exists h', m. split; [|done].
    rewrite <- Eb at 2. do 4 f_equal. unfold qdict_del. by rewrite Ef.
  - exists h, n. split; [done|]. split; [done|]. unfold qdict_del. by rewrite Ef.
Qed.

(** ** Lists *)
Lemma list_of h l n es : h !! l = Some (mkObj n (BList es)) -> the_list h l = Ret (n, es).
Proof. intros E. unfold the_list, the_object. by rewrite E. Qed.
Lemma append_good h refs l n es v : good h (v :: refs) -> h !! l = Some (mkObj n (BList es)) -> exists h', heap_list_append h l v = Ret h' /\ good h' refs /\ h' = <[l := mkObj n (BList (es ++ [v]))]> h.
Proof.
  intros G E. unfold heap_list_append. rewrite (list_of _ _ _ _ E). cbn [obind]. eexists. split; [done|]. split; [|done].
  apply (good_update h (v :: refs) _ l n (BList es)); [done|done|done|]. intros x. cbn [members cnt]. rewrite cnt_app. cbn [cnt]. lia.
Qed.
Lemma pop_good h refs l n e es : good h refs -> h !! l = Some (mkObj n (BList (e :: es))) -> exists h', heap_list_pop h l = Ret (Some e, h') /\ good h' (e :: refs).
Proof.
  intros G E. unfold heap_list_pop. rewrite (list_of _ _ _ _ E). cbn [obind]. eexists. split; [done|].
  apply (good_update h refs _ l n (BList (e :: es))); [done|done|done|]. intros x. cbn [members cnt]. lia.
Qed.
Lemma copy_elems_good dst refs es : forall h n ds, good h refs -> h !! dst = Some (mkObj n (BList ds)) -> Forall (fun e => is_Some (h !! e)) es ->
  exists h' m, copy_elems h dst es = Ret h' /\ good h' refs /\ h' !! dst = Some (mkObj m (BList (ds ++ es))).
Proof.
  induction es as [|e es IH]; intros h n ds G E Hes; cbn [copy_elems]; [exists h, n; by rewrite app_nil_r|]. apply Forall_cons in Hes as [[o Ee] Hes].
  destruct (incref_good _ _ _ _ G Ee) as (h1 & -> & G1 & Eh1). cbn [obind]. assert (exists m, h1 !! dst = Some (mkObj m (BList ds))) as [m Em].
  { rewrite Eh1. destruct (decide (dst = e)) as [->|N]; [|exists n; by rewrite lookup_insert_ne]. rewrite E in Ee. injection Ee as <-. rewrite lookup_insert_eq. by eexists. }
  destruct (append_good _ _ _ _ _ _ G1 Em) as (h2 & -> & G2 & Eh2). cbn [obind]. replace (ds ++ e :: es) with ((ds ++ [e]) ++ es) by (by rewrite <- app_assoc). apply (IH h2 m); [done|rewrite Eh2; apply lookup_insert_eq|].
  eapply Forall_impl; [exact Hes|]. intros x [ox Ex]. rewrite Eh2, Eh1. destruct (decide (x = dst)) as [->|N1]; [rewrite lookup_insert_eq; by eexists|]. rewrite lookup_insert_ne by done.
  destruct (decide (x = e)) as [->|N2]; [rewrite lookup_insert_eq; by eexists|]. rewrite lookup_insert_ne by done. by eexists.
Qed.
Lemma member_alive h refs l o c : sound h refs -> h !! l = Some o -> c ∈ members (qcontent o) -> is_Some (h !! c).
Proof. intros [_ S2] E Hc%cnt_elem. apply S2. pose proof (held_delete c h l o E). lia. Qed.
Lemma copy_good h refs l n es : good h refs -> h !! l = Some (mkObj n (BList es)) ->
  exists dst h' m, heap_list_copy h l = Ret (dst, h') /\ good h' (dst :: refs) /\ h' !! dst = Some (mkObj m (BList es)).
Proof.
  intros G E. unfold heap_list_copy. pose proof (new_good h refs (BList []) G eq_refl ltac:(done)) as Nw. destruct (qnew h (BList [])) as [dst h1]. destruct Nw as (G1 & Nd & Eh1).
  assert (h1 !! l = Some (mkObj n (BList es))) as E1 by (rewrite Eh1, lookup_insert_ne by congruence; done). rewrite (list_of _ _ _ _ E1). cbn [obind].
  destruct (copy_elems_good dst (dst :: refs) es h1 1 [] G1) as (h' & m & -> & G' & E'); [rewrite Eh1; apply lookup_insert_eq| |].
  - apply Forall_forall. intros c Hc. by apply (member_alive _ _ l _ c (gd_sound _ _ G1) E1).
  - cbn [obind]. exists dst, h', m. done.
Qed.

(** ** Clients *)
(** Creating an object gives a reference; so do taking one, getting a member with a reference
    taken, popping a member and copying a list.  Dropping a reference, putting and appending
    need one. *)
Inductive qop : Type :=
| QNew (b : qbody) | QNewDict
| QIncref (l : loc) | QDecref (l : loc)
| QPut (d : loc) (key : cstring) (value : loc) | QDel (d : loc) (key : cstring) | QGet (d : loc) (key : cstring)
| QAppend (l value : loc) | QPop (l : loc) | QCopy (l : loc).

Definition a_dict (h : heap) (d : loc) : bool := match h !! d with Some (mkObj _ (BDict _)) => true | _ => false end.
Definition a_list (h : heap) (l : loc) : bool := match h !! l with Some (mkObj _ (BList _)) => true | _ => false end.
Definition holding (refs : list loc) (l : loc) : bool := bool_decide (l ∈ refs).
Definition give (r : res heap) (refs : list loc) : res (heap * list loc) := let! h := r in Ret (h, refs).

(** The references without one of those to [l]. *)
Fixpoint take_ref (l : loc) (refs : list loc) : option (list loc) :=
  match refs with [] => None | x :: refs => if decide (x = l) then Some refs else (x ::.) <$> take_ref l refs end.

(** An operation whose references the client does not hold is left out. *)
Definition qexec (st : heap * list loc) (op : qop) : res (heap * list loc) :=
  let '(h, refs) := st in
  match op with
  | QNew b => if empty_body b then let '(l, h) := qnew h b in Ret (h, l :: refs) else Ret st
  | QNewDict => let '(l, h) := qnew h (BDict qdict_new) in Ret (h, l :: refs)
  | QIncref l => if holding refs l then give (qobject_incref h l) (l :: refs) else Ret st
  | QDecref l => match take_ref l refs with Some refs => give (qobject_decref h l) refs | None => Ret st end
  | QPut d key value =>
      match take_ref value refs with
      | Some rest => if holding rest d && a_dict h d then give (heap_dict_put h d key value) rest else Ret st
      | None => Ret st
      end
  | QDel d key => if holding refs d && a_dict h d then give (heap_dict_del h d key) refs else Ret st
  | QGet d key =>
      if holding refs d && a_dict h d then
        let! r := heap_dict_get h d key in
        match r with Some l => give (qobject_incref h l) (l :: refs) | None => Ret st end
      else Ret st
  | QAppend l value =>
      match take_ref value refs with
      | Some rest => if holding rest l && a_list h l then give (heap_list_append h l value) rest else Ret st
      | None => Ret st
      end
  | QPop l =>
      if holding refs l && a_list h l then
        let! '(r, h) := heap_list_pop h l in
        Ret (h, match r with Some e => e :: refs | None => refs end)
      else Ret st
  | QCopy l => if holding refs l && a_list h l then let! '(dst, h) := heap_list_copy h l in Ret (h, dst :: refs) else Ret st
  end.
Fixpoint qrun (st : heap * list loc) (ops : list qop) : res (heap * list loc) := match ops with [] => Ret st | op :: ops => let! st := qexec st op in qrun st ops end.

Lemma take_ref_perm l refs rest : take_ref l refs = Some rest -> refs ≡ₚ l :: rest.
Proof.
  revert rest. induction refs as [|x refs IH]; intros rest; cbn; [done|]. destruct (decide (x = l)) as [->|N]; [by intros [= ->]|]. destruct (take_ref l refs) as [r|]; [|done]. intros [= <-].
  rewrite (IH r eq_refl). apply Permutation_swap.
Qed.
Lemma good_perm h refs refs' : refs ≡ₚ refs' -> good h refs -> good h refs'.
Proof. intros P [S C D]. split; [by eapply sound_perm|done|done]. Qed.
Lemma a_dict_inv h d : a_dict h d = true -> exists n q, h !! d = Some (mkObj n (BDict q)).
Proof. unfold a_dict. destruct (h !! d) as [[n []]|]; try done. eauto. Qed.
Lemma a_list_inv h l : a_list h l = true -> exists n es, h !! l = Some (mkObj n (BList es)).
Proof. unfold a_list. destruct (h !! l) as [[n []]|]; try done. eauto. Qed.

Lemma get_alive h refs d n q k l : good h refs -> h !! d = Some (mkObj n (BDict q)) -> qdict_get q k = Some l -> is_Some (h !! l).
Proof.
  intros G E Eg. apply (member_alive _ _ d _ l (gd_sound _ _ G) E). cbn [qcontent]. apply cnt_elem. pose proof (members_del l q k l (gd_dicts _ _ G _ _ _ E) Eg) as M. cbn [cnt] in M. rewrite decide_True in M by done. lia.
Qed.

Definition fine (r : res (heap * list loc)) : Prop := exists h refs, r = Ret (h, refs) /\ good h refs.
Lemma qexec_good h refs op : good h refs -> fine (qexec (h, refs) op).
Proof.
  intros G. assert (fine (Ret (h, refs))) as Same by (by exists h, refs).
  destruct op as [b| |l|l|d k v|d k|d k|l v|l|l]; cbn [qexec].
  - destruct (empty_body b) eqn:Eb; [|done]. pose proof (new_good h refs b G ltac:(by destruct b as [| | | | |[]]) ltac:(by destruct b)) as N. destruct (qnew h b) as [l h']. eexists _, _. split; [done|apply N].
  - pose proof (new_good h refs (BDict qdict_new) G) as N. destruct (qnew h (BDict qdict_new)) as [l h']. eexists _, _. split; [done|]. apply N; [by vm_compute|intros ? [= <-]; apply qdict_new_wf].
  - unfold holding. destruct (bool_decide_reflect (l ∈ refs)) as [Hl|]; [|done]. destruct (sound_held _ _ _ (gd_sound _ _ G) Hl) as (o & E & _). destruct (incref_good _ _ _ _ G E) as (h' & -> & G' & _). by exists h', (l :: refs).
  - destruct (take_ref l refs) as [rest|] eqn:Er; [|done]. apply take_ref_perm in Er. destruct (decref_good _ _ _ (good_perm _ _ _ Er G)) as (h' & -> & G' & _). by exists h', rest.
  - destruct (take_ref v refs) as [rest|] eqn:Er; [|done]. apply take_ref_perm in Er. unfold holding. destruct (bool_decide_reflect (d ∈ rest)) as [Hd|]; [|done]. destruct (a_dict h d) eqn:Ea; [|done].
    destruct (a_dict_inv _ _ Ea) as (n & q & E). destruct (put_good _ _ _ _ _ k v (good_perm _ _ _ Er G) Hd E) as (h' & m & E' & G' & _). cbn [andb]. rewrite E'. by exists h', rest.
  - unfold holding. destruct (bool_decide_reflect (d ∈ refs)) as [Hd|]; [|done]. destruct (a_dict h d) eqn:Ea; [|done]. destruct (a_dict_inv _ _ Ea) as (n & q & E).
    destruct (del_good _ _ _ _ _ k G Hd E) as (h' & m & E' & G' & _). cbn [andb]. rewrite E'. by exists h', refs.
  - unfold holding. destruct (bool_decide_reflect (d ∈ refs)) as [Hd|]; [|done]. destruct (a_dict h d) eqn:Ea; [|done]. destruct (a_dict_inv _ _ Ea) as (n & q & E). cbn [andb]. unfold heap_dict_get. rewrite (dict_of _ _ _ _ E).
    cbn [obind]. destruct (qdict_get q k) as [l|] eqn:Eg; [|done]. destruct (get_alive _ _ _ _ _ _ _ G E Eg) as [o El]. destruct (incref_good _ _ _ _ G El) as (h' & -> & G' & _). by exists h', (l :: refs).
  - destruct (take_ref v refs) as [rest|] eqn:Er; [|done]. apply take_ref_perm in Er. destruct (holding rest l); [|done]. destruct (a_list h l) eqn:Ea; [|done]. destruct (a_list_inv _ _ Ea) as (n & es & E).
    destruct (append_good _ _ _ _ _ v (good_perm _ _ _ Er G) E) as (h' & E' & G' & _). cbn [andb]. rewrite E'. by exists h', rest.
  - destruct (holding refs l); [|done]. destruct (a_list h l) eqn:Ea; [|done]. destruct (a_list_inv _ _ Ea) as (n & [|e es] & E); cbn [andb].
    + unfold heap_list_pop. rewrite (list_of _ _ _ _ E). by exists h, refs.
    + destruct (pop_good _ _ _ _ _ _ G E) as (h' & -> & G'). by exists h', (e :: refs).
  - destruct (holding refs l); [|done]. destruct (a_list h l) eqn:Ea; [|done]. destruct (a_list_inv _ _ Ea) as (n & es & E). destruct (copy_good _ _ _ _ _ G E) as (dst & h' & m & -> & G' & _). by exists h', (dst :: refs).
Qed.

Lemma qrun_good ops : forall h refs, good h refs -> fine (qrun (h, refs) ops).
Proof.
  induction ops as [|op ops IH]; intros h refs G; cbn [qrun]; [by exists h, refs|]. destruct (qexec_good h refs op G) as (h' & refs' & -> & G'). cbn [obind]. by apply IH.
Qed.

(** *** Nothing is left *)
Definition acyclic (h : heap) : Prop := exists rank : loc -> nat, forall l o c, h !! l = Some o -> c ∈ members (qcontent o) -> (rank c < rank l)%nat.

Lemma held_inv x h : (0 < held x h)%nat -> exists l o, h !! l = Some o /\ x ∈ members (qcontent o).
Proof.
  unfold held. intros H%cnt_elem. unfold edges in H. apply list_elem_of_In, in_concat in H as (ms & Hm & Hx). apply in_map_iff in Hm as ([l o] & <- & Ho). apply list_elem_of_In, elem_of_map_to_list in Ho.
  exists l, o. split; [done|]. by apply list_elem_of_In.
Qed.
Lemma nothing_left h : good h [] -> acyclic h -> h = ∅.
Proof.
  intros [[S1 _] C _] [rank R]. destruct (decide (h = ∅)) as [|N]; [done|]. exfalso. assert (forall n, exists l o, h !! l = Some o /\ (n <= rank l)%nat) as Up.
  { induction n as [|n (l & o & E & Hn)]; [apply map_choose in N as (l & o & E); exists l, o; split; [done|lia]|]. destruct (held_inv l h) as (l' & o' & E' & Hl).
    - pose proof (S1 _ _ E) as Sc. pose proof (C _ _ E). cbn [cnt] in Sc. lia.
    - exists l', o'. split; [done|]. specialize (R _ _ _ E' Hl). lia. }
  destruct (Up (S (list_max (map rank (elements (dom h)))))) as (l & o & E & Hl). pose proof (proj1 (list_max_le (map rank (elements (dom h))) _) (le_n _)) as F.
  rewrite List.Forall_forall in F. assert (rank l ∈ map rank (elements (dom h))) as Hin by (apply list_elem_of_fmap; exists l; split; [done|]; apply elem_of_elements, elem_of_dom; by eexists).
  apply list_elem_of_In, F in Hin. lia.
Qed.

Lemma empty_good : good ∅ [].
Proof. split; [split|..]; intros *; rewrite ?lookup_empty; try done. unfold held, edges. rewrite map_to_list_empty. cbn. lia. Qed.

(** C11. Reference counting is safe: whatever objects a client creates, shares, puts into
    dictionaries and lists, takes out of them, replaces, copies and drops, as long as it drops
    and gives away only references it has, no object is used after it was freed, every object
    that exists has as its count the number of references to it, and once the client has no
    reference left no object is left, unless objects hold each other in a circle. *)
Theorem qobject_lifetimes ops : exists h refs, qrun (∅, []) ops = Ret (h, refs) /\ sound h refs /\ (forall l o, h !! l = Some o -> 0 < refcnt o) /\ (refs = [] -> acyclic h -> h = ∅).
Proof.
  destruct (qrun_good ops _ _ empty_good) as (h & refs & -> & G). exists h, refs. split; [done|]. split; [apply G|]. split.
  - intros l o E. pose proof (gd_clean _ _ G _ _ E). destruct (gd_sound _ _ G) as [S1 _]. rewrite (S1 _ _ E) in *. lia.
  - intros -> A. by apply nothing_left.
Qed.

(** A dictionary that holds itself is never freed. *)
Lemma circle_leaks : (let! '(h, refs) := qrun (∅, []) [QNewDict; QIncref 1; QPut 1 [97] 1; QDecref 1] in Ret (size h, refs)) = @Ret Empty_set _ (1%nat, []).
Proof. by vm_compute. Qed.
(** A value put again under its key survives its replacement. *)
Lemma put_again : (let! '(h, refs) := qrun (∅, []) [QNewDict; QNew (BInt 7); QPut 1 [97] 2; QGet 1 [97]; QPut 1 [97] 2; QGet 1 [97]; QDecref 1] in Ret (h !! 2%positive, refs)) =
  @Ret Empty_set _ (Some (mkObj 1 (BInt 7)), [2%positive]).
Proof. by vm_compute. Qed.
