(* ===== verification/JsonLexer.v ===== *)
(** * JSON lexer and message streamer: json-lexer.c, json-streamer.c

    The lexer is the table-driven automaton of the source, one row per state; the token
    types share the state's integer range there and are the constructor [TOK] here.  The
    streamer collects tokens until braces and brackets balance.  [emit] callbacks become
    values: a step returns what it emits. *)

From S2P Require Import Prelude QObject.
From Stdlib Require Import Ascii.
From stdpp Require Import list strings.

Open Scope Z_scope.

(** A character literal. *)
Definition chr (a : Ascii.ascii) : Z := Z.of_N (Ascii.N_of_ascii a).
Arguments chr a%_char.

Inductive JSONTokenType :=
| JSON_OPERATOR | JSON_INTEGER | JSON_FLOAT | JSON_KEYWORD | JSON_STRING | JSON_ESCAPE | JSON_SKIP.

#[export] Instance JSONTokenType_eq_dec : EqDecision JSONTokenType.
Proof. solve_decision. Defined.

(** The value of the C enumerator. *)
Definition token_code (t : JSONTokenType) : Z :=
  match t with
  | JSON_OPERATOR => 100 | JSON_INTEGER => 101 | JSON_FLOAT => 102 | JSON_KEYWORD => 103
  | JSON_STRING => 104 | JSON_ESCAPE => 105 | JSON_SKIP => 106
  end.

Inductive json_lexer_state :=
| ERROR
| IN_DONE_STRING
| IN_DQ_UCODE3 | IN_DQ_UCODE2 | IN_DQ_UCODE1 | IN_DQ_UCODE0 | IN_DQ_STRING_ESCAPE | IN_DQ_STRING
| IN_SQ_UCODE3 | IN_SQ_UCODE2 | IN_SQ_UCODE1 | IN_SQ_UCODE0 | IN_SQ_STRING_ESCAPE | IN_SQ_STRING
| IN_ZERO | IN_DIGITS | IN_DIGIT | IN_EXP_E | IN_MANTISSA | IN_MANTISSA_DIGITS
| IN_NONZERO_NUMBER | IN_NEG_NONZERO_NUMBER
| IN_KEYWORD
| IN_ESCAPE | IN_ESCAPE_L | IN_ESCAPE_LL | IN_ESCAPE_I | IN_ESCAPE_I6 | IN_ESCAPE_I64 | IN_ESCAPE_DONE
| IN_WHITESPACE | IN_OPERATOR_DONE | IN_START
| TOK (t : JSONTokenType).

Definition in_range (lo hi c : Z) : bool := (lo <=? c) && (c <=? hi).
Definition is_digit (c : Z) : bool := in_range (chr "0") (chr "9") c.
Definition is_hex (c : Z) : bool :=
  in_range (chr "0") (chr "9") c || in_range (chr "a") (chr "f") c || in_range (chr "A") (chr "F") c.
Definition is_lower (c : Z) : bool := in_range (chr "a") (chr "z") c.
Definition is_blank (c : Z) : bool := (c =? 32) || (c =? 9) || (c =? 13) || (c =? 10).

(** [TERMINAL(state)] fills the columns 0 to 0x7F; an entry that is not set is [ERROR]. *)
Definition TERMINAL (t : JSONTokenType) (c : Z) : json_lexer_state :=
  if in_range 0 0x7F c then TOK t else ERROR.

Definition hex_to (next : json_lexer_state) (c : Z) : json_lexer_state :=
  if is_hex c then next else ERROR.

(** The row of an escape inside a string: back to the string, or on to \u. *)
Definition escape_row (string ucode0 : json_lexer_state) (c : Z) : json_lexer_state :=
  if c =? chr "b" then string
  else if c =? chr "f" then string
  else if c =? chr "n" then string
  else if c =? chr "r" then string
  else if c =? chr "t" then string
  else if c =? 39 then string
  else if c =? 34 then string
  else if c =? chr "u" then ucode0
  else ERROR.

Definition string_row (self escape : json_lexer_state) (quote c : Z) : json_lexer_state :=
  if c =? quote then IN_DONE_STRING
  else if c =? 92 then escape
  else if in_range 1 0xFF c then self
  else ERROR.

(** The table [json_lexer[state][(uint8_t)ch]].  Later entries of a row override earlier
    ones.  No row belongs to a token type: the lexer never keeps one as its state
    ([lexer_state_ok]). *)
Definition json_lexer (state : json_lexer_state) (c : Z) : json_lexer_state :=
  match state with
  | ERROR => ERROR
  | IN_DONE_STRING => TERMINAL JSON_STRING c
  | IN_DQ_UCODE3 => hex_to IN_DQ_STRING c
  | IN_DQ_UCODE2 => hex_to IN_DQ_UCODE3 c
  | IN_DQ_UCODE1 => hex_to IN_DQ_UCODE2 c
  | IN_DQ_UCODE0 => hex_to IN_DQ_UCODE1 c
  | IN_DQ_STRING_ESCAPE => escape_row IN_DQ_STRING IN_DQ_UCODE0 c
  | IN_DQ_STRING => string_row IN_DQ_STRING IN_DQ_STRING_ESCAPE 34 c
  | IN_SQ_UCODE3 => hex_to IN_SQ_STRING c
  | IN_SQ_UCODE2 => hex_to IN_SQ_UCODE3 c
  | IN_SQ_UCODE1 => hex_to IN_SQ_UCODE2 c
  | IN_SQ_UCODE0 => hex_to IN_SQ_UCODE1 c
  | IN_SQ_STRING_ESCAPE => escape_row IN_SQ_STRING IN_SQ_UCODE0 c
  | IN_SQ_STRING => string_row IN_SQ_STRING IN_SQ_STRING_ESCAPE 39 c
  | IN_ZERO =>
      if is_digit c then ERROR else if c =? chr "." then IN_MANTISSA else TERMINAL JSON_INTEGER c
  | IN_DIGITS => if is_digit c then IN_DIGITS else TERMINAL JSON_FLOAT c
  | IN_DIGIT => if is_digit c then IN_DIGITS else ERROR
  | IN_EXP_E =>
      if (c =? chr "-") || (c =? chr "+") then IN_DIGIT else if is_digit c then IN_DIGITS else ERROR
  | IN_MANTISSA_DIGITS =>
      if is_digit c then IN_MANTISSA_DIGITS
      else if (c =? chr "e") || (c =? chr "E") then IN_EXP_E else TERMINAL JSON_FLOAT c
  | IN_MANTISSA => if is_digit c then IN_MANTISSA_DIGITS else ERROR
  | IN_NONZERO_NUMBER =>
      if is_digit c then IN_NONZERO_NUMBER
      else if (c =? chr "e") || (c =? chr "E") then IN_EXP_E
      else if c =? chr "." then IN_MANTISSA else TERMINAL JSON_INTEGER c
  | IN_NEG_NONZERO_NUMBER =>
      if c =? chr "0" then IN_ZERO
      else if in_range (chr "1") (chr "9") c then IN_NONZERO_NUMBER else ERROR
  | IN_KEYWORD => if is_lower c then IN_KEYWORD else TERMINAL JSON_KEYWORD c
  | IN_WHITESPACE => if is_blank c then IN_WHITESPACE else TERMINAL JSON_SKIP c
  | IN_OPERATOR_DONE => TERMINAL JSON_OPERATOR c
  | IN_ESCAPE_DONE => TERMINAL JSON_ESCAPE c
  | IN_ESCAPE_LL => if c =? chr "d" then IN_ESCAPE_DONE else ERROR
  | IN_ESCAPE_L =>
      if c =? chr "d" then IN_ESCAPE_DONE else if c =? chr "l" then IN_ESCAPE_LL else ERROR
  | IN_ESCAPE_I64 => if c =? chr "d" then IN_ESCAPE_DONE else ERROR
  | IN_ESCAPE_I6 => if c =? chr "4" then IN_ESCAPE_I64 else ERROR
  | IN_ESCAPE_I => if c =? chr "6" then IN_ESCAPE_I6 else ERROR
  | IN_ESCAPE =>
      if (c =? chr "d") || (c =? chr "i") || (c =? chr "p") || (c =? chr "s") || (c =? chr "f")
      then IN_ESCAPE_DONE
      else if c =? chr "l" then IN_ESCAPE_L else if c =? chr "I" then IN_ESCAPE_I else ERROR
  | IN_START =>
      if c =? 34 then IN_DQ_STRING
      else if c =? 39 then IN_SQ_STRING
      else if c =? chr "0" then IN_ZERO
      else if in_range (chr "1") (chr "9") c then IN_NONZERO_NUMBER
      else if c =? chr "-" then IN_NEG_NONZERO_NUMBER
      else if (c =? chr "{") || (c =? chr "}") || (c =? chr "[") || (c =? chr "]")
              || (c =? chr ",") || (c =? chr ":") then IN_OPERATOR_DONE
      else if is_lower c then IN_KEYWORD
      else if c =? chr "%" then IN_ESCAPE
      else if is_blank c then IN_WHITESPACE
      else ERROR
  | TOK _ => ERROR
  end.

Arguments json_lexer : simpl never.

Record JSONLexer := { lx_state : json_lexer_state; lx_token : cstring; lx_x : Z; lx_y : Z }.

(** What a call of [lexer->emit] gets. *)
Record emission := { em_token : cstring; em_type : JSONTokenType; em_x : Z; em_y : Z }.

Definition json_lexer_init : JSONLexer := {| lx_state := IN_START; lx_token := []; lx_x := 0; lx_y := 0 |}.

(** [qstring_append(token, buf)] with [buf] the character and a NUL. *)
Definition append_char (token : cstring) (ch : Z) : cstring := if ch =? 0 then token else token ++ [ch].

Definition EINVAL : Z := 22.

Definition json_lexer_feed_char (lexer : JSONLexer) (ch : Z) : JSONLexer * option emission * Z :=
  let x := if ch =? 10 then 0 else s32 (lx_x lexer + 1) in
  let y := if ch =? 10 then s32 (lx_y lexer + 1) else lx_y lexer in
  let state := json_lexer (lx_state lexer) ch in
  match state with
  | TOK t =>
      let em := match t with
                | JSON_SKIP => None
                | _ => Some {| em_token := lx_token lexer; em_type := t; em_x := x; em_y := y |}
                end in
      ({| lx_state := json_lexer IN_START ch; lx_token := append_char [] ch; lx_x := x; lx_y := y |}, em, 0)
  | ERROR =>
      ({| lx_state := ERROR; lx_token := lx_token lexer; lx_x := x; lx_y := y |}, None, - EINVAL)
  | _ =>
      ({| lx_state := state; lx_token := append_char (lx_token lexer) ch; lx_x := x; lx_y := y |}, None, 0)
  end.

Definition option_list {A} (o : option A) : list A := match o with Some a => [a] | None => [] end.

(** [json_lexer_feed]: the first error stops the loop. *)
Fixpoint json_lexer_feed (lexer : JSONLexer) (buffer : list Z) : JSONLexer * list emission * Z :=
  match buffer with
  | [] => (lexer, [], 0)
  | ch :: buffer =>
      let '(lexer, em, err) := json_lexer_feed_char lexer ch in
      if err <? 0 then (lexer, option_list em, err)
      else
        let '(lexer, ems, err) := json_lexer_feed lexer buffer in
        (lexer, option_list em ++ ems, err)
  end.

Definition json_lexer_flush (lexer : JSONLexer) : JSONLexer * option emission * Z :=
  json_lexer_feed_char lexer 0.

(** ** json-streamer.c *)
Record JSONMessageParser := {
  mp_lexer : JSONLexer;
  mp_brace_count : Z;
  mp_bracket_count : Z;
  mp_tokens : list QObject
}.

Definition json_message_parser_init : JSONMessageParser :=
  {| mp_lexer := json_lexer_init; mp_brace_count := 0; mp_bracket_count := 0; mp_tokens := qlist_new |}.

(** The dictionary made for a token. *)
Definition token_dict (e : emission) : QObject :=
  let dict := qdict_new in
  let dict := qdict_put_obj dict (str "type") (qint_from_int (token_code (em_type e))) in
  let dict := qdict_put_obj dict (str "token") (QString (em_token e)) in
  let dict := qdict_put_obj dict (str "x") (qint_from_int (em_x e)) in
  let dict := qdict_put_obj dict (str "y") (qint_from_int (em_y e)) in
  QDict dict.

(** The effect of an operator on the brace and the bracket counter. *)
Definition count_operator (token : cstring) (counts : Z * Z) : Z * Z :=
  let '(brace, bracket) := counts in
  let c := default 0 (head token) in
  if c =? chr "{" then (s32 (brace + 1), bracket)
  else if c =? chr "}" then (s32 (brace - 1), bracket)
  else if c =? chr "[" then (brace, s32 (bracket + 1))
  else if c =? chr "]" then (brace, s32 (bracket - 1))
  else (brace, bracket).

(** The part of the parser's state the token handler works on. *)
Record stream := { st_counts : Z * Z; st_tokens : list QObject }.

(** [json_message_process_token]; the second component is the argument of
    [parser->emit], when it is called. *)
Definition json_message_process_token (s : stream) (e : emission) : stream * option (list QObject) :=
  let counts :=
    match em_type e with
    | JSON_OPERATOR => count_operator (em_token e) (st_counts s)
    | _ => st_counts s
    end in
  let tokens := qlist_append_obj (st_tokens s) (token_dict e) in
  if (fst counts =? 0) && (snd counts =? 0)
  then ({| st_counts := counts; st_tokens := qlist_new |}, Some tokens)
  else ({| st_counts := counts; st_tokens := tokens |}, None).

Fixpoint process_tokens (s : stream) (es : list emission) : stream * list (list QObject) :=
  match es with
  | [] => (s, [])
  | e :: es =>
      let '(s, out) := json_message_process_token s e in
      let '(s, outs) := process_tokens s es in
      (s, option_list out ++ outs)
  end.

Definition parser_stream (p : JSONMessageParser) : stream :=
  {| st_counts := (mp_brace_count p, mp_bracket_count p); st_tokens := mp_tokens p |}.

Definition with_stream (lexer : JSONLexer) (s : stream) : JSONMessageParser :=
  {| mp_lexer := lexer; mp_brace_count := fst (st_counts s); mp_bracket_count := snd (st_counts s);
     mp_tokens := st_tokens s |}.

(** [json_message_parser_feed] and [_flush]: the messages emitted, and the error code. *)
Definition json_message_parser_feed (p : JSONMessageParser) (buffer : list Z)
  : JSONMessageParser * list (list QObject) * Z :=
  let '(lexer, ems, err) := json_lexer_feed (mp_lexer p) buffer in
  let '(s, outs) := process_tokens (parser_stream p) ems in
  (with_stream lexer s, outs, err).

Definition json_message_parser_flush (p : JSONMessageParser)
  : JSONMessageParser * list (list QObject) * Z :=
  let '(lexer, em, err) := json_lexer_flush (mp_lexer p) in
  let '(s, outs) := process_tokens (parser_stream p) (option_list em) in
  (with_stream lexer s, outs, err).

(** ** Feeding in pieces *)
Lemma json_lexer_feed_app lx a b :
  json_lexer_feed lx (a ++ b) =
  let '(lx1, e1, err1) := json_lexer_feed lx a in
  if err1 <? 0 then (lx1, e1, err1)
  else let '(lx2, e2, err2) := json_lexer_feed lx1 b in (lx2, e1 ++ e2, err2).
Proof.
  revert lx. induction a as [|c a IH]; intros lx; simpl.
  { by destruct (json_lexer_feed lx b) as [[? ?] ?]. }
  destruct (json_lexer_feed_char lx c) as [[lx0 em] err]. destruct (err <? 0) eqn:E; [by rewrite E|].
  rewrite IH. destruct (json_lexer_feed lx0 a) as [[lx1 e1] err1].
  destruct (err1 <? 0) eqn:E1; [done|].
  destruct (json_lexer_feed lx1 b) as [[lx2 e2] err2]. by rewrite app_assoc.
Qed.

Lemma process_tokens_app s es1 es2 :
  process_tokens s (es1 ++ es2) =
  let '(s1, o1) := process_tokens s es1 in
  let '(s2, o2) := process_tokens s1 es2 in (s2, o1 ++ o2).
Proof.
  revert s. induction es1 as [|e es1 IH]; intros s; simpl.
  { by destruct (process_tokens s es2). }
  destruct (json_message_process_token s e) as [s0 out]. rewrite IH.
  destruct (process_tokens s0 es1) as [s1 o1]. destruct (process_tokens s1 es2).
  by rewrite app_assoc.
Qed.

(** The chunks of a connection, fed one after the other until one is refused. *)
Fixpoint feed_chunks (p : JSONMessageParser) (chunks : list (list Z))
  : JSONMessageParser * list (list QObject) * Z :=
  match chunks with
  | [] => (p, [], 0)
  | ch :: chunks =>
      let '(p, outs, err) := json_message_parser_feed p ch in
      if err <? 0 then (p, outs, err)
      else let '(p, outs', err) := feed_chunks p chunks in (p, outs ++ outs', err)
  end.

Lemma parser_stream_with_stream lx s : parser_stream (with_stream lx s) = s.
Proof. by destruct s as [[? ?] ?]. Qed.

Lemma with_stream_parser_stream p : with_stream (mp_lexer p) (parser_stream p) = p.
Proof. by destruct p. Qed.

Lemma json_message_parser_feed_app p a b :
  json_message_parser_feed p (a ++ b) =
  let '(p1, o1, err1) := json_message_parser_feed p a in
  if err1 <? 0 then (p1, o1, err1)
  else let '(p2, o2, err2) := json_message_parser_feed p1 b in (p2, o1 ++ o2, err2).
Proof.
  unfold json_message_parser_feed. rewrite json_lexer_feed_app.
  destruct (json_lexer_feed (mp_lexer p) a) as [[lx1 e1] err1].
  destruct (err1 <? 0) eqn:E.
  - destruct (process_tokens _ e1) as [s1 o1]. by rewrite E.
  - destruct (process_tokens (parser_stream p) e1) as [s1 o1] eqn:E1. rewrite E.
    change (mp_lexer (with_stream lx1 s1)) with lx1. rewrite parser_stream_with_stream.
    destruct (json_lexer_feed lx1 b) as [[lx2 e2] err2].
    rewrite process_tokens_app, E1. by destruct (process_tokens s1 e2).
Qed.

(** ** Errors *)
Lemma feed_char_error lx c :
  lx_state lx = ERROR ->
  let '(lx', em, err) := json_lexer_feed_char lx c in lx_state lx' = ERROR /\ em = None /\ err = - EINVAL.
Proof. intros E. unfold json_lexer_feed_char. by rewrite E. Qed.

(** ** Token texts

    [path s w s']: feeding the characters [w] in state [s] ends in [s'] without finishing a
    token or failing. *)
Definition inner (s : json_lexer_state) : bool :=
  match s with ERROR | TOK _ => false | _ => true end.

Fixpoint path (s : json_lexer_state) (w : list Z) (s' : json_lexer_state) : Prop :=
  match w with
  | [] => s = s'
  | c :: w => c <> 0 /\ inner (json_lexer s c) = true /\ path (json_lexer s c) w s'
  end.

Lemma path_app s w1 s1 w2 s2 : path s w1 s1 -> path s1 w2 s2 -> path s (w1 ++ w2) s2.
Proof.
  revert s. induction w1 as [|c w1 IH]; simpl; intros s; [by intros ->|].
  intros (Hc & Hi & Hp) H2. eauto.
Qed.

Lemma feed_char_inner lx c :
  c <> 0 -> inner (json_lexer (lx_state lx) c) = true ->
  exists x y, json_lexer_feed_char lx c =
    ({| lx_state := json_lexer (lx_state lx) c; lx_token := lx_token lx ++ [c]; lx_x := x; lx_y := y |}, None, 0).
Proof.
  intros Hc Hi. unfold json_lexer_feed_char, append_char. rewrite (proj2 (Z.eqb_neq _ _) Hc).
  destruct (json_lexer (lx_state lx) c); try done; by do 2 eexists.
Qed.

Lemma feed_path lx w s' :
  path (lx_state lx) w s' ->
  exists x y, json_lexer_feed lx w =
    ({| lx_state := s'; lx_token := lx_token lx ++ w; lx_x := x; lx_y := y |}, [], 0).
Proof.
  revert lx. induction w as [|c w IH]; intros [s tok x y] H.
  { simpl in H. subst. exists x, y. simpl. by rewrite app_nil_r. }
  destruct H as (Hc & Hi & Hp). simpl in Hi, Hp. cbn [json_lexer_feed].
  destruct (feed_char_inner {| lx_state := s; lx_token := tok; lx_x := x; lx_y := y |} c Hc Hi)
    as (x' & y' & ->). simpl.
  destruct (IH {| lx_state := json_lexer s c; lx_token := tok ++ [c]; lx_x := x'; lx_y := y' |} Hp)
    as (x2 & y2 & ->). simpl. exists x2, y2. by rewrite <- app_assoc.
Qed.

Definition lexeme : Type := JSONTokenType * cstring.

Definition em_matches (e : emission) (l : lexeme) : Prop := em_type e = fst l /\ em_token e = snd l.

Definition not_skip (l : lexeme) : bool := match fst l with JSON_SKIP => false | _ => true end.

(** [chain s t ls]: in the final state [s] of a lexeme of type [t], the texts of the
    lexemes [ls] and then the flush finish each lexeme exactly where the next starts. *)
Inductive chain : json_lexer_state -> JSONTokenType -> list lexeme -> Prop :=
| chain_end s t : json_lexer s 0 = TOK t -> chain s t []
| chain_cons s t t' c w s' ls :
    c <> 0 -> json_lexer s c = TOK t -> path IN_START (c :: w) s' -> chain s' t' ls ->
    chain s t ((t', c :: w) :: ls).

Definition texts (ls : list lexeme) : list Z := concat (map snd ls).

Lemma texts_app a b : texts (a ++ b) = texts a ++ texts b.
Proof. unfold texts. by rewrite map_app, concat_app. Qed.

(** The emissions of a feed followed by a flush, when neither fails. *)
Definition lex_all (lx : JSONLexer) (buf : list Z) : option (list emission) :=
  let '(lx1, ems, err) := json_lexer_feed lx buf in
  let '(_, em, err') := json_lexer_flush lx1 in
  if (err =? 0) && (err' =? 0) then Some (ems ++ option_list em) else None.

Lemma feed_char_finish lx c t :
  json_lexer (lx_state lx) c = TOK t ->
  exists x y em, json_lexer_feed_char lx c =
    ({| lx_state := json_lexer IN_START c; lx_token := append_char [] c; lx_x := x; lx_y := y |}, em, 0) /\
    Forall2 em_matches (option_list em) (List.filter not_skip [(t, lx_token lx)]).
Proof.
  intros E. unfold json_lexer_feed_char. rewrite E.
  do 3 eexists. split; [reflexivity|]. destruct t; simpl; repeat constructor.
Qed.

Lemma lex_all_chain s t ls lx :
  chain s t ls -> lx_state lx = s ->
  exists ems, lex_all lx (texts ls) = Some ems /\
    Forall2 em_matches ems (List.filter not_skip ((t, lx_token lx) :: ls)).
Proof.
  intros Hc. revert lx. induction Hc as [s t E|s t t' c w s' ls Hc0 E Hp Hc IH]; intros lx <-.
  - unfold lex_all. simpl. unfold json_lexer_flush.
    destruct (feed_char_finish lx 0 t E) as (x & y & em & -> & HF). simpl. eauto.
  - unfold lex_all. change (texts ((t', c :: w) :: ls)) with (c :: (w ++ texts ls)).
    cbn [json_lexer_feed].
    destruct (feed_char_finish lx c t E) as (x & y & em & -> & HF). change (0 <? 0) with false. cbv iota.
    destruct Hp as (_ & Hi & Hp). rewrite json_lexer_feed_app.
    unfold append_char. rewrite (proj2 (Z.eqb_neq _ _) Hc0).
    destruct (feed_path {| lx_state := json_lexer IN_START c; lx_token := [] ++ [c]; lx_x := x; lx_y := y |} w s' Hp)
      as (x2 & y2 & ->). change (0 <? 0) with false. cbv iota.
    destruct (IH {| lx_state := s'; lx_token := c :: w; lx_x := x2; lx_y := y2 |} eq_refl) as (ems & El & HF2).
    unfold lex_all in El. simpl app in *.
    destruct (json_lexer_feed _ (texts ls)) as [[lx3 e3] err3]. cbv beta iota zeta.
    destruct (json_lexer_flush lx3) as [[lx4 em4] err4].
    destruct (_ && _); [|done]. injection El as <-. eexists. split; [reflexivity|].
    rewrite <- app_assoc. change ((t, lx_token lx) :: (t', c :: w) :: ls)
      with ([(t, lx_token lx)] ++ ((t', c :: w) :: ls)).
    rewrite List.filter_app. apply Forall2_app; done.
Qed.

(** ** No character is lost *)
Definition ws_inv (lx : JSONLexer) : Prop :=
  (lx_state lx = IN_WHITESPACE -> Forall (fun c => is_blank c = true) (lx_token lx)) /\
  (lx_state lx = IN_START -> lx_token lx = []).

Definition piece_ok (l : lexeme) : Prop :=
  fst l = JSON_SKIP -> Forall (fun c => is_blank c = true) (snd l).

(** Case analysis on the row and the tests of [json_lexer] in hypothesis [H]. *)
Ltac table_cases H :=
  unfold json_lexer, TERMINAL, hex_to, escape_row, string_row in H;
  repeat match type of H with
  | context [if ?b then _ else _] => let E := fresh "T" in destruct b eqn:E
  end; try discriminate H.

Lemma json_lexer_whitespace s c :
  json_lexer s c = IN_WHITESPACE -> is_blank c = true /\ (s = IN_WHITESPACE \/ s = IN_START).
Proof. intros H. destruct s; table_cases H; auto. Qed.

Lemma json_lexer_skip s c : json_lexer s c = TOK JSON_SKIP -> s = IN_WHITESPACE.
Proof. intros H. destruct s; table_cases H; auto. Qed.

Lemma json_lexer_not_start s c : json_lexer s c <> IN_START.
Proof. intros H. destruct s; table_cases H. Qed.

Lemma json_lexer_start_not_tok c t : json_lexer IN_START c <> TOK t.
Proof. intros H. table_cases H. Qed.

Lemma feed_char_pieces lx c lx' em :
  c <> 0 -> ws_inv lx -> json_lexer_feed_char lx c = (lx', em, 0) ->
  ws_inv lx' /\ exists pieces, lx_token lx ++ [c] = texts pieces ++ lx_token lx' /\
    Forall2 em_matches (option_list em) (List.filter not_skip pieces) /\ Forall piece_ok pieces.
Proof.
  intros Hc [Hw Hs] E.
  destruct (inner (json_lexer (lx_state lx) c)) eqn:Hi.
  - destruct (feed_char_inner lx c Hc Hi) as (x & y & E'). rewrite E' in E. injection E as <- <-.
    split; [|exists []; simpl; auto using Forall_nil].
    split; simpl; [|intros H; by apply json_lexer_not_start in H].
    intros H. apply json_lexer_whitespace in H as [Hb [H|H]].
    + apply Forall_app. split; [auto|by apply Forall_singleton].
    + rewrite (Hs H). by apply Forall_singleton.
  - destruct (json_lexer (lx_state lx) c) as [| | | | | | | | | | | | | | | | | | | | | | | | | | | | | | | | |t] eqn:Et;
      try discriminate Hi.
    { unfold json_lexer_feed_char in E. rewrite Et in E. discriminate E. }
    destruct (feed_char_finish lx c t Et) as (x & y & em' & E' & HF). rewrite E' in E. injection E as <- <-.
    unfold append_char. rewrite (proj2 (Z.eqb_neq _ _) Hc). split.
    + split; simpl; [|intros H; by apply json_lexer_not_start in H].
      intros H. apply json_lexer_whitespace in H as [Hb _]. by apply Forall_singleton.
    + exists [(t, lx_token lx)]. unfold texts. simpl. rewrite app_nil_r. split_and!; [done..|].
      constructor; [|constructor]. intros Hsk. simpl in *. subst t. apply Hw. by eapply json_lexer_skip.
Qed.

Lemma feed_pieces lx buf lx' ems :
  nul_free buf -> ws_inv lx -> json_lexer_feed lx buf = (lx', ems, 0) ->
  ws_inv lx' /\ exists pieces, lx_token lx ++ buf = texts pieces ++ lx_token lx' /\
    Forall2 em_matches ems (List.filter not_skip pieces) /\ Forall piece_ok pieces.
Proof.
  intros Hn. revert lx ems. induction Hn as [|c buf [Hc _] Hn IH]; intros lx ems Hinv E.
  { injection E as <- <-. split; [done|]. exists []. rewrite app_nil_r. simpl. auto using Forall_nil. }
  cbn [json_lexer_feed] in E.
  destruct (json_lexer_feed_char lx c) as [[lx1 em] err] eqn:E1.
  destruct (err <? 0) eqn:Eerr; [injection E as <- <- ->; bool_hyps; lia|].
  destruct (json_lexer_feed lx1 buf) as [[lx2 ems2] err2] eqn:E2. injection E as <- <- ->.
  assert (err = 0) as ->.
  { unfold json_lexer_feed_char in E1. destruct (json_lexer _ _); by injection E1 as _ _ <-. }
  destruct (feed_char_pieces lx c lx1 em) as (Hinv1 & p1 & Ht1 & HF1 & Hok1); [lia|done..|].
  destruct (IH lx1 ems2 Hinv1 E2) as (Hinv2 & p2 & Ht2 & HF2 & Hok2).
  split; [done|]. exists (p1 ++ p2). split_and!.
  - by rewrite texts_app, <- app_assoc, <- Ht2, app_assoc, <- Ht1, <- app_assoc.
  - rewrite List.filter_app. by apply Forall2_app.
  - by apply Forall_app.
Qed.

(** ** Properties *)

(** The lexer is lossless: whatever text is fed without an error, the text is
    exactly the concatenation of the tokens emitted for it, in order, of blanks between
    them, and of the token still pending; the emitted tokens carry the recognised texts. *)
Theorem lexer_lossless buf lx ems :
  nul_free buf -> json_lexer_feed json_lexer_init buf = (lx, ems, 0) ->
  exists pieces, buf = texts pieces ++ lx_token lx /\
    Forall2 em_matches ems (List.filter not_skip pieces) /\ Forall piece_ok pieces.
Proof.
  intros Hn E. assert (ws_inv json_lexer_init) as Hinv by done.
  destruct (feed_pieces _ _ _ _ Hn Hinv E) as (_ & pieces & H). by exists pieces.
Qed.

Lemma lexer_lossless_witness : exists pieces, str "[1, true" = texts pieces ++ str "true".
Proof.
  destruct (lexer_lossless (str "[1, true")
    {| lx_state := IN_KEYWORD; lx_token := str "true"; lx_x := 8; lx_y := 0 |}
    [{| em_token := [91]; em_type := JSON_OPERATOR; em_x := 2; em_y := 0 |};
     {| em_token := [49]; em_type := JSON_INTEGER; em_x := 3; em_y := 0 |};
     {| em_token := [44]; em_type := JSON_OPERATOR; em_x := 4; em_y := 0 |}]) as (pieces & H & _).
  - vm_compute. repeat constructor.
  - vm_compute. reflexivity.
  - exists pieces. exact H.
Defined.

(** Streaming: the messages the parser emits, its final state and the error code do
    not depend on how the bytes arrive: feeding the chunks of a connection one after the
    other is feeding their concatenation. *)
Theorem stream_chunking p chunks :
  feed_chunks p chunks = json_message_parser_feed p (concat chunks).
Proof.
  revert p. induction chunks as [|ch chunks IH]; intros p; simpl.
  { unfold json_message_parser_feed. simpl. by rewrite with_stream_parser_stream. }
  rewrite json_message_parser_feed_app.
  destruct (json_message_parser_feed p ch) as [[p1 o1] err1].
  destruct (err1 <? 0); [done|]. by rewrite IH.
Qed.

(** A lexical error is final: after [json_lexer_feed] has reported one, every later
    feed of a non-empty buffer reports [-EINVAL] again and emits no token. *)
Theorem lexer_error_final lx buf lx' ems err c more :
  json_lexer_feed lx buf = (lx', ems, err) -> err < 0 ->
  exists lx'', json_lexer_feed lx' (c :: more) = (lx'', [], - EINVAL) /\ lx_state lx'' = ERROR.
Proof.
  intros E Herr. assert (lx_state lx' = ERROR) as He.
  { revert lx ems E. induction buf as [|b buf IH]; intros lx ems E; [injection E as <- <- <-; lia|].
    cbn [json_lexer_feed] in E. destruct (json_lexer_feed_char lx b) as [[lx1 em] err1] eqn:E1.
    destruct (err1 <? 0) eqn:El.
    - injection E as <- <- <-. unfold json_lexer_feed_char in E1.
      destruct (json_lexer _ _); by injection E1 as <- _ <-.
    - destruct (json_lexer_feed lx1 buf) as [[lx2 ems2] err2] eqn:E2. injection E as <- <- <-. eauto. }
  pose proof (feed_char_error lx' c He) as H. cbn [json_lexer_feed].
  destruct (json_lexer_feed_char lx' c) as [[lx2 em] err2]. destruct H as (H1 & -> & ->).
  by exists lx2.
Qed.

Lemma lexer_error_final_witness :
  exists lx'', json_lexer_feed (fst (fst (json_lexer_feed json_lexer_init (str "[1 @@")))) (str "]") =
    (lx'', [], - EINVAL) /\ lx_state lx'' = ERROR.
Proof.
  apply (lexer_error_final json_lexer_init (str "[1 @@") _ (snd (fst (json_lexer_feed json_lexer_init (str "[1 @@"))))
    (- EINVAL) (chr "]") []); vm_compute; reflexivity.
Defined.
