(* ===== verification/JsonParser.v ===== *)
(** * JSON parser: json-parser.c

    Recursive descent over the list of token dictionaries.  [None] is a NULL pointer;
    asking the type of a NULL object, or for the tokens of an exhausted list, is a [Fault]
    (the code dereferences the pointer).  The tokens and the variadic arguments [ap] are
    threaded through explicitly.  The recursion is on fuel; running out of it is the
    exception [OutOfFuel], and [parse_value_terminates] shows that it never happens with
    more fuel than tokens. *)

From S2P Require Import Prelude QObject JsonLexer.
From Stdlib Require Import Ascii.
From stdpp Require Import list strings.

Open Scope Z_scope.

Inductive fuel_exn := OutOfFuel.

Abbreviation presult A := (outcome fuel_exn A).

(** One argument of the variadic [qobject_from_jsonf]. *)
Inductive va_val :=
| VaObject (o : option QObject)
| VaInt (z : Z)
| VaLong (z : Z)
| VaLongLong (z : Z)
| VaString (s : cstring)
| VaDouble (bits : Z).

Abbreviation va_list := (list va_val).

(** ** Token manipulators *)
Definition token_dict_of (obj : option QObject) : presult (qdict QObject) :=
  let! o := oget obj in oget (qobject_to_qdict o).

Definition token_get_value (obj : option QObject) : presult cstring :=
  let! d := token_dict_of obj in qdict_get_str d (str "token").

Definition token_get_type (obj : option QObject) : presult Z :=
  let! d := token_dict_of obj in qdict_get_int d (str "type").

Definition token_is_operator (obj : option QObject) (op : Z) : presult bool :=
  let! t := token_get_type obj in
  if negb (t =? token_code JSON_OPERATOR) then Ret false
  else
    let! val := token_get_value obj in
    Ret ((default 0 (val !! 0%nat) =? op) && (default 0 (val !! 1%nat) =? 0)).

Definition token_is_keyword (obj : option QObject) (value : cstring) : presult bool :=
  let! t := token_get_type obj in
  if negb (t =? token_code JSON_KEYWORD) then Ret false
  else let! val := token_get_value obj in Ret (bool_decide (val = value)).

Definition token_is_escape (obj : option QObject) (value : cstring) : presult bool :=
  let! t := token_get_type obj in
  if negb (t =? token_code JSON_ESCAPE) then Ret false
  else let! val := token_get_value obj in Ret (bool_decide (val = value)).

(** ** String helpers *)

(** [wchar_to_utf8]: the bytes written before the NUL. *)
Definition wchar_to_utf8 (wchar : Z) : list Z :=
  if wchar <=? 0x7F then [Z.land wchar 0x7F]
  else if wchar <=? 0x7FF then
    [Z.lor 0xC0 (Z.land (Z.shiftr wchar 6) 0x1F); Z.lor 0x80 (Z.land wchar 0x3F)]
  else
    [Z.lor 0xE0 (Z.land (Z.shiftr wchar 12) 0x0F);
     Z.lor 0x80 (Z.land (Z.shiftr wchar 6) 0x3F);
     Z.lor 0x80 (Z.land wchar 0x3F)].

Definition hex2decimal (ch : Z) : Z :=
  if (chr "0" <=? ch) && (ch <=? chr "9") then ch - chr "0"
  else if (chr "a" <=? ch) && (ch <=? chr "f") then 10 + (ch - chr "a")
  else if (chr "A" <=? ch) && (ch <=? chr "F") then 10 + (ch - chr "A")
  else -1.

(** [qstring_append(str, utf8_char)] of the bytes before the first NUL. *)
Definition append_utf8 (s : cstring) (bs : list Z) : cstring :=
  s ++ (fix upto l := match l with [] => [] | b :: l => if b =? 0 then [] else b :: upto l end) bs.

(** The single-character escapes of [qstring_from_escaped_str]. *)
Definition simple_escape (c : Z) : option Z :=
  if c =? 34 then Some 34
  else if c =? 39 then Some 39
  else if c =? 92 then Some 92
  else if c =? chr "/" then Some (chr "/")
  else if c =? chr "b" then Some 8
  else if c =? chr "n" then Some 10
  else if c =? chr "r" then Some 13
  else if c =? chr "t" then Some 9
  else None.

(** The loop of [qstring_from_escaped_str]: [ptr] are the bytes left, [s] the string built
    so far; [None] is the error exit.  The end of the list is the NUL. *)
Fixpoint unescape (quote : Z) (ptr : list Z) (s : cstring) : option cstring :=
  match ptr with
  | [] => Some s
  | c :: ptr =>
      if c =? quote then Some s
      else if c =? 92 then
        match ptr with
        | [] => None
        | e :: ptr =>
            match simple_escape e with
            | Some b => unescape quote ptr (s ++ [b])
            | None =>
                if e =? chr "u" then
                  match ptr with
                  | h0 :: h1 :: h2 :: h3 :: ptr =>
                      if is_hex h0 && is_hex h1 && is_hex h2 && is_hex h3 then
                        let u := Z.lor (Z.lor (Z.lor (Z.shiftl (hex2decimal h0) 12)
                                                     (Z.shiftl (hex2decimal h1) 8))
                                              (Z.shiftl (hex2decimal h2) 4))
                                       (hex2decimal h3) in
                        unescape quote ptr (append_utf8 s (wchar_to_utf8 u))
                      else None
                  | _ => None
                  end
                else None
            end
        end
      else unescape quote ptr (s ++ [c])
  end.

(** The first character selects the quote.  A token is never empty here: the lexer only
    emits a string token that starts with a quote. *)
Definition qstring_from_escaped_str (token : option QObject) : presult (option QObject) :=
  let! ptr := token_get_value token in
  let quote := if default 0 (ptr !! 0%nat) =? 34 then 34 else 39 in
  Ret (QString <$> unescape quote (tail ptr) []).

(** [strtoll(s, NULL, 10)]: blanks, a sign, digits; saturates. *)
Fixpoint strtoll_digits (s : cstring) (acc : Z) : Z :=
  match s with
  | c :: s => if is_digit c then strtoll_digits s (10 * acc + (c - chr "0")) else acc
  | [] => acc
  end.

Definition saturate64 (z : Z) : Z := Z.max (- 2 ^ 63) (Z.min z (2 ^ 63 - 1)).

Fixpoint strtoll (s : cstring) : Z :=
  match s with
  | [] => 0
  | c :: s' =>
      if (c =? 32) || ((9 <=? c) && (c <=? 13)) then strtoll s'
      else if c =? chr "-" then saturate64 (- strtoll_digits s' 0)
      else if c =? chr "+" then saturate64 (strtoll_digits s' 0)
      else saturate64 (strtoll_digits s 0)
  end.

(** ** Parsing rules *)
Section Parser.

(** The C library's [strtod], as the bit pattern of the result. *)
Variable strtod : cstring -> Z.

(** State of the parsing functions: the tokens ahead and the variadic arguments; [ap] is
    [None] for a NULL pointer. *)
Record pstate := PS { ps_tokens : list QObject; ps_ap : option va_list }.

(** A parsing function returns NULL or an object, and the new state. *)
Definition parser : Type := pstate -> presult (option QObject * pstate).

Definition with_tokens (tokens : list QObject) (s : pstate) : pstate := PS tokens (ps_ap s).

(** [parse_pair]: the boolean is the return value 0. *)
Definition parse_pair (parse_value : parser) (dict : qdict QObject) (s : pstate)
  : presult (bool * qdict QObject * pstate) :=
  let working := with_tokens (qlist_copy (ps_tokens s)) s in
  let! '(key, working) := parse_value working in
  let! key := oget key in
  if negb (bool_decide (qobject_type key = QTYPE_QSTRING)) then
    Ret (false, dict, PS (ps_tokens s) (ps_ap working))
  else
    let '(token, rest) := qlist_pop (ps_tokens working) in
    let working := with_tokens rest working in
    let! colon := token_is_operator token (chr ":") in
    if negb colon then Ret (false, dict, PS (ps_tokens s) (ps_ap working))
    else
      let! '(value, working) := parse_value working in
      match value with
      | None => Ret (false, dict, PS (ps_tokens s) (ps_ap working))
      | Some value =>
          let! k := oget (qobject_to_qstring key) in
          Ret (true, qdict_put_obj dict k value, working)
      end.

(** The [while] loop of [parse_object]: [token] has been popped. *)
Fixpoint object_loop (fuel : nat) (parse_value : parser) (dict : qdict QObject)
    (token : option QObject) (s : pstate) : presult (option (qdict QObject) * pstate) :=
  match fuel with
  | O => Throw OutOfFuel
  | S fuel =>
      let! close := token_is_operator token (chr "}") in
      if close then Ret (Some dict, s)
      else
        let! comma := token_is_operator token (chr ",") in
        if negb comma then Ret (None, s)
        else
          let! '(ok, dict, s) := parse_pair parse_value dict s in
          if negb ok then Ret (None, s)
          else
            let '(token, rest) := qlist_pop (ps_tokens s) in
            object_loop fuel parse_value dict token (with_tokens rest s)
  end.

Definition parse_object (fuel : nat) (parse_value : parser) (s : pstate)
  : presult (option QObject * pstate) :=
  let '(token, rest) := qlist_pop (qlist_copy (ps_tokens s)) in
  let working := with_tokens rest s in
  let! open := token_is_operator token (chr "{") in
  if negb open then Ret (None, s)
  else
    let dict := qdict_new in
    let! empty := token_is_operator (qlist_peek (ps_tokens working)) (chr "}") in
    if negb empty then
      let! '(ok, dict, working) := parse_pair parse_value dict working in
      if negb ok then Ret (None, PS (ps_tokens s) (ps_ap working))
      else
        let '(token, rest) := qlist_pop (ps_tokens working) in
        let! '(res, working) := object_loop fuel parse_value dict token (with_tokens rest working) in
        match res with
        | None => Ret (None, PS (ps_tokens s) (ps_ap working))
        | Some dict => Ret (Some (QDict dict), working)
        end
    else
      let '(_, rest) := qlist_pop (ps_tokens working) in
      Ret (Some (QDict dict), with_tokens rest working).

Fixpoint array_loop (fuel : nat) (parse_value : parser) (list : list QObject)
    (token : option QObject) (s : pstate) : presult (option (Datatypes.list QObject) * pstate) :=
  match fuel with
  | O => Throw OutOfFuel
  | S fuel =>
      let! close := token_is_operator token (chr "]") in
      if close then Ret (Some list, s)
      else
        let! comma := token_is_operator token (chr ",") in
        if negb comma then Ret (None, s)
        else
          let! '(obj, s) := parse_value s in
          match obj with
          | None => Ret (None, s)
          | Some obj =>
              let '(token, rest) := qlist_pop (ps_tokens s) in
              array_loop fuel parse_value (qlist_append_obj list obj) token (with_tokens rest s)
          end
  end.

Definition parse_array (fuel : nat) (parse_value : parser) (s : pstate)
  : presult (option QObject * pstate) :=
  let '(token, rest) := qlist_pop (qlist_copy (ps_tokens s)) in
  let working := with_tokens rest s in
  let! open := token_is_operator token (chr "[") in
  if negb open then Ret (None, s)
  else
    let list := qlist_new in
    let! empty := token_is_operator (qlist_peek (ps_tokens working)) (chr "]") in
    if negb empty then
      let! '(obj, working) := parse_value working in
      match obj with
      | None => Ret (None, PS (ps_tokens s) (ps_ap working))
      | Some obj =>
          let '(token, rest) := qlist_pop (ps_tokens working) in
          let! '(res, working) :=
            array_loop fuel parse_value (qlist_append_obj list obj) token (with_tokens rest working) in
          match res with
          | None => Ret (None, PS (ps_tokens s) (ps_ap working))
          | Some list => Ret (Some (QList list), working)
          end
      end
    else
      let '(_, rest) := qlist_pop (ps_tokens working) in
      Ret (Some (QList list), with_tokens rest working).

Definition parse_keyword (s : pstate) : presult (option QObject * pstate) :=
  let '(token, rest) := qlist_pop (qlist_copy (ps_tokens s)) in
  let! t := token_get_type token in
  if negb (t =? token_code JSON_KEYWORD) then Ret (None, s)
  else
    let! is_true := token_is_keyword token (str "true") in
    if is_true then Ret (Some (qbool_from_int 1), with_tokens rest s)
    else
      let! is_false := token_is_keyword token (str "false") in
      if is_false then Ret (Some (qbool_from_int 0), with_tokens rest s)
      else Ret (None, s).

(** [va_arg]: an argument of another type is undefined. *)
Definition va_next (ap : va_list) : presult (va_val * va_list) :=
  match ap with [] => Fault | v :: ap => Ret (v, ap) end.

Definition parse_escape (s : pstate) : presult (option QObject * pstate) :=
  match ps_ap s with
  | None => Ret (None, s)
  | Some ap =>
      let '(token, rest) := qlist_pop (qlist_copy (ps_tokens s)) in
      let take (f : va_val -> presult (option QObject)) :=
        let! '(v, ap) := va_next ap in
        let! obj := f v in Ret (obj, PS rest (Some ap)) in
      let! is_p := token_is_escape token (str "%p") in
      if is_p then take (fun v => match v with VaObject o => Ret o | _ => Fault end) else
      let! is_i := token_is_escape token (str "%i") in
      if is_i then take (fun v => match v with VaInt z => Ret (Some (qbool_from_int z)) | _ => Fault end) else
      let! is_d := token_is_escape token (str "%d") in
      if is_d then take (fun v => match v with VaInt z => Ret (Some (qint_from_int z)) | _ => Fault end) else
      let! is_ld := token_is_escape token (str "%ld") in
      if is_ld then take (fun v => match v with VaLong z => Ret (Some (qint_from_int z)) | _ => Fault end) else
      let! is_lld := token_is_escape token (str "%lld") in
      let! is_i64 := (if is_lld then Ret true else token_is_escape token (str "%I64d")) in
      if is_i64 then take (fun v => match v with VaLongLong z => Ret (Some (qint_from_int z)) | _ => Fault end) else
      let! is_s := token_is_escape token (str "%s") in
      if is_s then take (fun v => match v with VaString t => Ret (Some (QString t)) | _ => Fault end) else
      let! is_f := token_is_escape token (str "%f") in
      if is_f then take (fun v => match v with VaDouble b => Ret (Some (QFloat b)) | _ => Fault end) else
      Ret (None, s)
  end.

(** A malformed string still consumes its token. *)
Definition parse_literal (s : pstate) : presult (option QObject * pstate) :=
  let '(token, rest) := qlist_pop (qlist_copy (ps_tokens s)) in
  let! t := token_get_type token in
  if t =? token_code JSON_STRING then
    let! obj := qstring_from_escaped_str token in Ret (obj, with_tokens rest s)
  else if t =? token_code JSON_INTEGER then
    let! val := token_get_value token in
    Ret (Some (qint_from_int (strtoll val)), with_tokens rest s)
  else if t =? token_code JSON_FLOAT then
    let! val := token_get_value token in
    Ret (Some (QFloat (strtod val)), with_tokens rest s)
  else Ret (None, s).

(** Tries [p] when nothing has been parsed yet. *)
Definition or_else (r : presult (option QObject * pstate)) (p : parser) : presult (option QObject * pstate) :=
  let! '(obj, s) := r in
  match obj with
  | Some _ => Ret (obj, s)
  | None => p s
  end.

Fixpoint parse_value (fuel : nat) (s : pstate) : presult (option QObject * pstate) :=
  match fuel with
  | O => Throw OutOfFuel
  | S n =>
      or_else (or_else (or_else (or_else
        (parse_object n (parse_value n) s)
        (parse_array n (parse_value n)))
        parse_escape)
        parse_keyword)
        parse_literal
  end.

Definition json_parser_parse (tokens : list QObject) (ap : option va_list) : presult (option QObject * option va_list) :=
  let working := qlist_copy tokens in
  let! '(result, s) := parse_value (S (length tokens)) (PS working ap) in
  Ret (result, ps_ap s).

End Parser.

(** ** Termination

    [safe P m]: [m] does not run out of fuel, and a value it returns satisfies [P]. *)
Definition safe {A} (P : A -> Prop) (m : presult A) : Prop :=
  match m with
  | Ret a => P a
  | Throw OutOfFuel => False
  | Fault => True
  end.

Lemma safe_bind {A B} (Q : A -> Prop) (P : B -> Prop) (m : presult A) (k : A -> presult B) :
  safe Q m -> (forall a, Q a -> safe P (k a)) -> safe P (obind m k).
Proof. destruct m as [a|[]|]; simpl; auto. Qed.

Lemma safe_weaken {A} (P Q : A -> Prop) (m : presult A) :
  safe Q m -> (forall a, Q a -> P a) -> safe P m.
Proof. destruct m as [a|[]|]; simpl; auto. Qed.

Lemma safe_oget {A} (o : option A) : safe (fun _ => True) (oget o).
Proof. by destruct o. Qed.

Create HintDb parse discriminated.

Lemma safe_token_dict_of o : safe (fun _ => True) (token_dict_of o).
Proof. eapply safe_bind; [apply safe_oget|]. intros. apply safe_oget. Qed.

Lemma safe_get_obj (d : qdict QObject) k t : safe (fun _ => True) (qdict_get_obj (E:=fuel_exn) d k t).
Proof. unfold qdict_get_obj. destruct (qdict_get d k); [by destruct (decide _)|done]. Qed.

Lemma safe_get_type o : safe (fun _ => True) (token_get_type o).
Proof.
  eapply safe_bind; [apply safe_token_dict_of|]. intros d _.
  eapply safe_bind; [apply safe_get_obj|]. intros. apply safe_oget.
Qed.

Lemma safe_get_value o : safe (fun _ => True) (token_get_value o).
Proof.
  eapply safe_bind; [apply safe_token_dict_of|]. intros d _.
  eapply safe_bind; [apply safe_get_obj|]. intros. apply safe_oget.
Qed.

Lemma safe_is_operator o c : safe (fun _ => True) (token_is_operator o c).
Proof.
  eapply safe_bind; [apply safe_get_type|]. intros t _. destruct (negb _); [done|].
  eapply safe_bind; [apply safe_get_value|]. done.
Qed.

Lemma safe_is_keyword o c : safe (fun _ => True) (token_is_keyword o c).
Proof.
  eapply safe_bind; [apply safe_get_type|]. intros t _. destruct (negb _); [done|].
  eapply safe_bind; [apply safe_get_value|]. done.
Qed.

Lemma safe_is_escape o c : safe (fun _ => True) (token_is_escape o c).
Proof.
  eapply safe_bind; [apply safe_get_type|]. intros t _. destruct (negb _); [done|].
  eapply safe_bind; [apply safe_get_value|]. done.
Qed.

#[export] Hint Resolve safe_oget safe_get_type safe_get_value safe_is_operator
  safe_is_keyword safe_is_escape : parse.

(** One step over a token test or accessor that returns normally. *)
Ltac safe_step := eapply safe_bind; [solve [auto with parse]|]; intros ? _.

(** What a parsing function does to the tokens: never more than before, and fewer when it
    has found something. *)
Definition shrinks (len : nat) (r : option QObject * pstate) : Prop :=
  (length (ps_tokens (snd r)) <= len)%nat /\
  (fst r <> None -> (length (ps_tokens (snd r)) < len)%nat).

Definition good (fuel : nat) (p : parser) : Prop :=
  forall s, (length (ps_tokens s) < fuel)%nat -> safe (shrinks (length (ps_tokens s))) (p s).

Lemma length_pop l o rest : qlist_pop l = (o, rest) -> length rest = pred (length l).
Proof. destruct l; by intros [= _ <-]. Qed.

Lemma parse_pair_safe fuel p d s :
  good fuel p -> (length (ps_tokens s) < fuel)%nat ->
  safe (fun r => (length (ps_tokens (snd r)) <= length (ps_tokens s))%nat /\
                 (fst (fst r) = true -> (length (ps_tokens (snd r)) < length (ps_tokens s))%nat))
       (parse_pair p d s).
Proof.
  intros Hp Hlen. unfold parse_pair. rewrite qlist_copy_id.
  eapply safe_bind; [apply Hp; done|]. intros [key w] [Hw Hw']. simpl in Hw, Hw'.
  destruct key as [key|]; [|done]. simpl oget. cbn [obind].
  destruct (negb _); [simpl; split; [lia|done]|].
  destruct (qlist_pop (ps_tokens w)) as [token rest] eqn:E. apply length_pop in E.
  safe_step. destruct (negb _); [simpl; split; [lia|done]|].
  eapply safe_bind; [apply Hp; simpl in *; specialize (Hw' ltac:(done)); lia|].
  intros [v w2] [Hv _]. simpl in Hv. destruct v; [|simpl; split; [lia|done]].
  safe_step. simpl. specialize (Hw' ltac:(done)). split; [lia|]. intros _. lia.
Qed.

Lemma object_loop_safe fuel p n d token s :
  good n p -> (length (ps_tokens s) < n)%nat -> (length (ps_tokens s) < fuel)%nat ->
  safe (fun r => (length (ps_tokens (snd r)) <= length (ps_tokens s))%nat) (object_loop fuel p d token s).
Proof.
  intros Hp. revert d token s. induction fuel as [|fuel IH]; intros d token s Hn Hf; [lia|].
  cbn [object_loop]. safe_step. destruct a; [simpl; lia|].
  safe_step. destruct (negb _); [simpl; lia|].
  eapply safe_bind; [by apply (parse_pair_safe n)|].
  intros [[ok d'] s'] [Hs Hs']. simpl in Hs, Hs'. destruct ok; simpl negb; [|simpl; lia].
  specialize (Hs' eq_refl). destruct (qlist_pop (ps_tokens s')) as [tk rest] eqn:E. apply length_pop in E.
  eapply safe_weaken; [apply IH; simpl; lia|]. simpl. intros. lia.
Qed.

Lemma parse_object_safe n p : good n p -> good (S n) (parse_object n p).
Proof.
  intros Hp s Hs. unfold parse_object. rewrite qlist_copy_id.
  destruct (qlist_pop (ps_tokens s)) as [tk rest] eqn:E.
  destruct (ps_tokens s) as [|t0 ts] eqn:Ets; [by injection E as <- <-|]. injection E as <- <-.
  safe_step. destruct (negb _); [split; [simpl; rewrite Ets; done|done]|].
  simpl in Hs. safe_step. destruct (negb _).
  - eapply safe_bind; [apply (parse_pair_safe n); [done|simpl; lia]|].
    intros [[ok d'] w] [Hw Hw']. simpl in Hw, Hw'.
    destruct ok; simpl negb; [|split; [simpl; rewrite ?Ets; simpl; lia|done]].
    specialize (Hw' eq_refl). destruct (qlist_pop (ps_tokens w)) as [tk rest] eqn:E2. apply length_pop in E2.
    eapply safe_bind; [apply (object_loop_safe n p n); [done|simpl; lia..]|].
    intros [res w2] Hw2. simpl in Hw2. destruct res.
    + split; simpl; [lia|intros _; lia].
    + split; simpl; rewrite ?Ets; simpl; [lia|done].
  - destruct (qlist_pop _) as [tk rest] eqn:E2. apply length_pop in E2. simpl in E2.
    split; simpl; [lia|intros _; lia].
Qed.

Lemma array_loop_safe fuel p n l token s :
  good n p -> (length (ps_tokens s) < n)%nat -> (length (ps_tokens s) < fuel)%nat ->
  safe (fun r => (length (ps_tokens (snd r)) <= length (ps_tokens s))%nat) (array_loop fuel p l token s).
Proof.
  intros Hp. revert l token s. induction fuel as [|fuel IH]; intros l token s Hn Hf; [lia|].
  cbn [array_loop]. safe_step. destruct a; [simpl; lia|].
  safe_step. destruct (negb _); [simpl; lia|].
  eapply safe_bind; [by apply Hp|].
  intros [[o|] s'] [Hs Hs']; simpl in Hs, Hs'; [|simpl; lia].
  specialize (Hs' ltac:(done)). destruct (qlist_pop (ps_tokens s')) as [tk rest] eqn:E. apply length_pop in E.
  eapply safe_weaken; [apply IH; simpl; lia|]. simpl. intros. lia.
Qed.

Lemma parse_array_safe n p : good n p -> good (S n) (parse_array n p).
Proof.
  intros Hp s Hs. unfold parse_array. rewrite qlist_copy_id.
  destruct (qlist_pop (ps_tokens s)) as [tk rest] eqn:E.
  destruct (ps_tokens s) as [|t0 ts] eqn:Ets; [by injection E as <- <-|]. injection E as <- <-.
  safe_step. destruct (negb _); [split; [simpl; rewrite Ets; done|done]|].
  simpl in Hs. safe_step. destruct (negb _).
  - eapply safe_bind; [apply Hp; simpl; lia|].
    intros [[o|] w] [Hw Hw']; simpl in Hw, Hw'; [|split; simpl; rewrite ?Ets; simpl; [lia|done]].
    specialize (Hw' ltac:(done)). destruct (qlist_pop (ps_tokens w)) as [tk rest] eqn:E2. apply length_pop in E2.
    eapply safe_bind; [apply (array_loop_safe n p n); [done|simpl; lia..]|].
    intros [res w2] Hw2. simpl in Hw2. destruct res.
    + split; simpl; [lia|intros _; lia].
    + split; simpl; rewrite ?Ets; simpl; [lia|done].
  - destruct (qlist_pop _) as [tk rest] eqn:E2. apply length_pop in E2. simpl in E2.
    split; simpl; [lia|intros _; lia].
Qed.

(** The three rules that take one token at most. *)
Ltac one_token :=
  intros s _; rewrite ?qlist_copy_id; destruct (ps_tokens s) as [|t0 ts] eqn:Ets; simpl qlist_pop;
  repeat first
    [ done
    | match goal with
      | |- safe _ (Ret _) => split; simpl; rewrite ?Ets; simpl; (lia || (intros; lia) || done)
      | |- safe _ (if ?b then _ else _) => destruct b
      end
    | safe_step ].

Lemma parse_keyword_safe n : good n parse_keyword.
Proof. unfold parse_keyword. one_token. Qed.

Lemma parse_literal_safe strtod n : good n (parse_literal strtod).
Proof.
  unfold parse_literal. intros s _. rewrite qlist_copy_id.
  destruct (ps_tokens s) as [|t0 ts] eqn:Ets; [done|]. simpl qlist_pop. cbv beta iota.
  safe_step. destruct (_ =? _).
  { eapply (safe_bind (fun _ => True)); [|intros; split; simpl; lia].
    unfold qstring_from_escaped_str. safe_step. done. }
  destruct (_ =? _); [safe_step; split; simpl; lia|].
  destruct (_ =? _); [safe_step; split; simpl; lia|].
  split; simpl; rewrite ?Ets; simpl; [lia|done].
Qed.

Lemma parse_escape_safe n : good n parse_escape.
Proof.
  intros s _. unfold parse_escape. destruct (ps_ap s) as [ap|] eqn:Eap; [|split; simpl; [lia|done]].
  rewrite qlist_copy_id.
  destruct (ps_tokens s) as [|t0 ts] eqn:Ets; [done|]. simpl qlist_pop. cbv beta iota zeta.
  assert (forall f : va_val -> presult (option QObject), (forall v, safe (fun _ => True) (f v)) ->
    safe (shrinks (length (t0 :: ts)))
      (let! '(v, ap) := va_next ap in let! obj := f v in Ret (obj, PS ts (Some ap)))) as Htake.
  { intros f Hf. destruct ap as [|v ap]; [done|]. simpl.
    eapply safe_bind; [apply Hf|]. intros o _. split; simpl; lia. }
  repeat first
    [ safe_step
    | match goal with
      | |- safe _ (obind (if ?b then _ else _) _) => destruct b; [cbn [obind]|]
      | |- safe _ (if ?b then _ else _) => destruct b
      end ];
    try (apply Htake; intros []; done).
  split; simpl; rewrite ?Ets; simpl; [lia|done].
Qed.

Lemma or_else_safe n (p q : parser) : good n p -> good n q -> good n (fun s => or_else (p s) q).
Proof.
  intros Hp Hq s Hs. unfold or_else. eapply safe_bind; [by apply Hp|].
  intros [[o|] s'] [H1 H2]; simpl in H1, H2; [done|].
  eapply safe_weaken; [apply Hq; lia|]. intros [o s''] [H3 H4]. split; simpl in *; [lia|].
  intros Ho. specialize (H4 Ho). lia.
Qed.

Lemma parse_value_good strtod fuel : good fuel (parse_value strtod fuel).
Proof.
  induction fuel as [|n IH]; [intros s Hs; lia|].
  cbn [parse_value].
  repeat (apply or_else_safe;
    eauto using parse_object_safe, parse_array_safe, parse_escape_safe, parse_keyword_safe, parse_literal_safe).
Qed.

(** ** Properties *)

(** C13. The parser terminates: [json_parser_parse] on any list of token objects, well
    formed or not, with or without variadic arguments, ends with an object, with NULL, or
    at a NULL dereference, with a recursion depth of at most the number of tokens. *)
Theorem parser_terminates strtod tokens ap :
  json_parser_parse strtod tokens ap <> Throw OutOfFuel.
Proof.
  unfold json_parser_parse. rewrite qlist_copy_id.
  pose proof (parse_value_good strtod (S (length tokens)) (PS tokens ap)) as H.
  simpl ps_tokens in H. specialize (H ltac:(lia)).
  destruct (parse_value _ _ _) as [[? ?]|[]|]; simpl; done.
Qed.
