(* ===== verification/QJson.v ===== *)
(** * JSON text to objects and back: qjson.c

    [qobject_from_json] runs the streamer over the text and hands each complete message to
    the parser; [qobject_to_json] prints an object.  The formatting of a [double] by
    [snprintf] and its parsing by [strtod] are parameters. *)

From S2P Require Import Prelude QObject JsonLexer JsonParser.
From Stdlib Require Import Ascii.
From stdpp Require Import gmap list strings.

Open Scope Z_scope.

Section QJson.

Variable strtod : cstring -> Z.
(** [snprintf("%f")] of the [double] with the given bits. *)
Variable format_f : Z -> cstring.

(** ** Parsing *)

(** [parse_json] is called for every message; the last one wins, the arguments advance. *)
Fixpoint parse_messages (msgs : list (list QObject)) (ap : option va_list) (result : option QObject)
  : presult (option QObject) :=
  match msgs with
  | [] => Ret result
  | tokens :: msgs =>
      let! '(result, ap) := json_parser_parse strtod tokens ap in
      parse_messages msgs ap result
  end.

(** The return codes of [feed] and [flush] are ignored. *)
Definition qobject_from_jsonv (string : cstring) (ap : option va_list) : presult (option QObject) :=
  let parser := json_message_parser_init in
  let '(parser, outs1, _) := json_message_parser_feed parser string in
  let '(_, outs2, _) := json_message_parser_flush parser in
  parse_messages (outs1 ++ outs2) ap None.

Definition qobject_from_json (string : cstring) : presult (option QObject) :=
  qobject_from_jsonv string None.

Definition qobject_from_jsonf (string : cstring) (args : va_list) : presult (option QObject) :=
  qobject_from_jsonv string (Some args).

(** ** Printing *)

(** [snprintf("%lld")]. *)
Fixpoint dec_digits (fuel : nat) (n : Z) (acc : cstring) : cstring :=
  match fuel with
  | O => acc
  | S fuel =>
      let acc := (chr "0" + n mod 10) :: acc in
      if n <? 10 then acc else dec_digits fuel (n / 10) acc
  end.

Definition format_d (n : Z) : cstring :=
  if n <? 0 then chr "-" :: dec_digits 20 (- n) [] else dec_digits 20 n [].

Definition hex_digit (d : Z) : Z := if d <? 10 then chr "0" + d else chr "A" + (d - 10).

(** [snprintf("\\u%04X", wchar)] of a 16-bit value. *)
Definition u_escape (wchar : Z) : cstring :=
  [92; chr "u";
   hex_digit (Z.land (Z.shiftr wchar 12) 15); hex_digit (Z.land (Z.shiftr wchar 8) 15);
   hex_digit (Z.land (Z.shiftr wchar 4) 15); hex_digit (Z.land wchar 15)].

Definition bit7 (c : Z) : bool := negb (Z.land c 0x80 =? 0).

(** The [switch] on a single character. *)
Definition char_escape (c : Z) : cstring :=
  if c =? 34 then [92; 34]
  else if c =? 92 then [92; 92]
  else if c =? 8 then [92; chr "b"]
  else if c =? 10 then [92; chr "n"]
  else if c =? 13 then [92; chr "r"]
  else if c =? 9 then [92; chr "t"]
  else [c].

(** The loop over the string; [ptr[1]] and [ptr[2]] are only looked at when the bytes
    before them are not NUL. *)
Fixpoint escape_string (ptr : cstring) : cstring :=
  match ptr with
  | [] => []
  | c0 :: ptr1 =>
      match ptr1 with
      | c1 :: ptr2 =>
          match ptr2 with
          | c2 :: ptr3 =>
              if (Z.land c0 0xE0 =? 0xE0) && bit7 c1 && bit7 c2 then
                u_escape (Z.lor (Z.lor (Z.shiftl (Z.land c0 0x0F) 12) (Z.shiftl (Z.land c1 0x3F) 6))
                                (Z.land c2 0x3F)) ++ escape_string ptr3
              else if (Z.land c0 0xE0 =? 0xC0) && bit7 c1 then
                u_escape (Z.lor (Z.shiftl (Z.land c0 0x1F) 6) (Z.land c1 0x3F)) ++ escape_string ptr2
              else char_escape c0 ++ escape_string ptr1
          | [] =>
              if (Z.land c0 0xE0 =? 0xC0) && bit7 c1 then
                u_escape (Z.lor (Z.shiftl (Z.land c0 0x1F) 6) (Z.land c1 0x3F)) ++ escape_string ptr2
              else char_escape c0 ++ escape_string ptr1
          end
      | [] => char_escape c0 ++ escape_string ptr1
      end
  end.

Definition quote_string (s : cstring) : cstring := [34] ++ escape_string s ++ [34].

(** The trailing zeros of "%f" go, and a trailing point with them. *)
Fixpoint strip_zeros (rev_buffer : cstring) : cstring :=
  match rev_buffer with
  | c :: r => if c =? chr "0" then strip_zeros r else rev_buffer
  | [] => []
  end.

Definition trim_float (buffer : cstring) : cstring :=
  match strip_zeros (rev buffer) with
  | c :: r => if c =? chr "." then rev r else rev (c :: r)
  | [] => []
  end.

(** [ToJsonIterState]: the count and the string. *)
Definition sep (s : Z * cstring) : cstring := if fst s =? 0 then snd s else snd s ++ str ", ".

Fixpoint to_json (obj : QObject) (s : cstring) : cstring :=
  match obj with
  | QInt v => s ++ format_d v
  | QString t => s ++ quote_string t
  | QDict d =>
      let s := s ++ str "{" in
      let s := snd (qdict_iter d (fun key obj st =>
                 let s := sep st in
                 let s := s ++ quote_string key in
                 let s := s ++ str ": " in
                 (fst st + 1, to_json obj s)) (0, s)) in
      s ++ str "}"
  | QList l =>
      let s := s ++ str "[" in
      let s := snd (qlist_iter l (fun obj st => (fst st + 1, to_json obj (sep st))) (0, s)) in
      s ++ str "]"
  | QFloat v => s ++ trim_float (format_f v)
  | QBool v => s ++ (if negb (v =? 0) then str "true" else str "false")
  | QError => s
  end.

Definition qobject_to_json (obj : QObject) : cstring := to_json obj [].

End QJson.
