(* ===== verification/JsonRoundTrip.v ===== *)
(** * Printing an object and parsing the text gives the object back

    The proof follows the pipeline: the printed text as a list of lexemes, the lexer's
    emissions, the streamer's single message, the parser's result.  [rebuild] is what the
    parser returns: the same object with every dictionary filled anew in iteration order,
    which is the same finite map. *)

From S2P Require Import Prelude QObject JsonLexer JsonParser QJson.
From Stdlib Require Import Ascii.
From stdpp Require Import gmap list strings.

Open Scope Z_scope.

(** ** Strings *)

(** UTF-8 text in the basic multilingual plane without NUL and without a backslash. *)
Inductive utf8_text : cstring -> Prop :=
| utf8_nil : utf8_text []
| utf8_1 c s : 0 < c < 0x80 -> c <> 92 -> utf8_text s -> utf8_text (c :: s)
| utf8_2 c0 c1 s : 0xC2 <= c0 <= 0xDF -> 0x80 <= c1 <= 0xBF -> utf8_text s -> utf8_text (c0 :: c1 :: s)
| utf8_3 c0 c1 c2 s :
    0xE0 <= c0 <= 0xEF -> 0x80 <= c1 <= 0xBF -> 0x80 <= c2 <= 0xBF -> (c0 = 0xE0 -> 0xA0 <= c1) ->
    utf8_text s -> utf8_text (c0 :: c1 :: c2 :: s).

(** The 16-bit values the printer computes for two and three bytes. *)
Definition wchar2 (c0 c1 : Z) : Z := Z.lor (Z.shiftl (Z.land c0 0x1F) 6) (Z.land c1 0x3F).
Definition wchar3 (c0 c1 c2 : Z) : Z :=
  Z.lor (Z.lor (Z.shiftl (Z.land c0 0x0F) 12) (Z.shiftl (Z.land c1 0x3F) 6)) (Z.land c2 0x3F).

Lemma escape_string_1 c s :
  0 < c < 0x80 -> escape_string (c :: s) = char_escape c ++ escape_string s.
Proof.
  intros Hc.
  assert (negb (Z.land c 0xE0 =? 0xE0) && negb (Z.land c 0xE0 =? 0xC0) = true) as H.
  { apply (range_check (fun c => negb (Z.land c 0xE0 =? 0xE0) && negb (Z.land c 0xE0 =? 0xC0)) 0 128); [|lia].
    vm_compute. reflexivity. }
  apply andb_true_iff in H as [H1%negb_true_iff H2%negb_true_iff].
  cbn [escape_string]. rewrite H1, H2. simpl. by destruct s as [|? [|? ?]].
Qed.

Lemma escape_string_2 c0 c1 s :
  0xC2 <= c0 <= 0xDF -> 0x80 <= c1 <= 0xBF ->
  escape_string (c0 :: c1 :: s) = u_escape (wchar2 c0 c1) ++ escape_string s.
Proof.
  intros H0 H1.
  assert (negb (Z.land c0 0xE0 =? 0xE0) && (Z.land c0 0xE0 =? 0xC0) = true) as H.
  { apply (range_check (fun c => negb (Z.land c 0xE0 =? 0xE0) && (Z.land c 0xE0 =? 0xC0)) 0xC2 30); [|lia].
    vm_compute. reflexivity. }
  assert (bit7 c1 = true) as Hb by (apply (range_check bit7 0x80 64); [vm_compute; reflexivity|lia]).
  apply andb_true_iff in H as [Ha%negb_true_iff Hc].
  cbn [escape_string]. rewrite Ha, Hc, Hb. by destruct s.
Qed.

Lemma escape_string_3 c0 c1 c2 s :
  0xE0 <= c0 <= 0xEF -> 0x80 <= c1 <= 0xBF -> 0x80 <= c2 <= 0xBF ->
  escape_string (c0 :: c1 :: c2 :: s) = u_escape (wchar3 c0 c1 c2) ++ escape_string s.
Proof.
  intros H0 H1 H2.
  assert ((Z.land c0 0xE0 =? 0xE0) = true) as Ha.
  { apply (range_check (fun c => Z.land c 0xE0 =? 0xE0) 0xE0 16); [vm_compute; reflexivity|lia]. }
  assert (bit7 c1 = true) as Hb by (apply (range_check bit7 0x80 64); [vm_compute; reflexivity|lia]).
  assert (bit7 c2 = true) as Hc by (apply (range_check bit7 0x80 64); [vm_compute; reflexivity|lia]).
  cbn [escape_string]. by rewrite Ha, Hb, Hc.
Qed.

(** *** The lexer over an escaped string *)
Fixpoint pathb (s : json_lexer_state) (w : list Z) : option json_lexer_state :=
  match w with
  | [] => Some s
  | c :: w => if negb (c =? 0) && inner (json_lexer s c) then pathb (json_lexer s c) w else None
  end.

Lemma pathb_path s w s' : pathb s w = Some s' -> path s w s'.
Proof.
  revert s. induction w as [|c w IH]; intros s; simpl; [by intros [= ->]|].
  destruct (negb (c =? 0) && inner (json_lexer s c)) eqn:E; [|done].
  intros HP. bool_hyps. split_and!; auto.
Qed.

Definition is_dq (o : option json_lexer_state) : bool :=
  match o with Some IN_DQ_STRING => true | _ => false end.

Lemma is_dq_path s w : is_dq (pathb s w) = true -> path s w IN_DQ_STRING.
Proof. intros H. apply pathb_path. destruct (pathb s w) as [[]|]; done. Qed.

Lemma path_char_escape c :
  0 < c < 0x80 -> c <> 92 -> path IN_DQ_STRING (char_escape c) IN_DQ_STRING.
Proof.
  intros Hc Hb. apply is_dq_path.
  assert ((c =? 92) || is_dq (pathb IN_DQ_STRING (char_escape c)) = true) as H.
  { apply (range_check (fun c => (c =? 92) || is_dq (pathb IN_DQ_STRING (char_escape c))) 1 127); [|lia].
    vm_compute. reflexivity. }
  apply orb_true_iff in H as [H|H]; [bool_hyps; lia|done].
Qed.

Lemma land15_range x : 0 <= Z.land x 15 < 16.
Proof. change 15 with (Z.ones 4). rewrite Z.land_ones by lia. by apply Z.mod_pos_bound. Qed.

Lemma hex_digit_ok d : 0 <= d < 16 ->
  is_hex (hex_digit d) = true /\ hex_digit d <> 0 /\ hex2decimal (hex_digit d) = d.
Proof.
  intros Hd.
  assert (is_hex (hex_digit d) && negb (hex_digit d =? 0) && (hex2decimal (hex_digit d) =? d) = true) as H.
  { apply (range_check (fun d => is_hex (hex_digit d) && negb (hex_digit d =? 0) && (hex2decimal (hex_digit d) =? d)) 0 16);
      [vm_compute; reflexivity|lia]. }
  bool_hyps. auto.
Qed.

Lemma path_u_escape w : path IN_DQ_STRING (u_escape w) IN_DQ_STRING.
Proof.
  unfold u_escape.
  change (path IN_DQ_STRING ([92; chr "u"] ++
    [hex_digit (Z.land (Z.shiftr w 12) 15); hex_digit (Z.land (Z.shiftr w 8) 15);
     hex_digit (Z.land (Z.shiftr w 4) 15); hex_digit (Z.land w 15)]) IN_DQ_STRING).
  apply path_app with IN_DQ_UCODE0; [by apply pathb_path|].
  destruct (hex_digit_ok _ (land15_range (Z.shiftr w 12))) as (H1 & H1' & _).
  destruct (hex_digit_ok _ (land15_range (Z.shiftr w 8))) as (H2 & H2' & _).
  destruct (hex_digit_ok _ (land15_range (Z.shiftr w 4))) as (H3 & H3' & _).
  destruct (hex_digit_ok _ (land15_range w)) as (H4 & H4' & _).
  cbn [path]. unfold json_lexer, hex_to. rewrite H1, H2, H3, H4.
  split_and!; done.
Qed.

Lemma path_escape_string s :
  utf8_text s -> path IN_DQ_STRING (escape_string s) IN_DQ_STRING.
Proof.
  induction 1.
  - done.
  - rewrite escape_string_1 by done. eauto using path_app, path_char_escape.
  - rewrite escape_string_2 by done. eauto using path_app, path_u_escape.
  - rewrite escape_string_3 by done. eauto using path_app, path_u_escape.
Qed.

Lemma path_quote_string s : utf8_text s -> path IN_START (quote_string s) IN_DONE_STRING.
Proof.
  intros Hs. unfold quote_string. apply path_app with IN_DQ_STRING; [by apply pathb_path|].
  eapply path_app; [by apply path_escape_string|by apply pathb_path].
Qed.

(** *** The parser's unescaping undoes the printer's escaping *)
Lemma unescape_char c t acc :
  0 < c < 0x80 -> c <> 92 -> unescape 34 (char_escape c ++ t) acc = unescape 34 t (acc ++ [c]).
Proof.
  intros Hc Hb. unfold char_escape.
  repeat match goal with
  | |- context [c =? ?k] => destruct (Z.eqb_spec c k) as [->|?]; [first [done|reflexivity]|]
  end.
  cbn [app unescape]. by rewrite !(proj2 (Z.eqb_neq _ _)) by done.
Qed.

Lemma nibbles w : 0 <= w < 65536 ->
  Z.lor (Z.lor (Z.lor (Z.shiftl (Z.land (Z.shiftr w 12) 15) 12) (Z.shiftl (Z.land (Z.shiftr w 8) 15) 8))
               (Z.shiftl (Z.land (Z.shiftr w 4) 15) 4)) (Z.land w 15) = w.
Proof.
  intros Hw. apply Z.eqb_eq.
  apply (range_check (fun w => Z.lor (Z.lor (Z.lor (Z.shiftl (Z.land (Z.shiftr w 12) 15) 12)
    (Z.shiftl (Z.land (Z.shiftr w 8) 15) 8)) (Z.shiftl (Z.land (Z.shiftr w 4) 15) 4)) (Z.land w 15) =? w) 0 65536);
    [vm_compute; reflexivity|lia].
Qed.

Lemma unescape_u w t acc :
  0 <= w < 65536 ->
  unescape 34 (u_escape w ++ t) acc = unescape 34 t (append_utf8 acc (wchar_to_utf8 w)).
Proof.
  intros Hw. unfold u_escape. cbn [app].
  destruct (hex_digit_ok _ (land15_range (Z.shiftr w 12))) as (H1 & _ & H1').
  destruct (hex_digit_ok _ (land15_range (Z.shiftr w 8))) as (H2 & _ & H2').
  destruct (hex_digit_ok _ (land15_range (Z.shiftr w 4))) as (H3 & _ & H3').
  destruct (hex_digit_ok _ (land15_range w)) as (H4 & _ & H4').
  cbn [unescape]. change (92 =? 34) with false. change (92 =? 92) with true.
  change (simple_escape (chr "u")) with (@None Z). change (chr "u" =? chr "u") with true.
  cbv iota. rewrite H1, H2, H3, H4, H1', H2', H3', H4'. cbn [andb].
  by rewrite nibbles by done.
Qed.

Definition utf8_2_ok (c0 c1 : Z) : bool :=
  (0 <=? wchar2 c0 c1) && (wchar2 c0 c1 <? 65536) &&
  bool_decide (append_utf8 [] (wchar_to_utf8 (wchar2 c0 c1)) = [c0; c1]).

Lemma utf8_2_check c0 c1 : 0xC2 <= c0 <= 0xDF -> 0x80 <= c1 <= 0xBF -> utf8_2_ok c0 c1 = true.
Proof.
  intros H0 H1.
  assert (forallZ (utf8_2_ok c0) 0x80 (Z.to_nat 64) = true) as H.
  { apply (range_check (fun c0 => forallZ (utf8_2_ok c0) 0x80 (Z.to_nat 64)) 0xC2 30); [vm_compute; reflexivity|lia]. }
  by apply (range_check _ _ _ H); lia.
Qed.

Definition utf8_3_ok (c0 c1 c2 : Z) : bool :=
  ((c0 =? 0xE0) && (c1 <? 0xA0)) ||
  (0 <=? wchar3 c0 c1 c2) && (wchar3 c0 c1 c2 <? 65536) &&
  bool_decide (append_utf8 [] (wchar_to_utf8 (wchar3 c0 c1 c2)) = [c0; c1; c2]).

Lemma utf8_3_check c0 c1 c2 :
  0xE0 <= c0 <= 0xEF -> 0x80 <= c1 <= 0xBF -> 0x80 <= c2 <= 0xBF -> utf8_3_ok c0 c1 c2 = true.
Proof.
  intros H0 H1 H2.
  assert (forallZ (fun c1 => forallZ (utf8_3_ok c0 c1) 0x80 (Z.to_nat 64)) 0x80 (Z.to_nat 64) = true) as H.
  { apply (range_check (fun c0 => forallZ (fun c1 => forallZ (utf8_3_ok c0 c1) 0x80 (Z.to_nat 64)) 0x80 (Z.to_nat 64)) 0xE0 16);
      [vm_compute; reflexivity|lia]. }
  pose proof (range_check _ _ _ H c1 ltac:(lia)) as H'. cbv beta in H'.
  by apply (range_check _ _ _ H'); lia.
Qed.

Lemma append_utf8_app acc bs : append_utf8 acc bs = acc ++ append_utf8 [] bs.
Proof. done. Qed.

Lemma unescape_escape_string s t acc :
  utf8_text s -> unescape 34 (escape_string s ++ t) acc = unescape 34 t (acc ++ s).
Proof.
  intros H. revert acc. induction H as [|c s Hc Hb H IH|c0 c1 s H0 H1 H IH|c0 c1 c2 s H0 H1 H2 He H IH]; intros acc.
  - by rewrite app_nil_r.
  - rewrite escape_string_1, <- app_assoc, unescape_char, IH, <- app_assoc by done. done.
  - pose proof (utf8_2_check c0 c1 H0 H1) as Hok. unfold utf8_2_ok in Hok. bool_hyps.
    apply bool_decide_eq_true in H3 as E.
    rewrite escape_string_2, <- app_assoc, unescape_u, append_utf8_app, E, IH, <- app_assoc by (done || lia). done.
  - pose proof (utf8_3_check c0 c1 c2 H0 H1 H2) as Hok. unfold utf8_3_ok in Hok.
    apply orb_true_iff in Hok as [Hok|Hok]; bool_hyps; [lia|].
    match goal with E : bool_decide _ = true |- _ => apply bool_decide_eq_true in E; rename E into E3 end.
    rewrite escape_string_3, <- app_assoc, unescape_u, append_utf8_app, E3, IH, <- app_assoc by (done || lia). done.
Qed.

Lemma unescape_quote_string s :
  utf8_text s -> unescape 34 (tail (quote_string s)) [] = Some s.
Proof. intros Hs. simpl. rewrite unescape_escape_string by done. done. Qed.

(** ** Integers *)
Lemma strtoll_dec_digits f n acc :
  0 <= n < 10 ^ Z.of_nat f -> strtoll_digits (dec_digits f n acc) 0 = strtoll_digits acc n.
Proof.
  revert n acc. induction f as [|f IH]; intros n acc Hn.
  { replace n with 0 by (simpl in Hn; lia). done. }
  assert (is_digit (chr "0" + n mod 10) = true) as Hd.
  { pose proof (Z.mod_pos_bound n 10 ltac:(lia)). unfold is_digit, in_range.
    change (chr "0") with 48. change (chr "9") with 57. apply andb_true_iff. rewrite !Z.leb_le. lia. }
  rewrite Nat2Z.inj_succ, Z.pow_succ_r in Hn by lia.
  pose proof (Z.div_mod n 10 ltac:(lia)) as Hdm.
  cbn [dec_digits]. destruct (n <? 10) eqn:E; bool_hyps.
  - cbn [strtoll_digits]. rewrite Hd. f_equal. rewrite Z.mod_small by lia. lia.
  - rewrite IH by (split; [apply Z.div_pos; lia|apply Z.div_lt_upper_bound; lia]).
    cbn [strtoll_digits]. rewrite Hd. f_equal. lia.
Qed.

Lemma dec_digits_head f n acc :
  0 < n < 10 ^ Z.of_nat f ->
  exists d ds, dec_digits f n acc = d :: ds ++ acc /\ in_range (chr "1") (chr "9") d = true /\
    Forall (fun c => is_digit c = true) ds.
Proof.
  revert n acc. induction f as [|f IH]; intros n acc Hn; [simpl in Hn; lia|].
  rewrite Nat2Z.inj_succ, Z.pow_succ_r in Hn by lia.
  cbn [dec_digits]. destruct (n <? 10) eqn:E; bool_hyps.
  - eexists _, []. split; [reflexivity|]. split; [|constructor].
    rewrite Z.mod_small by lia. unfold in_range. change (chr "0") with 48. change (chr "1") with 49.
    change (chr "9") with 57. apply andb_true_iff. rewrite !Z.leb_le. lia.
  - destruct (IH (n / 10) ((chr "0" + n mod 10) :: acc)) as (d & ds & -> & Hd & Hds).
    { split; [apply Z.div_str_pos; lia|apply Z.div_lt_upper_bound; lia]. }
    exists d, (ds ++ [chr "0" + n mod 10]). split; [by rewrite <- app_assoc|]. split; [done|].
    apply Forall_app. split; [done|]. apply Forall_singleton.
    pose proof (Z.mod_pos_bound n 10 ltac:(lia)). unfold is_digit, in_range.
    change (chr "0") with 48. change (chr "9") with 57. apply andb_true_iff. rewrite !Z.leb_le. lia.
Qed.

Lemma path_digits ds :
  Forall (fun c => is_digit c = true) ds -> path IN_NONZERO_NUMBER ds IN_NONZERO_NUMBER.
Proof.
  induction 1 as [|c ds Hc _ IH]; [done|]. cbn [path].
  assert (json_lexer IN_NONZERO_NUMBER c = IN_NONZERO_NUMBER) as E by (unfold json_lexer; by rewrite Hc).
  rewrite E. split_and!; [|done..]. intros ->. discriminate Hc.
Qed.

(** A nonzero digit starts a number, also after a minus sign. *)
Lemma nonzero_digit_start d :
  in_range (chr "1") (chr "9") d = true ->
  json_lexer IN_START d = IN_NONZERO_NUMBER /\ json_lexer IN_NEG_NONZERO_NUMBER d = IN_NONZERO_NUMBER /\
  d <> 0 /\ is_digit d = true /\ (49 <= d <= 57).
Proof.
  intros H. pose proof H as H'. unfold in_range in H'. change (chr "1") with 49 in H'.
  change (chr "9") with 57 in H'. bool_hyps.
  assert (is_digit d = true) as Hd.
  { unfold is_digit, in_range. change (chr "0") with 48. change (chr "9") with 57.
    apply andb_true_iff. rewrite !Z.leb_le. lia. }
  unfold json_lexer. rewrite H. change (chr "0") with 48.
  rewrite !(proj2 (Z.eqb_neq _ _)) by lia. split_and!; (done || lia).
Qed.

Lemma path_format_d v :
  is_s 64 v -> exists s, path IN_START (format_d v) s /\ (s = IN_ZERO \/ s = IN_NONZERO_NUMBER).
Proof.
  intros Hv. unfold is_s in Hv. change (2 ^ (64 - 1)) with 9223372036854775808 in Hv. unfold format_d.
  destruct (v <? 0) eqn:E; bool_hyps.
  - destruct (dec_digits_head 20 (- v) []) as (d & ds & -> & Hd & Hds); [lia|].
    destruct (nonzero_digit_start d Hd) as (_ & E1 & Hd0 & _). rewrite app_nil_r.
    exists IN_NONZERO_NUMBER. split; [|auto]. cbn [path].
    change (json_lexer IN_START (chr "-")) with IN_NEG_NONZERO_NUMBER. rewrite E1.
    split_and!; try done. by apply path_digits.
  - destruct (Z.eq_dec v 0) as [->|Hv0]; [exists IN_ZERO; split; [by apply pathb_path|auto]|].
    destruct (dec_digits_head 20 v []) as (d & ds & -> & Hd & Hds); [lia|].
    destruct (nonzero_digit_start d Hd) as (E1 & _ & Hd0 & _). rewrite app_nil_r.
    exists IN_NONZERO_NUMBER. split; [|auto]. cbn [path]. rewrite E1.
    split_and!; try done. by apply path_digits.
Qed.

Lemma strtoll_format_d v : is_s 64 v -> strtoll (format_d v) = v.
Proof.
  intros Hv. unfold is_s in Hv. change (2 ^ (64 - 1)) with 9223372036854775808 in Hv.
  unfold format_d. destruct (v <? 0) eqn:E; bool_hyps.
  - change (saturate64 (- strtoll_digits (dec_digits 20 (- v) []) 0) = v).
    rewrite strtoll_dec_digits by lia. unfold saturate64. simpl strtoll_digits. lia.
  - destruct (Z.eq_dec v 0) as [->|Hv0]; [reflexivity|].
    pose proof (strtoll_dec_digits 20 v [] ltac:(lia)) as Hs. simpl strtoll_digits at 2 in Hs.
    destruct (dec_digits_head 20 v []) as (d & ds & Ed & Hd & _); [lia|]. rewrite Ed in *.
    destruct (nonzero_digit_start d Hd) as (_ & _ & _ & _ & Hr). cbn [strtoll app].
    rewrite !(proj2 (Z.eqb_neq _ _)) by (try change (chr "-") with 45; try change (chr "+") with 43; lia).
    rewrite (proj2 (Z.leb_gt d 13)) by lia. rewrite andb_false_r. cbn [orb].
    cbn [app] in Hs. rewrite Hs. unfold saturate64. lia.
Qed.

(** ** The printed text as lexemes *)
Definition op (c : Ascii.ascii) : lexeme := (JSON_OPERATOR, [chr c]).
Definition space : lexeme := (JSON_SKIP, [32]).

Definition joins (ls : list (list lexeme)) : list lexeme :=
  concat (map (fun l => op "," :: space :: l) ls).
Definition join (ls : list (list lexeme)) : list lexeme :=
  match ls with [] => [] | l :: ls => l ++ joins ls end.

Definition key_lexemes (k : cstring) : list lexeme := [(JSON_STRING, quote_string k); op ":"; space].

Fixpoint lexemes (o : QObject) : list lexeme :=
  match o with
  | QInt v => [(JSON_INTEGER, format_d v)]
  | QString s => [(JSON_STRING, quote_string s)]
  | QBool v => [(JSON_KEYWORD, if negb (v =? 0) then str "true" else str "false")]
  | QList l => op "[" :: join (map lexemes l) ++ [op "]"]
  | QDict d =>
      op "{" :: join (concat (map (map (fun e => key_lexemes (fst e) ++ lexemes (snd e))) (qd_table d)))
             ++ [op "}"]
  | QFloat _ | QError => []
  end.

Definition entry_lexemes (e : cstring * QObject) : list lexeme := key_lexemes (fst e) ++ lexemes (snd e).

Lemma lexemes_dict d : lexemes (QDict d) = op "{" :: join (map entry_lexemes (entries d)) ++ [op "}"].
Proof. cbn [lexemes]. unfold entries. by rewrite concat_map. Qed.

(** The objects the round trip is about: 64-bit integers, text without a backslash, no
    floats; dictionaries are well formed. *)
Inductive json_ok : QObject -> Prop :=
| ok_int v : is_s 64 v -> json_ok (QInt v)
| ok_string s : utf8_text s -> json_ok (QString s)
| ok_bool v : json_ok (QBool v)
| ok_list l : (forall x, x ∈ l -> json_ok x) -> json_ok (QList l)
| ok_dict d :
    qdict_wf d -> (forall k v, (k, v) ∈ entries d -> utf8_text k) ->
    (forall k v, (k, v) ∈ entries d -> json_ok v) -> json_ok (QDict d).

(** *** The printer prints the lexemes *)
Lemma fold_print {A} (print : A -> cstring -> cstring) (L : A -> list lexeme) l :
  (forall x, x ∈ l -> forall s, print x s = s ++ texts (L x)) -> forall n s, 0 < n ->
  snd (fold_left (fun st x => (fst st + 1, print x (sep st))) l (n, s)) = s ++ texts (joins (map L l)).
Proof.
  induction l as [|x l IH]; intros Hx n s Hn; [by rewrite app_nil_r|].
  cbn [fold_left map]. unfold joins. cbn [map concat]. rewrite IH by (simpl; first [lia|intros; apply Hx; set_solver]).
  unfold sep at 1. cbn [fst snd]. rewrite (proj2 (Z.eqb_neq _ _)) by lia.
  rewrite Hx by set_solver. rewrite texts_app. fold (joins (map L l)).
  rewrite !app_assoc. rewrite <- (app_assoc s). do 2 f_equal.
Qed.

Lemma fold_print_0 {A} (print : A -> cstring -> cstring) (L : A -> list lexeme) l :
  (forall x, x ∈ l -> forall s, print x s = s ++ texts (L x)) -> forall s,
  snd (fold_left (fun st x => (fst st + 1, print x (sep st))) l (0, s)) = s ++ texts (join (map L l)).
Proof.
  destruct l as [|x l]; intros Hx s; [by rewrite app_nil_r|].
  cbn [fold_left map join]. rewrite (fold_print _ L) by (simpl; first [lia|intros; apply Hx; set_solver]).
  unfold sep. cbn [fst snd]. change (0 =? 0) with true. cbv iota. rewrite Hx by set_solver.
  by rewrite texts_app, app_assoc.
Qed.

Lemma to_json_texts format_f o s : json_ok o -> to_json format_f o s = s ++ texts (lexemes o).
Proof.
  intros Ho. revert s. induction Ho as [v Hv|t Ht|v|l Hl IH|d Hwf Hk Hv IH]; intros s.
  - unfold texts. simpl. by rewrite app_nil_r.
  - unfold texts. simpl. by rewrite app_nil_r.
  - unfold texts. simpl. by rewrite app_nil_r.
  - cbn [to_json lexemes]. unfold qlist_iter.
    rewrite (fold_print_0 (to_json format_f) lexemes) by done.
    rewrite (texts_app [op "["] _ : texts (op "[" :: _) = _), texts_app, !app_assoc. done.
  - rewrite lexemes_dict. cbn [to_json]. rewrite qdict_iter_entries.
    rewrite (fold_print_0 (fun e s => to_json format_f (snd e) ((s ++ quote_string (fst e)) ++ str ": ")) entry_lexemes).
    { rewrite (texts_app [op "{"] _ : texts (op "{" :: _) = _), texts_app, !app_assoc. done. }
    intros [k v] He s'. cbn [fst snd]. rewrite (IH k v He). unfold entry_lexemes. rewrite texts_app.
    cbn [fst snd]. rewrite !app_assoc. f_equal. rewrite <- app_assoc. done.
Qed.

(** *** The lexer splits the text at the lexemes

    [stops t c]: the character [c] ends a lexeme of type [t] in any of its final states. *)
Definition ascii7 (c : Z) : bool := in_range 0 0x7F c.

Definition stops (t : JSONTokenType) (c : Z) : bool :=
  ascii7 c &&
  match t with
  | JSON_OPERATOR | JSON_STRING => true
  | JSON_SKIP => negb (is_blank c)
  | JSON_KEYWORD => negb (is_lower c)
  | JSON_INTEGER => negb (is_digit c) && negb ((c =? chr "e") || (c =? chr "E")) && negb (c =? chr ".")
  | _ => false
  end.

Inductive final : JSONTokenType -> json_lexer_state -> Prop :=
| final_op : final JSON_OPERATOR IN_OPERATOR_DONE
| final_string : final JSON_STRING IN_DONE_STRING
| final_skip : final JSON_SKIP IN_WHITESPACE
| final_keyword : final JSON_KEYWORD IN_KEYWORD
| final_zero : final JSON_INTEGER IN_ZERO
| final_number : final JSON_INTEGER IN_NONZERO_NUMBER.

Lemma stops_final t s c : final t s -> stops t c = true -> json_lexer s c = TOK t.
Proof.
  intros Hf Hs. unfold stops, ascii7 in Hs. apply andb_true_iff in Hs as [Ha Hs].
  destruct Hf; unfold json_lexer, TERMINAL; rewrite Ha; try done;
    repeat (apply andb_true_iff in Hs as [Hs ?]); rewrite ?negb_true_iff in *;
    repeat match goal with E : _ = false |- _ => rewrite E; clear E end; done.
Qed.

Definition lexeme_ok (l : lexeme) : Prop :=
  snd l <> [] /\ exists s, path IN_START (snd l) s /\ final (fst l) s.

(** [seg t ls t']: after a lexeme of type [t], the lexemes [ls] follow one another, the
    last one (if any) being of type [t']. *)
Inductive seg : JSONTokenType -> list lexeme -> JSONTokenType -> Prop :=
| seg_nil t : seg t [] t
| seg_cons t l ls t' :
    lexeme_ok l -> stops t (default 0 (head (snd l))) = true -> seg (fst l) ls t' -> seg t (l :: ls) t'.

Lemma seg_app t ls1 t1 ls2 t2 : seg t ls1 t1 -> seg t1 ls2 t2 -> seg t (ls1 ++ ls2) t2.
Proof. induction 1; simpl; eauto using seg_cons. Qed.

Lemma seg_chain t ls t' s : seg t ls t' -> final t s -> stops t' 0 = true -> chain s t ls.
Proof.
  intros Hs. revert s. induction Hs as [t|t [t1 w] ls t' [Hw (s1 & Hp & Hf1)] Hst Hs IH]; intros s Hf H0.
  - constructor. by apply stops_final.
  - destruct w as [|c w]; [done|]. simpl in *. econstructor; eauto using stops_final.
    by destruct Hp.
Qed.

(** Types after which a value may start, and types a value may end with. *)
Definition opens (t : JSONTokenType) : Prop := t = JSON_OPERATOR \/ t = JSON_SKIP.
Definition closes (t : JSONTokenType) : Prop :=
  t = JSON_INTEGER \/ t = JSON_STRING \/ t = JSON_KEYWORD \/ t = JSON_OPERATOR.

Lemma closes_stops t c : closes t -> c ∈ [0; 44; 58; 93; 125] -> stops t c = true.
Proof.
  intros Ht Hc. rewrite !elem_of_cons, elem_of_nil in Hc.
  destruct Ht as [->|[->|[->| ->]]]; destruct_or! Hc; subst; done.
Qed.

Lemma op_ok c : c ∈ ["{"; "}"; "["; "]"; ","; ":"]%char -> lexeme_ok (op c).
Proof.
  intros Hc. rewrite !elem_of_cons, elem_of_nil in Hc. split; [done|]. exists IN_OPERATOR_DONE.
  split; [|constructor]. apply pathb_path. destruct_or! Hc; subst; done.
Qed.

Lemma space_ok : lexeme_ok space.
Proof. split; [done|]. exists IN_WHITESPACE. split; [by apply pathb_path|constructor]. Qed.

Lemma string_ok s : utf8_text s -> lexeme_ok (JSON_STRING, quote_string s).
Proof. intros Hs. split; [done|]. exists IN_DONE_STRING. split; [by apply path_quote_string|constructor]. Qed.

Lemma format_d_ok v : is_s 64 v -> lexeme_ok (JSON_INTEGER, format_d v).
Proof.
  intros Hv. destruct (path_format_d v Hv) as (s & Hp & Hs). split.
  - intros E. simpl in E. rewrite E in Hp. simpl in Hp. subst s. by destruct Hs.
  - exists s. split; [done|]. destruct Hs as [->| ->]; constructor.
Qed.

Lemma format_d_head v t : is_s 64 v -> opens t -> stops t (default 0 (head (format_d v))) = true.
Proof.
  intros Hv Ht. unfold is_s in Hv. change (2 ^ (64 - 1)) with 9223372036854775808 in Hv. unfold format_d.
  destruct (v <? 0) eqn:E; bool_hyps; [by destruct Ht as [->| ->]|].
  destruct (Z.eq_dec v 0) as [->|Hv0]; [by destruct Ht as [->| ->]|].
  destruct (dec_digits_head 20 v []) as (d & ds & -> & Hd & _); [lia|]. cbn [head app default].
  destruct (nonzero_digit_start d Hd) as (_ & _ & _ & _ & Hr).
  assert ((stops JSON_OPERATOR d && stops JSON_SKIP d) = true) as H.
  { apply (range_check (fun d => stops JSON_OPERATOR d && stops JSON_SKIP d) 49 9); [vm_compute; reflexivity|lia]. }
  bool_hyps. by destruct Ht as [->| ->].
Qed.

(** A printed value: may follow an opening type, and ends with a closing one. *)
Definition value_seg (ls : list lexeme) : Prop :=
  forall t, opens t -> exists t', closes t' /\ seg t ls t'.

Lemma joins_seg ls : Forall value_seg ls -> forall t, closes t -> exists t', closes t' /\ seg t (joins ls) t'.
Proof.
  induction 1 as [|l ls Hl _ IH]; intros t Ht; [exists t; split; [done|constructor]|].
  destruct (Hl JSON_SKIP) as (t1 & Ht1 & Hs1); [by right|].
  destruct (IH t1 Ht1) as (t2 & Ht2 & Hs2). exists t2. split; [done|].
  unfold joins. cbn [map concat app]. apply seg_cons; [apply op_ok; set_solver| |].
  - apply closes_stops; [done|set_solver].
  - apply seg_cons; [apply space_ok|done|]. by apply seg_app with t1.
Qed.

Lemma brackets_seg a b ls :
  a ∈ ["{"; "["]%char -> b ∈ ["}"; "]"]%char -> Forall value_seg ls -> value_seg (op a :: join ls ++ [op b]).
Proof.
  intros Ha Hb Hls t Ht. exists JSON_OPERATOR. split; [unfold closes; auto|].
  apply seg_cons; [apply op_ok; set_solver| |].
  { rewrite !elem_of_cons, elem_of_nil in Ha. destruct Ht as [->| ->]; destruct_or! Ha; subst; done. }
  assert (exists t', closes t' /\ seg JSON_OPERATOR (join ls) t') as (t' & Ht' & Hs).
  { destruct Hls as [|l ls Hl Hls]; simpl; [exists JSON_OPERATOR; split; [unfold closes; auto|constructor]|].
    destruct (Hl JSON_OPERATOR) as (t1 & Ht1 & Hs1); [by left|].
    destruct (joins_seg ls Hls t1 Ht1) as (t2 & Ht2 & Hs2). exists t2. split; [done|]. by apply seg_app with t1. }
  apply seg_app with t'; [done|]. apply seg_cons; [apply op_ok; set_solver| |constructor].
  apply closes_stops; [done|]. rewrite !elem_of_cons, elem_of_nil in Hb. destruct_or! Hb; subst; simpl; set_solver.
Qed.

Lemma single_seg l : lexeme_ok l -> closes (fst l) ->
  (forall t, opens t -> stops t (default 0 (head (snd l))) = true) -> value_seg [l].
Proof. intros Hl Hc Hs t Ht. exists (fst l). split; [done|]. apply seg_cons; auto using seg_nil. Qed.

Lemma lexemes_seg o : json_ok o -> value_seg (lexemes o).
Proof.
  induction 1 as [v Hv|s Hs|v|l Hl IH|d Hwf Hk Hv IH].
  - apply single_seg; [by apply format_d_ok|unfold closes; simpl; auto|]. intros. by apply format_d_head.
  - apply single_seg; [by apply string_ok|unfold closes; simpl; auto|]. intros t [->| ->]; done.
  - apply single_seg; [|unfold closes; simpl; auto|].
    + split; [simpl; by destruct (negb _)|]. exists IN_KEYWORD. split; [|constructor].
      simpl. apply pathb_path. by destruct (negb _).
    + simpl. intros t Ht. destruct (negb _), Ht as [->| ->]; done.
  - apply brackets_seg; [set_solver..|]. apply Forall_map, Forall_forall. done.
  - rewrite lexemes_dict. apply brackets_seg; [set_solver..|]. apply Forall_map, Forall_forall.
    intros [k v] He t Ht. destruct (IH k v He JSON_SKIP) as (t' & Ht' & Hs'); [by right|].
    exists t'. split; [done|]. unfold entry_lexemes, key_lexemes. cbn [fst snd app].
    apply seg_cons; [by eapply string_ok, Hk| |].
    { by destruct Ht as [->| ->]. }
    apply seg_cons; [apply op_ok; set_solver|done|]. by apply seg_cons; [apply space_ok|..].
Qed.

(** The lexer's emissions for a printed object. *)
Lemma lex_all_path lx w s' r :
  path (lx_state lx) w s' ->
  exists x y, lex_all lx (w ++ r) = lex_all {| lx_state := s'; lx_token := lx_token lx ++ w; lx_x := x; lx_y := y |} r.
Proof.
  intros Hp. destruct (feed_path lx w s' Hp) as (x & y & E). exists x, y. unfold lex_all.
  rewrite json_lexer_feed_app, E. change (0 <? 0) with false. cbv iota.
  destruct (json_lexer_feed _ r) as [[lx2 e2] err2]. done.
Qed.

Lemma lex_printed o :
  json_ok o -> exists ems, lex_all json_lexer_init (texts (lexemes o)) = Some ems /\
    Forall2 em_matches ems (List.filter not_skip (lexemes o)).
Proof.
  intros Ho. destruct (lexemes_seg o Ho JSON_SKIP) as (t' & Ht' & Hs); [by right|].
  assert (chain IN_WHITESPACE JSON_SKIP (lexemes o)) as Hc.
  { eapply seg_chain; [done|constructor|]. apply closes_stops; [done|set_solver]. }
  assert (lexemes o <> []) as Hne by (by destruct Ho).
  destruct Hc as [s t E|s t t1 c w s1 ls _ _ Hp Hc]; [done|].
  change (texts ((t1, c :: w) :: ls)) with ((c :: w) ++ texts ls).
  destruct (lex_all_path json_lexer_init (c :: w) s1 (texts ls) Hp) as (x & y & ->).
  by apply (lex_all_chain s1 t1 ls).
Qed.

(** ** The streamer emits the tokens as one message *)
Definition balanced (ems : list emission) : Prop :=
  forall a b toks, 0 <= a -> 0 <= b -> 0 < a + b -> a + b + Z.of_nat (length ems) < 2 ^ 31 ->
  process_tokens {| st_counts := (a, b); st_tokens := toks |} ems =
    ({| st_counts := (a, b); st_tokens := toks ++ map token_dict ems |}, []).

Lemma balanced_nil : balanced [].
Proof. intros a b toks _ _ _ _. simpl. by rewrite app_nil_r. Qed.

Lemma balanced_app e1 e2 : balanced e1 -> balanced e2 -> balanced (e1 ++ e2).
Proof.
  intros H1 H2 a b toks Ha Hb Hab Hn. rewrite length_app in Hn.
  rewrite process_tokens_app, H1, H2 by lia. by rewrite map_app, app_assoc.
Qed.

(** A token that changes no counter. *)
Lemma balanced_one e :
  (em_type e = JSON_OPERATOR -> default 0 (head (em_token e)) ∈ [44; 58]) -> balanced [e].
Proof.
  intros He a b toks Ha Hb Hab Hn. cbn [process_tokens]. unfold json_message_process_token. cbn [st_counts].
  assert (match em_type e with JSON_OPERATOR => count_operator (em_token e) (a, b) | _ => (a, b) end = (a, b)) as ->.
  { destruct (em_type e) eqn:E; try done. specialize (He eq_refl).
    rewrite !elem_of_cons, elem_of_nil in He. unfold count_operator. by destruct_or! He; rewrite He. }
  cbn [fst snd]. destruct (_ && _) eqn:Ez; [bool_hyps; lia|]. done.
Qed.

(** The counters at an opening and at the matching closing token. *)
Definition counts_at (curly : bool) (a b : Z) : Z * Z := if curly then (a + 1, b) else (a, b + 1).

Lemma count_open (curly : bool) c a b :
  c = (if curly then chr "{" else chr "[") -> 0 <= a < 2 ^ 31 - 1 -> 0 <= b < 2 ^ 31 - 1 ->
  count_operator [c] (a, b) = counts_at curly a b.
Proof.
  intros -> Ha Hb. unfold count_operator, counts_at. simpl head. destruct curly; simpl;
    rewrite swrap_small by (unfold is_s; lia); done.
Qed.

Lemma count_close (curly : bool) c a b :
  c = (if curly then chr "}" else chr "]") -> 0 <= a < 2 ^ 31 - 1 -> 0 <= b < 2 ^ 31 - 1 ->
  count_operator [c] (counts_at curly a b) = (a, b).
Proof.
  intros -> Ha Hb. unfold count_operator, counts_at. destruct curly; simpl;
    rewrite swrap_small by (unfold is_s; lia); f_equal; lia.
Qed.

Lemma process_bracketed (curly : bool) e1 ems e2 a b toks :
  em_type e1 = JSON_OPERATOR -> em_token e1 = [if curly then chr "{" else chr "["] ->
  em_type e2 = JSON_OPERATOR -> em_token e2 = [if curly then chr "}" else chr "]"] ->
  balanced ems -> 0 <= a -> 0 <= b -> a + b + 1 + Z.of_nat (length ems) < 2 ^ 31 ->
  process_tokens {| st_counts := (a, b); st_tokens := toks |} (e1 :: ems ++ [e2]) =
    let all := toks ++ map token_dict (e1 :: ems ++ [e2]) in
    if (a =? 0) && (b =? 0) then ({| st_counts := (a, b); st_tokens := [] |}, [all])
    else ({| st_counts := (a, b); st_tokens := all |}, []).
Proof.
  intros T1 K1 T2 K2 Hbal Ha Hb Hn. cbn [process_tokens]. unfold json_message_process_token at 1.
  cbn [st_counts st_tokens]. rewrite T1, K1, (count_open curly) by (done || lia).
  assert ((fst (counts_at curly a b) =? 0) && (snd (counts_at curly a b) =? 0) = false) as ->.
  { apply andb_false_iff. rewrite !Z.eqb_neq. destruct curly; simpl; lia. }
  rewrite process_tokens_app. unfold qlist_append_obj.
  rewrite (surjective_pairing (counts_at curly a b)).
  rewrite Hbal by (destruct curly; simpl; lia). rewrite <- surjective_pairing.
  cbn [process_tokens]. unfold json_message_process_token. cbn [st_counts st_tokens].
  rewrite T2, K2, (count_close curly) by (done || lia). cbn [fst snd]. unfold qlist_append_obj, qlist_new.
  rewrite <- !app_assoc. cbn [map app]. rewrite map_app. by destruct (_ && _).
Qed.

(** *** The tokens of an object *)
Definition visible (ls : list lexeme) : list lexeme := List.filter not_skip ls.
Abbreviation reads := (Forall2 em_matches).

Definition all_balanced (ls : list lexeme) : Prop := forall ems, reads ems (visible ls) -> balanced ems.

Lemma visible_app a b : visible (a ++ b) = visible a ++ visible b.
Proof. apply List.filter_app. Qed.

Lemma visible_joins l ls : visible (joins (l :: ls)) = op "," :: visible l ++ visible (joins ls).
Proof. unfold joins. cbn [map concat]. by rewrite visible_app. Qed.

Lemma balanced_joins ls : Forall all_balanced ls -> all_balanced (joins ls).
Proof.
  induction 1 as [|l ls Hl _ IH]; intros ems Hr; [inversion Hr; apply balanced_nil|].
  rewrite visible_joins in Hr.
  apply Forall2_cons_inv_r in Hr as (e & ems' & [Ht Hk] & (ems1 & ems2 & H1 & H2 & ->)%Forall2_app_inv_r & ->).
  apply (balanced_app [e]); [|apply balanced_app; auto].
  apply balanced_one. rewrite Hk. set_solver.
Qed.

Lemma balanced_join ls : Forall all_balanced ls -> all_balanced (join ls).
Proof.
  intros [|l ls' Hl Hls] ems Hr; [inversion Hr; apply balanced_nil|].
  simpl in Hr. rewrite visible_app in Hr. apply Forall2_app_inv_r in Hr as (e1 & e2 & H1 & H2 & ->).
  apply balanced_app; [auto|]. by apply (balanced_joins ls').
Qed.

(** The emissions of a bracketed list. *)
Lemma reads_brackets a b ls ems :
  reads ems (visible (op a :: ls ++ [op b])) ->
  exists e1 ems' e2, ems = e1 :: ems' ++ [e2] /\ em_matches e1 (op a) /\ em_matches e2 (op b) /\
    reads ems' (visible ls).
Proof.
  intros Hr. change (visible (op a :: ls ++ [op b])) with (op a :: visible (ls ++ [op b])) in Hr.
  rewrite visible_app in Hr.
  apply Forall2_cons_inv_r in Hr as (e & ems' & Hm & (ems1 & ems2 & H1 & H2 & ->)%Forall2_app_inv_r & ->).
  apply Forall2_cons_inv_r in H2 as (e2 & l2 & Hm2 & ->%Forall2_nil_inv_r & ->). by exists e, ems1, e2.
Qed.

Lemma balanced_brackets (curly : bool) ls :
  all_balanced ls ->
  all_balanced (op (if curly then "{" else "[") :: ls ++ [op (if curly then "}" else "]")]).
Proof.
  intros Hls ems (e1 & ems' & e2 & -> & [T1 K1] & [T2 K2] & Hr)%reads_brackets a b toks Ha Hb Hab Hn.
  cbn [length] in Hn. rewrite length_app in Hn. simpl in K1, K2.
  rewrite (process_bracketed curly); auto; [|by destruct curly..|lia].
  destruct (_ && _) eqn:E; [bool_hyps; lia|done].
Qed.

Lemma balanced_single t w : t <> JSON_OPERATOR -> all_balanced [(t, w)].
Proof.
  intros Ht ems Hr. unfold visible in Hr. simpl in Hr. destruct (not_skip (t, w)).
  - apply Forall2_cons_inv_r in Hr as (e2 & l2 & [Hm _] & ->%Forall2_nil_inv_r & ->).
    apply balanced_one. simpl in Hm. congruence.
  - inversion Hr. apply balanced_nil.
Qed.

Lemma all_balanced_app a b : all_balanced a -> all_balanced b -> all_balanced (a ++ b).
Proof.
  intros Ha Hb ems Hr. rewrite visible_app in Hr. apply Forall2_app_inv_r in Hr as (e1 & e2 & H1 & H2 & ->).
  apply balanced_app; auto.
Qed.

Lemma balanced_key k : all_balanced (key_lexemes k).
Proof.
  intros ems Hr. unfold key_lexemes, visible in Hr. simpl in Hr.
  apply Forall2_cons_inv_r in Hr as (e1 & l1 & [Hm1 _] & Hr & ->).
  apply Forall2_cons_inv_r in Hr as (e2 & l2 & [Hm2 Hk2] & ->%Forall2_nil_inv_r & ->).
  apply (balanced_app [e1]); apply balanced_one; simpl in *; [congruence|]. rewrite Hk2. set_solver.
Qed.

Lemma lexemes_balanced o : all_balanced (lexemes o).
Proof.
  induction o as [v|s|d IH|l IH|v|v|] using QObject_ind.
  - by apply balanced_single.
  - by apply balanced_single.
  - rewrite lexemes_dict. apply (balanced_brackets true), balanced_join, Forall_map, Forall_concat.
    eapply Forall_impl; [exact IH|]. intros b Hb. eapply Forall_impl; [exact Hb|].
    intros [k v] Hv. apply all_balanced_app; [apply balanced_key|exact Hv].
  - apply (balanced_brackets false), balanced_join, Forall_map. exact IH.
  - intros ems Hr. inversion Hr. apply balanced_nil.
  - by apply balanced_single.
  - intros ems Hr. inversion Hr. apply balanced_nil.
Qed.

(** At top level the tokens of the whole object come out as one message. *)
Definition stream0 : stream := {| st_counts := (0, 0); st_tokens := [] |}.

Lemma process_top_bracketed (curly : bool) ls ems :
  all_balanced ls -> reads ems (visible (op (if curly then "{" else "[") :: ls ++ [op (if curly then "}" else "]")])) ->
  Z.of_nat (length ems) < 2 ^ 31 -> process_tokens stream0 ems = (stream0, [map token_dict ems]).
Proof.
  intros Hls (e1 & ems' & e2 & -> & [T1 K1] & [T2 K2] & Hr)%reads_brackets Hn.
  cbn [length] in Hn. rewrite length_app in Hn. simpl in K1, K2. unfold stream0.
  rewrite (process_bracketed curly); auto; [by destruct curly..|lia].
Qed.

Lemma process_top_single e :
  em_type e <> JSON_OPERATOR -> process_tokens stream0 [e] = (stream0, [[token_dict e]]).
Proof. intros He. unfold json_message_process_token, process_tokens, json_message_process_token. simpl.
  by destruct (em_type e).
Qed.

Lemma process_printed o ems :
  json_ok o -> reads ems (visible (lexemes o)) -> Z.of_nat (length ems) < 2 ^ 31 ->
  process_tokens stream0 ems = (stream0, [map token_dict ems]).
Proof.
  intros Ho Hr Hn. destruct Ho.
  1-3: apply Forall2_cons_inv_r in Hr as (e & l' & [Hm _] & ->%Forall2_nil_inv_r & ->);
       apply process_top_single; simpl in Hm; congruence.
  - eapply (process_top_bracketed false); [|exact Hr|done].
    apply balanced_join, Forall_map, Forall_forall. intros. apply lexemes_balanced.
  - rewrite lexemes_dict in Hr. eapply (process_top_bracketed true); [|exact Hr|done].
    apply balanced_join, Forall_map, Forall_forall. intros [k v] _.
    apply all_balanced_app; [apply balanced_key|apply lexemes_balanced].
Qed.

(** ** The parser rebuilds the object *)
Lemma token_dict_get e k :
  qdict_get (match token_dict e with QDict d => d | _ => qdict_new end) k =
  if decide (k = str "y") then Some (qint_from_int (em_y e))
  else if decide (k = str "x") then Some (qint_from_int (em_x e))
  else if decide (k = str "token") then Some (QString (em_token e))
  else if decide (k = str "type") then Some (qint_from_int (token_code (em_type e))) else None.
Proof.
  unfold token_dict. rewrite !qdict_get_put by auto 10 using qdict_put_wf, qdict_new_wf.
  by rewrite qdict_get_new.
Qed.

Lemma token_get_type_dict e : token_get_type (Some (token_dict e)) = Ret (token_code (em_type e)).
Proof.
  unfold token_get_type, token_dict_of. simpl oget. cbn [obind].
  pose proof (token_dict_get e (str "type")) as H. unfold token_dict in *. cbn [qobject_to_qdict oget obind].
  unfold qdict_get_int, qdict_get_obj. rewrite H. by destruct (em_type e).
Qed.

Lemma token_get_value_dict e : token_get_value (Some (token_dict e)) = Ret (em_token e).
Proof.
  unfold token_get_value, token_dict_of. simpl oget. cbn [obind].
  pose proof (token_dict_get e (str "token")) as H. unfold token_dict in *. cbn [qobject_to_qdict oget obind].
  unfold qdict_get_str, qdict_get_obj. rewrite H. done.
Qed.

Lemma is_operator_op e a c :
  em_matches e (op a) -> token_is_operator (Some (token_dict e)) c = Ret (chr a =? c).
Proof.
  intros [Ht Hk]. unfold token_is_operator. rewrite token_get_type_dict, token_get_value_dict, Ht, Hk. simpl.
  by rewrite andb_true_r.
Qed.

Lemma is_operator_other e c :
  em_type e <> JSON_OPERATOR -> token_is_operator (Some (token_dict e)) c = Ret false.
Proof. intros Ht. unfold token_is_operator. rewrite token_get_type_dict. by destruct (em_type e). Qed.

Section Parse.
Variable strtod : cstring -> Z.

(** With the fuel [n], the tokens of [ls] parse to [o], whatever follows. *)
Definition parses (n : nat) (ls : list lexeme) (o : QObject) : Prop :=
  forall ems rest, reads ems (visible ls) -> (length ems < n)%nat ->
  parse_value strtod n (PS (map token_dict ems ++ rest) None) = Ret (Some o, PS rest None).

Lemma parse_value_scalar n e rest :
  em_type e <> JSON_OPERATOR ->
  parse_value strtod (S n) (PS (token_dict e :: rest) None) =
  or_else (parse_keyword (PS (token_dict e :: rest) None)) (parse_literal strtod).
Proof.
  intros He. cbn [parse_value]. unfold parse_object. rewrite qlist_copy_id. cbn [ps_tokens qlist_pop].
  rewrite is_operator_other by done. cbn [obind negb]. unfold or_else at 4. cbn [obind].
  unfold parse_array. rewrite qlist_copy_id. cbn [ps_tokens qlist_pop].
  rewrite is_operator_other by done. done.
Qed.

(** No rule takes an operator that opens nothing. *)
Lemma parse_value_operator n e c rest :
  em_matches e (op c) -> c ∈ [","; ":"; "]"]%char ->
  parse_value strtod (S n) (PS (token_dict e :: rest) None) = Ret (None, PS (token_dict e :: rest) None).
Proof.
  intros He Hc. assert ((chr c =? chr "{") = false /\ (chr c =? chr "[") = false) as [E1 E2].
  { rewrite !elem_of_cons, elem_of_nil in Hc. destruct_or! Hc; subst; done. }
  cbn [parse_value]. unfold parse_object. rewrite qlist_copy_id. cbn [ps_tokens qlist_pop].
  rewrite (is_operator_op _ _ _ He), E1. cbn [obind negb]. unfold or_else at 4. cbn [obind].
  unfold parse_array. rewrite qlist_copy_id. cbn [ps_tokens qlist_pop].
  rewrite (is_operator_op _ _ _ He), E2. cbn [obind negb]. unfold or_else. cbn [obind].
  unfold parse_escape. cbn [ps_ap obind]. unfold parse_keyword. rewrite qlist_copy_id. cbn [ps_tokens qlist_pop].
  rewrite token_get_type_dict. destruct He as [Ht _]. rewrite Ht. cbn [fst op obind].
  change (token_code JSON_OPERATOR =? token_code JSON_KEYWORD) with false. cbn [negb obind].
  unfold parse_literal. rewrite qlist_copy_id. cbn [ps_tokens qlist_pop]. by rewrite token_get_type_dict, Ht.
Qed.

Lemma parse_literal_not_keyword n e rest :
  em_type e <> JSON_OPERATOR -> em_type e <> JSON_KEYWORD ->
  parse_value strtod (S n) (PS (token_dict e :: rest) None) =
  parse_literal strtod (PS (token_dict e :: rest) None).
Proof.
  intros He Hk. rewrite parse_value_scalar by done. unfold parse_keyword. rewrite qlist_copy_id.
  cbn [ps_tokens qlist_pop]. rewrite token_get_type_dict. by destruct (em_type e).
Qed.

Lemma parses_string n s : utf8_text s -> parses n [(JSON_STRING, quote_string s)] (QString s).
Proof.
  intros Hs ems rest Hr Hn. apply Forall2_cons_inv_r in Hr as (e & l & [Ht Hk] & ->%Forall2_nil_inv_r & ->).
  simpl in Ht, Hk. destruct n as [|n]; [simpl in Hn; lia|]. cbn [map app].
  rewrite parse_literal_not_keyword by (by rewrite Ht). unfold parse_literal. rewrite qlist_copy_id.
  cbn [ps_tokens qlist_pop]. rewrite token_get_type_dict, Ht. cbn [obind].
  change (token_code JSON_STRING =? token_code JSON_STRING) with true. cbv iota.
  unfold qstring_from_escaped_str. rewrite token_get_value_dict, Hk. cbn [obind].
  change (default 0 (quote_string s !! 0%nat) =? 34) with true. cbv iota.
  by rewrite unescape_quote_string.
Qed.

Lemma parses_int n v : is_s 64 v -> parses n [(JSON_INTEGER, format_d v)] (QInt v).
Proof.
  intros Hv ems rest Hr Hn. apply Forall2_cons_inv_r in Hr as (e & l & [Ht Hk] & ->%Forall2_nil_inv_r & ->).
  simpl in Ht, Hk. destruct n as [|n]; [simpl in Hn; lia|]. cbn [map app].
  rewrite parse_literal_not_keyword by (by rewrite Ht). unfold parse_literal. rewrite qlist_copy_id.
  cbn [ps_tokens qlist_pop]. rewrite token_get_type_dict, token_get_value_dict, Ht, Hk.
  simpl. rewrite strtoll_format_d by done. unfold qint_from_int. by rewrite swrap_small.
Qed.

Lemma parses_bool n v :
  parses n [(JSON_KEYWORD, if negb (v =? 0) then str "true" else str "false")]
    (QBool (if v =? 0 then 0 else 1)).
Proof.
  intros ems rest Hr Hn. apply Forall2_cons_inv_r in Hr as (e & l & [Ht Hk] & ->%Forall2_nil_inv_r & ->).
  simpl in Ht, Hk. destruct n as [|n]; [simpl in Hn; lia|]. cbn [map app].
  rewrite parse_value_scalar by (by rewrite Ht). unfold parse_keyword. rewrite qlist_copy_id.
  cbn [ps_tokens qlist_pop]. unfold token_is_keyword. rewrite token_get_type_dict, token_get_value_dict, Ht, Hk.
  by destruct (v =? 0).
Qed.

(** The loop of [parse_array] over the remaining items. *)
Lemma array_loop_ok n its : Forall (fun it => parses n (fst it) (snd it)) its ->
  forall fuel acc ems e2 rest token rest',
  reads ems (visible (joins (map fst its))) -> em_matches e2 (op "]") ->
  (length ems < n)%nat -> (length ems < fuel)%nat ->
  qlist_pop (map token_dict (ems ++ [e2]) ++ rest) = (token, rest') ->
  array_loop fuel (parse_value strtod n) acc token (PS rest' None) =
  Ret (Some (acc ++ map snd its), PS rest None).
Proof.
  induction 1 as [|[ls o] its Hp _ IH]; intros fuel acc ems e2 rest token rest' Hr He2 Hn Hf Hpop;
    (destruct fuel as [|fuel]; [lia|]).
  - apply Forall2_nil_inv_r in Hr as ->. injection Hpop as <- <-. cbn [array_loop].
    rewrite (is_operator_op _ _ _ He2). by rewrite app_nil_r.
  - cbn [map] in Hr. rewrite visible_joins in Hr. cbn [fst snd] in Hr.
    apply Forall2_cons_inv_r in Hr as (e & ems' & Hm & (ems1 & ems2 & H1 & H2 & ->)%Forall2_app_inv_r & ->).
    cbn [length] in Hn, Hf. rewrite length_app in Hn, Hf. injection Hpop as <- <-. cbn [array_loop].
    rewrite !(is_operator_op _ _ _ Hm). cbn [obind].
    change (chr "," =? chr "]") with false. change (chr "," =? chr ",") with true. cbv iota. cbn [negb].
    rewrite <- app_assoc, map_app, <- app_assoc. cbn [fst snd] in Hp. rewrite Hp by (done || lia). cbn [obind].
    destruct (qlist_pop _) as [token rest'] eqn:E. unfold with_tokens. cbn [ps_tokens ps_ap] in *.
    rewrite (IH fuel (qlist_append_obj acc o) ems2 e2 rest token rest') by (done || lia).
    cbn [map snd]. unfold qlist_append_obj. by rewrite <- app_assoc.
Qed.

(** A value does not start with a closing bracket. *)
Definition starts (ls : list lexeme) : Prop :=
  forall ems rest c, reads ems (visible ls) -> c ∈ [93; 125] ->
  token_is_operator (qlist_peek (map token_dict ems ++ rest)) c = Ret false.

Lemma starts_op a ls : a ∈ ["{"; "["]%char -> starts (op a :: ls).
Proof.
  intros Ha ems rest c Hr Hc. apply Forall2_cons_inv_r in Hr as (e & l & Hm & _ & ->).
  cbn [map app qlist_peek]. rewrite (is_operator_op _ _ _ Hm).
  rewrite !elem_of_cons, elem_of_nil in Ha. rewrite !elem_of_cons, elem_of_nil in Hc.
  destruct_or! Ha; destruct_or! Hc; subst; done.
Qed.

Lemma starts_other t w ls : t <> JSON_OPERATOR -> t <> JSON_SKIP -> starts ((t, w) :: ls).
Proof.
  intros Ht Hs ems rest c Hr Hc. unfold visible in Hr. simpl in Hr.
  replace (not_skip (t, w)) with true in Hr by (by destruct t).
  apply Forall2_cons_inv_r in Hr as (e & l & [Hm _] & _ & ->). cbn [map app qlist_peek].
  apply is_operator_other. simpl in Hm. congruence.
Qed.

Lemma lexemes_starts o : json_ok o -> starts (lexemes o).
Proof. intros []; [by apply starts_other..|apply starts_op; set_solver|apply starts_op; set_solver]. Qed.

Lemma parses_array n its :
  Forall (fun it => parses n (fst it) (snd it)) its -> Forall (fun it => starts (fst it)) its ->
  parses (S n) (op "[" :: join (map fst its) ++ [op "]"]) (QList (map snd its)).
Proof.
  intros Hits Hst ems rest (e1 & ems' & e2 & -> & Hm1 & Hm2 & Hr)%reads_brackets Hn.
  cbn [length] in Hn. rewrite length_app in Hn. simpl length in Hn.
  cbn [map app parse_value]. unfold parse_object. rewrite qlist_copy_id. cbn [ps_tokens qlist_pop].
  rewrite (is_operator_op _ _ _ Hm1). change (chr "[" =? chr "{") with false. cbn [obind negb].
  unfold or_else at 4. cbn [obind]. enough (parse_array n (parse_value strtod n)
    (PS (token_dict e1 :: map token_dict (ems' ++ [e2]) ++ rest) None) =
    Ret (Some (QList (map snd its)), PS rest None)) as -> by done.
  unfold parse_array. rewrite qlist_copy_id. cbn [ps_tokens qlist_pop with_tokens].
  rewrite (is_operator_op _ _ _ Hm1). change (chr "[" =? chr "[") with true. cbn [obind negb].
  destruct Hits as [|[ls o] its Hp Hits].
  { apply Forall2_nil_inv_r in Hr as ->. cbn [map app qlist_peek]. rewrite (is_operator_op _ _ _ Hm2). done. }
  cbn [map join fst] in Hr. rewrite visible_app in Hr. apply Forall2_app_inv_r in Hr as (ems1 & ems2 & H1 & H2 & ->).
  rewrite length_app in Hn. cbn [fst snd] in Hp. apply Forall_cons in Hst as [Hst _].
  rewrite <- app_assoc, map_app, <- app_assoc. rewrite Hst by (done || set_solver). cbn [obind negb].
  unfold with_tokens at 1. cbn [ps_ap]. rewrite Hp by (done || lia). cbn [obind ps_tokens].
  destruct (qlist_pop _) as [token rest'] eqn:E. unfold with_tokens. cbn [ps_ap].
  rewrite (array_loop_ok n its Hits n _ ems2 e2 rest token rest') by (done || lia). done.
Qed.

(** A key and its value. *)
Lemma parse_pair_ok n d k ls o ems rest :
  utf8_text k -> parses n ls o -> reads ems (visible (key_lexemes k ++ ls)) -> (length ems < n)%nat ->
  parse_pair (parse_value strtod n) d (PS (map token_dict ems ++ rest) None) =
  Ret (true, qdict_put_obj d k o, PS rest None).
Proof.
  intros Hk Hp Hr Hn. rewrite visible_app in Hr.
  change (visible (key_lexemes k)) with (visible [(JSON_STRING, quote_string k)] ++ [op ":"]) in Hr.
  apply Forall2_app_inv_r in Hr as (ems1 & ems2 & (ek & ec & Hk1 & Hc & ->)%Forall2_app_inv_r & H2 & ->).
  apply Forall2_cons_inv_r in Hc as (e & l & Hm & ->%Forall2_nil_inv_r & ->).
  rewrite !length_app in Hn. simpl length in Hn. unfold parse_pair. rewrite qlist_copy_id. unfold with_tokens.
  cbn [ps_tokens ps_ap]. rewrite <- app_assoc, map_app, <- app_assoc. rewrite (parses_string n k Hk) by (done || lia).
  cbn [obind oget qobject_type]. rewrite bool_decide_true by done. cbn [negb ps_tokens map app qlist_pop].
  rewrite (is_operator_op _ _ _ Hm). change (chr ":" =? chr ":") with true. cbn [obind negb].
  rewrite Hp by (done || lia). done.
Qed.

(** The fields of a dictionary: key, lexemes and value. *)
Abbreviation field := (cstring * (list lexeme * QObject))%type.
Definition field_lexemes (f : field) : list lexeme := key_lexemes (fst f) ++ fst (snd f).
Definition put_fields (fs : list field) (d : qdict QObject) : qdict QObject :=
  fold_left (fun d f => qdict_put_obj d (fst f) (snd (snd f))) fs d.
Definition field_ok (n : nat) (f : field) : Prop := utf8_text (fst f) /\ parses n (fst (snd f)) (snd (snd f)).

Lemma object_loop_ok n fs : Forall (field_ok n) fs ->
  forall fuel d ems e2 rest token rest',
  reads ems (visible (joins (map field_lexemes fs))) -> em_matches e2 (op "}") ->
  (length ems < n)%nat -> (length ems < fuel)%nat ->
  qlist_pop (map token_dict (ems ++ [e2]) ++ rest) = (token, rest') ->
  object_loop fuel (parse_value strtod n) d token (PS rest' None) =
  Ret (Some (put_fields fs d), PS rest None).
Proof.
  induction 1 as [|[k [ls o]] fs [Hk Hp] _ IH]; intros fuel d ems e2 rest token rest' Hr He2 Hn Hf Hpop;
    (destruct fuel as [|fuel]; [lia|]).
  - apply Forall2_nil_inv_r in Hr as ->. injection Hpop as <- <-. cbn [object_loop].
    by rewrite (is_operator_op _ _ _ He2).
  - cbn [map] in Hr. rewrite visible_joins in Hr.
    apply Forall2_cons_inv_r in Hr as (e & ems' & Hm & (ems1 & ems2 & H1 & H2 & ->)%Forall2_app_inv_r & ->).
    cbn [length] in Hn, Hf. rewrite length_app in Hn, Hf. injection Hpop as <- <-. cbn [object_loop].
    rewrite !(is_operator_op _ _ _ Hm). cbn [obind].
    change (chr "," =? chr "}") with false. change (chr "," =? chr ",") with true. cbv iota. cbn [negb].
    rewrite <- app_assoc, map_app, <- app_assoc. rewrite (parse_pair_ok n d k ls o) by (done || lia). cbn [obind negb].
    destruct (qlist_pop _) as [token rest'] eqn:E. unfold with_tokens. cbn [ps_tokens ps_ap] in *.
    by rewrite (IH fuel _ ems2 e2 rest token rest') by (done || lia).
Qed.

Lemma parses_object n fs :
  Forall (field_ok n) fs ->
  parses (S n) (op "{" :: join (map field_lexemes fs) ++ [op "}"]) (QDict (put_fields fs qdict_new)).
Proof.
  intros Hfs ems rest (e1 & ems' & e2 & -> & Hm1 & Hm2 & Hr)%reads_brackets Hn.
  cbn [length] in Hn. rewrite length_app in Hn. simpl length in Hn.
  cbn [map app parse_value]. enough (parse_object n (parse_value strtod n)
    (PS (token_dict e1 :: map token_dict (ems' ++ [e2]) ++ rest) None) =
    Ret (Some (QDict (put_fields fs qdict_new)), PS rest None)) as -> by done.
  unfold parse_object. rewrite qlist_copy_id. cbn [ps_tokens qlist_pop with_tokens].
  rewrite (is_operator_op _ _ _ Hm1). change (chr "{" =? chr "{") with true. cbn [obind negb].
  destruct Hfs as [|[k [ls o]] fs [Hk Hp] Hfs].
  { apply Forall2_nil_inv_r in Hr as ->. cbn [map app qlist_peek]. rewrite (is_operator_op _ _ _ Hm2). done. }
  cbn [map join] in Hr. rewrite visible_app in Hr. apply Forall2_app_inv_r in Hr as (ems1 & ems2 & H1 & H2 & ->).
  rewrite length_app in Hn. cbn [fst snd] in Hk, Hp.
  rewrite <- app_assoc, map_app, <- app_assoc.
  rewrite (starts_other JSON_STRING (quote_string k) (op ":" :: space :: ls)) by (done || set_solver).
  cbn [obind negb]. unfold with_tokens at 1. cbn [ps_ap].
  rewrite (parse_pair_ok n _ k ls o) by (done || lia). cbn [obind negb ps_tokens].
  destruct (qlist_pop _) as [token rest'] eqn:E. unfold with_tokens. cbn [ps_ap].
  by rewrite (object_loop_ok n fs Hfs n _ ems2 e2 rest token rest') by (done || lia).
Qed.

End Parse.

(** ** What comes back *)

(** The object the parser builds: booleans are 0 or 1, and every dictionary is filled anew
    in the order of iteration. *)
Fixpoint rebuild (o : QObject) : QObject :=
  match o with
  | QBool v => QBool (if v =? 0 then 0 else 1)
  | QList l => QList (map rebuild l)
  | QDict d =>
      QDict (fold_left (fun d e => qdict_put_obj d (fst e) (snd e))
               (concat (map (map (fun e => (fst e, rebuild (snd e)))) (qd_table d))) qdict_new)
  | _ => o
  end.

(** Objects with the same contents: booleans with the same truth value, lists item by
    item, dictionaries as finite maps. *)
Inductive qeq : QObject -> QObject -> Prop :=
| qeq_int v : qeq (QInt v) (QInt v)
| qeq_string s : qeq (QString s) (QString s)
| qeq_bool v w : (v =? 0) = (w =? 0) -> qeq (QBool v) (QBool w)
| qeq_list l l' : Forall2 qeq l l' -> qeq (QList l) (QList l')
| qeq_dict d d' :
    qdict_wf d' -> (forall k, option_Forall2 qeq (qdict_get d k) (qdict_get d' k)) -> qeq (QDict d) (QDict d').

Lemma rebuild_dict d :
  rebuild (QDict d) =
  QDict (fold_left (fun d e => qdict_put_obj d (fst e) (rebuild (snd e))) (entries d) qdict_new).
Proof.
  cbn [rebuild]. unfold entries. rewrite <- concat_map. f_equal. generalize (@qdict_new QObject).
  induction (concat (qd_table d)) as [|[k v] l IH]; intros d0; [done|]. simpl. apply IH.
Qed.

(** A table filled from a list of entries with distinct keys. *)
Lemma fold_put_get (f : QObject -> QObject) (l : list (cstring * QObject)) d0 k :
  qdict_wf d0 -> NoDup l.*1 ->
  let d := fold_left (fun d e => qdict_put_obj d (fst e) (f (snd e))) l d0 in
  qdict_wf d /\
  qdict_get d k = match list_to_map (M := gmap cstring QObject) l !! k with Some v => Some (f v) | None => qdict_get d0 k end.
Proof.
  revert d0. induction l as [|[j v] l IH]; intros d0 Hwf Hnd; [done|].
  csimpl in Hnd. apply NoDup_cons in Hnd as [Hnin Hnd]. cbn [fold_left fst snd].
  destruct (IH (qdict_put_obj d0 j (f v)) (qdict_put_wf _ _ _ Hwf) Hnd) as [H1 H2]. split; [exact H1|].
  rewrite H2, qdict_get_put by done. cbn [list_to_map]. csimpl. rewrite lookup_insert.
  destruct (decide (k = j)) as [->|Hj]; [|by rewrite decide_False by congruence].
  rewrite decide_True by done. by rewrite (not_elem_of_list_to_map_1 l j).
Qed.

Lemma rebuild_qeq o : json_ok o -> qeq o (rebuild o).
Proof.
  induction 1 as [v Hv|s Hs|v|l Hl IH|d Hwf Hk Hv IH]; try by constructor.
  - constructor. by destruct (v =? 0).
  - constructor. clear Hl. induction l as [|x l IHl]; constructor; [apply IH; set_solver|].
    apply IHl. intros y Hy. apply IH. set_solver.
  - rewrite rebuild_dict.
    pose proof (fun k => fold_put_get rebuild (entries d) qdict_new k qdict_new_wf (entries_nodup d Hwf)) as H.
    constructor; [by apply (H [])|]. intros k. destruct (H k) as [_ ->].
    change (list_to_map (entries d)) with (interp d). rewrite interp_lookup by done.
    destruct (qdict_get d k) as [v|] eqn:E; [|rewrite qdict_get_new; constructor].
    constructor. apply (IH k). rewrite <- interp_lookup in E by done. by apply elem_of_list_to_map_2.
Qed.

Lemma put_fields_rebuild (l : list (cstring * QObject)) d0 :
  put_fields (map (fun e => (fst e, (lexemes (snd e), rebuild (snd e)))) l) d0 =
  fold_left (fun d e => qdict_put_obj d (fst e) (rebuild (snd e))) l d0.
Proof. unfold put_fields. revert d0. induction l as [|e l IH]; intros d0; [done|]. simpl. apply IH. Qed.

Lemma parses_lexemes strtod o : json_ok o -> forall n, parses strtod n (lexemes o) (rebuild o).
Proof.
  induction 1 as [v Hv|s Hs|v|l Hl IH|d Hwf Hk Hv IH]; intros n.
  - by apply parses_int.
  - by apply parses_string.
  - by apply parses_bool.
  - destruct n as [|n]; [intros ems rest _ Hn; lia|].
    pose proof (parses_array strtod n (map (fun o => (lexemes o, rebuild o)) l)) as H.
    rewrite !map_map in H. apply H; apply Forall_map, Forall_forall; intros x Hx; simpl.
    + by apply IH.
    + by apply lexemes_starts, Hl.
  - destruct n as [|n]; [intros ems rest _ Hn; lia|]. rewrite rebuild_dict, lexemes_dict.
    pose proof (parses_object strtod n (map (fun e => (fst e, (lexemes (snd e), rebuild (snd e)))) (entries d))) as H.
    rewrite put_fields_rebuild, map_map in H. apply H, Forall_map, Forall_forall.
    intros [k v] He. split; [by eapply Hk|]. by eapply IH.
Qed.

(** ** The whole pipeline *)
Lemma seg_lexeme_ok t ls t' : seg t ls t' -> Forall lexeme_ok ls.
Proof. induction 1; constructor; auto. Qed.

Lemma length_texts ls : Forall lexeme_ok ls -> (length (visible ls) <= length (texts ls))%nat.
Proof.
  induction 1 as [|[t w] ls [Hw _] _ IH]; [done|]. simpl in Hw.
  change (texts ((t, w) :: ls)) with (w ++ texts ls). rewrite length_app.
  unfold visible in *. simpl. destruct w; [done|]. destruct (not_skip (t, z :: w)); simpl; lia.
Qed.

Lemma from_json_lexed strtod text ems msg :
  lex_all json_lexer_init text = Some ems -> process_tokens stream0 ems = (stream0, [msg]) ->
  qobject_from_json strtod text = let! '(o, _) := json_parser_parse strtod msg None in Ret o.
Proof.
  unfold lex_all, qobject_from_json, qobject_from_jsonv, json_message_parser_feed, json_message_parser_flush.
  change (mp_lexer json_message_parser_init) with json_lexer_init.
  change (parser_stream json_message_parser_init) with stream0.
  destruct (json_lexer_feed json_lexer_init text) as [[lx1 e1] err1].
  destruct (process_tokens stream0 e1) as [s1 o1] eqn:E1. change (mp_lexer (with_stream lx1 s1)) with lx1.
  rewrite parser_stream_with_stream.
  destruct (json_lexer_flush lx1) as [[lx2 em] err2]. destruct (_ && _); [|done]. intros [= <-].
  rewrite process_tokens_app, E1. destruct (process_tokens s1 _) as [s2 o2].
  intros [_ ->]%pair_equal_spec. done.
Qed.

Lemma from_json_lex_error strtod text lx :
  json_lexer_feed json_lexer_init text = (lx, [], - EINVAL) -> lx_state lx = ERROR ->
  qobject_from_json strtod text = Ret None.
Proof.
  intros E Hs. unfold qobject_from_json, qobject_from_jsonv, json_message_parser_feed, json_message_parser_flush.
  change (mp_lexer json_message_parser_init) with json_lexer_init. rewrite E. cbn [process_tokens].
  change (mp_lexer (with_stream lx ?s)) with lx. pose proof (feed_char_error lx 0 Hs) as H. unfold json_lexer_flush.
  destruct (json_lexer_feed_char lx 0) as [[lx2 em] err]. destruct H as (_ & -> & _). done.
Qed.

Lemma escape_string_app p s : utf8_text p -> escape_string (p ++ s) = escape_string p ++ escape_string s.
Proof.
  induction 1 as [|c p Hc Hb H IH|c0 c1 p H0 H1 H IH|c0 c1 c2 p H0 H1 H2 He H IH]; [done|..]; cbn [app].
  - by rewrite !escape_string_1, IH, app_assoc by done.
  - by rewrite !escape_string_2, IH, app_assoc by done.
  - by rewrite !escape_string_3, IH, app_assoc by done.
Qed.

(** ** Properties *)

(** C12. Round trip: an object of 64-bit integers, booleans, lists, well-formed dictionaries
    and texts is printed by [qobject_to_json] to a text that [qobject_from_json] turns back
    into an object with the same contents.  The texts, keys included, are UTF-8 without NUL,
    without a backslash and without characters of four bytes, that is, of the basic
    multilingual plane; the printed text has to be shorter than 2^31 bytes (the nesting
    counters of the streamer are [int]s).  Backslashes and four-byte characters do not
    survive ([json_backslash_not_reparsed], [json_four_bytes_mangled]). *)
Theorem json_roundtrip strtod format_f o :
  json_ok o -> Z.of_nat (length (qobject_to_json format_f o)) < 2 ^ 31 ->
  exists o', qobject_from_json strtod (qobject_to_json format_f o) = Ret (Some o') /\ qeq o o'.
Proof.
  intros Ho Hlen. exists (rebuild o). split; [|by apply rebuild_qeq].
  unfold qobject_to_json in *. rewrite to_json_texts in * by done. simpl app in *.
  destruct (lex_printed o Ho) as (ems & El & Hr).
  assert (Z.of_nat (length ems) < 2 ^ 31) as Hn.
  { rewrite (Forall2_length _ _ _ Hr). destruct (lexemes_seg o Ho JSON_SKIP) as (t & _ & Hs); [by right|].
    pose proof (length_texts _ (seg_lexeme_ok _ _ _ Hs)). unfold visible in *. lia. }
  rewrite (from_json_lexed _ _ _ _ El (process_printed o ems Ho Hr Hn)).
  unfold json_parser_parse. rewrite qlist_copy_id, length_map, <- (app_nil_r (map token_dict ems)).
  rewrite (parses_lexemes strtod o Ho) by (done || lia). done.
Qed.

Definition sample : QObject :=
  QList [QInt (-7); QDict (qdict_put_obj qdict_new (str "a") (QBool 1))].

Lemma json_roundtrip_witness :
  exists o', qobject_from_json (fun _ => 0) (qobject_to_json (fun _ => []) sample) = Ret (Some o') /\ qeq sample o'.
Proof.
  apply json_roundtrip; [|vm_compute; reflexivity].
  assert (entries (qdict_put_obj qdict_new (str "a") (QBool 1)) = [(str "a", QBool 1)]) as E by (vm_compute; reflexivity).
  apply ok_list. intros x Hx. rewrite !elem_of_cons, elem_of_nil in Hx.
  destruct_or! Hx; subst; [apply ok_int; unfold is_s; lia|].
  apply ok_dict; [apply qdict_put_wf, qdict_new_wf|..]; rewrite E; intros k v Hk;
    apply list_elem_of_singleton in Hk; injection Hk as -> ->.
  - repeat constructor; vm_compute; done.
  - constructor.
Defined.

(** A string with a backslash does not survive: [qobject_to_json] prints the
    backslash as an escape of its own, which the parser would accept but the lexer's escape
    states do not, so that [qobject_from_json] of the printed text gives NULL. *)
Theorem json_backslash_not_reparsed strtod format_f p s :
  utf8_text p ->
  qobject_from_json strtod (qobject_to_json format_f (QString (p ++ 92 :: s))) = Ret None.
Proof.
  intros Hp. unfold qobject_to_json. cbn [to_json app]. unfold quote_string.
  rewrite escape_string_app, escape_string_1 by (done || lia).
  change (char_escape 92) with [92; 92].
  assert (path IN_START ([34] ++ escape_string p ++ [92]) IN_DQ_STRING_ESCAPE) as Hpath.
  { apply path_app with IN_DQ_STRING; [by apply pathb_path|].
    eapply path_app; [by apply path_escape_string|by apply pathb_path]. }
  destruct (feed_path json_lexer_init _ _ Hpath) as (x & y & E).
  eapply from_json_lex_error;
    [replace ([34] ++ (escape_string p ++ [92; 92] ++ escape_string s) ++ [34])
       with (([34] ++ escape_string p ++ [92]) ++ 92 :: escape_string s ++ [34])
       by (rewrite <- !app_assoc; done);
     rewrite json_lexer_feed_app, E; reflexivity|reflexivity].
Qed.

Lemma json_backslash_not_reparsed_witness :
  qobject_from_json (fun _ => 0) (qobject_to_json (fun _ => []) (QString (str "a\b"))) = Ret None.
Proof. apply (json_backslash_not_reparsed _ _ (str "a") (str "b")). repeat constructor; vm_compute; done. Defined.

(** A character outside the basic multilingual plane is taken for one of three bytes and a
    stray byte: U+1F600 comes back as other bytes. *)
Lemma json_four_bytes_mangled strtod format_f :
  qobject_from_json strtod (qobject_to_json format_f (QString [0xF0; 0x9F; 0x98; 0x80])) = Ret (Some (QString [0xDF; 0x98; 0x80])).
Proof. by vm_compute. Qed.

(** An object whose first key is an operator, such as [{,}], makes the parser
    dereference NULL: [parse_pair] asks the type of the key it failed to parse. *)
Theorem json_null_key_faults strtod e1 e2 c rest :
  em_matches e1 (op "{") -> em_matches e2 (op c) -> c ∈ [","; ":"; "]"]%char ->
  json_parser_parse strtod (token_dict e1 :: token_dict e2 :: rest) None = Fault.
Proof.
  intros H1 H2 Hc. unfold json_parser_parse. rewrite qlist_copy_id. cbn [length].
  set (n := S (S (length rest))). cbn [parse_value]. unfold parse_object at 1. rewrite qlist_copy_id. cbn [ps_tokens qlist_pop].
  rewrite (is_operator_op _ _ _ H1). change (chr "{" =? chr "{") with true. cbn [obind negb].
  unfold with_tokens. cbn [ps_tokens ps_ap qlist_peek]. rewrite (is_operator_op _ _ _ H2).
  replace (chr c =? chr "}") with false
    by (rewrite !elem_of_cons, elem_of_nil in Hc; destruct_or! Hc; subst; done).
  cbn [obind negb]. unfold parse_pair at 1. rewrite qlist_copy_id. unfold with_tokens. cbn [ps_tokens ps_ap].
  unfold n. by rewrite (parse_value_operator strtod _ e2 c).
Qed.

Lemma json_null_key_faults_witness :
  json_parser_parse (fun _ => 0)
    [token_dict {| em_token := str "{"; em_type := JSON_OPERATOR; em_x := 1; em_y := 0 |};
     token_dict {| em_token := str ","; em_type := JSON_OPERATOR; em_x := 2; em_y := 0 |};
     token_dict {| em_token := str "}"; em_type := JSON_OPERATOR; em_x := 3; em_y := 0 |}] None = Fault.
Proof. eapply json_null_key_faults with (c := ","%char); [done|done|set_solver]. Defined.

(** The text of the witness of C20, from the top. *)
Example null_key_text : qobject_from_json (fun _ => 0) (str "{,}") = Fault.
Proof. vm_compute. reflexivity. Qed.
