(* ===== verification/Aes.v ===== *)
(** * AES: key expansion, block cipher and CBC mode, aes.c

    The code of the source that is compiled ([FULL_UNROLL] is undefined).  A key schedule is
    an array of 60 words: a read or write outside it is a [Fault].  The block functions are
    the rounds over four words with the tables of AesTables.v; [AES_cbc_encrypt] works on
    one memory in which the input and the output buffer may overlap. *)

From S2P Require Import Prelude AesTables.

Open Scope Z_scope.

Abbreviation res A := (outcome Empty_set A).

(** ** Data *)
Record AES_KEY := { rd_key : list Z; rounds : Z }.

(** The four words [s0..s3] of the cipher state. *)
Inductive quad := Q (s0 s1 s2 s3 : Z).

Definition rd (a : list Z) (i : nat) : res Z := oget (a !! i).
Definition wr (a : list Z) (i : nat) (v : Z) : res (list Z) :=
  if bool_decide (i < length a)%nat then Ret (<[i := v]> a) else Fault.

Definition GETU32 (pt : list Z) (i : nat) : res Z :=
  let! a := rd pt i in let! b := rd pt (i + 1) in
  let! c := rd pt (i + 2) in let! d := rd pt (i + 3) in Ret (word a b c d).

Definition PUTU32 (st : Z) : list Z :=
  [u8 (Z.shiftr st 24); u8 (Z.shiftr st 16); u8 (Z.shiftr st 8); u8 st].

(** ** Key expansion *)

(** The masked S-box lookups, with and without the rotation of the word. *)
Definition sub_rot (temp : Z) : Z :=
  Z.lxor (Z.lxor (Z.lxor (Z.land (tab Te4 (b2 temp)) 0xff000000) (Z.land (tab Te4 (b1 temp)) 0x00ff0000))
                 (Z.land (tab Te4 (b0 temp)) 0x0000ff00))
         (Z.land (tab Te4 (b3 temp)) 0x000000ff).

Definition sub_word (temp : Z) : Z :=
  Z.lxor (Z.lxor (Z.lxor (Z.land (tab Te4 (b3 temp)) 0xff000000) (Z.land (tab Te4 (b2 temp)) 0x00ff0000))
                 (Z.land (tab Te4 (b1 temp)) 0x0000ff00))
         (Z.land (tab Te4 (b0 temp)) 0x000000ff).

(** [rk[dst] = rk[a] ^ rk[b]]. *)
Definition xor_to (rk : list Z) (dst a b : nat) : res (list Z) :=
  let! x := rd rk a in let! y := rd rk b in wr rk dst (Z.lxor x y).

(** [rk[dst] = rk[a] ^ f(rk[t]) ^ rcon[i]] and [rk[dst] = rk[a] ^ f(rk[t])]. *)
Definition rot_to (rk : list Z) (dst a t i : nat) : res (list Z) :=
  let! temp := rd rk t in let! x := rd rk a in let! c := oget (rcon !! i) in
  wr rk dst (Z.lxor (Z.lxor x (sub_rot temp)) c).
Definition sub_to (rk : list Z) (dst a t : nat) : res (list Z) :=
  let! temp := rd rk t in let! x := rd rk a in wr rk dst (Z.lxor x (sub_word temp)).

(** The three loops; [o] is the offset of the pointer [rk] in the array.  The counter [i]
    leaves each loop after 10, 8 and 7 iterations. *)
Fixpoint expand_128 (fuel i o : nat) (rk : list Z) : res (list Z) :=
  match fuel with
  | O => Fault
  | S fuel =>
      let! rk := rot_to rk (o + 4) o (o + 3) i in
      let! rk := xor_to rk (o + 5) (o + 1) (o + 4) in
      let! rk := xor_to rk (o + 6) (o + 2) (o + 5) in
      let! rk := xor_to rk (o + 7) (o + 3) (o + 6) in
      if bool_decide (S i = 10)%nat then Ret rk else expand_128 fuel (S i) (o + 4) rk
  end.

Fixpoint expand_192 (fuel i o : nat) (rk : list Z) : res (list Z) :=
  match fuel with
  | O => Fault
  | S fuel =>
      let! rk := rot_to rk (o + 6) o (o + 5) i in
      let! rk := xor_to rk (o + 7) (o + 1) (o + 6) in
      let! rk := xor_to rk (o + 8) (o + 2) (o + 7) in
      let! rk := xor_to rk (o + 9) (o + 3) (o + 8) in
      if bool_decide (S i = 8)%nat then Ret rk
      else
        let! rk := xor_to rk (o + 10) (o + 4) (o + 9) in
        let! rk := xor_to rk (o + 11) (o + 5) (o + 10) in
        expand_192 fuel (S i) (o + 6) rk
  end.

Fixpoint expand_256 (fuel i o : nat) (rk : list Z) : res (list Z) :=
  match fuel with
  | O => Fault
  | S fuel =>
      let! rk := rot_to rk (o + 8) o (o + 7) i in
      let! rk := xor_to rk (o + 9) (o + 1) (o + 8) in
      let! rk := xor_to rk (o + 10) (o + 2) (o + 9) in
      let! rk := xor_to rk (o + 11) (o + 3) (o + 10) in
      if bool_decide (S i = 7)%nat then Ret rk
      else
        let! rk := sub_to rk (o + 12) (o + 4) (o + 11) in
        let! rk := xor_to rk (o + 13) (o + 5) (o + 12) in
        let! rk := xor_to rk (o + 14) (o + 6) (o + 13) in
        let! rk := xor_to rk (o + 15) (o + 7) (o + 14) in
        expand_256 fuel (S i) (o + 8) rk
  end.

(** [rk[i] = GETU32(userKey + 4 * i)] for the words [from] to [from + n - 1]. *)
Fixpoint load_words (n from : nat) (userKey : list Z) (rk : list Z) : res (list Z) :=
  match n with
  | O => Ret rk
  | S n => let! w := GETU32 userKey (4 * from) in let! rk := wr rk from w in load_words n (S from) userKey rk
  end.

(** A NULL pointer is [None]; the key is the caller's memory and is returned with the
    status. *)
Definition AES_set_encrypt_key (userKey : option (list Z)) (bits : Z) (key : option AES_KEY)
  : res (option AES_KEY * Z) :=
  match userKey, key with
  | Some userKey, Some key =>
      if negb (bits =? 128) && negb (bits =? 192) && negb (bits =? 256) then Ret (Some key, -2)
      else
        let rounds := if bits =? 128 then 10 else if bits =? 192 then 12 else 14 in
        let! rk := load_words 4 0 userKey (rd_key key) in
        let! rk :=
          if bits =? 128 then expand_128 10 0 0 rk
          else
            let! rk := load_words 2 4 userKey rk in
            if bits =? 192 then expand_192 8 0 0 rk
            else
              let! rk := load_words 2 6 userKey rk in
              if bits =? 256 then expand_256 7 0 0 rk else Ret rk in
        Ret (Some {| rd_key := rk; rounds := rounds |}, 0)
  | _, _ => Ret (key, -1)
  end.

(** [temp = rk[i]; rk[i] = rk[j]; rk[j] = temp]. *)
Definition swap_word (rk : list Z) (i j : nat) : res (list Z) :=
  let! temp := rd rk i in let! y := rd rk j in
  let! rk := wr rk i y in wr rk j temp.

Fixpoint invert_order (fuel i j : nat) (rk : list Z) : res (list Z) :=
  if bool_decide (i < j)%nat then
    match fuel with
    | O => Fault
    | S fuel =>
        let! rk := swap_word rk i j in
        let! rk := swap_word rk (i + 1) (j + 1) in
        let! rk := swap_word rk (i + 2) (j + 2) in
        let! rk := swap_word rk (i + 3) (j + 3) in
        invert_order fuel (i + 4) (j - 4) rk
    end
  else Ret rk.

(** The inverse MixColumn transform of a word. *)
Definition inv_mix (w : Z) : Z :=
  Z.lxor (Z.lxor (Z.lxor (tab Td0 (Z.land (tab Te4 (b3 w)) 0xff)) (tab Td1 (Z.land (tab Te4 (b2 w)) 0xff)))
                 (tab Td2 (Z.land (tab Te4 (b1 w)) 0xff)))
         (tab Td3 (Z.land (tab Te4 (b0 w)) 0xff)).

Definition inv_mix_at (rk : list Z) (i : nat) : res (list Z) := let! w := rd rk i in wr rk i (inv_mix w).

(** [n] iterations; [o] is the pointer before the increment. *)
Fixpoint inv_mix_keys (n o : nat) (rk : list Z) : res (list Z) :=
  match n with
  | O => Ret rk
  | S n =>
      let o := (o + 4)%nat in
      let! rk := inv_mix_at rk o in
      let! rk := inv_mix_at rk (o + 1) in
      let! rk := inv_mix_at rk (o + 2) in
      let! rk := inv_mix_at rk (o + 3) in
      inv_mix_keys n o rk
  end.

Definition AES_set_decrypt_key (userKey : option (list Z)) (bits : Z) (key : option AES_KEY)
  : res (option AES_KEY * Z) :=
  let! '(key, status) := AES_set_encrypt_key userKey bits key in
  if status <? 0 then Ret (key, status)
  else
    let! key := oget key in
    let r := Z.to_nat (rounds key) in
    let! rk := invert_order r 0 (4 * r) (rd_key key) in
    let! rk := inv_mix_keys (r - 1) 0 rk in
    Ret (Some {| rd_key := rk; rounds := rounds key |}, 0).

(** ** Blocks *)

(** The words [rk[o..o+3]]. *)
Definition round_key (rk : list Z) (o : nat) : res quad :=
  let! a := rd rk o in let! b := rd rk (o + 1) in
  let! c := rd rk (o + 2) in let! d := rd rk (o + 3) in Ret (Q a b c d).

Definition xor_quad (x y : quad) : quad :=
  let 'Q a b c d := x in let 'Q e f g h := y in
  Q (Z.lxor a e) (Z.lxor b f) (Z.lxor c g) (Z.lxor d h).

Definition GETBLOCK (pt : list Z) : res quad :=
  let! a := GETU32 pt 0 in let! b := GETU32 pt 4 in
  let! c := GETU32 pt 8 in let! d := GETU32 pt 12 in Ret (Q a b c d).

Definition PUTBLOCK (s : quad) : list Z :=
  let 'Q a b c d := s in PUTU32 a ++ PUTU32 b ++ PUTU32 c ++ PUTU32 d.

(** One column of a full round: the words that give byte 3, 2, 1 and 0. *)
Definition te (w x y z : Z) : Z :=
  Z.lxor (Z.lxor (Z.lxor (tab Te0 (b3 w)) (tab Te1 (b2 x))) (tab Te2 (b1 y))) (tab Te3 (b0 z)).
Definition td (w x y z : Z) : Z :=
  Z.lxor (Z.lxor (Z.lxor (tab Td0 (b3 w)) (tab Td1 (b2 x))) (tab Td2 (b1 y))) (tab Td3 (b0 z)).

(** One column of the last round. *)
Definition last4 (T : list Z) (w x y z : Z) : Z :=
  Z.lxor (Z.lxor (Z.lxor (Z.land (tab T (b3 w)) 0xff000000) (Z.land (tab T (b2 x)) 0x00ff0000))
                 (Z.land (tab T (b1 y)) 0x0000ff00))
         (Z.land (tab T (b0 z)) 0x000000ff).

Definition enc_round (s k : quad) : quad :=
  let 'Q a b c d := s in xor_quad (Q (te a b c d) (te b c d a) (te c d a b) (te d a b c)) k.
Definition dec_round (s k : quad) : quad :=
  let 'Q a b c d := s in xor_quad (Q (td a d c b) (td b a d c) (td c b a d) (td d c b a)) k.
Definition enc_last (s k : quad) : quad :=
  let 'Q a b c d := s in
  xor_quad (Q (last4 Te4 a b c d) (last4 Te4 b c d a) (last4 Te4 c d a b) (last4 Te4 d a b c)) k.
Definition dec_last (s k : quad) : quad :=
  let 'Q a b c d := s in
  xor_quad (Q (last4 Td4 a d c b) (last4 Td4 b a d c) (last4 Td4 c b a d) (last4 Td4 d c b a)) k.

(** The loop of full rounds, two per iteration, and the last round.  With [r = 0] the
    counter would pass 0 and the loop leave the key schedule: a [Fault]. *)
Fixpoint crypt_loop (full last : quad -> quad -> quad) (r o : nat) (rk : list Z) (s : quad) : res quad :=
  match r with
  | O => Fault
  | S r =>
      let! k := round_key rk (o + 4) in
      let t := full s k in
      let o := (o + 8)%nat in
      let! k := round_key rk o in
      match r with
      | O => Ret (last t k)
      | S _ => crypt_loop full last r o rk (full t k)
      end
  end.

Definition crypt (full last : quad -> quad -> quad) (input : list Z) (key : AES_KEY) : res (list Z) :=
  let rk := rd_key key in
  let! s := GETBLOCK input in
  let! k := round_key rk 0 in
  let! s := crypt_loop full last (Z.to_nat (Z.shiftr (rounds key) 1)) 0 rk (xor_quad s k) in
  Ret (PUTBLOCK s).

(** The 16 bytes stored to [out]. *)
Definition AES_encrypt (input : list Z) (key : AES_KEY) : res (list Z) := crypt enc_round enc_last input key.
Definition AES_decrypt (input : list Z) (key : AES_KEY) : res (list Z) := crypt dec_round dec_last input key.

(** ** CBC mode

    [mem] is the memory that holds both buffers; [input] and [out] are addresses in it.
    The chaining block [ivec] and the local [tmp] are memory of their own. *)
Definition AES_BLOCK_SIZE : Z := 16.

Definition xor_bytes (a b : list Z) : list Z := zip_with Z.lxor a b.

(** State of the loops: memory, remaining length, the two pointers, the chaining block. *)
Record cbc := { cbc_mem : list Z; cbc_len : Z; cbc_in : Z; cbc_out : Z; cbc_ivec : list Z }.

Definition cbc_enc_block (key : AES_KEY) (s : cbc) : res cbc :=
  let! src := oget (load (cbc_mem s) (cbc_in s) 16) in
  let! iv := oget (load (cbc_ivec s) 0 16) in
  let! c := AES_encrypt (xor_bytes src iv) key in
  let! mem := oget (store (cbc_mem s) (cbc_out s) c) in
  let! o := oget (load mem (cbc_out s) 16) in
  let! ivec := oget (store (cbc_ivec s) 0 o) in
  Ret {| cbc_mem := mem; cbc_len := cbc_len s - 16; cbc_in := cbc_in s + 16; cbc_out := cbc_out s + 16;
         cbc_ivec := ivec |}.

(** The last, partial block is filled up with the chaining block, and 16 bytes are stored. *)
Definition cbc_enc_tail (key : AES_KEY) (s : cbc) : res cbc :=
  let! src := oget (load (cbc_mem s) (cbc_in s) (cbc_len s)) in
  let! iv := oget (load (cbc_ivec s) 0 16) in
  let tmp := xor_bytes src iv ++ drop (Z.to_nat (cbc_len s)) iv in
  let! tmp := AES_encrypt tmp key in
  let! mem := oget (store (cbc_mem s) (cbc_out s) tmp) in
  let! ivec := oget (store (cbc_ivec s) 0 tmp) in
  Ret {| cbc_mem := mem; cbc_len := cbc_len s; cbc_in := cbc_in s; cbc_out := cbc_out s; cbc_ivec := ivec |}.

Definition cbc_dec_block (key : AES_KEY) (s : cbc) : res cbc :=
  let! tmp := oget (load (cbc_mem s) (cbc_in s) 16) in
  let! d := AES_decrypt tmp key in
  let! mem := oget (store (cbc_mem s) (cbc_out s) d) in
  let! o := oget (load mem (cbc_out s) 16) in
  let! iv := oget (load (cbc_ivec s) 0 16) in
  let! mem := oget (store mem (cbc_out s) (xor_bytes o iv)) in
  let! ivec := oget (store (cbc_ivec s) 0 tmp) in
  Ret {| cbc_mem := mem; cbc_len := cbc_len s - 16; cbc_in := cbc_in s + 16; cbc_out := cbc_out s + 16;
         cbc_ivec := ivec |}.

(** The partial block is decrypted in place in [tmp], which then becomes the chaining
    block. *)
Definition cbc_dec_tail (key : AES_KEY) (s : cbc) : res cbc :=
  let! tmp := oget (load (cbc_mem s) (cbc_in s) 16) in
  let! tmp := AES_decrypt tmp key in
  let! iv := oget (load (cbc_ivec s) 0 16) in
  let! mem := oget (store (cbc_mem s) (cbc_out s) (take (Z.to_nat (cbc_len s)) (xor_bytes tmp iv))) in
  let! ivec := oget (store (cbc_ivec s) 0 tmp) in
  Ret {| cbc_mem := mem; cbc_len := cbc_len s; cbc_in := cbc_in s; cbc_out := cbc_out s; cbc_ivec := ivec |}.

(** [while (len >= AES_BLOCK_SIZE)], then [if (len)]. *)
Fixpoint cbc_loop (block tail : cbc -> res cbc) (fuel : nat) (s : cbc) : res cbc :=
  if AES_BLOCK_SIZE <=? cbc_len s then
    match fuel with
    | O => Fault
    | S fuel => let! s := block s in cbc_loop block tail fuel s
    end
  else if negb (cbc_len s =? 0) then tail s else Ret s.

Definition AES_cbc_encrypt (mem : list Z) (input out length : Z) (key : AES_KEY) (ivec : list Z) (enc : Z)
  : res (list Z * list Z) :=
  let s := {| cbc_mem := mem; cbc_len := length; cbc_in := input; cbc_out := out; cbc_ivec := ivec |} in
  let fuel := Z.to_nat (length / 16) in
  let! s :=
    if negb (enc =? 0) then cbc_loop (cbc_enc_block key) (cbc_enc_tail key) fuel s
    else cbc_loop (cbc_dec_block key) (cbc_dec_tail key) fuel s in
  Ret (cbc_mem s, cbc_ivec s).

(** The test vectors of FIPS-197, appendix C: the key 00 01 02 ..., the block 00 11 22 ... *)
Definition zeros60 : AES_KEY := {| rd_key := replicate 60 0; rounds := 0 |}.

Definition encrypt_with (bits : Z) (userKey block : list Z) : res (list Z) :=
  let! '(key, _) := AES_set_encrypt_key (Some userKey) bits (Some zeros60) in
  let! key := oget key in AES_encrypt block key.

Definition fips_block : list Z := map (fun i => 17 * i) (seqZ 0 16).

Example fips197_c1 : encrypt_with 128 (seqZ 0 16) fips_block =
  Ret [0x69; 0xc4; 0xe0; 0xd8; 0x6a; 0x7b; 0x04; 0x30; 0xd8; 0xcd; 0xb7; 0x80; 0x70; 0xb4; 0xc5; 0x5a].
Proof. vm_compute. reflexivity. Qed.

Example fips197_c2 : encrypt_with 192 (seqZ 0 24) fips_block =
  Ret [0xdd; 0xa9; 0x7c; 0xa4; 0x86; 0x4c; 0xdf; 0xe0; 0x6e; 0xaf; 0x70; 0xa0; 0xec; 0x0d; 0x71; 0x91].
Proof. vm_compute. reflexivity. Qed.

Example fips197_c3 : encrypt_with 256 (seqZ 0 32) fips_block =
  Ret [0x8e; 0xa2; 0xb7; 0xca; 0x51; 0x67; 0x45; 0xbf; 0xea; 0xfc; 0x49; 0x90; 0x4b; 0x49; 0x60; 0x89].
Proof. vm_compute. reflexivity. Qed.
