(* ===== verification/AesCipher.v ===== *)
(** * AES: the rounds over words

    Bytes of words, the tables as linear maps over GF(2^8), and the inversion of a run of
    encryption rounds by the equivalent inverse cipher the code uses. *)

From S2P Require Import Prelude AesTables Aes.
From stdpp Require Import list.

Open Scope Z_scope.

(** ** Words and bytes *)
Abbreviation u32v := (is_u 32).

Lemma lxor_is_u w a b : 0 <= w -> is_u w a -> is_u w b -> is_u w (Z.lxor a b).
Proof.
  intros Hw [Ha Ha'] [Hb Hb']. assert (0 <= Z.lxor a b) as H0 by (by apply Z.lxor_nonneg).
  split; [done|]. apply Z.bounded_iff_bits_nonneg; [done..|]. intros l Hl. rewrite Z.lxor_spec.
  rewrite (proj1 (Z.bounded_iff_bits_nonneg w a Hw Ha) Ha' l Hl).
  by rewrite (proj1 (Z.bounded_iff_bits_nonneg w b Hw Hb) Hb' l Hl).
Qed.

Lemma land_lxor a b m : Z.land (Z.lxor a b) m = Z.lxor (Z.land a m) (Z.land b m).
Proof.
  apply Z.bits_inj'. intros n _. rewrite !Z.land_spec, !Z.lxor_spec, !Z.land_spec.
  by destruct (Z.testbit a n), (Z.testbit b n), (Z.testbit m n).
Qed.

Lemma b3_lxor x y : b3 (Z.lxor x y) = Z.lxor (b3 x) (b3 y).
Proof. apply Z.shiftr_lxor. Qed.
Lemma b2_lxor x y : b2 (Z.lxor x y) = Z.lxor (b2 x) (b2 y).
Proof. unfold b2. by rewrite Z.shiftr_lxor, land_lxor. Qed.
Lemma b1_lxor x y : b1 (Z.lxor x y) = Z.lxor (b1 x) (b1 y).
Proof. unfold b1. by rewrite Z.shiftr_lxor, land_lxor. Qed.
Lemma b0_lxor x y : b0 (Z.lxor x y) = Z.lxor (b0 x) (b0 y).
Proof. apply land_lxor. Qed.

Lemma land_ff_byte x : is_byte (Z.land x 0xff).
Proof. change 0xff with (Z.ones 8). rewrite Z.land_ones by lia. by apply Z.mod_pos_bound. Qed.

Lemma b3_byte w : u32v w -> is_byte (b3 w).
Proof.
  intros [H1 H2]. unfold b3, is_byte. rewrite Z.shiftr_div_pow2 by lia.
  split; [apply Z.div_pos; lia|apply Z.div_lt_upper_bound; lia].
Qed.
Lemma b2_byte w : is_byte (b2 w).
Proof. apply land_ff_byte. Qed.
Lemma b1_byte w : is_byte (b1 w).
Proof. apply land_ff_byte. Qed.
Lemma b0_byte w : is_byte (b0 w).
Proof. apply land_ff_byte. Qed.

#[export] Hint Resolve b3_byte b2_byte b1_byte b0_byte : vm.

(** A property of every byte, by computation. *)
Lemma byte_check (P : Z -> bool) : forallZ P 0 256 = true -> forall x, is_byte x -> P x = true.
Proof. intros H x Hx. apply (range_check P 0 256 H). unfold is_byte in Hx. lia. Qed.

Ltac by_bytes x Hx :=
  match goal with
  | |- ?a = ?b =>
      let t := eval pattern x in (a =? b) in
      match t with
      | ?f _ => apply Z.eqb_eq; apply (byte_check f); [vm_compute; reflexivity|exact Hx]
      end
  end.

(** The bytes of a byte in place. *)
Lemma shift_bytes x :
  is_byte x ->
  (b3 (Z.shiftl x 24) = x /\ b2 (Z.shiftl x 24) = 0 /\ b1 (Z.shiftl x 24) = 0 /\ b0 (Z.shiftl x 24) = 0) /\
  (b3 (Z.shiftl x 16) = 0 /\ b2 (Z.shiftl x 16) = x /\ b1 (Z.shiftl x 16) = 0 /\ b0 (Z.shiftl x 16) = 0) /\
  (b3 (Z.shiftl x 8) = 0 /\ b2 (Z.shiftl x 8) = 0 /\ b1 (Z.shiftl x 8) = x /\ b0 (Z.shiftl x 8) = 0) /\
  (b3 x = 0 /\ b2 x = 0 /\ b1 x = 0 /\ b0 x = x).
Proof. intros Hx. split_and!; by_bytes x Hx. Qed.

Lemma bytes_word a b c d :
  is_byte a -> is_byte b -> is_byte c -> is_byte d ->
  b3 (word a b c d) = a /\ b2 (word a b c d) = b /\ b1 (word a b c d) = c /\ b0 (word a b c d) = d.
Proof.
  intros Ha Hb Hc Hd.
  destruct (shift_bytes a Ha) as ((A3 & A2 & A1 & A0) & _).
  destruct (shift_bytes b Hb) as (_ & (B3 & B2 & B1 & B0) & _).
  destruct (shift_bytes c Hc) as (_ & _ & (C3 & C2 & C1 & C0) & _).
  destruct (shift_bytes d Hd) as (_ & _ & _ & (D3 & D2 & D1 & D0)).
  unfold word. rewrite !b3_lxor, !b2_lxor, !b1_lxor, !b0_lxor.
  rewrite A3, A2, A1, A0, B3, B2, B1, B0, C3, C2, C1, C0, D3, D2, D1, D0.
  by rewrite ?Z.lxor_0_r, ?Z.lxor_0_l.
Qed.

Lemma word_bytes w : u32v w -> word (b3 w) (b2 w) (b1 w) (b0 w) = w.
Proof.
  intros [H1 H2]. apply Z.bits_inj'. intros n Hn.
  unfold word, b3, b2, b1, b0. change 255 with (Z.ones 8).
  rewrite !Z.lxor_spec, !Z.shiftl_spec by done.
  destruct (decide (n < 8)); [|destruct (decide (n < 16)); [|destruct (decide (n < 24))]];
    repeat first
      [ rewrite (Z.testbit_neg_r _ (n - 24)) by lia | rewrite (Z.testbit_neg_r _ (n - 16)) by lia
      | rewrite (Z.testbit_neg_r _ (n - 8)) by lia ];
    rewrite ?Z.land_spec, ?Z.shiftr_spec by lia;
    rewrite ?Z.testbit_ones_nonneg by lia;
    repeat match goal with
    | |- context [?x <? 8] => destruct (Z.ltb_spec x 8); try lia
    end;
    rewrite ?andb_true_r, ?andb_false_r, ?xorb_false_r, ?xorb_false_l;
    f_equal; lia.
Qed.

Lemma word_u32 a b c d : is_byte a -> is_byte b -> is_byte c -> is_byte d -> u32v (word a b c d).
Proof.
  unfold is_byte, word. intros Ha Hb Hc Hd.
  repeat (apply lxor_is_u; [lia|..]); unfold is_u; rewrite ?Z.shiftl_mul_pow2 by lia; lia.
Qed.

(** ** Tables: bounds, and what the proofs need of their contents *)
Lemma tab_u32 t x : Forall u32v t -> u32v (tab t x).
Proof.
  intros Ht. unfold tab. generalize (Z.to_nat x) as n.
  induction Ht as [|v t Hv _ IH]; intros [|n]; simpl; auto; split; lia.
Qed.

Lemma forallb_u32 t : forallb (fun v => (0 <=? v) && (v <? 2 ^ 32)) t = true -> Forall u32v t.
Proof.
  intros H. rewrite forallb_forall in H. apply List.Forall_forall. intros v Hv. specialize (H v Hv). bool_hyps.
  split; lia.
Qed.

Ltac table_bound := intros; apply tab_u32, forallb_u32; vm_compute; reflexivity.

Lemma Te0_u32 x : u32v (tab Te0 x). Proof. table_bound. Qed.
Lemma Te1_u32 x : u32v (tab Te1 x). Proof. table_bound. Qed.
Lemma Te2_u32 x : u32v (tab Te2 x). Proof. table_bound. Qed.
Lemma Te3_u32 x : u32v (tab Te3 x). Proof. table_bound. Qed.
Lemma Te4_u32 x : u32v (tab Te4 x). Proof. table_bound. Qed.
Lemma Td0_u32 x : u32v (tab Td0 x). Proof. table_bound. Qed.
Lemma Td1_u32 x : u32v (tab Td1 x). Proof. table_bound. Qed.
Lemma Td2_u32 x : u32v (tab Td2 x). Proof. table_bound. Qed.
Lemma Td3_u32 x : u32v (tab Td3 x). Proof. table_bound. Qed.
Lemma Td4_u32 x : u32v (tab Td4 x). Proof. table_bound. Qed.

Lemma land_u32 x m : u32v x -> 0 <= m -> u32v (Z.land x m).
Proof.
  intros [H1 H2] Hm. assert (0 <= Z.land x m) by (apply Z.land_nonneg; auto). split; [done|].
  apply Z.bounded_iff_bits_nonneg; [lia|done|]. intros l Hl.
  by rewrite Z.land_spec, (proj1 (Z.bounded_iff_bits_nonneg 32 x ltac:(lia) H1) H2 l Hl).
Qed.

Lemma lxor_u32 a b : u32v a -> u32v b -> u32v (Z.lxor a b).
Proof. by apply lxor_is_u. Qed.

Lemma land_u32_ff x : u32v x -> u32v (Z.land x 0xff).
Proof. intros. by apply land_u32. Qed.

#[export] Hint Resolve Te0_u32 Te1_u32 Te2_u32 Te3_u32 Te4_u32 Td0_u32 Td1_u32 Td2_u32 Td3_u32 Td4_u32
  lxor_u32 word_u32 : vm.
#[export] Hint Extern 3 (is_u 32 (Z.land _ _)) => (apply land_u32; [|lia]) : vm.

Definition Sb (x : Z) : Z := Z.land (tab Te4 x) 0xff.

Lemma Sb_byte x : is_byte (Sb x).
Proof. apply land_ff_byte. Qed.
#[export] Hint Resolve Sb_byte : vm.

(** The masked entries of [Te4] and [Td4] are the S-box value and its inverse, in place. *)
Lemma Te4_masks x : is_byte x ->
  Z.land (tab Te4 x) 0xff000000 = Z.shiftl (Sb x) 24 /\ Z.land (tab Te4 x) 0x00ff0000 = Z.shiftl (Sb x) 16 /\
  Z.land (tab Te4 x) 0x0000ff00 = Z.shiftl (Sb x) 8.
Proof. intros Hx. split_and!; by_bytes x Hx. Qed.

Lemma Td4_masks x : is_byte x ->
  Z.land (tab Td4 (Sb x)) 0xff000000 = Z.shiftl x 24 /\ Z.land (tab Td4 (Sb x)) 0x00ff0000 = Z.shiftl x 16 /\
  Z.land (tab Td4 (Sb x)) 0x0000ff00 = Z.shiftl x 8 /\ Z.land (tab Td4 (Sb x)) 0x000000ff = x.
Proof. intros Hx. split_and!; by_bytes x Hx. Qed.

(** The last round of encryption puts S-box values side by side. *)
Lemma last4_Te4 w x y z : u32v w -> last4 Te4 w x y z = word (Sb (b3 w)) (Sb (b2 x)) (Sb (b1 y)) (Sb (b0 z)).
Proof.
  intros Hw. unfold last4, word.
  destruct (Te4_masks (b3 w)) as (-> & _ & _); [auto with vm|].
  destruct (Te4_masks (b2 x)) as (_ & -> & _); [auto with vm|].
  destruct (Te4_masks (b1 y)) as (_ & _ & ->); [auto with vm|]. done.
Qed.

(** Multiplication in the field is linear, *)
Lemma xtime_lxor x y : is_byte x -> is_byte y -> xtime (Z.lxor x y) = Z.lxor (xtime x) (xtime y).
Proof.
  intros Hx Hy. apply Z.eqb_eq.
  assert (forallZ (fun x => forallZ (fun y => xtime (Z.lxor x y) =? Z.lxor (xtime x) (xtime y)) 0 256) 0 256 = true)
    as H by (vm_compute; reflexivity).
  pose proof (byte_check _ H x Hx) as Hr. cbv beta in Hr. exact (byte_check _ Hr y Hy).
Qed.

Lemma xtime_byte x : is_byte x -> is_byte (xtime x).
Proof.
  intros Hx. assert ((0 <=? xtime x) && (xtime x <? 256) = true) as H.
  { apply (byte_check (fun x => (0 <=? xtime x) && (xtime x <? 256))); [vm_compute; reflexivity|done]. }
  bool_hyps. done.
Qed.

Lemma gmul_bits_lxor n x y a :
  is_byte x -> is_byte y -> gmul_bits n (Z.lxor x y) a = Z.lxor (gmul_bits n x a) (gmul_bits n y a).
Proof.
  revert x y a. induction n as [|n IH]; intros x y a Hx Hy; [done|]. cbn [gmul_bits].
  rewrite xtime_lxor, IH by auto using xtime_byte.
  apply Z.bits_inj'. intros k _. destruct (Z.testbit a 0); rewrite !Z.lxor_spec, ?Z.bits_0;
    destruct (Z.testbit x k), (Z.testbit y k), (Z.testbit _ k), (Z.testbit _ k); done.
Qed.

Lemma gmul_bits_byte n x a : is_byte x -> is_byte (gmul_bits n x a).
Proof.
  revert x a. induction n as [|n IH]; intros x a Hx; [unfold is_byte; simpl; lia|]. cbn [gmul_bits].
  apply lxor_byte; [destruct (Z.testbit a 0); [done|unfold is_byte; lia]|]. auto using xtime_byte.
Qed.

Lemma gmul_byte x a : is_byte x -> is_byte (gmul x a).
Proof. apply gmul_bits_byte. Qed.

#[export] Hint Resolve gmul_byte : vm.

Lemma lxor_swap4 a b c d e f g h :
  Z.lxor (Z.lxor (Z.lxor (Z.lxor a e) (Z.lxor b f)) (Z.lxor c g)) (Z.lxor d h) =
  Z.lxor (Z.lxor (Z.lxor (Z.lxor a b) c) d) (Z.lxor (Z.lxor (Z.lxor e f) g) h).
Proof.
  apply Z.bits_inj'. intros n _. rewrite !Z.lxor_spec.
  by destruct (Z.testbit a n), (Z.testbit b n), (Z.testbit c n), (Z.testbit d n), (Z.testbit e n),
    (Z.testbit f n), (Z.testbit g n), (Z.testbit h n).
Qed.

Lemma scale_lxor x y a b c d :
  is_byte x -> is_byte y -> scale (Z.lxor x y) a b c d = Z.lxor (scale x a b c d) (scale y a b c d).
Proof.
  intros Hx Hy. unfold scale, word, gmul. rewrite !gmul_bits_lxor by done.
  rewrite !Z.shiftl_lxor. apply lxor_swap4.
Qed.

(** and the inverse MixColumn is built from such products, *)
Lemma Td_scale x : is_byte x ->
  tab Td0 (Sb x) = scale x 0xe 9 0xd 0xb /\ tab Td1 (Sb x) = scale x 0xb 0xe 9 0xd /\
  tab Td2 (Sb x) = scale x 0xd 0xb 0xe 9 /\ tab Td3 (Sb x) = scale x 9 0xd 0xb 0xe.
Proof. intros Hx. split_and!; by_bytes x Hx. Qed.

Lemma Td_linear x y : is_byte x -> is_byte y ->
  tab Td0 (Sb (Z.lxor x y)) = Z.lxor (tab Td0 (Sb x)) (tab Td0 (Sb y)) /\
  tab Td1 (Sb (Z.lxor x y)) = Z.lxor (tab Td1 (Sb x)) (tab Td1 (Sb y)) /\
  tab Td2 (Sb (Z.lxor x y)) = Z.lxor (tab Td2 (Sb x)) (tab Td2 (Sb y)) /\
  tab Td3 (Sb (Z.lxor x y)) = Z.lxor (tab Td3 (Sb x)) (tab Td3 (Sb y)).
Proof.
  intros Hx Hy. destruct (Td_scale x Hx) as (-> & -> & -> & ->), (Td_scale y Hy) as (-> & -> & -> & ->).
  destruct (Td_scale (Z.lxor x y)) as (-> & -> & -> & ->); [auto with vm|].
  by rewrite !scale_lxor.
Qed.

Lemma inv_mix_Sb w : inv_mix w =
  Z.lxor (Z.lxor (Z.lxor (tab Td0 (Sb (b3 w))) (tab Td1 (Sb (b2 w)))) (tab Td2 (Sb (b1 w)))) (tab Td3 (Sb (b0 w))).
Proof. done. Qed.

Lemma inv_mix_lxor x y : u32v x -> u32v y -> inv_mix (Z.lxor x y) = Z.lxor (inv_mix x) (inv_mix y).
Proof.
  intros Hx Hy. rewrite !inv_mix_Sb, b3_lxor, b2_lxor, b1_lxor, b0_lxor.
  destruct (Td_linear (b3 x) (b3 y)) as (-> & _); [auto with vm..|].
  destruct (Td_linear (b2 x) (b2 y)) as (_ & -> & _); [auto with vm..|].
  destruct (Td_linear (b1 x) (b1 y)) as (_ & _ & -> & _); [auto with vm..|].
  destruct (Td_linear (b0 x) (b0 y)) as (_ & _ & _ & ->); [auto with vm..|].
  apply lxor_swap4.
Qed.

(** and undoes the MixColumn of the encryption tables. *)
Lemma inv_mix_table x : is_byte x ->
  inv_mix (tab Te0 x) = Z.shiftl (Sb x) 24 /\ inv_mix (tab Te1 x) = Z.shiftl (Sb x) 16 /\
  inv_mix (tab Te2 x) = Z.shiftl (Sb x) 8 /\ inv_mix (tab Te3 x) = Sb x.
Proof. intros Hx. split_and!; by_bytes x Hx. Qed.

Lemma inv_mix_te w x y z : u32v w -> inv_mix (te w x y z) = last4 Te4 w x y z.
Proof.
  intros Hw. rewrite last4_Te4 by done. unfold te, word.
  rewrite !inv_mix_lxor by auto 6 with vm.
  destruct (inv_mix_table (b3 w)) as (-> & _); [auto with vm|].
  destruct (inv_mix_table (b2 x)) as (_ & -> & _); [auto with vm|].
  destruct (inv_mix_table (b1 y)) as (_ & _ & -> & _); [auto with vm|].
  destruct (inv_mix_table (b0 z)) as (_ & _ & _ & ->); [auto with vm|]. done.
Qed.

(** A decryption column over the words of a last round. *)
Lemma td_last4 a x1 x2 x3 y0 y2 y3 z0 z1 z3 w0 w1 w2 :
  u32v a -> u32v y0 -> u32v z0 -> u32v w0 ->
  td (last4 Te4 a x1 x2 x3) (last4 Te4 y0 a y2 y3) (last4 Te4 z0 z1 a z3) (last4 Te4 w0 w1 w2 a) = inv_mix a.
Proof.
  intros Ha Hy Hz Hw. rewrite !last4_Te4 by done. unfold td. rewrite inv_mix_Sb.
  destruct (bytes_word (Sb (b3 a)) (Sb (b2 x1)) (Sb (b1 x2)) (Sb (b0 x3))) as (-> & _); auto with vm.
  destruct (bytes_word (Sb (b3 y0)) (Sb (b2 a)) (Sb (b1 y2)) (Sb (b0 y3))) as (_ & -> & _); auto with vm.
  destruct (bytes_word (Sb (b3 z0)) (Sb (b2 z1)) (Sb (b1 a)) (Sb (b0 z3))) as (_ & _ & -> & _); auto with vm.
  destruct (bytes_word (Sb (b3 w0)) (Sb (b2 w1)) (Sb (b1 w2)) (Sb (b0 a))) as (_ & _ & _ & ->); auto with vm.
Qed.

Lemma last_last4 a x1 x2 x3 y0 y2 y3 z0 z1 z3 w0 w1 w2 :
  u32v a -> u32v y0 -> u32v z0 -> u32v w0 ->
  last4 Td4 (last4 Te4 a x1 x2 x3) (last4 Te4 y0 a y2 y3) (last4 Te4 z0 z1 a z3) (last4 Te4 w0 w1 w2 a) = a.
Proof.
  intros Ha Hy Hz Hw. rewrite !last4_Te4 by done. unfold last4.
  destruct (bytes_word (Sb (b3 a)) (Sb (b2 x1)) (Sb (b1 x2)) (Sb (b0 x3))) as (-> & _); auto with vm.
  destruct (bytes_word (Sb (b3 y0)) (Sb (b2 a)) (Sb (b1 y2)) (Sb (b0 y3))) as (_ & -> & _); auto with vm.
  destruct (bytes_word (Sb (b3 z0)) (Sb (b2 z1)) (Sb (b1 a)) (Sb (b0 z3))) as (_ & _ & -> & _); auto with vm.
  destruct (bytes_word (Sb (b3 w0)) (Sb (b2 w1)) (Sb (b1 w2)) (Sb (b0 a))) as (_ & _ & _ & ->); auto with vm.
  destruct (Td4_masks (b3 a)) as (-> & _); [auto with vm|].
  destruct (Td4_masks (b2 a)) as (_ & -> & _); [auto with vm|].
  destruct (Td4_masks (b1 a)) as (_ & _ & -> & _); [auto with vm|].
  destruct (Td4_masks (b0 a)) as (_ & _ & _ & ->); [auto with vm|]. by apply word_bytes.
Qed.

(** ** Rounds *)
Definition quad_ok (q : quad) : Prop := let 'Q a b c d := q in u32v a /\ u32v b /\ u32v c /\ u32v d.

Definition inv_mix_quad (q : quad) : quad := let 'Q a b c d := q in Q (inv_mix a) (inv_mix b) (inv_mix c) (inv_mix d).

(** The last round without its key: SubBytes and ShiftRows. *)
Definition sub_shift (s : quad) : quad :=
  let 'Q a b c d := s in Q (last4 Te4 a b c d) (last4 Te4 b c d a) (last4 Te4 c d a b) (last4 Te4 d a b c).

Lemma lxor_cancel a b : Z.lxor (Z.lxor a b) b = a.
Proof. by rewrite Z.lxor_assoc, Z.lxor_nilpotent, Z.lxor_0_r. Qed.

Lemma xor_quad_cancel x y : xor_quad (xor_quad x y) y = x.
Proof. destruct x, y. simpl. by rewrite !lxor_cancel. Qed.

Lemma xor_quad_ok x y : quad_ok x -> quad_ok y -> quad_ok (xor_quad x y).
Proof. destruct x, y. simpl. intros (? & ? & ? & ?) (? & ? & ? & ?). auto with vm. Qed.

Lemma te_u32 w x y z : u32v (te w x y z).
Proof. unfold te. auto 6 with vm. Qed.

Lemma enc_round_ok s k : quad_ok k -> quad_ok (enc_round s k).
Proof. intros Hk. destruct s. apply xor_quad_ok; [|done]. simpl. auto using te_u32. Qed.

Lemma last4_u32 w x y z : u32v (last4 Te4 w x y z).
Proof. unfold last4. auto 8 with vm. Qed.

Lemma sub_shift_ok s : quad_ok (sub_shift s).
Proof. destruct s. simpl. auto using last4_u32. Qed.

Lemma inv_mix_u32 w : u32v (inv_mix w).
Proof. unfold inv_mix. auto 8 with vm. Qed.

Lemma inv_mix_quad_xor x y :
  quad_ok x -> quad_ok y -> inv_mix_quad (xor_quad x y) = xor_quad (inv_mix_quad x) (inv_mix_quad y).
Proof. destruct x, y. simpl. intros (? & ? & ? & ?) (? & ? & ? & ?). by rewrite !inv_mix_lxor. Qed.

(** A decryption round undoes the encryption round before it. *)
Lemma dec_round_sub_shift u k : quad_ok u -> dec_round (sub_shift u) k = xor_quad (inv_mix_quad u) k.
Proof. destruct u. simpl quad_ok. intros (? & ? & ? & ?). simpl. by rewrite !td_last4. Qed.

Lemma dec_enc_round v k :
  quad_ok v -> quad_ok k -> dec_round (sub_shift (enc_round v k)) (inv_mix_quad k) = sub_shift v.
Proof.
  intros Hv Hk. rewrite dec_round_sub_shift by (by apply enc_round_ok).
  destruct v as [a b c d]. cbn [enc_round]. rewrite inv_mix_quad_xor by (simpl; auto using te_u32).
  rewrite xor_quad_cancel. destruct Hv as (? & ? & ? & ?). simpl. by rewrite !inv_mix_te.
Qed.

Lemma dec_last_sub_shift v k : quad_ok v -> dec_last (sub_shift v) k = xor_quad v k.
Proof. destruct v. simpl quad_ok. intros (? & ? & ? & ?). simpl. by rewrite !last_last4. Qed.

(** The rounds of a schedule: the first key, the keys of the full rounds, the last key. *)
Definition run (full last : quad -> quad -> quad) (k0 : quad) (ks : list quad) (kl : quad) (s : quad) : quad :=
  last (fold_left full ks (xor_quad s k0)) kl.

Lemma dec_enc_rounds ks s :
  Forall quad_ok ks -> quad_ok s ->
  fold_left dec_round (map inv_mix_quad (rev ks)) (sub_shift (fold_left enc_round ks s)) = sub_shift s.
Proof.
  intros Hks. revert s. induction Hks as [|k ks Hk _ IH]; intros s Hs; [done|].
  cbn [fold_left rev]. rewrite map_app, fold_left_app, IH by (by apply enc_round_ok).
  cbn [map fold_left]. by apply dec_enc_round.
Qed.

Lemma run_inverse k0 ks kl s :
  quad_ok k0 -> Forall quad_ok ks -> quad_ok s ->
  run dec_round dec_last kl (map inv_mix_quad (rev ks)) k0 (run enc_round enc_last k0 ks kl s) = s.
Proof.
  intros H0 Hks Hs. unfold run.
  replace (enc_last (fold_left enc_round ks (xor_quad s k0)) kl)
    with (xor_quad (sub_shift (fold_left enc_round ks (xor_quad s k0))) kl)
    by (by destruct (fold_left enc_round ks (xor_quad s k0))).
  rewrite xor_quad_cancel, dec_enc_rounds by auto using xor_quad_ok.
  rewrite dec_last_sub_shift by auto using xor_quad_ok. apply xor_quad_cancel.
Qed.

(** ** The loops read the schedule in order *)
Definition flat (ks : list quad) : list Z := concat (map (fun '(Q a b c d) => [a; b; c; d]) ks).

Lemma length_flat ks : length (flat ks) = (4 * length ks)%nat.
Proof. unfold flat. induction ks as [|[] ks IH]; simpl in *; [done|]. rewrite IH. lia. Qed.

Lemma flat_app a b : flat (a ++ b) = flat a ++ flat b.
Proof. unfold flat. by rewrite map_app, concat_app. Qed.

Lemma rd_app pre l n i : n = (length pre + i)%nat -> rd (pre ++ l) n = rd l i.
Proof. intros ->. unfold rd. by rewrite lookup_app_r, Nat.add_comm, Nat.add_sub by lia. Qed.

Lemma round_key_flat pre k ks post o :
  o = length pre -> round_key (pre ++ flat (k :: ks) ++ post) o = Ret k.
Proof.
  intros ->. destruct k as [a b c d]. unfold round_key.
  rewrite (rd_app pre _ _ 0), (rd_app pre _ _ 1), (rd_app pre _ _ 2), (rd_app pre _ _ 3) by lia. done.
Qed.

Lemma crypt_loop_SS full last r o rk s :
  crypt_loop full last (S (S r)) o rk s =
  let! k := round_key rk (o + 4) in let! k' := round_key rk (o + 8) in
  crypt_loop full last (S r) (o + 8) rk (full (full s k) k').
Proof. done. Qed.

Lemma crypt_loop_run full last r ks kl pre post o s :
  length pre = (o + 4)%nat -> S (length ks) = (2 * S r)%nat ->
  crypt_loop full last (S r) o (pre ++ flat (ks ++ [kl]) ++ post) s = Ret (last (fold_left full ks s) kl).
Proof.
  revert ks pre o s. induction r as [|r IH]; intros ks pre o s Hpre Hks.
  - destruct ks as [|k [|? ?]]; simpl in Hks; try lia. cbn [crypt_loop app].
    rewrite round_key_flat by lia. cbn [obind].
    rewrite (flat_app [k] [kl] : flat [k; kl] = _), <- app_assoc, (app_assoc pre).
    rewrite round_key_flat by (rewrite length_app, length_flat; simpl; lia). done.
  - destruct ks as [|k [|k2 ks]]; simpl in Hks; try lia.
    rewrite crypt_loop_SS. cbn [app]. rewrite round_key_flat by lia. cbn [obind].
    rewrite (flat_app [k] _ : flat (k :: k2 :: ks ++ [kl]) = _), <- app_assoc, (app_assoc pre).
    rewrite round_key_flat by (rewrite length_app, length_flat; simpl; lia). cbn [obind fold_left].
    rewrite (flat_app [k2] _ : flat (k2 :: ks ++ [kl]) = _), <- (app_assoc (flat [k2])), (app_assoc (pre ++ flat [k])).
    by rewrite IH by (rewrite ?length_app, ?length_flat; simpl; lia).
Qed.

(** ** Blocks of bytes *)
Definition block_ok (b : list Z) : Prop := length b = 16%nat /\ bytes b.

Lemma PUTU32_bytes w : u32v w -> PUTU32 w = [b3 w; b2 w; b1 w; b0 w].
Proof.
  intros Hw. unfold PUTU32, wrap, b2, b1, b0. change 0xff with (Z.ones 8). rewrite !Z.land_ones by lia.
  f_equal. apply Z.mod_small. by apply b3_byte.
Qed.

Lemma get_block b : block_ok b -> exists q, GETBLOCK b = Ret q /\ quad_ok q /\ PUTBLOCK q = b.
Proof.
  intros [Hlen Hb]. do 16 (destruct b as [|? b]; [discriminate Hlen|]). destruct b; [|discriminate Hlen].
  rewrite !Forall_cons in Hb. destruct_and! Hb.
  eexists. split; [reflexivity|]. split; [unfold quad_ok; split_and!; by apply word_u32|].
  unfold PUTBLOCK. rewrite !PUTU32_bytes by (by apply word_u32).
  repeat match goal with
  | |- context [b3 (word ?a ?b ?c ?d)] => destruct (bytes_word a b c d) as (-> & -> & -> & ->); [done..|]
  end. done.
Qed.

Lemma get_put q : quad_ok q -> GETBLOCK (PUTBLOCK q) = Ret q /\ block_ok (PUTBLOCK q).
Proof.
  destruct q as [a b c d]. intros (Ha & Hb & Hc & Hd). unfold PUTBLOCK. rewrite !PUTU32_bytes by done.
  split; [|split; [done|]].
  - unfold GETBLOCK, GETU32. simpl. by rewrite !word_bytes.
  - cbn [app]. rewrite !Forall_cons. split_and!; try apply land_ff_byte; try (by apply b3_byte). done.
Qed.
