(* ===== verification/AesKeys.v ===== *)
(** * AES: the key schedules

    Key expansion against FIPS-197, section 5.2, for the three key lengths, within the
    bounds of the array; the decryption schedule as the reversed encryption schedule with
    the inverse MixColumn applied to the inner round keys. *)

From S2P Require Import Prelude AesTables Aes AesCipher.
From stdpp Require Import list.

Open Scope Z_scope.

(** ** FIPS-197: KeyExpansion *)
Definition SubWord (w : Z) : Z := word (sbox (b3 w)) (sbox (b2 w)) (sbox (b1 w)) (sbox (b0 w)).
Definition RotWord (w : Z) : Z := word (b2 w) (b1 w) (b0 w) (b3 w).
Definition Rcon (j : nat) : Z := Z.shiftl (Z.iter (Z.of_nat j - 1) xtime 1) 24.

(** The word [w[i]], [i] being the number of words before it. *)
Definition next_word (nk : nat) (w : list Z) : Z :=
  let i := length w in
  let temp := nth (i - 1) w 0 in
  let temp :=
    if bool_decide (i mod nk = 0)%nat then Z.lxor (SubWord (RotWord temp)) (Rcon (i / nk))
    else if bool_decide (6 < nk)%nat && bool_decide (i mod nk = 4)%nat then SubWord temp
    else temp in
  Z.lxor (nth (i - nk) w 0) temp.

Fixpoint fips_expand (nk n : nat) (w : list Z) : list Z :=
  match n with
  | O => w
  | S n => fips_expand nk n (w ++ [next_word nk w])
  end.

(** ** The code's lookups are SubWord and RotWord *)
Lemma Sb_sbox x : is_byte x -> Sb x = sbox x.
Proof. intros Hx. by_bytes x Hx. Qed.

Lemma sub_word_SubWord w : u32v w -> sub_word w = SubWord w.
Proof.
  intros Hw. change (sub_word w) with (last4 Te4 w w w w). rewrite last4_Te4 by done.
  unfold SubWord. by rewrite !Sb_sbox by auto with vm.
Qed.

Lemma sub_rot_RotWord w : u32v w -> sub_rot w = SubWord (RotWord w).
Proof.
  intros Hw. unfold SubWord, RotWord.
  destruct (bytes_word (b2 w) (b1 w) (b0 w) (b3 w)) as (-> & -> & -> & ->); auto with vm.
  rewrite <- !Sb_sbox by auto with vm. unfold sub_rot, word.
  destruct (Te4_masks (b2 w)) as (-> & _); [auto with vm|].
  destruct (Te4_masks (b1 w)) as (_ & -> & _); [auto with vm|].
  destruct (Te4_masks (b0 w)) as (_ & _ & ->); [auto with vm|]. done.
Qed.

Lemma sub_rot_u32 w : u32v (sub_rot w).
Proof. unfold sub_rot. auto 8 with vm. Qed.

Lemma sub_word_u32 w : u32v (sub_word w).
Proof. unfold sub_word. auto 8 with vm. Qed.

Lemma rcon_Rcon i c : rcon !! i = Some c -> c = Rcon (S i) /\ u32v c.
Proof.
  intros E. do 10 (destruct i as [|i]; [injection E as <-; split; [reflexivity|split; lia]|]). done.
Qed.

Lemma fips_expand_S nk n w :
  fips_expand nk (S n) w = fips_expand nk n w ++ [next_word nk (fips_expand nk n w)].
Proof. revert w. induction n as [|n IH]; intros w; [done|]. cbn [fips_expand]. apply (IH (w ++ _)). Qed.

Lemma length_fips_expand nk n w : length (fips_expand nk n w) = (n + length w)%nat.
Proof. revert w. induction n as [|n IH]; intros w; [done|]. cbn [fips_expand]. rewrite IH, length_app. simpl. lia. Qed.

Lemma mod_step nk i j : (j < nk)%nat -> ((nk + (nk * i + j)) mod nk = j /\ (nk + (nk * i + j)) / nk = S i)%nat.
Proof.
  intros Hj. replace (nk + (nk * i + j))%nat with (S i * nk + j)%nat by lia.
  split.
  - rewrite Nat.add_comm, Nat.Div0.mod_add. by apply Nat.mod_small.
  - rewrite Nat.div_add_l by lia. rewrite Nat.div_small by done. lia.
Qed.

(** ** One word of the array *)
Section Expand.
Variables (nk : nat) (w0 rest : list Z).
Hypothesis Hnk : (3 < nk)%nat.
Hypothesis Hlen : length w0 = nk.
Hypothesis Hw0 : Forall u32v w0.

(** The words computed after [n] steps, and the array that holds them. *)
Definition W (n : nat) : list Z := fips_expand nk n w0.
Definition A (n : nat) : list Z := W n ++ drop n rest.

Lemma length_W n : length (W n) = (nk + n)%nat.
Proof using Hlen Hnk. unfold W. rewrite length_fips_expand. lia. Qed.

Lemma W_S n : W (S n) = W n ++ [next_word nk (W n)].
Proof. apply fips_expand_S. Qed.

Lemma rd_A n i : (i < nk + n)%nat -> rd (A n) i = Ret (nth i (W n) 0).
Proof using Hlen Hnk.
  intros Hi. unfold rd, A. rewrite <- length_W in Hi. rewrite lookup_app_l by done.
  rewrite nth_lookup. by destruct (lookup_lt_is_Some_2 _ _ Hi) as [x ->].
Qed.

Lemma W_u32 n i : Forall u32v (W n) -> u32v (nth i (W n) 0).
Proof. intros H. rewrite nth_lookup. destruct (W n !! i) eqn:E; [|split; simpl; lia]. by eapply Forall_lookup_1. Qed.

Lemma wr_A n dst v :
  (n < length rest)%nat -> dst = (nk + n)%nat -> u32v v -> v = next_word nk (W n) -> Forall u32v (W n) ->
  wr (A n) dst v = Ret (A (S n)) /\ Forall u32v (W (S n)).
Proof using Hlen Hnk.
  intros Hn -> Hv -> HW. rewrite W_S.
  split; [|apply Forall_app; split; [done|by apply Forall_singleton]].
  unfold wr. rewrite bool_decide_true by (unfold A; rewrite length_app, length_W, length_drop; lia).
  f_equal. unfold A. rewrite <- length_W, <- (Nat.add_0_r (length (W n))), insert_app_r.
  rewrite W_S, <- app_assoc. f_equal.
  destruct (lookup_lt_is_Some_2 _ _ Hn) as [x Hx]. by rewrite (drop_S _ _ _ Hx).
Qed.

(** The three kinds of words; [i] is the index modulo [nk]. *)
Lemma xor_step n i j dst a b :
  n = (nk * i + j)%nat -> (0 < j < nk)%nat -> (nk <= 6 \/ j <> 4)%nat ->
  (n < length rest)%nat -> dst = (nk + n)%nat -> a = n -> b = (nk + n - 1)%nat -> Forall u32v (W n) ->
  xor_to (A n) dst a b = Ret (A (S n)) /\ Forall u32v (W (S n)).
Proof using Hlen Hnk.
  intros Hn Hj Hnot Hr -> -> -> HW. unfold xor_to. rewrite !rd_A by lia. cbn [obind].
  apply wr_A; auto using W_u32, lxor_u32. unfold next_word. rewrite length_W.
  destruct (mod_step nk i j) as [Hm _]; [lia|]. rewrite Hn, Hm.
  rewrite bool_decide_false by lia. rewrite <- bool_decide_and, bool_decide_false by lia.
  f_equal; f_equal; lia.
Qed.

Lemma rot_step n i dst a t :
  n = (nk * i)%nat -> (i < 10)%nat ->
  (n < length rest)%nat -> dst = (nk + n)%nat -> a = n -> t = (nk + n - 1)%nat -> Forall u32v (W n) ->
  rot_to (A n) dst a t i = Ret (A (S n)) /\ Forall u32v (W (S n)).
Proof using Hlen Hnk.
  intros Hn Hi Hr -> -> -> HW. unfold rot_to. rewrite !rd_A by lia. cbn [obind].
  destruct (lookup_lt_is_Some_2 rcon i) as [c Hc]; [simpl; lia|]. rewrite Hc. cbn [oget obind].
  destruct (rcon_Rcon i c Hc) as [-> Hu].
  apply wr_A; auto using W_u32, lxor_u32, sub_rot_u32. unfold next_word. rewrite length_W.
  destruct (mod_step nk i 0) as [Hm Hd]; [lia|]. rewrite Nat.add_0_r, <- Hn in Hm, Hd. rewrite Hm, Hd.
  rewrite bool_decide_true by done. rewrite sub_rot_RotWord, Z.lxor_assoc by auto using W_u32.
  f_equal. f_equal. lia.
Qed.

Lemma sub_step n i dst a t :
  nk = 8%nat -> n = (nk * i + 4)%nat ->
  (n < length rest)%nat -> dst = (nk + n)%nat -> a = n -> t = (nk + n - 1)%nat -> Forall u32v (W n) ->
  sub_to (A n) dst a t = Ret (A (S n)) /\ Forall u32v (W (S n)).
Proof using Hlen Hnk.
  intros H8 Hn Hr -> -> -> HW. unfold sub_to. rewrite !rd_A by lia. cbn [obind].
  apply wr_A; auto using W_u32, lxor_u32, sub_word_u32. unfold next_word. rewrite length_W.
  destruct (mod_step nk i 4) as [Hm _]; [lia|]. rewrite <- Hn in Hm. rewrite Hm.
  rewrite bool_decide_false by lia. rewrite <- bool_decide_and, bool_decide_true by lia.
  rewrite sub_word_SubWord by auto using W_u32. f_equal. f_equal. lia.
Qed.

End Expand.

(** ** The loops *)

(** The next write of the goal, as word [j] of iteration [i]. *)
Ltac word_step i j :=
  let E := fresh "E" in let HW' := fresh "HW" in
  match goal with
  | Hlen : length ?w0 = ?nk, HW : Forall u32v (W ?nk ?w0 ?n) |- context [xor_to (A ?nk ?w0 ?rest ?n) ?d ?a ?b] =>
      destruct (xor_step nk w0 rest ltac:(lia) Hlen n i j d a b) as [E HW']; [first [lia|done]..|]
  | Hlen : length ?w0 = ?nk, HW : Forall u32v (W ?nk ?w0 ?n) |- context [rot_to (A ?nk ?w0 ?rest ?n) ?d ?a ?b _] =>
      destruct (rot_step nk w0 rest ltac:(lia) Hlen n i d a b) as [E HW']; [first [lia|done]..|]
  | Hlen : length ?w0 = ?nk, HW : Forall u32v (W ?nk ?w0 ?n) |- context [sub_to (A ?nk ?w0 ?rest ?n) ?d ?a ?b] =>
      destruct (sub_step nk w0 rest ltac:(lia) Hlen n i d a b) as [E HW']; [first [lia|done]..|]
  end; rewrite E; clear E; cbn [obind].

Lemma expand_128_ok w0 rest fuel i :
  length w0 = 4%nat -> (40 <= length rest)%nat -> (fuel + i = 10)%nat -> (i < 10)%nat ->
  Forall u32v (W 4 w0 (4 * i)) ->
  expand_128 fuel i (4 * i) (A 4 w0 rest (4 * i)) = Ret (A 4 w0 rest 40) /\ Forall u32v (W 4 w0 40).
Proof.
  intros Hlen Hr. revert i. induction fuel as [|fuel IH]; intros i Hf Hi HW; [lia|]. cbn [expand_128].
  word_step i 0%nat. word_step i 1%nat. word_step i 2%nat. word_step i 3%nat.
  replace (S (S (S (S (4 * i))))) with (4 * S i)%nat in * by lia.
  destruct (decide (S i = 10)%nat) as [E|E].
  - rewrite bool_decide_true by done. rewrite E in *. done.
  - rewrite bool_decide_false by done. replace (4 * i + 4)%nat with (4 * S i)%nat by lia. apply IH; (lia || done).
Qed.

Lemma expand_192_ok w0 rest fuel i :
  length w0 = 6%nat -> (46 <= length rest)%nat -> (fuel + i = 8)%nat -> (i < 8)%nat ->
  Forall u32v (W 6 w0 (6 * i)) ->
  expand_192 fuel i (6 * i) (A 6 w0 rest (6 * i)) = Ret (A 6 w0 rest 46) /\ Forall u32v (W 6 w0 46).
Proof.
  intros Hlen Hr. revert i. induction fuel as [|fuel IH]; intros i Hf Hi HW; [lia|]. cbn [expand_192].
  word_step i 0%nat. word_step i 1%nat. word_step i 2%nat. word_step i 3%nat.
  destruct (decide (S i = 8)%nat) as [E|E].
  - rewrite bool_decide_true by done. replace i with 7%nat in * by lia. done.
  - rewrite bool_decide_false by done. word_step i 4%nat. word_step i 5%nat.
    replace (S (S (S (S (S (S (6 * i))))))) with (6 * S i)%nat in * by lia.
    replace (6 * i + 6)%nat with (6 * S i)%nat by lia. apply IH; (lia || done).
Qed.

Lemma expand_256_ok w0 rest fuel i :
  length w0 = 8%nat -> (52 <= length rest)%nat -> (fuel + i = 7)%nat -> (i < 7)%nat ->
  Forall u32v (W 8 w0 (8 * i)) ->
  expand_256 fuel i (8 * i) (A 8 w0 rest (8 * i)) = Ret (A 8 w0 rest 52) /\ Forall u32v (W 8 w0 52).
Proof.
  intros Hlen Hr. revert i. induction fuel as [|fuel IH]; intros i Hf Hi HW; [lia|]. cbn [expand_256].
  word_step i 0%nat. word_step i 1%nat. word_step i 2%nat. word_step i 3%nat.
  destruct (decide (S i = 7)%nat) as [E|E].
  - rewrite bool_decide_true by done. replace i with 6%nat in * by lia. done.
  - rewrite bool_decide_false by done. word_step i 4%nat. word_step i 5%nat. word_step i 6%nat. word_step i 7%nat.
    replace (S (S (S (S (S (S (S (S (8 * i))))))))) with (8 * S i)%nat in * by lia.
    replace (8 * i + 8)%nat with (8 * S i)%nat by lia. apply IH; (lia || done).
Qed.

(** ** The user key *)
Fixpoint words (u : list Z) : list Z :=
  match u with
  | a :: b :: c :: d :: u => word a b c d :: words u
  | _ => []
  end.

(** Induction in steps of four bytes. *)
Lemma words_lookup u j :
  (4 * j + 3 < length u)%nat -> GETU32 u (4 * j) = Ret (nth j (words u) 0) /\ (j < length (words u))%nat.
Proof.
  revert j. induction u as [u IH] using (induction_ltof1 _ (@length Z)). intros j Hj. unfold ltof in IH.
  destruct u as [|a [|b [|c [|d u]]]]; simpl in Hj; try lia.
  destruct j as [|j]; [split; [done|simpl; lia]|].
  destruct (IH u) with (j := j) as [E Hl]; [simpl; lia|lia|]. split; [|simpl; lia].
  change (nth (S j) (words (a :: b :: c :: d :: u)) 0) with (nth j (words u) 0). rewrite <- E.
  unfold GETU32. change (a :: b :: c :: d :: u) with ([a; b; c; d] ++ u).
  by rewrite (rd_app [a; b; c; d] u _ (4 * j)), (rd_app [a; b; c; d] u _ (4 * j + 1)),
    (rd_app [a; b; c; d] u _ (4 * j + 2)), (rd_app [a; b; c; d] u _ (4 * j + 3)) by (simpl; lia).
Qed.

Lemma words_u32 u : bytes u -> Forall u32v (words u).
Proof.
  induction u as [u IH] using (induction_ltof1 _ (@length Z)). unfold ltof in IH. intros Hu.
  destruct u as [|a [|b [|c [|d u]]]]; try (by constructor).
  rewrite !Forall_cons in Hu. destruct Hu as (? & ? & ? & ? & Hu).
  cbn [words]. constructor; [by apply word_u32|]. apply IH; [simpl; lia|done].
Qed.

(** [rd_key] with the first [n] words of the user key loaded. *)
Definition loaded (u rk : list Z) (n : nat) : list Z := take n (words u) ++ drop n rk.

Lemma load_words_ok u rk n from :
  (from + n <= length rk)%nat -> (4 * (from + n) <= length u)%nat ->
  load_words n from u (loaded u rk from) = Ret (loaded u rk (from + n)).
Proof.
  revert from. induction n as [|n IH]; intros from Hrk Hu; [by rewrite Nat.add_0_r|]. cbn [load_words].
  destruct (words_lookup u from) as [-> Hl]; [lia|]. cbn [obind].
  assert (wr (loaded u rk from) from (nth from (words u) 0) = Ret (loaded u rk (S from))) as ->.
  { unfold wr, loaded. rewrite bool_decide_true by (rewrite length_app, length_take, length_drop; lia).
    f_equal. assert (from = length (take from (words u)) + 0)%nat as E by (rewrite length_take; lia).
    rewrite E at 1. rewrite insert_app_r. rewrite nth_lookup.
    destruct (lookup_lt_is_Some_2 _ _ Hl) as [x Hx]. rewrite Hx. cbn [default].
    destruct (lookup_lt_is_Some_2 rk from) as [y Hy]; [lia|].
    rewrite (drop_S _ _ _ Hy), (take_S_r _ _ _ Hx), <- app_assoc. done. }
  cbn [obind]. rewrite IH by lia. do 2 f_equal. lia.
Qed.

(** ** AES_set_encrypt_key *)
Definition nk_of (bits : Z) : nat := Z.to_nat (bits / 32).
Definition nr_of (bits : Z) : nat := (nk_of bits + 6)%nat.
Definition good_bits (bits : Z) : Prop := bits = 128 \/ bits = 192 \/ bits = 256.

Lemma good_bits_cases bits : good_bits bits ->
  bits = 32 * Z.of_nat (nk_of bits) /\ nr_of bits = (nk_of bits + 6)%nat /\
  (nk_of bits = 4 \/ nk_of bits = 6 \/ nk_of bits = 8)%nat.
Proof. intros [->|[->| ->]]; vm_compute; auto. Qed.

(** The words of the schedule of FIPS-197 for a user key. *)
Definition schedule (bits : Z) (u : list Z) : list Z :=
  fips_expand (nk_of bits) (4 * (nr_of bits + 1) - nk_of bits) (take (nk_of bits) (words u)).

Lemma length_take_words u n : (4 * n <= length u)%nat -> length (take n (words u)) = n.
Proof.
  intros Hu. rewrite length_take. destruct n as [|n]; [done|].
  destruct (words_lookup u n) as [_ Hl]; lia.
Qed.

Lemma A_0 u rk nk : A nk (take nk (words u)) (drop nk rk) 0 = loaded u rk nk.
Proof. unfold A, W, loaded. simpl. by rewrite drop_0. Qed.

Lemma schedule_W bits u nk n :
  nk_of bits = nk -> (4 * (nr_of bits + 1) - nk_of bits)%nat = n ->
  schedule bits u = W nk (take nk (words u)) n.
Proof. intros <- <-. done. Qed.

Lemma set_encrypt_key_ok bits u key :
  good_bits bits -> bits <= 8 * Z.of_nat (length u) -> bytes u -> length (rd_key key) = 60%nat ->
  AES_set_encrypt_key (Some u) bits (Some key) =
    Ret (Some {| rd_key := schedule bits u ++ drop (4 * (nr_of bits + 1)) (rd_key key);
                 rounds := Z.of_nat (nr_of bits) |}, 0) /\
  Forall u32v (schedule bits u).
Proof.
  intros Hbits Hu Hb Hk. unfold AES_set_encrypt_key. set (rk := rd_key key) in *.
  pose proof (words_u32 u Hb) as Hw.
  assert (load_words 4 0 u rk = Ret (loaded u rk 4)) as E4.
  { change (load_words 4 0 u (loaded u rk 0) = Ret (loaded u rk (0 + 4))).
    unfold good_bits in Hbits. apply load_words_ok; lia. }
  rewrite E4. clear E4. cbn [obind]. destruct Hbits as [Eb|[Eb|Eb]]; subst bits.
  - change (128 =? 128) with true. cbn [negb andb].
    pose proof (length_take_words u 4 ltac:(lia)) as Hl.
    destruct (expand_128_ok (take 4 (words u)) (drop 4 rk) 10 0 Hl) as [E HW];
      [rewrite length_drop; lia|done|lia|by apply Forall_take|].
    change (4 * 0)%nat with 0%nat in E. rewrite A_0 in E. rewrite E. cbn [obind].
    rewrite (schedule_W 128 u 4 40) by done. split; [|exact HW]. unfold A. by rewrite drop_drop.
  - change (192 =? 128) with false. change (192 =? 192) with true. cbn [negb andb].
    rewrite (load_words_ok u rk 2 4) by lia. cbn [obind].
    pose proof (length_take_words u 6 ltac:(lia)) as Hl.
    destruct (expand_192_ok (take 6 (words u)) (drop 6 rk) 8 0 Hl) as [E HW];
      [rewrite length_drop; lia|done|lia|by apply Forall_take|].
    change (6 * 0)%nat with 0%nat in E. rewrite A_0 in E. change (4 + 2)%nat with 6%nat. rewrite E. cbn [obind].
    rewrite (schedule_W 192 u 6 46) by done. split; [|exact HW]. unfold A. by rewrite drop_drop.
  - change (256 =? 128) with false. change (256 =? 192) with false. change (256 =? 256) with true. cbn [negb andb].
    rewrite (load_words_ok u rk 2 4) by lia. cbn [obind].
    change (4 + 2)%nat with 6%nat. rewrite (load_words_ok u rk 2 6) by lia. cbn [obind].
    pose proof (length_take_words u 8 ltac:(lia)) as Hl.
    destruct (expand_256_ok (take 8 (words u)) (drop 8 rk) 7 0 Hl) as [E HW];
      [rewrite length_drop; lia|done|lia|by apply Forall_take|].
    change (8 * 0)%nat with 0%nat in E. rewrite A_0 in E. change (6 + 2)%nat with 8%nat. rewrite E. cbn [obind].
    rewrite (schedule_W 256 u 8 52) by done. split; [|exact HW]. unfold A. by rewrite drop_drop.
Qed.

(** ** AES_set_decrypt_key *)
Lemma wr_app P a T v n : n = length P -> wr (P ++ a :: T) n v = Ret (P ++ v :: T).
Proof.
  intros ->. unfold wr. rewrite bool_decide_true by (rewrite length_app; simpl; lia).
  f_equal. rewrite <- (Nat.add_0_r (length P)), insert_app_r. done.
Qed.

Lemma swap_word_app P a M b T i j :
  i = length P -> j = (i + 1 + length M)%nat ->
  swap_word (P ++ a :: M ++ b :: T) i j = Ret (P ++ b :: M ++ a :: T).
Proof.
  intros Hi Hj. unfold swap_word. rewrite (rd_app P _ _ 0) by lia. change (rd (a :: ?l) 0) with (@Ret Empty_set Z a).
  assert (P ++ a :: M ++ b :: T = (P ++ a :: M) ++ b :: T) as E by (by rewrite <- app_assoc).
  cbn [obind]. rewrite E at 1. rewrite (rd_app (P ++ a :: M) _ _ 0) by (rewrite length_app; simpl; lia).
  change (rd (b :: T) 0) with (@Ret Empty_set Z b). cbn [obind].
  rewrite wr_app by done. cbn [obind].
  replace (P ++ b :: M ++ b :: T) with ((P ++ b :: M) ++ b :: T) by (by rewrite <- app_assoc).
  rewrite wr_app by (rewrite length_app; simpl; lia). by rewrite <- app_assoc.
Qed.

(** Four swaps exchange two round keys. *)
Lemma swap_quads P x M y T i j :
  i = length P -> j = (i + 4 + length M)%nat ->
  (let! rk := swap_word (P ++ flat [x] ++ M ++ flat [y] ++ T) i j in
   let! rk := swap_word rk (i + 1) (j + 1) in
   let! rk := swap_word rk (i + 2) (j + 2) in swap_word rk (i + 3) (j + 3)) =
  Ret (P ++ flat [y] ++ M ++ flat [x] ++ T).
Proof.
  intros Hi Hj. destruct x as [x0 x1 x2 x3], y as [y0 y1 y2 y3]. unfold flat. cbn [map concat app].
  rewrite (swap_word_app P x0 (x1 :: x2 :: x3 :: M) y0 (y1 :: y2 :: y3 :: T)) by (simpl; lia). cbn [obind].
  replace (P ++ y0 :: (x1 :: x2 :: x3 :: M) ++ x0 :: y1 :: y2 :: y3 :: T)
    with ((P ++ [y0]) ++ x1 :: (x2 :: x3 :: M ++ [x0]) ++ y1 :: y2 :: y3 :: T)
    by (rewrite <- app_assoc; cbn [app]; by rewrite <- ?app_assoc).
  rewrite swap_word_app by (rewrite ?length_app; simpl; rewrite ?length_app; simpl; lia). cbn [obind].
  replace ((P ++ [y0]) ++ y1 :: (x2 :: x3 :: M ++ [x0]) ++ x1 :: y2 :: y3 :: T)
    with ((P ++ [y0; y1]) ++ x2 :: (x3 :: M ++ [x0; x1]) ++ y2 :: y3 :: T)
    by (rewrite <- !app_assoc; cbn [app]; by rewrite <- ?app_assoc).
  rewrite swap_word_app by (rewrite ?length_app; simpl; rewrite ?length_app; simpl; lia). cbn [obind].
  replace ((P ++ [y0; y1]) ++ y2 :: (x3 :: M ++ [x0; x1]) ++ x2 :: y3 :: T)
    with ((P ++ [y0; y1; y2]) ++ x3 :: (M ++ [x0; x1; x2]) ++ y3 :: T)
    by (rewrite <- !app_assoc; cbn [app]; by rewrite <- ?app_assoc).
  rewrite swap_word_app by (rewrite ?length_app; simpl; rewrite ?length_app; simpl; lia).
  rewrite <- ?app_assoc. cbn [app]. by rewrite <- ?app_assoc.
Qed.

Lemma invert_order_ok fuel P qs T i j :
  i = length P -> (0 < length qs)%nat -> j = (i + 4 * (length qs - 1))%nat -> (length qs <= 2 * fuel + 1)%nat ->
  invert_order fuel i j (P ++ flat qs ++ T) = Ret (P ++ flat (rev qs) ++ T).
Proof.
  revert P qs T i j. induction fuel as [|fuel IH]; intros P qs T i j Hi Hqs Hj Hf.
  { destruct qs as [|x [|? ?]]; simpl in *; try lia. by rewrite bool_decide_false by lia. }
  destruct qs as [|x qs]; [simpl in Hqs; lia|].
  destruct qs as [|y qs _] using rev_ind; [simpl in *; by rewrite bool_decide_false by lia|].
  cbn [length] in Hj, Hf. rewrite length_app in Hj, Hf. simpl length in Hj, Hf. cbn [invert_order].
  rewrite bool_decide_true by lia.
  rewrite (flat_app [x] _ : flat (x :: qs ++ [y]) = _), flat_app, <- !app_assoc.
  pose proof (swap_quads P x (flat qs) y T i j Hi) as Hsw. rewrite length_flat in Hsw.
  specialize (Hsw ltac:(lia)).
  destruct (swap_word _ i j) as [rk1|[]|]; [|done]. cbn [obind] in *.
  destruct (swap_word rk1 _ _) as [rk2|[]|]; [|done]. cbn [obind] in *.
  destruct (swap_word rk2 _ _) as [rk3|[]|]; [|done]. cbn [obind] in *. rewrite Hsw. cbn [obind].
  cbn [rev]. rewrite rev_app_distr. cbn [rev app]. rewrite (flat_app [y] _ : flat (y :: rev qs ++ [x]) = _), flat_app.
  rewrite <- !app_assoc, !(app_assoc P).
  destruct qs as [|z qs]; [|apply IH; rewrite ?length_app, ?length_flat; simpl length in *; lia].
  simpl length in *. destruct fuel; cbn [invert_order]; by rewrite bool_decide_false by lia.
Qed.

Lemma inv_mix_at_app P a T n : n = length P -> inv_mix_at (P ++ a :: T) n = Ret (P ++ inv_mix a :: T).
Proof. intros ->. unfold inv_mix_at. rewrite (rd_app P _ _ 0) by lia. cbn [obind rd lookup list_lookup oget]. by rewrite wr_app. Qed.

Lemma inv_mix_keys_ok ks P T o :
  length P = (o + 4)%nat ->
  inv_mix_keys (length ks) o (P ++ flat ks ++ T) = Ret (P ++ flat (map inv_mix_quad ks) ++ T).
Proof.
  revert P o. induction ks as [|k ks IH]; intros P o HP; [done|]. cbn [length inv_mix_keys map].
  rewrite (flat_app [k] ks : flat (k :: ks) = _), (flat_app [inv_mix_quad k] _ : flat (inv_mix_quad k :: _) = _).
  destruct k as [a b c d]. unfold flat at 1 3. cbn [map concat app inv_mix_quad].
  rewrite inv_mix_at_app by lia. cbn [obind].
  replace (P ++ inv_mix a :: b :: c :: d :: flat ks ++ T) with ((P ++ [inv_mix a]) ++ b :: c :: d :: flat ks ++ T)
    by (by rewrite <- app_assoc).
  rewrite inv_mix_at_app by (rewrite length_app; simpl; lia). cbn [obind].
  replace ((P ++ [inv_mix a]) ++ inv_mix b :: c :: d :: flat ks ++ T)
    with ((P ++ [inv_mix a; inv_mix b]) ++ c :: d :: flat ks ++ T) by (by rewrite <- !app_assoc).
  rewrite inv_mix_at_app by (rewrite length_app; simpl; lia). cbn [obind].
  replace ((P ++ [inv_mix a; inv_mix b]) ++ inv_mix c :: d :: flat ks ++ T)
    with ((P ++ [inv_mix a; inv_mix b; inv_mix c]) ++ d :: flat ks ++ T) by (by rewrite <- !app_assoc).
  rewrite inv_mix_at_app by (rewrite length_app; simpl; lia). cbn [obind].
  replace ((P ++ [inv_mix a; inv_mix b; inv_mix c]) ++ inv_mix d :: flat ks ++ T)
    with ((P ++ [inv_mix a; inv_mix b; inv_mix c; inv_mix d]) ++ flat ks ++ T) by (by rewrite <- !app_assoc).
  rewrite IH by (rewrite length_app; simpl; lia). by rewrite <- !app_assoc.
Qed.

(** A list of words as round keys. *)
Lemma flat_of l n : length l = (4 * n)%nat -> Forall u32v l -> exists qs, l = flat qs /\ length qs = n /\ Forall quad_ok qs.
Proof.
  revert l. induction n as [|n IH]; intros l Hl Hu; [destruct l; [by exists []|done]|].
  destruct l as [|a [|b [|c [|d l]]]]; simpl in Hl; try lia.
  rewrite !Forall_cons in Hu. destruct Hu as (? & ? & ? & ? & Hu).
  destruct (IH l) as (qs & -> & Hn & Hq); [lia|done|]. exists (Q a b c d :: qs). split_and!; [done|simpl; lia|].
  by constructor.
Qed.

(** The round keys of a user key. *)
Lemma schedule_quads bits u :
  good_bits bits -> bits <= 8 * Z.of_nat (length u) -> Forall u32v (schedule bits u) ->
  exists k0 ks kl, schedule bits u = flat (k0 :: ks ++ [kl]) /\ S (length ks) = nr_of bits /\
    quad_ok k0 /\ Forall quad_ok ks /\ quad_ok kl.
Proof.
  intros Hbits Hu Hw. assert (length (schedule bits u) = 4 * (nr_of bits + 1))%nat as Hl.
  { destruct (good_bits_cases bits Hbits) as (? & ? & ?).
    unfold schedule. rewrite length_fips_expand, length_take_words by lia. lia. }
  destruct (flat_of _ _ Hl Hw) as (qs & E & Hn & Hq).
  destruct qs as [|k0 qs]; [simpl in Hn; lia|]. destruct qs as [|kl ks _] using rev_ind.
  { simpl in Hn. destruct (good_bits_cases bits Hbits) as (? & ? & ?). lia. }
  cbn [length] in Hn. rewrite length_app in Hn. simpl in Hn.
  apply Forall_cons in Hq as [H0 [Hks Hkl]%Forall_app]. rewrite Forall_singleton in Hkl.
  exists k0, ks, kl. split; [done|]. split; [lia|]. auto.
Qed.

Lemma set_decrypt_key_ok bits u key k0 ks kl :
  good_bits bits -> bits <= 8 * Z.of_nat (length u) -> bytes u -> length (rd_key key) = 60%nat ->
  schedule bits u = flat (k0 :: ks ++ [kl]) -> S (length ks) = nr_of bits ->
  AES_set_decrypt_key (Some u) bits (Some key) =
    Ret (Some {| rd_key := flat (kl :: map inv_mix_quad (rev ks) ++ [k0]) ++ drop (4 * (nr_of bits + 1)) (rd_key key);
                 rounds := Z.of_nat (nr_of bits) |}, 0).
Proof.
  intros Hbits Hu Hb Hk E Hn. unfold AES_set_decrypt_key.
  destruct (set_encrypt_key_ok bits u key Hbits Hu Hb Hk) as [-> _]. cbn [obind].
  change (0 <? 0) with false. cbv iota. cbn [oget obind rounds rd_key]. rewrite Nat2Z.id, E.
  set (T := drop _ _). rewrite (invert_order_ok _ [] (k0 :: ks ++ [kl]) T);
    [|done|simpl; lia|simpl; rewrite length_app; simpl; lia|simpl; rewrite length_app; simpl; lia].
  cbn [obind app rev]. rewrite rev_app_distr. cbn [rev app].
  rewrite (flat_app [kl] _ : flat (kl :: rev ks ++ [k0]) = _), flat_app, <- !app_assoc.
  replace (nr_of bits - 1)%nat with (length (rev ks)) by (rewrite length_rev; lia).
  rewrite inv_mix_keys_ok by (by rewrite length_flat). cbn [obind].
  rewrite (flat_app [kl] _ : flat (kl :: map inv_mix_quad (rev ks) ++ [k0]) = _), flat_app, <- !app_assoc. done.
Qed.
