(* ===== verification/AesFips.v ===== *)
(** * AES: encryption is the Cipher of FIPS-197, and decryption inverts it

    The standard's Cipher over sixteen state bytes, and the theorems about the key
    schedules and the block functions. *)

From S2P Require Import Prelude AesTables Aes AesCipher AesKeys.
From stdpp Require Import list.

Open Scope Z_scope.

(** ** FIPS-197: the Cipher

    The state is column by column: byte [r] of column [c] at [r + 4 * c]. *)
Definition SubBytes (s : list Z) : list Z := map sbox s.

Definition ShiftRows (s : list Z) : list Z :=
  map (fun i => nth ((i + 4 * (i mod 4)) mod 16)%nat s 0) (seq 0 16).

Definition mix_column (a b c d : Z) : list Z :=
  [Z.lxor (Z.lxor (Z.lxor (gmul a 2) (gmul b 3)) c) d;
   Z.lxor (Z.lxor (Z.lxor a (gmul b 2)) (gmul c 3)) d;
   Z.lxor (Z.lxor (Z.lxor a b) (gmul c 2)) (gmul d 3);
   Z.lxor (Z.lxor (Z.lxor (gmul a 3) b) c) (gmul d 2)].

Fixpoint MixColumns (s : list Z) : list Z :=
  match s with
  | a :: b :: c :: d :: s => mix_column a b c d ++ MixColumns s
  | _ => []
  end.

Definition wbytes (w : Z) : list Z := [b3 w; b2 w; b1 w; b0 w].

Definition AddRoundKey (s w : list Z) : list Z := xor_bytes s (concat (map wbytes w)).

(** [n] more full rounds from round [i] on, and the last round. *)
Fixpoint fips_rounds (n i : nat) (w s : list Z) : list Z :=
  let k := take 4 (drop (4 * i) w) in
  match n with
  | O => AddRoundKey (ShiftRows (SubBytes s)) k
  | S n => fips_rounds n (S i) w (AddRoundKey (MixColumns (ShiftRows (SubBytes s))) k)
  end.

Definition fips_cipher (nr : nat) (w input : list Z) : list Z :=
  fips_rounds (nr - 1) 1 w (AddRoundKey input (take 4 w)).

(** ** The rounds of the code, byte by byte *)
Definition qbytes (q : quad) : list Z := let 'Q a b c d := q in wbytes a ++ wbytes b ++ wbytes c ++ wbytes d.
Definition qwords (q : quad) : list Z := let 'Q a b c d := q in [a; b; c; d].

Lemma Te_bytes x : is_byte x ->
  (b3 (tab Te0 x) = gmul (sbox x) 2 /\ b2 (tab Te0 x) = sbox x /\ b1 (tab Te0 x) = sbox x /\ b0 (tab Te0 x) = gmul (sbox x) 3) /\
  (b3 (tab Te1 x) = gmul (sbox x) 3 /\ b2 (tab Te1 x) = gmul (sbox x) 2 /\ b1 (tab Te1 x) = sbox x /\ b0 (tab Te1 x) = sbox x) /\
  (b3 (tab Te2 x) = sbox x /\ b2 (tab Te2 x) = gmul (sbox x) 3 /\ b1 (tab Te2 x) = gmul (sbox x) 2 /\ b0 (tab Te2 x) = sbox x) /\
  (b3 (tab Te3 x) = sbox x /\ b2 (tab Te3 x) = sbox x /\ b1 (tab Te3 x) = gmul (sbox x) 3 /\ b0 (tab Te3 x) = gmul (sbox x) 2).
Proof. intros Hx. split_and!; by_bytes x Hx. Qed.

Lemma te_mix w x y z : u32v w ->
  wbytes (te w x y z) = mix_column (sbox (b3 w)) (sbox (b2 x)) (sbox (b1 y)) (sbox (b0 z)).
Proof.
  intros Hw. unfold wbytes, te, mix_column. rewrite !b3_lxor, !b2_lxor, !b1_lxor, !b0_lxor.
  destruct (Te_bytes (b3 w)) as ((-> & -> & -> & ->) & _); [auto with vm|].
  destruct (Te_bytes (b2 x)) as (_ & (-> & -> & -> & ->) & _); [auto with vm|].
  destruct (Te_bytes (b1 y)) as (_ & _ & (-> & -> & -> & ->) & _); [auto with vm|].
  destruct (Te_bytes (b0 z)) as (_ & _ & _ & (-> & -> & -> & ->)); [auto with vm|]. done.
Qed.

Lemma last4_bytes w x y z : u32v w ->
  wbytes (last4 Te4 w x y z) = [sbox (b3 w); sbox (b2 x); sbox (b1 y); sbox (b0 z)].
Proof.
  intros Hw. rewrite last4_Te4 by done. rewrite !Sb_sbox by auto with vm. unfold wbytes.
  destruct (bytes_word (sbox (b3 w)) (sbox (b2 x)) (sbox (b1 y)) (sbox (b0 z))) as (-> & -> & -> & ->);
    rewrite <- ?Sb_sbox by auto with vm; auto with vm.
Qed.

Lemma wbytes_lxor a b : wbytes (Z.lxor a b) = xor_bytes (wbytes a) (wbytes b).
Proof. unfold wbytes, xor_bytes. simpl. by rewrite b3_lxor, b2_lxor, b1_lxor, b0_lxor. Qed.

Lemma qbytes_xor s k : qbytes (xor_quad s k) = AddRoundKey (qbytes s) (qwords k).
Proof.
  destruct s, k. cbn [xor_quad qbytes qwords]. unfold AddRoundKey. cbn [map concat]. rewrite !wbytes_lxor.
  reflexivity.
Qed.

(** The permutation, written out. *)
Lemma ShiftRows_eq x0 x1 x2 x3 x4 x5 x6 x7 x8 x9 x10 x11 x12 x13 x14 x15 :
  ShiftRows [x0; x1; x2; x3; x4; x5; x6; x7; x8; x9; x10; x11; x12; x13; x14; x15] =
  [x0; x5; x10; x15; x4; x9; x14; x3; x8; x13; x2; x7; x12; x1; x6; x11].
Proof. reflexivity. Qed.

Lemma Mix_ShiftRows_eq x0 x1 x2 x3 x4 x5 x6 x7 x8 x9 x10 x11 x12 x13 x14 x15 :
  MixColumns (ShiftRows [x0; x1; x2; x3; x4; x5; x6; x7; x8; x9; x10; x11; x12; x13; x14; x15]) =
  mix_column x0 x5 x10 x15 ++
  mix_column x4 x9 x14 x3 ++
  mix_column x8 x13 x2 x7 ++
  mix_column x12 x1 x6 x11.
Proof. rewrite ShiftRows_eq. cbn [MixColumns]. by rewrite app_nil_r. Qed.

Lemma enc_round_fips s k : quad_ok s ->
  qbytes (enc_round s k) = AddRoundKey (MixColumns (ShiftRows (SubBytes (qbytes s)))) (qwords k).
Proof.
  destruct s as [a b c d]. intros (Ha & Hb & Hc & Hd). cbn [enc_round]. rewrite qbytes_xor. f_equal.
  unfold SubBytes. cbn [qbytes]. rewrite !te_mix by done. unfold wbytes. cbn [app map].
  by rewrite Mix_ShiftRows_eq.
Qed.

Lemma enc_last_fips s k : quad_ok s ->
  qbytes (enc_last s k) = AddRoundKey (ShiftRows (SubBytes (qbytes s))) (qwords k).
Proof.
  destruct s as [a b c d]. intros (Ha & Hb & Hc & Hd). cbn [enc_last]. rewrite qbytes_xor. f_equal.
  unfold SubBytes. cbn [qbytes]. rewrite !last4_bytes by done. unfold wbytes. cbn [app map].
  by rewrite ShiftRows_eq.
Qed.

Lemma flat_take pre k ks T i :
  length pre = i -> take 4 (drop (4 * i) (flat (pre ++ k :: ks) ++ T)) = qwords k.
Proof.
  intros Hi. rewrite flat_app, <- app_assoc. rewrite drop_app_length' by (rewrite length_flat; lia).
  by destruct k.
Qed.

(** The rounds over the keys [ks], after those of [pre]. *)
Lemma fips_rounds_run ks pre kl T s :
  quad_ok s -> Forall quad_ok ks ->
  fips_rounds (length ks) (length pre) (flat (pre ++ ks ++ [kl]) ++ T) (qbytes s) =
  qbytes (enc_last (fold_left enc_round ks s) kl).
Proof.
  intros Hs Hks. revert pre s Hs. induction Hks as [|k ks Hk _ IH]; intros pre s Hs; cbn [length fips_rounds].
  - cbn [app]. by rewrite flat_take, enc_last_fips.
  - cbn [app fold_left]. rewrite flat_take, <- enc_round_fips by done.
    replace (pre ++ k :: ks ++ [kl]) with ((pre ++ [k]) ++ ks ++ [kl]) by (by rewrite <- app_assoc).
    rewrite <- (IH (pre ++ [k])) by (by apply enc_round_ok). f_equal. rewrite length_app. simpl. lia.
Qed.

Lemma enc_last_ok s k : quad_ok k -> quad_ok (enc_last s k).
Proof. intros Hk. destruct s. apply xor_quad_ok; [|done]. simpl. auto using last4_u32. Qed.

(** ** The block functions on a schedule *)
Lemma crypt_run full last k0 ks kl T input s n :
  GETBLOCK input = Ret s -> S (length ks) = n -> Nat.Even n -> (0 < n)%nat ->
  crypt full last input {| rd_key := flat (k0 :: ks ++ [kl]) ++ T; rounds := Z.of_nat n |} =
  Ret (PUTBLOCK (run full last k0 ks kl s)).
Proof.
  intros E Hn [m Hm] Hpos. unfold crypt. cbn [rd_key rounds]. rewrite E. cbn [obind].
  pose proof (round_key_flat [] k0 (ks ++ [kl]) T 0 eq_refl) as E0. cbn [app] in E0. rewrite E0. cbn [obind].
  replace (Z.to_nat (Z.shiftr (Z.of_nat n) 1)) with m.
  2: { rewrite Z.shiftr_div_pow2 by lia. change (2 ^ 1) with 2. rewrite Hm.
       replace (Z.of_nat (2 * m)) with (Z.of_nat m * 2) by lia. rewrite Z.div_mul by lia. lia. }
  destruct m as [|m]; [lia|].
  rewrite (flat_app [k0] _ : flat (k0 :: ks ++ [kl]) = _), <- app_assoc.
  by rewrite (crypt_loop_run full last m ks kl (flat [k0]) T) by (rewrite ?length_flat; simpl; lia).
Qed.

Lemma qbytes_PUTBLOCK q : quad_ok q -> PUTBLOCK q = qbytes q.
Proof. destruct q. intros (? & ? & ? & ?). unfold PUTBLOCK, qbytes, wbytes. by rewrite !PUTU32_bytes. Qed.

Lemma nr_even bits : good_bits bits -> Nat.Even (nr_of bits) /\ (0 < nr_of bits)%nat.
Proof.
  intros Hb. destruct (good_bits_cases bits Hb) as (_ & -> & [->|[->| ->]]); split; try lia.
  - by exists 5%nat. - by exists 6%nat. - by exists 7%nat.
Qed.

(** A key made by [AES_set_encrypt_key] or [AES_set_decrypt_key] from caller memory. *)
Definition enc_key_of (bits : Z) (u : list Z) (mem key : AES_KEY) : Prop :=
  AES_set_encrypt_key (Some u) bits (Some mem) = Ret (Some key, 0).
Definition dec_key_of (bits : Z) (u : list Z) (mem key : AES_KEY) : Prop :=
  AES_set_decrypt_key (Some u) bits (Some mem) = Ret (Some key, 0).

(** The arguments of the key functions: a key of enough bytes, room for 60 words. *)
Definition key_args (bits : Z) (u : list Z) (mem : AES_KEY) : Prop :=
  good_bits bits /\ bits <= 8 * Z.of_nat (length u) /\ bytes u /\ length (rd_key mem) = 60%nat.

(** What both keys of a user key are. *)
Lemma keys_of bits u mem mem' :
  key_args bits u mem -> length (rd_key mem') = 60%nat ->
  exists k0 ks kl T T', schedule bits u = flat (k0 :: ks ++ [kl]) /\ S (length ks) = nr_of bits /\
    quad_ok k0 /\ Forall quad_ok ks /\ quad_ok kl /\
    enc_key_of bits u mem {| rd_key := flat (k0 :: ks ++ [kl]) ++ T; rounds := Z.of_nat (nr_of bits) |} /\
    dec_key_of bits u mem' {| rd_key := flat (kl :: map inv_mix_quad (rev ks) ++ [k0]) ++ T';
                              rounds := Z.of_nat (nr_of bits) |}.
Proof.
  intros (Hg & Hu & Hb & Hm) Hm'. destruct (set_encrypt_key_ok bits u mem Hg Hu Hb Hm) as [E Hw].
  destruct (schedule_quads bits u Hg Hu Hw) as (k0 & ks & kl & Es & Hn & H0 & Hks & Hkl).
  pose proof (set_decrypt_key_ok bits u mem' k0 ks kl Hg Hu Hb Hm' Es Hn) as Ed.
  unfold enc_key_of, dec_key_of. rewrite Es in E. rewrite E, Ed. do 5 eexists. split_and!; done.
Qed.

(** ** One block *)
Lemma encrypt_run k0 ks kl T b n :
  quad_ok k0 -> Forall quad_ok ks -> quad_ok kl -> S (length ks) = n -> Nat.Even n -> (0 < n)%nat -> block_ok b ->
  exists s, GETBLOCK b = Ret s /\ quad_ok s /\ PUTBLOCK s = b /\
    quad_ok (run enc_round enc_last k0 ks kl s) /\
    AES_encrypt b {| rd_key := flat (k0 :: ks ++ [kl]) ++ T; rounds := Z.of_nat n |} =
    Ret (PUTBLOCK (run enc_round enc_last k0 ks kl s)).
Proof.
  intros H0 Hks Hkl Hn Hev Hpos Hb. destruct (get_block b Hb) as (s & E & Hs & Hp).
  exists s. split_and!; [done..|by apply enc_last_ok|]. by apply crypt_run.
Qed.

Lemma decrypt_encrypt_run k0 ks kl T T' b n :
  quad_ok k0 -> Forall quad_ok ks -> quad_ok kl -> S (length ks) = n -> Nat.Even n -> (0 < n)%nat -> block_ok b ->
  exists c, AES_encrypt b {| rd_key := flat (k0 :: ks ++ [kl]) ++ T; rounds := Z.of_nat n |} = Ret c /\ block_ok c /\
    AES_decrypt c {| rd_key := flat (kl :: map inv_mix_quad (rev ks) ++ [k0]) ++ T'; rounds := Z.of_nat n |} = Ret b.
Proof.
  intros H0 Hks Hkl Hn Hev Hpos Hb.
  destruct (encrypt_run k0 ks kl T b n) as (s & _ & Hs & Hp & Hr & E); try done.
  destruct (get_put _ Hr) as [Eg Hok]. eexists. split; [exact E|]. split; [done|].
  unfold AES_decrypt. rewrite (crypt_run _ _ kl (map inv_mix_quad (rev ks)) k0 T' _ _ n Eg);
    [|rewrite length_map, length_rev; done|done|done].
  by rewrite run_inverse, Hp.
Qed.

(** ** Properties *)

(** Key expansion: for a key of 128, 192 or 256 bits [AES_set_encrypt_key] stays
    inside the 60 words of the schedule, succeeds, sets 10, 12 or 14 rounds, and leaves in
    the array exactly the words of the KeyExpansion of FIPS-197, the words behind them
    untouched. *)
Theorem aes_key_expansion_fips bits u mem :
  key_args bits u mem ->
  exists key, enc_key_of bits u mem key /\ rounds key = bits / 32 + 6 /\
    rd_key key = fips_expand (Z.to_nat (bits / 32)) (Z.to_nat (4 * (rounds key + 1) - bits / 32))
                   (take (Z.to_nat (bits / 32)) (words u)) ++
                 drop (Z.to_nat (4 * (rounds key + 1))) (rd_key mem).
Proof.
  intros (Hg & Hu & Hb & Hm). destruct (set_encrypt_key_ok bits u mem Hg Hu Hb Hm) as [E _].
  eexists. split; [exact E|]. cbn [rounds rd_key]. unfold schedule, nr_of, nk_of.
  destruct Hg as [->|[->| ->]]; done.
Qed.

Lemma key_args_witness : key_args 128 (seqZ 0 16) zeros60.
Proof.
  split; [by left|]. split; [vm_compute; done|]. split; [|reflexivity].
  change (bytes [0; 1; 2; 3; 4; 5; 6; 7; 8; 9; 10; 11; 12; 13; 14; 15]).
  repeat (constructor; [unfold is_byte; lia|]). constructor.
Qed.

Lemma aes_key_expansion_fips_witness :
  exists key, enc_key_of 128 (seqZ 0 16) zeros60 key /\ rounds key = 10.
Proof.
  destruct (aes_key_expansion_fips 128 (seqZ 0 16) zeros60 key_args_witness) as (key & H1 & H2 & _).
  exists key. split; [exact H1|exact H2].
Defined.

(** C14. Encryption is the Cipher of FIPS-197: with a key made by [AES_set_encrypt_key]
    from any key bytes, the table-driven [AES_encrypt] maps every block to what
    SubBytes, ShiftRows, MixColumns and AddRoundKey give. *)
Theorem aes_encrypt_fips bits u mem key b :
  key_args bits u mem -> enc_key_of bits u mem key -> block_ok b ->
  AES_encrypt b key = Ret (fips_cipher (nr_of bits) (schedule bits u) b).
Proof.
  intros Ha Hk Hb. pose proof Ha as (Hg & _ & _ & Hm).
  destruct (keys_of bits u mem mem Ha Hm) as (k0 & ks & kl & T & _ & Es & Hn & H0 & Hks & Hkl & Ek & _).
  unfold enc_key_of in *. rewrite Ek in Hk. injection Hk as <-. destruct (nr_even bits Hg) as [Hev Hpos].
  destruct (encrypt_run k0 ks kl T b (nr_of bits)) as (s & _ & Hs & Hp & Hr & ->); [done..|].
  f_equal. rewrite qbytes_PUTBLOCK by done. rewrite Es. unfold fips_cipher.
  rewrite <- Hn. cbn [Nat.sub]. rewrite Nat.sub_0_r.
  assert (AddRoundKey b (take 4 (flat (k0 :: ks ++ [kl]))) = qbytes (xor_quad s k0)) as ->.
  { rewrite qbytes_xor, <- qbytes_PUTBLOCK, Hp by done. by destruct k0. }
  pose proof (fips_rounds_run ks [k0] kl [] (xor_quad s k0) (xor_quad_ok _ _ Hs H0) Hks) as H.
  rewrite app_nil_r in H. symmetry. exact H.
Qed.

Lemma fips_block_ok : block_ok fips_block.
Proof.
  split; [done|]. change (bytes [0; 17; 34; 51; 68; 85; 102; 119; 136; 153; 170; 187; 204; 221; 238; 255]).
  repeat (constructor; [unfold is_byte; lia|]). constructor.
Qed.

(** The key the code makes of the bytes 0, 1, ..., 15. *)
Definition sample_key : AES_KEY :=
  match AES_set_encrypt_key (Some (seqZ 0 16)) 128 (Some zeros60) with Ret (Some k, _) => k | _ => zeros60 end.
Definition sample_dec_key : AES_KEY :=
  match AES_set_decrypt_key (Some (seqZ 0 16)) 128 (Some zeros60) with Ret (Some k, _) => k | _ => zeros60 end.

Lemma aes_encrypt_fips_witness :
  AES_encrypt fips_block sample_key = Ret (fips_cipher 10 (schedule 128 (seqZ 0 16)) fips_block).
Proof.
  apply (aes_encrypt_fips 128 (seqZ 0 16) zeros60).
  - exact key_args_witness.
  - vm_compute. reflexivity.
  - exact fips_block_ok.
Defined.

(** Decryption inverts encryption: for every key length, every key and every
    block, [AES_decrypt] with the decryption key of a user key gives back the block that
    [AES_encrypt] encrypted with the encryption key of the same user key. *)
Theorem aes_decrypt_encrypt bits u mem mem' ke kd b :
  key_args bits u mem -> length (rd_key mem') = 60%nat ->
  enc_key_of bits u mem ke -> dec_key_of bits u mem' kd -> block_ok b ->
  exists c, AES_encrypt b ke = Ret c /\ block_ok c /\ AES_decrypt c kd = Ret b.
Proof.
  intros Ha Hm' Hke Hkd Hb. pose proof Ha as (Hg & _).
  destruct (keys_of bits u mem mem' Ha Hm') as (k0 & ks & kl & T & T' & _ & Hn & H0 & Hks & Hkl & Ee & Ed).
  unfold enc_key_of, dec_key_of in *. rewrite Ee in Hke. rewrite Ed in Hkd. injection Hke as <-. injection Hkd as <-.
  destruct (nr_even bits Hg) as [Hev Hpos]. by apply decrypt_encrypt_run.
Qed.

Lemma aes_decrypt_encrypt_witness :
  exists c, AES_encrypt fips_block sample_key = Ret c /\ block_ok c /\ AES_decrypt c sample_dec_key = Ret fips_block.
Proof.
  apply (aes_decrypt_encrypt 128 (seqZ 0 16) zeros60 zeros60).
  - exact key_args_witness.
  - reflexivity.
  - vm_compute. reflexivity.
  - vm_compute. reflexivity.
  - exact fips_block_ok.
Defined.
