(* ===== verification/AesCbc.v ===== *)
(** * AES: CBC mode round trip

    [AES_cbc_encrypt] with [enc] set followed by [AES_cbc_encrypt] with [enc] clear gives
    the plaintext back, for every length, in place or between disjoint buffers. *)

From S2P Require Import Prelude AesTables Aes AesCipher AesKeys AesFips.
From stdpp Require Import list.

Open Scope Z_scope.

(** Two keys that belong together. *)
Definition inverse_keys (ke kd : AES_KEY) : Prop :=
  forall b, block_ok b -> exists c, AES_encrypt b ke = Ret c /\ block_ok c /\ AES_decrypt c kd = Ret b.

Lemma inverse_keys_of bits u mem mem' ke kd :
  key_args bits u mem -> length (rd_key mem') = 60%nat ->
  enc_key_of bits u mem ke -> dec_key_of bits u mem' kd -> inverse_keys ke kd.
Proof.
  intros Ha Hm' Hke Hkd b Hb. pose proof Ha as (Hg & _).
  destruct (keys_of bits u mem mem' Ha Hm') as (k0 & ks & kl & T & T' & _ & Hn & H0 & Hks & Hkl & Ee & Ed).
  unfold enc_key_of, dec_key_of in *. rewrite Ee in Hke. rewrite Ed in Hkd. injection Hke as <-. injection Hkd as <-.
  destruct (nr_even bits Hg) as [Hev Hpos]. by apply decrypt_encrypt_run.
Qed.

(** ** The ciphertext of a plaintext *)
Inductive cbc_rel (ke : AES_KEY) : list Z -> list Z -> list Z -> Prop :=
| cbc_nil iv : cbc_rel ke iv [] []
| cbc_block iv b c pt ct :
    block_ok b -> AES_encrypt (xor_bytes b iv) ke = Ret c -> block_ok c -> cbc_rel ke c pt ct ->
    cbc_rel ke iv (b ++ pt) (c ++ ct)
| cbc_tail iv b c :
    (0 < length b < 16)%nat -> bytes b ->
    AES_encrypt (xor_bytes b iv ++ drop (length b) iv) ke = Ret c -> block_ok c -> cbc_rel ke iv b c.

(** Two areas that are the same or do not meet. *)
Definition apart (a n b m : Z) : Prop := a = b \/ a + n <= b \/ b + m <= a.

Lemma length_xor_bytes a b : length a = length b -> length (xor_bytes a b) = length a.
Proof. intros H. unfold xor_bytes. rewrite length_zip_with. lia. Qed.

Lemma xor_bytes_ok a b : bytes a -> bytes b -> bytes (xor_bytes a b).
Proof.
  intros Ha Hb. unfold xor_bytes. revert b Hb. induction Ha; intros b' Hb; [constructor|].
  destruct Hb; [constructor|]. constructor; auto with vm.
Qed.

Lemma xor_bytes_block a b : block_ok a -> block_ok b -> block_ok (xor_bytes a b).
Proof. intros [H1 H2] [H3 H4]. split; [rewrite length_xor_bytes; lia|by apply xor_bytes_ok]. Qed.

Lemma xor_bytes_cancel a b : length a = length b -> xor_bytes (xor_bytes a b) b = a.
Proof.
  unfold xor_bytes. revert b. induction a as [|x a IH]; intros [|y b] H; try done.
  simpl in *. by rewrite lxor_cancel, IH by lia.
Qed.

Lemma store_iv iv c : block_ok iv -> block_ok c -> store iv 0 c = Some c.
Proof.
  intros [H1 _] [H2 _]. rewrite store_ok by lia. simpl. rewrite H2, drop_ge by lia. by rewrite app_nil_r.
Qed.

Lemma load_iv iv : block_ok iv -> load iv 0 16 = Some iv.
Proof. intros [H1 _]. rewrite load_ok by lia. rewrite drop_0, take_ge; [done|]. rewrite H1. done. Qed.

(** The partial block, filled up with the chaining block. *)
Definition padded (b iv : list Z) : list Z := xor_bytes b iv ++ drop (length b) iv.

Lemma padded_block b iv : (length b < 16)%nat -> bytes b -> block_ok iv -> block_ok (padded b iv).
Proof.
  intros Hl Hb [H1 H2]. split.
  - unfold padded, xor_bytes. rewrite length_app, length_zip_with, length_drop. lia.
  - apply Forall_app. split; [by apply xor_bytes_ok|by apply Forall_drop].
Qed.

Lemma padded_cancel b iv :
  (length b <= length iv)%nat -> take (length b) (xor_bytes (padded b iv) iv) = b.
Proof.
  revert iv. induction b as [|x b IH]; intros [|y iv] Hi; simpl in Hi; [done|done|lia|].
  unfold padded, xor_bytes. simpl. rewrite lxor_cancel. f_equal. apply IH. lia.
Qed.

(** The bytes stored for a text of length [n]. *)
Definition ceil16 (n : Z) : Z := 16 * ((n + 15) / 16).

Ltac Zify.zify_post_hook ::= Z.div_mod_to_equations.

Section Modes.
Variables ke kd : AES_KEY.
Hypothesis Hinv : inverse_keys ke kd.

(** ** Encryption *)
Lemma cbc_enc_block_ok s pt :
  16 <= cbc_len s -> load (cbc_mem s) (cbc_in s) (cbc_len s) = Some pt -> bytes pt -> block_ok (cbc_ivec s) ->
  0 <= cbc_out s -> cbc_out s + 16 <= Z.of_nat (length (cbc_mem s)) ->
  exists b pt' c s1, pt = b ++ pt' /\ block_ok b /\ bytes pt' /\ AES_encrypt (xor_bytes b (cbc_ivec s)) ke = Ret c /\
    block_ok c /\ cbc_enc_block ke s = Ret s1 /\ store (cbc_mem s) (cbc_out s) c = Some (cbc_mem s1) /\
    cbc_len s1 = cbc_len s - 16 /\ cbc_in s1 = cbc_in s + 16 /\ cbc_out s1 = cbc_out s + 16 /\ cbc_ivec s1 = c /\
    load (cbc_mem s) (cbc_in s) 16 = Some b /\
    load (cbc_mem s) (cbc_in s + 16) (cbc_len s - 16) = Some pt'.
Proof using Hinv.
  intros Hlen El Hpt Hiv Ho1 Ho2. pose proof (load_Some _ _ _ _ El) as (_ & _ & _ & Hl & _).
  rewrite <- (take_drop 16 pt) in El, Hpt. apply Forall_app in Hpt as [Hb Hpt'].
  set (b := take 16 pt) in *. set (pt' := drop 16 pt) in *.
  assert (length b = 16%nat) as Hlb by (unfold b; rewrite length_take; lia).
  assert (Z.of_nat (length pt') = cbc_len s - 16) as Hlp by (unfold pt'; rewrite length_drop; lia).
  apply load_split in El as [E1 E2]. rewrite Hlb in E1, E2. rewrite Hlp in E2. change (Z.of_nat 16) with 16 in E1, E2.
  destruct (Hinv (xor_bytes b (cbc_ivec s))) as (c & Ec & Hc & _); [by apply xor_bytes_block|].
  assert (exists m1, store (cbc_mem s) (cbc_out s) c = Some m1) as [m1 Em].
  { destruct Hc as [Hlc _]. eexists. apply store_ok; lia. }
  eexists b, pt', c, _. split; [symmetry; apply take_drop|]. split; [done|]. split; [done|].
  split; [done|]. split; [done|]. split.
  { unfold cbc_enc_block. rewrite E1. cbn [oget obind]. rewrite load_iv by done. cbn [oget obind].
    rewrite Ec. cbn [obind]. rewrite Em. cbn [oget obind].
    rewrite (load_store_same _ _ _ _ _ Em) by (by rewrite (proj1 Hc)). cbn [oget obind].
    rewrite store_iv by done. cbn [oget obind]. reflexivity. }
  simpl. by rewrite Em.
Qed.

(** What encryption leaves behind, in a state [s'] reached from [s]. *)
Definition encrypted (s : cbc) (pt : list Z) (s' : cbc) : Prop :=
  exists ct, cbc_rel ke (cbc_ivec s) pt ct /\ store (cbc_mem s) (cbc_out s) ct = Some (cbc_mem s') /\
    Z.of_nat (length ct) = ceil16 (cbc_len s).

Lemma cbc_enc_end s pt :
  cbc_len s < 16 -> load (cbc_mem s) (cbc_in s) (cbc_len s) = Some pt -> bytes pt -> block_ok (cbc_ivec s) ->
  0 <= cbc_out s -> cbc_out s + ceil16 (cbc_len s) <= Z.of_nat (length (cbc_mem s)) ->
  exists s', (if negb (cbc_len s =? 0) then cbc_enc_tail ke s else Ret s) = Ret s' /\ encrypted s pt s'.
Proof using Hinv.
  unfold encrypted, ceil16. intros H16 El Hpt Hiv Ho1 Ho2. pose proof (load_Some _ _ _ _ El) as (Hi1 & Hn & Hi2 & Hl & _).
  destruct (cbc_len s =? 0) eqn:E0; bool_hyps; cbn [negb].
  - exists s. split; [done|]. exists []. rewrite E0 in *.
    assert (pt = []) as -> by (destruct pt; [done|simpl in Hl; lia]).
    split_and!; [constructor| |done]. rewrite store_ok by (simpl; lia). simpl. by rewrite Nat.add_0_r, take_drop.
  - destruct (Hinv (padded pt (cbc_ivec s))) as (c & Ec & Hc & _); [apply padded_block; [lia|done|done]|].
    assert (exists m1, store (cbc_mem s) (cbc_out s) c = Some m1) as [m1 Em].
    { destruct Hc as [Hlc _]. eexists. apply store_ok; lia. }
    eexists. split.
    { unfold cbc_enc_tail. rewrite El. cbn [oget obind]. rewrite load_iv by done. cbn [oget obind].
      replace (Z.to_nat (cbc_len s)) with (length pt) by lia. unfold padded in Ec. rewrite Ec. cbn [obind].
      rewrite Em. cbn [oget obind]. rewrite store_iv by done. reflexivity. }
    exists c. split; [apply cbc_tail; [lia|done|exact Ec|done]|]. split; [exact Em|]. destruct Hc as [-> _]. lia.
Qed.

Lemma cbc_enc_ok fuel s pt :
  load (cbc_mem s) (cbc_in s) (cbc_len s) = Some pt -> bytes pt -> block_ok (cbc_ivec s) ->
  cbc_len s / 16 <= Z.of_nat fuel ->
  0 <= cbc_out s -> cbc_out s + ceil16 (cbc_len s) <= Z.of_nat (length (cbc_mem s)) ->
  apart (cbc_in s) (cbc_len s) (cbc_out s) (ceil16 (cbc_len s)) ->
  exists s', cbc_loop (cbc_enc_block ke) (cbc_enc_tail ke) fuel s = Ret s' /\ encrypted s pt s'.
Proof using Hinv.
  revert s pt. induction fuel as [|fuel IH]; intros s pt El Hpt Hiv Hf Ho1 Ho2 Hap;
    cbn [cbc_loop]; unfold AES_BLOCK_SIZE; destruct (16 <=? cbc_len s) eqn:E16; bool_hyps;
    try (by apply cbc_enc_end); [lia|].
  unfold ceil16 in *.
  destruct (cbc_enc_block_ok s pt)
    as (b & pt' & c & s1 & -> & Hb & Hpt' & Ec & Hc & Es & Em & E1 & E2 & E3 & E4 & _ & Ep);
    [lia|done|done|done|lia|lia|]. rewrite Es. cbn [obind].
  pose proof (length_store _ _ _ _ Em) as Hlm. destruct Hc as [Hlc Hbc].
  destruct (IH s1 pt') as (s' & Er & ct & Hrel & Est & Hct).
  - rewrite E1, E2, (load_store_other _ _ _ _ _ _ Em); [done|]. unfold apart in Hap. lia.
  - done.
  - by rewrite E4.
  - lia.
  - lia.
  - rewrite E1, E3, Hlm. lia.
  - unfold apart in *. rewrite E1, E2, E3. lia.
  - exists s'. split; [done|]. exists (c ++ ct). unfold ceil16 in *. split_and!; [| |rewrite length_app; lia].
    + rewrite E4 in Hrel. by apply cbc_block.
    + rewrite <- Est, E3. symmetry. replace 16 with (Z.of_nat (length c)) by lia. by apply store_app.
Qed.

(** ** Decryption *)
Lemma cbc_rel_lengths iv pt ct : cbc_rel ke iv pt ct -> Z.of_nat (length ct) = ceil16 (Z.of_nat (length pt)).
Proof using.
  unfold ceil16. induction 1 as [|iv b c pt ct [Hb _] _ [Hc _] _ IH|iv b c Hb _ _ [Hc _]].
  - done.
  - rewrite !length_app. lia.
  - lia.
Qed.

Lemma decrypt_of b c : block_ok b -> AES_encrypt b ke = Ret c -> AES_decrypt c kd = Ret b.
Proof using Hinv. intros Hb E. destruct (Hinv b Hb) as (c' & E' & _ & Hd). congruence. Qed.

(** One block of ciphertext [c], whatever follows. *)
Lemma cbc_dec_block_ok s b c :
  block_ok b -> block_ok c -> block_ok (cbc_ivec s) -> AES_encrypt (xor_bytes b (cbc_ivec s)) ke = Ret c ->
  load (cbc_mem s) (cbc_in s) 16 = Some c ->
  0 <= cbc_out s -> cbc_out s + 16 <= Z.of_nat (length (cbc_mem s)) ->
  exists m1, store (cbc_mem s) (cbc_out s) b = Some m1 /\
    cbc_dec_block kd s = Ret {| cbc_mem := m1; cbc_len := cbc_len s - 16; cbc_in := cbc_in s + 16;
                                cbc_out := cbc_out s + 16; cbc_ivec := c |}.
Proof using Hinv.
  intros Hb Hc Hiv Ec El Ho1 Ho2. pose proof (xor_bytes_block _ _ Hb Hiv) as Hx.
  assert (exists m0, store (cbc_mem s) (cbc_out s) (xor_bytes b (cbc_ivec s)) = Some m0) as [m0 E0].
  { destruct Hx as [Hlx _]. eexists. apply store_ok; lia. }
  assert (exists m1, store (cbc_mem s) (cbc_out s) b = Some m1) as [m1 E1].
  { destruct Hb as [Hlb _]. eexists. apply store_ok; lia. }
  exists m1. split; [done|]. unfold cbc_dec_block. rewrite El. cbn [oget obind].
  rewrite (decrypt_of _ _ Hx Ec). cbn [obind]. rewrite E0. cbn [oget obind].
  rewrite (load_store_same _ _ _ _ _ E0) by (by rewrite (proj1 Hx)). cbn [oget obind].
  rewrite load_iv by done. cbn [oget obind].
  rewrite xor_bytes_cancel by (by rewrite (proj1 Hb), (proj1 Hiv)).
  rewrite (store_store_same _ _ _ b _ E0) by (by rewrite (proj1 Hx), (proj1 Hb)). rewrite E1. cbn [oget obind].
  by rewrite store_iv.
Qed.

Lemma cbc_dec_tail_ok s b c :
  (0 < length b < 16)%nat -> bytes b -> block_ok (cbc_ivec s) -> block_ok c ->
  AES_encrypt (padded b (cbc_ivec s)) ke = Ret c -> cbc_len s = Z.of_nat (length b) ->
  load (cbc_mem s) (cbc_in s) 16 = Some c ->
  0 <= cbc_out s -> cbc_out s + cbc_len s <= Z.of_nat (length (cbc_mem s)) ->
  exists s', cbc_dec_tail kd s = Ret s' /\ store (cbc_mem s) (cbc_out s) b = Some (cbc_mem s').
Proof using Hinv.
  intros Hlb Hb Hiv Hc Ec Hlen El Ho1 Ho2.
  assert (block_ok (padded b (cbc_ivec s))) as Hp by (apply padded_block; [lia|done|done]).
  assert (exists m1, store (cbc_mem s) (cbc_out s) b = Some m1) as [m1 E1] by (eexists; apply store_ok; lia).
  eexists. split.
  { unfold cbc_dec_tail. rewrite El. cbn [oget obind]. rewrite (decrypt_of _ _ Hp Ec). cbn [obind].
    rewrite load_iv by done. cbn [oget obind]. replace (Z.to_nat (cbc_len s)) with (length b) by lia.
    rewrite padded_cancel by (rewrite (proj1 Hiv); lia). rewrite E1. cbn [oget obind].
    rewrite store_iv by done. reflexivity. }
  done.
Qed.

Lemma cbc_dec_ok fuel s pt ct :
  cbc_rel ke (cbc_ivec s) pt ct -> block_ok (cbc_ivec s) -> cbc_len s = Z.of_nat (length pt) ->
  load (cbc_mem s) (cbc_in s) (ceil16 (cbc_len s)) = Some ct -> cbc_len s / 16 <= Z.of_nat fuel ->
  0 <= cbc_out s -> cbc_out s + cbc_len s <= Z.of_nat (length (cbc_mem s)) ->
  apart (cbc_in s) (ceil16 (cbc_len s)) (cbc_out s) (cbc_len s) ->
  exists s', cbc_loop (cbc_dec_block kd) (cbc_dec_tail kd) fuel s = Ret s' /\
    store (cbc_mem s) (cbc_out s) pt = Some (cbc_mem s').
Proof using Hinv.
  intros Hrel. remember (cbc_ivec s) as iv eqn:Eiv. revert fuel s Eiv.
  induction Hrel as [iv|iv b c pt ct Hb Ec Hc Hrel IH|iv b c Hlb Hb Ec Hc];
    intros fuel s -> Hiv Hlen El Hf Ho1 Ho2 Hap.
  - exists s. assert (cbc_len s = 0) as E0 by (rewrite Hlen; done).
    destruct fuel; cbn [cbc_loop]; rewrite E0; (split; [done|]);
      rewrite store_ok by (simpl; lia); simpl; by rewrite Nat.add_0_r, take_drop.
  - rewrite length_app in Hlen. pose proof (cbc_rel_lengths _ _ _ Hrel) as Hct. unfold ceil16 in *.
    pose proof (proj1 Hb) as Hlb. pose proof (proj1 Hc) as Hlc. destruct fuel as [|fuel]; [lia|]. cbn [cbc_loop].
    unfold AES_BLOCK_SIZE. rewrite (proj2 (Z.leb_le _ _)) by lia.
    apply load_split in El as [E1 E2]. rewrite Hlc in E1, E2. change (Z.of_nat 16) with 16 in E1, E2.
    destruct (cbc_dec_block_ok s b c) as (m1 & Em & ->); [done..|lia|]. cbn [obind].
    pose proof (length_store _ _ _ _ Em) as Hlm.
    destruct (IH fuel {| cbc_mem := m1; cbc_len := cbc_len s - 16; cbc_in := cbc_in s + 16;
                         cbc_out := cbc_out s + 16; cbc_ivec := c |}) as (s' & Er & Est); simpl; try done; try lia.
    + replace (16 * ((cbc_len s - 16 + 15) / 16)) with (Z.of_nat (length ct)) by lia.
      rewrite (load_store_other _ _ _ _ _ _ Em); [done|]. unfold apart in Hap. lia.
    + unfold apart in *. lia.
    + exists s'. split; [done|]. rewrite <- Est. symmetry. simpl.
      replace 16 with (Z.of_nat (length b)) by lia. by apply store_app.
  - assert (ceil16 (cbc_len s) = 16) as E16 by (unfold ceil16; lia). rewrite E16 in El.
    destruct (cbc_dec_tail_ok s b c) as (s' & Es & Est); try done. exists s'. split; [|done].
    destruct fuel; cbn [cbc_loop]; unfold AES_BLOCK_SIZE;
      rewrite (proj2 (Z.leb_gt 16 (cbc_len s))), (proj2 (Z.eqb_neq (cbc_len s) 0)) by lia; done.
Qed.

End Modes.

(** ** Properties *)

(** C15. CBC round trip: [length] bytes at [src], encrypted to [mid] and decrypted to
    [dst] with the keys of one user key and the same initial chaining block, come back.  At
    each call the two buffers may be the same or disjoint; a last partial block works too,
    its ciphertext being a whole block, so [mid] needs room for [length] rounded up. *)
Theorem aes_cbc_roundtrip bits u kmem kmem' ke kd mem src mid dst length pt iv :
  key_args bits u kmem -> List.length (rd_key kmem') = 60%nat ->
  enc_key_of bits u kmem ke -> dec_key_of bits u kmem' kd -> block_ok iv ->
  load mem src length = Some pt -> bytes pt ->
  0 <= mid -> mid + ceil16 length <= Z.of_nat (List.length mem) -> apart src length mid (ceil16 length) ->
  0 <= dst -> dst + length <= Z.of_nat (List.length mem) -> apart mid (ceil16 length) dst length ->
  exists mem1 iv1 mem2 iv2,
    AES_cbc_encrypt mem src mid length ke iv 1 = Ret (mem1, iv1) /\
    AES_cbc_encrypt mem1 mid dst length kd iv 0 = Ret (mem2, iv2) /\
    load mem2 dst length = Some pt.
Proof.
  intros Ha Hm' Hke Hkd Hiv El Hpt Hm1 Hm2 Hap Hd1 Hd2 Hap2.
  pose proof (inverse_keys_of _ _ _ _ _ _ Ha Hm' Hke Hkd) as Hinv.
  pose proof (load_Some _ _ _ _ El) as (_ & Hn & _ & Hlp & _).
  assert (length / 16 <= Z.of_nat (Z.to_nat (length / 16))) as Hf by (rewrite Z2Nat.id; [lia|apply Z.div_pos; lia]).
  destruct (cbc_enc_ok ke kd Hinv (Z.to_nat (length / 16))
    {| cbc_mem := mem; cbc_len := length; cbc_in := src; cbc_out := mid; cbc_ivec := iv |} pt)
    as (s1 & E1 & ct & Hrel & Est & Hct); simpl in *; try done.
  pose proof (length_store _ _ _ _ Est) as Hlm.
  destruct (cbc_dec_ok ke kd Hinv (Z.to_nat (length / 16))
    {| cbc_mem := cbc_mem s1; cbc_len := length; cbc_in := mid; cbc_out := dst; cbc_ivec := iv |} pt ct)
    as (s2 & E2 & Est2); simpl; try done.
  - by rewrite (load_store_same _ _ _ _ _ Est).
  - by rewrite Hlm.
  - exists (cbc_mem s1), (cbc_ivec s1), (cbc_mem s2), (cbc_ivec s2). unfold AES_cbc_encrypt. simpl.
    rewrite E1, E2. split_and!; [done|done|]. by apply (load_store_same _ _ _ _ _ Est2).
Qed.

(** In place, 20 bytes of a memory of 40. *)
Lemma aes_cbc_roundtrip_witness :
  exists mem1 iv1 mem2 iv2,
    AES_cbc_encrypt (replicate 40 7) 0 0 20 sample_key (replicate 16 1) 1 = Ret (mem1, iv1) /\
    AES_cbc_encrypt mem1 0 0 20 sample_dec_key (replicate 16 1) 0 = Ret (mem2, iv2) /\
    load mem2 0 20 = Some (replicate 20 7).
Proof.
  apply (aes_cbc_roundtrip 128 (seqZ 0 16) zeros60 zeros60).
  - exact key_args_witness.
  - reflexivity.
  - vm_compute. reflexivity.
  - vm_compute. reflexivity.
  - split; [reflexivity|]. apply Forall_replicate. unfold is_byte. lia.
  - reflexivity.
  - apply Forall_replicate. unfold is_byte. lia.
  - lia.
  - vm_compute. done.
  - by left.
  - lia.
  - vm_compute. done.
  - by left.
Defined.
