(* ===== verification/I8259.v ===== *)
(** * The interrupt controllers: hw/i8259.c

    The two cascaded 8259 chips as one state; the callbacks that take a [PicState] pointer
    take the index of the chip (0 the master, 1 the slave), since they reach the other chip
    through [pics_state].  The calls of [qemu_irq_raise] and [qemu_irq_lower] on the parent
    interrupt are a log.  [hw_error] ends the process: [Throw HwError].  The counters
    [timer_acks] and [timer_ints_to_push] of the time drift fix belong to the timer and are
    part of the state here. *)

From S2P Require Import Prelude.
From stdpp Require Import list.

Open Scope Z_scope.

Record PicState := {
  last_irr : Z; irr : Z; imr : Z; isr : Z;
  priority_add : Z; irq_base : Z; read_reg_select : Z; poll : Z;
  special_mask : Z; init_state : Z; auto_eoi : Z; rotate_on_auto_eoi : Z;
  special_fully_nested_mode : Z; init4 : Z; single_mode : Z;
  elcr : Z; elcr_mask : Z
}.

(** The fields the operations assign. *)
Definition set_irrs (s : PicState) (l r : Z) : PicState :=
  {| last_irr := l; irr := r; imr := imr s; isr := isr s; priority_add := priority_add s; irq_base := irq_base s;
     read_reg_select := read_reg_select s; poll := poll s; special_mask := special_mask s;
     init_state := init_state s; auto_eoi := auto_eoi s; rotate_on_auto_eoi := rotate_on_auto_eoi s;
     special_fully_nested_mode := special_fully_nested_mode s; init4 := init4 s; single_mode := single_mode s;
     elcr := elcr s; elcr_mask := elcr_mask s |}.
Definition set_isr_prio (s : PicState) (i p : Z) : PicState :=
  {| last_irr := last_irr s; irr := irr s; imr := imr s; isr := i; priority_add := p; irq_base := irq_base s;
     read_reg_select := read_reg_select s; poll := poll s; special_mask := special_mask s;
     init_state := init_state s; auto_eoi := auto_eoi s; rotate_on_auto_eoi := rotate_on_auto_eoi s;
     special_fully_nested_mode := special_fully_nested_mode s; init4 := init4 s; single_mode := single_mode s;
     elcr := elcr s; elcr_mask := elcr_mask s |}.
Definition set_imr (s : PicState) (m : Z) : PicState :=
  {| last_irr := last_irr s; irr := irr s; imr := m; isr := isr s; priority_add := priority_add s;
     irq_base := irq_base s; read_reg_select := read_reg_select s; poll := poll s; special_mask := special_mask s;
     init_state := init_state s; auto_eoi := auto_eoi s; rotate_on_auto_eoi := rotate_on_auto_eoi s;
     special_fully_nested_mode := special_fully_nested_mode s; init4 := init4 s; single_mode := single_mode s;
     elcr := elcr s; elcr_mask := elcr_mask s |}.
Definition set_ocw3 (s : PicState) (rr po sm : Z) : PicState :=
  {| last_irr := last_irr s; irr := irr s; imr := imr s; isr := isr s; priority_add := priority_add s;
     irq_base := irq_base s; read_reg_select := rr; poll := po; special_mask := sm;
     init_state := init_state s; auto_eoi := auto_eoi s; rotate_on_auto_eoi := rotate_on_auto_eoi s;
     special_fully_nested_mode := special_fully_nested_mode s; init4 := init4 s; single_mode := single_mode s;
     elcr := elcr s; elcr_mask := elcr_mask s |}.
Definition set_init (s : PicState) (st base fn ae rot i4 single : Z) : PicState :=
  {| last_irr := last_irr s; irr := irr s; imr := imr s; isr := isr s; priority_add := priority_add s;
     irq_base := base; read_reg_select := read_reg_select s; poll := poll s; special_mask := special_mask s;
     init_state := st; auto_eoi := ae; rotate_on_auto_eoi := rot;
     special_fully_nested_mode := fn; init4 := i4; single_mode := single;
     elcr := elcr s; elcr_mask := elcr_mask s |}.
Definition set_elcr (s : PicState) (e : Z) : PicState :=
  {| last_irr := last_irr s; irr := irr s; imr := imr s; isr := isr s; priority_add := priority_add s;
     irq_base := irq_base s; read_reg_select := read_reg_select s; poll := poll s; special_mask := special_mask s;
     init_state := init_state s; auto_eoi := auto_eoi s; rotate_on_auto_eoi := rotate_on_auto_eoi s;
     special_fully_nested_mode := special_fully_nested_mode s; init4 := init4 s; single_mode := single_mode s;
     elcr := e; elcr_mask := elcr_mask s |}.

Inductive irq_call := IrqRaise | IrqLower.

Record PicState2 := {
  pics0 : PicState;
  pics1 : PicState;
  parent_irq : list irq_call;
  time_drift_fix : bool;
  timer_acks : Z;
  timer_ints_to_push : Z
}.

Definition pic (s : PicState2) (slave : bool) : PicState := if slave then pics1 s else pics0 s.
Definition with_pic (s : PicState2) (slave : bool) (p : PicState) : PicState2 :=
  {| pics0 := if slave then pics0 s else p; pics1 := if slave then p else pics1 s; parent_irq := parent_irq s;
     time_drift_fix := time_drift_fix s; timer_acks := timer_acks s; timer_ints_to_push := timer_ints_to_push s |}.
Definition call_parent (s : PicState2) (c : irq_call) : PicState2 :=
  {| pics0 := pics0 s; pics1 := pics1 s; parent_irq := parent_irq s ++ [c];
     time_drift_fix := time_drift_fix s; timer_acks := timer_acks s; timer_ints_to_push := timer_ints_to_push s |}.
Definition with_timer (s : PicState2) (acks push : Z) : PicState2 :=
  {| pics0 := pics0 s; pics1 := pics1 s; parent_irq := parent_irq s;
     time_drift_fix := time_drift_fix s; timer_acks := acks; timer_ints_to_push := push |}.

(** [x |= 1 << i] and [x &= ~(1 << i)] on an 8-bit field. *)
Definition set_bit (x i : Z) : Z := u8 (Z.lor x (Z.shiftl 1 i)).
Definition clear_bit (x i : Z) : Z := u8 (Z.land x (Z.lnot (Z.shiftl 1 i))).
Definition bit (x i : Z) : bool := negb (Z.land x (Z.shiftl 1 i) =? 0).

Definition pic_set_irq1 (s : PicState) (irq : Z) (level : bool) : PicState :=
  if bit (elcr s) irq then
    (* level triggered *)
    if level then set_irrs s (set_bit (last_irr s) irq) (set_bit (irr s) irq)
    else set_irrs s (clear_bit (last_irr s) irq) (clear_bit (irr s) irq)
  else
    (* edge triggered *)
    if level then
      set_irrs s (set_bit (last_irr s) irq) (if bit (last_irr s) irq then irr s else set_bit (irr s) irq)
    else set_irrs s (clear_bit (last_irr s) irq) (irr s).

(** The loop of [get_priority] from [priority] on.  The mask is a nonzero byte, so that
    the loop stops before 8 ([get_priority_spec]). *)
Fixpoint priority_from (fuel : nat) (priority add mask : Z) : Z :=
  match fuel with
  | O => priority
  | S fuel => if bit mask (Z.land (priority + add) 7) then priority else priority_from fuel (priority + 1) add mask
  end.

Definition get_priority (s : PicState) (mask : Z) : Z :=
  if mask =? 0 then 8 else priority_from 8 0 (priority_add s) mask.

(** [master] is [s == &s->pics_state->pics[0]]. *)
Definition pic_get_irq (s : PicState) (master : bool) : Z :=
  let mask := Z.land (irr s) (Z.lnot (imr s)) in
  let priority := get_priority s mask in
  if priority =? 8 then -1
  else
    let mask := isr s in
    let mask := if negb (special_mask s =? 0) then Z.land mask (Z.lnot (imr s)) else mask in
    let mask := if negb (special_fully_nested_mode s =? 0) && master
                then Z.land mask (Z.lnot (Z.shiftl 1 2)) else mask in
    let cur_priority := get_priority s mask in
    if priority <? cur_priority then Z.land (priority + priority_add s) 7 else -1.

Definition pic_update_irq (s : PicState2) : PicState2 :=
  let irq2 := pic_get_irq (pics1 s) false in
  let s := if 0 <=? irq2 then
             with_pic s false (pic_set_irq1 (pic_set_irq1 (pics0 s) 2 true) 2 false)
           else s in
  if 0 <=? pic_get_irq (pics0 s) true then call_parent s IrqRaise else s.

Definition i8259_set_irq (s : PicState2) (irq : Z) (level : bool) : PicState2 :=
  let slave := negb (Z.shiftr irq 3 =? 0) in
  pic_update_irq (with_pic s slave (pic_set_irq1 (pic s slave) (Z.land irq 7) level)).

Definition pic_intack (s : PicState) (irq : Z) : PicState :=
  let s := if negb (auto_eoi s =? 0) then
             if negb (rotate_on_auto_eoi s =? 0) then set_isr_prio s (isr s) (Z.land (irq + 1) 7) else s
           else set_isr_prio s (set_bit (isr s) irq) (priority_add s) in
  if bit (elcr s) irq then s else set_irrs s (last_irr s) (clear_bit (irr s) irq).

Definition pic_read_irq (s : PicState2) : PicState2 * Z :=
  let irq := pic_get_irq (pics0 s) true in
  let '(s, intno) :=
    if 0 <=? irq then
      let s := with_pic s false (pic_intack (pics0 s) irq) in
      let s := if time_drift_fix s && (irq =? 0) then
                 let s := with_timer s (timer_acks s + 1) (timer_ints_to_push s) in
                 if 0 <? timer_ints_to_push s then
                   let s := with_timer s (timer_acks s) (timer_ints_to_push s - 1) in
                   with_pic s false (pic_set_irq1 (pic_set_irq1 (pics0 s) 0 false) 0 true)
                 else s
               else s in
      if irq =? 2 then
        let irq2 := pic_get_irq (pics1 s) false in
        let '(s, irq2) := if 0 <=? irq2 then (with_pic s true (pic_intack (pics1 s) irq2), irq2) else (s, 7) in
        (s, irq_base (pics1 s) + irq2)
      else (s, irq_base (pics0 s) + irq)
    else (s, irq_base (pics0 s) + 7) in
  (pic_update_irq s, intno).

(** The edge/level register is not reset. *)
Definition pic_reset (s : PicState) : PicState :=
  {| last_irr := 0; irr := 0; imr := 0; isr := 0; priority_add := 0; irq_base := 0; read_reg_select := 0;
     poll := 0; special_mask := 0; init_state := 0; auto_eoi := 0; rotate_on_auto_eoi := 0;
     special_fully_nested_mode := 0; init4 := 0; single_mode := 0; elcr := elcr s; elcr_mask := elcr_mask s |}.

Inductive hw_exn := HwError.

(** *** Writes to port 0: initialisation and operation commands *)

(** OCW2: rotation and end of interrupt. *)
Definition pic_ocw2 (st : PicState2) (slave : bool) (val : Z) : PicState2 :=
  let s := pic st slave in
  let cmd := Z.shiftr val 5 in
  if (cmd =? 0) || (cmd =? 4) then
    with_pic st slave (set_init s (init_state s) (irq_base s) (special_fully_nested_mode s) (auto_eoi s)
                         (Z.shiftr cmd 2) (init4 s) (single_mode s))
  else if (cmd =? 1) || (cmd =? 5) then
    let priority := get_priority s (isr s) in
    if negb (priority =? 8) then
      let irq := Z.land (priority + priority_add s) 7 in
      let s := set_isr_prio s (clear_bit (isr s) irq) (if cmd =? 5 then Z.land (irq + 1) 7 else priority_add s) in
      pic_update_irq (with_pic st slave s)
    else st
  else if cmd =? 3 then
    pic_update_irq (with_pic st slave (set_isr_prio s (clear_bit (isr s) (Z.land val 7)) (priority_add s)))
  else if cmd =? 6 then
    pic_update_irq (with_pic st slave (set_isr_prio s (isr s) (Z.land (val + 1) 7)))
  else if cmd =? 7 then
    let irq := Z.land val 7 in
    pic_update_irq (with_pic st slave (set_isr_prio s (clear_bit (isr s) irq) (Z.land (irq + 1) 7)))
  else st.

Definition pic_ioport_write (st : PicState2) (slave : bool) (addr val : Z) : outcome hw_exn PicState2 :=
  let s := pic st slave in
  if Z.land addr 1 =? 0 then
    if negb (Z.land val 0x10 =? 0) then
      (* init *)
      let s := pic_reset s in
      let st := call_parent (with_pic st slave s) IrqLower in
      let st := with_pic st slave
                  (set_init s 1 (irq_base s) (special_fully_nested_mode s) (auto_eoi s) (rotate_on_auto_eoi s)
                     (Z.land val 1) (Z.land val 2)) in
      if negb (Z.land val 0x08 =? 0) then Throw HwError else Ret st
    else if negb (Z.land val 0x08 =? 0) then
      Ret (with_pic st slave
             (set_ocw3 s (if negb (Z.land val 0x02 =? 0) then Z.land val 1 else read_reg_select s)
                (if negb (Z.land val 0x04 =? 0) then 1 else poll s)
                (if negb (Z.land val 0x40 =? 0) then Z.land (Z.shiftr val 5) 1 else special_mask s)))
    else Ret (pic_ocw2 st slave val)
  else if init_state s =? 0 then
    Ret (pic_update_irq (with_pic st slave (set_imr s (u8 val))))
  else
    let next (n base fn ae : Z) :=
      Ret (with_pic st slave (set_init s n base fn ae (rotate_on_auto_eoi s) (init4 s) (single_mode s))) in
    if init_state s =? 1 then
      next (if negb (single_mode s =? 0) then (if negb (init4 s =? 0) then 3 else 0) else 2)
           (Z.land val 0xf8) (special_fully_nested_mode s) (auto_eoi s)
    else if init_state s =? 2 then
      next (if negb (init4 s =? 0) then 3 else 0) (irq_base s) (special_fully_nested_mode s) (auto_eoi s)
    else if init_state s =? 3 then
      next 0 (irq_base s) (Z.land (Z.shiftr val 4) 1) (Z.land (Z.shiftr val 1) 1)
    else Ret st.

(** *** Reads *)
Definition pic_poll_read (st : PicState2) (slave : bool) (addr1 : Z) : PicState2 * Z :=
  let ret := pic_get_irq (pic st slave) (negb slave) in
  if 0 <=? ret then
    let high := negb (Z.shiftr addr1 7 =? 0) in
    let st := if high then
                let m := set_isr_prio (pics0 st) (clear_bit (isr (pics0 st)) 2) (priority_add (pics0 st)) in
                with_pic st false (set_irrs m (last_irr m) (clear_bit (irr m) 2))
              else st in
    let s := pic st slave in
    let s := set_irrs s (last_irr s) (clear_bit (irr s) ret) in
    let s := set_isr_prio s (clear_bit (isr s) ret) (priority_add s) in
    let st := with_pic st slave s in
    (if high || negb (ret =? 2) then pic_update_irq st else st, ret)
  else (pic_update_irq st, 7).

Definition pic_ioport_read (st : PicState2) (slave : bool) (addr1 : Z) : PicState2 * Z :=
  let s := pic st slave in
  if negb (poll s =? 0) then
    let '(st, ret) := pic_poll_read st slave addr1 in
    let s := pic st slave in
    (with_pic st slave (set_ocw3 s (read_reg_select s) 0 (special_mask s)), ret)
  else if Z.land addr1 1 =? 0 then
    (st, if negb (read_reg_select s =? 0) then isr s else irr s)
  else (st, imr s).

Definition pic_intack_read (st : PicState2) : PicState2 * Z :=
  let '(st, ret) := pic_poll_read st false 0 in
  let '(st, ret) := if ret =? 2 then let '(st, r) := pic_poll_read st true 0x80 in (st, r + 8) else (st, ret) in
  let m := pics0 st in
  (with_pic st false (set_ocw3 m 1 (poll m) (special_mask m)), ret).

Definition elcr_ioport_write (st : PicState2) (slave : bool) (val : Z) : PicState2 :=
  with_pic st slave (set_elcr (pic st slave) (Z.land val (elcr_mask (pic st slave)))).

Definition elcr_ioport_read (st : PicState2) (slave : bool) : Z := elcr (pic st slave).

(** The state [i8259_init] allocates. *)
Definition pic_zero (mask : Z) : PicState :=
  {| last_irr := 0; irr := 0; imr := 0; isr := 0; priority_add := 0; irq_base := 0; read_reg_select := 0;
     poll := 0; special_mask := 0; init_state := 0; auto_eoi := 0; rotate_on_auto_eoi := 0;
     special_fully_nested_mode := 0; init4 := 0; single_mode := 0; elcr := 0; elcr_mask := mask |}.

Definition i8259_init (drift : bool) : PicState2 :=
  {| pics0 := pic_zero 0xf8; pics1 := pic_zero 0xde; parent_irq := [];
     time_drift_fix := drift; timer_acks := 0; timer_ints_to_push := 0 |}.
