(* ===== verification/I8259Proofs.v ===== *)
(** * The interrupt controllers: what they compute

    The rank of a line and priority resolution, the invariant of all reachable states,
    nesting of interrupts, and what the edges and levels of a line request. *)

From S2P Require Import Prelude I8259.
From stdpp Require Import list.

Open Scope Z_scope.

(** ** Bits of a byte *)
Lemma bit_testbit x i : 0 <= i -> bit x i = Z.testbit x i.
Proof.
  intros Hi. unfold bit. destruct (Z.testbit x i) eqn:E.
  - apply negb_true_iff, Z.eqb_neq. intros H. apply (f_equal (fun z => Z.testbit z i)) in H.
    rewrite Z.land_spec, Z.shiftl_spec, E, Z.sub_diag, Z.bits_0 in H by done. discriminate H.
  - apply negb_false_iff, Z.eqb_eq. apply Z.bits_inj'. intros n Hn.
    rewrite Z.land_spec, Z.bits_0, Z.shiftl_spec by done.
    destruct (Z.eq_dec n i) as [->|Hne]; [by rewrite E|].
    destruct (Z_lt_le_dec n i); [rewrite (Z.testbit_neg_r 1) by lia; apply andb_false_r|].
    rewrite (Z.bits_above_log2 1) by (simpl; lia). apply andb_false_r.
Qed.

Lemma testbit_one i j : 0 <= j -> Z.testbit (Z.shiftl 1 i) j = (j =? i).
Proof.
  intros Hj. rewrite Z.shiftl_spec by done. destruct (Z.eqb_spec j i) as [->|Hne]; [by rewrite Z.sub_diag|].
  destruct (Z_lt_le_dec j i); [by rewrite Z.testbit_neg_r by lia|].
  by rewrite Z.bits_above_log2 by (simpl; lia).
Qed.

Lemma testbit_u8 x j : 0 <= j < 8 -> Z.testbit (u8 x) j = Z.testbit x j.
Proof. intros Hj. unfold wrap. apply Z.mod_pow2_bits_low. lia. Qed.

Lemma testbit_set_bit x i j : 0 <= j < 8 -> Z.testbit (set_bit x i) j = Z.testbit x j || (j =? i).
Proof. intros Hj. unfold set_bit. rewrite testbit_u8, Z.lor_spec, testbit_one by lia. done. Qed.

Lemma testbit_clear_bit x i j : 0 <= j < 8 -> Z.testbit (clear_bit x i) j = Z.testbit x j && negb (j =? i).
Proof. intros Hj. unfold clear_bit. rewrite testbit_u8, Z.land_spec, Z.lnot_spec, testbit_one by lia. done. Qed.

Lemma set_bit_byte x i : is_byte (set_bit x i).
Proof. apply u8_byte. Qed.
Lemma clear_bit_byte x i : is_byte (clear_bit x i).
Proof. apply u8_byte. Qed.

Lemma land7_range x : 0 <= Z.land x 7 < 8.
Proof. change 7 with (Z.ones 3). rewrite Z.land_ones by lia. by apply Z.mod_pos_bound. Qed.

Lemma land7_mod x : Z.land x 7 = x mod 8.
Proof. change 7 with (Z.ones 3). by rewrite Z.land_ones by lia. Qed.

#[export] Hint Resolve set_bit_byte clear_bit_byte : vm.

(** A byte is zero iff its eight bits are. *)
Lemma byte_zero x : is_byte x -> (forall i, 0 <= i < 8 -> Z.testbit x i = false) -> x = 0.
Proof.
  intros [H1 H2] Hb. apply Z.bits_inj'. intros n Hn. rewrite Z.bits_0.
  destruct (Z_lt_le_dec n 8); [by apply Hb|].
  apply (proj1 (Z.bounded_iff_bits_nonneg 8 x ltac:(lia) H1)); lia.
Qed.

Lemma byte_ext x y : is_byte x -> is_byte y -> (forall i, 0 <= i < 8 -> Z.testbit x i = Z.testbit y i) -> x = y.
Proof.
  intros [H1 H2] [H3 H4] Hb. apply Z.bits_inj'. intros n Hn.
  destruct (Z_lt_le_dec n 8); [by apply Hb|].
  rewrite (proj1 (Z.bounded_iff_bits_nonneg 8 x ltac:(lia) H1)) by lia.
  by rewrite (proj1 (Z.bounded_iff_bits_nonneg 8 y ltac:(lia) H3)) by lia.
Qed.

(** ** Priorities

    The rank of a line, 0 the highest: lines are ranked from [priority_add] on. *)
Definition rank (s : PicState) (i : Z) : Z := (i - priority_add s) mod 8.

Lemma rank_range s i : 0 <= rank s i < 8.
Proof. by apply Z.mod_pos_bound. Qed.

Lemma rank_line s p : 0 <= p < 8 -> rank s (Z.land (p + priority_add s) 7) = p.
Proof.
  intros Hp. unfold rank. rewrite land7_mod, Zminus_mod_idemp_l.
  replace (p + priority_add s - priority_add s) with p by lia. by apply Z.mod_small.
Qed.

Lemma line_rank s i : 0 <= i < 8 -> Z.land (rank s i + priority_add s) 7 = i.
Proof.
  intros Hi. unfold rank. rewrite land7_mod, Zplus_mod_idemp_l.
  replace (i - priority_add s + priority_add s) with i by lia. by apply Z.mod_small.
Qed.

Lemma priority_from_spec fuel p add mask :
  let r := priority_from fuel p add mask in
  p <= r <= p + Z.of_nat fuel /\
  (forall q, p <= q < r -> Z.testbit mask (Z.land (q + add) 7) = false) /\
  (r < p + Z.of_nat fuel -> Z.testbit mask (Z.land (r + add) 7) = true).
Proof.
  revert p. induction fuel as [|fuel IH]; intros p; cbn [priority_from].
  { simpl. split_and!; (lia || (intros; lia)). }
  rewrite bit_testbit by apply land7_range. destruct (Z.testbit mask (Z.land (p + add) 7)) eqn:E.
  - split_and!; [lia|lia|intros; lia|done].
  - destruct (IH (p + 1)) as (H1 & H2 & H3). split_and!; [lia|lia| |intros; apply H3; lia].
    intros q Hq. destruct (Z.eq_dec q p) as [->|]; [done|]. apply H2. lia.
Qed.

(** The result of [get_priority] on a byte: 8 for no line, or the rank of the line of the
    mask with the smallest rank. *)
Lemma get_priority_spec s mask :
  is_byte mask ->
  (get_priority s mask = 8 /\ (forall i, 0 <= i < 8 -> Z.testbit mask i = false)) \/
  (0 <= get_priority s mask < 8 /\ Z.testbit mask (Z.land (get_priority s mask + priority_add s) 7) = true /\
   forall i, 0 <= i < 8 -> Z.testbit mask i = true -> get_priority s mask <= rank s i).
Proof.
  intros Hm. unfold get_priority. destruct (Z.eqb_spec mask 0) as [->|Hne].
  { left. split; [done|]. intros. apply Z.bits_0. }
  right. destruct (priority_from_spec 8 0 (priority_add s) mask) as (H1 & H2 & H3).
  set (r := priority_from 8 0 (priority_add s) mask) in *.
  assert (forall i, 0 <= i < 8 -> Z.testbit mask i = true -> r <= rank s i) as Hmin.
  { intros i Hi Hb. destruct (Z_lt_le_dec (rank s i) r) as [Hlt|]; [|done].
    rewrite <- (line_rank s i Hi) in Hb. rewrite H2 in Hb; [done|]. pose proof (rank_range s i). lia. }
  assert (r < 8) as Hr.
  { destruct (Z_lt_le_dec r 8) as [|Hge]; [done|]. exfalso. apply Hne. apply byte_zero; [done|]. intros i Hi.
    destruct (Z.testbit mask i) eqn:E; [|done]. specialize (Hmin i Hi E). pose proof (rank_range s i). lia. }
  split; [lia|]. split; [apply H3; lia|done].
Qed.

(** ** The invariant *)
Definition flag (x : Z) : Prop := x = 0 \/ x = 1.

Record pic_wf (s : PicState) : Prop := {
  wf_last : is_byte (last_irr s); wf_irr : is_byte (irr s); wf_imr : is_byte (imr s); wf_isr : is_byte (isr s);
  wf_prio : 0 <= priority_add s < 8; wf_base : is_byte (irq_base s); wf_base8 : irq_base s mod 8 = 0;
  wf_init : 0 <= init_state s <= 3; wf_elcr : Z.land (elcr s) (elcr_mask s) = elcr s; wf_mask : is_byte (elcr_mask s)
}.

Definition pics_wf (st : PicState2) : Prop := pic_wf (pics0 st) /\ pic_wf (pics1 st).

Lemma set_irrs_wf s l r : pic_wf s -> is_byte l -> is_byte r -> pic_wf (set_irrs s l r).
Proof. intros [] ? ?. by split. Qed.
Lemma set_isr_prio_wf s i p : pic_wf s -> is_byte i -> 0 <= p < 8 -> pic_wf (set_isr_prio s i p).
Proof. intros [] ? ?. by split. Qed.
Lemma set_imr_wf s m : pic_wf s -> is_byte m -> pic_wf (set_imr s m).
Proof. intros [] ?. by split. Qed.
Lemma set_ocw3_wf s a b c : pic_wf s -> pic_wf (set_ocw3 s a b c).
Proof. intros []. by split. Qed.
Lemma set_init_wf s st base a b c d e :
  pic_wf s -> 0 <= st <= 3 -> is_byte base -> base mod 8 = 0 -> pic_wf (set_init s st base a b c d e).
Proof. intros [] ? ? ?. by split. Qed.
Lemma set_elcr_wf s v : pic_wf s -> pic_wf (set_elcr s (Z.land v (elcr_mask s))).
Proof. intros []. split; try done. simpl. by rewrite <- Z.land_assoc, Z.land_diag. Qed.

Lemma with_pic_wf st b p : pics_wf st -> pic_wf p -> pics_wf (with_pic st b p).
Proof. intros [H0 H1] Hp. destruct b; by split. Qed.
Lemma pic_of_wf st b : pics_wf st -> pic_wf (pic st b).
Proof. intros [H0 H1]. by destruct b. Qed.
Lemma call_parent_wf st c : pics_wf st -> pics_wf (call_parent st c).
Proof. done. Qed.
Lemma with_timer_wf st a b : pics_wf st -> pics_wf (with_timer st a b).
Proof. done. Qed.

#[export] Hint Resolve set_irrs_wf set_isr_prio_wf set_imr_wf set_ocw3_wf set_init_wf set_elcr_wf with_pic_wf
  pic_of_wf call_parent_wf with_timer_wf land7_range wf_last wf_irr wf_imr wf_isr wf_prio wf_base wf_base8 wf_init : vm.

Lemma pic_set_irq1_wf s i l : pic_wf s -> pic_wf (pic_set_irq1 s i l).
Proof. intros H. unfold pic_set_irq1. repeat if_case; auto with vm. Qed.
#[export] Hint Resolve pic_set_irq1_wf : vm.

Lemma pic_update_irq_wf st : pics_wf st -> pics_wf (pic_update_irq st).
Proof. intros H. unfold pic_update_irq. pose proof (proj1 H). repeat if_case; auto 6 with vm. Qed.
#[export] Hint Resolve pic_update_irq_wf : vm.

Lemma pic_intack_wf s i : pic_wf s -> pic_wf (pic_intack s i).
Proof. intros H. unfold pic_intack. repeat if_case; auto 6 with vm. Qed.
#[export] Hint Resolve pic_intack_wf : vm.

Lemma pics0_wf st : pics_wf st -> pic_wf (pics0 st).
Proof. by intros []. Qed.
Lemma pics1_wf st : pics_wf st -> pic_wf (pics1 st).
Proof. by intros []. Qed.
#[export] Hint Resolve pics0_wf pics1_wf : vm.

Lemma pic_read_irq_wf st : pics_wf st -> pics_wf (fst (pic_read_irq st)).
Proof.
  intros H. unfold pic_read_irq. destruct (0 <=? pic_get_irq (pics0 st) true); [|simpl; auto with vm].
  set (s1 := with_pic st false _). assert (pics_wf s1) as H1 by (unfold s1; auto with vm).
  set (s2 := if time_drift_fix s1 && _ then _ else s1).
  assert (pics_wf s2) as H2 by (unfold s2; repeat if_case; auto 6 with vm).
  destruct (_ =? 2); [|simpl; auto with vm]. destruct (0 <=? pic_get_irq (pics1 s2) false); simpl; auto 6 with vm.
Qed.

Lemma pic_ocw2_wf st b v : pics_wf st -> pics_wf (pic_ocw2 st b v).
Proof.
  intros H. pose proof (pic_of_wf st b H) as Hp. unfold pic_ocw2. repeat if_case; auto 8 with vm.
Qed.

Lemma land_f8 v : is_byte (Z.land v 0xf8) /\ Z.land v 0xf8 mod 8 = 0.
Proof.
  split.
  - rewrite Z.land_comm. apply land_byte. unfold is_byte. lia.
  - change 8 with (2 ^ 3). rewrite <- Z.land_ones by lia. rewrite <- Z.land_assoc.
    change (Z.land 0xf8 (Z.ones 3)) with 0. apply Z.land_0_r.
Qed.

Lemma pic_reset_wf s : pic_wf s -> pic_wf (pic_reset s).
Proof. intros []. split; simpl; try done; unfold is_byte; lia. Qed.
#[export] Hint Resolve pic_reset_wf pic_ocw2_wf : vm.

Lemma pic_ioport_write_wf st b a v st' :
  pics_wf st -> pic_ioport_write st b a v = Ret st' -> pics_wf st'.
Proof.
  intros H. pose proof (pic_of_wf st b H) as Hp. pose proof (land_f8 v) as [Hb8 Hm8].
  pose proof (pic_reset_wf _ Hp) as Hr. unfold pic_ioport_write. cbv zeta.
  repeat if_case; intros Est; try discriminate Est; injection Est as <-; auto 8 with vm;
    apply with_pic_wf; auto with vm; apply set_init_wf; auto with vm; unfold is_byte; lia.
Qed.

Lemma pic_poll_read_wf st b a : pics_wf st -> pics_wf (fst (pic_poll_read st b a)).
Proof.
  intros H. unfold pic_poll_read. destruct (0 <=? _); [|simpl; auto with vm]. cbv zeta.
  set (st1 := if negb (Z.shiftr a 7 =? 0) then _ else st).
  assert (pics_wf st1) as H1 by (unfold st1; if_case; auto 8 with vm).
  assert (pics_wf (with_pic st1 b (set_isr_prio (set_irrs (pic st1 b) (last_irr (pic st1 b))
    (clear_bit (irr (pic st1 b)) (pic_get_irq (pic st b) (negb b))))
    (clear_bit (isr (pic st1 b)) (pic_get_irq (pic st b) (negb b))) (priority_add (pic st1 b))))) as H2.
  { pose proof (pic_of_wf st1 b H1). auto 8 with vm. }
  cbn [fst]. if_case; simpl in *; auto with vm.
Qed.

Lemma pic_ioport_read_wf st b a : pics_wf st -> pics_wf (fst (pic_ioport_read st b a)).
Proof.
  intros H. unfold pic_ioport_read. destruct (negb _); [|by destruct (_ =? 0)].
  pose proof (pic_poll_read_wf st b a H) as H1. destruct (pic_poll_read st b a) as [st1 r]. simpl in *. auto with vm.
Qed.

Lemma pic_intack_read_wf st : pics_wf st -> pics_wf (fst (pic_intack_read st)).
Proof.
  intros H. unfold pic_intack_read. pose proof (pic_poll_read_wf st false 0 H) as H1.
  destruct (pic_poll_read st false 0) as [st1 r]. simpl in H1. destruct (r =? 2); [|simpl; auto with vm].
  pose proof (pic_poll_read_wf st1 true 0x80 H1) as H2. destruct (pic_poll_read st1 true 0x80) as [st2 r2].
  simpl in *. auto with vm.
Qed.

(** ** Every operation *)
Inductive pic_op :=
| OpSetIrq (irq : Z) (level : bool)
| OpReadIrq
| OpWrite (slave : bool) (addr val : Z)
| OpRead (slave : bool) (addr : Z)
| OpIntackRead
| OpElcrWrite (slave : bool) (val : Z)
| OpReset (slave : bool).

Definition pic_step (st : PicState2) (o : pic_op) : outcome hw_exn PicState2 :=
  match o with
  | OpSetIrq irq level => Ret (i8259_set_irq st irq level)
  | OpReadIrq => Ret (fst (pic_read_irq st))
  | OpWrite b a v => pic_ioport_write st b a v
  | OpRead b a => Ret (fst (pic_ioport_read st b a))
  | OpIntackRead => Ret (fst (pic_intack_read st))
  | OpElcrWrite b v => Ret (elcr_ioport_write st b v)
  | OpReset b => Ret (with_pic st b (pic_reset (pic st b)))
  end.

Inductive pic_reach (drift : bool) : PicState2 -> Prop :=
| reach_init : pic_reach drift (i8259_init drift)
| reach_step st o st' : pic_reach drift st -> pic_step st o = Ret st' -> pic_reach drift st'.

Lemma pic_step_wf st o st' : pics_wf st -> pic_step st o = Ret st' -> pics_wf st'.
Proof.
  intros H E. destruct o; simpl in E; try (injection E as <-).
  - unfold i8259_set_irq. auto 6 with vm.
  - by apply pic_read_irq_wf.
  - by eapply pic_ioport_write_wf.
  - by apply pic_ioport_read_wf.
  - by apply pic_intack_read_wf.
  - unfold elcr_ioport_write. auto with vm.
  - auto with vm.
Qed.

Lemma i8259_init_wf drift : pics_wf (i8259_init drift).
Proof. split; split; simpl; unfold is_byte; try lia; done. Qed.

Lemma pic_reach_wf drift st : pic_reach drift st -> pics_wf st.
Proof. induction 1; [apply i8259_init_wf|]. eauto using pic_step_wf. Qed.

(** ** Requests and services *)

(** Line [i] is requested and not masked; line [i] is in service, as far as the mode
    takes it into account. *)
Definition requested (s : PicState) (i : Z) : Prop := Z.testbit (irr s) i = true /\ Z.testbit (imr s) i = false.
Definition serving (s : PicState) (master : bool) (i : Z) : Prop :=
  Z.testbit (isr s) i = true /\ (special_mask s <> 0 -> Z.testbit (imr s) i = false) /\
  (special_fully_nested_mode s <> 0 -> master = true -> i <> 2).

(** The two masks of [pic_get_irq]. *)
Definition request_mask (s : PicState) : Z := Z.land (irr s) (Z.lnot (imr s)).
Definition service_mask (s : PicState) (master : bool) : Z :=
  let m := if negb (special_mask s =? 0) then Z.land (isr s) (Z.lnot (imr s)) else isr s in
  if negb (special_fully_nested_mode s =? 0) && master then Z.land m (Z.lnot (Z.shiftl 1 2)) else m.

Lemma request_mask_spec s i : 0 <= i < 8 -> Z.testbit (request_mask s) i = true <-> requested s i.
Proof.
  intros Hi. unfold request_mask, requested. rewrite Z.land_spec, Z.lnot_spec by lia.
  rewrite andb_true_iff, negb_true_iff. done.
Qed.

Lemma service_mask_spec s m i : 0 <= i < 8 -> Z.testbit (service_mask s m) i = true <-> serving s m i.
Proof.
  intros Hi. unfold service_mask, serving.
  destruct (Z.eqb_spec (special_mask s) 0), (Z.eqb_spec (special_fully_nested_mode s) 0), m; cbn [negb andb];
    rewrite ?Z.land_spec, ?Z.lnot_spec, ?testbit_one by lia;
    rewrite ?andb_true_iff, ?negb_true_iff, ?Z.eqb_neq; naive_solver.
Qed.

Lemma service_mask_byte s m : pic_wf s -> is_byte (service_mask s m).
Proof. intros H. unfold service_mask. repeat if_case; auto using land_byte, wf_isr. Qed.

Lemma pic_get_irq_masks s m :
  pic_get_irq s m =
  let p := get_priority s (request_mask s) in
  if p =? 8 then -1
  else if p <? get_priority s (service_mask s m) then Z.land (p + priority_add s) 7 else -1.
Proof. done. Qed.

(** What [pic_get_irq] answers. *)
Definition best_request (s : PicState) (m : bool) (r : Z) : Prop :=
  0 <= r < 8 /\ requested s r /\
  (forall i, 0 <= i < 8 -> requested s i -> rank s r <= rank s i) /\
  (forall j, 0 <= j < 8 -> serving s m j -> rank s r < rank s j).

Definition no_request (s : PicState) (m : bool) : Prop :=
  forall i, 0 <= i < 8 -> requested s i -> exists j, 0 <= j < 8 /\ serving s m j /\ rank s j <= rank s i.

Lemma pic_get_irq_spec s m :
  pic_wf s ->
  (pic_get_irq s m = -1 /\ no_request s m) \/ best_request s m (pic_get_irq s m).
Proof.
  intros Hwf. rewrite pic_get_irq_masks. cbv zeta.
  destruct (get_priority_spec s (request_mask s)) as [[-> Hno]|(Hp & Hb & Hmin)];
    [apply land_byte, wf_irr, Hwf| |].
  { left. split; [done|]. intros i Hi Hr. apply request_mask_spec in Hr; [|done]. by rewrite Hno in Hr. }
  set (p := get_priority s (request_mask s)) in *.
  rewrite (proj2 (Z.eqb_neq p 8)) by lia.
  destruct (get_priority_spec s (service_mask s m)) as [[-> Hno]|(Hp2 & Hb2 & Hmin2)];
    [by apply service_mask_byte| |].
  - rewrite (proj2 (Z.ltb_lt p 8)) by lia. right. pose proof (land7_range (p + priority_add s)) as Hl.
    split_and!; [lia|lia|by apply request_mask_spec| |].
    + intros i Hi Hr. rewrite rank_line by done. apply Hmin; [done|]. by apply request_mask_spec.
    + intros j Hj Hs. apply service_mask_spec in Hs; [|done]. by rewrite Hno in Hs.
  - set (c := get_priority s (service_mask s m)) in *.
    destruct (Z.ltb_spec p c) as [Hlt|Hge].
    + right. pose proof (land7_range (p + priority_add s)) as Hl.
      split_and!; [lia|lia|by apply request_mask_spec| |].
      * intros i Hi Hr. rewrite rank_line by done. apply Hmin; [done|]. by apply request_mask_spec.
      * intros j Hj Hs. rewrite rank_line by done. apply service_mask_spec in Hs; [|done].
        specialize (Hmin2 j Hj Hs). lia.
    + left. split; [done|]. intros i Hi Hr. exists (Z.land (c + priority_add s) 7).
      pose proof (land7_range (c + priority_add s)) as Hl. split; [done|]. split; [by apply service_mask_spec|].
      rewrite rank_line by done. apply request_mask_spec in Hr; [|done]. specialize (Hmin i Hi Hr). lia.
Qed.

(** ** The vector *)
Lemma pic_get_irq_range s m : pic_wf s -> -1 <= pic_get_irq s m < 8.
Proof. intros H. destruct (pic_get_irq_spec s m H) as [[-> _]|[Hr _]]; lia. Qed.

Lemma vector_byte s i : pic_wf s -> 0 <= i < 8 -> is_byte (irq_base s + i).
Proof.
  intros Hw Hi. pose proof (wf_base s Hw) as Hb. pose proof (wf_base8 s Hw) as H8. unfold is_byte in *.
  pose proof (Z.div_mod (irq_base s) 8). lia.
Qed.

Lemma pic_intack_base s i : irq_base (pic_intack s i) = irq_base s.
Proof. unfold pic_intack. by repeat if_case. Qed.

Lemma pic_set_irq1_base s i l : irq_base (pic_set_irq1 s i l) = irq_base s.
Proof. unfold pic_set_irq1. by repeat if_case. Qed.

Lemma pic_read_irq_vector st : pics_wf st -> is_byte (snd (pic_read_irq st)).
Proof.
  intros H. unfold pic_read_irq. pose proof (pic_get_irq_range (pics0 st) true (pics0_wf _ H)) as Hr.
  destruct (0 <=? pic_get_irq (pics0 st) true) eqn:E0; bool_hyps;
    [|simpl; apply vector_byte; [auto with vm|lia]].
  set (s1 := with_pic st false _). assert (pics_wf s1) as H1 by (unfold s1; auto with vm).
  set (s2 := if time_drift_fix s1 && _ then _ else s1).
  assert (pics_wf s2) as H2 by (unfold s2; repeat if_case; auto 6 with vm).
  destruct (_ =? 2); [|simpl; apply vector_byte; [auto with vm|lia]].
  pose proof (pic_get_irq_range (pics1 s2) false (pics1_wf _ H2)) as Hr2.
  destruct (0 <=? pic_get_irq (pics1 s2) false) eqn:E2; bool_hyps; simpl.
  - rewrite pic_intack_base. apply vector_byte; [auto with vm|lia].
  - apply vector_byte; [auto with vm|lia].
Qed.

(** ** Acknowledging *)
Lemma pic_intack_isr s r :
  auto_eoi s = 0 -> isr (pic_intack s r) = set_bit (isr s) r /\ priority_add (pic_intack s r) = priority_add s /\
  imr (pic_intack s r) = imr s /\ special_mask (pic_intack s r) = special_mask s /\
  special_fully_nested_mode (pic_intack s r) = special_fully_nested_mode s.
Proof. intros E. unfold pic_intack. rewrite E. cbn [Z.eqb negb]. by if_case. Qed.

(** The lines of [s'] may have changed arbitrarily since [s]; nothing else has. *)
Definition same_but_lines (s s' : PicState) : Prop :=
  isr s' = isr s /\ imr s' = imr s /\ priority_add s' = priority_add s /\ special_mask s' = special_mask s /\
  special_fully_nested_mode s' = special_fully_nested_mode s.

(** ** Lines *)
Definition feed_line (irq : Z) (levels : list bool) (s : PicState) : PicState :=
  fold_left (fun s l => pic_set_irq1 s irq l) levels s.

(** A rising edge in the levels after [last]. *)
Fixpoint rises (last : bool) (levels : list bool) : bool :=
  match levels with
  | [] => false
  | l :: levels => (negb last && l) || rises l levels
  end.

Lemma pic_set_irq1_elcr s i l : elcr (pic_set_irq1 s i l) = elcr s.
Proof. unfold pic_set_irq1. by repeat if_case. Qed.

Lemma pic_set_irq1_bits s i l :
  0 <= i < 8 ->
  Z.testbit (last_irr (pic_set_irq1 s i l)) i = l /\
  Z.testbit (irr (pic_set_irq1 s i l)) i =
    if Z.testbit (elcr s) i then l else Z.testbit (irr s) i || (negb (Z.testbit (last_irr s) i) && l).
Proof.
  intros Hi. unfold pic_set_irq1. rewrite !bit_testbit by lia.
  destruct (Z.testbit (elcr s) i), l, (Z.testbit (last_irr s) i); cbn [last_irr irr set_irrs negb andb];
    rewrite ?testbit_set_bit, ?testbit_clear_bit, ?Z.eqb_refl by lia;
    rewrite ?orb_true_r, ?orb_false_r, ?andb_false_r; done.
Qed.

(** ** Properties *)

(** C16. In every state that any sequence of operations reaches (raising and lowering
    lines, acknowledging, port reads and writes in any order, resets) the registers of both
    chips are bytes, the priority base is below 8, the vector base is a multiple of 8, the
    initialisation state is one of four and the edge/level register is within its mask; and
    the vector handed to the CPU is a byte. *)
Theorem pic_invariant drift st :
  pic_reach drift st -> pics_wf st /\ is_byte (snd (pic_read_irq st)).
Proof. intros H. apply pic_reach_wf in H. auto using pic_read_irq_vector. Qed.

Lemma pic_invariant_witness :
  pics_wf (i8259_set_irq (i8259_init true) 9 true) /\
  is_byte (snd (pic_read_irq (i8259_set_irq (i8259_init true) 9 true))).
Proof.
  apply (pic_invariant true). apply (reach_step true (i8259_init true) (OpSetIrq 9 true)).
  - apply reach_init.
  - reflexivity.
Defined.

(** C17. Priority resolution: [pic_get_irq] answers with the requested, unmasked line of
    the highest rank if that rank is higher than that of every line in service (as the
    special mask and special fully nested modes count them), and with -1 exactly when every
    request is outranked by a line in service. *)
Theorem pic_get_irq_priority s master :
  pic_wf s ->
  (pic_get_irq s master = -1 /\ no_request s master) \/ best_request s master (pic_get_irq s master).
Proof. apply pic_get_irq_spec. Qed.

(** Lines 3 and 5 requested, 5 in service, rotated so that line 4 has the highest rank. *)
Definition pic_sample : PicState := set_isr_prio (set_irrs (pic_zero 0) 40 40) 32 4.

Lemma pic_sample_wf : pic_wf pic_sample.
Proof. split; simpl; unfold is_byte; try lia; done. Qed.

Lemma pic_get_irq_priority_witness : no_request pic_sample true.
Proof.
  destruct (pic_get_irq_priority pic_sample true pic_sample_wf) as [[_ H]|[H _]]; [exact H|].
  change (pic_get_irq pic_sample true) with (-1) in H. lia.
Defined.

(** Nesting: once an interrupt is acknowledged (without automatic EOI, without
    special mask, and other than the cascade line in special fully nested mode), only
    requests of strictly higher rank come through, however the lines change; and the
    non-specific EOI ends exactly that interrupt, restoring the service register. *)
Theorem pic_nesting s master s' :
  pic_wf s -> best_request s master (pic_get_irq s master) -> auto_eoi s = 0 -> special_mask s = 0 ->
  special_fully_nested_mode s = 0 -> pic_wf s' -> same_but_lines (pic_intack s (pic_get_irq s master)) s' ->
  let r := pic_get_irq s master in
  (pic_get_irq s' master = -1 \/ rank s (pic_get_irq s' master) < rank s r) /\
  Z.land (get_priority s' (isr s') + priority_add s') 7 = r /\ clear_bit (isr s') r = isr s.
Proof.
  intros Hw (Hr & Hreq & _ & Hsv) Hae Hsm Hfn Hw' (Ei & Em & Ep & Es & Ef) r.
  destruct (pic_intack_isr s r Hae) as (I1 & I2 & I3 & I4 & I5). fold r in Hr, Hreq, Hsv, Ei, Em, Ep, Es, Ef.
  rewrite I1 in Ei. rewrite I2 in Ep. rewrite I4, Hsm in Es. rewrite I5, Hfn in Ef. clear I1 I2 I3 I4 I5 Em.
  assert (forall i, rank s' i = rank s i) as Hrank by (intros; unfold rank; by rewrite Ep).
  assert (forall j, 0 <= j < 8 -> Z.testbit (isr s) j = true -> rank s r < rank s j) as Hlow.
  { intros j Hj Hb. apply Hsv; [done|]. split; [done|]. rewrite Hsm, Hfn. done. }
  assert (Z.testbit (isr s') r = true) as Hset.
  { rewrite Ei, testbit_set_bit, Z.eqb_refl by done. apply orb_true_r. }
  split; [|split].
  - destruct (pic_get_irq_spec s' master Hw') as [[-> _]|(_ & _ & _ & Hs')]; [by left|right].
    rewrite <- !Hrank. apply Hs'; [done|]. split; [done|]. rewrite Es, Ef. done.
  - destruct (get_priority_spec s' (isr s')) as [[_ Hno]|(Hp & Hb & Hmin)]; [apply wf_isr, Hw'| |].
    { rewrite Hno in Hset by done. discriminate Hset. }
    set (p := get_priority s' (isr s')) in *. pose proof (land7_range (p + priority_add s')) as Hl.
    specialize (Hmin r Hr Hset). rewrite <- (rank_line s' p Hp), !Hrank in Hmin.
    rewrite Ei, testbit_set_bit in Hb by done. apply orb_true_iff in Hb as [Hb|Hb]; [|by apply Z.eqb_eq].
    specialize (Hlow _ Hl Hb). lia.
  - rewrite Ei. apply byte_ext; [auto with vm|apply wf_isr, Hw|]. intros i Hi.
    rewrite testbit_clear_bit, testbit_set_bit by done. destruct (Z.eqb_spec i r) as [->|Hne].
    + rewrite andb_false_r. destruct (Z.testbit (isr s) r) eqn:E; [|done]. specialize (Hlow r Hr E). lia.
    + by rewrite orb_false_r, andb_true_r.
Qed.

(** Line 1 acknowledged while lines 0 and 3 are requested, then line 0 comes through. *)
Lemma pic_nesting_witness :
  let s := set_irrs (pic_zero 0) 2 2 in
  let s' := set_irrs (pic_intack s 1) 9 9 in
  (pic_get_irq s' true = -1 \/ rank s (pic_get_irq s' true) < rank s 1) /\ clear_bit (isr s') 1 = isr s.
Proof.
  cbv zeta. destruct (pic_nesting (set_irrs (pic_zero 0) 2 2) true (set_irrs (pic_intack (set_irrs (pic_zero 0) 2 2) 1) 9 9))
    as (H1 & _ & H2).
  - split; simpl; unfold is_byte; try lia; done.
  - destruct (pic_get_irq_spec (set_irrs (pic_zero 0) 2 2) true) as [[H _]|H]; [|discriminate H|exact H].
    split; simpl; unfold is_byte; try lia; done.
  - reflexivity.
  - reflexivity.
  - reflexivity.
  - split; simpl; unfold is_byte; try lia; done.
  - repeat split.
  - split; [exact H1|exact H2].
Defined.

(** Interrupt lines: whatever levels a line goes through, an edge-triggered request
    is pending afterwards iff it was before or the line has risen since (a line held high
    is latched once), and a level-triggered request follows the line. *)
Theorem pic_line_semantics s irq levels l :
  0 <= irq < 8 ->
  Z.testbit (irr (feed_line irq (levels ++ [l]) s)) irq =
    (if Z.testbit (elcr s) irq then l
     else Z.testbit (irr s) irq || rises (Z.testbit (last_irr s) irq) (levels ++ [l])) /\
  Z.testbit (last_irr (feed_line irq (levels ++ [l]) s)) irq = l.
Proof.
  intros Hi. revert s. induction levels as [|x levels IH]; intros s.
  - simpl. destruct (pic_set_irq1_bits s irq l Hi) as [-> ->].
    by destruct (Z.testbit (elcr s) irq), (Z.testbit (irr s) irq), (Z.testbit (last_irr s) irq), l.
  - cbn [app feed_line fold_left]. specialize (IH (pic_set_irq1 s irq x)). unfold feed_line in IH.
    destruct IH as [-> ->]. rewrite pic_set_irq1_elcr.
    destruct (pic_set_irq1_bits s irq x Hi) as [-> ->]. cbn [rises]. split; [|done].
    destruct (Z.testbit (elcr s) irq); [done|]. by rewrite orb_assoc.
Qed.

Lemma pic_line_semantics_witness :
  Z.testbit (irr (feed_line 3 ([true; false] ++ [true]) (pic_zero 0))) 3 = true.
Proof.
  destruct (pic_line_semantics (pic_zero 0) 3 [true; false] true) as [-> _]; [lia|]. reflexivity.
Defined.

(** Initialisation: the four command words ICW1 (0x11), ICW2, ICW3 and ICW4 bring a
    chip in any state to normal operation, with the vector base of ICW2, the modes of ICW4,
    no line requested, masked or in service, the edge/level register and the other chip as
    before, and the CPU's line lowered. *)
Theorem pic_init_sequence st slave icw2 icw3 icw4 :
  (let! st := pic_ioport_write st slave 0 0x11 in
   let! st := pic_ioport_write st slave 1 icw2 in
   let! st := pic_ioport_write st slave 1 icw3 in
   pic_ioport_write st slave 1 icw4) =
  Ret (call_parent (with_pic st slave
        {| last_irr := 0; irr := 0; imr := 0; isr := 0; priority_add := 0; irq_base := Z.land icw2 0xf8;
           read_reg_select := 0; poll := 0; special_mask := 0; init_state := 0;
           auto_eoi := Z.land (Z.shiftr icw4 1) 1; rotate_on_auto_eoi := 0;
           special_fully_nested_mode := Z.land (Z.shiftr icw4 4) 1; init4 := 1; single_mode := 0;
           elcr := elcr (pic st slave); elcr_mask := elcr_mask (pic st slave) |}) IrqLower).
Proof. destruct slave; reflexivity. Qed.
