(* ===== verification/PicLine.v ===== *)
(** * An interrupt line of the PC: hw/pc.c's handler in front of hw/i8259.c

    [isa_irq_handler] of hw/pc.c, and what the interrupt controllers do with one of the two
    lines of the master that come before the cascade (0, the timer's, and 1, the
    keyboard's): a rising edge reaches the CPU, the acknowledge cycle yields the line's
    vector, the EOI ends the service, and the other lines do not interfere.  The I/O APIC,
    which sees the same levels, is not modelled. *)

From S2P Require Import Prelude I8259 I8259Proofs.
From stdpp Require Import list.

Open Scope Z_scope.

(** hw/pc.c: a level on line [n] of the ISA bus goes to the interrupt controllers. *)
Definition isa_irq_handler (i8259 : PicState2) (n level : Z) : PicState2 :=
  if n <? 16 then i8259_set_irq i8259 n (negb (level =? 0)) else i8259.

(** A sequence of levels on lines of the bus. *)
Definition bus_levels (i8259 : PicState2) (levels : list (Z * Z)) : PicState2 :=
  foldl (fun p o => isa_irq_handler p (fst o) (snd o)) i8259 levels.

(** The command that ends the service of the highest line in service. *)
Definition EOI : Z := 0x20.

Lemma update_td st : time_drift_fix (pic_update_irq st) = time_drift_fix st.
Proof. unfold pic_update_irq. by repeat if_case. Qed.

Lemma isa_irq_wf st n v : pics_wf st -> pics_wf (isa_irq_handler st n v).
Proof. intros H. unfold isa_irq_handler, i8259_set_irq. if_case; auto 6 with vm. Qed.

Lemma isa_irq_td st n v : time_drift_fix (isa_irq_handler st n v) = time_drift_fix st.
Proof. unfold isa_irq_handler, i8259_set_irq. if_case; [by rewrite update_td|done]. Qed.

(** The calls on the CPU's line are appended to the log. *)
Lemma update_log st : parent_irq st `prefix_of` parent_irq (pic_update_irq st).
Proof. unfold pic_update_irq. repeat if_case; cbn [call_parent with_pic parent_irq]; first [done | by eexists]. Qed.

Lemma isa_irq_log st n v : parent_irq st `prefix_of` parent_irq (isa_irq_handler st n v).
Proof. unfold isa_irq_handler, i8259_set_irq. if_case; [|done]. etrans; [|apply update_log]. done. Qed.

Lemma bus_levels_log st ls : parent_irq st `prefix_of` parent_irq (bus_levels st ls).
Proof.
  unfold bus_levels. revert st. induction ls as [|l ls IH]; intros st; [done|]. cbn [foldl].
  etrans; [apply isa_irq_log|apply IH].
Qed.

Lemma bus_levels_app st a b : bus_levels st (a ++ b) = bus_levels (bus_levels st a) b.
Proof. apply foldl_app. Qed.

Section Line.
(** The line of the master under consideration. *)
Variable line : Z.
Hypothesis Hline : 0 <= line < 2.

(** [s'] differs from [s] in lines after [line] at most. *)
Definition frame (s s' : PicState) : Prop :=
  exists l r, s' = set_irrs s l r /\
    forall j, 0 <= j <= line -> Z.testbit l j = Z.testbit (last_irr s) j /\ Z.testbit r j = Z.testbit (irr s) j.

Lemma frame_refl s : frame s s.
Proof. exists (last_irr s), (irr s). by destruct s. Qed.

Lemma frame_trans a b c : frame a b -> frame b c -> frame a c.
Proof.
  intros (l & r & -> & H) (l' & r' & -> & H'). exists l', r'. split; [done|]. intros j Hj.
  destruct (H j Hj), (H' j Hj). cbn in *. split; congruence.
Qed.

Lemma frame_set_irq1 s i v : line < i < 8 -> frame s (pic_set_irq1 s i v).
Proof.
  intros Hi. unfold pic_set_irq1.
  repeat if_case; eexists _, _; (split; [done|]); intros j Hj;
    rewrite ?testbit_set_bit, ?testbit_clear_bit, ?(proj2 (Z.eqb_neq j i)), ?orb_false_r, ?andb_true_r by lia; done.
Qed.

Lemma frame_update st : frame (pics0 st) (pics0 (pic_update_irq st)).
Proof.
  unfold pic_update_irq. assert (frame (pics0 st) (pic_set_irq1 (pic_set_irq1 (pics0 st) 2 true) 2 false)) as H.
  { apply (frame_trans _ (pic_set_irq1 (pics0 st) 2 true)); apply frame_set_irq1; lia. }
  repeat if_case; cbn; first [exact H | apply frame_refl].
Qed.

(** The line's bits in the request register and in the levels. *)
Definition request (st : PicState2) : bool := Z.testbit (irr (pics0 st)) line.
Definition high (st : PicState2) : bool := Z.testbit (last_irr (pics0 st)) line.

Lemma frame_bits st s' : frame (pics0 st) s' -> Z.testbit (irr s') line = request st /\ Z.testbit (last_irr s') line = high st.
Proof. intros (l & r & -> & H). destruct (H line ltac:(lia)). done. Qed.

(** The master with the lines [serving] in service, the line unmasked and edge triggered,
    no request before it, and the vectors from [base] on. *)
Record settled (base serving : Z) (st : PicState2) : Prop := {
  st_wf : pics_wf st; st_td : time_drift_fix st = false;
  st_elcr : Z.testbit (elcr (pics0 st)) line = false; st_imr : Z.testbit (imr (pics0 st)) line = false;
  st_isr : isr (pics0 st) = serving; st_prio : priority_add (pics0 st) = 0;
  st_eoi : auto_eoi (pics0 st) = 0; st_base : irq_base (pics0 st) = base;
  st_first : forall j, 0 <= j < line -> Z.testbit (irr (pics0 st)) j = false
}.

Lemma settled_irrs base sv st st' l r :
  settled base sv st -> pics_wf st' -> time_drift_fix st' = false -> pics0 st' = set_irrs (pics0 st) l r ->
  (forall j, 0 <= j < line -> Z.testbit r j = Z.testbit (irr (pics0 st)) j) -> settled base sv st'.
Proof.
  intros [] Hw Htd E Hj. split; first [assumption | rewrite E; try assumption].
  intros j Hj'. cbn [set_irrs irr]. rewrite Hj; auto.
Qed.

Lemma settled_frame base sv st st' :
  settled base sv st -> pics_wf st' -> time_drift_fix st' = false -> frame (pics0 st) (pics0 st') ->
  settled base sv st' /\ request st' = request st /\ high st' = high st.
Proof.
  intros Hs Hw Htd Hf. pose proof (frame_bits st _ Hf) as Hb. pose proof Hf as (l & r & E & H).
  split; [|done]. apply (settled_irrs base sv st st' l r); auto. intros j Hj. apply H. lia.
Qed.

Lemma settled_update base sv st : settled base sv st ->
  settled base sv (pic_update_irq st) /\ request (pic_update_irq st) = request st /\ high (pic_update_irq st) = high st.
Proof.
  intros Hs. apply settled_frame; [done|apply pic_update_irq_wf, Hs|rewrite update_td; apply Hs|apply frame_update].
Qed.

(** A level on a later line. *)
Lemma settled_other base sv st n v : line < n -> settled base sv st ->
  settled base sv (isa_irq_handler st n v) /\ request (isa_irq_handler st n v) = request st /\
  high (isa_irq_handler st n v) = high st.
Proof.
  intros Hn Hs. apply settled_frame; [done|apply isa_irq_wf, Hs|by rewrite isa_irq_td; apply Hs|].
  unfold isa_irq_handler. destruct (Z.ltb_spec n 16); [|apply frame_refl]. unfold i8259_set_irq.
  eapply frame_trans; [|apply frame_update].
  destruct (Z.eqb_spec (Z.shiftr n 3) 0) as [E|E]; cbn [negb with_pic pics0 pic]; [|apply frame_refl].
  apply frame_set_irq1. rewrite Z.shiftr_div_pow2 in E by lia. change (2 ^ 3) with 8 in E. rewrite land7_mod.
  pose proof (Z.div_mod n 8 ltac:(lia)). pose proof (Z.mod_pos_bound n 8 ltac:(lia)). lia.
Qed.

Lemma settled_others base sv others : Forall (fun o => line < fst o) others -> forall st, settled base sv st ->
  settled base sv (bus_levels st others) /\ request (bus_levels st others) = request st /\
  high (bus_levels st others) = high st.
Proof.
  intros Ho. unfold bus_levels. induction Ho as [|o others Hn Ho IH]; intros st Hs; [done|]. cbn [foldl].
  destruct (settled_other base sv st (fst o) (snd o) Hn Hs) as (Hs1 & Hr1 & Hh1).
  destruct (IH _ Hs1) as (Hs2 & Hr2 & Hh2). split_and!; [done|congruence..].
Qed.

(** A level on the line itself: a rising edge is a request. *)
Lemma isa_irq_line st v :
  isa_irq_handler st line v = pic_update_irq (with_pic st false (pic_set_irq1 (pics0 st) line (negb (v =? 0)))).
Proof.
  assert (line = 0 \/ line = 1) as [-> | ->] by lia; reflexivity.
Qed.

Lemma set_irq1_before s v : exists l r, pic_set_irq1 s line v = set_irrs s l r /\
  forall j, 0 <= j < line -> Z.testbit r j = Z.testbit (irr s) j.
Proof.
  unfold pic_set_irq1. repeat if_case; eexists _, _; (split; [done|]); intros j Hj;
    rewrite ?testbit_set_bit, ?testbit_clear_bit, ?(proj2 (Z.eqb_neq j line)), ?orb_false_r, ?andb_true_r by lia; done.
Qed.

Lemma settled_own base sv st v : settled base sv st ->
  let st' := with_pic st false (pic_set_irq1 (pics0 st) line v) in
  settled base sv st' /\ request st' = request st || (negb (high st) && v) /\ high st' = v.
Proof.
  intros Hs st'. destruct (set_irq1_before (pics0 st) v) as (l & r & E & Hb). split.
  - pose proof (st_wf base sv st Hs) as Hw.
    apply (settled_irrs base sv st st' l r Hs); [apply with_pic_wf; [done|apply pic_set_irq1_wf, Hw]|apply Hs|exact E|exact Hb].
  - destruct (pic_set_irq1_bits (pics0 st) line v ltac:(lia)) as [Hh Hr]. rewrite (st_elcr base sv st Hs) in Hr. done.
Qed.

Lemma settled_level base sv st v : settled base sv st ->
  settled base sv (isa_irq_handler st line v) /\
  request (isa_irq_handler st line v) = request st || (negb (high st) && negb (v =? 0)) /\
  high (isa_irq_handler st line v) = negb (v =? 0).
Proof.
  intros Hs. rewrite isa_irq_line. destruct (settled_own base sv st (negb (v =? 0)) Hs) as (Hs1 & Hr1 & Hh1).
  destruct (settled_update base sv _ Hs1) as (Hs2 & -> & ->). done.
Qed.

(** With nothing in service the line's request is the one the master answers with. *)
Lemma line_first base st : settled base 0 st -> request st = true -> pic_get_irq (pics0 st) true = line.
Proof.
  intros [[Hw _] _ _ Hm Hs Hp _ _ Hb] Hi. assert (requested (pics0 st) line) as Hr by done.
  destruct (pic_get_irq_spec (pics0 st) true Hw) as [[_ Hno]|(H8 & Hreq & Hbest & _)].
  - destruct (Hno line ltac:(lia) Hr) as (j & Hj & [Hb' _] & _). by rewrite Hs, Z.bits_0 in Hb'.
  - specialize (Hbest line ltac:(lia) Hr). unfold rank in Hbest. rewrite Hp, !Z.sub_0_r in Hbest.
    rewrite !Z.mod_small in Hbest by lia. set (i := pic_get_irq (pics0 st) true) in *.
    destruct (Z.eq_dec i line) as [|Hne]; [done|]. destruct Hreq as [Hreq _]. rewrite Hb in Hreq by lia. done.
Qed.

Lemma update_raises base st : settled base 0 st -> request st = true ->
  parent_irq (pic_update_irq st) = parent_irq st ++ [IrqRaise].
Proof.
  intros Hs Hi. destruct (settled_update base 0 st Hs) as (Hs' & Hr' & _). rewrite Hi in Hr'.
  pose proof (line_first base _ Hs' Hr') as Hw'. unfold pic_update_irq in Hw' |- *. revert Hw'.
  destruct (0 <=? pic_get_irq (pics1 st) false); cbn [with_pic pics0];
    match goal with |- context [if 0 <=? ?x then _ else _] => destruct (Z.leb_spec 0 x) end;
    cbn [call_parent with_pic pics0]; intros Hg; lia || done.
Qed.

(** A rising edge of the line reaches the CPU. *)
Lemma rise base st : settled base 0 st -> high st = false ->
  parent_irq (isa_irq_handler st line 1) = parent_irq st ++ [IrqRaise].
Proof.
  intros Hs Hh. rewrite isa_irq_line. change (negb (1 =? 0)) with true.
  destruct (settled_own base 0 st true Hs) as (Hs1 & Hr1 & _). rewrite Hh, orb_true_r in Hr1.
  by rewrite (update_raises base).
Qed.

(** The CPU gets the line's vector; the line is in service after that. *)
Lemma serve base st : settled base 0 st -> request st = true ->
  exists st', pic_read_irq st = (st', base + line) /\ settled base (Z.shiftl 1 line) st' /\ request st' = false /\
    high st' = high st /\ parent_irq st `prefix_of` parent_irq st'.
Proof.
  intros Hs Hi. pose proof Hs as [Hw Htd He Hm Hsv Hp Ha Hb Hf]. unfold pic_read_irq.
  rewrite (line_first base) by done. rewrite (proj2 (Z.leb_le 0 line)), (proj2 (Z.eqb_neq line 2)) by lia.
  cbn [time_drift_fix with_pic pics0]. rewrite Htd. cbv beta iota zeta. cbn [andb].
  set (m1 := pic_intack (pics0 st) line).
  assert (m1 = set_irrs (set_isr_prio (pics0 st) (Z.shiftl 1 line) 0) (last_irr (pics0 st)) (clear_bit (irr (pics0 st)) line)) as Em.
  { unfold m1, pic_intack. rewrite Ha. change (negb (0 =? 0)) with false. cbv iota. rewrite Hsv, Hp.
    cbn [elcr set_isr_prio last_irr irr]. rewrite bit_testbit, He by lia.
    by assert (line = 0 \/ line = 1) as [-> | ->] by lia. }
  eexists. split; [f_equal; cbn [with_pic pics0]; rewrite Em; cbn; lia|].
  assert (settled base (Z.shiftl 1 line) (with_pic st false m1)) as Hs1.
  { split; cbn [with_pic pics0 time_drift_fix]; [|done|rewrite Em..]; try done.
    - apply with_pic_wf; [done|apply pic_intack_wf, Hw].
    - intros j Hj. cbn [set_irrs irr]. rewrite testbit_clear_bit by lia. by rewrite Hf. }
  destruct (settled_update _ _ _ Hs1) as (Hs2 & -> & ->). split; [done|]. unfold request, high. cbn [with_pic pics0].
  rewrite Em. cbn [set_irrs irr last_irr]. rewrite testbit_clear_bit, Z.eqb_refl, andb_false_r by lia.
  split_and!; [done|done|]. etrans; [|apply update_log]. done.
Qed.

(** The EOI ends the service; a request made meanwhile reaches the CPU now. *)
Lemma end_service base st : settled base (Z.shiftl 1 line) st ->
  exists st', pic_ioport_write st false 0 EOI = Ret st' /\ settled base 0 st' /\ request st' = request st /\
    high st' = high st /\ parent_irq st `prefix_of` parent_irq st' /\
    (request st = true -> parent_irq st' = parent_irq st ++ [IrqRaise]).
Proof.
  intros Hs. pose proof Hs as [Hw Htd He Hm Hsv Hp Ha Hb Hf].
  change (pic_ioport_write st false 0 EOI) with (Ret (E:=hw_exn) (pic_ocw2 st false EOI)). eexists. split; [done|].
  unfold pic_ocw2. cbn [pic]. change (Z.shiftr EOI 5) with 1. cbn [Z.eqb Pos.eqb orb]. cbv zeta.
  assert (get_priority (pics0 st) (isr (pics0 st)) = line) as ->.
  { unfold get_priority. rewrite Hsv, Hp. by assert (line = 0 \/ line = 1) as [-> | ->] by lia. }
  rewrite (proj2 (Z.eqb_neq line 8)) by lia. cbn [negb]. rewrite Hp.
  assert (clear_bit (isr (pics0 st)) (Z.land (line + 0) 7) = 0) as ->.
  { rewrite Hsv. by assert (line = 0 \/ line = 1) as [-> | ->] by lia. }
  set (st1 := with_pic _ _ _). assert (settled base 0 st1) as Hs1.
  { split; cbn [st1 with_pic pics0 time_drift_fix set_isr_prio]; try done.
    apply with_pic_wf; [done|]. apply set_isr_prio_wf; [apply Hw|unfold is_byte; lia|lia]. }
  destruct (settled_update _ _ _ Hs1) as (Hs2 & -> & ->). split_and!; [done..| |].
  - etrans; [|apply update_log]. done.
  - intros Hr. by rewrite (update_raises base).
Qed.
End Line.
