(* ===== verification/HostUtils.v ===== *)
(** * 64 by 64 to 128 bit multiplication: host-utils.c

    The portable helpers, for hosts without a 128-bit multiply.  A pair is (low, high).
    Negating the most negative [int64_t] overflows: a [Fault]. *)

From S2P Require Import Prelude.

Open Scope Z_scope.

Definition add128 (p : Z * Z) (a b : Z) : Z * Z :=
  let plow := u64 (fst p + a) in
  let phigh := if plow <? a then u64 (snd p + 1) else snd p in
  (plow, u64 (phigh + b)).

Definition neg128 (p : Z * Z) : Z * Z :=
  add128 (u64 (Z.lnot (fst p)), u64 (Z.lnot (snd p))) 1 0.

Definition mul64 (a b : Z) : Z * Z :=
  let a0 := u32 a in
  let a1 := u32 (Z.shiftr a 32) in
  let b0 := u32 b in
  let b1 := u32 (Z.shiftr b 32) in
  let v := u64 (a0 * b0) in
  let p := (v, 0) in
  let v := u64 (a0 * b1) in
  let p := add128 p (u64 (Z.shiftl v 32)) (Z.shiftr v 32) in
  let v := u64 (a1 * b0) in
  let p := add128 p (u64 (Z.shiftl v 32)) (Z.shiftr v 32) in
  let v := u64 (a1 * b1) in
  (fst p, u64 (snd p + v)).

Definition mulu64 (a b : Z) : Z * Z := mul64 a b.

(** [-a] of an [int64_t]. *)
Definition neg64 (a : Z) : outcome Empty_set Z := if a =? - 2 ^ 63 then Fault else Ret (- a).

Definition muls64 (a b : Z) : outcome Empty_set (Z * Z) :=
  let sa := a <? 0 in
  let! a := if sa then neg64 a else Ret a in
  let sb := b <? 0 in
  let! b := if sb then neg64 b else Ret b in
  let p := mul64 (u64 a) (u64 b) in
  Ret (if xorb sa sb then neg128 p else p).

(** ** The value of a pair *)
Definition val128 (p : Z * Z) : Z := fst p + 2 ^ 64 * snd p.
Definition pair_ok (p : Z * Z) : Prop := is_u 64 (fst p) /\ is_u 64 (snd p).

Lemma add128_val p a b :
  pair_ok p -> is_u 64 a -> is_u 64 b -> val128 p + a + 2 ^ 64 * b < 2 ^ 128 ->
  val128 (add128 p a b) = val128 p + a + 2 ^ 64 * b /\ pair_ok (add128 p a b).
Proof.
  destruct p as [lo hi]. unfold pair_ok, val128, add128, is_u, wrap. cbn [fst snd].
  change (2 ^ 64) with 18446744073709551616. change (2 ^ 128) with 340282366920938463463374607431768211456.
  intros [Hlo Hhi] Ha Hb Hs.
  assert ((lo + a) mod 18446744073709551616 = if lo + a <? 18446744073709551616 then lo + a else lo + a - 18446744073709551616) as ->.
  { destruct (Z.ltb_spec (lo + a) 18446744073709551616); [apply Z.mod_small; lia|].
    symmetry. apply (Z.mod_unique_pos _ _ 1); lia. }
  destruct (Z.ltb_spec (lo + a) 18446744073709551616).
  - rewrite (proj2 (Z.ltb_ge (lo + a) a)) by lia. rewrite (Z.mod_small (hi + b)) by lia. lia.
  - rewrite (proj2 (Z.ltb_lt _ a)) by lia. rewrite (Z.mod_small (hi + 1)) by lia.
    rewrite (Z.mod_small (hi + 1 + b)) by lia. lia.
Qed.

(** The word [v] shifted by 32, over the two halves. *)
Lemma shift32_val v : is_u 64 v ->
  u64 (Z.shiftl v 32) + 2 ^ 64 * Z.shiftr v 32 = 2 ^ 32 * v /\ is_u 64 (u64 (Z.shiftl v 32)) /\ is_u 64 (Z.shiftr v 32).
Proof.
  intros [H1 H2]. rewrite Z.shiftl_mul_pow2, Z.shiftr_div_pow2 by lia. unfold wrap, is_u.
  change (2 ^ 64) with (2 ^ 32 * 2 ^ 32) at 1 2 3 4. rewrite Z.mul_mod_distr_r by lia.
  pose proof (Z.div_mod v (2 ^ 32) ltac:(lia)). pose proof (Z.mod_pos_bound v (2 ^ 32) ltac:(lia)).
  assert (0 <= v / 2 ^ 32 < 2 ^ 64) by (split; [apply Z.div_pos; lia|apply Z.div_lt_upper_bound; lia]). lia.
Qed.

Lemma mul64_val a b : is_u 64 a -> is_u 64 b -> val128 (mul64 a b) = a * b /\ pair_ok (mul64 a b).
Proof.
  intros Ha Hb. unfold mul64.
  set (a0 := u32 a). set (a1 := u32 (Z.shiftr a 32)). set (b0 := u32 b). set (b1 := u32 (Z.shiftr b 32)).
  assert (forall x, is_u 64 x -> x = u32 x + 2 ^ 32 * u32 (Z.shiftr x 32) /\ is_u 32 (u32 x) /\ is_u 32 (u32 (Z.shiftr x 32))) as Hsplit.
  { intros x [Hx1 Hx2]. rewrite Z.shiftr_div_pow2 by lia. unfold wrap, is_u.
    assert (0 <= x / 2 ^ 32 < 2 ^ 32) by (split; [apply Z.div_pos; lia|apply Z.div_lt_upper_bound; lia]).
    rewrite (Z.mod_small (x / 2 ^ 32)) by done. pose proof (Z.div_mod x (2 ^ 32) ltac:(lia)).
    pose proof (Z.mod_pos_bound x (2 ^ 32) ltac:(lia)). lia. }
  destruct (Hsplit a Ha) as (Ea & A0 & A1), (Hsplit b Hb) as (Eb & B0 & B1). fold a0 a1 in Ea, A0, A1. fold b0 b1 in Eb, B0, B1.
  clearbody a0 a1 b0 b1. clear Hsplit. unfold is_u in A0, A1, B0, B1.
  assert (forall x y, 0 <= x < 2 ^ 32 -> 0 <= y < 2 ^ 32 -> 0 <= x * y <= (2 ^ 32 - 1) * (2 ^ 32 - 1)) as Hm by (intros; nia).
  pose proof (Hm a0 b0 A0 B0) as M00. pose proof (Hm a0 b1 A0 B1) as M01.
  pose proof (Hm a1 b0 A1 B0) as M10. pose proof (Hm a1 b1 A1 B1) as M11. clear Hm.
  rewrite (wrap_small 64 (a0 * b0)), (wrap_small 64 (a0 * b1)), (wrap_small 64 (a1 * b0)), (wrap_small 64 (a1 * b1))
    by (unfold is_u; lia).
  destruct (shift32_val (a0 * b1)) as (S1 & U1 & V1); [unfold is_u; lia|].
  destruct (shift32_val (a1 * b0)) as (S2 & U2 & V2); [unfold is_u; lia|].
  destruct (add128_val (a0 * b0, 0) (u64 (Z.shiftl (a0 * b1) 32)) (Z.shiftr (a0 * b1) 32)) as [E1 P1];
    [split; unfold is_u; simpl; lia|done|done|unfold val128; simpl fst; simpl snd; lia|].
  set (p1 := add128 (a0 * b0, 0) _ _) in *. unfold val128 at 2 in E1. simpl fst in E1. simpl snd in E1.
  destruct (add128_val p1 (u64 (Z.shiftl (a1 * b0) 32)) (Z.shiftr (a1 * b0) 32)) as [E2 P2]; [done|done|done|lia|].
  set (p2 := add128 p1 _ _) in *. destruct P2 as [P2l P2h].
  assert (a * b = val128 p2 + 2 ^ 64 * (a1 * b1)) as Eab.
  { rewrite E2, E1, Ea, Eb. change (2 ^ 64) with (2 ^ 32 * 2 ^ 32) in *. lia. }
  assert (a * b < 2 ^ 128) as Hlt.
  { destruct Ha, Hb. change (2 ^ 128) with (2 ^ 64 * 2 ^ 64). apply Z.mul_lt_mono_nonneg; lia. }
  assert (is_u 64 (snd p2 + a1 * b1)) as Hh.
  { unfold val128, is_u in *. change (2 ^ 128) with (2 ^ 64 * 2 ^ 64) in Hlt. split; [lia|]. nia. }
  rewrite (wrap_small 64 (snd p2 + a1 * b1)) by done. split; [|by split].
  rewrite Eab. unfold val128. cbn [fst snd]. lia.
Qed.

(** ** Negation *)
Lemma neg128_val p : pair_ok p -> 0 < val128 p -> val128 (neg128 p) = 2 ^ 128 - val128 p.
Proof.
  destruct p as [lo hi]. intros [Hlo Hhi] Hpos. unfold neg128. cbn [fst snd].
  assert (forall x, is_u 64 x -> u64 (Z.lnot x) = 2 ^ 64 - 1 - x) as Hn.
  { intros x [Hx1 Hx2]. unfold wrap. symmetry. apply (Z.mod_unique_pos _ _ (-1)); unfold Z.lnot; lia. }
  cbn [fst snd] in Hlo, Hhi. rewrite !Hn by done. unfold is_u, val128 in *. cbn [fst snd] in *.
  destruct (add128_val (2 ^ 64 - 1 - lo, 2 ^ 64 - 1 - hi) 1 0) as [E _].
  - split; unfold is_u; simpl; lia.
  - split; lia.
  - split; lia.
  - unfold val128. cbn [fst snd]. change (2 ^ 128) with (2 ^ 64 * 2 ^ 64). lia.
  - unfold val128 in E. rewrite E. cbn [fst snd]. change (2 ^ 128) with (2 ^ 64 * 2 ^ 64). lia.
Qed.

Lemma neg128_zero p : pair_ok p -> val128 p = 0 -> val128 (neg128 p) = 0.
Proof.
  destruct p as [lo hi]. unfold pair_ok, is_u, val128. cbn [fst snd]. intros [Hlo Hhi] H.
  replace lo with 0 by lia. replace hi with 0 by lia. reflexivity.
Qed.

Lemma swrap_add w z : 0 < w -> swrap w (z + 2 ^ w) = swrap w z.
Proof.
  intros Hw. unfold swrap. replace (z + 2 ^ w + 2 ^ (w - 1)) with (z + 2 ^ (w - 1) + 1 * 2 ^ w) by lia.
  by rewrite Z_mod_plus_full.
Qed.

(** ** Properties *)

(** [mulu64] gives the 128-bit product of any two 64-bit numbers. *)
Theorem mulu64_correct a b :
  is_u 64 a -> is_u 64 b ->
  let '(plow, phigh) := mulu64 a b in
  is_u 64 plow /\ is_u 64 phigh /\ plow + 2 ^ 64 * phigh = a * b.
Proof.
  intros Ha Hb. unfold mulu64. destruct (mul64_val a b Ha Hb) as [E [P1 P2]].
  destruct (mul64 a b) as [lo hi]. done.
Qed.

Lemma mulu64_correct_witness :
  let '(plow, phigh) := mulu64 (2 ^ 64 - 1) (2 ^ 64 - 1) in
  is_u 64 plow /\ is_u 64 phigh /\ plow + 2 ^ 64 * phigh = (2 ^ 64 - 1) * (2 ^ 64 - 1).
Proof. apply mulu64_correct; unfold is_u; lia. Defined.

(** [muls64] gives the 128-bit two's complement product of any two signed 64-bit
    numbers other than the most negative one, whose negation overflows. *)
Theorem muls64_correct a b :
  is_s 64 a -> is_s 64 b ->
  if (a =? - 2 ^ 63) || (b =? - 2 ^ 63) then muls64 a b = Fault
  else exists plow phigh, muls64 a b = Ret (plow, phigh) /\ swrap 128 (plow + 2 ^ 64 * phigh) = a * b.
Proof.
  intros Ha Hb. unfold muls64, neg64.
  destruct (Z.eqb_spec a (- 2 ^ 63)) as [->|Na]; [reflexivity|].
  destruct (Z.eqb_spec b (- 2 ^ 63)) as [->|Nb]; cbn [orb]; [by destruct (a <? 0)|].
  unfold is_s in Ha, Hb. change (2 ^ (64 - 1)) with (2 ^ 63) in Ha, Hb.
  replace (if a <? 0 then Ret (- a) else Ret a) with (@Ret Empty_set Z (Z.abs a)) by (destruct (Z.ltb_spec a 0); f_equal; lia).
  replace (if b <? 0 then Ret (- b) else Ret b) with (@Ret Empty_set Z (Z.abs b)) by (destruct (Z.ltb_spec b 0); f_equal; lia).
  cbn [obind]. rewrite !(wrap_small 64) by (unfold is_u; lia).
  destruct (mul64_val (Z.abs a) (Z.abs b)) as [E P]; [unfold is_u; lia..|].
  destruct (if xorb (a <? 0) (b <? 0) then neg128 (mul64 (Z.abs a) (Z.abs b)) else mul64 (Z.abs a) (Z.abs b)) as [lo hi] eqn:Ep.
  exists lo, hi. split; [done|]. change (lo + 2 ^ 64 * hi) with (val128 (lo, hi)). rewrite <- Ep. clear Ep lo hi.
  assert (Z.abs a * Z.abs b < 2 ^ 126) as Hlt.
  { change (2 ^ 126) with (2 ^ 63 * 2 ^ 63). apply Z.mul_lt_mono_nonneg; lia. }
  rewrite <- Z.abs_mul in E, Hlt.
  assert (is_s 128 (a * b)) as Hs by (unfold is_s; change (2 ^ (128 - 1)) with (2 * 2 ^ 126); lia).
  destruct (xorb (a <? 0) (b <? 0)) eqn:Ex.
  - assert (a * b <= 0) as Hneg by (destruct (Z.ltb_spec a 0), (Z.ltb_spec b 0); try discriminate Ex; nia).
    destruct (Z.eq_dec (a * b) 0) as [E0|N0].
    + rewrite E0 in *. by rewrite neg128_zero.
    + rewrite neg128_val, E by (done || lia). rewrite Z.abs_neq by done.
      replace (2 ^ 128 - - (a * b)) with (a * b + 2 ^ 128) by lia. rewrite swrap_add by lia. by apply swrap_small.
  - assert (0 <= a * b) as Hpos by (destruct (Z.ltb_spec a 0), (Z.ltb_spec b 0); try discriminate Ex; nia).
    rewrite E, Z.abs_eq by done. by apply swrap_small.
Qed.

Lemma muls64_correct_witness :
  exists plow phigh, muls64 (-3) (2 ^ 62) = Ret (plow, phigh) /\ swrap 128 (plow + 2 ^ 64 * phigh) = -3 * 2 ^ 62.
Proof. apply (muls64_correct (-3) (2 ^ 62)); unfold is_s; lia. Defined.
