(* ===== verification/NetChecksum.v ===== *)
(** * Internet checksums: net/checksum.c

    A buffer is a list of bytes and a pointer into it a position; reading or writing
    outside it is a [Fault].  [net_checksum_calculate] never looks at its [length]
    argument: it trusts the lengths of the packet's header. *)

From S2P Require Import Prelude.
From stdpp Require Import list.

Open Scope Z_scope.

Inductive loop_exn := LoopFuel.

Abbreviation nres A := (outcome loop_exn A).

Definition PROTO_TCP : Z := 6.
Definition PROTO_UDP : Z := 17.

(** The loop over [buf]; [i] counts from 0. *)
Fixpoint checksum_loop (bs : list Z) (i sum : Z) : Z :=
  match bs with
  | [] => sum
  | b :: bs =>
      let sum := if negb (Z.land i 1 =? 0) then u32 (sum + b) else u32 (sum + Z.shiftl b 8) in
      checksum_loop bs (i + 1) sum
  end.

Definition net_checksum_add (len : Z) (mem : list Z) (buf : Z) : nres Z :=
  if len <=? 0 then Ret 0
  else let! bs := oget (load mem buf len) in Ret (checksum_loop bs 0 0).

Fixpoint fold_carries (fuel : nat) (sum : Z) : nres Z :=
  if Z.shiftr sum 16 =? 0 then Ret sum
  else match fuel with
       | O => Throw LoopFuel
       | S fuel => fold_carries fuel (u32 (Z.land sum 0xFFFF + Z.shiftr sum 16))
       end.

Definition net_checksum_finish (sum : Z) : nres Z :=
  let! sum := fold_carries 2 sum in Ret (u16 (Z.lnot sum)).

Definition net_checksum_tcpudp (length proto : Z) (mem : list Z) (addrs buf : Z) : nres Z :=
  let length := u16 length in
  let proto := u16 proto in
  let! s1 := net_checksum_add length mem buf in
  let! s2 := net_checksum_add 8 mem addrs in
  net_checksum_finish (u32 (u32 (u32 (0 + s1) + s2) + (proto + length))).

Definition rd8 (data : list Z) (i : Z) : nres Z := oget (data !! Z.to_nat i).
Definition wr8 (data : list Z) (i v : Z) : nres (list Z) := oget (store data i [u8 v]).

Definition net_checksum_calculate (data : list Z) (length : Z) : nres (list Z) :=
  let! d14 := rd8 data 14 in
  if negb (Z.land d14 0xf0 =? 0x40) then Ret data
  else
    let hlen := Z.land d14 0x0f * 4 in
    let! d16 := rd8 data 16 in
    let! d17 := rd8 data 17 in
    let plen := Z.lor (Z.shiftl d16 8) d17 - hlen in
    let! proto := rd8 data 23 in
    let go (csum_offset : Z) :=
      if plen <? csum_offset + 2 then Ret data
      else
        let! data := wr8 data (14 + hlen + csum_offset) 0 in
        let! data := wr8 data (14 + hlen + csum_offset + 1) 0 in
        let! csum := net_checksum_tcpudp plen proto data (14 + 12) (14 + hlen) in
        let! data := wr8 data (14 + hlen + csum_offset) (Z.shiftr csum 8) in
        wr8 data (14 + hlen + csum_offset + 1) (Z.land csum 0xff) in
    if proto =? PROTO_TCP then go 16 else if proto =? PROTO_UDP then go 6 else Ret data.

(** ** The sum of the 16-bit words *)
Fixpoint sum16 (odd : bool) (bs : list Z) : Z :=
  match bs with
  | [] => 0
  | b :: bs => (if odd then b else 256 * b) + sum16 (negb odd) bs
  end.

Lemma land1_odd i : negb (Z.land i 1 =? 0) = Z.odd i.
Proof.
  change 1 with (Z.ones 1) at 1. rewrite Z.land_ones by lia. change (2 ^ 1) with 2. rewrite Zmod_odd.
  by destruct (Z.odd i).
Qed.

Lemma checksum_loop_sum bs i sum : checksum_loop bs i (u32 sum) = u32 (sum + sum16 (Z.odd i) bs).
Proof.
  revert i sum. induction bs as [|b bs IH]; intros i sum; [simpl; by rewrite Z.add_0_r|].
  cbn [checksum_loop sum16]. rewrite land1_odd.
  assert (Z.odd (i + 1) = negb (Z.odd i)) as Eo by (rewrite Z.add_1_r, Z.odd_succ, <- Z.negb_odd; done).
  destruct (Z.odd i); rewrite wrap_add_l, IH, Eo; f_equal; rewrite ?Z.shiftl_mul_pow2 by lia; lia.
Qed.

Lemma sum16_app odd a b :
  sum16 odd (a ++ b) = sum16 odd a + sum16 (if Nat.even (length a) then odd else negb odd) b.
Proof.
  revert odd. induction a as [|x a IH]; intros odd; [done|]. cbn [app sum16 length]. rewrite IH.
  rewrite Nat.even_succ, <- Nat.negb_even. destruct (Nat.even (length a)); simpl; rewrite ?negb_involutive; lia.
Qed.

Lemma sum16_bound odd bs : bytes bs -> 0 <= sum16 odd bs <= 256 * 255 * Z.of_nat (length bs).
Proof.
  intros H. revert odd. induction H as [|b bs [Hb1 Hb2] _ IH]; intros odd; [simpl; lia|].
  cbn [sum16 length]. specialize (IH (negb odd)). destruct odd; lia.
Qed.

Lemma net_checksum_add_ok len mem buf bs :
  0 <= len -> load mem buf len = Some bs -> net_checksum_add len mem buf = Ret (u32 (sum16 false bs)).
Proof.
  intros Hl E. unfold net_checksum_add. destruct (Z.leb_spec len 0).
  - apply load_Some in E as (_ & _ & _ & Hn & _). destruct bs; [done|simpl in Hn; lia].
  - rewrite E. cbn [oget obind]. f_equal. apply (checksum_loop_sum bs 0 0).
Qed.

(** ** Folding the carries *)
Lemma shiftr16 x : 0 <= x -> (Z.shiftr x 16 =? 0) = (x <? 65536).
Proof.
  intros Hx. rewrite Z.shiftr_div_pow2 by lia. change (2 ^ 16) with 65536.
  destruct (Z.ltb_spec x 65536); [by rewrite Z.div_small by lia|].
  apply Z.eqb_neq. pose proof (Z.div_le_lower_bound x 65536 1). lia.
Qed.

Lemma fold_step x : 0 <= x < 2 ^ 32 ->
  let y := u32 (Z.land x 0xFFFF + Z.shiftr x 16) in
  y mod 65535 = x mod 65535 /\ 0 <= y <= 65535 + x / 65536 /\ (0 < x -> 0 < y).
Proof.
  intros Hx y. unfold y. change (Z.land x 0xFFFF) with (Z.land x (Z.ones 16)). rewrite Z.land_ones, Z.shiftr_div_pow2 by lia.
  change (2 ^ 16) with 65536.
  pose proof (Z.div_mod x 65536 ltac:(lia)) as E. pose proof (Z.mod_pos_bound x 65536 ltac:(lia)) as Hm.
  assert (0 <= x / 65536 < 65536) by (split; [apply Z.div_pos; lia|apply Z.div_lt_upper_bound; lia]).
  rewrite wrap_small by (unfold is_u; lia). split; [|lia].
  replace x with (x mod 65536 + x / 65536 + (x / 65536) * 65535) at 3 by lia. by rewrite Z_mod_plus_full.
Qed.

(** The folded sum: the representative of the sum modulo 65535 in 1..65535, 0 for 0. *)
Lemma fold_carries_ok x : 0 <= x < 2 ^ 32 ->
  exists y, fold_carries 2 x = Ret y /\ 0 <= y < 65536 /\ y mod 65535 = x mod 65535 /\ (0 < x -> 0 < y).
Proof.
  intros Hx. cbn [fold_carries]. rewrite shiftr16 by lia. destruct (Z.ltb_spec x 65536); [exists x; split_and!; (done || lia)|].
  destruct (fold_step x Hx) as (M1 & B1 & P1). set (y := u32 (Z.land x 0xFFFF + Z.shiftr x 16)) in *.
  assert (x / 65536 < 65536) by (apply Z.div_lt_upper_bound; lia).
  rewrite shiftr16 by lia. destruct (Z.ltb_spec y 65536); [exists y; split_and!; (done || lia)|].
  destruct (fold_step y) as (M2 & B2 & P2); [lia|]. set (z := u32 (Z.land y 0xFFFF + Z.shiftr y 16)) in *.
  assert (z < 65536).
  { unfold z. change (Z.land y 0xFFFF) with (Z.land y (Z.ones 16)). rewrite Z.land_ones, Z.shiftr_div_pow2 by lia. change (2 ^ 16) with 65536.
    assert (y / 65536 = 1) as E1 by (symmetry; apply (Z.div_unique_pos _ _ _ (y - 65536)); lia).
    assert (y mod 65536 = y - 65536) as E2 by (symmetry; apply (Z.mod_unique_pos _ _ 1); lia).
    rewrite E1, E2, wrap_small by (unfold is_u; lia). lia. }
  rewrite shiftr16 by lia. rewrite (proj2 (Z.ltb_lt z 65536)) by lia. exists z. split_and!; (done || lia).
Qed.

Lemma finish_ok x : 0 <= x < 2 ^ 32 ->
  exists y, net_checksum_finish x = Ret (65535 - y) /\ 0 <= y <= 65535 /\ y mod 65535 = x mod 65535 /\ (0 < x -> 0 < y).
Proof.
  intros Hx. destruct (fold_carries_ok x Hx) as (y & E & Hy & Hm & Hp). exists y.
  unfold net_checksum_finish. rewrite E. cbn [obind]. split_and!; try (done || lia).
  f_equal. unfold wrap, Z.lnot. symmetry. apply (Z.mod_unique_pos _ _ (-1)); lia.
Qed.

(** ** Stores into a packet *)
Lemma wr8_app L x R i v : i = Z.of_nat (length L) -> wr8 (L ++ x :: R) i v = Ret (L ++ u8 v :: R).
Proof.
  intros ->. unfold wr8. rewrite store_ok by (rewrite ?length_app; simpl; lia). cbn [oget].
  rewrite Nat2Z.id, take_app_length. do 3 f_equal. simpl.
  rewrite drop_app_ge by lia. by replace (length L + 1 - length L)%nat with 1%nat by lia.
Qed.

Lemma load_inside {A} (L R : list A) p n :
  0 <= p -> 0 <= n -> p + n <= Z.of_nat (length L) -> load (L ++ R) p n = Some (take (Z.to_nat n) (drop (Z.to_nat p) L)).
Proof.
  intros Hp Hn Hl. rewrite load_ok by (rewrite ?length_app; lia). f_equal.
  rewrite drop_app_le by lia. rewrite take_app_le; [done|]. rewrite length_drop. lia.
Qed.

(** ** Packets *)

(** An IPv4 packet with a TCP or UDP payload inside the buffer. *)
Record packet (data : list Z) (hlen plen proto off : Z) : Prop := {
  pk_bytes : bytes data;
  pk_version : exists d14, data !! 14%nat = Some d14 /\ Z.land d14 0xf0 = 0x40 /\ hlen = Z.land d14 0x0f * 4;
  pk_header : 20 <= hlen;
  pk_length : exists d16 d17, data !! 16%nat = Some d16 /\ data !! 17%nat = Some d17 /\
                plen = Z.lor (Z.shiftl d16 8) d17 - hlen;
  pk_proto : data !! 23%nat = Some proto;
  pk_offset : proto = PROTO_TCP /\ off = 16 \/ proto = PROTO_UDP /\ off = 6;
  pk_room : off + 2 <= plen;
  pk_inside : 14 + hlen + plen <= Z.of_nat (length data)
}.

Lemma plen_bound a b : is_byte a -> is_byte b -> 0 <= Z.lor (Z.shiftl a 8) b < 65536.
Proof.
  intros [Ha1 Ha2] [Hb1 Hb2].
  assert (0 <= Z.lor (Z.shiftl a 8) b) as H0 by (apply Z.lor_nonneg; split; [apply Z.shiftl_nonneg|]; lia).
  split; [done|]. change 65536 with (2 ^ 16). apply Z.bounded_iff_bits_nonneg; [lia|done|]. intros l Hl.
  rewrite Z.lor_spec, Z.shiftl_spec by lia. apply orb_false_iff. split.
  - apply (proj1 (Z.bounded_iff_bits_nonneg 8 a ltac:(lia) Ha1)); lia.
  - apply (proj1 (Z.bounded_iff_bits_nonneg 8 b ltac:(lia) Hb1)); lia.
Qed.

(** The buffer around the checksum field. *)
Lemma split_packet data hlen plen proto off : packet data hlen plen proto off ->
  exists L A x y B R, data = L ++ A ++ x :: y :: B ++ R /\ Z.of_nat (length L) = 14 + hlen /\
    Z.of_nat (length A) = off /\ Z.of_nat (length B) = plen - off - 2.
Proof.
  intros [Hb _ Hh _ _ Ho Hr Hi]. assert (0 <= off) as Hoff by (destruct Ho as [[_ ->]|[_ ->]]; lia).
  set (n := Z.to_nat (14 + hlen)). set (rest := drop n data).
  assert (data = take n data ++ take (Z.to_nat off) rest ++ drop (Z.to_nat off) rest) as E
    by (unfold rest; by rewrite !take_drop).
  assert (length rest = length data - n)%nat as Hlr by apply length_drop.
  destruct (drop (Z.to_nat off) rest) as [|x [|y T]] eqn:ET;
    try (apply (f_equal length) in ET; rewrite length_drop in ET; simpl in ET; lia).
  exists (take n data), (take (Z.to_nat off) rest), x, y, (take (Z.to_nat (plen - off - 2)) T),
    (drop (Z.to_nat (plen - off - 2)) T).
  apply (f_equal length) in ET. rewrite length_drop in ET. simpl in ET.
  split; [by rewrite take_drop|]. rewrite !length_take. lia.
Qed.

Lemma lookup_head {A} (L R R' : list A) i : (i < length L)%nat -> (L ++ R) !! i = (L ++ R') !! i.
Proof. intros Hi. by rewrite !lookup_app_l by done. Qed.

(** The pseudo-header sum over a packet's addresses and payload. *)
Lemma tcpudp_ok L P R plen proto :
  bytes L -> bytes P -> (34 <= length L)%nat -> Z.of_nat (length P) = plen -> plen < 65536 -> is_byte proto ->
  let s := sum16 false P + sum16 false (take 8 (drop 26 L)) + (proto + plen) in
  0 <= s < 2 ^ 32 /\
  net_checksum_tcpudp plen proto (L ++ P ++ R) 26 (Z.of_nat (length L)) = net_checksum_finish s.
Proof.
  intros HL HP HlL HlP Hpl Hpr s. unfold is_byte in Hpr.
  assert (bytes (take 8 (drop 26 L))) as Hb by (by apply Forall_take, Forall_drop).
  pose proof (sum16_bound false P HP) as B1. pose proof (sum16_bound false _ Hb) as B2.
  rewrite length_take, length_drop in B2. assert (0 <= s < 2 ^ 32) as Hs by (unfold s; lia). split; [done|].
  unfold net_checksum_tcpudp. rewrite !(wrap_small 16) by (unfold is_u; lia).
  rewrite (net_checksum_add_ok plen _ _ P) by (lia || by apply load_app). cbn [obind].
  rewrite (net_checksum_add_ok 8 _ _ (take 8 (drop 26 L))) by (lia || (apply load_inside; lia)). cbn [obind].
  f_equal. rewrite !Z.add_0_l, wrap_wrap.
  rewrite (wrap_small 32 (sum16 false P)), (wrap_small 32 (sum16 false (take 8 (drop 26 L)))) by (unfold is_u; lia).
  rewrite wrap_add_l. by apply (wrap_small 32 s).
Qed.

(** ** The checksum field *)
Section Field.
Variables (L A B R : list Z) (proto plen : Z).
(** The packet with the two bytes of the field. *)
Definition with_field (hi lo : Z) : list Z := L ++ A ++ hi :: lo :: B ++ R.
Definition field_sum (hi lo : Z) : Z :=
  sum16 false (A ++ hi :: lo :: B) + sum16 false (take 8 (drop 26 L)) + (proto + plen).

Lemma wr_hi c d v : wr8 (with_field c d) (Z.of_nat (length L + length A)) v = Ret (with_field (u8 v) d).
Proof using. unfold with_field. rewrite !(app_assoc L). apply wr8_app. by rewrite length_app. Qed.

Lemma wr_lo c d v : wr8 (with_field c d) (Z.of_nat (length L + length A) + 1) v = Ret (with_field c (u8 v)).
Proof using.
  unfold with_field. pose proof (wr8_app ((L ++ A) ++ [c]) d (B ++ R) (Z.of_nat (length L + length A) + 1) v) as H.
  rewrite <- !app_assoc in H. apply H. rewrite !length_app. simpl. lia.
Qed.

(** The two stores of a 16-bit value. *)
Lemma split_csum c : 0 <= c < 65536 ->
  is_byte (u8 (Z.shiftr c 8)) /\ is_byte (u8 (Z.land c 0xff)) /\ 256 * u8 (Z.shiftr c 8) + u8 (Z.land c 0xff) = c.
Proof using.
  intros Hc. split_and!; try (apply (wrap_range 8); lia). change 0xff with (Z.ones 8).
  rewrite Z.land_ones, Z.shiftr_div_pow2 by lia. unfold wrap. change (2 ^ 8) with 256.
  rewrite Z.mod_mod by lia. pose proof (Z.div_mod c 256 ltac:(lia)).
  rewrite (Z.mod_small (c / 256)); [lia|]. split; [apply Z.div_pos; lia|apply Z.div_lt_upper_bound; lia].
Qed.

Hypothesis HL : (34 <= length L)%nat.
Hypothesis HA : Nat.even (length A) = true.
Hypothesis Hplen : plen = Z.of_nat (length A + 2 + length B).
Hypothesis Hsmall : plen < 65536.
Hypothesis Hproto : is_byte proto.
Hypothesis Hpos : 0 < proto.
Hypothesis Hbytes : bytes L /\ bytes A /\ bytes B.

Lemma field_tcpudp hi lo : is_byte hi -> is_byte lo ->
  0 <= field_sum hi lo < 2 ^ 32 /\
  net_checksum_tcpudp plen proto (with_field hi lo) 26 (Z.of_nat (length L)) = net_checksum_finish (field_sum hi lo).
Proof using All.
  intros Hhi Hlo. destruct Hbytes as (HbL & HbA & HbB).
  assert (with_field hi lo = L ++ (A ++ hi :: lo :: B) ++ R) as -> by (unfold with_field; by rewrite <- app_assoc).
  apply tcpudp_ok; [done| |done| |done|done].
  - apply Forall_app. split; [done|]. by rewrite !Forall_cons.
  - rewrite length_app. simpl. lia.
Qed.

Lemma field_sum_linear hi lo : field_sum hi lo = field_sum 0 0 + (256 * hi + lo).
Proof using All. unfold field_sum. rewrite !sum16_app, HA. simpl. lia. Qed.

Lemma field_verifies :
  exists csum, net_checksum_tcpudp plen proto (with_field 0 0) 26 (Z.of_nat (length L)) = Ret csum /\
    net_checksum_tcpudp plen proto (with_field (u8 (Z.shiftr csum 8)) (u8 (Z.land csum 0xff))) 26
      (Z.of_nat (length L)) = Ret 0.
Proof using All.
  assert (is_byte 0) as B0 by (unfold is_byte; lia).
  destruct (field_tcpudp 0 0 B0 B0) as [Hs0 ->]. destruct (finish_ok _ Hs0) as (c & -> & Hc & Hm & _).
  exists (65535 - c). split; [done|]. destruct (split_csum (65535 - c)) as (Bh & Bl & Ecs); [lia|].
  destruct (field_tcpudp _ _ Bh Bl) as [Hs1 ->].
  rewrite (field_sum_linear (u8 (Z.shiftr (65535 - c) 8)) (u8 (Z.land (65535 - c) 0xff))), Ecs in *.
  destruct (finish_ok _ Hs1) as (c1 & -> & Hc1 & Hm1 & Hp1). f_equal.
  assert (c1 mod 65535 = 0) as E0.
  { rewrite Hm1. rewrite <- Zplus_mod_idemp_l, <- Hm, Zplus_mod_idemp_l. by replace (c + (65535 - c)) with 65535 by lia. }
  assert (0 < field_sum 0 0) as Hp.
  { unfold field_sum. destruct Hbytes as (HbL & HbA & HbB).
    pose proof (sum16_bound false (A ++ 0 :: 0 :: B)) as S1.
    pose proof (sum16_bound false (take 8 (drop 26 L)) (Forall_take _ _ _ (Forall_drop _ _ _ HbL))) as S2.
    assert (bytes (A ++ 0 :: 0 :: B)) as Hb by (apply Forall_app; split; [done|by rewrite !Forall_cons]).
    specialize (S1 Hb). lia. }
  apply Z.mod_divide in E0 as [q E0]; [|lia]. lia.
Qed.

End Field.

(** ** Properties *)

(** After [net_checksum_calculate] on an IPv4 packet whose payload lies inside the
    buffer, the checksum field holds the value with which the receiver's sum over
    pseudo-header and payload comes out as 0, and no other byte has changed. *)
Theorem checksum_verifies data length hlen plen proto off :
  packet data hlen plen proto off ->
  exists data', net_checksum_calculate data length = Ret data' /\
    List.length data' = List.length data /\
    (forall i, i <> Z.to_nat (14 + hlen + off) -> i <> Z.to_nat (14 + hlen + off + 1) -> data' !! i = data !! i) /\
    net_checksum_tcpudp plen proto data' 26 (14 + hlen) = Ret 0.
Proof.
  intros Hpk. destruct (split_packet _ _ _ _ _ Hpk) as (L & A & x & y & B & R & -> & HL & HA & HB).
  destruct Hpk as [Hb (d14 & E14 & Hv & Ehl) Hh (d16 & d17 & E16 & E17 & Epl) Epr Ho Hr Hi].
  assert (is_byte d16 /\ is_byte d17 /\ is_byte proto) as (B16 & B17 & Bp)
    by (split_and!; eapply Forall_lookup_1; eauto).
  pose proof (plen_bound d16 d17 B16 B17) as Hpl.
  assert (bytes L /\ bytes A /\ bytes B) as Hbs.
  { rewrite !Forall_app, !Forall_cons, Forall_app in Hb. naive_solver. }
  assert (Nat.even (List.length A) = true /\ 0 < proto) as [Hev Hpos].
  { destruct Ho as [[-> Eo]|[-> Eo]]; rewrite Eo in HA;
      [replace (List.length A) with 16%nat by lia|replace (List.length A) with 6%nat by lia]; done. }
  destruct (field_verifies L A B R proto plen) as (csum & E1 & E2); [lia|done|lia|lia|done|done|done|].
  rewrite HL in E1, E2. change (L ++ A ++ x :: y :: B ++ R) with (with_field L A B R x y) in *.
  assert (14 + hlen + off = Z.of_nat (List.length L + List.length A)) as Epos by lia.
  eexists. split; [|split_and!; [| |exact E2]].
  - unfold net_checksum_calculate, rd8. change (Z.to_nat 14) with 14%nat. change (Z.to_nat 16) with 16%nat.
    change (Z.to_nat 17) with 17%nat. change (Z.to_nat 23) with 23%nat.
    rewrite E14, E16, E17, Epr. cbn [oget obind]. rewrite Hv. change (64 =? 64) with true. cbn [negb].
    rewrite <- Ehl, <- Epl. change (14 + 12) with 26.
    destruct Ho as [[-> Eo]|[-> Eo]]; rewrite <- Eo, Epos;
      [change (PROTO_TCP =? PROTO_TCP) with true
      |change (PROTO_UDP =? PROTO_TCP) with false; change (PROTO_UDP =? PROTO_UDP) with true]; cbv iota;
      (rewrite (proj2 (Z.ltb_ge _ _)) by lia);
      rewrite wr_hi; cbn [obind]; rewrite wr_lo; cbn [obind]; change (u8 0) with 0; rewrite E1; cbn [obind];
      rewrite wr_hi; cbn [obind]; apply wr_lo.
  - unfold with_field. rewrite !length_app. simpl. rewrite !length_app. done.
  - intros i H1 H2. rewrite Epos in H1, H2. unfold with_field. rewrite !(app_assoc L).
    destruct (decide (i < List.length (L ++ A))%nat) as [Hlt|Hge]; [by rewrite !(lookup_app_l (L ++ A)) by done|].
    rewrite !lookup_app_r by lia. rewrite length_app in *.
    destruct (i - (List.length L + List.length A))%nat as [|[|k]] eqn:Ek; [lia|lia|done].
Qed.

(** A UDP packet of 10 payload bytes. *)
Definition udp_sample : list Z :=
  replicate 14 0 ++ [0x45; 0; 0; 30; 0; 0; 0; 0; 64; 17; 0; 0; 10; 0; 2; 15; 10; 0; 2; 2] ++
  [0; 53; 4; 0; 0; 10; 7; 7; 1; 2].

Lemma checksum_verifies_witness :
  exists data', net_checksum_calculate udp_sample 44 = Ret data' /\
    net_checksum_tcpudp 10 17 data' 26 34 = Ret 0.
Proof.
  destruct (checksum_verifies udp_sample 44 20 10 17 6) as (data' & H1 & _ & _ & H2).
  - split.
    + repeat (constructor; [unfold is_byte; lia|]). constructor.
    + exists 0x45. done.
    + lia.
    + exists 0, 30. done.
    + done.
    + right. done.
    + lia.
    + simpl. lia.
  - exists data'. split; [exact H1|exact H2].
Defined.

(** The [length] argument is not looked at: a frame whose IP header announces more
    payload than the frame has makes the checksum loop read behind the buffer. *)
Theorem checksum_overread :
  exists frame : list Z, (34 <= List.length frame)%nat /\ bytes frame /\
    net_checksum_calculate frame (Z.of_nat (List.length frame)) = Fault.
Proof.
  exists (take 42 udp_sample). split; [simpl; lia|]. split; [|reflexivity].
  repeat (constructor; [unfold is_byte; lia|]). constructor.
Qed.
