(* ===== verification/NetQueue.v ===== *)
(** * The packet queue of the network layer: net/queue.c

    A queue holds packets the delivery handler could not take.  The handler and the sent
    callbacks are code of the queue's users and may call the queue again while they run:
    they are parameters of the model that return, besides their own result, the calls
    they make on this queue, and [exec] runs those calls at the point where the handler
    runs.  The recursion between handlers and queue has no measure of its own, so [exec]
    takes fuel; running out of it is the exception [OutOfFuel]. *)

From S2P Require Import Prelude.
From stdpp Require Import list sorting.

Open Scope Z_scope.

(** Pointers to clients and to callbacks are integers; NULL callbacks are [None]. *)
Record NetPacket : Type := mkPacket {
  np_sender : Z;
  np_flags : Z;
  np_size : Z;
  np_sent_cb : option Z;
  np_data : list Z
}.

Record NetQueue : Type := mkQueue { nq_packets : list NetPacket; nq_delivering : bool }.

Definition qemu_new_net_queue : NetQueue := mkQueue [] false.

(** What users ask of a queue. *)
Inductive call : Type :=
| CallSend (sender flags : Z) (data : list Z) (sent_cb : option Z)
| CallSendIov (sender flags : Z) (iov : list (list Z)) (sent_cb : option Z)
| CallPurge (from : Z)
| CallFlush.

Record item : Type := mkItem { it_sender : Z; it_flags : Z; it_data : list Z }.

(** What can be seen of a run: packets handed to the queue, from [inside] a delivery or
    not, calls of the delivery handler with their result, packets freed undelivered, calls of sent callbacks. *)
Inductive event : Type :=
| EvSend (i : item) (inside : bool)
| EvDeliver (i : item) (ret : Z)
| EvFree (i : item)
| EvSent (cb sender ret : Z).

Inductive queue_exn : Type := OutOfFuel.

Definition item_of (p : NetPacket) : item :=
  mkItem (np_sender p) (np_flags p) (take (Z.to_nat (np_size p)) (np_data p)).

(** The state of a run: the queue, the users' own state, the events so far. *)
Record qstate (W : Type) : Type := mkQstate { st_queue : NetQueue; st_world : W; st_log : list event }.
Arguments mkQstate {W} _ _ _.
Arguments st_queue {W} _.
Arguments st_world {W} _.
Arguments st_log {W} _.

Record handlers (W : Type) : Type := mkHandlers {
  deliver : W -> Z -> Z -> list Z -> Z -> W * list call * Z;
  deliver_iov : W -> Z -> Z -> list (list Z) -> W * list call * Z;
  sent : W -> Z -> Z -> Z -> W * list call
}.
Arguments mkHandlers {W} _ _ _.
Arguments deliver {W} _ _ _ _ _ _.
Arguments deliver_iov {W} _ _ _ _ _.
Arguments sent {W} _ _ _ _ _.

Section Queue.
Context {W : Type} (H : handlers W).
Abbreviation st := (qstate W).
Abbreviation res A := (outcome queue_exn A).

Definition set_packets (s : st) (ps : list NetPacket) : st :=
  mkQstate (mkQueue ps (nq_delivering (st_queue s))) (st_world s) (st_log s).
Definition set_delivering (s : st) (b : bool) : st :=
  mkQstate (mkQueue (nq_packets (st_queue s)) b) (st_world s) (st_log s).
Definition set_world (s : st) (w : W) : st := mkQstate (st_queue s) w (st_log s).
Definition note (s : st) (es : list event) : st :=
  mkQstate (st_queue s) (st_world s) (st_log s ++ es).
Definition packets (s : st) : list NetPacket := nq_packets (st_queue s).

Definition qemu_net_queue_append (s : st) (sender flags : Z) (buf : list Z) (sent_cb : option Z) : Z * st :=
  let size := Z.of_nat (length buf) in
  let packet := mkPacket sender flags (s32 size) sent_cb buf in
  (size, set_packets s (packets s ++ [packet])).

(** The second loop of [qemu_net_queue_append_iov]: each piece is copied behind the ones
    before it, [packet->size] being an [int]. *)
Fixpoint iov_fill (iov : list (list Z)) (data : list (option Z)) (size : Z) : res (list (option Z) * Z) :=
  match iov with
  | [] => Ret (data, size)
  | piece :: iov =>
      let! data := oget (store data size (map Some piece)) in
      iov_fill iov data (s32 (size + Z.of_nat (length piece)))
  end.

Definition qemu_net_queue_append_iov (s : st) (sender flags : Z) (iov : list (list Z))
    (sent_cb : option Z) : res (Z * st) :=
  let max_len := foldl (fun n piece => u64 (n + Z.of_nat (length piece))) 0 iov in
  let! '(data, size) := iov_fill iov (replicate (Z.to_nat max_len) None) 0 in
  let! data := oget (mapM id data) in
  let packet := mkPacket sender flags size sent_cb data in
  Ret (size, set_packets s (packets s ++ [packet])).

Section Reentrant.
(** [calls] runs the calls a handler makes, [flush] is [qemu_net_queue_flush]. *)
Variable calls : list call -> st -> res st.
Variable flush : st -> res st.

Definition qemu_net_queue_deliver (s : st) (sender flags : Z) (data : list Z) (size : Z) : res (Z * st) :=
  let s := set_delivering s true in
  let '(w, cs, ret) := deliver H (st_world s) sender flags data size in
  let! s := calls cs (set_world s w) in
  let s := note s [EvDeliver (mkItem sender flags (take (Z.to_nat size) data)) ret] in
  Ret (ret, set_delivering s false).

Definition qemu_net_queue_deliver_iov (s : st) (sender flags : Z) (iov : list (list Z)) : res (Z * st) :=
  let s := set_delivering s true in
  let '(w, cs, ret) := deliver_iov H (st_world s) sender flags iov in
  let! s := calls cs (set_world s w) in
  let s := note s [EvDeliver (mkItem sender flags (concat iov)) ret] in
  Ret (ret, set_delivering s false).

Definition qemu_net_queue_send (s : st) (sender flags : Z) (data : list Z) (sent_cb : option Z) : res (Z * st) :=
  let s := note s [EvSend (mkItem sender flags data) (nq_delivering (st_queue s))] in
  if nq_delivering (st_queue s) then
    Ret (qemu_net_queue_append s sender flags data None)
  else
    let! '(ret, s) := qemu_net_queue_deliver s sender flags data (Z.of_nat (length data)) in
    if ret =? 0 then
      let '(_, s) := qemu_net_queue_append s sender flags data sent_cb in Ret (0, s)
    else
      let! s := flush s in
      Ret (ret, s).

Definition qemu_net_queue_send_iov (s : st) (sender flags : Z) (iov : list (list Z)) (sent_cb : option Z) : res (Z * st) :=
  let s := note s [EvSend (mkItem sender flags (concat iov)) (nq_delivering (st_queue s))] in
  if nq_delivering (st_queue s) then
    qemu_net_queue_append_iov s sender flags iov None
  else
    let! '(ret, s) := qemu_net_queue_deliver_iov s sender flags iov in
    if ret =? 0 then
      let! '(_, s) := qemu_net_queue_append_iov s sender flags iov sent_cb in Ret (0, s)
    else
      let! s := flush s in
      Ret (ret, s).

(** One turn of the loop of [qemu_net_queue_flush]; [true]: the loop goes on.  The result
    of the handler is kept in an [int]. *)
Definition flush_turn (s : st) (packet : NetPacket) (rest : list NetPacket) : res (bool * st) :=
  let s := set_packets s rest in
  let! '(ret, s) := qemu_net_queue_deliver s (np_sender packet) (np_flags packet)
                      (np_data packet) (np_size packet) in
  let ret := s32 ret in
  if ret =? 0 then Ret (false, set_packets s (packet :: packets s))
  else match np_sent_cb packet with
       | Some cb =>
           let '(w, cs) := sent H (st_world s) cb (np_sender packet) ret in
           let! s := calls cs (note (set_world s w) [EvSent cb (np_sender packet) ret]) in
           Ret (true, s)
       | None => Ret (true, s)
       end.
End Reentrant.

Definition from_sender (from : Z) (p : NetPacket) : bool := np_sender p =? from.

Definition qemu_net_queue_purge (s : st) (from : Z) : st :=
  let gone := List.filter (from_sender from) (packets s) in
  let kept := List.filter (fun p => negb (from_sender from p)) (packets s) in
  note (set_packets s kept) (map (EvFree ∘ item_of) gone).

(** [qemu_del_net_queue] frees what is queued. *)
Definition qemu_del_net_queue (s : st) : st :=
  note (set_packets s []) (map (EvFree ∘ item_of) (packets s)).

Fixpoint run_calls (run : call -> st -> res (Z * st)) (cs : list call) (s : st) : res st :=
  match cs with
  | [] => Ret s
  | c :: cs => let! '(_, s) := run c s in run_calls run cs s
  end.

Fixpoint exec (fuel : nat) (c : call) (s : st) : res (Z * st) :=
  match fuel with
  | O => Throw OutOfFuel
  | S fuel =>
      let calls := run_calls (exec fuel) in
      let flush := fun s => let! '(_, s) := exec fuel CallFlush s in Ret s in
      match c with
      | CallSend sender flags data cb => qemu_net_queue_send calls flush s sender flags data cb
      | CallSendIov sender flags iov cb => qemu_net_queue_send_iov calls flush s sender flags iov cb
      | CallPurge from => Ret (0, qemu_net_queue_purge s from)
      | CallFlush =>
          match packets s with
          | [] => Ret (0, s)
          | packet :: rest =>
              let! '(more, s) := flush_turn calls s packet rest in
              if (more : bool) then exec fuel CallFlush s else Ret (0, s)
          end
      end
  end.
End Queue.

(** ** What happened to the packets *)
Definition sends (log : list event) : list item :=
  omap (fun e => match e with EvSend i _ => Some i | _ => None end) log.
Definition accepted (log : list event) : list item :=
  omap (fun e => match e with EvDeliver i ret => if ret =? 0 then None else Some i | _ => None end) log.
Definition freed (log : list event) : list item :=
  omap (fun e => match e with EvFree i => Some i | _ => None end) log.

Lemma sends_app a b : sends (a ++ b) = sends a ++ sends b.
Proof. apply omap_app. Qed.
Lemma accepted_app a b : accepted (a ++ b) = accepted a ++ accepted b.
Proof. apply omap_app. Qed.
Lemma freed_app a b : freed (a ++ b) = freed a ++ freed b.
Proof. apply omap_app. Qed.

Lemma log_free (ps : list NetPacket) :
  let log := map (EvFree ∘ item_of) ps in
  sends log = [] /\ accepted log = [] /\ freed log = map item_of ps.
Proof. cbn zeta. induction ps as [|p ps (H1 & H2 & H3)]; [done|]. split_and!; [done|done|]. cbn. by rewrite <- H3. Qed.

Arguments sends : simpl never.
Arguments accepted : simpl never.
Arguments freed : simpl never.

Definition packet_ok (p : NetPacket) : Prop :=
  np_size p = Z.of_nat (length (np_data p)) /\ np_size p < 2 ^ 31.

Definition call_ok (c : call) : Prop :=
  match c with
  | CallSend _ _ data _ => Z.of_nat (length data) < 2 ^ 31
  | CallSendIov _ _ iov _ => Z.of_nat (length (concat iov)) < 2 ^ 31
  | _ => True
  end.

(** What the queue needs of its users: packets and results fit an [int]. *)
Record handlers_ok {W} (H : handlers W) : Prop := {
  deliver_calls w se fl d n : Forall call_ok (snd (fst (deliver H w se fl d n)));
  deliver_ret w se fl d n : is_s 32 (snd (deliver H w se fl d n));
  deliver_iov_calls w se fl v : Forall call_ok (snd (fst (deliver_iov H w se fl v)));
  deliver_iov_ret w se fl v : is_s 32 (snd (deliver_iov H w se fl v));
  sent_calls w cb se r : Forall call_ok (snd (sent H w cb se r))
}.

(** Every packet handed to the queue is in exactly one place: accepted by the handler,
    freed by a purge, queued, or ([fl]) being delivered. *)
Definition conserved {W} (fl : list item) (s : qstate W) : Prop :=
  sends (st_log s) ≡ₚ fl ++ accepted (st_log s) ++ freed (st_log s) ++ map item_of (packets s) /\
  Forall packet_ok (packets s).

Lemma item_of_ok p : packet_ok p -> item_of p = mkItem (np_sender p) (np_flags p) (np_data p).
Proof. intros [H _]. unfold item_of. by rewrite H, Nat2Z.id, firstn_all. Qed.

Lemma s32_length {A} (l : list A) : Z.of_nat (length l) < 2 ^ 31 -> s32 (Z.of_nat (length l)) = Z.of_nat (length l).
Proof. intros. apply swrap_small; [lia|]. unfold is_s. simpl. lia. Qed.

Lemma iov_fill_ok iov pre n k :
  Z.of_nat (length pre + length (concat iov)) < 2 ^ 31 ->
  n = Z.of_nat (length pre) -> k = length (concat iov) ->
  iov_fill iov (map Some pre ++ replicate k None) n =
  Ret (map Some (pre ++ concat iov), Z.of_nat (length (pre ++ concat iov))).
Proof.
  revert pre n k. induction iov as [|x iov IH]; intros pre n k Hb -> ->; cbn [iov_fill concat].
  { cbn [length replicate]. by rewrite !app_nil_r. }
  cbn [concat] in *. rewrite length_app in Hb |- *.
  rewrite store_ok by (rewrite ?length_app, ?length_map, ?length_replicate; lia). cbn [oget obind].
  rewrite Nat2Z.id, take_app_length' by (by rewrite length_map).
  rewrite drop_app_ge, length_map by (rewrite !length_map; lia).
  replace (length pre + length x - length (map Some pre))%nat with (length x) by (rewrite length_map; lia).
  rewrite drop_replicate, app_assoc, <- map_app. replace (length x + length (concat iov) - length x)%nat with (length (concat iov)) by lia.
  replace (Z.of_nat (length pre) + Z.of_nat (length x)) with (Z.of_nat (length (pre ++ x))) by (rewrite length_app; lia).
  rewrite s32_length by (rewrite length_app; lia).
  rewrite IH; [by rewrite app_assoc|rewrite length_app; lia|done|done].
Qed.

Lemma iov_total iov n :
  0 <= n -> n + Z.of_nat (length (concat iov)) < 2 ^ 31 ->
  foldl (fun n piece => u64 (n + Z.of_nat (length piece))) n iov = n + Z.of_nat (length (concat (A:=Z) iov)).
Proof.
  revert n. induction iov as [|x iov IH]; intros n Hn Hb; cbn [foldl concat length] in *; [lia|].
  rewrite length_app in *. rewrite wrap_small by (unfold is_u; lia). rewrite IH; lia.
Qed.

Section Conservation.
Context {W : Type} (H : handlers W) (HOK : handlers_ok H).
Implicit Types (s : qstate W).

(** Scattered and contiguous packets are queued alike. *)
Lemma append_iov_append s se fl iov cb :
  Z.of_nat (length (concat iov)) < 2 ^ 31 ->
  qemu_net_queue_append_iov s se fl iov cb = Ret (qemu_net_queue_append s se fl (concat iov) cb).
Proof.
  intros Hb. unfold qemu_net_queue_append_iov, qemu_net_queue_append.
  rewrite iov_total by lia. rewrite Z.add_0_l, Nat2Z.id.
  change (replicate (length (concat iov)) None) with (map (@Some Z) [] ++ replicate (length (concat iov)) None).
  rewrite iov_fill_ok by (done || lia). cbn [obind app]. by rewrite mapM_id_Some, s32_length.
Qed.

Lemma conserved_append fl s se fg d cb :
  Z.of_nat (length d) < 2 ^ 31 ->
  conserved (mkItem se fg d :: fl) s -> conserved fl (snd (qemu_net_queue_append s se fg d cb)).
Proof.
  intros Hd [Hp Hf]. unfold qemu_net_queue_append. cbn [snd]. rewrite s32_length by done.
  split; unfold packets in *; cbn.
  - rewrite Hp, map_app. cbn [map]. rewrite !app_assoc, <- Permutation_cons_append. cbn [app].
    rewrite <- !app_assoc. by rewrite item_of_ok.
  - apply Forall_app. split; [done|]. by apply Forall_singleton.
Qed.

Lemma conserved_send fl s i b : conserved fl s -> conserved (i :: fl) (note s [EvSend i b]).
Proof.
  intros [Hp Hf]. split; [|done]. unfold packets in *. cbn.
  rewrite sends_app, accepted_app, freed_app. change (sends [EvSend i b]) with [i].
  change (accepted [EvSend i b]) with (@nil item). change (freed [EvSend i b]) with (@nil item).
  by rewrite !app_nil_r, <- Permutation_cons_append, Hp.
Qed.

Lemma partition_permutation {A} (f : A -> bool) (l : list A) :
  l ≡ₚ List.filter f l ++ List.filter (fun x => negb (f x)) l.
Proof.
  induction l as [|x l IH]; [done|]. cbn. destruct (f x); cbn.
  - by rewrite <- IH.
  - by rewrite <- Permutation_middle, <- IH.
Qed.

Lemma conserved_purge fl s from : conserved fl s -> conserved fl (qemu_net_queue_purge s from).
Proof.
  intros [Hp Hf]. unfold qemu_net_queue_purge. split; unfold packets in *; cbn.
  2: { apply List.Forall_forall. intros p Hin. apply filter_In in Hin as [Hin _].
       by apply (proj1 (List.Forall_forall _ _) Hf). }
  set (ps := nq_packets _) in *. rewrite sends_app, accepted_app, freed_app, Hp.
  destruct (log_free (List.filter (from_sender from) ps)) as (-> & -> & ->).
  rewrite !app_nil_r, <- !app_assoc. do 3 f_equiv. rewrite <- map_app.
  apply Permutation_map, partition_permutation.
Qed.

Lemma conserved_delivered fl s i ret b :
  conserved (i :: fl) s ->
  conserved (if ret =? 0 then i :: fl else fl) (set_delivering (note s [EvDeliver i ret]) b).
Proof.
  intros [Hp Hf]. split; [|done]. unfold packets in *. cbn.
  rewrite sends_app, accepted_app, freed_app. change (sends [EvDeliver i ret]) with (@nil item).
  change (freed [EvDeliver i ret]) with (@nil item).
  assert (accepted [EvDeliver i ret] = if ret =? 0 then [] else [i]) as -> by (unfold accepted; cbn; by destruct (ret =? 0)).
  rewrite !app_nil_r, Hp. destruct (ret =? 0); [by rewrite app_nil_r|].
  rewrite <- !app_assoc. cbn [app]. by rewrite !Permutation_middle.
Qed.

Section Calls.
Variable calls : list call -> qstate W -> outcome queue_exn (qstate W).
Variable flush : qstate W -> outcome queue_exn (qstate W).
Hypothesis Hcalls : forall cs fl s s', Forall call_ok cs -> conserved fl s -> calls cs s = Ret s' -> conserved fl s'.
Hypothesis Hflush : forall fl s s', conserved fl s -> flush s = Ret s' -> conserved fl s'.

Lemma conserved_deliver fl s se fg d n ret s' :
  conserved (mkItem se fg (take (Z.to_nat n) d) :: fl) s ->
  qemu_net_queue_deliver H calls s se fg d n = Ret (ret, s') ->
  conserved (if ret =? 0 then mkItem se fg (take (Z.to_nat n) d) :: fl else fl) s' /\ is_s 32 ret.
Proof using HOK Hcalls.
  intros Hc. unfold qemu_net_queue_deliver.
  pose proof (deliver_calls H HOK (st_world s) se fg d n) as Hk.
  pose proof (deliver_ret H HOK (st_world s) se fg d n) as Hr. cbn [st_world set_delivering].
  destruct (deliver H (st_world s) se fg d n) as [[w cs] r].
  intros (s1 & E & [= <- <-])%obind_ret_inv. split; [|done].
  apply conserved_delivered. refine (Hcalls _ _ _ _ Hk (_ : conserved _ (set_world (set_delivering s true) w)) E). exact Hc.
Qed.

Lemma conserved_deliver_iov fl s se fg v ret s' :
  conserved (mkItem se fg (concat v) :: fl) s ->
  qemu_net_queue_deliver_iov H calls s se fg v = Ret (ret, s') ->
  conserved (if ret =? 0 then mkItem se fg (concat v) :: fl else fl) s'.
Proof using HOK Hcalls.
  intros Hc. unfold qemu_net_queue_deliver_iov.
  pose proof (deliver_iov_calls H HOK (st_world s) se fg v) as Hk. cbn [st_world set_delivering].
  destruct (deliver_iov H (st_world s) se fg v) as [[w cs] r].
  intros (s1 & E & [= <- <-])%obind_ret_inv.
  apply conserved_delivered. refine (Hcalls _ _ _ _ Hk (_ : conserved _ (set_world (set_delivering s true) w)) E). exact Hc.
Qed.

Lemma conserved_send_call fl s se fg d cb r s' :
  call_ok (CallSend se fg d cb) -> conserved fl s ->
  qemu_net_queue_send H calls flush s se fg d cb = Ret (r, s') -> conserved fl s'.
Proof using HOK Hcalls Hflush.
  intros Hd Hc%(conserved_send _ _ (mkItem se fg d) (nq_delivering (st_queue s))). unfold qemu_net_queue_send.
  cbn [note st_queue]. destruct (nq_delivering (st_queue s)).
  { intros [= <- <-]. by apply (conserved_append _ _ _ _ _ None) in Hc. }
  intros ([ret s1] & E & Hk)%obind_ret_inv. apply (conserved_deliver fl) in E as [Hc1 _].
  2: by rewrite Nat2Z.id, firstn_all.
  rewrite Nat2Z.id, firstn_all in Hc1. destruct (ret =? 0).
  - inversion Hk; subst. by apply (conserved_append _ _ _ _ _ cb) in Hc1.
  - apply obind_ret_inv in Hk as (s2 & E2 & [= <- <-]). by eapply Hflush.
Qed.

Lemma conserved_send_iov_call fl s se fg v cb r s' :
  call_ok (CallSendIov se fg v cb) -> conserved fl s ->
  qemu_net_queue_send_iov H calls flush s se fg v cb = Ret (r, s') -> conserved fl s'.
Proof using HOK Hcalls Hflush.
  intros Hd Hc%(conserved_send _ _ (mkItem se fg (concat v)) (nq_delivering (st_queue s))). unfold qemu_net_queue_send_iov.
  cbn [note st_queue]. destruct (nq_delivering (st_queue s)).
  { rewrite append_iov_append by done. intros [= <- <-]. by apply (conserved_append _ _ _ _ _ None) in Hc. }
  intros ([ret s1] & E & Hk)%obind_ret_inv. apply (conserved_deliver_iov fl) in E as Hc1; [|done].
  destruct (ret =? 0).
  - rewrite append_iov_append in Hk by done. cbn in Hk. inversion Hk; subst.
    by apply (conserved_append _ _ _ _ _ cb) in Hc1.
  - apply obind_ret_inv in Hk as (s2 & E2 & [= <- <-]). by eapply Hflush.
Qed.

Lemma conserved_flush_turn fl s p rest more s' :
  packets s = p :: rest -> conserved fl s -> flush_turn H calls s p rest = Ret (more, s') -> conserved fl s'.
Proof using HOK Hcalls.
  intros Ep [Hp Hf]. rewrite Ep in Hp, Hf. apply Forall_cons in Hf as [Hok Hf].
  assert (conserved (item_of p :: fl) (set_packets s rest)) as Hc.
  { split; [|done]. unfold packets. cbn. rewrite Hp. cbn [map]. by rewrite !app_assoc, <- Permutation_middle. }
  unfold flush_turn. intros ([ret s1] & E & Hk)%obind_ret_inv.
  apply (conserved_deliver fl) in E as [Hc1 Hr]; [|done]. fold (item_of p) in Hc1.
  rewrite swrap_small in Hk by (done || lia). destruct (ret =? 0).
  { injection Hk as <- <-. destruct Hc1 as [Hp1 Hf1]. split; unfold packets in *; cbn; [|by constructor].
    rewrite Hp1. cbn [app]. by rewrite !app_assoc, <- Permutation_middle. }
  destruct (np_sent_cb p) as [cb|]; [|congruence].
  pose proof (sent_calls H HOK (st_world s1) cb (np_sender p) ret) as Hs.
  destruct (sent H (st_world s1) cb (np_sender p) ret) as [w cs].
  apply obind_ret_inv in Hk as (s2 & E2 & [= <- <-]). apply (Hcalls _ fl _ _ Hs) in E2; [exact E2|].
  destruct Hc1 as [Hp1 Hf1]. split; [|done]. unfold packets in *. cbn.
  rewrite sends_app, accepted_app, freed_app. by rewrite !app_nil_r.
Qed.
End Calls.

Lemma run_calls_ind (P : qstate W -> Prop) (Q : call -> Prop) run cs s s' :
  (forall c s r s', Q c -> P s -> run c s = Ret (r, s') -> P s') ->
  Forall Q cs -> P s -> run_calls run cs s = Ret s' -> P s'.
Proof.
  intros Hr. revert s. induction cs as [|c cs IH]; intros s Hq Hs E; cbn in E.
  - by injection E as <-.
  - apply Forall_cons in Hq as [Hq1 Hq2]. apply obind_ret_inv in E as ([r s1] & E1 & E2). eauto.
Qed.

Lemma conserved_exec fuel fl c s r s' :
  call_ok c -> conserved fl s -> exec H fuel c s = Ret (r, s') -> conserved fl s'.
Proof using HOK.
  revert fl c s r s'. induction fuel as [|fuel IH]; intros fl c s r s' Hok Hc E; [done|]. cbn [exec] in E.
  set (calls := run_calls (exec H fuel)) in *.
  assert (forall cs fl s s', Forall call_ok cs -> conserved fl s -> calls cs s = Ret s' -> conserved fl s') as Hcalls.
  { intros cs fl' t t' Hcs Ht. apply (run_calls_ind (conserved fl') call_ok); [|done|done].
    intros. by eapply IH. }
  assert (forall fl s s', conserved fl s -> (let! '(_, s) := exec H fuel CallFlush s in Ret s) = Ret s' -> conserved fl s') as Hflush.
  { intros fl' t t' Ht ([r0 t0] & E0 & [= <-])%obind_ret_inv. by apply (IH fl' CallFlush t r0). }
  destruct c as [se fg d cb|se fg v cb|from|].
  - by apply (conserved_send_call calls _ Hcalls Hflush fl) in E.
  - by apply (conserved_send_iov_call calls _ Hcalls Hflush fl) in E.
  - injection E as <- <-. by apply conserved_purge.
  - destruct (packets s) as [|p rest] eqn:Ep; [by injection E as <- <-|].
    apply obind_ret_inv in E as ([more s1] & E1 & E2).
    apply (conserved_flush_turn calls Hcalls fl) in E1; [|done|done].
    destruct more; [by apply (IH fl CallFlush s1 r)|by injection E2 as <- <-].
Qed.
End Conservation.

(** ** The flag [delivering] *)
Section Flag.
Context {W : Type} (H : handlers W).
Implicit Types (s : qstate W).

Abbreviation idle s := (nq_delivering (st_queue s) = false).

Lemma deliver_idle calls s se fg d n ret s' :
  qemu_net_queue_deliver H calls s se fg d n = Ret (ret, s') -> idle s'.
Proof.
  unfold qemu_net_queue_deliver. destruct (deliver _ _ _ _ _ _) as [[w cs] r].
  by intros (s1 & E & [= <- <-])%obind_ret_inv.
Qed.

Lemma exec_idle fuel c s r s' : idle s -> exec H fuel c s = Ret (r, s') -> idle s'.
Proof.
  revert c s r s'. induction fuel as [|fuel IH]; intros c s r s' Hi E; [done|]. cbn [exec] in E.
  destruct c as [se fg d cb|se fg v cb|from|].
  - unfold qemu_net_queue_send in E. cbn [st_queue note] in E. rewrite Hi in E.
    apply obind_ret_inv in E as ([ret s1] & E1 & E). apply deliver_idle in E1. destruct (ret =? 0).
    + by inversion E; subst.
    + apply obind_ret_inv in E as (s2 & E2 & [= <- <-]).
      apply obind_ret_inv in E2 as ([r3 s3] & E3 & [= <-]). by eapply IH.
  - unfold qemu_net_queue_send_iov in E. cbn [st_queue note] in E. rewrite Hi in E.
    apply obind_ret_inv in E as ([ret s1] & E1 & E).
    assert (idle s1) as Hi1.
    { unfold qemu_net_queue_deliver_iov in E1. destruct (deliver_iov _ _ _ _ _) as [[w cs] q].
      by apply obind_ret_inv in E1 as (s2 & E2 & [= <- <-]). }
    destruct (ret =? 0).
    + unfold qemu_net_queue_append_iov in E. apply obind_ret_inv in E as ([r3 s3] & E3 & [= <- <-]).
      apply obind_ret_inv in E3 as ([d n] & _ & E3). by apply obind_ret_inv in E3 as (d' & _ & [= <- <-]).
    + apply obind_ret_inv in E as (s2 & E2 & [= <- <-]).
      apply obind_ret_inv in E2 as ([r3 s3] & E3 & [= <-]). by eapply IH.
  - by injection E as <- <-.
  - destruct (packets s) as [|p rest] eqn:Ep; [by injection E as <- <-|].
    apply obind_ret_inv in E as ([more s1] & E1 & E2).
    assert (idle s1) as Hi1.
    { unfold flush_turn in E1. apply obind_ret_inv in E1 as ([ret s2] & E3 & E1). apply deliver_idle in E3.
      destruct (_ =? 0); [by injection E1 as <- <-|]. destruct (np_sent_cb p); [|by injection E1 as <- <-].
      destruct (sent _ _ _ _ _) as [w cs]. apply obind_ret_inv in E1 as (s4 & E4 & [= <- <-]).
      refine (run_calls_ind (fun s => idle s) (fun _ => True) _ _ _ _ _ _ _ E4).
      - intros. by eapply IH.
      - by apply Forall_true.
      - done. }
    destruct more; [by eapply IH|by injection E2 as <- <-].
Qed.
End Flag.

Definition fresh {W} (w : W) : qstate W := mkQstate qemu_new_net_queue w [].

(** A network back end that takes one packet out of two and answers every packet it
    takes from client 1 with a packet of client 2, while it is being called. *)
Definition echo : handlers Z := mkHandlers
  (fun w se fg d n => (w + 1, if (Z.even w) && (se =? 1) then [CallSend 2 fg [7; 7] None] else [], if Z.even w then 1 else 0))
  (fun w se fg v => (w + 1, [], if Z.even w then 1 else 0))
  (fun w cb se r => (w, [])).

(** No packet is lost or duplicated, whatever the delivery handler and the sent
    callbacks do to the queue while they run (including sends, purges and flushes from
    inside a delivery): after any sequence of calls on a new queue, every packet handed
    to it has been accepted by the handler, or freed by a purge, or is queued, each
    exactly once and with its bytes unchanged, and the queue is not left marked as
    delivering.  Packets sent in scattered form are included. *)
Theorem net_queue_conserves {W} (H : handlers W) (fuel : nat) (ops : list call) (w : W) (s : qstate W) :
  handlers_ok H -> Forall call_ok ops ->
  run_calls (exec H fuel) ops (fresh w) = Ret s ->
  sends (st_log s) ≡ₚ accepted (st_log s) ++ freed (st_log s) ++ map item_of (packets s) /\
  nq_delivering (st_queue s) = false.
Proof.
  intros HOK Hops E. split.
  - refine (proj1 (run_calls_ind (conserved []) call_ok _ _ _ _ _ Hops _ E)).
    + intros c t r t' Hc Ht Et. by apply (conserved_exec H HOK fuel [] c t r).
    + by split; [|constructor].
  - refine (run_calls_ind (fun s => nq_delivering (st_queue s) = false) (fun _ => True) _ _ _ _ _ _ _ E).
    + intros c t r t' _ Ht Et. by eapply exec_idle.
    + by apply Forall_true.
    + done.
Qed.

Lemma echo_ok : handlers_ok echo.
Proof.
  assert (forall w : Z, is_s 32 (if Z.even w then 1 else 0)) as Hb.
  { intros w. unfold is_s. cbn. by destruct (Z.even w). }
  split; intros; cbn [echo deliver deliver_iov sent fst snd]; try apply Hb; try apply Forall_nil_2.
  destruct (_ && _); by repeat constructor.
Qed.

Definition echo_ops : list call :=
  [CallSend 1 0 [10; 11] (Some 5); CallSendIov 1 0 [[12]; [13; 14]] (Some 5); CallPurge 2; CallFlush].

Definition echo_end : qstate Z :=
  match run_calls (exec echo 9) echo_ops (fresh 0) with Ret s => s | _ => fresh 0 end.

Lemma net_queue_conserves_witness :
  sends (st_log echo_end) ≡ₚ accepted (st_log echo_end) ++ freed (st_log echo_end) ++ map item_of (packets echo_end) /\
  nq_delivering (st_queue echo_end) = false.
Proof.
  apply (net_queue_conserves echo 9 echo_ops 0).
  - exact echo_ok.
  - repeat constructor.
  - vm_compute. reflexivity.
Defined.

(** ** Flushing *)
(** Handlers that do not call the queue they are called from. *)
Record passive {W} (H : handlers W) : Prop := {
  passive_deliver w se fg d n : snd (fst (deliver H w se fg d n)) = [];
  passive_deliver_iov w se fg v : snd (fst (deliver_iov H w se fg v)) = [];
  passive_sent w cb se r : snd (sent H w cb se r) = []
}.

Definition callbacks (log : list event) : list (Z * Z) :=
  omap (fun e => match e with EvSent cb se _ => Some (cb, se) | _ => None end) log.
Arguments callbacks : simpl never.

Definition callback_of (p : NetPacket) : option (Z * Z) :=
  match np_sent_cb p with Some cb => Some (cb, np_sender p) | None => None end.

(** What a flush that starts with [ps] queued and ends with [rest] queued does. *)
Definition flushed (ps rest : list NetPacket) (es : list event) : Prop :=
  exists sent_out, ps = sent_out ++ rest /\
    accepted es = map item_of sent_out /\ sends es = [] /\ freed es = [] /\
    callbacks es = omap callback_of sent_out /\
    (rest = [] \/ exists p, hd_error rest = Some p /\ last es = Some (EvDeliver (item_of p) 0)).

Section Flush.
Context {W : Type} (H : handlers W) (HOK : handlers_ok H) (HP : passive H).
Implicit Types (s : qstate W).

Lemma passive_turn calls s p rest :
  (forall s, calls [] s = Ret s) ->
  exists (more : bool) s' es, flush_turn H calls s p rest = Ret (more, s') /\ st_log s' = st_log s ++ es /\
    nq_delivering (st_queue s') = false /\
    if more then packets s' = rest /\ exists ret tl, ret <> 0 /\ es = EvDeliver (item_of p) ret :: tl /\
      accepted tl = [] /\ sends tl = [] /\ freed tl = [] /\ callbacks tl = option_list (callback_of p)
    else packets s' = p :: rest /\ es = [EvDeliver (item_of p) 0].
Proof using HOK HP.
  intros Hn. unfold flush_turn, qemu_net_queue_deliver. cbn [st_world set_delivering set_packets].
  pose proof (passive_deliver H HP (st_world s) (np_sender p) (np_flags p) (np_data p) (np_size p)) as Ed.
  pose proof (deliver_ret H HOK (st_world s) (np_sender p) (np_flags p) (np_data p) (np_size p)) as Hr.
  destruct (deliver _ _ _ _ _ _) as [[w cs] ret]. cbn [fst snd] in *. subst cs. rewrite Hn. cbn [obind].
  rewrite swrap_small by (done || lia). destruct (ret =? 0) eqn:Er; bool_hyps.
  { subst. do 3 eexists. split; [done|]. by split_and!. }
  unfold callback_of. destruct (np_sent_cb p) as [cb|].
  - cbn [set_delivering note set_world st_world].
    pose proof (passive_sent H HP w cb (np_sender p) ret) as Es.
    destruct (sent _ _ _ _ _) as [w' cs]. cbn [snd] in Es. subst cs. rewrite Hn. cbn [obind].
    do 3 eexists. split; [done|]. cbn. rewrite <- app_assoc. split_and!; [done..|].
    eexists _, [EvSent cb (np_sender p) ret]. by split_and!.
  - do 3 eexists. split; [done|]. cbn. split_and!; [done..|]. eexists _, []. by split_and!.
Qed.

Lemma flush_total ps : forall fuel s,
  packets s = ps -> (length ps < fuel)%nat ->
  exists s' es, exec H fuel CallFlush s = Ret (0, s') /\ st_log s' = st_log s ++ es /\
    flushed ps (packets s') es.
Proof using HOK HP.
  induction ps as [|p ps IH]; intros fuel s Ep Hf; (destruct fuel as [|fuel]; [cbn in Hf; lia|]); cbn [exec].
  { rewrite Ep. exists s, []. rewrite app_nil_r. split_and!; [done|done|]. exists []. rewrite Ep. split_and!; auto. }
  rewrite Ep. destruct (passive_turn (run_calls (exec H fuel)) s p ps (fun _ => eq_refl))
    as (more & s1 & es1 & -> & El & _ & Hm). cbn [obind]. destruct more.
  - destruct Hm as (Ep1 & ret & tl & Hret & -> & Ha & Hs & Hfr & Hc).
    destruct (IH fuel s1 Ep1) as (s2 & es2 & E2 & El2 & (out & Eps & Ha2 & Hs2 & Hf2 & Hc2 & Hl)); [cbn in Hf; lia|].
    exists s2, ((EvDeliver (item_of p) ret :: tl) ++ es2). rewrite E2, El2, El, app_assoc. split_and!; [done|done|].
    exists (p :: out). rewrite accepted_app, sends_app, freed_app, Hs2, Hf2, !app_nil_r.
    split_and!; [cbn; by f_equal| |exact Hs|exact Hfr| |].
    + assert (accepted (EvDeliver (item_of p) ret :: tl) = item_of p :: accepted tl) as ->.
      { unfold accepted. cbn. by rewrite (proj2 (Z.eqb_neq _ _) Hret). }
      rewrite Ha, Ha2. done.
    + unfold callbacks in *. rewrite omap_app. cbn [omap list_omap]. rewrite Hc, Hc2. cbn. by destruct (callback_of p).
    + destruct Hl as [Hl|(q & Hq & Hl)]; [by left|right]. exists q. split; [done|].
      rewrite last_app, Hl. done.
  - destruct Hm as (Ep1 & ->). exists s1, [EvDeliver (item_of p) 0]. split_and!; [done|done|].
    rewrite Ep1. exists []. split_and!; try done. right. by exists p.
Qed.

Lemma passive_deliver_returns calls s se fg d n :
  (forall s, calls [] s = Ret s) ->
  exists ret s', qemu_net_queue_deliver H calls s se fg d n = Ret (ret, s') /\ packets s' = packets s.
Proof using HP.
  intros Hn. unfold qemu_net_queue_deliver. cbn [st_world set_delivering].
  pose proof (passive_deliver H HP (st_world s) se fg d n) as Ed.
  destruct (deliver _ _ _ _ _ _) as [[w cs] ret]. cbn [fst snd] in *. subst cs. rewrite Hn. cbn [obind]. eauto.
Qed.

Lemma passive_deliver_iov_returns calls s se fg v :
  (forall s, calls [] s = Ret s) ->
  exists ret s', qemu_net_queue_deliver_iov H calls s se fg v = Ret (ret, s') /\ packets s' = packets s.
Proof using HP.
  intros Hn. unfold qemu_net_queue_deliver_iov. cbn [st_world set_delivering].
  pose proof (passive_deliver_iov H HP (st_world s) se fg v) as Ed.
  destruct (deliver_iov _ _ _ _ _) as [[w cs] ret]. cbn [fst snd] in *. subst cs. rewrite Hn. cbn [obind]. eauto.
Qed.

Lemma passive_returns fuel c s :
  call_ok c -> (length (packets s) < fuel)%nat -> exists r s', exec H (S fuel) c s = Ret (r, s').
Proof using HOK HP.
  intros Hok Hf. destruct c as [se fg d cb|se fg v cb|from|].
  - cbn [exec]. unfold qemu_net_queue_send. cbn [note st_queue]. destruct (nq_delivering (st_queue s)); [eauto|].
    destruct (passive_deliver_returns (run_calls (exec H fuel)) (note s [EvSend (mkItem se fg d) false]) se fg d
                (Z.of_nat (length d)) (fun _ => eq_refl)) as (ret & s1 & -> & Ep). cbn [obind].
    destruct (ret =? 0); [cbn; eauto|].
    destruct (flush_total _ fuel s1 eq_refl) as (s2 & es & -> & _); [by rewrite Ep|cbn; eauto].
  - cbn [exec]. unfold qemu_net_queue_send_iov. cbn [note st_queue]. destruct (nq_delivering (st_queue s)); [rewrite append_iov_append by done; cbn; eauto|].
    destruct (passive_deliver_iov_returns (run_calls (exec H fuel)) (note s [EvSend (mkItem se fg (concat v)) false]) se fg v
                (fun _ => eq_refl)) as (ret & s1 & -> & Ep). cbn [obind].
    destruct (ret =? 0); [rewrite append_iov_append by done; cbn; eauto|].
    destruct (flush_total _ fuel s1 eq_refl) as (s2 & es & -> & _); [by rewrite Ep|cbn; eauto].
  - cbn. eauto.
  - destruct (flush_total _ (S fuel) s eq_refl) as (s2 & es & -> & _); [lia|eauto].
Qed.
End Flush.

(** C19. Flushing terminates and is in order: with handlers that do not call the queue
    back, [qemu_net_queue_flush] on [n] queued packets returns within [n + 1] turns, and
    what it did is a prefix of the queue: those packets were accepted by the handler in
    the order they were queued, the sent callback of each that has one was called, in that
    order and once, nothing else was sent or freed, and the rest stays queued in order,
    its first packet being the one the handler refused last.  Under the same conditions
    every other operation returns as well. *)
Theorem net_queue_flush_correct {W} (H : handlers W) (s : qstate W) (fuel : nat) :
  handlers_ok H -> passive H -> (length (packets s) < fuel)%nat ->
  (exists s' es, exec H fuel CallFlush s = Ret (0, s') /\ st_log s' = st_log s ++ es /\
     flushed (packets s) (packets s') es) /\
  (forall c, call_ok c -> exists r s', exec H (S fuel) c s = Ret (r, s')).
Proof.
  intros HOK HP Hf. split.
  - by apply flush_total.
  - intros c Hc. by apply passive_returns.
Qed.

(** A back end with room for [w] more packets. *)
Definition room : handlers Z := mkHandlers
  (fun w se fg d n => if w =? 0 then (w, [], 0) else (w - 1, [], 1))
  (fun w se fg v => if w =? 0 then (w, [], 0) else (w - 1, [], 1))
  (fun w cb se r => (w, [])).

Lemma room_ok : handlers_ok room /\ passive room.
Proof.
  split; split; intros; cbn [room deliver deliver_iov sent]; try destruct (w =? 0); cbn [fst snd];
    first [done | by constructor | unfold is_s; cbn; lia].
Qed.

Definition two_queued : qstate Z :=
  mkQstate (mkQueue [mkPacket 1 0 1 (Some 5) [10]; mkPacket 2 0 2 None [11; 12]] false) 1 [].

Lemma net_queue_flush_correct_witness :
  exists s' es, exec room 3 CallFlush two_queued = Ret (0, s') /\ st_log s' = st_log two_queued ++ es /\
     flushed (packets two_queued) (packets s') es.
Proof.
  apply (net_queue_flush_correct room two_queued 3).
  - apply room_ok.
  - apply room_ok.
  - cbn. lia.
Defined.
