(* ===== verification/NetQueueOrder.v ===== *)
(** * Order in the packet queue: net/queue.c

    Packets of one client keep their order, though delivery handlers and sent callbacks call
    the queue again; and such runs end when the users' further packets are limited. *)

From S2P Require Import Prelude NetQueue.
From stdpp Require Import list sorting.

Open Scope Z_scope.

(** ** Order *)
Definition by_sender (x : Z) (l : list item) : list item := List.filter (fun i => it_sender i =? x) l.
Definition pending {W} (x : Z) (s : qstate W) : list item := by_sender x (map item_of (packets s)).

(** For each client, what was accepted, is being delivered ([fl]) and is queued, in this
    order, are packets it sent, in the order it sent them. *)
Definition fifo {W} (fl : list item) (s : qstate W) : Prop :=
  forall x, (by_sender x (accepted (st_log s)) ++ by_sender x fl ++ pending x s)
              `sublist_of` by_sender x (sends (st_log s)).

(** A reply sent from inside a delivery does not come from the client whose packet is
    being delivered, and there is no flush there. *)
Definition reply_ok (se : Z) (c : call) : Prop :=
  match c with
  | CallSend x _ _ _ | CallSendIov x _ _ _ => x <> se /\ call_ok c
  | CallPurge _ => True
  | CallFlush => False
  end.
Record replies {W} (H : handlers W) : Prop := {
  replies_deliver w se fg d n : Forall (reply_ok se) (snd (fst (deliver H w se fg d n)));
  replies_deliver_iov w se fg v : Forall (reply_ok se) (snd (fst (deliver_iov H w se fg v)))
}.

(** The contract of net/queue.c, read off the events: a client that sends outside of a
    delivery has no packet waiting, each that it sent before was accepted or purged. *)
Definition waited (log : list event) (x : Z) : bool :=
  (length (by_sender x (sends log)) =? length (by_sender x (accepted log)) + length (by_sender x (freed log)))%nat.
Fixpoint polite (before log : list event) : bool :=
  match log with
  | [] => true
  | e :: log => match e with EvSend i false => waited before (it_sender i) | _ => true end && polite (before ++ [e]) log
  end.

Lemma polite_app l0 l1 l2 : polite l0 (l1 ++ l2) = polite l0 l1 && polite (l0 ++ l1) l2.
Proof.
  revert l0. induction l1 as [|e l1 IH]; intros l0; cbn [app polite]; [by rewrite app_nil_r|]. rewrite IH, <- app_assoc. by rewrite andb_assoc.
Qed.
Lemma polite_prefix l1 l2 : l1 `prefix_of` l2 -> polite [] l2 = true -> polite [] l1 = true.
Proof. intros [l ->]. rewrite polite_app. by intros [? _]%andb_true_iff. Qed.
Lemma polite_waited l1 i l2 : l1 ++ [EvSend i false] `prefix_of` l2 -> polite [] l2 = true -> waited l1 (it_sender i) = true.
Proof. intros P Hp. apply (polite_prefix _ _ P) in Hp. rewrite polite_app in Hp. cbn in Hp. apply andb_true_iff in Hp as [_ Hp]. by apply andb_true_iff in Hp as [? _]. Qed.

Lemma by_sender_app x a b : by_sender x (a ++ b) = by_sender x a ++ by_sender x b.
Proof. apply List.filter_app. Qed.

Lemma by_sender_perm x a b : a ≡ₚ b -> by_sender x a ≡ₚ by_sender x b.
Proof.
  unfold by_sender. induction 1; cbn; [done|by destruct (_ =? _); [constructor|]|repeat destruct (_ =? _); (done || by constructor)|by etransitivity].
Qed.

Lemma by_sender_one x i : by_sender x [i] = if it_sender i =? x then [i] else [].
Proof. unfold by_sender. cbn. by destruct (_ =? _). Qed.

Section Fifo.
Context {W : Type} (H : handlers W) (HOK : handlers_ok H) (HR : replies H).
Implicit Types (s : qstate W).

Lemma pending_append x s se fg d cb :
  Z.of_nat (length d) < 2 ^ 31 ->
  pending x (snd (qemu_net_queue_append s se fg d cb)) = pending x s ++ by_sender x [mkItem se fg d].
Proof.
  intros Hd. unfold pending, qemu_net_queue_append, packets. cbn [snd set_packets st_queue nq_packets].
  rewrite map_app, by_sender_app. cbn [map]. rewrite s32_length by done.
  by rewrite item_of_ok.
Qed.

Lemma fifo_queue fl s se fg d cb b :
  Z.of_nat (length d) < 2 ^ 31 -> fifo fl s ->
  fifo fl (snd (qemu_net_queue_append (note s [EvSend (mkItem se fg d) b]) se fg d cb)).
Proof.
  intros Hd Hf x. rewrite pending_append by done. cbn [snd qemu_net_queue_append set_packets note st_log].
  rewrite accepted_app, sends_app. change (accepted [EvSend _ _]) with (@nil item).
  change (sends [EvSend ?i _]) with [i]. rewrite app_nil_r, by_sender_app, !app_assoc.
  apply sublist_app; [|done]. rewrite <- app_assoc. apply Hf.
Qed.

Lemma fifo_start s i b : pending (it_sender i) s = [] -> fifo [] s -> fifo [i] (note s [EvSend i b]).
Proof.
  intros Hp Hf x. specialize (Hf x). cbn [note st_log]. change (pending x (note s [EvSend i b])) with (pending x s).
  rewrite accepted_app, sends_app. change (accepted [EvSend _ _]) with (@nil item).
  change (sends [EvSend i b]) with [i]. rewrite app_nil_r, by_sender_app, by_sender_one.
  destruct (Z.eqb_spec (it_sender i) x) as [<-|Hne]; [|by rewrite app_nil_r].
  rewrite Hp in *. rewrite !app_nil_r in Hf. rewrite app_nil_r. by apply sublist_app.
Qed.

Lemma pending_purge x s from : pending x (qemu_net_queue_purge s from) `sublist_of` pending x s.
Proof.
  unfold pending. change (packets (qemu_net_queue_purge s from)) with (List.filter (fun p => negb (from_sender from p)) (packets s)).
  induction (packets s) as [|p l IH]; [constructor|].
  cbn. destruct (from_sender from p); cbn; destruct (_ =? x); by repeat constructor.
Qed.

Lemma fifo_purge fl s from : fifo fl s -> fifo fl (qemu_net_queue_purge s from).
Proof.
  intros Hf x. unfold qemu_net_queue_purge. cbn [note set_packets st_log].
  rewrite accepted_app, sends_app. destruct (log_free (List.filter (from_sender from) (packets s))) as (-> & -> & _).
  rewrite !app_nil_r. etransitivity; [|apply Hf]. do 2 (apply sublist_app; [done|]). apply pending_purge.
Qed.

Lemma fifo_delivered s i ret b :
  fifo [i] s -> fifo (if ret =? 0 then [i] else []) (set_delivering (note s [EvDeliver i ret]) b).
Proof.
  intros Hf x. specialize (Hf x). cbn [set_delivering note st_log]. rewrite accepted_app, sends_app.
  change (sends [EvDeliver i ret]) with (@nil item). rewrite app_nil_r.
  assert (accepted [EvDeliver i ret] = if ret =? 0 then [] else [i]) as -> by (unfold accepted; cbn; by destruct (ret =? 0)).
  change (pending x (set_delivering _ _)) with (pending x s).
  destruct (ret =? 0); [by rewrite app_nil_r|]. by rewrite by_sender_app, <- app_assoc.
Qed.

(** While a packet of [se] is being delivered the queue of [se] does not grow. *)
Definition delivering_inv (se : Z) (fl q : list item) (s : qstate W) : Prop :=
  nq_delivering (st_queue s) = true /\ fifo fl s /\ pending se s `sublist_of` q.

Lemma delivering_queue se fl q s x fg d cb b :
  x <> se -> Z.of_nat (length d) < 2 ^ 31 -> delivering_inv se fl q s ->
  delivering_inv se fl q (snd (qemu_net_queue_append (note s [EvSend (mkItem x fg d) b]) x fg d cb)).
Proof.
  intros Hx Hok (Hd & Hf & Hq). split_and!; [done|by apply fifo_queue|].
  rewrite pending_append, by_sender_one by done. cbn [it_sender].
  by rewrite (proj2 (Z.eqb_neq _ _) Hx), app_nil_r.
Qed.

Lemma delivering_exec fuel se fl q c s r s' :
  reply_ok se c -> delivering_inv se fl q s -> exec H fuel c s = Ret (r, s') -> delivering_inv se fl q s'.
Proof.
  intros Hc Hi E. destruct fuel as [|fuel]; [done|]. cbn [exec] in E. pose proof (proj1 Hi) as Hd.
  destruct c as [x fg d cb|x fg v cb|from|]; [| | |done].
  - destruct Hc as [Hx Hok]. unfold qemu_net_queue_send in E. cbn [note st_queue] in E. rewrite Hd in E.
    injection E as _ <-. by apply (delivering_queue _ _ _ _ _ _ _ None).
  - destruct Hc as [Hx Hok]. unfold qemu_net_queue_send_iov in E. cbn [note st_queue] in E. rewrite Hd in E.
    rewrite append_iov_append in E by done. injection E as _ <-. by apply (delivering_queue _ _ _ _ _ _ _ None).
  - injection E as _ <-. destruct Hi as (_ & Hf & Hq). split_and!; [done|by apply fifo_purge|].
    etransitivity; [apply pending_purge|done].
Qed.

Lemma delivering_calls fuel se fl q cs s s' :
  Forall (reply_ok se) cs -> delivering_inv se fl q s ->
  run_calls (exec H fuel) cs s = Ret s' -> delivering_inv se fl q s'.
Proof.
  intros Hcs. apply (run_calls_ind (delivering_inv se fl q) (reply_ok se)); [|done].
  intros. by eapply delivering_exec.
Qed.

(** A delivery keeps the order, and does not add to the queue of the packet's client. *)
Lemma fifo_deliver fuel s se fg d n ret s' :
  fifo [mkItem se fg (take (Z.to_nat n) d)] s ->
  qemu_net_queue_deliver H (run_calls (exec H fuel)) s se fg d n = Ret (ret, s') ->
  fifo (if ret =? 0 then [mkItem se fg (take (Z.to_nat n) d)] else []) s' /\
  pending se s' `sublist_of` pending se s.
Proof using HR.
  intros Hf. unfold qemu_net_queue_deliver. cbn [st_world set_delivering].
  pose proof (replies_deliver H HR (st_world s) se fg d n) as Hk.
  destruct (deliver _ _ _ _ _ _) as [[w cs] r]. cbn [fst snd] in Hk.
  intros (s1 & E & [= <- <-])%obind_ret_inv.
  apply (delivering_calls fuel se [mkItem se fg (take (Z.to_nat n) d)] (pending se s) _ _ _ Hk) in E as (_ & Hf1 & Hp); [|split_and!; [done|exact Hf|done]].
  split; [by apply fifo_delivered|exact Hp].
Qed.

Lemma fifo_deliver_iov fuel s se fg v ret s' :
  fifo [mkItem se fg (concat v)] s ->
  qemu_net_queue_deliver_iov H (run_calls (exec H fuel)) s se fg v = Ret (ret, s') ->
  fifo (if ret =? 0 then [mkItem se fg (concat v)] else []) s' /\ pending se s' `sublist_of` pending se s.
Proof using HR.
  intros Hf. unfold qemu_net_queue_deliver_iov. cbn [st_world set_delivering].
  pose proof (replies_deliver_iov H HR (st_world s) se fg v) as Hk.
  destruct (deliver_iov _ _ _ _ _) as [[w cs] r]. cbn [fst snd] in Hk.
  intros (s1 & E & [= <- <-])%obind_ret_inv.
  apply (delivering_calls fuel se [mkItem se fg (concat v)] (pending se s) _ _ _ Hk) in E as (_ & Hf1 & Hp); [|split_and!; [done|exact Hf|done]].
  split; [by apply fifo_delivered|exact Hp].
Qed.

Lemma fifo_requeue s i cb :
  Z.of_nat (length (it_data i)) < 2 ^ 31 -> pending (it_sender i) s = [] -> fifo [i] s ->
  fifo [] (snd (qemu_net_queue_append s (it_sender i) (it_flags i) (it_data i) cb)).
Proof.
  intros Hd Hp Hf x. specialize (Hf x). rewrite pending_append by done. destruct i as [se fg d].
  cbn [it_sender it_flags it_data snd qemu_net_queue_append set_packets st_log] in *.
  rewrite by_sender_one in *. cbn [it_sender] in *. revert Hf.
  destruct (Z.eqb_spec se x) as [<-|Hne]; intros Hf; [|by rewrite app_nil_r].
  rewrite Hp in *. by rewrite app_nil_r in Hf.
Qed.


(** ** The log grows *)
Lemma note_log s es : st_log s `prefix_of` st_log (note s es).
Proof. by exists es. Qed.
Lemma run_calls_log run cs s s' : (forall c s r s', run c s = Ret (r, s') -> st_log s `prefix_of` st_log s') -> run_calls run cs s = Ret s' -> st_log s `prefix_of` st_log (W:=W) s'.
Proof.
  intros Hr. revert s. induction cs as [|c cs IH]; intros s E; cbn in E; [by injection E as <-|]. apply obind_ret_inv in E as ([r s1] & E1 & E2). etransitivity; [by eapply Hr|by apply IH].
Qed.
Lemma deliver_log calls s se fg d n r s' : (forall cs s s', calls cs s = Ret s' -> st_log s `prefix_of` st_log s') ->
  qemu_net_queue_deliver H calls s se fg d n = Ret (r, s') -> st_log s `prefix_of` st_log s'.
Proof.
  intros Hc. unfold qemu_net_queue_deliver. destruct (deliver _ _ _ _ _ _) as [[w cs] ret]. intros (s1 & E & [= <- <-])%obind_ret_inv. apply Hc in E. cbn in E |- *. etransitivity; [exact E|apply prefix_app_r; done].
Qed.
Lemma deliver_iov_log calls s se fg v r s' : (forall cs s s', calls cs s = Ret s' -> st_log s `prefix_of` st_log s') ->
  qemu_net_queue_deliver_iov H calls s se fg v = Ret (r, s') -> st_log s `prefix_of` st_log s'.
Proof.
  intros Hc. unfold qemu_net_queue_deliver_iov. destruct (deliver_iov _ _ _ _ _) as [[w cs] ret]. intros (s1 & E & [= <- <-])%obind_ret_inv. apply Hc in E. cbn in E |- *. etransitivity; [exact E|apply prefix_app_r; done].
Qed.
Lemma deliver_iov_idle calls s se fg v ret s' :
  qemu_net_queue_deliver_iov H calls s se fg v = Ret (ret, s') -> nq_delivering (st_queue s') = false.
Proof.
  unfold qemu_net_queue_deliver_iov. destruct (deliver_iov _ _ _ _ _) as [[w cs] r]. by intros (s1 & _ & [= <- <-])%obind_ret_inv.
Qed.
Lemma append_iov_log s se fg v cb n s' : qemu_net_queue_append_iov s se fg v cb = Ret (n, s') -> st_log (W:=W) s' = st_log s.
Proof. unfold qemu_net_queue_append_iov. intros ([d k] & _ & E)%obind_ret_inv. by apply obind_ret_inv in E as (d' & _ & [= <- <-]). Qed.

Lemma exec_log fuel : forall c s r s', exec H fuel c s = Ret (r, s') -> st_log s `prefix_of` st_log s'.
Proof.
  induction fuel as [|fuel IH]; intros c s r s' E; [done|]. cbn [exec] in E.
  assert (forall cs s s', run_calls (exec H fuel) cs s = Ret s' -> st_log s `prefix_of` st_log s') as Hc by (intros cs t t'; by apply run_calls_log).
  assert (forall s s', (let! '(_, s) := exec H fuel CallFlush s in Ret s) = Ret s' -> st_log s `prefix_of` st_log s') as Hfl.
  { intros t t' ([r0 t0] & E0 & [= <-])%obind_ret_inv. by eapply IH. }
  destruct c as [se fg d cb|se fg v cb|from|].
  - unfold qemu_net_queue_send in E. cbn [note st_queue] in E. destruct (nq_delivering (st_queue s)); [injection E as _ <-; by eexists|].
    apply obind_ret_inv in E as ([ret s1] & E1 & E). apply (deliver_log _ _ _ _ _ _ _ _ Hc) in E1. etransitivity; [apply (note_log s)|]. etransitivity; [exact E1|].
    destruct (ret =? 0); [injection E as _ <-; done|]. apply obind_ret_inv in E as (s2 & E2 & [= <- <-]). by apply Hfl.
  - unfold qemu_net_queue_send_iov in E. cbn [note st_queue] in E. destruct (nq_delivering (st_queue s)); [apply append_iov_log in E; rewrite E; apply note_log|].
    apply obind_ret_inv in E as ([ret s1] & E1 & E). apply (deliver_iov_log _ _ _ _ _ _ _ Hc) in E1. etransitivity; [apply (note_log s)|]. etransitivity; [exact E1|].
    destruct (ret =? 0); [apply obind_ret_inv in E as ([n s2] & E2 & [= <- <-]); apply append_iov_log in E2; by rewrite E2|]. apply obind_ret_inv in E as (s2 & E2 & [= <- <-]). by apply Hfl.
  - injection E as _ <-. apply (note_log (set_packets s _)).
  - destruct (packets s) as [|p rest]; [by injection E as _ <-|]. apply obind_ret_inv in E as ([more s1] & E1 & E2). assert (st_log s `prefix_of` st_log s1) as P1.
    { unfold flush_turn in E1. apply obind_ret_inv in E1 as ([ret s2] & E3 & E1). apply (deliver_log _ _ _ _ _ _ _ _ Hc) in E3. cbn in E3. etransitivity; [exact E3|]. destruct (_ =? 0); [injection E1 as _ <-; done|].
      destruct (np_sent_cb p); [|injection E1 as _ <-; done]. destruct (sent _ _ _ _ _) as [w cs]. apply obind_ret_inv in E1 as (s4 & E4 & [= <- <-]). apply Hc in E4. etransitivity; [apply note_log|exact E4]. }
    destruct more; [etransitivity; [exact P1|by eapply IH]|by injection E2 as _ <-].
Qed.

(** ** The order is kept by every call *)
Lemma conserved_calls fuel cs fl s s' : Forall call_ok cs -> conserved fl s -> run_calls (exec H fuel) cs s = Ret s' -> conserved fl s'.
Proof using HOK.
  intros Hcs Hs. apply (run_calls_ind (conserved fl) call_ok); [|done|done]. intros. by eapply conserved_exec.
Qed.

(** [fl] is being delivered, every packet is in one place, and the order holds if the
    clients have kept the contract so far. *)
Definition tracked (fl : list item) (s : qstate W) : Prop :=
  conserved fl s /\ (polite [] (st_log s) = true -> fifo fl s).
Definition settled (s : qstate W) : Prop := nq_delivering (st_queue s) = false /\ tracked [] s.

Lemma waited_pending s x : conserved [] s -> waited (st_log s) x = true -> pending x s = [].
Proof.
  intros [Hp _] Hw. unfold waited in Hw. apply Nat.eqb_eq in Hw. apply nil_length_inv. unfold pending.
  assert (by_sender x (sends (st_log s)) ≡ₚ by_sender x (accepted (st_log s) ++ freed (st_log s) ++ map item_of (packets s))) as E%Permutation_length.
  { by apply by_sender_perm. }
  rewrite !by_sender_app, !length_app in E. lia.
Qed.

Lemma tracked_send s i : settled s ->
  tracked [i] (note s [EvSend i false]) /\ (polite [] (st_log (note s [EvSend i false])) = true -> pending (it_sender i) s = []).
Proof.
  intros (_ & Hc & Hf).
  assert (polite [] (st_log (note s [EvSend i false])) = true -> pending (it_sender i) s = []) as Hp.
  { intros Hpol. eapply waited_pending; [done|]. by eapply polite_waited. }
  split; [split; [by apply conserved_send|]|done].
  intros Hpol. apply fifo_start; [by apply Hp|]. apply Hf. by eapply polite_prefix, Hpol; apply note_log.
Qed.

Lemma tracked_deliver fuel s se fg d n ret s' (i := mkItem se fg (take (Z.to_nat n) d)) :
  tracked [i] s -> qemu_net_queue_deliver H (run_calls (exec H fuel)) s se fg d n = Ret (ret, s') ->
  nq_delivering (st_queue s') = false /\ is_s 32 ret /\ tracked (if ret =? 0 then [i] else []) s' /\
  (polite [] (st_log s') = true -> pending se s' `sublist_of` pending se s).
Proof using HOK HR.
  intros [Hc Hf] E.
  assert (st_log s `prefix_of` st_log s') as Hl.
  { eapply deliver_log, E. intros. eapply run_calls_log; [|done]. intros. by eapply exec_log. }
  destruct (conserved_deliver H HOK _ (conserved_calls fuel) [] _ _ _ _ _ _ _ Hc E) as [Hc' Hr].
  split_and!; [by eapply deliver_idle|done|split; [done|]|].
  all: intros Hpol%(polite_prefix _ _ Hl)%Hf; by eapply fifo_deliver in Hpol as [? ?].
Qed.

Lemma tracked_deliver_iov fuel s se fg v ret s' (i := mkItem se fg (concat v)) :
  tracked [i] s -> qemu_net_queue_deliver_iov H (run_calls (exec H fuel)) s se fg v = Ret (ret, s') ->
  nq_delivering (st_queue s') = false /\ tracked (if ret =? 0 then [i] else []) s' /\
  (polite [] (st_log s') = true -> pending se s' `sublist_of` pending se s).
Proof using HOK HR.
  intros [Hc Hf] E.
  assert (st_log s `prefix_of` st_log s') as Hl.
  { eapply deliver_iov_log, E. intros. eapply run_calls_log; [|done]. intros. by eapply exec_log. }
  split_and!; [by eapply deliver_iov_idle|split; [by eapply (conserved_deliver_iov H HOK _ (conserved_calls fuel) [])|]|].
  all: intros Hpol%(polite_prefix _ _ Hl)%Hf; by eapply fifo_deliver_iov in Hpol as [? ?].
Qed.

(** A refused packet goes to the end of the queue, where no other packet of its client is. *)
Lemma settled_requeue s0 s i cb : Z.of_nat (length (it_data i)) < 2 ^ 31 -> st_log s0 `prefix_of` st_log s ->
  nq_delivering (st_queue s) = false -> tracked [i] s ->
  (polite [] (st_log s0) = true -> pending (it_sender i) s0 = []) ->
  (polite [] (st_log s) = true -> pending (it_sender i) s `sublist_of` pending (it_sender i) s0) ->
  settled (snd (qemu_net_queue_append s (it_sender i) (it_flags i) (it_data i) cb)).
Proof.
  intros Hd Hl Hi [Hc Hf] Hp0 Hp. split; [done|]. split.
  - apply conserved_append; [done|]. by destruct i.
  - cbn [snd qemu_net_queue_append set_packets st_log]. intros Hpol. apply fifo_requeue; [done| |by apply Hf].
    apply sublist_nil_r. rewrite <- Hp0; [by apply Hp|by eapply polite_prefix].
Qed.

Section Settled.
Variable fuel : nat.
Hypothesis IH : forall c s r s', call_ok c -> settled s -> exec H fuel c s = Ret (r, s') -> settled s'.

Lemma settled_calls cs s s' : Forall call_ok cs -> settled s -> run_calls (exec H fuel) cs s = Ret s' -> settled s'.
Proof using IH. intros Hcs Hs. apply (run_calls_ind settled call_ok); [|done|done]. intros. by eapply IH. Qed.

Lemma settled_flush s s' : settled s -> (let! '(_, s) := exec H fuel CallFlush s in Ret s) = Ret s' -> settled s'.
Proof using IH. intros Hs ([r0 t0] & E0 & [= <-])%obind_ret_inv. by eapply (IH CallFlush). Qed.

Lemma settled_turn s p rest more s' : packets s = p :: rest -> settled s ->
  flush_turn H (run_calls (exec H fuel)) s p rest = Ret (more, s') -> settled s'.
Proof using HOK HR IH.
  intros Ep (_ & [Hp Hq] & Hf) E. rewrite Ep in Hp, Hq. apply Forall_cons in Hq as [Hok Hq].
  assert (tracked [item_of p] (set_packets s rest)) as Ht.
  { split; [split; [|done]|].
    - cbn. rewrite Hp. cbn [map app]. by rewrite !app_assoc, <- Permutation_middle.
    - intros Hpol x. specialize (Hf Hpol x). unfold pending in *. rewrite Ep in Hf.
      change (map item_of (p :: rest)) with ([item_of p] ++ map item_of rest) in Hf. by rewrite by_sender_app in Hf. }
  unfold flush_turn in E. apply obind_ret_inv in E as ([ret s1] & E1 & E).
  apply tracked_deliver in E1 as (Hi & Hr & [Hc1 Hf1] & _); [|exact Ht]. fold (item_of p) in Hc1, Hf1.
  rewrite swrap_small in E by (done || lia). destruct (ret =? 0).
  { injection E as _ <-. split; [done|]. destruct Hc1 as [Hp1 Hq1]. split; [split; [|by constructor]|].
    - cbn. rewrite Hp1. cbn [map app]. by rewrite !app_assoc, <- Permutation_middle.
    - intros Hpol x. specialize (Hf1 Hpol x). unfold pending in *. cbn [packets set_packets st_queue nq_packets st_log].
      change (map item_of (p :: packets s1)) with ([item_of p] ++ map item_of (packets s1)). by rewrite by_sender_app. }
  destruct (np_sent_cb p) as [cb|]; [|injection E as _ <-; by split].
  pose proof (sent_calls H HOK (st_world s1) cb (np_sender p) ret) as Hs.
  destruct (sent H (st_world s1) cb (np_sender p) ret) as [w cs].
  apply obind_ret_inv in E as (s2 & E2 & [= <- <-]). eapply settled_calls; [exact Hs| |exact E2]. split; [done|]. split.
  - destruct Hc1 as [Hp1 Hq1]. split; [|done]. unfold packets in *. cbn. by rewrite sends_app, accepted_app, freed_app, !app_nil_r.
  - intros Hpol x. assert (polite [] (st_log s1) = true) as Hpol1 by (eapply polite_prefix, Hpol; by eexists).
    specialize (Hf1 Hpol1 x). cbn [note set_world st_log]. by rewrite accepted_app, sends_app, !app_nil_r.
Qed.

Lemma settled_send s se fg d cb r s' : call_ok (CallSend se fg d cb) -> settled s ->
  exec H (S fuel) (CallSend se fg d cb) s = Ret (r, s') -> settled s'.
Proof using HOK HR IH.
  intros Hok Hs E. cbn [exec] in E. unfold qemu_net_queue_send in E. cbn [note st_queue] in E. rewrite (proj1 Hs) in E.
  apply obind_ret_inv in E as ([ret s1] & E1 & E). destruct (tracked_send s (mkItem se fg d) Hs) as [Ht Hp].
  assert (st_log (note s [EvSend (mkItem se fg d) false]) `prefix_of` st_log s1) as Hl.
  { eapply deliver_log, E1. intros. eapply run_calls_log; [|done]. intros. by eapply exec_log. }
  apply tracked_deliver in E1 as (Hi & _ & Ht1 & Hp1); [|by rewrite Nat2Z.id, firstn_all].
  rewrite Nat2Z.id, firstn_all in Ht1. destruct (ret =? 0).
  - injection E as _ <-. by apply (settled_requeue _ s1 (mkItem se fg d) cb Hok Hl Hi Ht1 Hp).
  - apply obind_ret_inv in E as (s2 & E2 & [= <- <-]). by eapply settled_flush, E2.
Qed.

Lemma settled_send_iov s se fg v cb r s' : call_ok (CallSendIov se fg v cb) -> settled s ->
  exec H (S fuel) (CallSendIov se fg v cb) s = Ret (r, s') -> settled s'.
Proof using HOK HR IH.
  intros Hok Hs E. cbn [exec] in E. unfold qemu_net_queue_send_iov in E. cbn [note st_queue] in E. rewrite (proj1 Hs) in E.
  apply obind_ret_inv in E as ([ret s1] & E1 & E). destruct (tracked_send s (mkItem se fg (concat v)) Hs) as [Ht Hp].
  assert (st_log (note s [EvSend (mkItem se fg (concat v)) false]) `prefix_of` st_log s1) as Hl.
  { eapply deliver_iov_log, E1. intros. eapply run_calls_log; [|done]. intros. by eapply exec_log. }
  apply tracked_deliver_iov in E1 as (Hi & Ht1 & Hp1); [|done]. destruct (ret =? 0).
  - rewrite append_iov_append in E by done. injection E as _ <-.
    by apply (settled_requeue _ s1 (mkItem se fg (concat v)) cb Hok Hl Hi Ht1 Hp).
  - apply obind_ret_inv in E as (s2 & E2 & [= <- <-]). by eapply settled_flush, E2.
Qed.
End Settled.

Lemma settled_exec fuel c s r s' : call_ok c -> settled s -> exec H fuel c s = Ret (r, s') -> settled s'.
Proof using HOK HR.
  revert c s r s'. induction fuel as [|fuel IH]; intros c s r s' Hok Hs E; [done|].
  destruct c as [se fg d cb|se fg v cb|from|].
  - by eapply settled_send.
  - by eapply settled_send_iov.
  - injection E as _ <-. destruct Hs as (Hi & Hc & Hf). split; [done|]. split; [by apply conserved_purge|].
    intros Hpol. apply fifo_purge, Hf. eapply polite_prefix, Hpol. by eexists.
  - cbn [exec] in E. destruct (packets s) as [|p rest] eqn:Ep; [by injection E as _ <-|].
    apply obind_ret_inv in E as ([more s1] & E1 & E2). apply (settled_turn fuel IH) in E1; [|done|done].
    destruct more; [by eapply IH|by injection E2 as _ <-].
Qed.
End Fifo.

(** ** Runs end *)
(** A bound on the calls the users will still make from inside handlers and callbacks. *)
Record thrifty {W} (H : handlers W) (budget : W -> nat) : Prop := {
  thrifty_deliver w se fg d n : let '(w', cs, _) := deliver H w se fg d n in (budget w' + length cs <= budget w)%nat;
  thrifty_deliver_iov w se fg v : let '(w', cs, _) := deliver_iov H w se fg v in (budget w' + length cs <= budget w)%nat;
  thrifty_sent w cb se r : let '(w', cs) := sent H w cb se r in (budget w' + length cs <= budget w)%nat
}.

Section Total.
Context {W : Type} (H : handlers W) (HOK : handlers_ok H) (HR : replies H).
Context (budget : W -> nat) (HT : thrifty H budget).
Implicit Types (s : qstate W).

(** What a run can still do: a call costs at most a packet queued. *)
Definition work (s : qstate W) : nat := length (packets s) + 2 * budget (st_world s).

Lemma purge_work s from : (work (qemu_net_queue_purge s from) <= work s)%nat.
Proof.
  apply Nat.add_le_mono_r. apply (List.filter_length_le (fun p => negb (from_sender from p))).
Qed.

Lemma append_work s p : work (set_packets s (packets s ++ [p])) = S (work s).
Proof. unfold work, packets. cbn. rewrite length_app. cbn. lia. Qed.

(** Inside a delivery packets are only queued. *)
Lemma delivering_returns fuel se cs : forall s, Forall (reply_ok se) cs -> nq_delivering (st_queue s) = true ->
  exists s', run_calls (exec H (S fuel)) cs s = Ret s' /\ (work s' <= work s + length cs)%nat.
Proof.
  induction cs as [|c cs IH]; intros s Hcs Hd; [exists s; cbn; split; [done|lia]|]. apply Forall_cons in Hcs as [Hc Hcs].
  assert (exists r s1, exec H (S fuel) c s = Ret (r, s1) /\ nq_delivering (st_queue s1) = true /\ (work s1 <= S (work s))%nat) as (r & s1 & E & Hd1 & Hw).
  { cbn [exec]. destruct c as [x fg d cb|x fg v cb|from|]; [| | |done].
    - unfold qemu_net_queue_send. cbn [note st_queue]. rewrite Hd. do 2 eexists. split; [done|]. split; [done|]. by rewrite append_work.
    - unfold qemu_net_queue_send_iov. cbn [note st_queue]. rewrite Hd, append_iov_append by apply Hc.
      do 2 eexists. split; [done|]. split; [done|]. by rewrite append_work.
    - do 2 eexists. split; [done|]. split; [done|]. pose proof (purge_work s from). lia. }
  destruct (IH s1 Hcs Hd1) as (s2 & E2 & Hw2). exists s2. cbn [run_calls]. rewrite E. cbn [obind]. rewrite E2. cbn [length]. split; [done|lia].
Qed.

Lemma deliver_returns fuel s se fg d n :
  exists ret s', qemu_net_queue_deliver H (run_calls (exec H (S fuel))) s se fg d n = Ret (ret, s') /\ (work s' <= work s)%nat.
Proof using HR HT.
  unfold qemu_net_queue_deliver. cbn [st_world set_delivering].
  pose proof (replies_deliver H HR (st_world s) se fg d n) as Hk. pose proof (thrifty_deliver H budget HT (st_world s) se fg d n) as Hb.
  destruct (deliver _ _ _ _ _ _) as [[w cs] ret]. cbn [fst snd] in Hk.
  destruct (delivering_returns fuel se cs (set_world (set_delivering s true) w) Hk eq_refl) as (s1 & -> & Hw).
  cbn [obind]. do 2 eexists. split; [done|]. unfold work, packets in *. cbn in *. lia.
Qed.

Lemma deliver_iov_returns fuel s se fg v :
  exists ret s', qemu_net_queue_deliver_iov H (run_calls (exec H (S fuel))) s se fg v = Ret (ret, s') /\ (work s' <= work s)%nat.
Proof using HR HT.
  unfold qemu_net_queue_deliver_iov. cbn [st_world set_delivering].
  pose proof (replies_deliver_iov H HR (st_world s) se fg v) as Hk. pose proof (thrifty_deliver_iov H budget HT (st_world s) se fg v) as Hb.
  destruct (deliver_iov _ _ _ _ _) as [[w cs] ret]. cbn [fst snd] in Hk.
  destruct (delivering_returns fuel se cs (set_world (set_delivering s true) w) Hk eq_refl) as (s1 & -> & Hw).
  cbn [obind]. do 2 eexists. split; [done|]. unfold work, packets in *. cbn in *. lia.
Qed.

Lemma calls_return fuel cs : forall s,
  (forall c s, call_ok c -> nq_delivering (st_queue s) = false -> (work s + 1 < fuel)%nat ->
     exists r s', exec H fuel c s = Ret (r, s') /\ (work s' <= work s + 1)%nat) ->
  Forall call_ok cs -> nq_delivering (st_queue s) = false -> (work s + length cs < fuel)%nat ->
  exists s', run_calls (exec H fuel) cs s = Ret s' /\ nq_delivering (st_queue s') = false /\ (work s' <= work s + length cs)%nat.
Proof.
  induction cs as [|c cs IH]; intros s Hx Hcs Hi Hf; [exists s; cbn; split_and!; [done|done|lia]|].
  apply Forall_cons in Hcs as [Hc Hcs]. cbn [length] in Hf. destruct (Hx c s Hc Hi) as (r & s1 & E & Hw); [lia|].
  apply exec_idle in E as Hi1; [|done]. destruct (IH s1 Hx Hcs Hi1) as (s2 & E2 & Hi2 & Hw2); [lia|].
  exists s2. cbn [run_calls]. rewrite E. cbn [obind]. rewrite E2. cbn [length]. split_and!; [done|done|lia].
Qed.

(** A turn of the flush uses up work, and leaves the flag clear. *)
Lemma turn_returns fuel s p rest :
  (forall c s, call_ok c -> nq_delivering (st_queue s) = false -> (work s + 1 < S fuel)%nat ->
     exists r s', exec H (S fuel) c s = Ret (r, s') /\ (work s' <= work s + 1)%nat) ->
  packets s = p :: rest -> (work s <= S fuel)%nat ->
  exists more s', flush_turn H (run_calls (exec H (S fuel))) s p rest = Ret (more, s') /\
    nq_delivering (st_queue s') = false /\ (work s' + (if (more : bool) then 1 else 0) <= work s)%nat.
Proof using HOK HR HT.
  intros Hx Ep Hf. unfold flush_turn.
  assert (work (set_packets s rest) + 1 = work s)%nat as Hw0 by (unfold work; rewrite Ep; cbn; lia).
  destruct (deliver_returns fuel (set_packets s rest) (np_sender p) (np_flags p) (np_data p) (np_size p)) as (ret & s1 & E1 & Hw1).
  rewrite E1. apply deliver_idle in E1 as Hi. cbn [obind]. destruct (s32 ret =? 0).
  { do 2 eexists. split; [done|]. split; [done|]. unfold work in *. cbn in *. lia. }
  destruct (np_sent_cb p) as [cb|]; [|do 2 eexists; split; [done|]; split; [done|lia]].
  pose proof (sent_calls H HOK (st_world s1) cb (np_sender p) (s32 ret)) as Hk.
  pose proof (thrifty_sent H budget HT (st_world s1) cb (np_sender p) (s32 ret)) as Hb.
  destruct (sent _ _ _ _ _) as [w cs]. cbn [snd] in Hk. set (s2 := note _ _).
  assert (work s2 + 2 * length cs <= work s1)%nat as Hw2 by (unfold work, s2; cbn; unfold work, packets in *; cbn; lia).
  destruct (calls_return (S fuel) cs s2 Hx Hk) as (s3 & -> & Hi3 & Hw3); [done|lia|].
  cbn [obind]. do 2 eexists. split; [done|]. split; [done|lia].
Qed.

Lemma exec_returns fuel : forall c s, call_ok c -> nq_delivering (st_queue s) = false ->
  match c with CallFlush => (work s < fuel)%nat | _ => (work s + 1 < fuel)%nat end ->
  exists r s', exec H fuel c s = Ret (r, s') /\ (work s' <= match c with CallFlush => work s | _ => work s + 1 end)%nat.
Proof using HOK HR HT.
  induction fuel as [|fuel IH]; intros c s Hok Hi Hf; [destruct c; lia|].
  destruct fuel as [|fuel].
  { destruct c as [| | |]; try lia. destruct (packets s) as [|p rest] eqn:Ep; [|unfold work in Hf; rewrite Ep in Hf; cbn in Hf; lia].
    cbn [exec]. rewrite Ep. eauto. }
  assert (forall c s, call_ok c -> nq_delivering (st_queue s) = false -> (work s + 1 < S fuel)%nat ->
     exists r s', exec H (S fuel) c s = Ret (r, s') /\ (work s' <= work s + 1)%nat) as Hx.
  { intros c' t Hc Ht Hb. destruct (IH c' t Hc Ht) as (r & t' & E & Hw); [destruct c'; lia|]. exists r, t'. split; [done|]. destruct c'; lia. }
  assert (forall s, nq_delivering (st_queue s) = false -> (work s < S fuel)%nat ->
     exists s', (let! '(_, s) := exec H (S fuel) CallFlush s in Ret s) = Ret s' /\ (work s' <= work s)%nat) as Hfl.
  { intros t Ht Hb. destruct (IH CallFlush t I Ht Hb) as (r & t' & -> & Hw). cbn. eauto. }
  change (exec H (S (S fuel))) with (fun c s => exec H (S (S fuel)) c s). cbn beta. remember (S fuel) as f eqn:Ef. cbn [exec].
  destruct c as [se fg d cb|se fg v cb|from|].
  - unfold qemu_net_queue_send. cbn [note st_queue]. rewrite Hi. set (s0 := note _ _). assert (work s0 = work s) as Hw0 by done. subst f.
    destruct (deliver_returns fuel s0 se fg d (Z.of_nat (length d))) as (ret & s1 & E1 & Hw1). rewrite E1. apply deliver_idle in E1. cbn [obind].
    destruct (ret =? 0); [do 2 eexists; split; [done|]; rewrite append_work; lia|].
    destruct (Hfl s1 E1) as (s2 & -> & Hw2); [lia|]. cbn. do 2 eexists; split; [done|lia].
  - unfold qemu_net_queue_send_iov. cbn [note st_queue]. rewrite Hi. set (s0 := note _ _). assert (work s0 = work s) as Hw0 by done. subst f.
    destruct (deliver_iov_returns fuel s0 se fg v) as (ret & s1 & E1 & Hw1). rewrite E1. cbn [obind].
    destruct (ret =? 0); [rewrite append_iov_append by done; do 2 eexists; split; [done|]; rewrite append_work; lia|].
    destruct (Hfl s1) as (s2 & -> & Hw2); [by eapply deliver_iov_idle|lia|]. cbn. do 2 eexists; split; [done|lia].
  - do 2 eexists. split; [done|]. pose proof (purge_work s from). lia.
  - destruct (packets s) as [|p rest] eqn:Ep; [eauto|]. subst f.
    destruct (turn_returns fuel s p rest Hx Ep) as (more & s1 & -> & Hi1 & Hw); [lia|]. cbn [obind].
    destruct more; [|do 2 eexists; split; [done|lia]].
    destruct (IH CallFlush s1 I Hi1) as (r & s2 & -> & Hw2); [lia|]. do 2 eexists; split; [done|lia].
Qed.
End Total.

(** C18. Packets of one client are not reordered and none is lost, while handlers and
    callbacks call the queue again.  The users: calls and results fit an int; a delivery
    handler sends, from inside a delivery, only on behalf of clients other than the one
    whose packet is being delivered, and does not flush there (it may purge); a sent
    callback may make any call, a send or flush included; and the calls made from inside
    handlers and callbacks are limited in number ([budget]).  Then any sequence of calls on
    a new queue returns, with a depth of nested calls of at most twice that limit plus the
    length of the sequence; every packet sent was accepted by the handler, freed by a purge
    or is queued, each exactly once; the queue is not left marked as delivering; and, if
    every client that sent outside of a delivery had no packet waiting at that time (the
    contract of net/queue.c), for each client the packets accepted so far followed by the
    ones still queued are in the order in which the client sent them.  This covers packets
    refused and retried by a flush, and replies queued while a delivery is in progress.
    Packets without a sent callback are queued and kept like the others, as the code does;
    the comment at the top of net/queue.c says that they are dropped. *)
Theorem net_queue_client_order {W} (H : handlers W) (budget : W -> nat) (fuel : nat) (ops : list call) (w : W) :
  handlers_ok H -> replies H -> thrifty H budget -> Forall call_ok ops -> (2 * budget w + length ops < fuel)%nat ->
  exists s, run_calls (exec H fuel) ops (NetQueue.fresh w) = Ret s /\ nq_delivering (st_queue s) = false /\
    sends (st_log s) ≡ₚ accepted (st_log s) ++ freed (st_log s) ++ map item_of (packets s) /\
    (polite [] (st_log s) = true ->
     forall x, (by_sender x (accepted (st_log s)) ++ by_sender x (map item_of (packets s)))
                 `sublist_of` by_sender x (sends (st_log s))).
Proof.
  intros HOK HR HT Hops Hf.
  destruct (calls_return H budget fuel ops (NetQueue.fresh w)) as (s & E & _); [|done|done|unfold work; cbn in *; lia|].
  { intros c s Hc Hi Hb. destruct (exec_returns H HOK HR budget HT fuel c s Hc Hi) as (r & s' & E & Hw); [destruct c; lia|].
    exists r, s'. split; [done|]. destruct c; lia. }
  exists s. split; [done|].
  assert (settled s) as (Hi & [Hp _] & Hfi).
  { refine (run_calls_ind settled call_ok _ _ _ _ _ Hops _ E); [intros c t r t' Hc Ht; by apply settled_exec|].
    split; [done|]. split; [by split; [|constructor]|]. intros _ x. done. }
  split_and!; [done|exact Hp|]. intros Hpol x. exact (Hfi Hpol x).
Qed.

(** A back end that takes every other packet, answers packets of client 1 with one of
    client 2 from inside the delivery, and whose sent callback sends the client's next
    packet, with [fst w] such packets left. *)
Definition chatty : handlers (nat * Z) := mkHandlers
  (fun w se fg d n =>
     let ret := if Z.even (snd w) then 1 else 0 in
     match fst w with
     | S b => if (ret =? 1) && (se =? 1) then ((b, snd w + 1), [CallSend 2 fg [7; 7] None], ret) else ((fst w, snd w + 1), [], ret)
     | O => ((fst w, snd w + 1), [], ret)
     end)
  (fun w se fg v => ((fst w, snd w + 1), [], if Z.even (snd w) then 1 else 0))
  (fun w cb se r => match fst w with S b => ((b, snd w), [CallSend se 0 [cb] None]) | O => (w, []) end).

Lemma chatty_ok : handlers_ok chatty /\ replies chatty /\ thrifty chatty fst.
Proof.
  assert (forall w : Z, is_s 32 (if Z.even w then 1 else 0)) as Hb by (intros w; unfold is_s; cbn; by destruct (Z.even w)).
  split_and!; split; intros [[|b] t]; intros; cbn [chatty deliver deliver_iov sent fst snd];
    try (destruct ((if Z.even t then 1 else 0) =? 1) eqn:E1); try (destruct (Z.eqb_spec se 1)); cbn [andb fst snd length];
    try apply Hb; try (repeat constructor; fail); try lia; repeat constructor; cbn; lia.
Qed.

Definition chatty_ops : list call :=
  [CallSend 1 0 [10; 11] (Some 5); CallSendIov 3 0 [[12]; [13; 14]] (Some 6); CallFlush; CallSend 1 0 [15] (Some 5); CallPurge 2; CallFlush; CallPurge 1].

Lemma net_queue_client_order_witness :
  exists s, run_calls (exec chatty 18) chatty_ops (NetQueue.fresh (5%nat, 0)) = Ret s /\ nq_delivering (st_queue s) = false /\
    sends (st_log s) ≡ₚ accepted (st_log s) ++ freed (st_log s) ++ map item_of (packets s) /\
    (polite [] (st_log s) = true ->
     forall x, (by_sender x (accepted (st_log s)) ++ by_sender x (map item_of (packets s)))
                 `sublist_of` by_sender x (sends (st_log s))).
Proof.
  apply (net_queue_client_order chatty fst 18 chatty_ops (5%nat, 0)); [apply chatty_ok..| |cbn; lia].
  repeat constructor.
Defined.

(** In that run the clients keep the contract, and packets are refused, retried, answered
    and purged. *)
Example chatty_run :
  match run_calls (exec chatty 18) chatty_ops (NetQueue.fresh (5%nat, 0)) with
  | Ret s => polite [] (st_log s) = true /\ (length (sends (st_log s)), length (accepted (st_log s)), length (freed (st_log s))) = (6, 5, 1)%nat
  | _ => False
  end.
Proof. vm_compute. done. Qed.
