(* ===== verification/I8254.v ===== *)
(** * The interval timer: hw/i8254.c, with muldiv64 of vl.c

    The three channels, the global flags word and the counters of the time drift fix are
    one state.  [qemu_get_clock(vm_clock)] is read where the source reads it: the handlers
    take the readings as a function of how many were made before, so the clock may advance
    inside a handler.  The timer of channel 0 is the time it is armed for, and the levels
    put on its interrupt line are a log.  A division by a zero count is a [Fault]; the
    branches for the in-kernel timer of KVM are not modelled. *)

From S2P Require Import Prelude.
From stdpp Require Import list.

Open Scope Z_scope.

Definition PIT_FREQ : Z := 1193182.
Definition get_ticks_per_sec : Z := 1000000000.

Definition RW_STATE_LSB : Z := 1.
Definition RW_STATE_MSB : Z := 2.
Definition RW_STATE_WORD0 : Z := 3.
Definition RW_STATE_WORD1 : Z := 4.
Definition PIT_FLAGS_HPET_LEGACY : Z := 1.

(** vl.c: a 96-bit intermediate product, by halves of 32 bits. *)
Definition muldiv64 (a b c : Z) : Z :=
  let low := u32 a in
  let high := u32 (Z.shiftr a 32) in
  let rl := u64 (low * b) in
  let rh := u64 (high * b) in
  let rh := u64 (rh + Z.shiftr rl 32) in
  let res_high := u32 (rh / c) in
  let res_low := u32 (u64 (u64 (Z.shiftl (rh mod c) 32) + Z.land rl 0xffffffff) / c) in
  res_low + 2 ^ 32 * res_high.

(** [irq_timer] is NULL ([None]), idle ([Some None]) or armed. *)
Record PITChannelState : Type := mkChannel {
  count : Z; latched_count : Z; count_latched : Z; status_latched : Z; status : Z;
  read_state : Z; write_state : Z; write_latch : Z; rw_mode : Z; mode : Z; bcd : Z; gate : Z;
  count_load_time : Z; next_transition_time : Z; irq_timer : option (option Z)
}.

(** The fields the operations assign. *)
Definition set_count (s : PITChannelState) (c t : Z) : PITChannelState :=
  mkChannel c (latched_count s) (count_latched s) (status_latched s) (status s) (read_state s) (write_state s)
    (write_latch s) (rw_mode s) (mode s) (bcd s) (gate s) t (next_transition_time s) (irq_timer s).
Definition set_latch (s : PITChannelState) (l cl : Z) : PITChannelState :=
  mkChannel (count s) l cl (status_latched s) (status s) (read_state s) (write_state s)
    (write_latch s) (rw_mode s) (mode s) (bcd s) (gate s) (count_load_time s) (next_transition_time s) (irq_timer s).
Definition set_status (s : PITChannelState) (sl st : Z) : PITChannelState :=
  mkChannel (count s) (latched_count s) (count_latched s) sl st (read_state s) (write_state s)
    (write_latch s) (rw_mode s) (mode s) (bcd s) (gate s) (count_load_time s) (next_transition_time s) (irq_timer s).
Definition set_control (s : PITChannelState) (access m b : Z) : PITChannelState :=
  mkChannel (count s) (latched_count s) (count_latched s) (status_latched s) (status s) access access
    (write_latch s) access m b (gate s) (count_load_time s) (next_transition_time s) (irq_timer s).
Definition set_read_state (s : PITChannelState) (r : Z) : PITChannelState :=
  mkChannel (count s) (latched_count s) (count_latched s) (status_latched s) (status s) r (write_state s)
    (write_latch s) (rw_mode s) (mode s) (bcd s) (gate s) (count_load_time s) (next_transition_time s) (irq_timer s).
Definition set_write (s : PITChannelState) (ws wl : Z) : PITChannelState :=
  mkChannel (count s) (latched_count s) (count_latched s) (status_latched s) (status s) (read_state s) ws
    wl (rw_mode s) (mode s) (bcd s) (gate s) (count_load_time s) (next_transition_time s) (irq_timer s).
Definition set_mode_gate (s : PITChannelState) (m g : Z) : PITChannelState :=
  mkChannel (count s) (latched_count s) (count_latched s) (status_latched s) (status s) (read_state s) (write_state s)
    (write_latch s) (rw_mode s) m (bcd s) g (count_load_time s) (next_transition_time s) (irq_timer s).
Definition set_timer (s : PITChannelState) (n : Z) (t : option (option Z)) : PITChannelState :=
  mkChannel (count s) (latched_count s) (count_latched s) (status_latched s) (status s) (read_state s) (write_state s)
    (write_latch s) (rw_mode s) (mode s) (bcd s) (gate s) (count_load_time s) n t.

(** The counters of the time drift fix, shared with the interrupt controller. *)
Record drift : Type := mkDrift { timer_acks : Z; timer_interrupts : Z; timer_ints_to_push : Z }.

Record PITState : Type := mkPit {
  channels : list PITChannelState;
  flags : Z;
  drifts : drift;
  irq_log : list Z
}.

Abbreviation res A := (outcome Empty_set A).

Definition chan (pit : PITState) (i : Z) : res PITChannelState :=
  if i <? 0 then Fault else oget (channels pit !! Z.to_nat i).
Definition set_chan (pit : PITState) (i : Z) (s : PITChannelState) : PITState :=
  mkPit (<[Z.to_nat i := s]> (channels pit)) (flags pit) (drifts pit) (irq_log pit).
Definition set_flags (pit : PITState) (f : Z) : PITState :=
  mkPit (channels pit) f (drifts pit) (irq_log pit).

(** ** Reading the counter *)
(** [a % b] and [a / b] of [uint64_t] operands. *)
Definition umod (a b : Z) : res Z := if b =? 0 then Fault else Ret (a mod b).
Definition udiv (a b : Z) : res Z := if b =? 0 then Fault else Ret (a / b).

Definition elapsed (s : PITChannelState) (t : Z) : Z :=
  muldiv64 (u64 (t - count_load_time s)) PIT_FREQ get_ticks_per_sec.

Definition pit_get_count (s : PITChannelState) (now : Z) : res Z :=
  let d := elapsed s now in
  let count := u64 (count s) in
  match mode s with
  | 0 | 1 | 4 | 5 => Ret (Z.land (u64 (count - d)) 0xffff)
  | 3 => let! r := umod (u64 (2 * d)) count in Ret (s32 (u64 (count - r)))
  | _ => let! r := umod d count in Ret (s32 (u64 (count - r)))
  end.

Definition pit_get_out1 (s : PITChannelState) (current_time : Z) : res Z :=
  let d := elapsed s current_time in
  let ucount := u64 (count s) in
  match mode s with
  | 1 => Ret (Z.b2z (d <? ucount))
  | 2 => let! r := umod d ucount in Ret (if (r =? 0) && negb (d =? 0) then 1 else 0)
  | 3 => let! r := umod d ucount in Ret (Z.b2z (r <? u64 (Z.shiftr (count s + 1) 1)))
  | 4 | 5 => Ret (Z.b2z (d =? ucount))
  | _ => Ret (Z.b2z (ucount <=? d))
  end.

Definition pit_get_out (pit : PITState) (channel current_time : Z) : res Z :=
  let! s := chan pit channel in pit_get_out1 s current_time.

(** The switch of [pit_get_next_transition_time], in ticks since the load; [None] is the
    early return of -1. *)
Definition next_ticks (s : PITChannelState) (d : Z) : res (option Z) :=
  let ucount := u64 (count s) in
  match mode s with
  | 2 =>
      let! q := udiv d ucount in
      let base := u64 (q * ucount) in
      Ret (Some (if (u64 (d - base) =? 0) && negb (d =? 0) then u64 (base + ucount)
                 else u64 (u64 (base + ucount) + 1)))
  | 3 =>
      let! q := udiv d ucount in
      let base := u64 (q * ucount) in
      let period2 := Z.shiftr (count s + 1) 1 in
      Ret (Some (if u64 (d - base) <? u64 period2 then u64 (base + u64 period2) else u64 (base + ucount)))
  | 4 | 5 =>
      Ret (if d <? ucount then Some ucount
           else if d =? ucount then Some (u64 (count s + 1))
           else None)
  | _ => Ret (if d <? ucount then Some ucount else None)
  end.

Definition pit_get_next_transition_time (s : PITChannelState) (current_time : Z) : res Z :=
  let! n := next_ticks s (elapsed s current_time) in
  match n with
  | None => Ret (-1)
  | Some next_time =>
      let next_time := u64 (u64 (count_load_time s) + muldiv64 next_time get_ticks_per_sec PIT_FREQ) in
      Ret (s64 (if next_time <=? u64 current_time then u64 (current_time + 1) else next_time))
  end.

(** ** The interrupt timer *)
(** The time drift fix: [long] is 64 bits wide, the divisions truncate. *)
Definition drift_update (c : Z) (g : drift) : drift :=
  let pit_ticks_per_sec := if 0 <? c then Z.quot PIT_FREQ c else 0 in
  let timer_max_fix := Z.quot pit_ticks_per_sec 20 in
  let delta := timer_interrupts g - timer_acks g in
  let max_delta := pit_ticks_per_sec * 60 in
  let g :=
    if (max_delta <? delta) && (0 <? pit_ticks_per_sec)
    then mkDrift (timer_interrupts g) (timer_interrupts g) 0
    else if 0 <? delta
    then mkDrift (timer_acks g) (timer_interrupts g) (Z.min delta timer_max_fix)
    else g in
  mkDrift (timer_acks g) (timer_interrupts g + 1) (timer_ints_to_push g).

Section Pit.
(** The -rtc-td-hack option. *)
Variable time_drift_fix : bool.

Definition pit_irq_timer_update (pit : PITState) (i current_time : Z) : res PITState :=
  let! s := chan pit i in
  match irq_timer s with
  | None => Ret pit
  | Some _ =>
      let! expire_time := pit_get_next_transition_time s current_time in
      let! irq_level := pit_get_out1 s current_time in
      let drifts := if time_drift_fix && (irq_level =? 1) then drift_update (count s) (drifts pit) else drifts pit in
      let s := set_timer s expire_time (Some (if negb (expire_time =? -1) then Some expire_time else None)) in
      Ret (set_chan (mkPit (channels pit) (flags pit) drifts (irq_log pit ++ [irq_level])) i s)
  end.

Definition pit_irq_timer (pit : PITState) (i : Z) : res PITState :=
  let! s := chan pit i in
  pit_irq_timer_update pit i (next_transition_time s).

(** ** Loading, gates *)
Definition pit_load_count (pit : PITState) (val i now : Z) : res PITState :=
  let val := if val =? 0 then 0x10000 else val in
  let! s := chan pit i in
  let pit := set_chan pit i (set_count s val now) in
  if (i =? 0) && negb (Z.land (flags pit) PIT_FLAGS_HPET_LEGACY =? 0) then Ret pit
  else pit_irq_timer_update pit i now.

Definition pit_set_gate (pit : PITState) (i val now : Z) : res PITState :=
  let! s := chan pit i in
  let! pit :=
    match mode s with
    | 1 | 5 | 2 | 3 =>
        if gate s <? val then
          pit_irq_timer_update (set_chan pit i (set_count s (count s) now)) i now
        else Ret pit
    | _ => Ret pit
    end in
  let! s := chan pit i in
  Ret (set_chan pit i (set_mode_gate s (mode s) val)).

Definition pit_get_gate (pit : PITState) (i : Z) : res Z := let! s := chan pit i in Ret (gate s).
Definition pit_get_initial_count (pit : PITState) (i : Z) : res Z := let! s := chan pit i in Ret (count s).
Definition pit_get_mode (pit : PITState) (i : Z) : res Z := let! s := chan pit i in Ret (mode s).

(** ** The ports *)
Definition pit_latch_count (s : PITChannelState) (now : Z) : res PITChannelState :=
  if count_latched s =? 0 then
    let! c := pit_get_count s now in
    Ret (set_latch s (u16 c) (rw_mode s))
  else Ret s.

Definition status_latch (s : PITChannelState) (now : Z) : res PITChannelState :=
  let! out := pit_get_out1 s now in
  Ret (set_status s 1
         (u8 (Z.lor (Z.lor (Z.lor (Z.shiftl out 7) (Z.shiftl (rw_mode s) 4)) (Z.shiftl (mode s) 1)) (bcd s)))).

(** One turn of the loop of the read back command; [now] and [now'] are the readings of
    the clock by the count and the status. *)
Definition read_back (pit : PITState) (channel val now now' : Z) : res PITState :=
  let! s := chan pit channel in
  if Z.land val (Z.shiftl 2 channel) =? 0 then Ret pit
  else
    let! s := if Z.land val 0x20 =? 0 then pit_latch_count s now else Ret s in
    let! s := if (Z.land val 0x10 =? 0) && (status_latched s =? 0) then status_latch s now' else Ret s in
    Ret (set_chan pit channel s).

Definition pit_ioport_write (pit : PITState) (addr val : Z) (now : nat -> Z) : res PITState :=
  let addr := Z.land addr 3 in
  if addr =? 3 then
    let channel := Z.shiftr val 6 in
    if channel =? 3 then
      let! pit := read_back pit 0 val (now 0%nat) (now 1%nat) in
      let! pit := read_back pit 1 val (now 2%nat) (now 3%nat) in
      read_back pit 2 val (now 4%nat) (now 5%nat)
    else
      let! s := chan pit channel in
      let access := Z.land (Z.shiftr val 4) 3 in
      if access =? 0 then
        let! s := pit_latch_count s (now 0%nat) in
        Ret (set_chan pit channel s)
      else
        Ret (set_chan pit channel (set_control s access (Z.land (Z.shiftr val 1) 7) (Z.land val 1)))
  else
    let! s := chan pit addr in
    match write_state s with
    | 2 => pit_load_count pit (Z.shiftl val 8) addr (now 0%nat)
    | 3 => Ret (set_chan pit addr (set_write s RW_STATE_WORD1 (u8 val)))
    | 4 =>
        let! pit := pit_load_count pit (Z.lor (write_latch s) (Z.shiftl val 8)) addr (now 0%nat) in
        let! s := chan pit addr in
        Ret (set_chan pit addr (set_write s RW_STATE_WORD0 (write_latch s)))
    | _ => pit_load_count pit val addr (now 0%nat)
    end.

Definition pit_ioport_read (pit : PITState) (addr now : Z) : res (Z * PITState) :=
  let addr := Z.land addr 3 in
  let! s := chan pit addr in
  if negb (status_latched s =? 0) then
    Ret (status s, set_chan pit addr (set_status s 0 (status s)))
  else if negb (count_latched s =? 0) then
    match count_latched s with
    | 2 => Ret (Z.shiftr (latched_count s) 8, set_chan pit addr (set_latch s (latched_count s) 0))
    | 3 => Ret (Z.land (latched_count s) 0xff, set_chan pit addr (set_latch s (latched_count s) RW_STATE_MSB))
    | _ => Ret (Z.land (latched_count s) 0xff, set_chan pit addr (set_latch s (latched_count s) 0))
    end
  else
    let! c := pit_get_count s now in
    match read_state s with
    | 2 => Ret (Z.land (Z.shiftr c 8) 0xff, pit)
    | 3 => Ret (Z.land c 0xff, set_chan pit addr (set_read_state s RW_STATE_WORD1))
    | 4 => Ret (Z.land (Z.shiftr c 8) 0xff, set_chan pit addr (set_read_state s RW_STATE_WORD0))
    | _ => Ret (Z.land c 0xff, pit)
    end.

(** ** Reset, HPET, creation *)
Definition reset_channel (pit : PITState) (i now : Z) : res PITState :=
  let! s := chan pit i in
  pit_load_count (set_chan pit i (set_mode_gate s 3 (if i =? 2 then 0 else 1))) 0 i now.

Definition pit_reset (pit : PITState) (now : nat -> Z) : res PITState :=
  let pit := set_flags pit (Z.land (flags pit) (u32 (Z.lnot PIT_FLAGS_HPET_LEGACY))) in
  let! pit := reset_channel pit 0 (now 0%nat) in
  let! pit := reset_channel pit 1 (now 1%nat) in
  reset_channel pit 2 (now 2%nat).

Definition hpet_disable_pit (pit : PITState) : res PITState :=
  let pit := set_flags pit (Z.lor (flags pit) PIT_FLAGS_HPET_LEGACY) in
  let! s := chan pit 0 in
  Ret (match irq_timer s with
       | Some _ => set_chan pit 0 (set_timer s (next_transition_time s) (Some None))
       | None => pit
       end).

Definition hpet_enable_pit (pit : PITState) (now : Z) : res PITState :=
  let pit := set_flags pit (Z.land (flags pit) (u32 (Z.lnot PIT_FLAGS_HPET_LEGACY))) in
  let! s := chan pit 0 in
  pit_load_count pit (count s) 0 now.

(** The global state before [pit_init] is all zero; [pit_init] gives channel 0 its timer. *)
Definition channel_zero : PITChannelState := mkChannel 0 0 0 0 0 0 0 0 0 0 0 0 0 0 None.
Definition pit_zero : PITState := mkPit [channel_zero; channel_zero; channel_zero] 0 (mkDrift 0 0 0) [].

Definition pit_init (pit : PITState) : res PITState :=
  let! s := chan pit 0 in
  Ret (set_chan pit 0 (set_timer s (next_transition_time s) (Some None))).
End Pit.
