(* ===== verification/I8254Proofs.v ===== *)
(** * The interval timer: what it computes

    Ticks against nanoseconds; when the output of a channel changes and when the code
    predicts that it does; the well-formedness of the device and that no access by the
    guest faults; reading a latched count back. *)

From S2P Require Import Prelude I8254.
From stdpp Require Import list.

Open Scope Z_scope.

(** ** Ticks and nanoseconds *)
Lemma muldiv64_correct a b c :
  is_u 64 a -> is_u 32 b -> 0 < c < 2 ^ 32 -> a * b / c < 2 ^ 64 -> muldiv64 a b c = a * b / c.
Proof.
  unfold is_u. change (2 ^ 64) with 18446744073709551616. change (2 ^ 32) with 4294967296.
  intros Ha Hb Hc Hq. unfold muldiv64, wrap. rewrite !Z.shiftr_div_pow2, Z.shiftl_mul_pow2 by lia.
  change 4294967295 with (Z.ones 32). rewrite Z.land_ones by lia.
  change (2 ^ 64) with 18446744073709551616. change (2 ^ 32) with 4294967296.
  pose proof (Z.div_mod a 4294967296 ltac:(lia)) as Ea. pose proof (Z.mod_pos_bound a 4294967296 ltac:(lia)) as Hlo.
  set (lo := a mod 4294967296) in *. set (hi := a / 4294967296) in *.
  assert (0 <= hi < 4294967296) as Hhi by lia.
  rewrite (Z.mod_small hi) by lia. rewrite (Z.mod_small (lo * b)) by nia.
  rewrite (Z.mod_small (hi * b)) by nia.
  pose proof (Z.div_mod (lo * b) 4294967296 ltac:(lia)) as El.
  pose proof (Z.mod_pos_bound (lo * b) 4294967296 ltac:(lia)) as Hl.
  set (l := (lo * b) mod 4294967296) in *. set (k := lo * b / 4294967296) in *.
  assert (0 <= k < 4294967295) as Hk by nia.
  rewrite (Z.mod_small (hi * b + k)) by nia.
  pose proof (Z.div_mod (hi * b + k) c ltac:(lia)) as Er.
  pose proof (Z.mod_pos_bound (hi * b + k) c ltac:(lia)) as Hr.
  set (r := (hi * b + k) mod c) in *. set (q := (hi * b + k) / c) in *.
  assert (a * b = (q * 4294967296) * c + (r * 4294967296 + l)) as EN by nia.
  rewrite EN, Z.div_add_l in * by lia.
  pose proof (Z.div_lt_upper_bound (r * 4294967296 + l) c 4294967296 ltac:(lia) ltac:(nia)).
  pose proof (Z.div_pos (r * 4294967296 + l) c ltac:(lia) ltac:(lia)).
  assert (0 <= q) by (apply Z.div_pos; nia).
  rewrite (Z.mod_small (r * 4294967296)) by nia. rewrite (Z.mod_small (r * 4294967296 + l)) by nia.
  rewrite (Z.mod_small q), (Z.mod_small (_ / c)) by lia. lia.
Qed.

(** The times the statements are about: between the load of the count and 2^62 ns. *)
Definition time_ok (s : PITChannelState) (t : Z) : Prop := 0 <= count_load_time s <= t /\ t < 2 ^ 62.

(** Ticks of the 1.193182 MHz clock in [x] nanoseconds, and the reverse. *)
Definition ticks (x : Z) : Z := x * 1193182 / 1000000000.
Definition nanos (n : Z) : Z := n * 1000000000 / 1193182.

Lemma elapsed_ticks s t : time_ok s t -> elapsed s t = ticks (t - count_load_time s).
Proof.
  intros [H1 H2]. change (2 ^ 62) with 4611686018427387904 in H2. unfold elapsed, ticks, PIT_FREQ, get_ticks_per_sec.
  rewrite (wrap_small 64) by (unfold is_u; lia).
  apply muldiv64_correct; unfold is_u; try lia. apply Z.div_lt_upper_bound; lia.
Qed.

Lemma nanos_muldiv n : 0 <= n < 2 ^ 54 -> muldiv64 n get_ticks_per_sec PIT_FREQ = nanos n.
Proof.
  intros H. change (2 ^ 54) with 18014398509481984 in H. unfold nanos, PIT_FREQ, get_ticks_per_sec.
  apply muldiv64_correct; unfold is_u; try lia. apply Z.div_lt_upper_bound; lia.
Qed.

Lemma ticks_mono x y : x <= y -> ticks x <= ticks y.
Proof. intros. unfold ticks. apply Z.div_le_mono; lia. Qed.

(** Before the time computed for tick [n] fewer than [n] ticks have passed; one
    nanosecond later exactly [n] have; at that time, one short unless it is exact. *)
Lemma ticks_before n x : x < nanos n -> ticks x < n.
Proof.
  unfold ticks, nanos. intros H. apply Z.div_lt_upper_bound; [lia|].
  pose proof (Z.mul_div_le (n * 1000000000) 1193182 ltac:(lia)). lia.
Qed.

Lemma ticks_after n : ticks (nanos n + 1) = n.
Proof.
  unfold ticks, nanos. pose proof (Z.div_mod (n * 1000000000) 1193182 ltac:(lia)).
  pose proof (Z.mod_pos_bound (n * 1000000000) 1193182 ltac:(lia)).
  symmetry. apply Z.div_unique with (r := (n * 1000000000 / 1193182 + 1) * 1193182 - n * 1000000000); lia.
Qed.

Lemma ticks_at n : ticks (nanos n) = if n mod 596591 =? 0 then n else n - 1.
Proof.
  unfold ticks, nanos. pose proof (Z.div_mod (n * 1000000000) 1193182 ltac:(lia)) as E.
  pose proof (Z.mod_pos_bound (n * 1000000000) 1193182 ltac:(lia)) as Hb.
  assert (n mod 596591 = 0 <-> (n * 1000000000) mod 1193182 = 0) as Hiff.
  { rewrite !Z.mod_divide by lia. split.
    - intros [k ->]. exists (k * 500000000). lia.
    - intros [k Hk]. apply (Z.gauss 596591 500000000); [exists k; lia|done]. }
  destruct (Z.eqb_spec (n mod 596591) 0) as [H0|H0].
  - rewrite (proj1 Hiff H0), Z.add_0_r in E. rewrite Z.mul_comm, <- E, Z.div_mul; lia.
  - assert ((n * 1000000000) mod 1193182 <> 0) by tauto. symmetry.
    apply Z.div_unique with (r := n * 1000000000 / 1193182 * 1193182 - (n - 1) * 1000000000); lia.
Qed.

(** ** The waveforms *)
(** The output of a channel in mode [m] with count [c], [d] ticks after the load. *)
Definition out_at (m c d : Z) : Z :=
  match m with
  | 1 => Z.b2z (d <? c)
  | 2 => if (d mod c =? 0) && negb (d =? 0) then 1 else 0
  | 3 => Z.b2z (d mod c <? (c + 1) / 2)
  | 4 | 5 => Z.b2z (d =? c)
  | _ => Z.b2z (c <=? d)
  end.

Definition chan_wf (s : PITChannelState) : Prop :=
  1 <= count s <= 65536 /\ is_u 16 (latched_count s) /\ 0 <= count_latched s <= 3 /\
  0 <= status_latched s <= 1 /\ is_u 8 (status s) /\ 0 <= read_state s <= 4 /\ 0 <= write_state s <= 4 /\
  is_u 8 (write_latch s) /\ 0 <= rw_mode s <= 3 /\ 0 <= mode s <= 7 /\ 0 <= bcd s <= 1 /\ 0 <= gate s <= 1.

Lemma u64_count s : chan_wf s -> u64 (count s) = count s.
Proof. intros (H & _). apply wrap_small. unfold is_u. lia. Qed.

Lemma mode_cases s : chan_wf s ->
  mode s = 0 \/ mode s = 1 \/ mode s = 2 \/ mode s = 3 \/ mode s = 4 \/ mode s = 5 \/ mode s = 6 \/ mode s = 7.
Proof. intros Hw. assert (0 <= mode s <= 7) by (repeat (destruct Hw as [? Hw]; try lia)). lia. Qed.

Ltac mode_case s Hw :=
  let Hm := fresh "Hm" in
  destruct (mode_cases s Hw) as [Hm|[Hm|[Hm|[Hm|[Hm|[Hm|[Hm|Hm]]]]]]]; rewrite ?Hm in *; cbn [obind].

Lemma half_up c : 0 <= c -> Z.shiftr (c + 1) 1 = (c + 1) / 2.
Proof. intros. by rewrite Z.shiftr_div_pow2 by lia. Qed.

Lemma get_out1_at s t : chan_wf s -> pit_get_out1 s t = Ret (out_at (mode s) (count s) (elapsed s t)).
Proof.
  intros Hw. unfold pit_get_out1, out_at, umod. rewrite u64_count by done. pose proof (proj1 Hw).
  assert (0 <= (count s + 1) / 2 <= 65536) by (split; [apply Z.div_pos; lia|apply Z.div_le_upper_bound; lia]).
  rewrite half_up, (wrap_small _ (_ / 2)) by (unfold is_u; lia).
  rewrite (proj2 (Z.eqb_neq (count s) 0)) by lia. by mode_case s Hw.
Qed.

(** The output changes at tick [n] and not before. *)
Definition steady (s : PITChannelState) (d n : Z) : Prop :=
  d < n <= d + 65537 /\ forall d', d <= d' < n -> out_at (mode s) (count s) d' = out_at (mode s) (count s) d.

Lemma mod_of_base c q r d : 0 <= r < c -> d = c * q + r -> d mod c = r.
Proof. intros. symmetry. by apply Z.mod_unique with q; [lia|]. Qed.

Lemma next_ticks_square s d :
  chan_wf s -> mode s = 3 -> 0 <= d < 2 ^ 53 ->
  exists n, next_ticks s d = Ret (Some n) /\ steady s d n /\
    (2 <= count s -> out_at 3 (count s) n <> out_at 3 (count s) d).
Proof.
  intros Hw Hm Hd. pose proof (proj1 Hw) as Hc. unfold next_ticks, steady, udiv. rewrite Hm, u64_count by done.
  rewrite (proj2 (Z.eqb_neq (count s) 0)) by lia. cbn [obind]. rewrite half_up by lia.
  unfold out_at. set (c := count s) in *. set (p := (c + 1) / 2).
  assert (1 <= p <= c /\ (2 <= c -> p < c)) as [Hp Hp2].
  { unfold p. pose proof (Z.div_mod (c + 1) 2 ltac:(lia)). pose proof (Z.mod_pos_bound (c + 1) 2 ltac:(lia)). lia. }
  pose proof (Z.div_mod d c ltac:(lia)) as E. pose proof (Z.mod_pos_bound d c ltac:(lia)) as Hr.
  set (q := d / c) in *. set (r := d mod c) in *.
  assert (q <= d) by (apply Z.div_le_upper_bound; nia). assert (0 <= q) by (apply Z.div_pos; lia).
  change (2 ^ 53) with 9007199254740992 in Hd.
  rewrite (wrap_small _ (q * c)), (wrap_small _ p) by (unfold is_u; nia).
  replace (d - q * c) with r by lia. rewrite (wrap_small _ r), !(wrap_small _ (q * c + _)) by (unfold is_u; nia).
  destruct (Z.ltb_spec r p); eexists; (split; [done|]); (split; [split; [nia|]|]).
  - intros d' Hd'. rewrite (mod_of_base c q (d' - q * c) d') by lia. by rewrite (proj2 (Z.ltb_lt _ _)) by lia.
  - intros H2. specialize (Hp2 H2). rewrite (mod_of_base c q p) by lia. by rewrite Z.ltb_irrefl.
  - intros d' Hd'. rewrite (mod_of_base c q (d' - q * c) d') by lia. by rewrite (proj2 (Z.ltb_ge _ _)) by lia.
  - intros H2. rewrite (mod_of_base c (q + 1) 0) by lia. by rewrite (proj2 (Z.ltb_lt _ _)) by lia.
Qed.

Lemma next_ticks_spec s d :
  chan_wf s -> mode s <> 2 -> 0 <= d < 2 ^ 53 ->
  (next_ticks s d = Ret None /\ forall d', d <= d' -> out_at (mode s) (count s) d' = out_at (mode s) (count s) d) \/
  (exists n, next_ticks s d = Ret (Some n) /\ steady s d n /\
     ((mode s = 3 -> 2 <= count s) -> out_at (mode s) (count s) n <> out_at (mode s) (count s) d)).
Proof.
  intros Hw H2 Hd. pose proof (proj1 Hw) as Hc. destruct (Z.eq_dec (mode s) 3) as [H3|H3].
  { right. rewrite H3. destruct (next_ticks_square s d Hw H3 Hd) as (n & E & Hs & Hn). exists n. auto. }
  unfold next_ticks, steady, out_at. rewrite u64_count by done. rewrite (wrap_small _ (count s + 1)) by (unfold is_u; lia).
  set (c := count s) in *. mode_case s Hw; try congruence;
    destruct (Z.ltb_spec d c); try (destruct (Z.eqb_spec d c));
    first [ right; eexists; (split; [done|]); (split; [split; [lia|intros d' Hd']|intros _])
          | left; split; [done|intros d' Hd'] ];
    repeat match goal with
    | |- context [?x <? ?y] => destruct (Z.ltb_spec x y)
    | |- context [?x =? ?y] => destruct (Z.eqb_spec x y)
    | |- context [?x <=? ?y] => destruct (Z.leb_spec x y)
    end; cbn; lia.
Qed.

Lemma ticks_step x : ticks (x + 1) <= ticks x + 1.
Proof. unfold ticks. rewrite <- (Z.div_add _ 1) by lia. apply Z.div_le_mono; lia. Qed.

Lemma elapsed_bound s t : time_ok s t -> 0 <= elapsed s t < 2 ^ 53 /\ elapsed s t <= t - count_load_time s.
Proof.
  intros H. rewrite elapsed_ticks by done. destruct H as [H1 H2]. change (2 ^ 62) with 4611686018427387904 in H2.
  change (2 ^ 53) with 9007199254740992. unfold ticks.
  split; [split|]; [apply Z.div_pos; lia|apply Z.div_lt_upper_bound; lia|apply Z.div_le_upper_bound; lia].
Qed.

(** The time armed for tick [n]. *)
Lemma next_time_at s t n :
  time_ok s t -> next_ticks s (elapsed s t) = Ret (Some n) -> elapsed s t < n <= elapsed s t + 65537 ->
  pit_get_next_transition_time s t = Ret (Z.max (count_load_time s + nanos n) (t + 1)) /\
  Z.max (count_load_time s + nanos n) (t + 1) + 1 < 2 ^ 63.
Proof.
  intros Ht E Hn. pose proof (elapsed_bound s t Ht) as [Hb Hb2]. pose proof Ht as [H1 H2].
  unfold pit_get_next_transition_time. rewrite E. cbn [obind].
  change (2 ^ 62) with 4611686018427387904 in H2. change (2 ^ 53) with 9007199254740992 in Hb.
  rewrite nanos_muldiv by (change (2 ^ 54) with 18014398509481984; lia).
  rewrite elapsed_ticks in Hn, Hb by done. unfold ticks in Hn, Hb.
  pose proof (Z.mul_div_le ((t - count_load_time s) * 1193182) 1000000000 ltac:(lia)) as Hd.
  set (d := (t - count_load_time s) * 1193182 / 1000000000) in *.
  assert (0 <= nanos n <= (t - count_load_time s) + 60000000) as Hnn.
  { unfold nanos. split; [apply Z.div_pos; lia|apply Z.div_le_upper_bound; lia]. }
  change (2 ^ 63) with 9223372036854775808.
  rewrite (wrap_small 64 (count_load_time s)), (wrap_small 64 t), (wrap_small 64 (t + 1)),
    (wrap_small 64 (_ + nanos n)) by (unfold is_u; change (2 ^ 64) with 18446744073709551616; lia).
  split; [|lia]. f_equal. destruct (Z.leb_spec (count_load_time s + nanos n) t);
    (rewrite swrap_small; [lia|lia|unfold is_s; change (2 ^ (64 - 1)) with 9223372036854775808; lia]).
Qed.

Lemma elapsed_mono s t t' : time_ok s t -> t <= t' -> t' < 2 ^ 62 -> elapsed s t <= elapsed s t'.
Proof.
  intros Ht H1 H2. assert (time_ok s t') by (destruct Ht; split; lia).
  rewrite !elapsed_ticks by done. apply ticks_mono. lia.
Qed.

(** When the time armed for tick [n] has come, tick [n] comes with it or 1 ns later. *)
Lemma tick_reached s t n :
  time_ok s t -> elapsed s t < n -> Z.max (count_load_time s + nanos n) (t + 1) + 1 < 2 ^ 62 ->
  let e := Z.max (count_load_time s + nanos n) (t + 1) in
  elapsed s e = n \/ elapsed s (e + 1) = n.
Proof.
  intros Ht Hd Hm e. pose proof Ht as [H1 H2]. rewrite elapsed_ticks in Hd by done.
  assert (time_ok s e /\ time_ok s (e + 1)) as [He He1] by (unfold e, time_ok; split; split; lia).
  rewrite !elapsed_ticks by done. unfold e in *.
  destruct (Z.le_gt_cases (t + 1) (count_load_time s + nanos n)).
  - right. rewrite Z.max_l by lia. replace (_ - _) with (nanos n + 1) by lia. apply ticks_after.
  - left. rewrite Z.max_r by lia. replace (t + 1 - count_load_time s) with (t - count_load_time s + 1) by lia.
    pose proof (ticks_step (t - count_load_time s)).
    pose proof (ticks_mono (nanos n + 1) (t - count_load_time s + 1) ltac:(lia)) as Hle. rewrite ticks_after in Hle. lia.
Qed.

Lemma not_yet s t t' n :
  time_ok s t -> time_ok s t' -> elapsed s t < n -> t <= t' < Z.max (count_load_time s + nanos n) (t + 1) ->
  elapsed s t <= elapsed s t' < n.
Proof.
  intros Ht Ht' Hd H. split; [apply elapsed_mono; [done|lia|apply Ht']|].
  destruct (Z.eq_dec t' t) as [->|]; [done|]. rewrite elapsed_ticks by done. apply ticks_before. lia.
Qed.

(** C21. The transition time computed for a channel is exact, in every mode but the rate
    generator's: if it is -1 the output keeps its value; otherwise it lies in the future, the
    output does not change before it, and it has changed 1 ns after it at the latest (the
    square wave with count 1 apart, which is constant).  The times are any of the first
    2^62 ns after the count was loaded. *)
Theorem pit_transition_exact (s : PITChannelState) (t : Z) :
  chan_wf s -> mode s <> 2 -> time_ok s t ->
  exists n, pit_get_next_transition_time s t = Ret n /\
    ((n = -1 /\ forall t', t <= t' < 2 ^ 62 -> pit_get_out1 s t' = pit_get_out1 s t) \/
     (t < n /\
      (forall t', t <= t' < n -> t' < 2 ^ 62 -> pit_get_out1 s t' = pit_get_out1 s t) /\
      (n + 1 < 2 ^ 62 -> (mode s = 3 -> 2 <= count s) ->
       pit_get_out1 s n <> pit_get_out1 s t \/ pit_get_out1 s (n + 1) <> pit_get_out1 s t))).
Proof.
  intros Hw Hm Ht. pose proof (elapsed_bound s t Ht) as [Hb _].
  destruct (next_ticks_spec s (elapsed s t) Hw Hm Hb) as [[E Hc]|(n & E & [Hn Hc] & Hch)].
  - exists (-1). unfold pit_get_next_transition_time. rewrite E. split; [done|]. left. split; [done|].
    intros t' Ht'. rewrite !get_out1_at by done. f_equal. apply Hc. apply elapsed_mono; [done|lia|lia].
  - destruct (next_time_at s t n Ht E Hn) as [-> _]. eexists. split; [done|]. right. split_and!; [lia| |].
    + intros t' Ht' Ht2. rewrite !get_out1_at by done. f_equal. apply Hc.
      apply (not_yet s t t' n); [done| |lia|lia]. destruct Ht. split; lia.
    + intros Hlim H3. specialize (Hch H3). rewrite !get_out1_at by done.
      destruct (tick_reached s t n Ht ltac:(lia) Hlim) as [->| ->]; [left|right]; congruence.
Qed.

Definition square_1000 : PITChannelState := mkChannel 1000 0 0 0 0 3 3 0 3 3 0 1 5 0 (Some None).

Lemma pit_transition_exact_witness :
  exists n, pit_get_next_transition_time square_1000 7000 = Ret n /\
    ((n = -1 /\ forall t', 7000 <= t' < 2 ^ 62 -> pit_get_out1 square_1000 t' = pit_get_out1 square_1000 7000) \/
     (7000 < n /\
      (forall t', 7000 <= t' < n -> t' < 2 ^ 62 -> pit_get_out1 square_1000 t' = pit_get_out1 square_1000 7000) /\
      (n + 1 < 2 ^ 62 -> (mode square_1000 = 3 -> 2 <= count square_1000) ->
       pit_get_out1 square_1000 n <> pit_get_out1 square_1000 7000 \/
       pit_get_out1 square_1000 (n + 1) <> pit_get_out1 square_1000 7000))).
Proof.
  apply (pit_transition_exact square_1000 7000).
  - unfold chan_wf, is_u. cbn. lia.
  - discriminate.
  - unfold time_ok. cbn. lia.
Defined.

(** ** The rate generator *)
Lemma next_ticks_rate s d :
  chan_wf s -> mode s = 2 -> 0 <= d < 2 ^ 53 ->
  next_ticks s d = Ret (Some (if out_at 2 (count s) d =? 1 then d + count s
                              else (d / count s + 1) * count s + 1)).
Proof.
  intros Hw Hm Hd. pose proof (proj1 Hw) as Hc. unfold next_ticks, udiv. rewrite Hm, u64_count by done.
  rewrite (proj2 (Z.eqb_neq (count s) 0)) by lia. cbn [obind]. unfold out_at. set (c := count s) in *.
  pose proof (Z.div_mod d c ltac:(lia)) as E. pose proof (Z.mod_pos_bound d c ltac:(lia)) as Hr.
  set (q := d / c) in *. set (r := d mod c) in *.
  assert (q <= d) by (apply Z.div_le_upper_bound; nia). assert (0 <= q) by (apply Z.div_pos; lia).
  change (2 ^ 53) with 9007199254740992 in Hd.
  assert (forall x, 0 <= x < 18446744073709551616 -> u64 x = x) as Hu by (intros; by apply wrap_small).
  rewrite (Hu (q * c)) by nia. replace (d - q * c) with r by lia.
  rewrite (Hu r), (Hu (q * c + c)), (Hu (q * c + c + 1)) by nia.
  do 2 f_equal. destruct (Z.eqb_spec r 0); destruct (Z.eqb_spec d 0); cbn [andb negb]; cbn; nia.
Qed.

(** The tick the code aims at in mode 2, when [d] ticks have passed and the output is [o]. *)
Definition rate_aim (c d o : Z) : Z := if o =? 1 then d + c else (d / c + 1) * c + 1.

Lemma rate_aim_spec c d o :
  2 <= c <= 65536 -> 0 <= d -> out_at 2 c d = o ->
  d < rate_aim c d o - 1 /\ rate_aim c d o <= d + 65537 /\ out_at 2 c (rate_aim c d o - 1) = 1 - o /\
  (o = 0 -> rate_aim c d o - 1 = (d / c + 1) * c).
Proof.
  intros Hc Hd Ho. pose proof (Z.div_mod d c ltac:(lia)) as Ed. pose proof (Z.mod_pos_bound d c ltac:(lia)) as Hr.
  assert (0 <= d / c) by (apply Z.div_pos; lia). unfold out_at in *. unfold rate_aim. revert Ho.
  destruct (Z.eqb_spec (d mod c) 0) as [Hr0|Hr0]; destruct (Z.eqb_spec d 0) as [Hd0|Hd0]; cbn [andb negb]; intros <-;
    (change (1 =? 1) with true || change (0 =? 1) with false); cbv iota.
  2: rewrite (mod_of_base c (d / c) (c - 1)) by lia; rewrite (proj2 (Z.eqb_neq (c - 1) 0)) by lia; cbn [andb]; lia.
  all: rewrite (mod_of_base c (d / c + 1) 0), (proj2 (Z.eqb_neq ((d / c + 1) * c + 1 - 1) 0)) by nia;
    change (0 =? 0) with true; cbn [andb negb]; nia.
Qed.

(** The timer armed for tick [n], fired at its time, finds [n - 1] ticks passed. *)
Lemma fires_at s t n :
  time_ok s t -> t + 2 ^ 27 < 2 ^ 62 -> next_ticks s (elapsed s t) = Ret (Some n) ->
  elapsed s t < n - 1 -> n <= elapsed s t + 65537 -> n mod 596591 <> 0 ->
  exists e, pit_get_next_transition_time s t = Ret e /\ t < e <= t + 2 ^ 27 /\ elapsed s e = n - 1.
Proof.
  intros Ht Hlim E Hn1 Hn2 Hnz. destruct (next_time_at s t n Ht E ltac:(lia)) as [-> _].
  pose proof Ht as [H1 H2]. rewrite elapsed_ticks in Hn1, Hn2 by done.
  assert (ticks (nanos n) = n - 1) as Ek by (by rewrite ticks_at, (proj2 (Z.eqb_neq _ _) Hnz)).
  assert (t < count_load_time s + nanos n) as Hfut.
  { destruct (Z.le_gt_cases (count_load_time s + nanos n) t) as [Hle|]; [|done].
    pose proof (ticks_mono (nanos n) (t - count_load_time s) ltac:(lia)). lia. }
  assert (nanos n <= (t - count_load_time s) + 2 ^ 27) as Hnn.
  { change (2 ^ 27) with 134217728. unfold ticks in Hn2. unfold nanos.
    pose proof (Z.mul_div_le ((t - count_load_time s) * 1193182) 1000000000 ltac:(lia)).
    apply Z.div_le_upper_bound; lia. }
  exists (count_load_time s + nanos n). rewrite Z.max_l by lia. split_and!; [done|done|lia|].
  rewrite elapsed_ticks by (split; lia). by replace (_ - _) with (nanos n) by lia.
Qed.

(** The rate generator (mode 2): the timer, fired at the time computed for it,
    toggles the interrupt line, and the line rises at the tick that is the next multiple
    of the count, so one interrupt is raised per period, provided the tick the code aims
    at is not a whole number of nanoseconds, that is not a multiple of 596591 (when
    it is, the interrupt of that period is lost).  The code aims one tick past the edge and relies on the
    conversion to nanoseconds rounding down. *)
Theorem pit_rate_generator (s : PITChannelState) (t o : Z) :
  chan_wf s -> mode s = 2 -> 2 <= count s -> time_ok s t -> t + 2 ^ 27 < 2 ^ 62 ->
  pit_get_out1 s t = Ret o ->
  rate_aim (count s) (elapsed s t) o mod 596591 <> 0 ->
  exists n, pit_get_next_transition_time s t = Ret n /\ t < n /\ pit_get_out1 s n = Ret (1 - o) /\
    (o = 0 -> elapsed s n = (elapsed s t / count s + 1) * count s).
Proof.
  intros Hw Hm H2 Ht Hlim Ho Haim. pose proof (elapsed_bound s t Ht) as [Hb _]. pose proof (proj1 Hw) as Hc.
  rewrite get_out1_at, Hm in Ho by done. apply Ret_inj in Ho.
  pose proof (next_ticks_rate s (elapsed s t) Hw Hm Hb) as E. rewrite Ho in E. fold (rate_aim (count s) (elapsed s t) o) in E.
  destruct (rate_aim_spec (count s) (elapsed s t) o ltac:(lia) ltac:(lia) Ho) as (Hn1 & Hn2 & Hout & Hz).
  destruct (fires_at s t _ Ht Hlim E Hn1 Hn2 Haim) as (e & He & [Hte _] & Hel).
  exists e. rewrite get_out1_at, Hm, Hel by done. split_and!; [done|done|by f_equal|done].
Qed.

Definition rate_1000 : PITChannelState := mkChannel 1000 0 0 0 0 3 3 0 3 2 0 1 5 0 (Some None).

Lemma pit_rate_generator_witness :
  exists n, pit_get_next_transition_time rate_1000 7000 = Ret n /\ 7000 < n /\ pit_get_out1 rate_1000 n = Ret (1 - 0) /\
    (0 = 0 -> elapsed rate_1000 n = (elapsed rate_1000 7000 / count rate_1000 + 1) * count rate_1000).
Proof.
  apply (pit_rate_generator rate_1000 7000 0).
  - unfold chan_wf, is_u. cbn. lia.
  - reflexivity.
  - cbn. lia.
  - unfold time_ok. cbn. lia.
  - lia.
  - vm_compute. reflexivity.
  - vm_compute. discriminate.
Defined.

(** The largest count: when the tick aimed at is exact, the timer fires past the edge,
    with the output low before and after it, and the interrupt of that period is lost. *)
Definition rate_max : PITChannelState := mkChannel 65536 0 0 0 0 3 3 0 3 2 0 1 0 0 (Some None).

Lemma pit_rate_tick_lost :
  exists t n, time_ok rate_max t /\
    pit_get_out1 rate_max t = Ret 0 /\ pit_get_next_transition_time rate_max t = Ret n /\
    pit_get_out1 rate_max n = Ret 0 /\ elapsed rate_max t < 308919 * 65536 < elapsed rate_max n.
Proof.
  exists 16967445157571, 16967500000000. split; [unfold time_ok; cbn; lia|].
  split_and!; vm_compute; reflexivity.
Qed.

(** ** Well-formedness of the device *)
Definition legacy (pit : PITState) : bool := negb (Z.land (flags pit) PIT_FLAGS_HPET_LEGACY =? 0).

(** Channel 0 alone has a timer, which is not armed while the HPET replaces it. *)
Definition timer_ok (i : nat) (off : bool) (t : option (option Z)) : Prop :=
  match t with
  | None => i <> 0%nat
  | Some armed => i = 0%nat /\ (off = true -> armed = None)
  end.

Definition pit_wf (pit : PITState) : Prop :=
  length (channels pit) = 3%nat /\ is_u 32 (flags pit) /\
  forall i s, channels pit !! i = Some s -> chan_wf s /\ timer_ok i (legacy pit) (irq_timer s).

Lemma chan_ok pit i :
  pit_wf pit -> 0 <= i < 3 ->
  exists s, chan pit i = Ret s /\ chan_wf s /\ timer_ok (Z.to_nat i) (legacy pit) (irq_timer s).
Proof.
  intros (Hl & _ & Hc) Hi. unfold chan. rewrite (proj2 (Z.ltb_ge _ _)) by lia.
  destruct (lookup_lt_is_Some_2 (channels pit) (Z.to_nat i)) as [s Es]; [lia|].
  exists s. rewrite Es. destruct (Hc _ _ Es). done.
Qed.

Lemma chan_set_same pit i s : pit_wf pit -> 0 <= i < 3 -> chan (set_chan pit i s) i = Ret s.
Proof.
  intros (Hl & _) Hi. unfold chan, set_chan. cbn [channels]. rewrite (proj2 (Z.ltb_ge _ _)) by lia.
  by rewrite list_lookup_insert_eq by lia.
Qed.

Lemma set_chan_wf pit i s :
  pit_wf pit -> 0 <= i < 3 -> chan_wf s -> timer_ok (Z.to_nat i) (legacy pit) (irq_timer s) ->
  pit_wf (set_chan pit i s).
Proof.
  intros (Hl & Hf & Hc) Hi Hs Ht. split_and!; [by cbn; rewrite length_insert|done|].
  intros j s' Hj. cbn [channels set_chan] in Hj. change (legacy (set_chan pit i s)) with (legacy pit).
  destruct (decide (Z.to_nat i = j)) as [<-|Hne].
  - rewrite list_lookup_insert_eq in Hj by lia. by injection Hj as <-.
  - rewrite list_lookup_insert_ne in Hj by done. by apply Hc.
Qed.

Lemma out_at_bit m c d : 0 <= out_at m c d <= 1.
Proof.
  assert (forall b, 0 <= Z.b2z b <= 1) as Hb by (intros []; cbn; lia).
  unfold out_at. destruct m as [|[[[]|[]|]|[[]|[]|]|]|]; auto; destruct (_ && _); lia.
Qed.

Lemma get_count_ok s now : chan_wf s -> exists c, pit_get_count s now = Ret c /\ 0 <= c <= 65536.
Proof.
  intros Hw. pose proof (proj1 Hw) as Hc. unfold pit_get_count, umod. rewrite u64_count by done.
  rewrite (proj2 (Z.eqb_neq (count s) 0)) by lia.
  assert (forall z, 0 <= Z.land z 0xffff <= 65536) as Hland.
  { intros z. change 0xffff with (Z.ones 16). rewrite Z.land_ones by lia.
    pose proof (Z.mod_pos_bound z (2 ^ 16) ltac:(lia)). change (2 ^ 16) with 65536 in *. lia. }
  assert (forall z, 0 <= s32 (u64 (count s - z mod count s)) <= 65536) as Hmod.
  { intros z. pose proof (Z.mod_pos_bound z (count s) ltac:(lia)).
    rewrite wrap_small by (unfold is_u; change (2 ^ 64) with 18446744073709551616; lia).
    rewrite swrap_small; [lia|lia|]. unfold is_s. change (2 ^ (32 - 1)) with 2147483648. lia. }
  mode_case s Hw; eauto.
Qed.

Lemma next_time_ret s t : chan_wf s -> exists e, pit_get_next_transition_time s t = Ret e.
Proof.
  intros Hw. pose proof (proj1 Hw) as Hc. unfold pit_get_next_transition_time.
  assert (exists n, next_ticks s (elapsed s t) = Ret n) as [n ->].
  { unfold next_ticks, udiv. rewrite u64_count by done. rewrite (proj2 (Z.eqb_neq (count s) 0)) by lia.
    mode_case s Hw; eauto. }
  destruct n; cbn [obind]; eauto.
Qed.

(** What an access leaves: a well-formed device, the same flags, and, while the HPET
    replaces channel 0, no activity on the interrupt line. *)
Definition kept (pit pit' : PITState) : Prop :=
  pit_wf pit' /\ flags pit' = flags pit /\ (legacy pit = true -> irq_log pit' = irq_log pit).

Lemma kept_trans p q r : kept p q -> kept q r -> kept p r.
Proof.
  intros (_ & F1 & L1) (W2 & F2 & L2). split_and!; [done|congruence|]. intros H.
  rewrite L2, L1; [done|done|]. unfold legacy in *. by rewrite F1.
Qed.

Lemma kept_refl p : pit_wf p -> kept p p.
Proof. done. Qed.

Lemma kept_set_chan pit i s s0 :
  pit_wf pit -> 0 <= i < 3 -> chan pit i = Ret s0 -> chan_wf s -> irq_timer s = irq_timer s0 ->
  kept pit (set_chan pit i s).
Proof.
  intros Hp Hi E Hs Ht. split_and!; [|done|done]. apply set_chan_wf; [done|done|done|].
  destruct (chan_ok pit i Hp Hi) as (s1 & E1 & _ & Ht1). rewrite E in E1. injection E1 as <-. by rewrite Ht.
Qed.

Ltac wf_field := unfold chan_wf, is_u in *; cbn; intuition lia.

Section Device.
Variable td : bool.

(** [pit_irq_timer_update] is only reached on channel 0 when it is not replaced. *)
Lemma update_kept pit i t :
  pit_wf pit -> 0 <= i < 3 -> (i = 0 -> legacy pit = false) ->
  exists pit', pit_irq_timer_update td pit i t = Ret pit' /\ kept pit pit' /\
    exists s s', chan pit i = Ret s /\ chan pit' i = Ret s' /\
      s' = set_timer s (next_transition_time s') (irq_timer s').
Proof.
  intros Hp Hi Hleg. destruct (chan_ok pit i Hp Hi) as (s & E & Hs & Ht). unfold pit_irq_timer_update. rewrite E. cbn [obind].
  destruct (irq_timer s) as [armed|] eqn:Et.
  2: { exists pit. split; [done|]. split; [by apply kept_refl|]. exists s, s. rewrite Et. split_and!; [done|done|].
       destruct s; cbn in *. by subst. }
  destruct (next_time_ret s t Hs) as [e ->]. rewrite get_out1_at by done. cbn [obind].
  eexists. split; [done|]. destruct Ht as [Hi0 _]. assert (i = 0) as -> by lia. specialize (Hleg eq_refl).
  set (d := if td && _ then _ else _). set (o := out_at _ _ _).
  assert (pit_wf (mkPit (channels pit) (flags pit) d (irq_log pit ++ [o]))) as Hp' by exact Hp.
  split.
  - split_and!; [|done|congruence]. apply set_chan_wf; [done|done|wf_field|]. split; [done|].
    change (legacy _) with (legacy pit). congruence.
  - eexists _, _. split; [done|]. split; [by apply chan_set_same|]. done.
Qed.

Lemma load_count_kept pit val i now :
  pit_wf pit -> 0 <= i < 3 -> 0 <= val <= 65536 ->
  exists pit', pit_load_count td pit val i now = Ret pit' /\ kept pit pit' /\
    exists s s', chan pit i = Ret s /\ chan pit' i = Ret s' /\
      s' = set_timer (set_count s (if val =? 0 then 65536 else val) now) (next_transition_time s') (irq_timer s').
Proof.
  intros Hp Hi Hv. destruct (chan_ok pit i Hp Hi) as (s & E & Hs & Ht). unfold pit_load_count. rewrite E. cbn [obind].
  set (s1 := set_count s _ now). assert (kept pit (set_chan pit i s1)) as Hk.
  { apply (kept_set_chan _ _ _ s); [done|done|done| |done]. unfold s1. destruct (Z.eqb_spec val 0); wf_field. }
  pose proof (chan_set_same pit i s1 Hp Hi) as E1. change (flags (set_chan pit i s1)) with (flags pit).
  fold (legacy pit). destruct (Z.eqb_spec i 0) as [->|Hi0]; cbn [andb]; [destruct (legacy pit) eqn:El|].
  - eexists. split; [done|]. split; [done|]. exists s, s1. split_and!; [done|done|]. by destruct s.
  - destruct (update_kept (set_chan pit 0 s1) 0 now) as (pit' & -> & Hk' & t & t' & Et & Et' & H);
      [apply Hk|done|done|]. exists pit'. split; [done|]. split; [exact (kept_trans _ _ _ Hk Hk')|].
    rewrite E1 in Et. injection Et as <-. by exists s, t'.
  - destruct (update_kept (set_chan pit i s1) i now) as (pit' & -> & Hk' & t & t' & Et & Et' & H);
      [apply Hk|done|done|]. exists pit'. split; [done|]. split; [exact (kept_trans _ _ _ Hk Hk')|].
    rewrite E1 in Et. injection Et as <-. by exists s, t'.
Qed.

Lemma latch_ok s now :
  chan_wf s -> exists s', pit_latch_count s now = Ret s' /\ chan_wf s' /\ irq_timer s' = irq_timer s.
Proof.
  intros Hs. unfold pit_latch_count. destruct (_ =? 0); [|eauto].
  destruct (get_count_ok s now Hs) as (c & -> & Hc). cbn [obind]. eexists. split; [done|]. split; [|done].
  pose proof (wrap_range 16 c ltac:(lia)). wf_field.
Qed.

Lemma status_latch_ok s now :
  chan_wf s -> exists s', status_latch s now = Ret s' /\ chan_wf s' /\ irq_timer s' = irq_timer s.
Proof.
  intros Hs. unfold status_latch. rewrite get_out1_at by done. cbn [obind]. eexists. split; [done|]. split; [|done].
  set (v := Z.lor _ _). pose proof (wrap_range 8 v ltac:(lia)). wf_field.
Qed.

Lemma read_back_kept pit i val now now' :
  pit_wf pit -> 0 <= i < 3 -> exists pit', read_back pit i val now now' = Ret pit' /\ kept pit pit'.
Proof.
  intros Hp Hi. destruct (chan_ok pit i Hp Hi) as (s & E & Hs & _). unfold read_back. rewrite E. cbn [obind].
  destruct (_ =? 0); [by exists pit|].
  assert (exists s1, (if Z.land val 0x20 =? 0 then pit_latch_count s now else Ret s) = Ret s1 /\
            chan_wf s1 /\ irq_timer s1 = irq_timer s) as (s1 & -> & Hs1 & Ht1).
  { destruct (_ =? 0); [by apply latch_ok|eauto]. }
  cbn [obind].
  assert (exists s2, (if (Z.land val 0x10 =? 0) && (status_latched s1 =? 0) then status_latch s1 now' else Ret s1) = Ret s2 /\
            chan_wf s2 /\ irq_timer s2 = irq_timer s) as (s2 & -> & Hs2 & Ht2).
  { destruct (_ && _); [|eauto]. destruct (status_latch_ok s1 now' Hs1) as (s2 & ? & ? & ?). exists s2. by rewrite <- Ht1. }
  eexists. split; [done|]. by apply (kept_set_chan _ _ _ s).
Qed.

Lemma land3 a : Z.land a 3 = a mod 4.
Proof. change 3 with (Z.ones 2). by rewrite Z.land_ones by lia. Qed.

Lemma land_small a n : 0 <= n -> 0 <= Z.land a (Z.ones n) < 2 ^ n.
Proof. intros. rewrite Z.land_ones by lia. apply Z.mod_pos_bound. lia. Qed.

Lemma latch_word a b : is_u 8 a -> is_u 8 b -> Z.lor a (Z.shiftl b 8) = a + 256 * b.
Proof.
  intros Ha Hb. pose proof (Z.add_lor_land a (Z.shiftl b 8)) as E.
  cut (Z.land a (Z.shiftl b 8) = 0); [rewrite Z.shiftl_mul_pow2 in * by lia; lia|]. apply Z.bits_inj'. intros n Hn. rewrite Z.land_spec, Z.bits_0.
  destruct (Z.lt_ge_cases n 8); [by rewrite Z.shiftl_spec_low, andb_false_r by lia|].
  rewrite (Z.bits_above_log2 a n); [done|unfold is_u in Ha; lia|].
  destruct (Z.eq_dec a 0) as [->|]; [cbn; lia|]. apply Z.log2_lt_pow2; [unfold is_u in Ha; lia|].
  apply Z.lt_le_trans with (2 ^ 8); [apply Ha|apply Z.pow_le_mono_r; lia].
Qed.

Lemma write_kept pit addr val now :
  pit_wf pit -> is_u 8 val -> exists pit', pit_ioport_write td pit addr val now = Ret pit' /\ kept pit pit'.
Proof.
  intros Hp Hv. unfold pit_ioport_write. rewrite land3. pose proof (Z.mod_pos_bound addr 4 ltac:(lia)) as Ha.
  unfold is_u in Hv. change (2 ^ 8) with 256 in Hv. destruct (Z.eqb_spec (addr mod 4) 3) as [_|Hne].
  - assert (0 <= Z.shiftr val 6 <= 3) as Hch.
    { rewrite Z.shiftr_div_pow2 by lia. change (2 ^ 6) with 64.
      pose proof (Z.div_lt_upper_bound val 64 4). pose proof (Z.div_pos val 64). lia. }
    destruct (Z.eqb_spec (Z.shiftr val 6) 3).
    + destruct (read_back_kept pit 0 val (now 0%nat) (now 1%nat) Hp ltac:(lia)) as (p1 & -> & K1). cbn [obind].
      destruct (read_back_kept p1 1 val (now 2%nat) (now 3%nat) ltac:(apply K1) ltac:(lia)) as (p2 & -> & K2). cbn [obind].
      destruct (read_back_kept p2 2 val (now 4%nat) (now 5%nat) ltac:(apply K2) ltac:(lia)) as (p3 & -> & K3).
      exists p3. split; [done|]. exact (kept_trans _ _ _ K1 (kept_trans _ _ _ K2 K3)).
    + destruct (chan_ok pit (Z.shiftr val 6) Hp ltac:(lia)) as (s & E & Hs & Ht). rewrite E. cbn [obind].
      pose proof (land_small (Z.shiftr val 4) 2 ltac:(lia)) as H2. pose proof (land_small (Z.shiftr val 1) 3 ltac:(lia)) as H3.
      pose proof (land_small val 1 ltac:(lia)) as H1. change (Z.ones 2) with 3 in *. change (Z.ones 3) with 7 in *.
      change (Z.ones 1) with 1 in *. change (2 ^ 2) with 4 in *. change (2 ^ 3) with 8 in *. change (2 ^ 1) with 2 in *.
      destruct (_ =? 0).
      * destruct (latch_ok s (now 0%nat) Hs) as (s1 & -> & Hs1 & Ht1). cbn [obind].
        eexists. split; [done|]. by apply (kept_set_chan _ _ _ s); [|lia| | |].
      * eexists. split; [done|]. apply (kept_set_chan _ _ _ s); [done|lia|done|wf_field|done].
  - destruct (chan_ok pit (addr mod 4) Hp ltac:(lia)) as (s & E & Hs & Ht). rewrite E. cbn [obind].
    assert (0 <= write_state s <= 4 /\ is_u 8 (write_latch s)) as [Hws Hwl] by wf_field.
    assert (write_state s = 0 \/ write_state s = 1 \/ write_state s = 2 \/ write_state s = 3 \/ write_state s = 4)
      as [->|[->|[->|[->| ->]]]] by lia.
    + destruct (load_count_kept pit val (addr mod 4) (now 0%nat) Hp ltac:(lia) ltac:(lia)) as (p & -> & K & _). eauto.
    + destruct (load_count_kept pit val (addr mod 4) (now 0%nat) Hp ltac:(lia) ltac:(lia)) as (p & -> & K & _). eauto.
    + rewrite Z.shiftl_mul_pow2 by lia.
      destruct (load_count_kept pit (val * 2 ^ 8) (addr mod 4) (now 0%nat) Hp ltac:(lia) ltac:(lia)) as (p & -> & K & _). eauto.
    + eexists. split; [done|]. apply (kept_set_chan _ _ _ s); [done|lia|done| |done].
      pose proof (wrap_range 8 val ltac:(lia)). unfold RW_STATE_WORD1. wf_field.
    + rewrite latch_word by done.
      destruct (load_count_kept pit (write_latch s + 256 * val) (addr mod 4) (now 0%nat) Hp ltac:(lia)) as (p & -> & K & _);
        [unfold is_u in Hwl; lia|]. cbn [obind].
      destruct (chan_ok p (addr mod 4) ltac:(apply K) ltac:(lia)) as (s1 & E1 & Hs1 & Ht1). rewrite E1. cbn [obind].
      eexists. split; [done|]. apply (kept_trans _ _ _ K). apply (kept_set_chan _ _ _ s1); [apply K|lia|done| |done].
      unfold RW_STATE_WORD0. wf_field.
Qed.

Lemma read_kept pit addr now :
  pit_wf pit -> addr mod 4 <> 3 ->
  exists v pit', pit_ioport_read pit addr now = Ret (v, pit') /\ is_u 8 v /\ kept pit pit'.
Proof.
  intros Hp Ha. unfold pit_ioport_read. rewrite land3. pose proof (Z.mod_pos_bound addr 4 ltac:(lia)).
  destruct (chan_ok pit (addr mod 4) Hp ltac:(lia)) as (s & E & Hs & Ht). rewrite E. cbn [obind].
  assert (0 <= count_latched s <= 3 /\ 0 <= read_state s <= 4 /\ is_u 8 (status s) /\ is_u 16 (latched_count s))
    as (Hcl & Hrs & Hst & Hlc) by wf_field.
  assert (forall z, is_u 8 (Z.land z 0xff)) as Hff by (intros z; apply (land_small z 8); lia).
  assert (forall s', chan_wf s' -> irq_timer s' = irq_timer s -> kept pit (set_chan pit (addr mod 4) s')) as Hset.
  { intros s' H1 H2. apply (kept_set_chan _ _ _ s); [done|lia|done|done|done]. }
  destruct (negb (status_latched s =? 0)).
  { do 2 eexists. split; [done|]. split; [done|]. apply Hset; [wf_field|done]. }
  destruct (Z.eqb_spec (count_latched s) 0) as [_|Hnz]; cbn [negb].
  - destruct (get_count_ok s now Hs) as (c & -> & Hc). cbn [obind].
    assert (read_state s = 0 \/ read_state s = 1 \/ read_state s = 2 \/ read_state s = 3 \/ read_state s = 4)
      as [->|[->|[->|[->| ->]]]] by lia; do 2 eexists; (split; [done|]); (split; [apply Hff|]);
      first [by apply kept_refl | unfold RW_STATE_WORD1, RW_STATE_WORD0; apply Hset; [wf_field|done]].
  - assert (is_u 8 (Z.shiftr (latched_count s) 8)) as Hhi.
    { rewrite Z.shiftr_div_pow2 by lia. unfold is_u in *. split; [apply Z.div_pos; lia|apply Z.div_lt_upper_bound; lia]. }
    assert (count_latched s = 1 \/ count_latched s = 2 \/ count_latched s = 3) as [->|[->| ->]] by lia;
      do 2 eexists; (split; [done|]); (split; [first [apply Hff|done]|]);
      unfold RW_STATE_MSB; (apply Hset; [wf_field|done]).
Qed.

Lemma timer_kept pit e :
  pit_wf pit -> (exists s, chan pit 0 = Ret s /\ irq_timer s = Some (Some e)) ->
  exists pit', pit_irq_timer td pit 0 = Ret pit' /\ kept pit pit'.
Proof.
  intros Hp (s & E & Et). unfold pit_irq_timer. rewrite E. cbn [obind].
  destruct (update_kept pit 0 (next_transition_time s) Hp ltac:(lia)) as (p & -> & K & _); [|eauto].
  intros _. destruct (chan_ok pit 0 Hp ltac:(lia)) as (s1 & E1 & _ & Ht). rewrite E in E1. injection E1 as <-.
  rewrite Et in Ht. destruct Ht as [_ Ht]. destruct (legacy pit); [by specialize (Ht eq_refl)|done].
Qed.

Lemma gate_kept pit i val now :
  pit_wf pit -> 1 <= i < 3 -> 0 <= val <= 1 -> exists pit', pit_set_gate td pit i val now = Ret pit' /\ kept pit pit'.
Proof.
  intros Hp Hi Hv. destruct (chan_ok pit i Hp ltac:(lia)) as (s & E & Hs & Ht). unfold pit_set_gate. rewrite E. cbn [obind].
  assert (exists p, (if gate s <? val then pit_irq_timer_update td (set_chan pit i (set_count s (count s) now)) i now
                     else Ret pit) = Ret p /\ kept pit p) as (p1 & Er & K1).
  { destruct (_ <? _); [|exists pit; by split; [|apply kept_refl]].
    assert (kept pit (set_chan pit i (set_count s (count s) now))) as K.
    { apply (kept_set_chan _ _ _ s); [done|lia|done|wf_field|done]. }
    destruct (update_kept (set_chan pit i (set_count s (count s) now)) i now ltac:(apply K) ltac:(lia) ltac:(lia))
      as (p & -> & K' & _). exists p. split; [done|]. exact (kept_trans _ _ _ K K'). }
  assert (exists p, match mode s with
                    | 1 | 5 | 2 | 3 => if gate s <? val
                        then pit_irq_timer_update td (set_chan pit i (set_count s (count s) now)) i now else Ret pit
                    | _ => Ret pit end = Ret p /\ kept pit p) as (p & -> & K).
  { mode_case s Hs; first [by exists p1 | exists pit; split; [done|by apply kept_refl]]. }
  cbn [obind]. destruct (chan_ok p i ltac:(apply K) ltac:(lia)) as (s1 & E1 & Hs1 & Ht1). rewrite E1. cbn [obind].
  eexists. split; [done|]. apply (kept_trans _ _ _ K). apply (kept_set_chan _ _ _ s1); [apply K|lia|done|wf_field|done].
Qed.

Lemma enable_flags pit :
  pit_wf pit -> let pit' := set_flags pit (Z.land (flags pit) (u32 (Z.lnot PIT_FLAGS_HPET_LEGACY))) in
  pit_wf pit' /\ legacy pit' = false.
Proof.
  intros (Hl & Hf & Hc). cbn zeta. set (f := Z.land _ _).
  assert (legacy (set_flags pit f) = false) as El.
  { unfold legacy, f. cbn [flags set_flags]. rewrite <- Z.land_assoc.
    change (Z.land (u32 (Z.lnot PIT_FLAGS_HPET_LEGACY)) PIT_FLAGS_HPET_LEGACY) with 0. by rewrite Z.land_0_r. }
  split; [|done]. split_and!; [done| |].
  - cbn [flags set_flags]. replace f with (Z.land f (Z.ones 32)) by (unfold f; by rewrite <- Z.land_assoc).
    apply land_small. lia.
  - intros i s Hi. destruct (Hc i s Hi) as [Hs Ht]. split; [done|]. rewrite El.
    destruct (irq_timer s); cbn in *; [|done]. by destruct Ht.
Qed.

Lemma kept_legacy p q b : legacy p = b -> kept p q -> legacy q = b.
Proof. intros <- (_ & F & _). unfold legacy. by rewrite F. Qed.

Lemma enable_ok pit now :
  pit_wf pit -> exists pit', hpet_enable_pit td pit now = Ret pit' /\ pit_wf pit' /\ legacy pit' = false.
Proof.
  intros Hp. destruct (enable_flags pit Hp) as [Hp1 El]. unfold hpet_enable_pit. set (p1 := set_flags _ _) in *.
  destruct (chan_ok p1 0 Hp1 ltac:(lia)) as (s & E & Hs & _). rewrite E. cbn [obind].
  assert (1 <= count s <= 65536) as Hc by wf_field.
  destruct (load_count_kept p1 (count s) 0 now Hp1 ltac:(lia) ltac:(lia)) as (p & -> & K & _).
  exists p. split; [done|]. split; [apply K|]. by eapply kept_legacy.
Qed.

Lemma disable_ok pit :
  pit_wf pit -> exists pit', hpet_disable_pit pit = Ret pit' /\ pit_wf pit' /\ irq_log pit' = irq_log pit.
Proof.
  intros Hp. destruct (chan_ok pit 0 Hp ltac:(lia)) as (s & E & Hs & Ht). pose proof Hp as (Hl & Hf & Hc).
  unfold hpet_disable_pit. set (f := Z.lor _ _). change (chan (set_flags pit f) 0) with (chan pit 0). rewrite E. cbn [obind].
  eexists. split; [done|]. destruct (irq_timer s) as [armed|] eqn:Et; [|by destruct Ht]. split; [|done].
  split_and!; [by cbn; rewrite length_insert| |].
  - cbn [flags set_chan set_flags]. unfold is_u in *. split; [apply Z.lor_nonneg; split; [apply Hf|done]|].
    destruct (Z.eq_dec f 0) as [->|]; [done|]. apply Z.log2_lt_pow2.
    + assert (0 <= f) by (apply Z.lor_nonneg; split; [apply Hf|done]). lia.
    + unfold f. rewrite Z.log2_lor by (done || apply Hf). apply Z.max_lub_lt; [|done].
      destruct (Z.eq_dec (flags pit) 0) as [->|]; [done|]. apply Z.log2_lt_pow2; lia.
  - intros j s' Hj. cbn [channels set_chan set_flags] in Hj. destruct j as [|j].
    + rewrite list_lookup_insert_eq in Hj by lia. injection Hj as <-. split; [wf_field|]. by split.
    + rewrite list_lookup_insert_ne in Hj by done. destruct (Hc _ _ Hj) as [H1 H2]. split; [done|].
      destruct (irq_timer s'); [by destruct H2|done].
Qed.

Lemma reset_channel_kept pit i now :
  pit_wf pit -> 0 <= i < 3 -> exists pit', reset_channel td pit i now = Ret pit' /\ kept pit pit'.
Proof.
  intros Hp Hi. destruct (chan_ok pit i Hp Hi) as (s & E & Hs & Ht). unfold reset_channel. rewrite E. cbn [obind].
  set (s1 := set_mode_gate s 3 _). assert (kept pit (set_chan pit i s1)) as K.
  { apply (kept_set_chan _ _ _ s); [done|done|done| |done]. unfold s1. destruct (i =? 2); wf_field. }
  destruct (load_count_kept (set_chan pit i s1) 0 i now ltac:(apply K) Hi ltac:(lia)) as (p & -> & K' & _).
  exists p. split; [done|]. exact (kept_trans _ _ _ K K').
Qed.

Lemma reset_ok pit now :
  pit_wf pit -> exists pit', pit_reset td pit now = Ret pit' /\ pit_wf pit' /\ legacy pit' = false.
Proof.
  intros Hp. destruct (enable_flags pit Hp) as [Hp0 El]. unfold pit_reset. set (p0 := set_flags _ _) in *.
  destruct (reset_channel_kept p0 0 (now 0%nat) Hp0 ltac:(lia)) as (p1 & -> & K1). cbn [obind].
  destruct (reset_channel_kept p1 1 (now 1%nat) ltac:(apply K1) ltac:(lia)) as (p2 & -> & K2). cbn [obind].
  destruct (reset_channel_kept p2 2 (now 2%nat) ltac:(apply K2) ltac:(lia)) as (p3 & -> & K3).
  exists p3. split; [done|]. split; [apply K3|].
  eapply kept_legacy; [done|]. exact (kept_trans _ _ _ K1 (kept_trans _ _ _ K2 K3)).
Qed.

(** The machine starts with [pit_init] on the zeroed device and a reset. *)
Definition pit_start (now : nat -> Z) : res PITState :=
  let! pit := pit_init pit_zero in pit_reset td pit now.

Lemma chan_insert pit i s : length (channels pit) = 3%nat -> 0 <= i < 3 -> chan (set_chan pit i s) i = Ret s.
Proof.
  intros Hl Hi. unfold chan, set_chan. cbn [channels]. rewrite (proj2 (Z.ltb_ge _ _)) by lia.
  by rewrite list_lookup_insert_eq by lia.
Qed.

(** What a reset does to one channel needs nothing of the other channels. *)
Lemma reset_channel_one pit i s now :
  length (channels pit) = 3%nat -> 0 <= i < 3 -> legacy pit = false -> chan pit i = Ret s ->
  chan_wf (set_count s 65536 now) ->
  exists s' pit', reset_channel td pit i now = Ret pit' /\ channels pit' = <[Z.to_nat i := s']> (channels pit) /\
    flags pit' = flags pit /\ chan_wf s' /\ (irq_timer s' = None <-> irq_timer s = None).
Proof.
  intros Hl Hi El E Hs. unfold reset_channel, pit_load_count. rewrite E. cbn [obind].
  rewrite chan_insert by done. cbn [obind]. change (0 =? 0) with true. cbv iota.
  set (s1 := set_count _ 0x10000 now). assert (chan_wf s1) as Hs1 by (unfold s1; destruct (i =? 2); wf_field).
  set (p := set_chan (set_chan pit i _) i s1). fold (legacy p). change (legacy p) with (legacy pit).
  rewrite El, andb_false_r. unfold pit_irq_timer_update.
  replace (chan p i) with (Ret (E:=Empty_set) s1) by (symmetry; apply chan_insert; [by cbn; rewrite length_insert|done]).
  cbn [obind]. change (irq_timer s1) with (irq_timer s). destruct (irq_timer s) as [armed|] eqn:Et.
  - destruct (next_time_ret s1 now Hs1) as [e ->]. rewrite get_out1_at by done. cbn [obind].
    eexists _, _. split; [done|]. unfold p. cbn [channels set_chan flags]. rewrite !list_insert_insert_eq.
    split_and!; [done|done|wf_field|done].
  - exists s1, p. split; [done|]. split; [unfold p; cbn; by rewrite list_insert_insert_eq|].
    split_and!; [done|done|done].
Qed.

Lemma start_ok now : exists pit, pit_start now = Ret pit /\ pit_wf pit /\ legacy pit = false.
Proof.
  unfold pit_start.
  change (pit_init pit_zero) with (Ret (E:=Empty_set) (set_chan pit_zero 0 (set_timer channel_zero 0 (Some None)))).
  cbn [obind]. unfold pit_reset. set (p0 := set_flags _ _).
  destruct (reset_channel_one p0 0 (set_timer channel_zero 0 (Some None)) (now 0%nat)) as (s0 & p1 & -> & C1 & F1 & W0 & T0);
    [done|lia|done|done|wf_field|]. cbn [obind].
  destruct (reset_channel_one p1 1 channel_zero (now 1%nat)) as (s1 & p2 & -> & C2 & F2 & W1 & T1);
    [by rewrite C1|lia|unfold legacy; by rewrite F1|unfold chan; by rewrite C1|wf_field|]. cbn [obind].
  destruct (reset_channel_one p2 2 channel_zero (now 2%nat)) as (s2 & p3 & -> & C3 & F3 & W2 & T2);
    [by rewrite C2, C1|lia|unfold legacy; by rewrite F2, F1|unfold chan; by rewrite C2, C1|wf_field|].
  rewrite C2, C1 in C3. exists p3. split; [done|].
  assert (legacy p3 = false) as El by (unfold legacy; by rewrite F3, F2, F1).
  split; [|done]. split_and!; [by rewrite C3|by rewrite F3, F2, F1|]. rewrite C3, El.
  intros [|[|[|i]]] s'; cbn; intros [= <-]; (split; [done|]).
  - destruct (irq_timer s0); [done|]. by destruct T0 as [T0 _]; specialize (T0 eq_refl).
  - by rewrite (proj2 T1 eq_refl).
  - by rewrite (proj2 T2 eq_refl).
Qed.
End Device.

(** ** Every access from a running machine *)
Inductive pit_op : Type :=
| OpWrite (addr val : Z) (now : nat -> Z)
| OpRead (addr now : Z)
| OpTimer
| OpGate (i val now : Z)
| OpOut (i now : Z)
| OpHpetOn (now : Z)
| OpHpetOff
| OpReset (now : nat -> Z).

Definition pit_step (td : bool) (op : pit_op) (pit : PITState) : res (Z * PITState) :=
  match op with
  | OpWrite addr val now => let! p := pit_ioport_write td pit addr val now in Ret (0, p)
  | OpRead addr now => pit_ioport_read pit addr now
  | OpTimer => let! p := pit_irq_timer td pit 0 in Ret (0, p)
  | OpGate i val now => let! p := pit_set_gate td pit i val now in Ret (0, p)
  | OpOut i now => let! o := pit_get_out pit i now in Ret (o, pit)
  | OpHpetOn now => let! p := hpet_enable_pit td pit now in Ret (0, p)
  | OpHpetOff => let! p := hpet_disable_pit pit in Ret (0, p)
  | OpReset now => let! p := pit_reset td pit now in Ret (0, p)
  end.

(** How the rest of the machine calls the device: bytes are written to its four ports and
    read from the first three, the timer fires when it is armed, and the speaker drives
    the gate of a channel other than channel 0. *)
Definition op_ok (pit : PITState) (op : pit_op) : Prop :=
  match op with
  | OpWrite _ val _ => is_u 8 val
  | OpRead addr _ => addr mod 4 <> 3
  | OpTimer => exists s e, chan pit 0 = Ret s /\ irq_timer s = Some (Some e)
  | OpGate i val _ => 1 <= i < 3 /\ 0 <= val <= 1
  | OpOut i _ => 0 <= i < 3
  | _ => True
  end.

Inductive pit_reach (td : bool) : PITState -> Prop :=
| reach_start now pit : pit_start td now = Ret pit -> pit_reach td pit
| reach_step pit op v pit' :
    pit_reach td pit -> op_ok pit op -> pit_step td op pit = Ret (v, pit') -> pit_reach td pit'.

(** The operations that give channel 0 back to the timer. *)
Definition gives_back (op : pit_op) : Prop :=
  match op with OpHpetOn _ | OpReset _ => True | _ => False end.

Lemma step_ok td op pit :
  pit_wf pit -> op_ok pit op ->
  exists v pit', pit_step td op pit = Ret (v, pit') /\ is_u 8 v /\ pit_wf pit' /\
    (legacy pit = true -> gives_back op \/ irq_log pit' = irq_log pit).
Proof.
  intros Hp Hok. assert (is_u 8 0) as H0 by done. destruct op as [addr val now|addr now| |i val now|i now|now| |now]; cbn in *.
  - destruct (write_kept td pit addr val now Hp Hok) as (p & -> & K). exists 0, p. destruct K as (? & ? & ?). naive_solver.
  - destruct (read_kept pit addr now Hp Hok) as (v & p & -> & Hv & K). exists v, p. destruct K as (? & ? & ?). naive_solver.
  - destruct Hok as (s & e & E & Et). destruct (timer_kept td pit e Hp (ex_intro _ s (conj E Et))) as (p & -> & K).
    exists 0, p. destruct K as (? & ? & ?). naive_solver.
  - destruct Hok as [Hi Hv]. destruct (gate_kept td pit i val now Hp Hi Hv) as (p & -> & K).
    exists 0, p. destruct K as (? & ? & ?). naive_solver.
  - destruct (chan_ok pit i Hp Hok) as (s & E & Hs & _). unfold pit_get_out. rewrite E. cbn [obind].
    rewrite get_out1_at by done. cbn [obind]. pose proof (out_at_bit (mode s) (count s) (elapsed s now)) as Hb.
    eexists _, pit. split; [done|]. split_and!; [unfold is_u; lia|done|by right].
  - destruct (enable_ok td pit now Hp) as (p & -> & Hp' & _). exists 0, p. split_and!; auto.
  - destruct (disable_ok pit Hp) as (p & -> & Hp' & El). exists 0, p. split_and!; auto.
  - destruct (reset_ok td pit now Hp) as (p & -> & Hp' & _). exists 0, p. split_and!; auto.
Qed.

Lemma reach_wf td pit : pit_reach td pit -> pit_wf pit.
Proof.
  intros H. induction H as [now pit E|pit op v pit' _ IH Hok E].
  - destruct (start_ok td now) as (p & E' & Hp & _). congruence.
  - destruct (step_ok td op pit IH Hok) as (v1 & p1 & E1 & _ & Hp1 & _). congruence.
Qed.

(** C20. The timer never faults: in every state reached from power-on by port writes and
    reads, timer expiries, gate changes, HPET switches and resets, at any readings of the
    clock, each channel's fields are in range (the count between 1 and 65536, so no
    division by zero), only channel 0 has a timer, every further operation returns, a
    value read is a byte, and while the HPET replaces the timer the interrupt line of
    channel 0 is left alone. *)
Theorem pit_device_safe (td : bool) (pit : PITState) :
  pit_reach td pit ->
  pit_wf pit /\
  forall op, op_ok pit op -> exists v pit', pit_step td op pit = Ret (v, pit') /\ is_u 8 v /\
    (legacy pit = true -> gives_back op \/ irq_log pit' = irq_log pit).
Proof.
  intros Hr%reach_wf. split; [done|]. intros op Hok.
  destruct (step_ok td op pit Hr Hok) as (v & p & E & Hv & _ & Hl). eauto.
Qed.

Definition started : PITState := match pit_start true (fun k => Z.of_nat k) with Ret p => p | _ => pit_zero end.

Lemma pit_device_safe_witness :
  pit_wf started /\
  forall op, op_ok started op -> exists v pit', pit_step true op started = Ret (v, pit') /\ is_u 8 v /\
    (legacy started = true -> gives_back op \/ irq_log pit' = irq_log started).
Proof. apply (pit_device_safe true started). apply (reach_start true (fun k => Z.of_nat k)). vm_compute. reflexivity. Defined.

(** ** Programming a count and reading it back *)
(** The counter in mode [m] with count [c], [d] ticks after the load. *)
Definition counter_at (m c d : Z) : Z :=
  match m with
  | 0 | 1 | 4 | 5 => (c - d) mod 65536
  | 3 => c - (2 * d) mod c
  | _ => c - d mod c
  end.

(** The guest's sequence: control word, low byte, high byte, latch, two reads. *)
Definition program_and_read (td : bool) (pit : PITState) (i m lo hi : Z) (n1 n2 n3 n4 : nat -> Z) (r1 r2 : Z) : res (Z * Z) :=
  let! pit := pit_ioport_write td pit 3 (64 * i + 48 + 2 * m) n1 in
  let! pit := pit_ioport_write td pit i lo n2 in
  let! pit := pit_ioport_write td pit i hi n3 in
  let! pit := pit_ioport_write td pit 3 (64 * i) n4 in
  let! '(a, pit) := pit_ioport_read pit i r1 in
  let! '(b, _) := pit_ioport_read pit i r2 in
  Ret (a, b).

Lemma get_count_at s t :
  chan_wf s -> time_ok s t -> pit_get_count s t = Ret (counter_at (mode s) (count s) (ticks (t - count_load_time s))).
Proof.
  intros Hw Ht. pose proof (elapsed_bound s t Ht) as [Hb _]. pose proof (proj1 Hw) as Hc.
  rewrite <- elapsed_ticks by done. unfold pit_get_count, umod. rewrite u64_count by done.
  set (d := elapsed s t) in *. set (c := count s) in *. change (2 ^ 53) with 9007199254740992 in Hb.
  rewrite (proj2 (Z.eqb_neq c 0)) by lia. rewrite (wrap_small 64 (2 * d)) by (unfold is_u; change (2 ^ 64) with 18446744073709551616; lia).
  assert (forall z, s32 (u64 (c - z mod c)) = c - z mod c) as Hs.
  { intros z. pose proof (Z.mod_pos_bound z c ltac:(lia)).
    rewrite wrap_small by (unfold is_u; change (2 ^ 64) with 18446744073709551616; lia).
    apply swrap_small; [lia|]. unfold is_s. change (2 ^ (32 - 1)) with 2147483648. lia. }
  assert (Z.land (u64 (c - d)) 0xffff = (c - d) mod 65536) as Hl.
  { change 0xffff with (Z.ones 16). rewrite Z.land_ones by lia. unfold wrap.
    apply Z.mod_mod_divide. exists (2 ^ 48). reflexivity. }
  unfold counter_at. mode_case s Hw; by rewrite ?Hs, ?Hl.
Qed.

Lemma control_fields i m :
  0 <= i < 3 -> 0 <= m < 8 -> let v := 64 * i + 48 + 2 * m in
  Z.shiftr v 6 = i /\ Z.land (Z.shiftr v 4) 3 = 3 /\ Z.land (Z.shiftr v 1) 7 = m /\ Z.land v 1 = 0.
Proof.
  intros Hi Hm. assert (i = 0 \/ i = 1 \/ i = 2) as Ei by lia.
  assert (m = 0 \/ m = 1 \/ m = 2 \/ m = 3 \/ m = 4 \/ m = 5 \/ m = 6 \/ m = 7) as Em by lia.
  destruct Ei as [->|[->| ->]]; destruct Em as [->|[->|[->|[->|[->|[->|[->| ->]]]]]]]; done.
Qed.

Lemma latch_fields i : 0 <= i < 3 -> Z.shiftr (64 * i) 6 = i /\ Z.land (Z.shiftr (64 * i) 4) 3 = 0.
Proof. intros Hi. assert (i = 0 \/ i = 1 \/ i = 2) as [->|[->| ->]] by lia; done. Qed.

Section Program.
Variable td : bool.

(** Each access of the sequence, as an update of its channel. *)
Lemma write_control pit i m s n :
  pit_wf pit -> 0 <= i < 3 -> 0 <= m < 8 -> chan pit i = Ret s ->
  pit_ioport_write td pit 3 (64 * i + 48 + 2 * m) n = Ret (set_chan pit i (set_control s 3 m 0)).
Proof.
  intros Hp Hi Hm E. destruct (control_fields i m Hi Hm) as (E1 & E2 & E3 & E4).
  unfold pit_ioport_write. change (Z.land 3 3 =? 3) with true. cbv iota. rewrite E1, E2, E3, E4.
  rewrite (proj2 (Z.eqb_neq i 3)), E by lia. done.
Qed.

Lemma write_data pit i v s n :
  0 <= i < 3 -> chan pit i = Ret s ->
  pit_ioport_write td pit i v n =
    match write_state s with
    | 2 => pit_load_count td pit (Z.shiftl v 8) i (n 0%nat)
    | 3 => Ret (set_chan pit i (set_write s RW_STATE_WORD1 (u8 v)))
    | 4 =>
        let! pit := pit_load_count td pit (Z.lor (write_latch s) (Z.shiftl v 8)) i (n 0%nat) in
        let! s := chan pit i in
        Ret (set_chan pit i (set_write s RW_STATE_WORD0 (write_latch s)))
    | _ => pit_load_count td pit v i (n 0%nat)
    end.
Proof.
  intros Hi E. unfold pit_ioport_write. rewrite land3, Z.mod_small by lia.
  rewrite (proj2 (Z.eqb_neq i 3)), E by lia. done.
Qed.

Lemma write_latch_cmd pit i s n :
  0 <= i < 3 -> chan pit i = Ret s ->
  pit_ioport_write td pit 3 (64 * i) n = let! s := pit_latch_count s (n 0%nat) in Ret (set_chan pit i s).
Proof.
  intros Hi E. destruct (latch_fields i Hi) as (E1 & E2). unfold pit_ioport_write.
  change (Z.land 3 3 =? 3) with true. cbv iota. rewrite E1, E2, (proj2 (Z.eqb_neq i 3)), E by lia. done.
Qed.

(** Two reads of a latched 16-bit count give its low and its high byte. *)
Lemma read_latched pit i s r1 r2 :
  length (channels pit) = 3%nat -> 0 <= i < 3 -> chan pit i = Ret s ->
  status_latched s = 0 -> count_latched s = 3 ->
  (let! '(a, pit) := pit_ioport_read pit i r1 in
   let! '(b, _) := pit_ioport_read pit i r2 in Ret (E:=Empty_set) (a, b)) =
  Ret (Z.land (latched_count s) 0xff, Z.shiftr (latched_count s) 8).
Proof.
  intros Hl Hi E Hst Hcl. unfold pit_ioport_read at 1. rewrite land3, Z.mod_small, E by lia. cbn [obind].
  rewrite Hst, Hcl. cbn [Z.eqb negb obind]. unfold pit_ioport_read. rewrite land3, Z.mod_small by lia.
  rewrite chan_insert by done. cbn [obind status_latched set_latch count_latched latched_count]. by rewrite Hst.
Qed.

(** Loading leaves the channel's registers other than the count and the timer. *)
Lemma load_chan pit v i now s :
  pit_wf pit -> 0 <= i < 3 -> 0 <= v < 65536 -> chan pit i = Ret s ->
  exists pit' n t, pit_load_count td pit v i now = Ret pit' /\ pit_wf pit' /\
    chan pit' i = Ret (set_timer (set_count s (if v =? 0 then 65536 else v) now) n t).
Proof.
  intros Hp Hi Hv E. destruct (load_count_kept td pit v i now Hp Hi ltac:(lia)) as (p & E1 & K & s0 & s' & E0 & E' & H).
  rewrite E in E0. apply Ret_inj in E0. subst s0. exists p, (next_transition_time s'), (irq_timer s').
  split; [done|]. split; [apply K|]. rewrite E'. by f_equal.
Qed.

(** The control word and the two bytes of a count. *)
Lemma programmed pit i m lo hi s n1 n2 n3 {A} (k : PITState -> res A) :
  pit_wf pit -> 0 <= i < 3 -> 0 <= m < 8 -> is_u 8 lo -> is_u 8 hi -> chan pit i = Ret s ->
  exists pit' s', (let! p := pit_ioport_write td pit 3 (64 * i + 48 + 2 * m) n1 in
              let! p := pit_ioport_write td p i lo n2 in
              let! p := pit_ioport_write td p i hi n3 in k p) = k pit' /\
    pit_wf pit' /\ chan pit' i = Ret s' /\ chan_wf s' /\
    mode s' = m /\ count s' = (if lo + 256 * hi =? 0 then 65536 else lo + 256 * hi) /\
    count_load_time s' = n3 0%nat /\ rw_mode s' = 3 /\
    status_latched s' = status_latched s /\ count_latched s' = count_latched s.
Proof.
  intros Hp Hi Hm Hlo Hhi E.
  assert (chan_wf s) as Hs by (destruct (chan_ok pit i Hp Hi) as (s0 & E0 & H & _); congruence).
  rewrite (write_control pit i m s n1 Hp Hi Hm E). cbn [obind].
  set (s1 := set_control s 3 m 0). set (p1 := set_chan pit i s1).
  assert (pit_wf p1) as Hp1.
  { apply (kept_set_chan _ _ _ s Hp Hi E); [|done]. unfold s1. wf_field. }
  assert (chan p1 i = Ret s1) as E1 by (by apply chan_set_same).
  rewrite (write_data p1 i lo s1 n2 Hi E1). change (write_state s1) with 3. cbv iota. cbn [obind].
  set (s2 := set_write s1 RW_STATE_WORD1 (u8 lo)). set (p2 := set_chan p1 i s2).
  assert (u8 lo = lo) as Elo by (by apply wrap_small).
  assert (pit_wf p2) as Hp2.
  { apply (kept_set_chan _ _ _ s1 Hp1 Hi E1); [|done]. unfold s2, s1, RW_STATE_WORD1. rewrite Elo. wf_field. }
  assert (chan p2 i = Ret s2) as E2 by (by apply chan_set_same).
  rewrite (write_data p2 i hi s2 n3 Hi E2). change (write_state s2) with 4. cbv iota.
  change (write_latch s2) with (u8 lo). rewrite Elo, latch_word by done.
  destruct (load_chan p2 (lo + 256 * hi) i (n3 0%nat) s2 Hp2 Hi) as (p3 & nt & tm & -> & Hp3 & E3);
    [unfold is_u in *; lia|done|].
  cbn [obind]. rewrite E3. cbn [obind]. set (v := if _ =? 0 then 65536 else _) in *.
  set (s3 := set_timer (set_count s2 v (n3 0%nat)) nt tm) in *.
  set (s4 := set_write s3 RW_STATE_WORD0 _).
  assert (chan_wf s3) as Hs3 by (destruct (chan_ok p3 i Hp3 Hi) as (s0 & E0 & H & _); congruence).
  assert (chan_wf s4) as Hs4 by (unfold s4, RW_STATE_WORD0; wf_field).
  exists (set_chan p3 i s4), s4. split; [done|]. split; [by apply (kept_set_chan _ _ _ s3 Hp3 Hi E3)|].
  split; [by apply chan_set_same|]. split; [done|]. by split_and!.
Qed.
End Program.

Lemma split_bytes x : is_u 16 x ->
  is_u 8 (Z.land x 0xff) /\ is_u 8 (Z.shiftr x 8) /\ Z.land x 0xff + 256 * Z.shiftr x 8 = x.
Proof.
  intros [H1 H2]. change 0xff with (Z.ones 8). rewrite Z.land_ones, Z.shiftr_div_pow2 by lia. unfold is_u.
  change (2 ^ 8) with 256. change (2 ^ 16) with 65536 in H2.
  pose proof (Z.mod_pos_bound x 256 ltac:(lia)). pose proof (Z.div_mod x 256 ltac:(lia)). lia.
Qed.

(** Programming and reading back: after the control word for 16-bit access in mode
    [m], the two bytes of a count and a latch command on channel [i], the two bytes read
    are those of the counter at the time of the latch, counted from the time the high
    byte was written, whatever the times of the two reads: for a count [v] (0 standing
    for 65536) the value is [(v - d) mod 65536] in the one-shot modes and counts down
    modulo [v] in the periodic ones, [d] being the ticks in between.  No latch may be
    pending on the channel before. *)
Theorem pit_program_read_roundtrip (td : bool) (pit : PITState) (i m lo hi : Z) (n1 n2 n3 n4 : nat -> Z) (r1 r2 : Z)
    (s : PITChannelState) :
  pit_wf pit -> 0 <= i < 3 -> 0 <= m < 8 -> is_u 8 lo -> is_u 8 hi ->
  chan pit i = Ret s -> status_latched s = 0 -> count_latched s = 0 ->
  0 <= n3 0%nat <= n4 0%nat -> n4 0%nat < 2 ^ 62 ->
  exists a b, program_and_read td pit i m lo hi n1 n2 n3 n4 r1 r2 = Ret (a, b) /\ is_u 8 a /\ is_u 8 b /\
    a + 256 * b = u16 (counter_at m (if lo + 256 * hi =? 0 then 65536 else lo + 256 * hi) (ticks (n4 0%nat - n3 0%nat))).
Proof.
  intros Hp Hi Hm Hlo Hhi E Hst Hcl Ht1 Ht2. unfold program_and_read.
  destruct (programmed td pit i m lo hi s n1 n2 n3 (fun p =>
    let! p := pit_ioport_write td p 3 (64 * i) n4 in
    let! '(a, p) := pit_ioport_read p i r1 in
    let! '(b, _) := pit_ioport_read p i r2 in Ret (a, b)) Hp Hi Hm Hlo Hhi E)
    as (p & s' & -> & Hp' & E' & Hs' & <- & <- & Hload & Hrw & Hst' & Hcl').
  rewrite (write_latch_cmd td p i s' n4 Hi E'). unfold pit_latch_count. rewrite Hcl', Hcl, Hrw.
  change (0 =? 0) with true. cbv iota. rewrite get_count_at; [|done|split; lia]. cbn [obind]. rewrite Hload.
  set (c := counter_at _ _ _). set (s4 := set_latch s' _ 3).
  rewrite (read_latched _ i s4) by (first [by apply chan_set_same | by cbn; rewrite length_insert; apply Hp' | done | by cbn; congruence]).
  destruct (split_bytes (u16 c)) as (H1 & H2 & H3); [apply wrap_range; lia|]. by do 2 eexists.
Qed.

Lemma pit_program_read_roundtrip_witness :
  exists a b, program_and_read true started 2 3 0x34 0x12 (fun _ => 5) (fun _ => 6) (fun _ => 7) (fun _ => 1000007) 0 0 = Ret (a, b) /\
    is_u 8 a /\ is_u 8 b /\
    a + 256 * b = u16 (counter_at 3 (if 0x34 + 256 * 0x12 =? 0 then 65536 else 0x34 + 256 * 0x12) (ticks (1000007 - 7))).
Proof.
  apply (pit_program_read_roundtrip true started 2 3 0x34 0x12 (fun _ => 5) (fun _ => 6) (fun _ => 7) (fun _ => 1000007) 0 0
           (match chan started 2 with Ret s => s | _ => channel_zero end));
    first [lia | reflexivity | split; reflexivity | idtac].
  - apply (reach_wf true). apply (reach_start true (fun k => Z.of_nat k)). vm_compute. reflexivity.
  - vm_compute. split; [discriminate|reflexivity].
  - vm_compute. split; [discriminate|reflexivity].
Defined.
