(* ===== verification/Timers.v ===== *)
(** * Timers: the timer lists of vl.c

    A timer is an object of the store, named by an integer; each clock has a list of its
    pending timers, linked through the objects and kept in the order of their expiry.
    [active_timers] is modelled as the lists of names that the links spell out; following
    a link through a freed timer is a [Fault].  Callbacks are code of the timers' users:
    a parameter that returns the calls the callback makes.  The loop of [qemu_run_timers]
    has no bound of its own (a callback may arm its timer again in the past), so it takes
    fuel.  The alarm of the host is a log of the requests made to it. *)

From S2P Require Import Prelude.
From stdpp Require Import gmap list sorting.

Open Scope Z_scope.

Record QEMUTimer : Type := mkTimer { tm_clock : nat; tm_expire : Z; tm_cb : Z }.

(** Calls on timers, by callbacks and by the rest of the machine. *)
Inductive timer_call : Type :=
| CallMod (ts : nat) (expire_time : Z)
| CallDel (ts : nat).

Inductive timer_event : Type :=
| EvFire (ts : nat)
| EvCall (c : timer_call)
| EvRearmAlarm
| EvNotify.

Inductive timer_exn : Type := OutOfFuel.

Definition QEMU_NUM_CLOCKS : nat := 3.

Record tstate (W : Type) : Type := mkTstate {
  store : gmap nat QEMUTimer;
  next_name : nat;
  active_timers : list (list nat);
  alarm_expired : bool;
  use_icount : bool;
  users : W;
  events : list timer_event
}.
Arguments mkTstate {W} _ _ _ _ _ _ _.
Arguments store {W} _.
Arguments next_name {W} _.
Arguments active_timers {W} _.
Arguments alarm_expired {W} _.
Arguments use_icount {W} _.
Arguments users {W} _.
Arguments events {W} _.

Section Timers.
Context {W : Type}.
(** What the callback [cb] of timer [ts] does: the users' state and its calls. *)
Context (callback : W -> Z -> nat -> W * list timer_call).
Abbreviation st := (tstate W).
Abbreviation res A := (outcome timer_exn A).

Definition set_store (s : st) (m : gmap nat QEMUTimer) : st :=
  mkTstate m (next_name s) (active_timers s) (alarm_expired s) (use_icount s) (users s) (events s).
Definition set_list (s : st) (c : nat) (l : list nat) : st :=
  mkTstate (store s) (next_name s) (<[c := l]> (active_timers s)) (alarm_expired s) (use_icount s) (users s) (events s).
Definition set_users (s : st) (w : W) : st :=
  mkTstate (store s) (next_name s) (active_timers s) (alarm_expired s) (use_icount s) w (events s).
Definition note (s : st) (es : list timer_event) : st :=
  mkTstate (store s) (next_name s) (active_timers s) (alarm_expired s) (use_icount s) (users s) (events s ++ es).

Definition timer (s : st) (ts : nat) : res QEMUTimer := oget (store s !! ts).
Definition list_of (s : st) (c : nat) : res (list nat) := oget (active_timers s !! c).

Definition qemu_new_timer (s : st) (clock : nat) (cb : Z) : nat * st :=
  let ts := next_name s in
  (ts, mkTstate (<[ts := mkTimer clock 0 cb]> (store s)) (S ts) (active_timers s)
         (alarm_expired s) (use_icount s) (users s) (events s)).

Definition qemu_free_timer (s : st) (ts : nat) : st := set_store s (delete ts (store s)).

(** The loop of [qemu_del_timer] from the link [pt]. *)
Fixpoint unlink (m : gmap nat QEMUTimer) (ts : nat) (l : list nat) : res (list nat) :=
  match l with
  | [] => Ret []
  | t :: l =>
      let! _ := oget (m !! t) in
      if Nat.eqb t ts then Ret l else let! l := unlink m ts l in Ret (t :: l)
  end.

Definition qemu_del_timer (s : st) (ts : nat) : res st :=
  let! t := timer s ts in
  let! l := list_of s (tm_clock t) in
  let! l := unlink (store s) ts l in
  Ret (set_list s (tm_clock t) l).

(** The loop of [qemu_mod_timer]: behind the timers that expire no later. *)
Fixpoint link (m : gmap nat QEMUTimer) (ts : nat) (expire_time : Z) (l : list nat) : res (list nat) :=
  match l with
  | [] => Ret [ts]
  | t :: l' =>
      let! x := oget (m !! t) in
      if expire_time <? tm_expire x then Ret (ts :: l)
      else let! l' := link m ts expire_time l' in Ret (t :: l')
  end.

Definition qemu_mod_timer (s : st) (ts : nat) (expire_time : Z) : res st :=
  let! s := qemu_del_timer s ts in
  let! t := timer s ts in
  let! l := list_of s (tm_clock t) in
  let! l := link (store s) ts expire_time l in
  let s := set_store s (<[ts := mkTimer (tm_clock t) expire_time (tm_cb t)]> (store s)) in
  let s := set_list s (tm_clock t) l in
  if bool_decide (head l = Some ts) then
    let s := if alarm_expired s then s else note s [EvRearmAlarm] in
    Ret (if use_icount s then note s [EvNotify] else s)
  else Ret s.

(** [qemu_timer_pending]: the walk stops at the timer. *)
Fixpoint on_list (m : gmap nat QEMUTimer) (ts : nat) (l : list nat) : res bool :=
  match l with
  | [] => Ret false
  | t :: l => if Nat.eqb t ts then Ret true else let! _ := oget (m !! t) in on_list m ts l
  end.

Definition qemu_timer_pending (s : st) (ts : nat) : res bool :=
  let! t := timer s ts in
  let! l := list_of s (tm_clock t) in
  on_list (store s) ts l.

Definition qemu_timer_expired (s : st) (timer_head : option nat) (current_time : Z) : res bool :=
  match timer_head with
  | None => Ret false
  | Some ts => let! t := timer s ts in Ret (tm_expire t <=? current_time)
  end.

Definition timer_step (c : timer_call) (s : st) : res st :=
  match c with
  | CallMod ts e => qemu_mod_timer s ts e
  | CallDel ts => qemu_del_timer s ts
  end.

Fixpoint run_calls (cs : list timer_call) (s : st) : res st :=
  match cs with
  | [] => Ret s
  | c :: cs => let! s := timer_step c (note s [EvCall c]) in run_calls cs s
  end.

Fixpoint qemu_run_timers (fuel : nat) (clock : nat) (current_time : Z) (s : st) : res st :=
  match fuel with
  | O => Throw OutOfFuel
  | S fuel =>
      let! l := list_of s clock in
      match l with
      | [] => Ret s
      | ts :: l =>
          let! t := timer s ts in
          if current_time <? tm_expire t then Ret s
          else
            let s := note (set_list s clock l) [EvFire ts] in
            let '(w, cs) := callback (users s) (tm_cb t) ts in
            let! s := run_calls cs (set_users s w) in
            qemu_run_timers fuel clock current_time s
      end
  end.

(** Saving and loading a timer: the 64-bit word in the snapshot. *)
Definition qemu_put_timer (s : st) (ts : nat) : res Z :=
  let! p := qemu_timer_pending s ts in
  if (p : bool) then let! t := timer s ts in Ret (u64 (tm_expire t)) else Ret (u64 (-1)).

Definition qemu_get_timer (s : st) (ts : nat) (word : Z) : res st :=
  if negb (word =? u64 (-1)) then qemu_mod_timer s ts (s64 word) else qemu_del_timer s ts.

(** [init_clocks] and the zeroed lists. *)
Definition init_timers (icount : bool) (w : W) : st :=
  mkTstate ∅ 0%nat (replicate QEMU_NUM_CLOCKS []) false icount w [].
End Timers.

(** ** The invariant of the lists *)
Definition expire (m : gmap nat QEMUTimer) (t : nat) : Z := match m !! t with Some x => tm_expire x | None => 0 end.
Definition no_later (m : gmap nat QEMUTimer) (a b : nat) : Prop := expire m a <= expire m b.
Definition of_clock (m : gmap nat QEMUTimer) (c : nat) (t : nat) : Prop :=
  exists x, m !! t = Some x /\ tm_clock x = c.

(** A list holds each of its timers once, all of its clock, in the order of expiry. *)
Definition tlist_wf (m : gmap nat QEMUTimer) (c : nat) (l : list nat) : Prop :=
  NoDup l /\ Forall (of_clock m c) l /\ StronglySorted (no_later m) l.

Definition timers_wf {W} (s : tstate W) : Prop :=
  length (active_timers s) = QEMU_NUM_CLOCKS /\
  (forall c l, active_timers s !! c = Some l -> tlist_wf (store s) c l) /\
  (forall t x, store s !! t = Some x -> (t < next_name s)%nat /\ (tm_clock x < QEMU_NUM_CLOCKS)%nat).

Definition live {W} (s : tstate W) (t : nat) : Prop := is_Some (store s !! t).
Definition without (ts : nat) (l : list nat) : list nat := filter (fun t => t <> ts) l.

Lemma Forall_sublist {A} (P : A -> Prop) (k l : list A) : k `sublist_of` l -> Forall P l -> Forall P k.
Proof. induction 1; intros Hl; [done| |]; apply Forall_cons in Hl as [? ?]; auto. Qed.

Lemma sorted_sublist {A} (R : A -> A -> Prop) (k l : list A) :
  k `sublist_of` l -> StronglySorted R l -> StronglySorted R k.
Proof.
  induction 1 as [|x k l Hk IH|x k l Hk IH]; intros Hs; [done| |]; apply StronglySorted_cons in Hs as [Hx Hs].
  - apply SSorted_cons; [by apply IH|]. by eapply Forall_sublist.
  - by apply IH.
Qed.

(** Sortedness depends on the elements only. *)
Lemma sorted_weaken {A} (R R' : A -> A -> Prop) (l : list A) :
  (forall a b, a ∈ l -> b ∈ l -> R a b -> R' a b) -> StronglySorted R l -> StronglySorted R' l.
Proof.
  intros H Hs. induction Hs as [|a l Hs IH Ha]; constructor.
  - apply IH. intros. apply H; [set_solver..|done].
  - rewrite Forall_forall in *. intros b Hb. apply H; [set_solver..|by apply Ha].
Qed.

Lemma without_sublist ts l : without ts l `sublist_of` l.
Proof. apply sublist_filter. Qed.

Lemma tlist_sublist m c k l : k `sublist_of` l -> tlist_wf m c l -> tlist_wf m c k.
Proof.
  intros Hk (Hn & Hc & Hs). split_and!; [by eapply sublist_NoDup|by eapply Forall_sublist|by eapply sorted_sublist].
Qed.

Lemma without_notin ts l : ts ∉ without ts l.
Proof. unfold without. rewrite list_elem_of_filter. naive_solver. Qed.

Lemma without_id ts l : ts ∉ l -> without ts l = l.
Proof.
  intros H. unfold without. induction l as [|t l IH]; [done|].
  rewrite filter_cons_True by set_solver. f_equal. apply IH. set_solver.
Qed.

Lemma unlink_spec m c ts l : tlist_wf m c l -> unlink m ts l = Ret (without ts l).
Proof.
  intros (Hn & Hc & _). induction l as [|t l IH]; [done|].
  apply NoDup_cons in Hn as [Ht Hn]. apply Forall_cons in Hc as [(x & Hx & _) Hc]. cbn [unlink]. rewrite Hx. cbn [oget obind].
  destruct (Nat.eqb_spec t ts) as [->|Hne].
  - unfold without. rewrite filter_cons_False by naive_solver. fold (without ts l). by rewrite without_id.
  - rewrite IH by done. unfold without. by rewrite filter_cons_True.
Qed.

Lemma link_spec m c ts e l :
  tlist_wf m c l ->
  exists l1 l2, l = l1 ++ l2 /\ link m ts e l = Ret (l1 ++ ts :: l2) /\
    Forall (fun t => expire m t <= e) l1 /\ Forall (fun t => e < expire m t) l2.
Proof.
  induction l as [|t l IH]; intros (Hn & Hc & Hs).
  { exists [], []. split_and!; [done|done|by constructor|by constructor]. }
  apply NoDup_cons in Hn as [Ht Hn]. apply Forall_cons in Hc as [(x & Hx & _) Hc].
  apply StronglySorted_inv in Hs as [Hs Hhd]. cbn [link]. rewrite Hx. cbn [oget obind].
  assert (expire m t = tm_expire x) as Ee by (unfold expire; by rewrite Hx).
  destruct (Z.ltb_spec e (tm_expire x)).
  - exists [], (t :: l). split_and!; [done|done|by constructor|]. constructor; [lia|].
    eapply Forall_impl; [exact Hhd|]. intros y Hy. unfold no_later in Hy. cbn in *. lia.
  - destruct IH as (l1 & l2 & -> & -> & H1 & H2); [done|]. exists (t :: l1), l2. cbn [obind].
    split_and!; [done|done| |done]. constructor; [lia|done].
Qed.

(** Arming a timer that is not on the list puts it behind the ones that expire no later. *)
Lemma link_wf m c ts e cb l1 l2 :
  tlist_wf m c (l1 ++ l2) -> ts ∉ l1 ++ l2 ->
  Forall (fun t => expire m t <= e) l1 -> Forall (fun t => e < expire m t) l2 ->
  tlist_wf (<[ts := mkTimer c e cb]> m) c (l1 ++ ts :: l2).
Proof.
  intros (Hn & Hc & Hs) Hts H1 H2. set (m' := <[ts := _]> m).
  assert (forall t, t ∈ l1 ++ l2 -> expire m' t = expire m t /\ m' !! t = m !! t) as Hsame.
  { intros t Ht. assert (t <> ts) by (intros ->; done). unfold expire, m'. by rewrite lookup_insert_ne. }
  assert (expire m' ts = e) as Ets by (unfold expire, m'; by rewrite lookup_insert_eq).
  split_and!.
  - apply NoDup_app in Hn as (Hn1 & Hn2 & Hn3). apply NoDup_app. split_and!; [done| |].
    + intros t Ht. rewrite not_elem_of_cons. split; [set_solver|by apply Hn2].
    + apply NoDup_cons. split; [set_solver|done].
  - apply Forall_app in Hc as [Hc1 Hc2].
    assert (forall l, Forall (of_clock m c) l -> (forall t, t ∈ l -> t ∈ l1 ++ l2) -> Forall (of_clock m' c) l) as Hm.
    { intros l Hl Hin. rewrite Forall_forall in *. intros t Ht. destruct (Hl t Ht) as (x & Hx & Hxc).
      exists x. split; [|done]. rewrite <- Hx. apply Hsame. by apply Hin. }
    apply Forall_app. split; [apply Hm; set_solver|]. apply Forall_cons. split; [|apply Hm; set_solver].
    exists (mkTimer c e cb). unfold m'. by rewrite lookup_insert_eq.
  - apply StronglySorted_app in Hs as (H12 & Hs1 & Hs2).
    assert (forall l, (forall t, t ∈ l -> t ∈ l1 ++ l2) -> StronglySorted (no_later m) l -> StronglySorted (no_later m') l) as Hw.
    { intros l Hin. apply sorted_weaken. intros a b Ha Hb. unfold no_later.
      by rewrite (proj1 (Hsame a (Hin a Ha))), (proj1 (Hsame b (Hin b Hb))). }
    rewrite Forall_forall in H1, H2. apply StronglySorted_app_2; [|apply Hw; set_solver|apply SSorted_cons; [apply Hw; set_solver|]].
    + intros a b Ha [->|Hb]%elem_of_cons; unfold no_later; rewrite (proj1 (Hsame a ltac:(set_solver))).
      * rewrite Ets. by apply H1.
      * rewrite (proj1 (Hsame b ltac:(set_solver))). by apply H12.
    + apply Forall_forall. intros b Hb. unfold no_later. rewrite Ets, (proj1 (Hsame b ltac:(set_solver))).
      specialize (H2 b Hb). lia.
Qed.

(** ** The operations *)
Section Ops.
Context {W : Type}.
Implicit Types (s : tstate W).

Lemma list_ok s c : timers_wf s -> (c < 3)%nat -> exists l, list_of s c = Ret l /\ active_timers s !! c = Some l /\ tlist_wf (store s) c l.
Proof.
  intros (Hl & Hw & _) Hc. unfold list_of. destruct (lookup_lt_is_Some_2 (active_timers s) c) as [l El]; [by rewrite Hl|].
  exists l. rewrite El. split_and!; [done|done|by apply Hw].
Qed.

Lemma set_list_wf s c l : timers_wf s -> (c < 3)%nat -> tlist_wf (store s) c l -> timers_wf (set_list s c l).
Proof.
  intros (Hl & Hw & Hm) Hc Hlw. split_and!; [by cbn; rewrite length_insert| |done].
  intros c' l' Hc'. cbn in Hc'. destruct (decide (c = c')) as [<-|Hne].
  - rewrite list_lookup_insert_eq in Hc' by (by rewrite Hl). by injection Hc' as <-.
  - rewrite list_lookup_insert_ne in Hc' by done. by apply Hw.
Qed.

Lemma del_spec s ts x :
  timers_wf s -> store s !! ts = Some x ->
  exists l, active_timers s !! tm_clock x = Some l /\
    qemu_del_timer s ts = Ret (set_list s (tm_clock x) (without ts l)) /\
    timers_wf (set_list s (tm_clock x) (without ts l)).
Proof.
  intros Hw Hx. pose proof (proj2 (proj2 (proj2 Hw) ts x Hx)) as Hc.
  destruct (list_ok s (tm_clock x) Hw Hc) as (l & El & Ea & Hl).
  exists l. split; [done|]. unfold qemu_del_timer, timer. rewrite Hx. cbn [oget obind]. rewrite El. cbn [obind].
  rewrite (unlink_spec _ (tm_clock x)) by done. split; [done|]. apply set_list_wf; [done|done|].
  eapply tlist_sublist; [apply without_sublist|done].
Qed.

(** A timer on a list is a timer of the list's clock, so it is on no other list. *)
Lemma on_own_list s c l t x :
  timers_wf s -> active_timers s !! c = Some l -> t ∈ l -> store s !! t = Some x -> tm_clock x = c.
Proof.
  intros (_ & Hw & _) Ha Ht Hx. destruct (Hw c l Ha) as (_ & Hc & _). rewrite Forall_forall in Hc.
  destruct (Hc t Ht) as (y & Hy & E). congruence.
Qed.

Definition armed (s : tstate W) (ts : nat) (e : Z) (x : QEMUTimer) (l1 l2 : list nat) (s' : tstate W) : Prop :=
  store s' = <[ts := mkTimer (tm_clock x) e (tm_cb x)]> (store s) /\
  active_timers s' = <[tm_clock x := l1 ++ ts :: l2]> (active_timers s) /\
  users s' = users s /\ next_name s' = next_name s /\
  exists es, events s' = events s ++ es /\ Forall (fun ev => ev = EvRearmAlarm \/ ev = EvNotify) es /\
    (EvRearmAlarm ∈ es <-> head (l1 ++ ts :: l2) = Some ts /\ alarm_expired s = false).

(** Arming [ts] on its own list leaves the other lists in order. *)
Lemma armed_wf s s' ts e x l l1 l2 :
  timers_wf s -> store s !! ts = Some x -> active_timers s !! tm_clock x = Some l -> without ts l = l1 ++ l2 ->
  Forall (fun t => expire (store s) t <= e) l1 -> Forall (fun t => e < expire (store s) t) l2 ->
  armed s ts e x l1 l2 s' -> timers_wf s'.
Proof.
  intros Hw Hx Ea El H1 H2 (Es & Eact & _ & En & _). pose proof Hw as (Hlen & Hwl & Hm).
  assert (tlist_wf (store s) (tm_clock x) (without ts l)) as Hl0
    by (eapply tlist_sublist; [apply without_sublist|by apply Hwl]).
  unfold timers_wf. rewrite Es, Eact, En, length_insert. set (m := <[ts := _]> (store s)). split_and!; [done| |].
  - intros c l' Hc'. destruct (decide (tm_clock x = c)) as [<-|Hne].
    + rewrite list_lookup_insert_eq in Hc' by (rewrite Hlen; apply (Hm ts x Hx)). injection Hc' as <-.
      apply link_wf; [by rewrite <- El|rewrite <- El; apply without_notin|done|done].
    + rewrite list_lookup_insert_ne in Hc' by done. pose proof (Hwl c l' Hc') as (Hn & Hoc & Hs).
      assert (ts ∉ l') as Hts by (intros Hin; apply Hne; exact (on_own_list s c l' ts x Hw Hc' Hin Hx)).
      split_and!; [done| |].
      * rewrite Forall_forall in *. intros t Ht. destruct (Hoc t Ht) as (y & Hy & Eyc). exists y. split; [|done].
        unfold m. rewrite lookup_insert_ne by (intros ->; done). done.
      * eapply sorted_weaken; [|exact Hs]. intros a b Ha Hb. unfold no_later, expire, m.
        by rewrite !lookup_insert_ne by set_solver.
  - intros t y Hy. unfold m in Hy. destruct (decide (ts = t)) as [<-|Hne].
    + rewrite lookup_insert_eq in Hy. injection Hy as <-. apply (Hm ts x Hx).
    + rewrite lookup_insert_ne in Hy by done. by apply Hm.
Qed.

Lemma mod_spec s ts x e :
  timers_wf s -> store s !! ts = Some x ->
  exists l l1 l2 s', active_timers s !! tm_clock x = Some l /\ without ts l = l1 ++ l2 /\
    qemu_mod_timer s ts e = Ret s' /\ armed s ts e x l1 l2 s' /\ timers_wf s' /\
    Forall (fun t => expire (store s) t <= e) l1 /\ Forall (fun t => e < expire (store s) t) l2.
Proof.
  intros Hw Hx. destruct (del_spec s ts x Hw Hx) as (l & Ea & Ed & Hw1).
  set (s1 := set_list s (tm_clock x) (without ts l)) in *.
  assert (active_timers s1 !! tm_clock x = Some (without ts l)) as Ea1.
  { cbn. rewrite list_lookup_insert_eq; [done|]. rewrite (proj1 Hw). apply (proj2 (proj2 Hw) ts x Hx). }
  destruct (link_spec (store s) (tm_clock x) ts e (without ts l)) as (l1 & l2 & El & Elk & H1 & H2);
    [by apply (proj1 (proj2 Hw1))|].
  assert (exists s', qemu_mod_timer s ts e = Ret s' /\ armed s ts e x l1 l2 s') as (s' & E & Har).
  { unfold qemu_mod_timer. rewrite Ed. cbn [obind]. unfold timer. change (store s1) with (store s). rewrite Hx. cbn [oget obind].
    unfold list_of. rewrite Ea1. cbn [oget obind]. rewrite Elk. cbn [obind].
    assert (forall es, Forall (fun ev => ev = EvRearmAlarm \/ ev = EvNotify) es ->
      (EvRearmAlarm ∈ es <-> head (l1 ++ ts :: l2) = Some ts /\ alarm_expired s = false) ->
      exists s', Ret (E:=timer_exn) (note (set_list (set_store s1 (<[ts := mkTimer (tm_clock x) e (tm_cb x)]> (store s)))
        (tm_clock x) (l1 ++ ts :: l2)) es) = Ret s' /\ armed s ts e x l1 l2 s') as Hmk.
    { intros es Hes Hr. eexists. split; [done|]. split_and!; [done| |done|done|].
      - cbn. by rewrite list_insert_insert_eq.
      - exists es. by split_and!. }
    case_bool_decide as Hh.
    - change (alarm_expired (set_list _ _ _)) with (alarm_expired s). destruct (alarm_expired s) eqn:Eal;
        cbn [use_icount note set_list set_store]; change (use_icount s1) with (use_icount s); destruct (use_icount s).
      + apply (Hmk [EvNotify]); [by apply Forall_singleton; right|]. set_solver.
      + destruct (Hmk []) as (s' & E & ?); [constructor|set_solver|]. exists s'. split; [|done]. rewrite <- E. f_equal.
        unfold note. cbn. by rewrite app_nil_r.
      + destruct (Hmk [EvRearmAlarm; EvNotify]) as (s' & E & ?); [repeat (apply Forall_cons; split; [by auto|]); constructor|set_solver|].
        exists s'. split; [|done]. rewrite <- E. f_equal. unfold note. cbn. by rewrite <- app_assoc.
      + apply (Hmk [EvRearmAlarm]); [by apply Forall_singleton; left|]. set_solver.
    - destruct (Hmk []) as (s' & E & ?); [constructor|set_solver|]. exists s'. split; [|done]. rewrite <- E. f_equal.
      unfold note. cbn. by rewrite app_nil_r. }
  exists l, l1, l2, s'. split_and!; [done|done|done|done| |done|done]. exact (armed_wf s s' ts e x l l1 l2 Hw Hx Ea El H1 H2 Har).
Qed.
End Ops.

(** ** Running the expired timers *)
Definition target (c : timer_call) : nat := match c with CallMod ts _ | CallDel ts => ts end.

(** The timers of a clock that have expired at [now], in the order of the list. *)
Definition due {W} (now : Z) (c : nat) (s : tstate W) : list nat :=
  match active_timers s !! c with
  | Some l => filter (fun t => expire (store s) t <= now) l
  | None => []
  end.

Definition fired (es : list timer_event) : list nat :=
  omap (fun e => match e with EvFire t => Some t | _ => None end) es.
Definition called (es : list timer_event) : list timer_call :=
  omap (fun e => match e with EvCall c => Some c | _ => None end) es.

(** A call that arms no timer for [now] or earlier. *)
Definition later (now : Z) (c : timer_call) : Prop :=
  match c with CallMod _ e => now < e | CallDel _ => True end.

(** From [s] to [s'] only timers of [ts] left the due list, and the store kept its timers. *)
Definition shrinks {W} (now : Z) (c : nat) (ts : list nat) (s s' : tstate W) : Prop :=
  due now c s' `sublist_of` due now c s /\ (forall t, t ∈ due now c s -> t ∈ due now c s' \/ t ∈ ts) /\
  (forall t, live s t -> live s' t).

Section Run.
Context {W : Type} (callback : W -> Z -> nat -> W * list timer_call).
Context (now : Z) (clock : nat).
Implicit Types (s : tstate W).

Lemma step_returns c s : timers_wf s -> live s (target c) -> exists s', timer_step c s = Ret s' /\ timers_wf s'.
Proof.
  intros Hw [x Hx]. destruct c as [ts e|ts]; cbn in *.
  - destruct (mod_spec s ts x e Hw Hx) as (l & l1 & l2 & s' & _ & _ & E & _ & Hw' & _). eauto.
  - destruct (del_spec s ts x Hw Hx) as (l & _ & E & Hw'). eauto.
Qed.

Lemma filter_without (P : nat -> Prop) `{forall t, Decision (P t)} ts l :
  filter P (without ts l) = without ts (filter P l).
Proof.
  unfold without. rewrite !list_filter_filter. apply list_filter_iff. intros. tauto.
Qed.

Lemma without_elem ts l t : t ∈ l -> t ∈ without ts l \/ t ∈ [ts].
Proof. intros H. destruct (decide (t = ts)) as [->|]; [right; set_solver|]. left. by apply list_elem_of_filter. Qed.

Lemma del_shrinks s ts x s' :
  timers_wf s -> store s !! ts = Some x -> qemu_del_timer s ts = Ret s' -> shrinks now clock [ts] s s' /\ events s' = events s.
Proof.
  intros Hw Hx E. destruct (del_spec s ts x Hw Hx) as (l & Ea & Ed & _). rewrite Ed in E. injection E as <-. split; [|done].
  assert (due now clock (set_list s (tm_clock x) (without ts l)) = due now clock s \/
          due now clock (set_list s (tm_clock x) (without ts l)) = without ts (due now clock s)) as Hd.
  { unfold due. cbn. destruct (decide (tm_clock x = clock)) as [<-|Hne].
    - right. rewrite list_lookup_insert_eq, Ea by (by eapply lookup_lt_Some). apply filter_without.
    - left. by rewrite list_lookup_insert_ne. }
  split_and!; [| |done].
  - destruct Hd as [->| ->]; [done|apply without_sublist].
  - intros t Ht. destruct Hd as [->| ->]; [by left|by apply without_elem].
Qed.

Lemma filter_ext_in (P Q : nat -> Prop) `{forall t, Decision (P t)} `{forall t, Decision (Q t)} (l : list nat) :
  (forall t, t ∈ l -> P t <-> Q t) -> filter P l = filter Q l.
Proof.
  induction l as [|t l IH]; intros He; [done|]. rewrite !filter_cons.
  assert (P t <-> Q t) by (apply He; set_solver). repeat case_decide; try tauto; [f_equal|];
    apply IH; intros; apply He; set_solver.
Qed.

Lemma mod_shrinks s ts x e s' :
  timers_wf s -> store s !! ts = Some x -> now < e -> qemu_mod_timer s ts e = Ret s' ->
  shrinks now clock [ts] s s' /\ fired (drop (length (events s)) (events s')) = [] /\
  called (drop (length (events s)) (events s')) = [] /\ events s `prefix_of` events s'.
Proof.
  intros Hw Hx He E. destruct (mod_spec s ts x e Hw Hx) as (l & l1 & l2 & s1 & Ea & El & E1 & Har & Hw' & H1 & H2).
  rewrite E1 in E. injection E as <-. destruct Har as (Es & Eact & _ & _ & es & Eev & Hes & _).
  assert (forall k : list nat, ts ∉ k -> filter (fun t => expire (store s1) t <= now) k = filter (fun t => expire (store s) t <= now) k) as Hf.
  { intros k Hk. apply filter_ext_in. intros t Ht. unfold expire. rewrite Es, lookup_insert_ne by (intros ->; done). done. }
  split.
  - assert (due now clock s1 = due now clock s \/ due now clock s1 = without ts (due now clock s)) as Hd.
    { unfold due. rewrite Eact. destruct (decide (tm_clock x = clock)) as [<-|Hne].
      - right. rewrite list_lookup_insert_eq, Ea by (by eapply lookup_lt_Some).
        rewrite <- filter_without, El, filter_app, filter_cons_False.
        2: { unfold expire. rewrite Es, lookup_insert_eq. cbn. lia. }
        pose proof (without_notin ts l) as Hn. rewrite El in Hn. rewrite !Hf by set_solver. by rewrite filter_app.
      - left. rewrite list_lookup_insert_ne by done. destruct (active_timers s !! clock) as [k|] eqn:Ek; [|done].
        apply Hf. intros Hin. apply Hne. exact (on_own_list s clock k ts x Hw Ek Hin Hx). }
    split_and!.
    + destruct Hd as [->| ->]; [done|apply without_sublist].
    + intros t Ht. destruct Hd as [->| ->]; [by left|by apply without_elem].
    + intros t [y Hy]. unfold live. rewrite Es. destruct (decide (ts = t)) as [<-|]; [by rewrite lookup_insert_eq|].
      by rewrite lookup_insert_ne.
  - rewrite Eev, drop_app_length. split_and!; [| |by exists es].
    + clear -Hes. induction Hes as [|ev es [->| ->] Hes IH]; done.
    + clear -Hes. induction Hes as [|ev es [->| ->] Hes IH]; done.
Qed.

Lemma fired_app a b : fired (a ++ b) = fired a ++ fired b.
Proof. apply omap_app. Qed.
Lemma called_app a b : called (a ++ b) = called a ++ called b.
Proof. apply omap_app. Qed.

Lemma shrinks_trans a b s1 s2 s3 :
  shrinks now clock a s1 s2 -> shrinks now clock b s2 s3 -> shrinks now clock (a ++ b) s1 s3.
Proof.
  intros (H1 & H2 & H3) (H4 & H5 & H6). split_and!; [by etransitivity| |auto].
  intros t Ht. destruct (H2 t Ht) as [Ht2|]; [|set_solver]. destruct (H5 t Ht2); set_solver.
Qed.

Lemma step_shrinks c s :
  timers_wf s -> live s (target c) -> later now c ->
  exists s' es, timer_step c s = Ret s' /\ timers_wf s' /\ shrinks now clock [target c] s s' /\
    events s' = events s ++ es /\ fired es = [] /\ called es = [].
Proof.
  intros Hw Hl Hlt. destruct (step_returns c s Hw Hl) as (s' & E & Hw'). destruct Hl as [x Hx].
  destruct c as [ts e|ts]; cbn in *.
  - destruct (mod_shrinks s ts x e s' Hw Hx Hlt E) as (Hs & Hf & Hc & [es Hes]). exists s', es.
    rewrite Hes, drop_app_length in Hf, Hc. by split_and!.
  - destruct (del_shrinks s ts x s' Hw Hx E) as [Hs He]. exists s', []. rewrite app_nil_r. by split_and!.
Qed.

Lemma calls_shrink cs : forall s,
  timers_wf s -> (forall c, c ∈ cs -> live s (target c) /\ later now c) ->
  exists s' es, run_calls cs s = Ret s' /\ timers_wf s' /\ shrinks now clock (map target cs) s s' /\
    events s' = events s ++ es /\ fired es = [] /\ called es = cs.
Proof.
  induction cs as [|c cs IH]; intros s Hw Hcs.
  { exists s, []. rewrite app_nil_r. split_and!; try done. split_and!; [done|by left|done]. }
  destruct (Hcs c ltac:(set_solver)) as [Hl Hlt]. cbn [run_calls].
  destruct (step_shrinks c (note s [EvCall c]) Hw Hl Hlt) as (s1 & es1 & -> & Hw1 & Hs1 & He1 & Hf1 & Hc1). cbn [obind].
  destruct (IH s1 Hw1) as (s2 & es2 & -> & Hw2 & Hs2 & He2 & Hf2 & Hc2).
  { intros c' Hc'. destruct (Hcs c' ltac:(set_solver)) as [Hl' ?]. split; [|done]. by apply Hs1. }
  exists s2, ([EvCall c] ++ es1 ++ es2). split_and!; [done|done| | | |].
  - exact (shrinks_trans [target c] (map target cs) s s1 s2 Hs1 Hs2).
  - rewrite He2, He1. cbn. by rewrite <- !app_assoc.
  - rewrite !fired_app, Hf1, Hf2. done.
  - rewrite !called_app, Hc1, Hc2. done.
Qed.

(** Callbacks that name known timers and arm them for later. *)
Variable known : nat -> Prop.
Hypothesis Hcb : forall w cb ts c, c ∈ snd (callback w cb ts) -> known (target c) /\ later now c.

Lemma due_head s ts l :
  timers_wf s -> active_timers s !! clock = Some (ts :: l) ->
  if now <? expire (store s) ts then due now clock s = []
  else due now clock s = ts :: due now clock (set_list s clock l).
Proof.
  intros Hw Ea. pose proof (proj1 (proj2 Hw) _ _ Ea) as (_ & _ & Hs). apply StronglySorted_inv in Hs as [_ Hh].
  unfold due. rewrite Ea. change (active_timers (set_list s clock l)) with (<[clock := l]> (active_timers s)).
  change (store (set_list s clock l)) with (store s). rewrite list_lookup_insert_eq by (by eapply lookup_lt_Some).
  destruct (Z.ltb_spec now (expire (store s) ts)) as [Hlt|Hge].
  - rewrite filter_cons_False by lia. rewrite Forall_forall in Hh.
    apply elem_of_nil_inv. intros t [Hle Ht]%list_elem_of_filter. specialize (Hh t Ht). unfold no_later in Hh. lia.
  - by rewrite filter_cons_True by lia.
Qed.

Lemma run_due n : forall fuel s,
  timers_wf s -> (forall t, known t -> live s t) -> (clock < 3)%nat -> (length (due now clock s) <= n)%nat -> (n < fuel)%nat ->
  exists s' es, qemu_run_timers callback fuel clock now s = Ret s' /\ timers_wf s' /\ events s' = events s ++ es /\
    due now clock s' = [] /\ fired es `sublist_of` due now clock s /\
    (forall t, t ∈ due now clock s -> t ∈ fired es \/ t ∈ map target (called es)).
Proof using Hcb.
  induction n as [|n IH]; intros fuel s Hw Hkn Hc Hn Hf; (destruct fuel as [|fuel]; [lia|]);
    destruct (list_ok s clock Hw Hc) as (l & El & Ea & Hl); cbn [qemu_run_timers]; rewrite El; cbn [obind];
    (destruct l as [|ts l]; [exists s, []; rewrite app_nil_r; split_and!; try done; unfold due; rewrite Ea; set_solver|]);
    pose proof (due_head s ts l Hw Ea) as Hd; destruct (proj1 (Forall_cons _ _ _) (proj1 (proj2 Hl))) as [(x & Hx & _) _];
    unfold timer; rewrite Hx; cbn [oget obind]; assert (expire (store s) ts = tm_expire x) as Ex by (unfold expire; by rewrite Hx);
    rewrite Ex in Hd; destruct (now <? tm_expire x); try (exists s, []; rewrite app_nil_r, Hd; split_and!; [done..|set_solver]).
  - rewrite Hd in Hn. cbn in Hn. lia.
  - set (s1 := note (set_list s clock l) [EvFire ts]).
    assert (timers_wf s1) as Hw1.
    { apply (set_list_wf s clock l Hw Hc). apply (tlist_sublist _ _ l (ts :: l)); [by constructor|done]. }
    pose proof (Hcb (users s1) (tm_cb x) ts) as Hk. destruct (callback (users s1) (tm_cb x) ts) as [w cs].
    destruct (calls_shrink cs (set_users s1 w)) as (s2 & es2 & -> & Hw2 & (Hs2 & Hs3 & Hs4) & He2 & Hf2 & Hc2); [done| |].
    { intros c Hin. destruct (Hk c Hin) as [Hkt ?]. split; [|done]. by apply Hkn. }
    cbn [obind]. change (due now clock (set_users s1 w)) with (due now clock (set_list s clock l)) in *.
    rewrite Hd in Hn. cbn in Hn. pose proof (sublist_length _ _ Hs2).
    destruct (IH fuel s2 Hw2 (fun t Ht => Hs4 t (Hkn t Ht)) Hc ltac:(lia) ltac:(lia)) as (s3 & es3 & -> & Hw3 & He3 & Hd3 & Hsub & Hall).
    exists s3, ([EvFire ts] ++ es2 ++ es3). split_and!; [done|done| |done| |].
    + rewrite He3, He2. cbn. by rewrite <- !app_assoc.
    + rewrite !fired_app, Hf2, Hd. cbn. constructor. by etransitivity.
    + intros t Ht. rewrite Hd in Ht. rewrite !fired_app, !called_app, !map_app, Hf2, Hc2.
      apply elem_of_cons in Ht as [->|Ht]; [left; set_solver|].
      destruct (Hs3 t Ht) as [Ht2|Ht2]; [|right; set_solver]. destruct (Hall t Ht2); [left|right]; set_solver.
Qed.
End Run.

(** ** Properties *)
(** What the machine does with timers, besides what callbacks do. *)
Inductive timer_op : Type :=
| OpNew (clock : nat) (cb : Z)
| OpCall (c : timer_call)
| OpRun (clock : nat) (now : Z) (fuel : nat).

Definition op_step {W} (callback : W -> Z -> nat -> W * list timer_call) (op : timer_op) (s : tstate W)
  : outcome timer_exn (tstate W) :=
  match op with
  | OpNew clock cb => Ret (snd (qemu_new_timer s clock cb))
  | OpCall c => timer_step c s
  | OpRun clock now fuel => qemu_run_timers callback fuel clock now s
  end.

Inductive timers_reach {W} (callback : W -> Z -> nat -> W * list timer_call) : tstate W -> Prop :=
| reach_init icount w : timers_reach callback (init_timers icount w)
| reach_op s op s' :
    timers_reach callback s -> (match op with OpNew c _ => (c < 3)%nat | _ => True end) ->
    op_step callback op s = Ret s' -> timers_reach callback s'.

Section Reach.
Context {W : Type} (callback : W -> Z -> nat -> W * list timer_call).
Implicit Types (s : tstate W).

Lemma init_wf icount (w : W) : timers_wf (init_timers icount w).
Proof.
  split_and!; [done| |].
  - intros c l Hc. apply lookup_replicate in Hc as [-> _]. by split_and!; constructor.
  - intros t x Hx. cbn in Hx. by rewrite lookup_empty in Hx.
Qed.

Lemma new_wf s c cb : timers_wf s -> (c < 3)%nat -> timers_wf (snd (qemu_new_timer s c cb)).
Proof.
  intros (Hl & Hw & Hm) Hc. assert (store s !! next_name s = None) as Hf.
  { destruct (store s !! next_name s) as [x|] eqn:E; [|done]. destruct (Hm _ _ E). lia. }
  split_and!; [done| |].
  - intros c' l Hc'. destruct (Hw c' l Hc') as (Hn & Hoc & Hs). cbn.
    assert (forall t, t ∈ l -> t <> next_name s) as Hne.
    { intros t Ht ->. rewrite Forall_forall in Hoc. destruct (Hoc _ Ht) as (x & Hx & _). congruence. }
    split_and!; [done| |].
    + rewrite Forall_forall in *. intros t Ht. destruct (Hoc t Ht) as (x & Hx & Ec). exists x.
      rewrite lookup_insert_ne; [done|]. intros <-. by apply (Hne _ Ht).
    + eapply sorted_weaken; [|exact Hs]. intros a b Ha Hb. unfold no_later, expire.
      rewrite !lookup_insert_ne; [done| |]; intros <-; [by apply (Hne _ Hb)|by apply (Hne _ Ha)].
  - intros t x Hx. cbn in *. destruct (decide (next_name s = t)) as [<-|Hne].
    + rewrite lookup_insert_eq in Hx. injection Hx as <-. cbn. split; [lia|done].
    + rewrite lookup_insert_ne in Hx by done. destruct (Hm _ _ Hx). split; [lia|done].
Qed.

Lemma call_wf c s s' : timers_wf s -> timer_step c s = Ret s' -> timers_wf s'.
Proof.
  intros Hw E. assert (live s (target c)) as Hl.
  { destruct c as [ts e|ts]; cbn in *; unfold qemu_mod_timer, qemu_del_timer, timer in E; unfold live;
      destruct (store s !! ts); [done|discriminate|done|discriminate]. }
  destruct (step_returns c s Hw Hl) as (s1 & E1 & Hw1). congruence.
Qed.

Lemma calls_wf cs : forall s s', timers_wf s -> run_calls cs s = Ret s' -> timers_wf s'.
Proof.
  induction cs as [|c cs IH]; intros s s' Hw E; cbn in E; [by injection E as <-|].
  apply obind_ret_inv in E as (s1 & E1 & E2). apply (IH s1 s'); [|done]. by apply (call_wf c (note s [EvCall c])).
Qed.

Lemma run_wf fuel clock now : forall s s', timers_wf s -> qemu_run_timers callback fuel clock now s = Ret s' -> timers_wf s'.
Proof.
  induction fuel as [|fuel IH]; intros s s' Hw E; [done|]. cbn [qemu_run_timers] in E.
  apply obind_ret_inv in E as (l & El & E). unfold list_of in El.
  destruct (active_timers s !! clock) as [k|] eqn:Ea; [|done]. injection El as ->.
  destruct l as [|ts l]; [by injection E as <-|]. apply obind_ret_inv in E as (x & Ex & E).
  destruct (now <? tm_expire x); [by injection E as <-|]. destruct (callback _ _ _) as [w cs].
  apply obind_ret_inv in E as (s1 & E1 & E). apply (IH s1 s'); [|done]. apply (calls_wf cs) in E1; [done|].
  apply (set_list_wf s clock l Hw); [pose proof (lookup_lt_Some _ _ _ Ea) as Hlt; by rewrite (proj1 Hw) in Hlt|].
  apply (tlist_sublist _ _ l (ts :: l)); [by constructor|]. by apply (proj1 (proj2 Hw)).
Qed.

Lemma reach_timers_wf s : timers_reach callback s -> timers_wf s.
Proof.
  induction 1 as [icount w|s op s' _ IH Hop E]; [apply init_wf|]. destruct op as [c cb|c|clock now fuel]; cbn in *.
  - injection E as <-. by apply new_wf.
  - by eapply call_wf.
  - by eapply run_wf.
Qed.

Lemma pending_spec s ts x l :
  timers_wf s -> store s !! ts = Some x -> active_timers s !! tm_clock x = Some l ->
  qemu_timer_pending s ts = Ret (bool_decide (ts ∈ l)).
Proof.
  intros Hw Hx Ea. unfold qemu_timer_pending, timer, list_of. rewrite Hx. cbn [oget obind]. rewrite Ea. cbn [oget obind].
  pose proof (proj1 (proj2 (proj1 (proj2 Hw) _ _ Ea))) as Hoc. clear Ea. induction l as [|t l IH]; [done|].
  apply Forall_cons in Hoc as [(y & Hy & _) Hoc]. cbn [on_list]. destruct (Nat.eqb_spec t ts) as [->|Hne].
  - by rewrite bool_decide_eq_true_2 by set_solver.
  - rewrite Hy. cbn [oget obind]. rewrite IH by done. f_equal. apply bool_decide_ext. set_solver.
Qed.
End Reach.

(** The timer lists stay in order: in every state reached by creating timers, arming
    and stopping them and running expired ones, whatever the callbacks do, each clock's
    list holds a timer at most once and only timers of that clock, in the order of
    expiry; arming or stopping any existing timer returns; arming puts the timer exactly
    behind those of its list that expire no later, keeping their order; and the host's
    alarm is set anew just when the armed timer becomes the first. *)
Theorem timer_lists_ordered {W} (callback : W -> Z -> nat -> W * list timer_call) (s : tstate W) :
  timers_reach callback s ->
  timers_wf s /\
  forall ts x e, store s !! ts = Some x ->
    exists l l1 l2 s1 s2, active_timers s !! tm_clock x = Some l /\
      qemu_timer_pending s ts = Ret (bool_decide (ts ∈ l)) /\
      qemu_del_timer s ts = Ret s1 /\ active_timers s1 = <[tm_clock x := without ts l]> (active_timers s) /\
      qemu_mod_timer s ts e = Ret s2 /\ armed s ts e x l1 l2 s2 /\ without ts l = l1 ++ l2 /\
      Forall (fun t => expire (store s) t <= e) l1 /\ Forall (fun t => e < expire (store s) t) l2.
Proof.
  intros Hw%reach_timers_wf. split; [done|]. intros ts x e Hx.
  destruct (mod_spec s ts x e Hw Hx) as (l & l1 & l2 & s' & Ea & El & E & Har & _ & H1 & H2).
  destruct (del_spec s ts x Hw Hx) as (l' & Ea' & Ed & _). rewrite Ea in Ea'. injection Ea' as <-.
  exists l, l1, l2, (set_list s (tm_clock x) (without ts l)), s'. split_and!; try done. by apply (pending_spec s ts x l).
Qed.

(** Two timers of the virtual clock; the callback of either stops the other and arms its
    own again ten later. *)
Definition rivals (w : Z) (cb : Z) (ts : nat) : Z * list timer_call :=
  (w + 1, [CallDel (1 - ts); CallMod ts (100 + w * 10)]).

Definition rivals_ops : list timer_op :=
  [OpNew 1 0; OpNew 1 0; OpCall (CallMod 0 7); OpCall (CallMod 1 5)].

Definition rivals_state : tstate Z :=
  foldl (fun s op => match op_step rivals op s with Ret s => s | _ => s end) (init_timers false 0) rivals_ops.

Lemma rivals_reach : timers_reach rivals rivals_state.
Proof.
  assert (forall ops s, timers_reach rivals s -> Forall (fun op => match op with OpNew c _ => (c < 3)%nat | _ => True end) ops ->
    timers_reach rivals (foldl (fun s op => match op_step rivals op s with Ret s => s | _ => s end) s ops)) as H.
  { intros ops. induction ops as [|op ops IH]; intros s Hs Hops; [done|]. apply Forall_cons in Hops as [Hop Hops].
    cbn [foldl]. apply IH; [|done]. destruct (op_step rivals op s) as [s'| |] eqn:E; [|done|done]. by eapply reach_op. }
  apply H; [apply reach_init|]. repeat constructor.
Qed.

Lemma timer_lists_ordered_witness :
  timers_wf rivals_state /\
  forall ts x e, store rivals_state !! ts = Some x ->
    exists l l1 l2 s1 s2, active_timers rivals_state !! tm_clock x = Some l /\
      qemu_timer_pending rivals_state ts = Ret (bool_decide (ts ∈ l)) /\
      qemu_del_timer rivals_state ts = Ret s1 /\ active_timers s1 = <[tm_clock x := without ts l]> (active_timers rivals_state) /\
      qemu_mod_timer rivals_state ts e = Ret s2 /\ armed rivals_state ts e x l1 l2 s2 /\ without ts l = l1 ++ l2 /\
      Forall (fun t => expire (store rivals_state) t <= e) l1 /\ Forall (fun t => e < expire (store rivals_state) t) l2.
Proof. apply (timer_lists_ordered rivals rivals_state). exact rivals_reach. Defined.

(** Expired timers run in order and the loop ends: when the callbacks use existing
    timers and arm them only for later than the current time, [qemu_run_timers] returns
    after at most one turn per expired timer; the timers fired are among the ones that
    had expired, in the order of the list and each once; every one that had expired was
    fired or was stopped or re-armed by a callback; and afterwards no timer of the clock
    has expired. *)
Theorem timers_run_due {W} (callback : W -> Z -> nat -> W * list timer_call) (known : nat -> Prop)
    (s : tstate W) (now : Z) (clock fuel : nat) :
  timers_wf s -> (clock < 3)%nat -> (forall t, known t -> live s t) ->
  (forall w cb ts c, c ∈ snd (callback w cb ts) -> known (target c) /\ later now c) ->
  (length (due now clock s) < fuel)%nat ->
  exists s' es, qemu_run_timers callback fuel clock now s = Ret s' /\ timers_wf s' /\ events s' = events s ++ es /\
    due now clock s' = [] /\ fired es `sublist_of` due now clock s /\
    (forall t, t ∈ due now clock s -> t ∈ fired es \/ t ∈ map target (called es)).
Proof. intros Hw Hc Hkn Hcb Hf. by apply (run_due callback now clock known Hcb (length (due now clock s))). Qed.

Lemma timers_run_due_witness :
  exists s' es, qemu_run_timers (fun w _ _ => (w, [CallMod 1 50; CallDel 0])) 3 1 9 rivals_state = Ret s' /\
    timers_wf s' /\ events s' = events rivals_state ++ es /\
    due 9 1 s' = [] /\ fired es `sublist_of` due 9 1 rivals_state /\
    (forall t, t ∈ due 9 1 rivals_state -> t ∈ fired es \/ t ∈ map target (called es)).
Proof.
  apply (timers_run_due (fun w _ _ => (w, [CallMod 1 50; CallDel 0])) (fun t => t = 0%nat \/ t = 1%nat) rivals_state 9 1 3).
  - exact (reach_timers_wf rivals rivals_state rivals_reach).
  - lia.
  - intros t [->| ->]; vm_compute; by eexists.
  - intros w cb ts c Hc. cbn [snd] in Hc. apply elem_of_cons in Hc as [->|Hc]; [cbn; split; [by right|lia]|].
    apply elem_of_cons in Hc as [->|Hc]; [cbn; split; [by left|done]|]. by apply elem_of_nil in Hc.
  - vm_compute. lia.
Defined.

(** ** Snapshots *)
(** What [qemu_put_timer] saved of one machine, [qemu_get_timer] restores in another: the
    timer is pending there for the same time, or not pending. *)
Lemma timer_snapshot {W} (s s' : tstate W) ts ts' x x' l l' :
  timers_wf s -> store s !! ts = Some x -> active_timers s !! tm_clock x = Some l ->
  timers_wf s' -> store s' !! ts' = Some x' -> active_timers s' !! tm_clock x' = Some l' ->
  0 <= tm_expire x < 2 ^ 63 ->
  exists word s'', qemu_put_timer s ts = Ret word /\ qemu_get_timer s' ts' word = Ret s'' /\
    qemu_timer_pending s'' ts' = qemu_timer_pending s ts /\
    (ts ∈ l -> expire (store s'') ts' = tm_expire x).
Proof.
  intros Hw Hx Ea Hw' Hx' Ea' He. unfold qemu_put_timer. rewrite (pending_spec s ts x l) by done. cbn [obind].
  assert (u64 (-1) = 18446744073709551615) as Em by reflexivity. change (2 ^ 63) with 9223372036854775808 in He.
  case_bool_decide as Hin.
  - unfold timer. rewrite Hx. cbn [oget obind].
    rewrite (wrap_small 64) by (unfold is_u; change (2 ^ 64) with 18446744073709551616; lia).
    destruct (mod_spec s' ts' x' (tm_expire x) Hw' Hx') as (k & l1 & l2 & s'' & Ek & _ & E & Har & Hw'' & _).
    exists (tm_expire x), s''. split; [done|]. unfold qemu_get_timer.
    rewrite Em, (proj2 (Z.eqb_neq _ _)) by lia. cbn [negb].
    rewrite swrap_small by (try lia; unfold is_s; change (2 ^ (64 - 1)) with 9223372036854775808; lia).
    split; [done|]. destruct Har as (Es & Eact & _).
    assert (store s'' !! ts' = Some (mkTimer (tm_clock x') (tm_expire x) (tm_cb x'))) as Hx'' by (rewrite Es; by rewrite lookup_insert_eq).
    split; [|intros _; unfold expire; by rewrite Hx''].
    rewrite (pending_spec s'' ts' _ (l1 ++ ts' :: l2) Hw'' Hx'').
    + by rewrite bool_decide_eq_true_2 by set_solver.
    + cbn. rewrite Eact, list_lookup_insert_eq; [done|]. by eapply lookup_lt_Some.
  - destruct (del_spec s' ts' x' Hw' Hx') as (k & Ek & E & Hw'').
    eexists (u64 (-1)), _. split; [done|]. unfold qemu_get_timer. rewrite Z.eqb_refl. cbn [negb].
    split; [exact E|]. split; [|done].
    rewrite (pending_spec (set_list s' (tm_clock x') (without ts' k)) ts' x' (without ts' k) Hw'' Hx').
    + rewrite bool_decide_eq_false_2; [done|]. apply without_notin.
    + cbn. rewrite list_lookup_insert_eq; [done|]. by eapply lookup_lt_Some.
Qed.
