(* ===== verification/CUtils.v ===== *)
(** * String, date and I/O vector helpers: cutils.c

    C strings are byte lists in memory of a known extent: reading past it is a [Fault], as
    is an overflow of an [int].  An I/O vector is the array of its segments with its three
    counters; segments are addresses and lengths in one memory.  [size] is a 64-bit
    [size_t]; the two [int] counters are unbounded here, which says the same of vectors
    below 2^30 segments. *)

From S2P Require Import Prelude.
From stdpp Require Import sets list.

Open Scope Z_scope.

Abbreviation res A := (outcome Empty_set A).

(** ** Strings *)
(** The loop of [pstrcpy]; [q] is the position in the buffer that starts at [base]. *)
Fixpoint pstrcpy_loop (mem : list (option Z)) (base buf_size : Z) (q : Z) (str : list Z) : res (list (option Z)) :=
  match str with
  | [] => Fault
  | c :: str =>
      if (c =? 0) || (base + buf_size - 1 <=? q) then oget (store mem q [Some 0])
      else let! mem := oget (store mem q [Some c]) in pstrcpy_loop mem base buf_size (q + 1) str
  end.

Definition pstrcpy (mem : list (option Z)) (buf buf_size : Z) (str : list Z) : res (list (option Z)) :=
  if buf_size <=? 0 then Ret mem else pstrcpy_loop mem buf buf_size buf str.

(** [strlen] of the string at [p]. *)
Fixpoint strlen (p : list (option Z)) : res Z :=
  match p with
  | Some c :: p => if c =? 0 then Ret 0 else let! n := strlen p in Ret (n + 1)
  | _ => Fault
  end.

Definition pstrcat (mem : list (option Z)) (buf buf_size : Z) (s : list Z) : res (list (option Z)) :=
  let! len := strlen (drop (Z.to_nat buf) mem) in
  if len <? buf_size then pstrcpy mem (buf + len) (buf_size - len) s else Ret mem.

(** [strstart] and [stristart] compare through [f], the identity or [toupper]; the result
    is the text behind the prefix, when it is one. *)
Fixpoint start_loop (f : Z -> Z) (p q : list Z) {struct q} : res (option (list Z)) :=
  match q with
  | [] => Fault
  | c :: q =>
      if c =? 0 then Ret (Some p)
      else match p with
           | [] => Fault
           | d :: p => if negb (f d =? f c) then Ret None else start_loop f p q
           end
  end.

Definition strstart (str val : list Z) : res (option (list Z)) := start_loop id str val.

Definition toupper (c : Z) : Z := if (97 <=? c) && (c <=? 122) then c - 32 else c.
Definition stristart (str val : list Z) : res (option (list Z)) := start_loop toupper str val.

Fixpoint strnlen_loop (s : list Z) (i max_len : Z) (fuel : nat) : res Z :=
  match fuel with
  | O => Ret i
  | S fuel =>
      match s with
      | [] => Fault
      | c :: s => if c =? 0 then Ret i else strnlen_loop s (i + 1) max_len fuel
      end
  end.

Definition qemu_strnlen (s : list Z) (max_len : Z) : res Z := strnlen_loop s 0 max_len (Z.to_nat max_len).

(** ** Dates *)
Record tm : Type := mkTm { tm_sec : Z; tm_min : Z; tm_hour : Z; tm_mday : Z; tm_mon : Z; tm_year : Z }.

Definition mktimegm (t : tm) : res Z :=
  let y := tm_year t + 1900 in
  let m := tm_mon t + 1 in
  let d := tm_mday t in
  let '(y, m) := if m <? 3 then (y - 1, m + 12) else (y, m) in
  let! days := cint (d + Z.quot (153 * m - 457) 5 + 365 * y + Z.quot y 4 - Z.quot y 100 + Z.quot y 400 - 719469) in
  let! secs := cint (86400 * days) in
  Ret (secs + (3600 * tm_hour t + 60 * tm_min t + tm_sec t)).

(** ** I/O vectors *)
Record QEMUIOVector : Type := mkQiov {
  iov : list (option (Z * Z));
  niov : Z;
  nalloc : Z;
  size : Z
}.

Definition qemu_iovec_init (alloc_hint : Z) : QEMUIOVector :=
  mkQiov (replicate (Z.to_nat alloc_hint) None) 0 alloc_hint 0.

Definition qemu_iovec_init_external (v : list (Z * Z)) : QEMUIOVector :=
  mkQiov (map Some v) (Z.of_nat (length v)) (-1) (foldl (fun n seg => u64 (n + snd seg)) 0 v).

Definition qemu_iovec_add (q : QEMUIOVector) (base len : Z) : res QEMUIOVector :=
  if nalloc q =? -1 then Fault
  else
    let '(arr, na) :=
      if niov q =? nalloc q
      then let na := 2 * nalloc q + 1 in (iov q ++ replicate (Z.to_nat na - length (iov q)) None, na)
      else (iov q, nalloc q) in
    let! arr := oget (store arr (niov q) [Some (base, len)]) in
    Ret (mkQiov arr (niov q + 1) na (u64 (size q + len))).

(** [iov[i]], initialised. *)
Definition seg (q : QEMUIOVector) (i : nat) : res (Z * Z) :=
  match iov q !! i with Some (Some s) => Ret s | _ => Fault end.

(** The loop of [qemu_iovec_concat] over the segments of [src] from [i] on. *)
Fixpoint concat_loop (n i : nat) (dst src : QEMUIOVector) (done sz : Z) : res QEMUIOVector :=
  match n with
  | O => Ret dst
  | S n =>
      if done =? sz then Ret dst
      else
        let! '(base, len) := seg src i in
        if sz <? u64 (done + len) then qemu_iovec_add dst base (u64 (sz - done))
        else
          let! dst := qemu_iovec_add dst base len in
          concat_loop n (S i) dst src (u64 (done + len)) sz
  end.

Definition qemu_iovec_concat (dst src : QEMUIOVector) (sz : Z) : res QEMUIOVector :=
  if nalloc dst =? -1 then Fault else concat_loop (Z.to_nat (niov src)) 0 dst src 0 sz.

Definition qemu_iovec_reset (q : QEMUIOVector) : res QEMUIOVector :=
  if nalloc q =? -1 then Fault else Ret (mkQiov (iov q) 0 (nalloc q) 0).

(** Gathering: the memory the segments are in, the buffer and the position [p] in it. *)
Fixpoint to_loop (n i : nat) (q : QEMUIOVector) (mem buf : list Z) (p : Z) : res (list Z) :=
  match n with
  | O => Ret buf
  | S n =>
      let! '(base, len) := seg q i in
      let! bs := oget (load mem base len) in
      let! buf := oget (store buf p bs) in
      to_loop n (S i) q mem buf (p + len)
  end.

Definition qemu_iovec_to_buffer (q : QEMUIOVector) (mem buf : list Z) : res (list Z) :=
  to_loop (Z.to_nat (niov q)) 0 q mem buf 0.

(** Scattering [count] bytes of the buffer from position [p]. *)
Fixpoint from_loop (n i : nat) (q : QEMUIOVector) (mem buf : list Z) (p count : Z) : res (list Z) :=
  match n with
  | O => Ret mem
  | S n =>
      if count =? 0 then Ret mem
      else
        let! '(base, len) := seg q i in
        let copy := if len <? count then len else count in
        let! bs := oget (load buf p copy) in
        let! mem := oget (store mem base bs) in
        from_loop n (S i) q mem buf (p + copy) (count - copy)
  end.

Definition qemu_iovec_from_buffer (q : QEMUIOVector) (mem buf : list Z) (count : Z) : res (list Z) :=
  from_loop (Z.to_nat (niov q)) 0 q mem buf 0 count.

(** ** Strings: what the helpers compute *)
Abbreviation nul_free := (Forall (fun c => c <> 0)).

(** Copying truncates to the buffer, always ends the string and writes nowhere else. *)
Lemma pstrcpy_loop_spec mem mem' base n pre s rest :
  nul_free s -> Z.of_nat (length pre) < n -> base + n <= Z.of_nat (length mem) -> 0 <= base ->
  store mem base (map Some pre) = Some mem' ->
  pstrcpy_loop mem' base n (base + Z.of_nat (length pre)) (s ++ 0 :: rest) =
  oget (store mem base (map Some (pre ++ take (Z.to_nat (n - 1) - length pre) s) ++ [Some 0])).
Proof.
  intros Hs Hn Hm Hb. revert mem' pre Hn. induction Hs as [|c s Hc Hs IH]; intros mem' pre Hn E.
  - rewrite take_nil, app_nil_r. cbn [app pstrcpy_loop]. cbn [Z.eqb orb].
    rewrite <- (store_app _ _ _ _ _ E). by rewrite length_map.
  - cbn [app pstrcpy_loop]. rewrite (proj2 (Z.eqb_neq c 0) Hc). cbn [orb].
    destruct (Z.leb_spec (base + n - 1) (base + Z.of_nat (length pre))) as [Hle|Hlt].
    + replace (Z.to_nat (n - 1) - length pre)%nat with 0%nat by lia. rewrite take_0, app_nil_r.
      rewrite <- (store_app _ _ _ _ _ E). by rewrite length_map.
    + destruct (store mem' (base + Z.of_nat (length pre)) [Some c]) as [mem2|] eqn:E2.
      2: { pose proof (length_store _ _ _ _ E) as Hl. rewrite store_ok in E2; [done|lia|]. cbn. lia. }
      cbn [oget obind]. assert (store mem base (map Some (pre ++ [c])) = Some mem2) as E3.
      { rewrite <- E2, map_app. cbn [map]. pose proof (store_app _ _ _ [Some c] _ E) as H. by rewrite length_map in H. }
      replace (base + Z.of_nat (length pre) + 1) with (base + Z.of_nat (length (pre ++ [c]))) by (rewrite length_app; cbn; lia).
      rewrite (IH mem2 (pre ++ [c])) by (done || (rewrite length_app; cbn; lia)).
      rewrite length_app. cbn [length]. replace (Z.to_nat (n - 1) - length pre)%nat with (S (Z.to_nat (n - 1) - (length pre + 1))) by lia.
      cbn [take]. by rewrite <- app_assoc.
Qed.

Lemma pstrcpy_spec mem buf n s rest :
  nul_free s -> 0 < n -> 0 <= buf -> buf + n <= Z.of_nat (length mem) ->
  pstrcpy mem buf n (s ++ 0 :: rest) = oget (store mem buf (map Some (take (Z.to_nat (n - 1)) s) ++ [Some 0])).
Proof.
  intros Hs Hn Hb Hm. unfold pstrcpy. rewrite (proj2 (Z.leb_gt n 0)) by lia.
  assert (store mem buf (map Some []) = Some mem) as E.
  { rewrite store_ok by (cbn; lia). cbn. by rewrite Nat.add_0_r, take_drop. }
  pose proof (pstrcpy_loop_spec mem mem buf n [] s rest Hs ltac:(cbn; lia) Hm Hb E) as H.
  cbn [length] in H. rewrite Z.add_0_r, Nat.sub_0_r in H. exact H.
Qed.

Lemma strlen_spec s (tl : list (option Z)) : nul_free s -> strlen (map Some s ++ Some 0 :: tl) = Ret (Z.of_nat (length s)).
Proof.
  induction 1 as [|c s Hc Hs IH]; [done|]. cbn [map app strlen]. rewrite (proj2 (Z.eqb_neq c 0) Hc), IH. cbn [obind length]. f_equal. lia.
Qed.

(** Appending to the string in a buffer of [n] bytes: the concatenation, cut to [n - 1]
    characters; nothing happens when the string already fills the buffer. *)
Lemma pstrcat_spec pre s1 tl n s2 rest :
  nul_free s1 -> nul_free s2 -> 0 < n -> n <= Z.of_nat (length s1 + 1 + length tl) ->
  let mem := pre ++ map Some s1 ++ Some 0 :: tl in
  pstrcat mem (Z.of_nat (length pre)) n (s2 ++ 0 :: rest) =
  if Z.of_nat (length s1) <? n
  then oget (store mem (Z.of_nat (length pre)) (map Some (take (Z.to_nat (n - 1)) (s1 ++ s2)) ++ [Some 0]))
  else Ret mem.
Proof.
  intros H1 H2 Hn Hm mem. unfold pstrcat, mem. rewrite Nat2Z.id, drop_app_length, strlen_spec by done. cbn [obind].
  destruct (Z.ltb_spec (Z.of_nat (length s1)) n) as [Hlt|]; [|done].
  rewrite pstrcpy_spec by (done || lia || (rewrite ?length_app, ?length_map; cbn; rewrite ?length_app, ?length_map; cbn; lia)).
  assert (store (pre ++ map Some s1 ++ Some 0 :: tl) (Z.of_nat (length pre)) (map Some s1) = Some (pre ++ map Some s1 ++ Some 0 :: tl)) as E.
  { rewrite store_ok by (rewrite ?length_app, ?length_map; lia).
    rewrite Nat2Z.id, take_app_length. f_equal. f_equal. f_equal.
    rewrite app_assoc, drop_app_length'; [done|]. rewrite length_app, !length_map. done. }
  pose proof (store_app _ _ _ (map Some (take (Z.to_nat (n - Z.of_nat (length s1) - 1)) s2) ++ [Some 0]) _ E) as Ha.
  rewrite length_map in Ha. rewrite Ha. do 2 f_equal. rewrite app_assoc, <- map_app. do 2 f_equal.
  rewrite take_app_ge by lia. do 2 f_equal. lia.
Qed.

(** A prefix test up to [f]: the rest of the string when it is one. *)
Lemma start_spec (f : Z -> Z) s v r r' :
  nul_free s -> nul_free v -> (forall c, c ∈ v -> f 0 <> f c) ->
  start_loop f (s ++ 0 :: r) (v ++ 0 :: r') =
  Ret (if decide (map f v `prefix_of` map f s) then Some (drop (length v) s ++ 0 :: r) else None).
Proof.
  intros Hs Hv Hf. revert s Hs. induction Hv as [|c v Hc Hv IH]; intros s Hs.
  - cbn [app start_loop map length]. change (0 =? 0) with true. cbv iota. rewrite decide_True by apply prefix_nil.
    by rewrite drop_0.
  - cbn [app start_loop]. rewrite (proj2 (Z.eqb_neq c 0) Hc). destruct Hs as [|d s Hd Hs].
    + cbn [app]. rewrite (proj2 (Z.eqb_neq (f 0) (f c))) by (apply Hf; set_solver). cbn [negb].
      rewrite decide_False; [done|]. apply prefix_nil_not.
    + cbn [app]. destruct (Z.eqb_spec (f d) (f c)) as [E|E]; cbn [negb].
      * rewrite IH by (done || (intros; apply Hf; set_solver)). cbn [map length drop].
        destruct (decide (map f v `prefix_of` map f s)) as [Hp|Hp]; destruct (decide (f c :: map f v `prefix_of` f d :: map f s)) as [Hq|Hq]; try done.
        -- exfalso. apply Hq. rewrite E. by apply prefix_cons.
        -- exfalso. apply Hp. by apply prefix_cons_inv_2 in Hq.
      * cbn [map]. rewrite decide_False; [done|]. intros Hq. apply prefix_cons_inv_1 in Hq. congruence.
Qed.

(** ** Dates: the calendar *)
Definition leap (y : Z) : bool := (y mod 4 =? 0) && (negb (y mod 100 =? 0) || (y mod 400 =? 0)).
Definition year_len (y : Z) : Z := if leap y then 366 else 365.
Definition month_len (y : Z) (m : nat) : Z :=
  match m with
  | 2%nat => if leap y then 29 else 28
  | 4%nat | 6%nat | 9%nat | 11%nat => 30
  | _ => 31
  end.

(** Days from 1 January 1970 to 1 January of the year [1970 + n], and from there to the
    first of month [k + 1], counted one year and one month at a time. *)
Fixpoint year_days (n : nat) : Z :=
  match n with O => 0 | S n => year_days n + year_len (1970 + Z.of_nat n) end.
Fixpoint month_days (y : Z) (k : nat) : Z :=
  match k with O => 0 | S k => month_days y k + month_len y (S k) end.

Definition calendar_days (n m : nat) (d : Z) : Z :=
  year_days n + month_days (1970 + Z.of_nat n) (m - 1) + (d - 1).

Lemma year_days_closed n :
  let y := 1969 + Z.of_nat n in year_days n = 365 * y + y / 4 - y / 100 + y / 400 - 719162.
Proof.
  induction n as [|n IH]; [done|]. cbn [year_days]. rewrite IH. unfold year_len, leap.
  replace (1969 + Z.of_nat (S n)) with (1970 + Z.of_nat n) by lia.
  destruct (Z.eqb_spec ((1970 + Z.of_nat n) mod 4) 0); destruct (Z.eqb_spec ((1970 + Z.of_nat n) mod 100) 0);
    destruct (Z.eqb_spec ((1970 + Z.of_nat n) mod 400) 0); cbn [andb orb negb]; Z.to_euclidean_division_equations; lia.
Qed.

Lemma month_formula n m d :
  (1 <= m <= 12)%nat ->
  let '(y, k) := if Z.of_nat m <? 3 then (1970 + Z.of_nat n - 1, Z.of_nat m + 12) else (1970 + Z.of_nat n, Z.of_nat m) in
  d + Z.quot (153 * k - 457) 5 + 365 * y + Z.quot y 4 - Z.quot y 100 + Z.quot y 400 - 719469 = calendar_days n m d.
Proof.
  intros Hm. unfold calendar_days. rewrite year_days_closed. set (y := 1970 + Z.of_nat n).
  assert (month_days y (m - 1) = (if leap y then 1 else 0) * (if (m <=? 2)%nat then 0 else 1) +
    match m with 1%nat => 0 | 2%nat => 31 | 3%nat => 59 | 4%nat => 90 | 5%nat => 120 | 6%nat => 151 | 7%nat => 181
            | 8%nat => 212 | 9%nat => 243 | 10%nat => 273 | 11%nat => 304 | _ => 334 end) as ->.
  { do 13 (destruct m as [|m]; [cbn; destruct (leap y); (lia || reflexivity)|]). lia. }
  assert (leap y = true <-> y mod 4 = 0 /\ (y mod 100 <> 0 \/ y mod 400 = 0)) as Hl.
  { unfold leap. destruct (Z.eqb_spec (y mod 4) 0); destruct (Z.eqb_spec (y mod 100) 0); destruct (Z.eqb_spec (y mod 400) 0); cbn; intuition lia. }
  assert (forall a b, 0 <= a -> 0 < b -> Z.quot a b = a / b) as Hq by (intros; apply Z.quot_div_nonneg; lia).
  replace (1969 + Z.of_nat n) with (y - 1) by lia.
  assert (leap y = true /\ y mod 4 = 0 /\ (y mod 100 <> 0 \/ y mod 400 = 0) \/
          leap y = false /\ ~ (y mod 4 = 0 /\ (y mod 100 <> 0 \/ y mod 400 = 0))) as [[-> Hy]|[-> Hy]].
  { destruct (leap y) eqn:El; [left; split; [done|by apply Hl]|right; split; [done|]]. rewrite <- Hl. congruence. }
  all: clear Hl; destruct (Z.ltb_spec (Z.of_nat m) 3); cbv beta iota; rewrite !Hq by lia; clear Hq;
    do 13 (destruct m as [|m]; [first [lia | cbv beta iota delta [Nat.leb]; Z.to_euclidean_division_equations; lia]|]); lia.
Qed.

Lemma month_days_bounds y k : (k <= 11)%nat -> 0 <= month_days y k <= 341.
Proof. intros Hk. do 12 (destruct k as [|k]; [cbn; destruct (leap y); lia|]). lia. Qed.

Lemma year_days_bounds n : 0 <= year_days n <= 366 * Z.of_nat n.
Proof. induction n as [|n IH]; [done|]. cbn [year_days]. unfold year_len. destruct (leap _); lia. Qed.

(** [mktimegm] is the calendar: for a date from 1970 on (the year below five million)
    its value is the seconds since 1 January 1970 counted year by year and month by month
    with the Gregorian leap years, as long as the seconds of the whole days fit an
    [int]; from 19 January 2038 on the product of days and 86400, which is computed as an
    [int], overflows. *)
Theorem mktimegm_calendar (n m : nat) (d h mi s : Z) :
  Z.of_nat n < 5000000 -> (1 <= m <= 12)%nat -> 1 <= d <= 31 ->
  mktimegm (mkTm s mi h d (Z.of_nat m - 1) (1970 + Z.of_nat n - 1900)) =
  if 86400 * calendar_days n m d <? 2 ^ 31
  then Ret (86400 * calendar_days n m d + (3600 * h + 60 * mi + s)) else Fault.
Proof.
  intros Hn Hm Hd. unfold mktimegm. cbn [tm_year tm_mon tm_mday tm_hour tm_min tm_sec].
  replace (1970 + Z.of_nat n - 1900 + 1900) with (1970 + Z.of_nat n) by lia.
  replace (Z.of_nat m - 1 + 1) with (Z.of_nat m) by lia.
  pose proof (month_formula n m d Hm) as E.
  assert (0 <= calendar_days n m d < 2 ^ 31) as Hr.
  { unfold calendar_days. pose proof (month_days_bounds (1970 + Z.of_nat n) (m - 1) ltac:(lia)).
    pose proof (year_days_bounds n). change (2 ^ 31) with 2147483648. lia. }
  change (2 ^ 31) with 2147483648 in Hr.
  destruct (Z.of_nat m <? 3); cbv beta iota in E |- *; rewrite E; unfold cint, int_ok;
    change (2 ^ 31) with 2147483648 in *; change (- (2147483648)) with (-2147483648) in *;
    rewrite (proj2 (Z.leb_le (-2147483648) (calendar_days n m d))), (proj2 (Z.ltb_lt (calendar_days n m d) 2147483648)) by lia;
    cbn [andb obind]; rewrite (proj2 (Z.leb_le (-2147483648) (86400 * calendar_days n m d))) by lia;
    cbn [andb]; by destruct (86400 * calendar_days n m d <? 2147483648).
Qed.

Lemma mktimegm_calendar_witness :
  mktimegm (mkTm 7 14 3 19 (Z.of_nat 1 - 1) (1970 + Z.of_nat 68 - 1900)) =
  if 86400 * calendar_days 68 1 19 <? 2 ^ 31
  then Ret (86400 * calendar_days 68 1 19 + (3600 * 3 + 60 * 14 + 7)) else Fault.
Proof. apply (mktimegm_calendar 68 1 19 3 14 7); lia. Defined.

(** ** I/O vectors: lists of segments *)
Definition total (v : list (Z * Z)) : Z := foldr (fun s n => snd s + n) 0 v.

(** The addresses a list of segments covers, in order. *)
Definition addrs (v : list (Z * Z)) : list Z := concat (map (fun s => seqZ (fst s) (snd s)) v).

(** [q] is a vector of its own holding the segments [v]. *)
Definition holds (q : QEMUIOVector) (v : list (Z * Z)) : Prop :=
  niov q = Z.of_nat (length v) /\ take (length v) (iov q) = map Some v /\ size q = u64 (total v) /\
  (length v <= length (iov q))%nat /\ (nalloc q = -1 \/ nalloc q = Z.of_nat (length (iov q))).

Lemma holds_seg q v i s : holds q v -> v !! i = Some s -> seg q i = Ret s.
Proof.
  intros (_ & Ht & _) Hi. unfold seg. pose proof (lookup_lt_Some _ _ _ Hi) as Hl.
  rewrite <- (lookup_take_lt (iov q) (length v) i) by done. rewrite Ht, list_lookup_fmap, Hi. done.
Qed.

Lemma total_app a b : total (a ++ b) = total a + total b.
Proof. unfold total. induction a as [|s a IH]; cbn; [done|]. rewrite IH. lia. Qed.

Lemma addrs_app a b : addrs (a ++ b) = addrs a ++ addrs b.
Proof. unfold addrs. by rewrite map_app, concat_app. Qed.

Lemma add_holds q v base len :
  holds q v -> nalloc q <> -1 ->
  exists q', qemu_iovec_add q base len = Ret q' /\ holds q' (v ++ [(base, len)]) /\ nalloc q' <> -1.
Proof.
  intros (Hn & Ht & Hs & Hl & Ha) Hne. destruct Ha as [?|Ha]; [done|]. unfold qemu_iovec_add.
  rewrite (proj2 (Z.eqb_neq _ _) Hne). cbv iota.
  match goal with |- context [match ?p with pair _ _ => _ end] =>
    assert (exists arr na, p = (arr, na) /\ na = Z.of_nat (length arr) /\ (length v < length arr)%nat /\
      take (length v) arr = map Some v) as (arr & na & -> & Hna & Hlt & Hta) end.
  { destruct (Z.eqb_spec (niov q) (nalloc q)).
    - eexists _, _. split; [done|]. rewrite length_app, length_replicate. split_and!; [lia|lia|].
      rewrite take_app_le by lia. done.
    - eexists _, _. split; [done|]. split_and!; [done|lia|done]. }
  rewrite store_ok by (cbn; lia). cbn [oget obind]. eexists. split; [done|]. rewrite Hn, Nat2Z.id. cbn [length].
  split; [|cbn; lia]. split_and!; cbn [niov iov size nalloc].
  - rewrite length_app. cbn. lia.
  - rewrite length_app, map_app, Hta. cbn [length]. rewrite app_assoc.
    rewrite take_app_length'; [done|]. rewrite length_app, length_map. done.
  - rewrite Hs, total_app, wrap_add_l. cbn. f_equal. lia.
  - rewrite !length_app, length_drop, length_take. cbn. lia.
  - right. rewrite !length_app, length_drop, length_take. cbn. lia.
Qed.

(** The segments of [v] up to [n] bytes, the last one cut. *)
Fixpoint clip (v : list (Z * Z)) (n : Z) : list (Z * Z) :=
  match v with
  | [] => []
  | (base, len) :: v =>
      if n =? 0 then []
      else if n <? len then [(base, n)]
      else (base, len) :: clip v (n - len)
  end.

Lemma clip_addrs v n : Forall (fun s => 0 <= snd s) v -> 0 <= n -> addrs (clip v n) = take (Z.to_nat n) (addrs v).
Proof.
  revert n. induction v as [|[base len] v IH]; intros n Hv Hn; [change (addrs []) with (@nil Z); by rewrite take_nil|].
  apply Forall_cons in Hv as [Hlen Hv]. cbn [snd] in Hlen. cbn [clip].
  destruct (Z.eqb_spec n 0) as [->|]; [done|]. change ((base, len) :: v) with ([(base, len)] ++ v).
  rewrite addrs_app. assert (forall k, addrs [(base, k)] = seqZ base k) as Hone by (intros; unfold addrs; cbn; apply app_nil_r).
  rewrite Hone. destruct (Z.ltb_spec n len).
  - rewrite Hone, take_app_le by (rewrite length_seqZ; lia).
    replace len with (n + (len - n)) by lia. rewrite seqZ_app by lia.
    by rewrite take_app_length' by (rewrite length_seqZ; lia).
  - change ((base, len) :: clip v (n - len)) with ([(base, len)] ++ clip v (n - len)).
    rewrite addrs_app, Hone, IH by (done || lia). rewrite take_app_ge by (rewrite length_seqZ; lia).
    rewrite length_seqZ. do 2 f_equal. lia.
Qed.

Lemma total_nonneg v : Forall (fun s => 0 <= snd s) v -> 0 <= total v.
Proof. induction 1 as [|s v Hs Hv IH]; cbn; [done|]. unfold total in *. lia. Qed.

Lemma concat_loop_holds src vs sz :
  holds src vs -> Forall (fun s => 0 <= snd s) vs -> total vs < 2 ^ 64 -> sz < 2 ^ 64 ->
  forall n i dst vd done, (n + i = length vs)%nat -> done = total (take i vs) -> done <= sz ->
    holds dst vd -> nalloc dst <> -1 ->
    exists dst', concat_loop n i dst src done sz = Ret dst' /\ holds dst' (vd ++ clip (drop i vs) (sz - done)) /\ nalloc dst' <> -1.
Proof.
  intros Hsrc Hpos Htot Hsz n. induction n as [|n IH]; intros i dst vd dn Hni Hdn Hle Hdst Hna; cbn [concat_loop].
  { rewrite drop_ge by lia. cbn [clip]. rewrite app_nil_r. eauto. }
  destruct (lookup_lt_is_Some_2 vs i) as [[base len] Hi]; [lia|]. rewrite (drop_S _ _ _ Hi). cbn [clip].
  assert (0 <= len) as Hlen by (rewrite Forall_forall in Hpos; apply (Hpos (base, len)); by eapply list_elem_of_lookup_2).
  assert (dn + len <= total vs /\ 0 <= dn) as [Hbd Hd0].
  { assert (total vs = total (take i vs) + (len + total (drop (S i) vs))) as Et
      by (rewrite <- (take_drop i vs) at 1; rewrite total_app, (drop_S _ _ _ Hi); done).
    assert (Forall (fun s => 0 <= snd s) (take i vs) /\ Forall (fun s => 0 <= snd s) (drop (S i) vs)) as [Ha Hb]
      by (split; [by apply Forall_take|by apply Forall_drop]).
    pose proof (total_nonneg _ Ha). pose proof (total_nonneg _ Hb). lia. }
  destruct (Z.eqb_spec dn sz) as [->|Hne].
  { rewrite Z.sub_diag. cbn [Z.eqb]. rewrite app_nil_r. eauto. }
  rewrite (proj2 (Z.eqb_neq (sz - dn) 0)) by lia. rewrite (holds_seg src vs i _ Hsrc Hi). cbn [obind].
  change (2 ^ 64) with 18446744073709551616 in *.
  assert (forall z, 0 <= z < 18446744073709551616 -> u64 z = z) as Hu by (intros; by apply wrap_small).
  rewrite (Hu (dn + len)) by lia. destruct (Z.ltb_spec sz (dn + len)).
  - rewrite (proj2 (Z.ltb_lt (sz - dn) len)) by lia. rewrite Hu by lia. by apply add_holds.
  - rewrite (proj2 (Z.ltb_ge (sz - dn) len)) by lia.
    destruct (add_holds dst vd base len Hdst Hna) as (d1 & -> & Hd1 & Hna1). cbn [obind].
    destruct (IH (S i) d1 (vd ++ [(base, len)]) (dn + len)) as (d2 & -> & Hd2 & Hna2); [lia| |lia|done|done|].
    { rewrite (take_S_r _ _ _ Hi), total_app. unfold total at 2. cbn. lia. }
    exists d2. split; [done|]. split; [|done]. rewrite <- app_assoc in Hd2. cbn [app] in Hd2.
    by replace (sz - (dn + len)) with (sz - dn - len) in Hd2 by lia.
Qed.

(** ** Scatter and gather *)
Fixpoint read_segs (mem : list Z) (v : list (Z * Z)) : option (list Z) :=
  match v with
  | [] => Some []
  | (base, len) :: v =>
      match load mem base len, read_segs mem v with
      | Some a, Some b => Some (a ++ b)
      | _, _ => None
      end
  end.

Definition in_memory (n : Z) (s : Z * Z) : Prop := 0 <= fst s /\ 0 <= snd s /\ fst s + snd s <= n.
Definition disjoint_segs (a b : Z * Z) : Prop := fst a + snd a <= fst b \/ fst b + snd b <= fst a.

Lemma read_segs_length mem v bs : read_segs mem v = Some bs -> Z.of_nat (length bs) = total v.
Proof.
  revert bs. induction v as [|[base len] v IH]; intros bs E; cbn in E; [by injection E as <-|].
  destruct (load mem base len) as [a|] eqn:Ea; [|done]. destruct (read_segs mem v) as [b|]; [|done]. injection E as <-.
  apply load_Some in Ea as (_ & _ & _ & Hl & _). rewrite length_app. specialize (IH b eq_refl).
  change (total ((base, len) :: v)) with (len + total v). lia.
Qed.

Lemma read_segs_other mem mem' pos bs v :
  store mem pos bs = Some mem' -> Forall (disjoint_segs (pos, Z.of_nat (length bs))) v -> read_segs mem' v = read_segs mem v.
Proof.
  intros E Hd. induction Hd as [|[base len] v Hs Hv IH]; [done|]. cbn [read_segs]. rewrite IH.
  by rewrite (load_store_other _ _ _ _ base len E) by (unfold disjoint_segs in Hs; cbn in Hs; lia).
Qed.

Lemma to_loop_spec q v mem : holds q v ->
  forall n i buf buf0 pre bs, (n + i = length v)%nat -> read_segs mem (drop i v) = Some bs ->
    store buf0 0 pre = Some buf -> (length pre + length bs <= length buf0)%nat ->
    to_loop n i q mem buf (Z.of_nat (length pre)) = oget (store buf0 0 (pre ++ bs)).
Proof.
  intros Hq n. induction n as [|n IH]; intros i buf buf0 pre bs Hni Hr Hb Hl; cbn [to_loop].
  { rewrite drop_ge in Hr by lia. injection Hr as <-. rewrite app_nil_r, Hb. done. }
  destruct (lookup_lt_is_Some_2 v i) as [[base len] Hi]; [lia|]. rewrite (drop_S _ _ _ Hi) in Hr. cbn [read_segs] in Hr.
  rewrite (holds_seg q v i _ Hq Hi). cbn [obind]. destruct (load mem base len) as [a|] eqn:Ea; [|done].
  destruct (read_segs mem (drop (S i) v)) as [b|] eqn:Eb; [|done]. injection Hr as <-. cbn [oget obind].
  apply load_Some in Ea as (_ & _ & _ & Hla & _). rewrite length_app in Hl.
  pose proof (store_app _ _ _ a _ Hb) as Ha. rewrite Z.add_0_l in Ha. rewrite Ha.
  destruct (store buf0 0 (pre ++ a)) as [buf1|] eqn:E1; [|by rewrite store_ok in E1 by (rewrite ?length_app; lia)].
  cbn [oget obind]. replace (Z.of_nat (length pre) + len) with (Z.of_nat (length (pre ++ a))) by (rewrite length_app; lia).
  rewrite (IH (S i) buf1 buf0 (pre ++ a) b); [by rewrite <- app_assoc|lia|done|done|rewrite length_app; lia].
Qed.

Lemma load_nil {A} (m : list A) base : 0 <= base <= Z.of_nat (length m) -> load m base 0 = Some [].
Proof. intros H. by rewrite load_ok by lia. Qed.

Lemma read_segs_empty mem v :
  Forall (in_memory (Z.of_nat (length mem))) v -> total v = 0 -> read_segs mem v = Some [].
Proof.
  induction 1 as [|[base len] v (Hb & Hl & Hm) Hv IH]; intros Ht; [done|]. cbn [fst snd] in *.
  change (total ((base, len) :: v)) with (len + total v) in Ht.
  assert (0 <= total v) by (apply total_nonneg; eapply Forall_impl; [exact Hv|]; by intros s (_ & ? & _)).
  assert (len = 0) as -> by lia. cbn [read_segs]. rewrite load_nil, IH by lia. done.
Qed.

Lemma take_app_drop {A} a b (l : list A) : take (a + b) l = take a l ++ take b (drop a l).
Proof. revert l. induction a as [|a IH]; intros [|x l]; cbn; [done..|by rewrite take_nil|]. by rewrite IH. Qed.

Lemma from_loop_spec q v buf : holds q v -> ForallOrdPairs disjoint_segs v ->
  forall n i mem p, (n + i = length v)%nat -> Forall (in_memory (Z.of_nat (length mem))) (drop i v) -> 0 <= p ->
    p + total (drop i v) <= Z.of_nat (length buf) ->
    exists mem', from_loop n i q mem buf p (total (drop i v)) = Ret mem' /\ length mem' = length mem /\
      read_segs mem' (drop i v) = load buf p (total (drop i v)) /\
      (forall w, Forall (fun s => Forall (fun s' => disjoint_segs s' s) (drop i v)) w -> read_segs mem' w = read_segs mem w).
Proof.
  intros Hq Hdis n. induction n as [|n IH]; intros i mem p Hni Hmem Hp Hl; cbn [from_loop].
  { rewrite drop_ge in * by lia. exists mem. split_and!; [done|done|by rewrite load_nil by (cbn in Hl; lia)|done]. }
  assert (Forall (fun s => 0 <= snd s) (drop i v)) as Hpos by (eapply Forall_impl; [exact Hmem|]; by intros s (_ & ? & _)).
  destruct (Z.eqb_spec (total (drop i v)) 0) as [E0|Hne].
  { exists mem. rewrite E0 in *. split_and!; [done|done| |done]. rewrite load_nil by lia. by apply read_segs_empty. }
  destruct (lookup_lt_is_Some_2 v i) as [[base len] Hi]; [lia|].
  assert (ForallOrdPairs disjoint_segs (drop i v)) as Hdi.
  { clear -Hdis. revert i. induction Hdis as [|s v Hs Hv IH]; intros i; [rewrite drop_nil; constructor|].
    destruct i; [by constructor|]. cbn [drop]. apply IH. }
  rewrite (drop_S _ _ _ Hi) in *. apply Forall_cons in Hmem as [(Hb & Hlen & Hbl) Hmem]. cbn [fst snd] in *.
  apply Forall_cons in Hpos as [_ Hpos]. pose proof (total_nonneg _ Hpos) as Ht0.
  change (total ((base, len) :: drop (S i) v)) with (len + total (drop (S i) v)) in *.
  set (rest := total (drop (S i) v)) in *. inversion Hdi as [|? ? Hd1 Hd2]; subst.
  rewrite (holds_seg q v i _ Hq Hi). cbn [obind].
  replace (if len <? len + rest then len else len + rest) with len by (destruct (Z.ltb_spec len (len + rest)); lia).
  destruct (load buf p len) as [a|] eqn:Ea; [|by rewrite load_ok in Ea by lia].
  pose proof Ea as (_ & _ & _ & Hla & _)%load_Some. cbn [oget obind].
  destruct (store mem base a) as [mem1|] eqn:E1; [|by rewrite store_ok in E1 by lia]. cbn [oget obind].
  pose proof (length_store _ _ _ _ E1) as Hl1. replace (len + rest - len) with rest by lia.
  destruct (IH (S i) mem1 (p + len)) as (mem2 & E2 & Hl2 & Hr2 & Ho2); [lia|by rewrite Hl1|lia|lia|].
  fold rest in E2, Hr2. rewrite E2.
  exists mem2. split_and!; [done|congruence| |].
  - cbn [read_segs]. assert (load mem2 base len = Some a) as ->.
    { pose proof (Ho2 [(base, len)]) as Ho. cbn [read_segs] in Ho.
      rewrite (load_store_same _ _ _ _ len E1 (eq_sym Hla)) in Ho. destruct (load mem2 base len) as [x|].
      - rewrite app_nil_r in Ho. rewrite app_nil_r in Ho. apply Ho. repeat constructor.
        eapply Forall_impl; [exact Hd1|]. unfold disjoint_segs. cbn. intros; lia.
      - by discriminate Ho; repeat constructor; eapply Forall_impl; [exact Hd1|]; unfold disjoint_segs; cbn; intros; lia. }
    rewrite Hr2. destruct (load buf (p + len) rest) as [b|] eqn:Eb; [|by rewrite load_ok in Eb by lia].
    pose proof Eb as (_ & _ & _ & Hlb & Eb')%load_Some. pose proof Ea as (_ & _ & _ & _ & Ea')%load_Some.
    rewrite load_ok by lia. f_equal. subst a b.
    replace (Z.to_nat (len + rest)) with (Z.to_nat len + Z.to_nat rest)%nat by lia.
    rewrite (Z2Nat.inj_add p len) by lia. by rewrite take_app_drop, drop_drop.
  - intros w Hw. rewrite Ho2.
    + apply (read_segs_other _ _ _ _ _ E1). eapply Forall_impl; [exact Hw|]. intros s Hs. apply Forall_cons in Hs as [Hs _].
      by rewrite Hla.
    + eapply Forall_impl; [exact Hw|]. intros s Hs. by apply Forall_cons in Hs as [_ Hs].
Qed.

(** Concatenation appends a prefix: [qemu_iovec_concat] leaves in [dst] its own
    segments followed by those of [src] cut to [sz] bytes, growing the array as needed,
    so that the addresses [dst] covers are the old ones followed by the first [sz] that
    [src] covers; the counters describe the new contents. *)
Theorem iovec_concat_appends dst vd src vs sz :
  holds dst vd -> nalloc dst <> -1 -> holds src vs ->
  Forall (fun s => 0 <= snd s) vs -> total vs < 2 ^ 64 -> 0 <= sz < 2 ^ 64 ->
  exists dst', qemu_iovec_concat dst src sz = Ret dst' /\ holds dst' (vd ++ clip vs sz) /\
    addrs (vd ++ clip vs sz) = addrs vd ++ take (Z.to_nat sz) (addrs vs).
Proof.
  intros Hd Hna Hs Hpos Ht Hsz. unfold qemu_iovec_concat. rewrite (proj2 (Z.eqb_neq _ _) Hna).
  assert (Z.to_nat (niov src) = length vs) as -> by (destruct Hs as (-> & _); lia).
  destruct (concat_loop_holds src vs sz Hs Hpos Ht (proj2 Hsz) (length vs) 0 dst vd 0)
    as (dst' & -> & Hh & _); [lia|done|lia|done|done|].
  rewrite drop_0, Z.sub_0_r in Hh. exists dst'. split_and!; [done|done|]. rewrite addrs_app, clip_addrs; [done|done|lia].
Qed.

Lemma iovec_concat_appends_witness :
  exists dst', qemu_iovec_concat (qemu_iovec_init 1) (qemu_iovec_init_external [(100, 4); (200, 8); (300, 2)]) 6 = Ret dst' /\
    holds dst' ([] ++ clip [(100, 4); (200, 8); (300, 2)] 6) /\
    addrs ([] ++ clip [(100, 4); (200, 8); (300, 2)] 6) =
    addrs [] ++ take (Z.to_nat 6) (addrs [(100, 4); (200, 8); (300, 2)]).
Proof.
  apply (iovec_concat_appends (qemu_iovec_init 1) [] (qemu_iovec_init_external [(100, 4); (200, 8); (300, 2)])).
  - split_and!; [done|done|done|cbn; lia|right; done].
  - done.
  - split_and!; [done|done|done|cbn; lia|left; done].
  - repeat constructor; cbn; lia.
  - vm_compute. done.
  - split; vm_compute; done.
Defined.

(** Scatter and gather: over segments that lie in memory without overlapping,
    [qemu_iovec_from_buffer] with as many bytes as the segments hold spreads the buffer
    over them, and [qemu_iovec_to_buffer] then collects exactly those bytes, in order, at
    the start of its buffer; memory outside the segments is as before. *)
Theorem iovec_scatter_gather q v mem data buf :
  holds q v -> ForallOrdPairs disjoint_segs v -> Forall (in_memory (Z.of_nat (length mem))) v ->
  total v <= Z.of_nat (length data) -> total v <= Z.of_nat (length buf) ->
  exists mem', qemu_iovec_from_buffer q mem data (total v) = Ret mem' /\ length mem' = length mem /\
    (forall w, Forall (fun s => Forall (fun s' => disjoint_segs s' s) v) w -> read_segs mem' w = read_segs mem w) /\
    qemu_iovec_to_buffer q mem' buf =
      Ret (take (Z.to_nat (total v)) data ++ drop (Z.to_nat (total v)) buf).
Proof.
  intros Hq Hdis Hmem Hd Hb. unfold qemu_iovec_from_buffer, qemu_iovec_to_buffer.
  assert (Z.to_nat (niov q) = length v) as -> by (destruct Hq as (-> & _); lia).
  destruct (from_loop_spec q v data Hq Hdis (length v) 0 mem 0) as (mem' & E & Hl & Hr & Ho);
    [lia|by rewrite drop_0|lia|by rewrite drop_0|].
  rewrite drop_0 in *. exists mem'. split_and!; [exact E|done|done|].
  assert (0 <= total v) by (apply total_nonneg; eapply Forall_impl; [exact Hmem|]; by intros s (_ & ? & _)).
  rewrite load_ok, drop_0 in Hr by lia. set (bs := take (Z.to_nat (total v)) data) in *.
  assert (length bs = Z.to_nat (total v)) as Hbs by (unfold bs; rewrite length_take; lia).
  assert (store buf 0 [] = Some buf) as E0 by (by rewrite store_ok by (cbn; lia)).
  pose proof (to_loop_spec q v mem' Hq (length v) 0 buf buf [] bs ltac:(lia)) as Hto.
  rewrite drop_0 in Hto. change (Z.of_nat (length (@nil Z))) with 0 in Hto.
  rewrite (Hto Hr E0 ltac:(cbn; lia)). cbn [app]. rewrite store_ok by lia. cbn. by rewrite Hbs.
Qed.

Lemma iovec_scatter_gather_witness :
  exists mem', qemu_iovec_from_buffer (qemu_iovec_init_external [(5, 2); (1, 3)]) (replicate 8 0) [1; 2; 3; 4; 5; 6] (total [(5, 2); (1, 3)]) = Ret mem' /\
    length mem' = length (replicate 8 0) /\
    (forall w, Forall (fun s => Forall (fun s' => disjoint_segs s' s) [(5, 2); (1, 3)]) w -> read_segs mem' w = read_segs (replicate 8 0) w) /\
    qemu_iovec_to_buffer (qemu_iovec_init_external [(5, 2); (1, 3)]) mem' (replicate 6 9) = Ret ([1; 2; 3; 4; 5] ++ [9]).
Proof.
  apply (iovec_scatter_gather _ [(5, 2); (1, 3)] (replicate 8 0) [1; 2; 3; 4; 5; 6] (replicate 6 9)).
  - split_and!; [done|done|done|cbn; lia|left; done].
  - constructor; [constructor; [right; cbn; lia|done]|by repeat constructor].
  - repeat constructor; cbn; lia.
  - cbn. lia.
  - cbn. lia.
Defined.
