(* ===== verification/Readline.v ===== *)
(** * The line editor of the monitor: readline.c

    [cmd_buf] and [last_cmd_buf] are memory of their extents: an access outside is a
    [Fault], as is an overflow of [esc_param].  History entries are the strings their
    pointers point to, [None] a null pointer.  What is printed is a log of terminal
    commands.  The completion finder is a parameter that returns the calls it makes.
    [readline_func] is called at the end of a line, and after it only [readline_update] with
    an empty line on both sides, which does nothing; so the command is a result of
    [readline_handle_byte] and what the function does are later operations. *)

From S2P Require Import Prelude CUtils.
From stdpp Require Import list.

Open Scope Z_scope.

Definition READLINE_CMD_BUF_SIZE : Z := 4095.
Definition READLINE_MAX_CMDS : Z := 64.
Definition READLINE_MAX_COMPLETIONS : Z := 256.

Inductive esc_kind : Type := IS_NORM | IS_ESC | IS_CSI.

(** What the monitor's terminal is told. *)
Inductive term : Type := CursorLeft | CursorRight | Text (s : list Z) | EraseEol | Newline | Prompt (s : list Z).

(** Calls a completion finder makes. *)
Inductive finder_call : Type := AddCompletion (s : list Z) | SetIndex (n : Z).

(** [finder_bits] are the low bits of the pointer [completion_finder], read as an [int]. *)
Record ReadLineState : Type := mkRl {
  cmd_buf : list (option Z); cmd_buf_index : Z; cmd_buf_size : Z;
  last_cmd_buf : list (option Z); last_cmd_buf_index : Z; last_cmd_buf_size : Z;
  esc_state : esc_kind; esc_param : Z;
  history : list (option (list Z)); hist_entry : Z; finder_bits : Z;
  completions : list (list Z); completion_index : Z;
  read_password : bool; prompt : list Z; out : list term
}.

Definition set_line (rs : ReadLineState) (b : list (option Z)) (i n : Z) : ReadLineState :=
  mkRl b i n (last_cmd_buf rs) (last_cmd_buf_index rs) (last_cmd_buf_size rs) (esc_state rs) (esc_param rs) (history rs) (hist_entry rs) (finder_bits rs)
    (completions rs) (completion_index rs) (read_password rs) (prompt rs) (out rs).
Definition set_last (rs : ReadLineState) (b : list (option Z)) (i n : Z) : ReadLineState :=
  mkRl (cmd_buf rs) (cmd_buf_index rs) (cmd_buf_size rs) b i n (esc_state rs) (esc_param rs) (history rs) (hist_entry rs) (finder_bits rs)
    (completions rs) (completion_index rs) (read_password rs) (prompt rs) (out rs).
Definition set_esc (rs : ReadLineState) (st : esc_kind) (p : Z) : ReadLineState :=
  mkRl (cmd_buf rs) (cmd_buf_index rs) (cmd_buf_size rs) (last_cmd_buf rs) (last_cmd_buf_index rs) (last_cmd_buf_size rs) st p (history rs) (hist_entry rs) (finder_bits rs)
    (completions rs) (completion_index rs) (read_password rs) (prompt rs) (out rs).
Definition set_hist (rs : ReadLineState) (h : list (option (list Z))) (i : Z) : ReadLineState :=
  mkRl (cmd_buf rs) (cmd_buf_index rs) (cmd_buf_size rs) (last_cmd_buf rs) (last_cmd_buf_index rs) (last_cmd_buf_size rs) (esc_state rs) (esc_param rs) h i (finder_bits rs)
    (completions rs) (completion_index rs) (read_password rs) (prompt rs) (out rs).
Definition set_comp (rs : ReadLineState) (c : list (list Z)) (i : Z) : ReadLineState :=
  mkRl (cmd_buf rs) (cmd_buf_index rs) (cmd_buf_size rs) (last_cmd_buf rs) (last_cmd_buf_index rs) (last_cmd_buf_size rs) (esc_state rs) (esc_param rs) (history rs) (hist_entry rs)
    (finder_bits rs) c i (read_password rs) (prompt rs) (out rs).
Definition set_mode (rs : ReadLineState) (pw : bool) (p : list Z) : ReadLineState :=
  mkRl (cmd_buf rs) (cmd_buf_index rs) (cmd_buf_size rs) (last_cmd_buf rs) (last_cmd_buf_index rs) (last_cmd_buf_size rs) (esc_state rs) (esc_param rs) (history rs) (hist_entry rs)
    (finder_bits rs) (completions rs) (completion_index rs) pw p (out rs).
Definition emit (rs : ReadLineState) (o : list term) : ReadLineState :=
  mkRl (cmd_buf rs) (cmd_buf_index rs) (cmd_buf_size rs) (last_cmd_buf rs) (last_cmd_buf_index rs) (last_cmd_buf_size rs) (esc_state rs) (esc_param rs) (history rs) (hist_entry rs)
    (finder_bits rs) (completions rs) (completion_index rs) (read_password rs) (prompt rs) (out rs ++ o).

(** ** Memory *)
Definition memmove (m : list (option Z)) (dst src n : Z) : res (list (option Z)) := let! bs := oget (load m src n) in oget (store m dst bs).
Definition char_at (m : list (option Z)) (i : nat) : res Z := match m !! i with Some (Some c) => Ret c | _ => Fault end.
(** The string at the start of [m]. *)
Fixpoint cstring (m : list (option Z)) : res (list Z) :=
  match m with
  | Some c :: m => if c =? 0 then Ret [] else let! s := cstring m in Ret (c :: s)
  | _ => Fault
  end.
(** The bytes [i .. i+n) of [m], all of them initialised. *)
Definition chars (m : list (option Z)) (i n : Z) : res (list Z) := let! bs := oget (load m i n) in oget (mapM id bs).

(** ** Display *)
Definition readline_show_prompt (rs : ReadLineState) : ReadLineState :=
  let rs := emit rs [Prompt (prompt rs)] in
  set_esc (set_last rs (last_cmd_buf rs) 0 0) IS_NORM (esc_param rs).

(** The line when it has changed. *)
Definition redraw (rs : ReadLineState) : res ReadLineState :=
  let! a := oget (load (cmd_buf rs) 0 (cmd_buf_size rs)) in
  let! b := oget (load (last_cmd_buf rs) 0 (cmd_buf_size rs)) in
  if negb (cmd_buf_size rs =? last_cmd_buf_size rs) || negb (bool_decide (a = b)) then
    let rs := emit rs (repeat CursorLeft (Z.to_nat (last_cmd_buf_index rs))) in
    let! m := oget (store (cmd_buf rs) (cmd_buf_size rs) [Some 0]) in
    let rs := set_line rs m (cmd_buf_index rs) (cmd_buf_size rs) in
    let! rs :=
      (if read_password rs then let! len := strlen (cmd_buf rs) in Ret (emit rs (repeat (Text [42]) (Z.to_nat len)))
       else let! s := cstring (cmd_buf rs) in Ret (emit rs [Text s])) in
    let rs := emit rs [EraseEol] in
    let! c := oget (load (cmd_buf rs) 0 (cmd_buf_size rs)) in
    let! l := oget (store (last_cmd_buf rs) 0 c) in
    Ret (set_last rs l (cmd_buf_size rs) (cmd_buf_size rs))
  else Ret rs.

Definition readline_update (rs : ReadLineState) : res ReadLineState :=
  let! rs := redraw rs in
  if negb (cmd_buf_index rs =? last_cmd_buf_index rs) then
    let delta := cmd_buf_index rs - last_cmd_buf_index rs in
    let rs := emit rs (if 0 <? delta then repeat CursorRight (Z.to_nat delta) else repeat CursorLeft (Z.to_nat (- delta))) in
    Ret (set_last rs (last_cmd_buf rs) (cmd_buf_index rs) (last_cmd_buf_size rs))
  else Ret rs.

(** ** Editing *)
Definition readline_insert_char (rs : ReadLineState) (ch : Z) : res ReadLineState :=
  let i := cmd_buf_index rs in
  if i <? READLINE_CMD_BUF_SIZE then
    let! m := memmove (cmd_buf rs) (i + 1) i (cmd_buf_size rs - i) in
    let! m := oget (store m i [Some ch]) in
    Ret (set_line rs m (i + 1) (cmd_buf_size rs + 1))
  else Ret rs.

Definition readline_backward_char (rs : ReadLineState) : ReadLineState :=
  if 0 <? cmd_buf_index rs then set_line rs (cmd_buf rs) (cmd_buf_index rs - 1) (cmd_buf_size rs) else rs.
Definition readline_forward_char (rs : ReadLineState) : ReadLineState :=
  if cmd_buf_index rs <? cmd_buf_size rs then set_line rs (cmd_buf rs) (cmd_buf_index rs + 1) (cmd_buf_size rs) else rs.

Definition readline_delete_char (rs : ReadLineState) : res ReadLineState :=
  let i := cmd_buf_index rs in
  if i <? cmd_buf_size rs then
    let! m := memmove (cmd_buf rs) i (i + 1) (cmd_buf_size rs - i - 1) in
    Ret (set_line rs m i (cmd_buf_size rs - 1))
  else Ret rs.

Definition readline_backspace (rs : ReadLineState) : res ReadLineState :=
  if 0 <? cmd_buf_index rs then readline_delete_char (readline_backward_char rs) else Ret rs.

Definition qemu_isspace (c : Z) : bool := ((9 <=? c) && (c <=? 13)) || (c =? 32).

(** The two loops of [readline_backword]. *)
Fixpoint skip_spaces (m : list (option Z)) (start : nat) : res nat :=
  match start with
  | O => Ret O
  | S n => let! c := char_at m start in if negb (qemu_isspace c) then Ret start else skip_spaces m n
  end.
Fixpoint skip_word (m : list (option Z)) (start : nat) : res nat :=
  match start with
  | O => Ret O
  | S n => let! c := char_at m start in if qemu_isspace c then Ret (S start) else skip_word m n
  end.

Definition readline_backword (rs : ReadLineState) : res ReadLineState :=
  let i := cmd_buf_index rs in
  if (i =? 0) || (cmd_buf_size rs <? i) then Ret rs
  else
    let! start := skip_spaces (cmd_buf rs) (Z.to_nat (i - 1)) in
    let! start := skip_word (cmd_buf rs) start in
    let start := Z.of_nat start in
    if start <? i then
      let! m := memmove (cmd_buf rs) start i (cmd_buf_size rs - i) in
      Ret (set_line rs m start (cmd_buf_size rs - (i - start)))
    else Ret rs.

Definition readline_bol (rs : ReadLineState) : ReadLineState := set_line rs (cmd_buf rs) 0 (cmd_buf_size rs).
Definition readline_eol (rs : ReadLineState) : ReadLineState := set_line rs (cmd_buf rs) (cmd_buf_size rs) (cmd_buf_size rs).

(** ** History *)
(** [rs->history[i]]. *)
Definition hist_at (rs : ReadLineState) (i : Z) : res (option (list Z)) := if i <? 0 then Fault else oget (history rs !! Z.to_nat i).

(** The first free slot from the one [n] is the number of on; [h] are the slots from there. *)
Fixpoint first_null (h : list (option (list Z))) (n : Z) : Z := match h with Some _ :: h => first_null h (n + 1) | _ => n end.

(** [pstrcpy] of an entry into the line, and its length. *)
Definition recall (rs : ReadLineState) (e : option (list Z)) : res ReadLineState :=
  let! s := oget e in
  let! m := pstrcpy (cmd_buf rs) 0 (READLINE_CMD_BUF_SIZE + 1) (s ++ [0]) in
  let! n := strlen m in
  Ret (set_line rs m n n).

Definition readline_up_char (rs : ReadLineState) : res ReadLineState :=
  if hist_entry rs =? 0 then Ret rs
  else
    let rs := if hist_entry rs =? -1 then set_hist rs (history rs) (first_null (history rs) 0) else rs in
    let rs := set_hist rs (history rs) (hist_entry rs - 1) in
    if 0 <=? hist_entry rs then let! e := hist_at rs (hist_entry rs) in recall rs e else Ret rs.

Definition readline_down_char (rs : ReadLineState) : res ReadLineState :=
  if hist_entry rs =? -1 then Ret rs
  else
    let! '(e, rs) :=
      (if hist_entry rs <? READLINE_MAX_CMDS - 1 then
         let rs := set_hist rs (history rs) (hist_entry rs + 1) in
         let! e := hist_at rs (hist_entry rs) in Ret (e, rs)
       else Ret (None, rs)) in
    match e with
    | Some _ => recall rs e
    | None =>
        let! m := oget (store (cmd_buf rs) 0 [Some 0]) in
        let rs := set_hist rs (history rs) (-1) in
        let! n := strlen m in
        Ret (set_line rs m n n)
    end.

(** The search for the command: the slot it is in, or the first free one. *)
Fixpoint find_cmd (h : list (option (list Z))) (cmdline : list Z) (n : nat) : nat * bool :=
  match h with
  | Some e :: h => if decide (e = cmdline) then (n, true) else find_cmd h cmdline (S n)
  | _ => (n, false)
  end.

(** The entry [idx] goes to the end.  The [memmove] takes two slots too many: behind the
    array lie [hist_entry], in the first of them, and [completion_finder]; so [hist_entry]
    gets the bits of the finder until the end of the function. *)
Definition unlink_entry (rs : ReadLineState) (idx : nat) : ReadLineState :=
  set_hist rs (take idx (history rs) ++ drop (S idx) (history rs) ++ [None]) (finder_bits rs).

Definition readline_hist_add (rs : ReadLineState) (cmdline : list Z) : res ReadLineState :=
  match cmdline with
  | [] => Ret rs
  | _ =>
      let! same :=
        (if negb (hist_entry rs =? -1) then
           let! e := hist_at rs (hist_entry rs) in
           let! e := oget e in
           Ret (if decide (e = cmdline) then Some (Z.to_nat (hist_entry rs)) else None)
         else Ret None) in
      let '(idx, found) := match same with Some idx => (idx, true) | None => find_cmd (history rs) cmdline 0 end in
      let '(rs, idx) :=
        if found then let rs := unlink_entry rs idx in (rs, first_null (drop idx (history rs)) (Z.of_nat idx)) else (rs, Z.of_nat idx) in
      let '(rs, idx) :=
        if idx =? READLINE_MAX_CMDS then (set_hist rs (drop 1 (history rs) ++ [None]) (hist_entry rs), READLINE_MAX_CMDS - 1) else (rs, idx) in
      let! h := oget (store (history rs) idx [Some cmdline]) in
      Ret (set_hist rs h (-1))
  end.

(** ** Completion *)
Definition readline_add_completion (rs : ReadLineState) (str : list Z) : ReadLineState :=
  if Z.of_nat (length (completions rs)) <? READLINE_MAX_COMPLETIONS then set_comp rs (completions rs ++ [str]) (completion_index rs) else rs.
Definition readline_set_completion_index (rs : ReadLineState) (index : Z) : ReadLineState := set_comp rs (completions rs) index.

Definition finder_step (rs : ReadLineState) (c : finder_call) : ReadLineState :=
  match c with AddCompletion s => readline_add_completion rs s | SetIndex n => readline_set_completion_index rs n end.

Fixpoint insert_all (rs : ReadLineState) (cs : list Z) : res ReadLineState :=
  match cs with
  | [] => Ret rs
  | c :: cs => let! rs := readline_insert_char rs c in insert_all rs cs
  end.
(** The loop that inserts the characters of [s] from [i] up to [n]. *)
Definition insert_from (rs : ReadLineState) (s : list Z) (i n : Z) : res ReadLineState :=
  if n <=? i then Ret rs else if i <? 0 then Fault else insert_all rs (take (Z.to_nat (n - i)) (drop (Z.to_nat i) s)).

(** The first place below [m] where two strings differ, or [m]. *)
Fixpoint prefix_loop (m : nat) (a b : list Z) : nat :=
  match m, a, b with
  | S m, x :: a, y :: b => if x =? y then S (prefix_loop m a b) else O
  | _, _, _ => O
  end.
Definition max_prefix_len (cs : list (list Z)) : nat :=
  match cs with
  | [] => O
  | c0 :: cs => foldl (fun m c => prefix_loop (Nat.min m (length c)) c c0) (length c0) cs
  end.
Definition max_width (cs : list (list Z)) : Z :=
  let w := foldl (fun w c => Z.max w (Z.of_nat (length c))) 0 cs + 2 in
  if w <? 10 then 10 else if 80 <? w then 80 else w.

(** The completions in columns; [j] counts those on the line. *)
Fixpoint columns (w nb_cols : Z) (cs : list (list Z)) (j : Z) : list term :=
  match cs with
  | [] => []
  | c :: cs =>
      let full := (j + 1 =? nb_cols) || match cs with [] => true | _ => false end in
      Text (c ++ repeat 32 (Z.to_nat w - length c)) :: (if full then [Newline] else []) ++ columns w nb_cols cs (if full then 0 else j + 1)
  end.

Section Finder.
Context (finder : list Z -> list finder_call).

Definition readline_completion (rs : ReadLineState) : res ReadLineState :=
  let rs := set_comp rs [] (completion_index rs) in
  let! cmdline := chars (cmd_buf rs) 0 (cmd_buf_index rs) in
  let rs := foldl finder_step rs (finder cmdline) in
  match completions rs with
  | [] => Ret rs
  | [c] =>
      let! rs := insert_from rs c (completion_index rs) (Z.of_nat (length c)) in
      if match last c with Some x => negb (x =? 47) | None => false end then readline_insert_char rs 32 else Ret rs
  | c :: _ =>
      let cs := completions rs in
      let rs := emit rs [Newline] in
      let! rs := (if (0 <? max_prefix_len cs)%nat then insert_from rs c (completion_index rs) (Z.of_nat (max_prefix_len cs)) else Ret rs) in
      let w := max_width cs in
      let rs := emit rs (columns w (80 / w) cs 0) in
      Ret (readline_show_prompt rs)
  end.

(** ** Input *)
Definition end_of_line (rs : ReadLineState) : res (option (list Z) * ReadLineState) :=
  let! m := oget (store (cmd_buf rs) (cmd_buf_size rs) [Some 0]) in
  let rs := set_line rs m (cmd_buf_index rs) (cmd_buf_size rs) in
  let! cmdline := cstring (cmd_buf rs) in
  let! rs := (if read_password rs then Ret rs else readline_hist_add rs cmdline) in
  let rs := emit rs [Newline] in
  let rs := set_line rs (cmd_buf rs) 0 0 in
  Ret (Some cmdline, set_last rs (last_cmd_buf rs) 0 0).

Definition plain (r : res ReadLineState) : res (option (list Z) * ReadLineState) := let! rs := r in Ret (None, rs).

Definition norm_byte (rs : ReadLineState) (ch : Z) : res (option (list Z) * ReadLineState) :=
  if ch =? 1 then plain (Ret (readline_bol rs))
  else if ch =? 4 then plain (readline_delete_char rs)
  else if ch =? 5 then plain (Ret (readline_eol rs))
  else if ch =? 9 then plain (readline_completion rs)
  else if (ch =? 10) || (ch =? 13) then end_of_line rs
  else if ch =? 23 then plain (readline_backword rs)
  else if ch =? 27 then plain (Ret (set_esc rs IS_ESC (esc_param rs)))
  else if (ch =? 127) || (ch =? 8) then plain (readline_backspace rs)
  else if ch =? 155 then plain (Ret (set_esc rs IS_CSI (esc_param rs)))
  else if 32 <=? ch then plain (readline_insert_char rs ch)
  else plain (Ret rs).

Definition csi_byte (rs : ReadLineState) (ch : Z) : res ReadLineState :=
  if (48 <=? ch) && (ch <=? 57) then
    let! p := cmul (esc_param rs) 10 in
    let! p := cadd p (ch - 48) in
    Ret (set_esc rs (esc_state rs) p)
  else
    let! rs :=
      (if (ch =? 65) || (ch =? 70) then readline_up_char rs
       else if (ch =? 66) || (ch =? 69) then readline_down_char rs
       else if ch =? 68 then Ret (readline_backward_char rs)
       else if ch =? 67 then Ret (readline_forward_char rs)
       else if ch =? 126 then
         (if esc_param rs =? 1 then Ret (readline_bol rs)
          else if esc_param rs =? 3 then readline_delete_char rs
          else if esc_param rs =? 4 then Ret (readline_eol rs)
          else Ret rs)
       else Ret rs) in
    Ret (set_esc rs IS_NORM (esc_param rs)).

Definition readline_handle_byte (rs : ReadLineState) (ch : Z) : res (option (list Z) * ReadLineState) :=
  let! '(cmd, rs) :=
    match esc_state rs with
    | IS_NORM => norm_byte rs ch
    | IS_ESC => plain (Ret (if ch =? 91 then set_esc rs IS_CSI 0 else set_esc rs IS_NORM (esc_param rs)))
    | IS_CSI => plain (csi_byte rs ch)
    end in
  let! rs := readline_update rs in
  Ret (cmd, rs).
End Finder.

(** ** Starting *)
Definition readline_restart (rs : ReadLineState) : ReadLineState := set_line rs (cmd_buf rs) 0 0.
Definition readline_start (rs : ReadLineState) (p : list Z) (pw : bool) : ReadLineState := readline_restart (set_mode rs pw (take 255 p)).
Definition readline_get_history (rs : ReadLineState) (index : Z) : option (list Z) :=
  if READLINE_MAX_CMDS <=? index then None else default None (history rs !! Z.to_nat index).
Definition readline_init (bits : Z) : ReadLineState :=
  mkRl (repeat (Some 0) 4096) 0 0 (repeat (Some 0) 4096) 0 0 IS_NORM 0 (repeat None 64) (-1) bits [] 0 false [] [].
