(* ===== verification/ReadlineSpec.v ===== *)
(** * What the line editor is meant to do

    [editor] is the editor without memory: a text, a position in it, the lines entered
    before and the place among them.  [ed_byte] is what a byte does.  [screen] is a terminal
    with one endless line, and [draw] what a terminal command does to it.  The memory lemmas
    for the buffer of Readline are at the end. *)

From S2P Require Import Prelude CUtils Readline.
From stdpp Require Import list.

Open Scope Z_scope.

(** ** The editor *)
Record editor : Type := mkEd {
  text : list Z; pos : nat; past : list (list Z); browse : option nat; esc : esc_kind; param : Z; cidx : Z; secret : bool
}.

Definition edit (ed : editor) (t : list Z) (p : nat) : editor := mkEd t p (past ed) (browse ed) (esc ed) (param ed) (cidx ed) (secret ed).
Definition in_mode (ed : editor) (k : esc_kind) (n : Z) : editor := mkEd (text ed) (pos ed) (past ed) (browse ed) k n (cidx ed) (secret ed).
Definition at_entry (ed : editor) (b : option nat) : editor := mkEd (text ed) (pos ed) (past ed) b (esc ed) (param ed) (cidx ed) (secret ed).

(** Nothing is inserted from column 4095 on. *)
Definition ed_insert (ed : editor) (s : list Z) : editor :=
  let s := take (4095 - pos ed) s in edit ed (take (pos ed) (text ed) ++ s ++ drop (pos ed) (text ed)) (pos ed + length s).
(** What lies between [from] and the cursor goes. *)
Definition ed_cut (ed : editor) (from : nat) : editor := edit ed (take from (text ed) ++ drop (pos ed) (text ed)) from.
Definition ed_delete (ed : editor) : editor := edit ed (take (pos ed) (text ed) ++ drop (S (pos ed)) (text ed)) (pos ed).

Fixpoint drop_while {A} (P : A -> bool) (l : list A) : list A := match l with x :: l' => if P x then drop_while P l' else l | [] => [] end.

(** The word before the cursor starts behind the last space before it; a space at the very
    start of the line goes with the word. *)
Definition word_start (t : list Z) : nat :=
  let kept := length (drop_while (fun c => negb (qemu_isspace c)) (drop_while qemu_isspace (rev t))) in if (kept <=? 1)%nat then O else kept.
Definition ed_backword (ed : editor) : editor := ed_cut ed (word_start (take (pos ed) (text ed))).

Definition ed_recall (ed : editor) (i : nat) : editor := let s := default [] (past ed !! i) in at_entry (edit ed s (length s)) (Some i).
Definition ed_up (ed : editor) : editor :=
  match browse ed with
  | Some O => ed
  | Some (S i) => ed_recall ed i
  | None => match length (past ed) with O => ed | S i => ed_recall ed i end
  end.
Definition ed_down (ed : editor) : editor :=
  match browse ed with
  | None => ed
  | Some i => if (S i <? length (past ed))%nat then ed_recall ed (S i) else at_entry (edit ed [] 0) None
  end.

(** A line entered again moves to the end; of the others the last 64 are kept. *)
Definition remember (past : list (list Z)) (s : list Z) : list (list Z) :=
  let l := filter (fun x => x <> s) past ++ [s] in drop (length l - 64) l.
Definition ed_enter (ed : editor) : editor :=
  let '(h, b) := if secret ed || bool_decide (text ed = []) then (past ed, browse ed) else (remember (past ed) (text ed), None) in
  mkEd [] 0 h b (esc ed) (param ed) (cidx ed) (secret ed).

(** The first 256 completions the finder adds, and the index it sets. *)
Definition found (calls : list finder_call) : list (list Z) := take 256 (omap (fun c => match c with AddCompletion s => Some s | SetIndex _ => None end) calls).
Definition found_index (calls : list finder_call) (n : Z) : Z := foldl (fun n c => match c with SetIndex n => n | AddCompletion _ => n end) n calls.

Definition completed (cs : list (list Z)) (n : Z) : list Z :=
  match cs with
  | [] => []
  | [c] => drop (Z.to_nat n) c ++ (if match last c with Some x => negb (x =? 47) | None => false end then [32] else [])
  | c :: _ => drop (Z.to_nat n) (take (max_prefix_len cs) c)
  end.
Definition ed_complete (finder : list Z -> list finder_call) (ed : editor) : editor :=
  let calls := finder (take (pos ed) (text ed)) in
  let n := found_index calls (cidx ed) in
  ed_insert (mkEd (text ed) (pos ed) (past ed) (browse ed) (esc ed) (param ed) n (secret ed)) (completed (found calls) n).

Definition ed_norm (finder : list Z -> list finder_call) (ed : editor) (ch : Z) : option (list Z) * editor :=
  if ch =? 1 then (None, edit ed (text ed) 0)
  else if ch =? 4 then (None, ed_delete ed)
  else if ch =? 5 then (None, edit ed (text ed) (length (text ed)))
  else if ch =? 9 then (None, ed_complete finder ed)
  else if (ch =? 10) || (ch =? 13) then (Some (text ed), ed_enter ed)
  else if ch =? 23 then (None, ed_backword ed)
  else if ch =? 27 then (None, in_mode ed IS_ESC (param ed))
  else if (ch =? 127) || (ch =? 8) then (None, ed_cut ed (pos ed - 1))
  else if ch =? 155 then (None, in_mode ed IS_CSI (param ed))
  else if 32 <=? ch then (None, ed_insert ed [ch])
  else (None, ed).
Definition ed_csi (ed : editor) (ch : Z) : editor :=
  if (48 <=? ch) && (ch <=? 57) then in_mode ed IS_CSI (param ed * 10 + (ch - 48))
  else in_mode
    (if (ch =? 65) || (ch =? 70) then ed_up ed
     else if (ch =? 66) || (ch =? 69) then ed_down ed
     else if ch =? 68 then edit ed (text ed) (pos ed - 1)
     else if ch =? 67 then edit ed (text ed) (Nat.min (S (pos ed)) (length (text ed)))
     else if ch =? 126 then
       (if param ed =? 1 then edit ed (text ed) 0 else if param ed =? 3 then ed_delete ed else if param ed =? 4 then edit ed (text ed) (length (text ed)) else ed)
     else ed) IS_NORM (param ed).
Definition ed_byte (finder : list Z -> list finder_call) (ed : editor) (ch : Z) : option (list Z) * editor :=
  match esc ed with
  | IS_NORM => ed_norm finder ed ch
  | IS_ESC => (None, if ch =? 91 then in_mode ed IS_CSI 0 else in_mode ed IS_NORM (param ed))
  | IS_CSI => (None, ed_csi ed ch)
  end.

(** ** The terminal *)
Record screen : Type := mkScreen { shown : list Z; column : nat }.
Definition draw (sc : screen) (o : term) : screen :=
  match o with
  | CursorLeft => mkScreen (shown sc) (column sc - 1)
  | CursorRight => mkScreen (shown sc) (S (column sc))
  | Text s => mkScreen (take (column sc) (shown sc) ++ s ++ drop (column sc + length s) (shown sc)) (column sc + length s)
  | EraseEol => mkScreen (take (column sc) (shown sc)) (column sc)
  | Newline | Prompt _ => mkScreen [] 0
  end.
Definition screen_of (l : list term) : screen := foldl draw (mkScreen [] 0) l.
(** A line as it is shown. *)
Definition visible (secret : bool) (t : list Z) : list Z := if secret then repeat 42 (length t) else t.

(** ** Memory *)
Lemma store_mid {A} (p old s vs : list A) n : n = Z.of_nat (length p) -> length old = length vs -> store (p ++ old ++ s) n vs = Some (p ++ vs ++ s).
Proof.
  intros -> Hl. rewrite store_ok by (rewrite ?length_app; lia). rewrite Nat2Z.id, take_app_length, <- Hl, <- drop_drop, drop_app_length, drop_app_length. done.
Qed.

(** The part behind [w] moves over it. *)
Lemma memmove_down (b w a : list Z) (rest : list (option Z)) i j n : i = Z.of_nat (length b) -> j = Z.of_nat (length b + length w) -> n = Z.of_nat (length a) ->
  exists rest', memmove (map Some (b ++ w ++ a) ++ rest) i j n = Ret (map Some (b ++ a) ++ rest') /\ length rest' = (length w + length rest)%nat.
Proof.
  intros -> -> ->. unfold memmove. rewrite !map_app, <- !app_assoc.
  assert (load (map Some b ++ map Some w ++ map Some a ++ rest) (Z.of_nat (length b + length w)) (Z.of_nat (length a)) = Some (map Some a)) as ->.
  { rewrite app_assoc. replace (length b + length w)%nat with (length (map Some b ++ map Some w)) by (by rewrite length_app, !length_map). apply load_app. by rewrite length_map. }
  cbn [oget obind]. set (x := map Some w ++ map Some a ++ rest). assert (length x = length w + (length a + length rest))%nat as Hx by (subst x; by rewrite !length_app, !length_map).
  exists (drop (length a) x). split; [|rewrite length_drop; lia]. rewrite <- (take_drop (length a) x) at 1. rewrite store_mid; [by rewrite <- ?app_assoc|by rewrite length_map|].
  rewrite length_take, length_map. lia.
Qed.
Lemma memmove_down_length (b w a : list Z) (rest rest' : list (option Z)) : length rest' = (length w + length rest)%nat ->
  length (map Some (b ++ a) ++ rest') = length (map Some (b ++ w ++ a) ++ rest).
Proof. intros H. rewrite !length_app, !length_map, !length_app. lia. Qed.
