(* ===== verification/ReadlineProofs.v ===== *)
(** * The line editor does what it is meant to

    The states of [Readline] and of [ReadlineSpec] are related by [models], operation by
    operation. *)

From S2P Require Import Prelude CUtils Readline ReadlineSpec.
From stdpp Require Import list.

Open Scope Z_scope.

(** ** The relation *)
Definition char_ok (c : Z) : Prop := 0 < c < 256.
Definition holds (m : list (option Z)) (t : list Z) : Prop := length m = 4096%nat /\ exists rest, m = map Some t ++ rest.
Record line_ok (m : list (option Z)) (i n : Z) (t : list Z) (p : nat) : Prop := {
  lk_mem : holds m t; lk_index : i = Z.of_nat p; lk_size : n = Z.of_nat (length t); lk_pos : (p <= length t)%nat; lk_room : (length t <= 4095)%nat;
  lk_chars : Forall char_ok t
}.
Definition entry_ok (s : list Z) : Prop := s <> [] /\ (length s <= 4095)%nat /\ Forall char_ok s.
Record hist_ok (h : list (option (list Z))) (e : Z) (past : list (list Z)) (b : option nat) : Prop := {
  hk_slots : h = map Some past ++ repeat None (64 - length past); hk_room : (length past <= 64)%nat; hk_once : NoDup past; hk_entries : Forall entry_ok past;
  hk_entry : e = match b with Some i => Z.of_nat i | None => -1 end; hk_in : forall i, b = Some i -> (i < length past)%nat
}.
Record models (rs : ReadLineState) (ed : editor) : Prop := {
  md_line : line_ok (cmd_buf rs) (cmd_buf_index rs) (cmd_buf_size rs) (text ed) (pos ed);
  md_hist : hist_ok (history rs) (hist_entry rs) (past ed) (browse ed);
  md_esc : esc_state rs = esc ed /\ esc_param rs = param ed /\ 0 <= param ed < 2 ^ 31;
  md_index : completion_index rs = cidx ed /\ 0 <= cidx ed; md_secret : read_password rs = secret ed;
  md_last : length (last_cmd_buf rs) = 4096%nat /\ 0 <= last_cmd_buf_index rs <= last_cmd_buf_size rs /\ last_cmd_buf_size rs <= 4095
}.

(** What the display depends on stays the same. *)
Definition still (rs rs' : ReadLineState) : Prop :=
  out rs' = out rs /\ last_cmd_buf rs' = last_cmd_buf rs /\ last_cmd_buf_index rs' = last_cmd_buf_index rs /\ last_cmd_buf_size rs' = last_cmd_buf_size rs /\
  read_password rs' = read_password rs.
Definition steps (r : res ReadLineState) (rs : ReadLineState) (ed : editor) : Prop := exists rs', r = Ret rs' /\ models rs' ed /\ still rs rs'.

Lemma models_line rs ed m i n t p : models rs ed -> line_ok m i n t p -> models (set_line rs m i n) (edit ed t p).
Proof. intros [] H. by split. Qed.
Lemma models_hist rs ed h e b : models rs ed -> hist_ok h e (past ed) b -> models (set_hist rs h e) (at_entry ed b).
Proof. intros [] H. by split. Qed.
Lemma models_esc rs ed k n : models rs ed -> 0 <= n < 2 ^ 31 -> models (set_esc rs k n) (in_mode ed k n).
Proof. intros [] H. by split. Qed.

Lemma steps_line rs ed m i n t p : models rs ed -> line_ok m i n t p -> steps (Ret (set_line rs m i n)) rs (edit ed t p).
Proof. intros H Hl. eexists. split; [done|]. split; [by apply models_line|done]. Qed.
Lemma steps_same rs ed : models rs ed -> steps (Ret rs) rs ed.
Proof. intros H. by exists rs. Qed.
Lemma edit_same ed : edit ed (text ed) (pos ed) = ed.
Proof. by destruct ed. Qed.

(** ** The buffer *)
Lemma holds_length m t : holds m t -> (length t <= 4096)%nat.
Proof. intros (H & rest & ->). rewrite length_app, length_map in H. lia. Qed.

Lemma cut_memory m t q r n : holds m t -> (q <= r)%nat -> (r <= length t)%nat -> n = Z.of_nat (length t - r) ->
  exists m', memmove m (Z.of_nat q) (Z.of_nat r) n = Ret m' /\ holds m' (take q t ++ drop r t).
Proof.
  intros (Hl & rest & Em) Hq Hr ->. assert (t = take q t ++ (take (r - q) (drop q t)) ++ drop r t) as Et.
  { replace r with (q + (r - q))%nat at 2 by lia. by rewrite <- drop_drop, !take_drop. }
  destruct (memmove_down (take q t) (take (r - q) (drop q t)) (drop r t) rest (Z.of_nat q) (Z.of_nat r) (Z.of_nat (length t - r))) as (rest' & E & Hlen).
  - rewrite length_take. lia.
  - rewrite !length_take, length_drop. lia.
  - by rewrite length_drop.
  - rewrite <- Et, <- Em in E. exists (map Some (take q t ++ drop r t) ++ rest'). split; [done|]. split; [|eauto].
    rewrite (memmove_down_length _ (take (r - q) (drop q t)) _ rest) by done. by rewrite <- Et, <- Em.
Qed.

Lemma insert_memory m t p c : holds m t -> (p <= length t)%nat -> (length t < 4096)%nat ->
  exists m', (let! m := memmove m (Z.of_nat p + 1) (Z.of_nat p) (Z.of_nat (length t) - Z.of_nat p) in oget (store m (Z.of_nat p) [Some c])) = Ret m' /\
    holds m' (take p t ++ [c] ++ drop p t).
Proof.
  intros (Hl & rest & ->) Hp Ht. rewrite length_app, length_map in Hl. destruct rest as [|r0 rest]; [cbn in Hl; lia|]. cbn [length] in Hl.
  set (b := take p t). set (a := drop p t). assert (t = b ++ a) as Et by (symmetry; apply take_drop). assert (length b = p) as Hb by (subst b; rewrite length_take; lia).
  assert (length a = (length t - p)%nat) as Ha by (subst a; by rewrite length_drop). clearbody a b. subst t. rewrite length_app in *.
  exists (map Some (b ++ [c] ++ a) ++ rest). split.
  2: { split; [|eauto]. rewrite !length_app, length_map, !length_app. cbn [length]. lia. }
  unfold memmove. rewrite !map_app, <- !app_assoc, <- Hb, <- (length_map Some b), load_app by (rewrite !length_map; lia).
  cbn [oget obind]. destruct (map Some a ++ r0 :: rest) as [|x y] eqn:E; [by destruct a|].
  assert (length y = length a + length rest)%nat as Hy by (apply (f_equal length) in E; rewrite length_app, length_map in E; cbn [length] in E; lia).
  assert (store (map Some b ++ x :: y) (Z.of_nat (length (map Some b)) + 1) (map Some a) = Some (map Some b ++ [x] ++ map Some a ++ drop (length a) y)) as ->.
  { rewrite <- (take_drop (length a) y) at 1. change (x :: ?l) with ([x] ++ l). rewrite app_assoc, store_mid.
    - by rewrite <- !app_assoc.
    - rewrite length_app. cbn [length]. lia.
    - rewrite length_take, length_map. lia. }
  cbn [oget obind]. rewrite store_mid by (done || by rewrite length_map). cbn [oget]. do 3 f_equal. f_equal.
  replace (drop (length a) y) with rest; [done|]. apply (f_equal (drop (S (length a)))) in E. cbn [drop] in E. rewrite <- E.
  change (r0 :: rest) with ([r0] ++ rest). rewrite app_assoc, drop_app_length'; [done|]. rewrite length_app, length_map. cbn. lia.
Qed.

(** ** Moving and editing *)
Lemma line_of rs ed : models rs ed -> line_ok (cmd_buf rs) (cmd_buf_index rs) (cmd_buf_size rs) (text ed) (pos ed).
Proof. apply md_line. Qed.

Lemma move_steps rs ed i p : models rs ed -> i = Z.of_nat p -> (p <= length (text ed))%nat -> steps (Ret (set_line rs (cmd_buf rs) i (cmd_buf_size rs))) rs (edit ed (text ed) p).
Proof. intros H -> Hp. apply steps_line; [done|]. destruct (line_of _ _ H). by split. Qed.

Lemma backward_steps rs ed : models rs ed -> steps (Ret (readline_backward_char rs)) rs (edit ed (text ed) (pos ed - 1)).
Proof.
  intros H. destruct (line_of _ _ H) as [Hm Hi Hn Hp Hr Hc]. unfold readline_backward_char. destruct (Z.ltb_spec 0 (cmd_buf_index rs)).
  - apply move_steps; [done|lia|lia].
  - replace (pos ed - 1)%nat with (pos ed) by lia. rewrite edit_same. by apply steps_same.
Qed.
Lemma forward_steps rs ed : models rs ed -> steps (Ret (readline_forward_char rs)) rs (edit ed (text ed) (Nat.min (S (pos ed)) (length (text ed)))).
Proof.
  intros H. destruct (line_of _ _ H) as [Hm Hi Hn Hp Hr Hc]. unfold readline_forward_char. destruct (Z.ltb_spec (cmd_buf_index rs) (cmd_buf_size rs)).
  - apply move_steps; [done|lia|lia].
  - replace (Nat.min _ _) with (pos ed) by lia. rewrite edit_same. by apply steps_same.
Qed.
Lemma bol_steps rs ed : models rs ed -> steps (Ret (readline_bol rs)) rs (edit ed (text ed) 0).
Proof. intros H. apply move_steps; [done|done|lia]. Qed.
Lemma eol_steps rs ed : models rs ed -> steps (Ret (readline_eol rs)) rs (edit ed (text ed) (length (text ed))).
Proof. intros H. apply move_steps; [done|by destruct (line_of _ _ H)|lia]. Qed.

Lemma line_cut m i n t p q r : line_ok m i n t p -> (q <= r)%nat -> (r <= length t)%nat ->
  exists m', memmove m (Z.of_nat q) (Z.of_nat r) (n - Z.of_nat r) = Ret m' /\ line_ok m' (Z.of_nat q) (n - (Z.of_nat r - Z.of_nat q)) (take q t ++ drop r t) q.
Proof.
  intros [Hm Hi Hn Hp Hr Hc] Hq Hrt. destruct (cut_memory m t q r (n - Z.of_nat r)) as (m' & E & Hm'); [done..|lia|]. exists m'. split; [done|].
  split; rewrite ?length_app, ?length_take, ?length_drop; try done; try lia. apply Forall_app. split; [by apply Forall_take|by apply Forall_drop].
Qed.

Lemma delete_steps rs ed : models rs ed -> steps (readline_delete_char rs) rs (ed_delete ed).
Proof.
  intros H. pose proof (line_of _ _ H) as HL. pose proof HL as [Hm Hi Hn Hp Hr Hc]. unfold readline_delete_char, ed_delete. destruct (Z.ltb_spec (cmd_buf_index rs) (cmd_buf_size rs)).
  - destruct (line_cut _ _ _ _ _ (pos ed) (S (pos ed)) HL) as (m' & E & HL'); [lia|lia|].
    replace (cmd_buf_size rs - cmd_buf_index rs - 1) with (cmd_buf_size rs - Z.of_nat (S (pos ed))) by lia.
    replace (cmd_buf_index rs + 1) with (Z.of_nat (S (pos ed))) by lia. rewrite Hi, E. cbn [obind]. apply steps_line; [done|].
    by replace (cmd_buf_size rs - 1) with (cmd_buf_size rs - (Z.of_nat (S (pos ed)) - Z.of_nat (pos ed))) by lia.
  - rewrite take_ge, drop_ge, app_nil_r, edit_same by lia. by apply steps_same.
Qed.

Lemma steps_then r rs rs1 ed : still rs rs1 -> steps r rs1 ed -> steps r rs ed.
Proof. intros S1 (rs2 & E & H & S2). exists rs2. split; [done|]. split; [done|]. unfold still in *. intuition congruence. Qed.

Lemma backspace_steps rs ed : models rs ed -> steps (readline_backspace rs) rs (ed_cut ed (pos ed - 1)).
Proof.
  intros H. destruct (line_of _ _ H) as [Hm Hi Hn Hp Hr Hc]. unfold readline_backspace. destruct (Z.ltb_spec 0 (cmd_buf_index rs)).
  - destruct (backward_steps _ _ H) as (rs1 & E1 & H1 & S1). injection E1 as ->. apply (steps_then _ _ _ _ S1). pose proof (delete_steps _ _ H1) as D.
    unfold ed_delete in D. unfold ed_cut. cbn in D. by replace (S (pos ed - 1)) with (pos ed) in D by lia.
  - unfold ed_cut. replace (pos ed - 1)%nat with (pos ed) by lia. rewrite take_drop, edit_same. by apply steps_same.
Qed.

Lemma ed_insert_cons ed c s : (pos ed <= length (text ed))%nat -> ed_insert ed (c :: s) = ed_insert (ed_insert ed [c]) s.
Proof.
  intros Hp. unfold ed_insert, edit. cbv zeta. destruct (4095 - pos ed)%nat as [|k] eqn:Ek.
  - cbn [take length text pos past browse esc param cidx secret]. replace (4095 - (pos ed + 0))%nat with 0%nat by lia. rewrite !take_0. cbn [app length]. f_equal; [|lia]. by rewrite !take_drop.
  - rewrite !firstn_cons, take_nil. cbn [length text pos past browse esc param cidx secret]. replace (4095 - (pos ed + 1))%nat with k by lia. f_equal; [|lia].
    assert (length (take (pos ed) (text ed) ++ [c]) = pos ed + 1)%nat as Hl by (rewrite length_app, length_take; cbn; lia).
    rewrite (app_assoc _ [c]), <- Hl, take_app_length, drop_app_length, <- app_assoc. done.
Qed.
Lemma insert_steps rs ed c : models rs ed -> char_ok c -> (length (text (ed_insert ed [c])) <= 4095)%nat -> steps (readline_insert_char rs c) rs (ed_insert ed [c]).
Proof.
  intros H Hc0. destruct (line_of _ _ H) as [Hm Hi Hn Hp Hr Hc]. unfold readline_insert_char, ed_insert, READLINE_CMD_BUF_SIZE. cbv zeta.
  destruct (Z.ltb_spec (cmd_buf_index rs) 4095) as [Hlt|Hge]; intros Ht.
  - destruct (4095 - pos ed)%nat as [|k] eqn:Ek; [lia|]. cbn [take] in Ht |- *. rewrite take_nil in Ht |- *. cbn [edit text] in Ht. rewrite !length_app, length_take, length_drop in Ht. cbn [length] in Ht.
    destruct (insert_memory _ _ (pos ed) c Hm Hp) as (m' & E & Hm'); [lia|]. rewrite Hi, Hn.
    destruct (memmove _ _ _ _) as [m1| |]; cbn [obind] in E |- *; try done. rewrite E. cbn [obind]. apply steps_line; [done|]. split; rewrite ?length_app, ?length_take, ?length_drop; cbn [length]; try done; try lia.
    apply Forall_app. split; [by apply Forall_take|]. constructor; [done|]. by apply Forall_drop.
  - replace (4095 - pos ed)%nat with 0%nat by lia. cbn [take length]. rewrite Nat.add_0_r. cbn [app]. rewrite take_drop, edit_same. by apply steps_same.
Qed.

Lemma insert_grows ed s : (length (text ed) <= length (text (ed_insert ed s)))%nat.
Proof. unfold ed_insert. cbn. rewrite !length_app, length_take, length_drop. lia. Qed.
Lemma insert_all_steps s : forall rs ed, models rs ed -> Forall char_ok s -> (length (text (ed_insert ed s)) <= 4095)%nat -> steps (insert_all rs s) rs (ed_insert ed s).
Proof.
  induction s as [|c s IH]; intros rs ed H Hs Hl.
  - cbn. unfold ed_insert. rewrite take_nil. cbn. rewrite Nat.add_0_r, take_drop, edit_same. by apply steps_same.
  - rewrite ed_insert_cons in Hl |- * by apply (line_of _ _ H). apply Forall_cons in Hs as [Hc Hs]. cbn [insert_all].
    destruct (insert_steps _ _ c H Hc) as (rs1 & E & H1 & S1); [pose proof (insert_grows (ed_insert ed [c]) s); lia|]. rewrite E. cbn [obind].
    apply (steps_then _ _ _ _ S1). by apply IH.
Qed.

(** ** The word before the cursor *)
Lemma char_holds m t i c : holds m t -> t !! i = Some c -> char_at m i = Ret c.
Proof. intros (_ & rest & ->) H. unfold char_at. rewrite lookup_app_l by (rewrite length_map; by eapply lookup_lt_Some). by rewrite list_lookup_fmap, H. Qed.

Definition trim (P : Z -> bool) (t : list Z) (n : nat) : nat := length (drop_while P (rev (take n t))).
Lemma trim_S P t n c : t !! n = Some c -> trim P t (S n) = if P c then trim P t n else S n.
Proof.
  intros H. unfold trim. rewrite (take_S_r _ _ _ H), rev_app_distr. cbn [rev app drop_while]. destruct (P c); [done|].
  cbn [length]. rewrite length_rev, length_take. apply lookup_lt_Some in H. lia.
Qed.
Lemma trim_le P t n : (trim P t n <= n)%nat.
Proof.
  unfold trim. assert (forall l, length (drop_while P l) <= length l)%nat as H by (induction l as [|x l IH]; cbn; [done|]; destruct (P x); cbn; lia).
  etransitivity; [apply H|]. rewrite length_rev, length_take. lia.
Qed.
Lemma trim_prefix P t n : (n <= length t)%nat -> rev (take (trim P t n) t) = drop_while P (rev (take n t)).
Proof.
  induction n as [|n IH]; intros Hn; [done|]. destruct (lookup_lt_is_Some_2 t n) as [c Hc]; [lia|]. rewrite (trim_S _ _ _ _ Hc), (take_S_r _ _ _ Hc), rev_app_distr. cbn [rev app drop_while].
  destruct (P c); [apply IH; lia|]. by rewrite (take_S_r _ _ _ Hc), rev_app_distr.
Qed.

Lemma skip_spaces_trim m t n : holds m t -> (n < length t)%nat -> skip_spaces m n = Ret (pred (trim qemu_isspace t (S n))).
Proof.
  intros Hm. induction n as [|n IH]; intros Hn.
  - cbn. f_equal. pose proof (trim_le qemu_isspace t 1). lia.
  - destruct (lookup_lt_is_Some_2 t (S n)) as [c Hc]; [lia|]. cbn [skip_spaces]. rewrite (char_holds _ _ _ _ Hm Hc), (trim_S _ _ _ _ Hc). cbn [obind].
    destruct (qemu_isspace c); cbn [negb]; [apply IH; lia|done].
Qed.
Lemma skip_word_trim m t n : holds m t -> (n < length t)%nat ->
  skip_word m n = Ret (let k := trim (fun c => negb (qemu_isspace c)) t (S n) in if (k <=? 1)%nat then 0%nat else k).
Proof.
  intros Hm. induction n as [|n IH]; intros Hn.
  - cbn [skip_word]. pose proof (trim_le (fun c => negb (qemu_isspace c)) t 1). cbv zeta. destruct (Nat.leb_spec (trim (fun c => negb (qemu_isspace c)) t 1) 1); [done|lia].
  - destruct (lookup_lt_is_Some_2 t (S n)) as [c Hc]; [lia|]. cbn [skip_word]. rewrite (char_holds _ _ _ _ Hm Hc), (trim_S _ _ _ _ Hc). cbn [obind].
    destruct (qemu_isspace c); cbn [negb]; [done|apply IH; lia].
Qed.

Lemma word_start_found m t n : holds m t -> (n < length t)%nat -> (let! s := skip_spaces m n in skip_word m s) = Ret (word_start (take (S n) t)).
Proof.
  intros Hm Hn. rewrite (skip_spaces_trim _ _ _ Hm Hn). cbn [obind]. pose proof (trim_le qemu_isspace t (S n)).
  rewrite (skip_word_trim _ t) by (done || lia). unfold word_start. rewrite <- trim_prefix by lia.
  fold (trim (fun c => negb (qemu_isspace c)) t (trim qemu_isspace t (S n))). destruct (trim qemu_isspace t (S n)) as [|k]; [|done]. cbn [pred]. cbv zeta.
  pose proof (trim_le (fun c => negb (qemu_isspace c)) t 1). destruct (Nat.leb_spec (trim (fun c => negb (qemu_isspace c)) t 1) 1); [|lia]. unfold trim. by rewrite take_0.
Qed.
Lemma word_start_le t n : (n <= length t)%nat -> (word_start (take n t) <= n)%nat.
Proof.
  intros Hn. unfold word_start. rewrite <- trim_prefix by lia. fold (trim (fun c => negb (qemu_isspace c)) t (trim qemu_isspace t n)). cbv zeta.
  pose proof (trim_le (fun c => negb (qemu_isspace c)) t (trim qemu_isspace t n)). pose proof (trim_le qemu_isspace t n). destruct (_ <=? _)%nat; lia.
Qed.

Lemma backword_steps rs ed : models rs ed -> steps (readline_backword rs) rs (ed_backword ed).
Proof.
  intros H. pose proof (line_of _ _ H) as HL. pose proof HL as [Hm Hi Hn Hp Hr Hc]. unfold readline_backword, ed_backword. rewrite (proj2 (Z.ltb_ge (cmd_buf_size rs) _)), orb_false_r by lia.
  destruct (Z.eqb_spec (cmd_buf_index rs) 0) as [E0|N0].
  - unfold ed_cut. pose proof (word_start_le (text ed) (pos ed) Hp). replace (word_start _) with (pos ed) by lia. rewrite take_drop, edit_same. by apply steps_same.
  - pose proof (word_start_found _ _ (pos ed - 1) Hm ltac:(lia)) as E. replace (S (pos ed - 1)) with (pos ed) in E by lia.
    replace (Z.to_nat (cmd_buf_index rs - 1)) with (pos ed - 1)%nat by lia. destruct (skip_spaces _ _) as [s| |]; cbn [obind] in E |- *; try done. rewrite E. cbn [obind].
    pose proof (word_start_le (text ed) (pos ed) Hp). set (w := word_start _) in *. destruct (Z.ltb_spec (Z.of_nat w) (cmd_buf_index rs)).
    + destruct (line_cut _ _ _ _ _ w (pos ed) HL) as (m' & Em & HL'); [lia|lia|]. rewrite Hi, Em. cbn [obind]. by apply steps_line.
    + unfold ed_cut. replace w with (pos ed) by lia. rewrite take_drop, edit_same. by apply steps_same.
Qed.
