(* ===== verification/ReadlineHistory.v ===== *)
(** * The history of the line editor

    Going back and forth in the lines entered before, and remembering a line. *)

From S2P Require Import Prelude CUtils Readline ReadlineSpec ReadlineProofs.
From stdpp Require Import list.

Open Scope Z_scope.

(** ** Recalling *)
Lemma chars_nul_free s : Forall char_ok s -> Forall (fun c => c <> 0) s.
Proof. intros H. eapply Forall_impl; [exact H|]. unfold char_ok. lia. Qed.

Lemma copied_line m s : length m = 4096%nat -> Forall char_ok s -> (length s <= 4095)%nat ->
  exists m', store m 0 (map Some s ++ [Some 0]) = Some m' /\ strlen m' = Ret (Z.of_nat (length s)) /\ holds m' s.
Proof.
  intros Hm Hs Hl. rewrite store_ok by (rewrite ?length_app, ?length_map; cbn; lia). change (Z.to_nat 0) with 0%nat. rewrite take_0. cbn [app Nat.add]. eexists. split; [done|]. rewrite <- app_assoc. cbn [app]. split.
  - apply strlen_spec. by apply chars_nul_free.
  - split; [|eauto]. rewrite length_app. cbn [length]. rewrite length_drop, length_app, length_map. cbn [length]. lia.
Qed.

Lemma recall_steps rs ed s : models rs ed -> (length s <= 4095)%nat -> Forall char_ok s -> steps (recall rs (Some s)) rs (edit ed s (length s)).
Proof.
  intros H Hl Hs. destruct (line_of _ _ H) as [[Hm _] Hi Hn Hp Hr Hc]. destruct (copied_line _ s Hm Hs Hl) as (m' & E & El & Hh). cbn [recall oget obind].
  rewrite pstrcpy_spec by (by apply chars_nul_free || (unfold READLINE_CMD_BUF_SIZE; lia)). unfold READLINE_CMD_BUF_SIZE. rewrite take_ge by lia. rewrite E. cbn [oget obind].
  rewrite El. cbn [obind]. apply steps_line; [done|]. by split.
Qed.

Lemma steps_hist r rs ed h e b : models rs ed -> hist_ok h e (past ed) b -> steps r (set_hist rs h e) (at_entry ed b) -> steps r rs (at_entry ed b).
Proof. intros H Hh. by apply steps_then. Qed.

Lemma lookup_repeat {A} (x : A) n i : (i < n)%nat -> repeat x n !! i = Some x.
Proof. revert i. induction n as [|n IH]; intros [|i] H; cbn; try lia; [done|]. apply IH. lia. Qed.
Lemma hist_lookup rs ed i : models rs ed -> (i < 64)%nat -> hist_at rs (Z.of_nat i) = Ret (past ed !! i).
Proof.
  intros H Hi. destruct (md_hist _ _ H) as [Hs Hr _ _ _ _]. unfold hist_at. rewrite (proj2 (Z.ltb_ge (Z.of_nat i) 0)) by lia. rewrite Nat2Z.id, Hs.
  destruct (decide (i < length (past ed))%nat) as [Hlt|Hge].
  - rewrite lookup_app_l by (by rewrite length_map). rewrite list_lookup_fmap. destruct (lookup_lt_is_Some_2 _ _ Hlt) as [s ->]. done.
  - rewrite lookup_app_r by (rewrite length_map; lia). rewrite length_map, lookup_repeat by lia. rewrite lookup_ge_None_2 by lia. done.
Qed.
Lemma entry_recalled ed i s : Forall entry_ok (past ed) -> past ed !! i = Some s -> (length s <= 4095)%nat /\ Forall char_ok s.
Proof. intros H E. by destruct (proj1 (Forall_lookup _ _) H i s E) as (_ & ? & ?). Qed.

Lemma first_null_past (l : list (list Z)) n k : first_null (map Some l ++ repeat None n) k = k + Z.of_nat (length l).
Proof. revert k. induction l as [|s l IH]; intros k; cbn; [destruct n; cbn; lia|]. rewrite IH. lia. Qed.

Lemma hist_moves rs ed i : models rs ed -> (i < length (past ed))%nat -> hist_ok (history rs) (Z.of_nat i) (past ed) (Some i).
Proof. intros H Hi. destruct (md_hist _ _ H). split; try done. by intros ? [= <-]. Qed.

(** The entry [i] comes into the line. *)
Lemma recall_entry rs ed i : models rs ed -> (i < length (past ed))%nat ->
  let rs' := set_hist rs (history rs) (Z.of_nat i) in steps (let! e := hist_at rs' (hist_entry rs') in recall rs' e) rs (ed_recall ed i).
Proof.
  intros H Hi rs'. assert (models rs' (at_entry ed (Some i))) as H' by (apply models_hist; [done|by apply hist_moves]). destruct (md_hist _ _ H) as [_ Hr _ He _ _].
  change (hist_entry rs') with (Z.of_nat i). rewrite (hist_lookup _ _ _ H') by lia. cbn [obind at_entry past]. unfold ed_recall. destruct (lookup_lt_is_Some_2 _ _ Hi) as [s Es].
  rewrite Es. cbn [default]. destruct (entry_recalled _ _ _ He Es) as [Hl Hs]. apply (steps_then _ _ rs'); [done|]. apply (recall_steps _ _ s H' Hl Hs).
Qed.

Lemma at_entry_same ed : at_entry ed (browse ed) = ed.
Proof. by destruct ed. Qed.
Lemma entry_past_end rs ed : models rs ed -> models (set_hist rs (history rs) (-1)) (at_entry ed None).
Proof. intros H. apply models_hist; [done|]. by destruct (md_hist _ _ H). Qed.

Lemma up_steps rs ed : models rs ed -> steps (readline_up_char rs) rs (ed_up ed).
Proof.
  intros H. destruct (md_hist _ _ H) as [Hs Hr Ho He Hb Hi]. unfold readline_up_char, ed_up. destruct (browse ed) as [[|i]|] eqn:Eb.
  - rewrite Hb. by apply steps_same.
  - pose proof (Hi _ eq_refl). rewrite (proj2 (Z.eqb_neq (hist_entry rs) 0)), (proj2 (Z.eqb_neq (hist_entry rs) (-1))) by lia. cbv zeta. replace (hist_entry rs - 1) with (Z.of_nat i) by lia.
    cbn [set_hist hist_entry]. rewrite (proj2 (Z.leb_le 0 (Z.of_nat i))) by lia. apply (recall_entry rs ed i H). lia.
  - rewrite Hb. cbn [Z.eqb Pos.eqb]. cbv zeta. cbn [set_hist hist_entry history]. replace (first_null (history rs) 0 - 1) with (Z.of_nat (length (past ed)) - 1) by (rewrite Hs, first_null_past; lia).
    destruct (length (past ed)) as [|i] eqn:El.
    + cbn [Z.of_nat Z.sub Z.add Z.opp Z.leb Z.compare]. eexists. split; [done|]. split; [|done]. rewrite <- (at_entry_same ed), Eb. exact (entry_past_end rs ed H).
    + replace (Z.of_nat (S i) - 1) with (Z.of_nat i) by lia. rewrite (proj2 (Z.leb_le 0 (Z.of_nat i))) by lia. apply (recall_entry rs ed i H). lia.
Qed.

(** Behind the last entry the line is empty. *)
Lemma leave_steps rs ed e : models rs ed -> steps
  (let! m := oget (store (cmd_buf rs) 0 [Some 0]) in let rs := set_hist (set_hist rs (history rs) e) (history rs) (-1) in let! n := strlen m in Ret (set_line rs m n n)) rs (at_entry (edit ed [] 0) None).
Proof.
  intros H. destruct (line_of _ _ H) as [[Hm _] Hi Hn Hp Hr Hc]. destruct (copied_line _ [] Hm) as (m' & E & El & Hh); [done|cbn; lia|]. cbn [map app] in E. rewrite E. cbn [oget obind].
  rewrite El. cbn [obind length]. change (at_entry (edit ed [] 0) None) with (edit (at_entry ed None) [] 0). apply (steps_then _ _ (set_hist rs (history rs) (-1))); [done|].
  apply (steps_line (set_hist rs (history rs) (-1))); [by apply entry_past_end|]. split; try done; cbn; lia.
Qed.
Lemma down_steps rs ed : models rs ed -> steps (readline_down_char rs) rs (ed_down ed).
Proof.
  intros H. destruct (md_hist _ _ H) as [Hs Hr Ho He Hb Hi]. unfold readline_down_char, ed_down. destruct (browse ed) as [i|] eqn:Eb; [|rewrite Hb; by apply steps_same].
  pose proof (Hi _ eq_refl) as Hlt. rewrite (proj2 (Z.eqb_neq (hist_entry rs) (-1))) by lia. unfold READLINE_MAX_CMDS.
  destruct (Nat.ltb_spec (S i) (length (past ed))) as [Hin|Hout].
  - rewrite (proj2 (Z.ltb_lt (hist_entry rs) _)) by lia. cbv zeta. replace (hist_entry rs + 1) with (Z.of_nat (S i)) by lia. pose proof (recall_entry rs ed (S i) H Hin) as R. cbv zeta in R.
    destruct (hist_at _ _) as [[s|]| |]; cbn [obind] in R |- *; try done; by destruct R as (? & ? & _).
  - destruct (Z.ltb_spec (hist_entry rs) (64 - 1)) as [Hl|Hg]; cbv zeta; cbn [obind].
    + replace (hist_entry rs + 1) with (Z.of_nat (S i)) by lia. change (hist_entry (set_hist rs (history rs) (Z.of_nat (S i)))) with (Z.of_nat (S i)).
      change (hist_at (set_hist ?r ?h ?e)) with (hist_at r). rewrite (hist_lookup _ _ _ H), lookup_ge_None_2 by lia. cbn [obind]. exact (leave_steps rs ed _ H).
    + pose proof (leave_steps rs ed (hist_entry rs) H) as L. by destruct rs.
Qed.

(** ** Remembering *)
Definition slots (l : list (list Z)) : list (option (list Z)) := map Some l ++ repeat None (64 - length l).

Lemma find_cmd_absent l s n k : s ∉ l -> find_cmd (map Some l ++ repeat None n) s k = ((k + length l)%nat, false).
Proof.
  revert k. induction l as [|x l IH]; intros k Hs; cbn [map app find_cmd length].
  - destruct n; cbn; by rewrite Nat.add_0_r.
  - apply not_elem_of_cons in Hs as [Hx Hs]. rewrite decide_False by congruence. rewrite IH by done. f_equal. lia.
Qed.
Lemma find_cmd_present l1 s l2 rest k : s ∉ l1 -> find_cmd (map Some (l1 ++ s :: l2) ++ rest) s k = ((k + length l1)%nat, true).
Proof.
  revert k. induction l1 as [|x l IH]; intros k Hs; cbn [map app find_cmd length].
  - rewrite decide_True by done. f_equal. lia.
  - apply not_elem_of_cons in Hs as [Hx Hs]. rewrite decide_False by congruence. rewrite IH by done. f_equal. lia.
Qed.

Lemma store_slot l s : (length l < 64)%nat -> store (slots l) (Z.of_nat (length l)) [Some s] = Some (slots (l ++ [s])).
Proof.
  intros H. unfold slots. rewrite length_app. cbn [length]. destruct (64 - length l)%nat as [|k] eqn:Ek; [lia|]. replace (64 - (length l + 1))%nat with k by lia. cbn [repeat].
  change (None :: ?r) with ([None (A:=list Z)] ++ r). rewrite store_mid by (by rewrite ?length_map). by rewrite map_app, <- app_assoc.
Qed.
Lemma unlink_slots l1 s l2 : (length (l1 ++ s :: l2) <= 64)%nat ->
  take (length l1) (slots (l1 ++ s :: l2)) ++ drop (S (length l1)) (slots (l1 ++ s :: l2)) ++ [None] = slots (l1 ++ l2).
Proof.
  intros H. unfold slots. rewrite !map_app, <- !app_assoc. rewrite length_app in *. cbn [length map] in *. rewrite take_app_length' by (by rewrite length_map). f_equal.
  change ((Some s :: map Some l2) ++ ?r) with ([Some s] ++ map Some l2 ++ r). rewrite app_assoc, drop_app_length' by (rewrite length_app, length_map; cbn; lia).
  rewrite <- app_assoc. f_equal. change [None] with (repeat (None (A:=list Z)) 1). rewrite <- repeat_app. f_equal. rewrite length_app. lia.
Qed.

Lemma filter_absent (l : list (list Z)) s : s ∉ l -> filter (fun x => x <> s) l = l.
Proof. intros H. induction l as [|x l IH]; [done|]. apply not_elem_of_cons in H as [Hx Hl]. rewrite filter_cons_True by congruence. by rewrite IH. Qed.
Lemma remember_present l1 s l2 : s ∉ l1 -> s ∉ l2 -> (length (l1 ++ s :: l2) <= 64)%nat -> remember (l1 ++ s :: l2) s = (l1 ++ l2) ++ [s].
Proof.
  intros H1 H2 Hl. unfold remember. rewrite filter_app, filter_cons_False by (intros ?; done). rewrite !filter_absent by done. cbv zeta.
  rewrite !length_app in *. cbn [length] in *. replace (length l1 + length l2 + 1 - 64)%nat with 0%nat by lia. apply drop_0.
Qed.
Lemma remember_absent l s : s ∉ l -> (length l < 64)%nat -> remember l s = l ++ [s].
Proof. intros H Hl. unfold remember. rewrite filter_absent by done. rewrite length_app. cbn [length]. replace (length l + 1 - 64)%nat with 0%nat by lia. apply drop_0. Qed.
Lemma remember_full l s : s ∉ l -> length l = 64%nat -> remember l s = drop 1 l ++ [s].
Proof. intros H Hl. unfold remember. rewrite filter_absent by done. rewrite length_app, Hl. cbn [length Nat.add Nat.sub]. apply drop_app_le. lia. Qed.

Lemma remember_ok l s : Forall entry_ok l -> entry_ok s -> NoDup l -> (length (remember l s) <= 64)%nat /\ NoDup (remember l s) /\ Forall entry_ok (remember l s).
Proof.
  intros Hl Hs Hn. unfold remember. set (m := filter _ l ++ [s]). assert (NoDup m) as Hm.
  { apply NoDup_app. split; [by apply NoDup_filter|]. split; [|apply NoDup_singleton]. intros x Hx E. apply list_elem_of_singleton in E as ->. by apply list_elem_of_filter in Hx as [? _]. }
  split; [rewrite length_drop; lia|]. split.
  - rewrite <- (take_drop (length m - 64) m) in Hm. by apply NoDup_app in Hm as (_ & _ & ?).
  - apply Forall_drop, Forall_app. split; [|by constructor]. apply Forall_forall. intros x Hx. apply list_elem_of_filter in Hx as [_ Hx]. by apply (proj1 (Forall_forall _ _) Hl).
Qed.

(** From the slot of the command, when there is one, on. *)
Definition put_entry (rs : ReadLineState) (cmdline : list Z) (slot : nat * bool) : res ReadLineState :=
  let '(idx, found) := slot in
  let '(rs, idx) := if found then let rs := unlink_entry rs idx in (rs, first_null (drop idx (history rs)) (Z.of_nat idx)) else (rs, Z.of_nat idx) in
  let '(rs, idx) := if idx =? READLINE_MAX_CMDS then (set_hist rs (drop 1 (history rs) ++ [None]) (hist_entry rs), READLINE_MAX_CMDS - 1) else (rs, idx) in
  let! h := oget (store (history rs) idx [Some cmdline]) in
  Ret (set_hist rs h (-1)).

Lemma put_present rs l1 s l2 : history rs = slots (l1 ++ s :: l2) -> (length (l1 ++ s :: l2) <= 64)%nat -> s ∉ l1 -> s ∉ l2 ->
  put_entry rs s (length l1, true) = Ret (set_hist rs (slots (remember (l1 ++ s :: l2) s)) (-1)).
Proof.
  intros Eh Hl H1 H2. unfold put_entry, unlink_entry. cbn [set_hist history]. rewrite Eh, unlink_slots by done. rewrite remember_present by done. rewrite length_app in Hl. cbn [length] in Hl.
  assert (first_null (drop (length l1) (slots (l1 ++ l2))) (Z.of_nat (length l1)) = Z.of_nat (length (l1 ++ l2))) as ->.
  { unfold slots. rewrite map_app, <- app_assoc, drop_app_length' by (by rewrite length_map). rewrite first_null_past, length_app. lia. }
  unfold READLINE_MAX_CMDS. rewrite (proj2 (Z.eqb_neq (Z.of_nat (length (l1 ++ l2))) 64)) by (rewrite length_app; lia).
  cbn [set_hist history]. rewrite store_slot by (rewrite length_app; lia). done.
Qed.
Lemma put_absent rs l s : history rs = slots l -> (length l <= 64)%nat -> s ∉ l -> put_entry rs s (length l, false) = Ret (set_hist rs (slots (remember l s)) (-1)).
Proof.
  intros Eh Hl Hs. unfold put_entry, READLINE_MAX_CMDS. destruct (Z.eqb_spec (Z.of_nat (length l)) 64) as [E|N]; cbn [set_hist history]; rewrite Eh.
  - rewrite remember_full by (done || lia). assert (drop 1 (slots l) ++ [None] = slots (drop 1 l)) as ->.
    { unfold slots. replace (64 - length l)%nat with 0%nat by lia. rewrite length_drop. replace (64 - (length l - 1))%nat with 1%nat by lia. cbn [repeat]. rewrite app_nil_r. by destruct l. }
    replace (64 - 1) with (Z.of_nat (length (drop 1 l))) by (rewrite length_drop; lia). rewrite store_slot by (rewrite length_drop; lia). done.
  - rewrite remember_absent by (done || lia). rewrite store_slot by lia. done.
Qed.

Lemma find_same (l : list (list Z)) s i : NoDup l -> l !! i = Some s -> exists l1 l2, l = l1 ++ s :: l2 /\ length l1 = i /\ s ∉ l1 /\ s ∉ l2.
Proof.
  intros Hn Hi. exists (take i l), (drop (S i) l). assert (l = take i l ++ s :: drop (S i) l) as E by (by rewrite take_drop_middle). split; [done|].
  split; [rewrite length_take; apply lookup_lt_Some in Hi; lia|]. rewrite E in Hn. apply NoDup_app in Hn as (_ & H1 & H2). apply NoDup_cons in H2 as [H2 _]. split; [|done].
  intros H. apply (H1 s H). by left.
Qed.

Lemma hist_add_remembers rs ed s : models rs ed -> s <> [] -> readline_hist_add rs s = Ret (set_hist rs (slots (remember (past ed) s)) (-1)).
Proof.
  intros H Hne. destruct (md_hist _ _ H) as [Hs Hr Ho He Hb Hi]. change (history rs = slots (past ed)) in Hs. unfold readline_hist_add. destruct s as [|c s']; [done|]. set (s := c :: s') in *. clearbody s.
  enough (forall same : option nat, (forall i, same = Some i -> past ed !! i = Some s) ->
    put_entry rs s (match same with Some idx => (idx, true) | None => find_cmd (history rs) s 0 end) = Ret (set_hist rs (slots (remember (past ed) s)) (-1))) as P.
  - unfold put_entry in P. destruct (browse ed) as [i|] eqn:Eb.
    + pose proof (Hi _ eq_refl) as Hlt. rewrite (proj2 (Z.eqb_neq (hist_entry rs) (-1))) by lia. cbn [negb]. rewrite Hb, (hist_lookup _ _ _ H) by lia. cbn [obind].
      destruct (lookup_lt_is_Some_2 _ _ Hlt) as [e Ee]. rewrite Ee, Nat2Z.id. cbn [oget obind]. apply P. destruct (decide (e = s)) as [->|]; [|done]. by intros ? [= <-].
    + rewrite Hb. cbn [Z.eqb Pos.eqb negb obind]. by apply (P None).
  - intros [i|] HP.
    + destruct (find_same _ _ _ Ho (HP _ eq_refl)) as (l1 & l2 & E & <- & H1 & H2). rewrite E in *. by apply put_present.
    + destruct (decide (s ∈ past ed)) as [Hin|Hout].
      * apply list_elem_of_lookup in Hin as [i Hin]. destruct (find_same _ _ _ Ho Hin) as (l1 & l2 & E & _ & H1 & H2). rewrite E in *.
        rewrite Hs. unfold slots at 1. rewrite find_cmd_present by done. by apply put_present.
      * rewrite Hs. unfold slots at 1. rewrite find_cmd_absent by done. by apply put_absent.
Qed.
