(* ===== verification/ReadlineScreen.v ===== *)
(** * What the terminal shows

    The terminal shows the line that [last_cmd_buf] records; [readline_update] makes it the
    line of [cmd_buf]. *)

From S2P Require Import Prelude CUtils Readline ReadlineSpec ReadlineProofs ReadlineHistory.
From stdpp Require Import list.

Open Scope Z_scope.

(** ** The terminal *)
Lemma screen_app l1 l2 : screen_of (l1 ++ l2) = foldl draw (screen_of l1) l2.
Proof. apply foldl_app. Qed.
Lemma draw_left n l k : (n <= k)%nat -> foldl draw (mkScreen l k) (repeat CursorLeft n) = mkScreen l (k - n).
Proof.
  revert k. induction n as [|n IH]; intros k H; cbn [repeat foldl draw shown column]; [by rewrite Nat.sub_0_r|]. rewrite IH by lia. f_equal. lia.
Qed.
Lemma draw_right n l k : foldl draw (mkScreen l k) (repeat CursorRight n) = mkScreen l (k + n).
Proof. revert k. induction n as [|n IH]; intros k; cbn [repeat foldl draw shown column]; [by rewrite Nat.add_0_r|]. rewrite IH. f_equal. lia. Qed.
Lemma draw_stars n l k : (k <= length l)%nat -> foldl draw (mkScreen l k) (repeat (Text [42]) n) = mkScreen (take k l ++ repeat 42 n ++ drop (k + n) l) (k + n).
Proof.
  revert l k. induction n as [|n IH]; intros l k Hk; cbn [repeat foldl draw shown column length app]; [by rewrite Nat.add_0_r, take_drop|].
  assert (length (take k l ++ [42%Z]) = k + 1)%nat as Hl by (rewrite length_app, length_take; cbn; lia).
  change (42 :: ?r) with ([42] ++ r). rewrite (app_assoc (take k l) [42]). rewrite IH by (rewrite length_app, Hl; lia). f_equal; [|lia].
  rewrite take_app_length' by lia. rewrite drop_app_ge by lia. rewrite drop_drop, <- app_assoc. f_equal. f_equal. f_equal. f_equal. lia.
Qed.
(** A line written from the left end, and the rest erased. *)
Lemma draw_line (sec : bool) (t l : list Z) : foldl draw (mkScreen l 0) ((if sec then repeat (Text [42]) (length t) else [Text t]) ++ [EraseEol]) = mkScreen (visible sec t) (length t).
Proof.
  rewrite foldl_app. destruct sec.
  - rewrite draw_stars, take_0 by lia. cbn [foldl draw shown column app visible Nat.add]. by rewrite take_app_length' by (by rewrite repeat_length).
  - cbn [foldl draw shown column visible Nat.add]. rewrite take_0. cbn [app]. by rewrite take_app_length.
Qed.

(** ** What it shows *)
Definition shows_line (rs : ReadLineState) (t : list Z) : Prop := holds (last_cmd_buf rs) t /\ last_cmd_buf_size rs = Z.of_nat (length t) /\
  0 <= last_cmd_buf_index rs <= last_cmd_buf_size rs /\ screen_of (out rs) = mkScreen (visible (read_password rs) t) (Z.to_nat (last_cmd_buf_index rs)).
Definition shows (rs : ReadLineState) : Prop := exists t, shows_line rs t.

Lemma shows_still rs rs' : still rs rs' -> shows rs -> shows rs'.
Proof. unfold still, shows, shows_line. intros (-> & -> & -> & -> & ->). done. Qed.

Lemma load_text m t : holds m t -> load m 0 (Z.of_nat (length t)) = Some (map Some t).
Proof. intros (_ & rest & ->). pose proof (load_app [] (map Some t) rest) as L. cbn in L. apply L. by rewrite length_map. Qed.
Lemma cstring_spec s tl : Forall char_ok s -> cstring (map Some s ++ Some 0 :: tl) = Ret s.
Proof. induction 1 as [|c s Hc Hs IH]; [done|]. cbn [map app cstring]. rewrite (proj2 (Z.eqb_neq c 0)) by (unfold char_ok in Hc; lia). by rewrite IH. Qed.
Lemma end_line m t : holds m t -> (length t <= 4095)%nat -> exists rest, store m (Z.of_nat (length t)) [Some 0] = Some (map Some t ++ Some 0 :: rest) /\ holds (map Some t ++ Some 0 :: rest) t.
Proof.
  intros (Hl & rest & ->) Ht. rewrite length_app, length_map in Hl. destruct rest as [|r0 rest]; [cbn in Hl; lia|]. exists rest. split.
  - change (r0 :: rest) with ([r0] ++ rest). by rewrite store_mid by (by rewrite ?length_map).
  - split; [|eauto]. rewrite length_app, length_map. done.
Qed.
Lemma overwrite m s : length m = 4096%nat -> (length s <= 4096)%nat -> exists m', store m 0 (map Some s) = Some m' /\ holds m' s.
Proof.
  intros Hm Hs. rewrite store_ok by (rewrite ?length_map; lia). change (Z.to_nat 0) with 0%nat. rewrite take_0. eexists. split; [done|]. cbn [app Nat.add]. split; [|eauto].
  rewrite length_app, length_drop, length_map. lia.
Qed.

Lemma models_out rs ed o : models rs ed -> models (emit rs o) ed.
Proof. intros []. by split. Qed.
Lemma models_last rs ed l i n : models rs ed -> length l = 4096%nat -> 0 <= i <= n -> n <= 4095 -> models (set_last rs l i n) ed.
Proof. intros []. by split. Qed.
Lemma models_memory rs ed m : models rs ed -> holds m (text ed) -> models (set_line rs m (cmd_buf_index rs) (cmd_buf_size rs)) ed.
Proof. intros [[] ? ? ? ? ?] Hm. split; [by split|done..]. Qed.

(** ** Updating it *)
Lemma line_drawn o v k (sec : bool) t : screen_of o = mkScreen v k ->
  screen_of (((o ++ repeat CursorLeft k) ++ (if sec then repeat (Text [42]) (length t) else [Text t])) ++ [EraseEol]) = mkScreen (visible sec t) (length t).
Proof. intros E. by rewrite <- app_assoc, !screen_app, E, draw_left, Nat.sub_diag, draw_line by lia. Qed.

(** The state after the line was written. *)
Definition redrawn (rs : ReadLineState) (t : list Z) (m l : list (option Z)) : ReadLineState :=
  set_last (emit (emit (set_line (emit rs (repeat CursorLeft (Z.to_nat (last_cmd_buf_index rs)))) m (cmd_buf_index rs) (cmd_buf_size rs))
    (if read_password rs then repeat (Text [42]) (length t) else [Text t])) [EraseEol]) l (cmd_buf_size rs) (cmd_buf_size rs).
Lemma redrawn_shows rs ed m l : models rs ed -> shows rs -> holds m (text ed) -> holds l (text ed) -> models (redrawn rs (text ed) m l) ed /\ shows_line (redrawn rs (text ed) m l) (text ed).
Proof.
  intros H (t & Ht & Hs & Hi & Hsc) Hm Hl. destruct (line_of _ _ H) as [_ Hp Hn Hpl Hr Hc]. split.
  - apply models_last; [|apply Hl|lia|lia]. do 2 apply models_out. apply (models_memory (emit rs _)); [|done]. by apply models_out.
  - split; [done|]. split; [done|]. cbn [redrawn set_last last_cmd_buf_index last_cmd_buf_size]. split; [lia|]. rewrite Hn, Nat2Z.id. by apply (line_drawn _ (visible (read_password rs) t)).
Qed.

Lemma redraw_shows rs ed : models rs ed -> shows rs -> exists rs', redraw rs = Ret rs' /\ models rs' ed /\ shows_line rs' (text ed).
Proof.
  intros H HS. pose proof HS as (t & Ht & Hs & Hi & Hsc). destruct (line_of _ _ H) as [Hm Hp Hn Hpl Hr Hc]. destruct (md_last _ _ H) as (Hll & _ & Hls). unfold redraw. rewrite Hn, (load_text _ _ Hm). cbn [oget obind].
  rewrite load_ok by lia. cbn [oget obind]. destruct (_ || _) eqn:Ed.
  - destruct (end_line _ _ Hm Hr) as (rest & Es & Hm'). cbn [emit cmd_buf cmd_buf_size]. rewrite ?Hn, Es. cbn [oget obind]. destruct (overwrite _ (text ed) Hll ltac:(lia)) as (l & El & Hl).
    exists (redrawn rs (text ed) (map Some (text ed) ++ Some 0 :: rest) l). split; [|by apply redrawn_shows]. cbn [set_line emit read_password cmd_buf]. unfold redrawn. rewrite <- Hn.
    destruct (read_password rs) eqn:Ep; [rewrite strlen_spec by (by apply chars_nul_free)|rewrite cstring_spec by done]; cbn [obind];
      cbn [emit set_line cmd_buf cmd_buf_size last_cmd_buf]; rewrite Hn, (load_text _ _ Hm'); cbn [oget obind]; rewrite El; cbn [oget obind]; by rewrite ?Nat2Z.id.
  - exists rs. split; [done|]. split; [done|]. apply orb_false_iff in Ed as [E1 E2]. apply negb_false_iff, Z.eqb_eq in E1. apply negb_false_iff, bool_decide_eq_true in E2.
    assert (text ed = t) as ->; [|done]. pose proof (load_text _ _ Ht) as L. rewrite <- Hs, <- E1, load_ok in L by lia. injection L as L. rewrite L in E2. by apply (inj (map Some)) in E2.
Qed.

(** The terminal shows the line, with the cursor where it is. *)
Definition current (rs : ReadLineState) (ed : editor) : Prop := screen_of (out rs) = mkScreen (visible (secret ed) (text ed)) (pos ed).

Lemma cursor_moved (i j : nat) v : foldl draw (mkScreen v i)
  (let d := Z.of_nat j - Z.of_nat i in if 0 <? d then repeat CursorRight (Z.to_nat d) else repeat CursorLeft (Z.to_nat (- d))) = mkScreen v j.
Proof.
  cbv zeta. destruct (Z.ltb_spec 0 (Z.of_nat j - Z.of_nat i)).
  - rewrite draw_right. f_equal. lia.
  - rewrite draw_left by lia. f_equal. lia.
Qed.

Lemma update_shows rs ed : models rs ed -> shows rs -> exists rs', readline_update rs = Ret rs' /\ models rs' ed /\ shows rs' /\ current rs' ed.
Proof.
  intros H HS. unfold readline_update. destruct (redraw_shows _ _ H HS) as (rs1 & -> & H1 & (Hh & Hs & Hi & Hsc)). cbn [obind]. clear rs H HS.
  destruct (line_of _ _ H1) as [_ Hp _ Hpl Hr _]. pose proof (md_secret _ _ H1) as Hsec. destruct (Z.eqb_spec (cmd_buf_index rs1) (last_cmd_buf_index rs1)) as [E|N]; cbn [negb].
  - exists rs1. split; [done|]. split; [done|]. split; [by exists (text ed)|]. unfold current. by rewrite Hsc, Hsec, <- E, Hp, Nat2Z.id.
  - eexists. split; [done|]. cbv zeta. match goal with |- context [emit rs1 ?x] => set (o := x) end.
    assert (screen_of (out rs1 ++ o) = mkScreen (visible (secret ed) (text ed)) (pos ed)) as Ho.
    { rewrite screen_app, Hsc, Hsec. subst o. rewrite <- (Z2Nat.id (last_cmd_buf_index rs1)), Hp by lia. rewrite Nat2Z.id. apply cursor_moved. }
    split; [apply models_last; [by apply models_out|apply Hh|cbn; lia|cbn; lia]|]. split; [|done].
    exists (text ed). split; [done|]. split; [done|]. cbn [set_last emit last_cmd_buf_index last_cmd_buf_size cmd_buf_index]. split; [lia|]. cbn [out set_last emit read_password]. by rewrite Ho, Hsec, Hp, Nat2Z.id.
Qed.

(** ** Completion *)
Definition call_ok (c : finder_call) : Prop := match c with AddCompletion s => Forall char_ok s | SetIndex n => 0 <= n end.
Definition added (calls : list finder_call) : list (list Z) := omap (fun c => match c with AddCompletion s => Some s | SetIndex _ => None end) calls.

Lemma finder_found calls : forall rs, (length (completions rs) <= 256)%nat ->
  foldl finder_step rs calls = set_comp rs (take 256 (completions rs ++ added calls)) (found_index calls (completion_index rs)).
Proof.
  induction calls as [|[s|n] calls IH]; intros rs Hl; cbn [foldl finder_step].
  - cbn [added omap list_omap found_index foldl]. rewrite app_nil_r, take_ge by done. by destruct rs.
  - unfold readline_add_completion, READLINE_MAX_COMPLETIONS. change (added (AddCompletion s :: calls)) with (s :: added calls). destruct (Z.ltb_spec (Z.of_nat (length (completions rs))) 256).
    + rewrite IH by (cbn [set_comp completions]; rewrite length_app; cbn [length]; lia). cbn [set_comp completions completion_index]. by rewrite <- app_assoc.
    + rewrite IH by done. rewrite !take_app_le by lia. done.
  - unfold readline_set_completion_index. by rewrite IH by done.
Qed.
Lemma found_ok calls n : Forall call_ok calls -> 0 <= n -> 0 <= found_index calls n /\ Forall (Forall char_ok) (found calls).
Proof.
  intros H Hn. split.
  - revert n Hn. induction H as [|[s|k] calls Hc H IH]; intros n Hn; [done| |]; cbn; by apply IH.
  - apply Forall_take. fold (added calls). induction H as [|[s|k] calls Hc H IH]; [by constructor| |]; [change (Forall (Forall char_ok) (s :: added calls)); by constructor|done].
Qed.
