(* ===== verification/ReadlineSession.v ===== *)
(** * Bytes from the terminal

    Every byte moves the line editor as it moves the ideal one, and the terminal shows the
    line of the ideal one. *)

From S2P Require Import Prelude CUtils Readline ReadlineSpec ReadlineProofs ReadlineHistory ReadlineScreen.
From stdpp Require Import list.

Open Scope Z_scope.

Definition lands (r : res ReadLineState) (ed : editor) : Prop := exists rs, r = Ret rs /\ models rs ed /\ shows rs.
Lemma steps_lands r rs ed : steps r rs ed -> shows rs -> lands r ed.
Proof. intros (rs' & -> & H & S) Hs. exists rs'. split; [done|]. split; [done|]. by eapply shows_still. Qed.

(** ** Completion *)
Lemma holds_take m t n : holds m t -> holds m (take n t).
Proof. intros (Hl & rest & ->). split; [done|]. exists (map Some (drop n t) ++ rest). by rewrite app_assoc, <- map_app, take_drop. Qed.
Lemma mapM_Some (l : list Z) : mapM id (map Some l) = Some l.
Proof. induction l as [|x l IH]; [done|]. cbn. by rewrite IH. Qed.
Lemma chars_prefix rs ed : models rs ed -> chars (cmd_buf rs) 0 (cmd_buf_index rs) = Ret (take (pos ed) (text ed)).
Proof.
  intros H. destruct (line_of _ _ H) as [Hm Hi Hn Hp _ _]. unfold chars. pose proof (load_text _ _ (holds_take _ _ (pos ed) Hm)) as L. rewrite length_take, Nat.min_l in L by lia.
  rewrite Hi, L. cbn [oget obind]. by rewrite mapM_Some.
Qed.

Definition with_index (ed : editor) (n : Z) : editor := mkEd (text ed) (pos ed) (past ed) (browse ed) (esc ed) (param ed) n (secret ed).
Lemma models_comp rs ed cs n : models rs ed -> 0 <= n -> models (set_comp rs cs n) (with_index ed n).
Proof. intros [] Hn. by split. Qed.

Lemma ed_insert_nil ed : ed_insert ed [] = ed.
Proof. unfold ed_insert. rewrite take_nil. cbn. rewrite Nat.add_0_r, take_drop. apply edit_same. Qed.
Lemma ed_insert_app ed s1 s2 : (pos ed <= length (text ed))%nat -> ed_insert ed (s1 ++ s2) = ed_insert (ed_insert ed s1) s2.
Proof.
  revert ed. induction s1 as [|c s1 IH]; intros ed H; [by rewrite ed_insert_nil|]. cbn [app]. rewrite (ed_insert_cons ed c (s1 ++ s2)), (ed_insert_cons ed c s1) by done. apply IH.
  unfold ed_insert. cbn [edit pos text]. rewrite !length_app, !length_take, length_drop. lia.
Qed.

Lemma insert_from_steps rs ed s i n : models rs ed -> 0 <= i -> (n <= length s)%nat -> Forall char_ok s -> (length (text (ed_insert ed (drop (Z.to_nat i) (take n s)))) <= 4095)%nat ->
  steps (insert_from rs s i (Z.of_nat n)) rs (ed_insert ed (drop (Z.to_nat i) (take n s))).
Proof.
  intros H Hi Hn Hs Hl. unfold insert_from. destruct (Z.leb_spec (Z.of_nat n) i).
  - rewrite drop_ge by (rewrite length_take; lia). rewrite ed_insert_nil. by apply steps_same.
  - rewrite (proj2 (Z.ltb_ge i 0)) by lia. assert (take (Z.to_nat (Z.of_nat n - i)) (drop (Z.to_nat i) s) = drop (Z.to_nat i) (take n s)) as ->.
    { rewrite take_drop_commute. do 2 f_equal. lia. }
    apply insert_all_steps; [done| |done]. by apply Forall_drop, Forall_take.
Qed.

(** A prompt starts a line of the terminal. *)
Lemma prompt_lands rs ed : models rs ed -> lands (Ret (readline_show_prompt rs)) (in_mode ed IS_NORM (param ed)).
Proof.
  intros H. eexists. split; [done|]. destruct (md_last _ _ H) as [Hl _]. split.
  - destruct (md_esc _ _ H) as (_ & Hp & Hr). rewrite <- Hp in Hr. pose proof (models_esc _ _ IS_NORM (esc_param rs) (models_last _ _ (last_cmd_buf rs) 0 0 (models_out _ _ [Prompt (prompt rs)] H) Hl ltac:(lia) ltac:(lia)) Hr) as H2.
    rewrite <- Hp. exact H2.
  - exists []. split; [|split; [done|split; [cbn; lia|]]].
    + split; [done|]. by exists (last_cmd_buf rs).
    + cbn [readline_show_prompt set_esc set_last emit out]. rewrite screen_app. cbn. by destruct (read_password rs).
Qed.
Lemma in_mode_same ed k : esc ed = k -> in_mode ed k (param ed) = ed.
Proof. intros <-. by destruct ed. Qed.

Lemma max_prefix_le c cs : (max_prefix_len (c :: cs) <= length c)%nat.
Proof.
  cbn [max_prefix_len]. assert (forall m a b, prefix_loop m a b <= m)%nat as P.
  { induction m as [|m IH]; intros [|x a] [|y b]; cbn; try lia. destruct (x =? y); [|lia]. specialize (IH a b). lia. }
  generalize (length c) at 1 2 as m. induction cs as [|c' cs IH]; intros m; cbn [foldl]; [done|]. etransitivity; [apply IH|]. etransitivity; [apply P|]. lia.
Qed.

Lemma one_completed rs ed c i : models rs ed -> 0 <= i -> Forall char_ok c -> (length (text (ed_insert ed (completed [c] i))) <= 4095)%nat ->
  steps (let! rs := insert_from rs c i (Z.of_nat (length c)) in if match last c with Some x => negb (x =? 47) | None => false end then readline_insert_char rs 32 else Ret rs) rs
    (ed_insert ed (completed [c] i)).
Proof.
  intros H Hi Hc Hl. cbn [completed] in *. pose proof (lk_pos _ _ _ _ _ (line_of _ _ H)) as Hp. rewrite ed_insert_app in Hl |- * by done.
  pose proof (insert_grows (ed_insert ed (drop (Z.to_nat i) c)) (if match last c with Some x => negb (x =? 47) | None => false end then [32] else [])).
  pose proof (insert_from_steps rs ed c i (length c) H Hi ltac:(lia) Hc) as P. rewrite take_ge in P by done. destruct P as (rs1 & -> & H1 & S1); [lia|]. cbn [obind]. apply (steps_then _ _ _ _ S1).
  destruct (match last c with Some x => negb (x =? 47) | None => false end); [apply insert_steps; [done|unfold char_ok; lia|done]|]. rewrite ed_insert_nil. by apply steps_same.
Qed.
Lemma many_completed rs ed c cs i : models rs ed -> 0 <= i -> Forall char_ok c -> (length (text (ed_insert ed (drop (Z.to_nat i) (take (max_prefix_len (c :: cs)) c)))) <= 4095)%nat ->
  steps (if (0 <? max_prefix_len (c :: cs))%nat then insert_from rs c i (Z.of_nat (max_prefix_len (c :: cs))) else Ret rs) rs
    (ed_insert ed (drop (Z.to_nat i) (take (max_prefix_len (c :: cs)) c))).
Proof.
  intros H Hi Hc Hl. destruct (Nat.ltb_spec 0 (max_prefix_len (c :: cs))) as [Hlt|Hge].
  - apply insert_from_steps; try done. apply max_prefix_le.
  - replace (max_prefix_len (c :: cs)) with 0%nat by lia. rewrite take_0, drop_nil, ed_insert_nil. by apply steps_same.
Qed.

Section Finder.
Context (finder : list Z -> list finder_call).

Lemma completion_lands rs ed : models rs ed -> shows rs -> esc ed = IS_NORM -> Forall call_ok (finder (take (pos ed) (text ed))) ->
  (length (text (ed_complete finder ed)) <= 4095)%nat -> lands (readline_completion finder rs) (ed_complete finder ed).
Proof.
  intros H HS He Hf Hl. unfold readline_completion, ed_complete in *. change (chars (cmd_buf (set_comp ?r _ _)) 0 (cmd_buf_index (set_comp _ _ _))) with (chars (cmd_buf r) 0 (cmd_buf_index r)).
  rewrite (chars_prefix _ _ H). cbn [obind]. set (calls := finder _) in *. clearbody calls. rewrite finder_found by (cbn; lia). cbn [set_comp completions completion_index app].
  change (take 256 (added calls)) with (found calls). destruct (md_index _ _ H) as [Ei Hi]. rewrite Ei. destruct (found_ok _ _ Hf Hi) as [Hn Hc]. set (n := found_index calls (cidx ed)) in *. clearbody n.
  pose proof (models_comp _ _ (found calls) n H Hn) as H1. set (rs1 := set_comp rs (found calls) n) in *. change (set_comp (set_comp rs _ _) _ _) with rs1.
  assert (shows rs1) as HS1 by exact HS. fold (with_index ed n) in *. assert (completion_index rs1 = n) as En by done. assert (completions rs1 = found calls) as Ec by done. clearbody rs1. set (ed1 := with_index ed n) in *. assert (esc ed1 = IS_NORM) as He1 by exact He. clearbody ed1.
  rewrite ?Ec. destruct (found calls) as [|c [|c' cs]]; [rewrite ed_insert_nil; by exists rs1| |]; apply Forall_cons in Hc as [Hc _].
  - rewrite ?En. eapply steps_lands; [|done]. by apply one_completed.
  - cbv zeta. change (completion_index (emit rs1 _)) with (completion_index rs1). rewrite ?En, ?Ec.
    destruct (many_completed (emit rs1 [Newline]) ed1 c (c' :: cs) n (models_out _ _ _ H1) Hn Hc Hl) as (rs2 & -> & H2 & _). cbn [obind].
    pose proof (prompt_lands _ _ (models_out _ _ (columns (max_width (c :: c' :: cs)) (80 / max_width (c :: c' :: cs)) (c :: c' :: cs) 0) H2)) as L. by rewrite in_mode_same in L by done.
Qed.

(** ** The end of a line *)
Lemma enter_hist rs ed : models rs ed -> exists rs', (if read_password rs then Ret rs else readline_hist_add rs (text ed)) = Ret rs' /\ still rs rs' /\
  models rs' (let '(h, b) := if secret ed || bool_decide (text ed = []) then (past ed, browse ed) else (remember (past ed) (text ed), None) in
    mkEd (text ed) (pos ed) h b (esc ed) (param ed) (cidx ed) (secret ed)).
Proof.
  intros H. pose proof (md_secret _ _ H) as Es. destruct (line_of _ _ H) as [_ _ _ _ Hr Hc]. rewrite Es. destruct (secret ed) eqn:Ep; cbn [orb].
  - exists rs. split; [done|]. split; [done|]. destruct ed; cbn in *. by subst.
  - destruct (bool_decide_reflect (text ed = [])) as [E|N].
    + rewrite E. exists rs. split; [done|]. split; [done|]. destruct ed; cbn in *. by subst.
    + rewrite (hist_add_remembers _ _ _ H N). eexists. split; [done|]. split; [done|]. destruct H as [HL [? ? ? ? ? ?] ? ? ? ?].
      destruct (remember_ok (past ed) (text ed)) as (R1 & R2 & R3); [done|done|done|]. by split.
Qed.

Lemma enter_lands rs ed : models rs ed -> exists rs', end_of_line rs = Ret (Some (text ed), rs') /\ models rs' (ed_enter ed) /\ shows rs'.
Proof.
  intros H. destruct (line_of _ _ H) as [Hm Hi Hn Hp Hr Hc]. unfold end_of_line. destruct (end_line _ _ Hm Hr) as (rest & Es & Hm'). rewrite Hn, Es. cbn [oget obind]. rewrite <- Hn.
  pose proof (models_memory _ _ _ H Hm') as H1. set (rs1 := set_line rs _ _ _) in *. change (cmd_buf rs1) with (map Some (text ed) ++ Some 0 :: rest). rewrite cstring_spec by done. cbn [obind]. clearbody rs1.
  destruct (enter_hist _ _ H1) as (rs2 & E2 & S2 & H2). rewrite E2. cbn [obind]. eexists. split; [done|]. unfold ed_enter. destruct (if _ || _ then _ else _) as [h b]. split.
  - destruct (md_last _ _ H2) as [Hl _]. apply models_last; [|done|lia|lia]. apply (models_line _ _ _ _ _ [] 0 (models_out _ _ [Newline] H2)). destruct (line_of _ _ H2) as [[Hm2 _] _ _ _ _ _]. split; cbn; try done; try lia.
    split; [done|]. by exists (cmd_buf rs2).
  - destruct (md_last _ _ H2) as [Hl _]. exists []. split; [split; [done|by exists (last_cmd_buf rs2)]|]. split; [done|]. split; [cbn; lia|]. cbn [set_last set_line emit out]. rewrite screen_app. cbn. by destruct (read_password rs2).
Qed.
(** ** A byte *)
(** What has to fit: the line its buffer, the number of an escape sequence an [int]. *)
Definition fits (ed : editor) : Prop := (length (text ed) <= 4095)%nat /\ param ed < 2 ^ 31.

Definition lands_with (r : res (option (list Z) * ReadLineState)) (o : option (list Z) * editor) : Prop := exists rs, r = Ret (o.1, rs) /\ models rs o.2 /\ shows rs.
Lemma plain_lands r ed : lands r ed -> lands_with (plain r) (None, ed).
Proof. intros (rs & -> & H). by exists rs. Qed.
Lemma plain_steps r rs ed : shows rs -> steps r rs ed -> lands_with (plain r) (None, ed).
Proof. intros Hs H. apply plain_lands. by eapply steps_lands. Qed.

Lemma mode_steps rs ed k n : models rs ed -> 0 <= n < 2 ^ 31 -> steps (Ret (set_esc rs k n)) rs (in_mode ed k n).
Proof. intros H Hn. eexists. split; [done|]. split; [by apply models_esc|done]. Qed.
Lemma param_range rs ed : models rs ed -> esc_param rs = param ed /\ 0 <= param ed < 2 ^ 31.
Proof. intros H. by destruct (md_esc _ _ H). Qed.

Lemma norm_lands rs ed ch : models rs ed -> shows rs -> esc ed = IS_NORM -> 0 <= ch < 256 -> Forall call_ok (finder (take (pos ed) (text ed))) ->
  fits (ed_norm finder ed ch).2 -> lands_with (norm_byte finder rs ch) (ed_norm finder ed ch).
Proof.
  intros H HS He Hch Hf [Hl _]. destruct (param_range _ _ H) as [Ep Hp]. unfold norm_byte, ed_norm in *. rewrite Ep.
  destruct (ch =? 1); [by eapply plain_steps, bol_steps|]. destruct (ch =? 4); [by eapply plain_steps, delete_steps|]. destruct (ch =? 5); [by eapply plain_steps, eol_steps|].
  destruct (ch =? 9); [by apply plain_lands, completion_lands|]. destruct ((ch =? 10) || (ch =? 13)); [by apply enter_lands|]. destruct (ch =? 23); [by eapply plain_steps, backword_steps|].
  destruct (ch =? 27); [by eapply plain_steps, mode_steps|]. destruct ((ch =? 127) || (ch =? 8)); [by eapply plain_steps, backspace_steps|]. destruct (ch =? 155); [by eapply plain_steps, mode_steps|].
  destruct (Z.leb_spec 32 ch); [eapply plain_steps, insert_steps; [done|done|unfold char_ok; lia|done]|]. by eapply plain_steps, steps_same.
Qed.

Lemma csi_key rs ed ch : models rs ed -> steps
  (if (ch =? 65) || (ch =? 70) then readline_up_char rs
   else if (ch =? 66) || (ch =? 69) then readline_down_char rs
   else if ch =? 68 then Ret (readline_backward_char rs)
   else if ch =? 67 then Ret (readline_forward_char rs)
   else if ch =? 126 then
     (if esc_param rs =? 1 then Ret (readline_bol rs) else if esc_param rs =? 3 then readline_delete_char rs else if esc_param rs =? 4 then Ret (readline_eol rs) else Ret rs)
   else Ret rs) rs
  (if (ch =? 65) || (ch =? 70) then ed_up ed
   else if (ch =? 66) || (ch =? 69) then ed_down ed
   else if ch =? 68 then edit ed (text ed) (pos ed - 1)
   else if ch =? 67 then edit ed (text ed) (Nat.min (S (pos ed)) (length (text ed)))
   else if ch =? 126 then
     (if param ed =? 1 then edit ed (text ed) 0 else if param ed =? 3 then ed_delete ed else if param ed =? 4 then edit ed (text ed) (length (text ed)) else ed)
   else ed).
Proof.
  intros H. destruct (param_range _ _ H) as [-> _]. repeat case_match; by auto using up_steps, down_steps, backward_steps, forward_steps, bol_steps, delete_steps, eol_steps, steps_same.
Qed.
Lemma csi_steps rs ed ch : models rs ed -> esc ed = IS_CSI -> 0 <= ch < 256 -> fits (ed_csi ed ch) -> steps (csi_byte rs ch) rs (ed_csi ed ch).
Proof.
  intros H He Hch [_ Hf]. destruct (param_range _ _ H) as [Ep Hp]. unfold csi_byte, ed_csi in *. destruct ((48 <=? ch) && (ch <=? 57)) eqn:Ed.
  - apply andb_true_iff in Ed as [E1 E2]. apply Z.leb_le in E1, E2. cbn [in_mode param] in Hf. rewrite Ep. unfold cmul, cadd. rewrite cint_ret by lia. cbn [obind]. rewrite cint_ret by lia. cbn [obind].
    destruct (md_esc _ _ H) as [-> _]. rewrite He. apply mode_steps; [done|lia].
  - clear Hf. destruct (csi_key rs ed ch H) as (rs1 & E & H1 & S1). rewrite E. cbn [obind]. apply (steps_then _ _ _ _ S1). destruct (param_range _ _ H1) as [Ep1 Hp1].
    rewrite Ep1. assert (forall e : editor, param e = param ed -> in_mode e IS_NORM (param e) = in_mode e IS_NORM (param ed)) as K by (by intros e ->).
    rewrite <- K; [by apply mode_steps|]. repeat case_match; try done; unfold ed_up, ed_down; repeat case_match; done.
Qed.

Lemma byte_lands rs ed ch : models rs ed -> shows rs -> 0 <= ch < 256 -> Forall call_ok (finder (take (pos ed) (text ed))) -> fits (ed_byte finder ed ch).2 ->
  exists rs', readline_handle_byte finder rs ch = Ret ((ed_byte finder ed ch).1, rs') /\ models rs' (ed_byte finder ed ch).2 /\ shows rs' /\ current rs' (ed_byte finder ed ch).2.
Proof.
  intros H HS Hch Hc Hf. destruct (param_range _ _ H) as [Ep Hp].
  assert (lands_with (match esc_state rs with IS_NORM => norm_byte finder rs ch
    | IS_ESC => plain (Ret (if ch =? 91 then set_esc rs IS_CSI 0 else set_esc rs IS_NORM (esc_param rs))) | IS_CSI => plain (csi_byte rs ch) end) (ed_byte finder ed ch)) as (rs1 & E & H1 & S1).
  { destruct (md_esc _ _ H) as [-> _]. unfold ed_byte in *. destruct (esc ed) eqn:Ee; [by apply norm_lands| |].
    - eapply plain_steps; [done|]. rewrite Ep. destruct (ch =? 91); apply mode_steps; (done || lia).
    - eapply plain_steps; [done|]. by apply csi_steps. }
  unfold readline_handle_byte. rewrite E. cbn [obind]. destruct (update_shows _ _ H1 S1) as (rs2 & -> & H2 & S2 & C2). by exists rs2.
Qed.
(** ** A session *)
(** A byte; a prompt, as after a command; a new prompt and mode, as for a password. *)
Inductive event : Type := Byte (ch : Z) | ShowPrompt | Start (p : list Z) (pw : bool).

(** For every byte the command it ends, if any, and the terminal after it. *)
Fixpoint session (rs : ReadLineState) (es : list event) : res (list (option (list Z) * screen)) :=
  match es with
  | [] => Ret []
  | Byte ch :: es =>
      let! '(cmd, rs) := readline_handle_byte finder rs ch in
      let! l := session rs es in
      Ret ((cmd, screen_of (out rs)) :: l)
  | ShowPrompt :: es => session (readline_show_prompt rs) es
  | Start p pw :: es => session (readline_show_prompt (readline_start rs p pw)) es
  end.

Definition ed_event (ed : editor) (e : event) : editor :=
  match e with
  | Byte ch => (ed_byte finder ed ch).2
  | ShowPrompt => in_mode ed IS_NORM (param ed)
  | Start _ pw => mkEd [] 0 (past ed) (browse ed) IS_NORM (param ed) (cidx ed) pw
  end.
Definition ed_shown (ed : editor) (e : event) : list (option (list Z) * screen) :=
  match e with Byte ch => let '(cmd, ed) := ed_byte finder ed ch in [(cmd, mkScreen (visible (secret ed) (text ed)) (pos ed))] | _ => [] end.
Fixpoint ed_session (ed : editor) (es : list event) : list (option (list Z) * screen) :=
  match es with [] => [] | e :: es => ed_shown ed e ++ ed_session (ed_event ed e) es end.
Definition ed_init : editor := mkEd [] 0 [] None IS_NORM 0 0 false.

Definition event_fits (ed : editor) (e : event) : bool :=
  let ed' := ed_event ed e in (length (text ed') <=? 4095)%nat && (param ed' <? 2 ^ 31) && match e with Byte ch => (0 <=? ch) && (ch <? 256) | _ => true end.
Fixpoint all_fit (ed : editor) (es : list event) : bool := match es with [] => true | e :: es => event_fits ed e && all_fit (ed_event ed e) es end.

Lemma start_lands rs ed p pw : models rs ed -> lands (Ret (readline_show_prompt (readline_start rs p pw))) (ed_event ed (Start p pw)).
Proof.
  intros H. destruct (line_of _ _ H) as [[Hm _] _ _ _ _ _]. assert (models (readline_start rs p pw) (mkEd [] 0 (past ed) (browse ed) (esc ed) (param ed) (cidx ed) pw)) as H1.
  { destruct H. split; try done. split; cbn; try done; try lia. split; [done|]. by exists (cmd_buf rs). }
  exact (prompt_lands _ _ H1).
Qed.

Lemma session_lands es1 : (forall line, Forall call_ok (finder line)) -> forall rs ed, models rs ed -> shows rs -> all_fit ed es1 = true ->
  exists rs', models rs' (foldl ed_event ed es1) /\ shows rs' /\ forall es2, session rs (es1 ++ es2) = let! l := session rs' es2 in Ret (ed_session ed es1 ++ l).
Proof.
  intros Hf. induction es1 as [|e es IH]; intros rs ed H HS Ha.
  { exists rs. split; [done|]. split; [done|]. intros es2. cbn [app ed_session]. by destruct (session rs es2). }
  cbn [all_fit] in Ha. apply andb_true_iff in Ha as [Hfit Ha]. unfold event_fits in Hfit. rewrite !andb_true_iff in Hfit. destruct Hfit as [[Hl Hp] He].
  apply Nat.leb_le in Hl. apply Z.ltb_lt in Hp. destruct e as [ch| |p pw]; cbn [app session ed_session ed_shown foldl].
  - apply andb_true_iff in He as [E1 E2]. apply Z.leb_le in E1. apply Z.ltb_lt in E2. destruct (byte_lands rs ed ch H HS ltac:(lia) (Hf _) (conj Hl Hp)) as (rs1 & -> & H1 & S1 & C1). cbn [obind].
    destruct (IH rs1 (ed_event ed (Byte ch)) H1 S1 Ha) as (rs' & H' & S' & E). exists rs'. split; [done|]. split; [done|]. intros es2. rewrite E, C1. cbn [ed_event]. destruct (session rs' es2); [|done..].
    cbn [obind]. by destruct (ed_byte finder ed ch).
  - destruct (prompt_lands _ _ H) as (rs1 & E & H1 & S1). injection E as E. rewrite E. by apply IH.
  - destruct (start_lands _ _ p pw H) as (rs1 & E & H1 & S1). injection E as E. rewrite E. by apply IH.
Qed.
Lemma session_runs es rs ed : (forall line, Forall call_ok (finder line)) -> models rs ed -> shows rs -> all_fit ed es = true -> session rs es = Ret (ed_session ed es).
Proof. intros Hf H HS Ha. destruct (session_lands es Hf rs ed H HS Ha) as (rs' & _ & _ & E). specialize (E []). rewrite app_nil_r in E. cbn in E. by rewrite app_nil_r in E. Qed.
End Finder.

Lemma init_models bits : models (readline_init bits) ed_init /\ shows (readline_init bits).
Proof.
  unfold readline_init. assert (length (repeat (Some 0) 4096) = 4096%nat) as Hlen by apply repeat_length. set (m := repeat (Some 0) 4096) in *. clearbody m. split.
  - split; cbn [cmd_buf cmd_buf_index cmd_buf_size history hist_entry esc_state esc_param completion_index read_password last_cmd_buf last_cmd_buf_index last_cmd_buf_size]; try done; try lia.
    + split; try done; cbn; try lia. split; [done|]. by exists m.
    + split; try done; cbn; try lia. constructor.
  - exists []. split; [split; [done|by exists m]|]. split; [done|]. split; [cbn; lia|done].
Qed.

(** C32. The line editor shows and returns what the ideal one does: from its creation on,
    whatever bytes arrive and whatever prompts are set, as long as the line keeps within 4095
    characters and the numbers of escape sequences within an int, and the completion finder
    adds completions of proper characters and sets a start that is not negative, every byte is handled
    without a fault, the commands are those of the ideal editor and after every byte the
    terminal shows the ideal line (as stars for a password) with the cursor at its place. *)
Theorem readline_session finder bits es : (forall line, Forall call_ok (finder line)) -> all_fit finder ed_init es = true ->
  session finder (readline_init bits) es = Ret (ed_session finder ed_init es).
Proof. intros Hf Ha. destruct (init_models bits) as [H HS]. by apply session_runs. Qed.

(** A finder with one command: "info". *)
Definition info_finder (line : list Z) : list finder_call := [AddCompletion [105; 110; 102; 111]; SetIndex (Z.of_nat (length line))].
(** "ix", backspace, "n", tab, enter; a prompt; arrow up, home, delete, enter; a password. *)
Definition info_session : list event :=
  map Byte [105; 120; 127; 110; 9; 13] ++ [ShowPrompt] ++ map Byte [27; 91; 65; 27; 91; 49; 126; 4; 13] ++ [Start [58] true] ++ map Byte [120; 121; 13].
Lemma readline_session_witness : session info_finder (readline_init 0) info_session = Ret (ed_session info_finder ed_init info_session) /\
  omap fst (ed_session info_finder ed_init info_session) = [[105; 110; 102; 111; 32]; [110; 102; 111; 32]; [120; 121]] /\
  map snd (drop 15 (ed_session info_finder ed_init info_session)) = [mkScreen [42] 1; mkScreen [42; 42] 2; mkScreen [] 0].
Proof.
  split; [|by vm_compute]. apply readline_session; [|by vm_compute]. intros line. constructor; [|constructor; [|done]]; cbn; [repeat constructor; unfold char_ok; lia|lia].
Defined.
