(* ===== verification/ReadlineTyped.v ===== *)
(** * Lines typed at the terminal

    Lines that are typed become commands, and the arrow keys bring them back.  At the end,
    what happens where the line or a number no longer fits. *)

From S2P Require Import Prelude CUtils Readline ReadlineSpec ReadlineProofs ReadlineHistory ReadlineScreen ReadlineSession.
From stdpp Require Import list.

Open Scope Z_scope.

(** Bytes that stand for themselves. *)
Definition printable (c : Z) : Prop := 32 <= c < 256 /\ c <> 127 /\ c <> 155.
Definition typed (s : list Z) : list event := map Byte s ++ [Byte 13; ShowPrompt].
Definition ARROW_UP : list event := map Byte [27; 91; 65].

(** The byte is none of the keys. *)
Ltac no_key c :=
  rewrite (proj2 (Z.eqb_neq c 1)), (proj2 (Z.eqb_neq c 4)), (proj2 (Z.eqb_neq c 5)), (proj2 (Z.eqb_neq c 9)), (proj2 (Z.eqb_neq c 10)), (proj2 (Z.eqb_neq c 13)), (proj2 (Z.eqb_neq c 23)),
    (proj2 (Z.eqb_neq c 27)), (proj2 (Z.eqb_neq c 127)), (proj2 (Z.eqb_neq c 8)), (proj2 (Z.eqb_neq c 155)), (proj2 (Z.leb_le 32 c)) by lia.

Section Typing.
Context (finder : list Z -> list finder_call).

(** What the events of [es] lead to from [ed]: the commands [cs] and the editor [ed']. *)
Definition goes (ed : editor) (es : list event) (cs : list (list Z)) (ed' : editor) : Prop :=
  all_fit finder ed es = true /\ omap fst (ed_session finder ed es) = cs /\ foldl (ed_event finder) ed es = ed'.

Lemma goes_nil ed : goes ed [] [] ed.
Proof. done. Qed.
Lemma goes_app ed es1 cs1 ed1 es2 cs2 ed2 : goes ed es1 cs1 ed1 -> goes ed1 es2 cs2 ed2 -> goes ed (es1 ++ es2) (cs1 ++ cs2) ed2.
Proof.
  intros (A1 & C1 & E1) (A2 & C2 & E2). subst cs1. revert ed A1 E1. induction es1 as [|e es IH]; intros ed A1 E1; cbn in E1; [by subst|].
  cbn [app all_fit] in A1 |- *. apply andb_true_iff in A1 as [Af A1]. destruct (IH _ A1 E1) as (A & C & E). split; [cbn [all_fit]; by rewrite Af|]. split; [|done].
  cbn [ed_session]. rewrite !omap_app, C. by rewrite <- app_assoc.
Qed.
Lemma goes_byte ed ch cmd ed' : 0 <= ch < 256 -> ed_byte finder ed ch = (cmd, ed') -> fits ed' -> goes ed [Byte ch] (match cmd with Some s => [s] | None => [] end) ed'.
Proof.
  intros Hc E [Hl Hp]. split; [|split].
  - cbn [all_fit]. unfold event_fits. cbn [ed_event]. rewrite E. cbn [snd]. rewrite (proj2 (Nat.leb_le _ _) Hl), (proj2 (Z.ltb_lt _ _) Hp), (proj2 (Z.leb_le 0 ch)), (proj2 (Z.ltb_lt ch 256)) by lia. done.
  - cbn [ed_session ed_shown]. rewrite E. by destruct cmd.
  - cbn [foldl ed_event]. by rewrite E.
Qed.

Lemma printable_inserts ed c : esc ed = IS_NORM -> printable c -> ed_byte finder ed c = (None, ed_insert ed [c]).
Proof.
  intros He ((H1 & H2) & H3 & H4). unfold ed_byte, ed_norm. rewrite He.
  by no_key c.
Qed.
Lemma insert_at_end ed t c : text ed = t -> pos ed = length t -> (length t < 4095)%nat -> ed_insert ed [c] = edit ed (t ++ [c]) (length (t ++ [c])).
Proof.
  intros E Hp Hl. unfold ed_insert. rewrite Hp, E, take_ge, drop_ge, (take_ge [c]) by (cbn; lia). by rewrite app_nil_r, length_app.
Qed.

Lemma typing s : Forall printable s -> forall ed, esc ed = IS_NORM -> param ed < 2 ^ 31 -> pos ed = length (text ed) -> (length (text ed) + length s <= 4095)%nat ->
  goes ed (map Byte s) [] (edit ed (text ed ++ s) (length (text ed ++ s))).
Proof.
  induction 1 as [|c s Hc Hs IH]; intros ed He Hp Hpos Hl; cbn [map].
  - rewrite app_nil_r, <- Hpos, edit_same. apply goes_nil.
  - cbn [length] in Hl. change (Byte c :: map Byte s) with ([Byte c] ++ map Byte s). pose proof (insert_at_end ed _ c eq_refl Hpos ltac:(lia)) as Ei. apply (goes_app _ _ [] (ed_insert ed [c]) _ []).
    + apply (goes_byte _ _ None); [unfold printable in Hc; lia|by apply printable_inserts|]. rewrite Ei. split; [cbn; rewrite length_app; cbn; lia|done].
    + rewrite Ei. replace (text ed ++ c :: s) with ((text ed ++ [c]) ++ s) by (by rewrite <- app_assoc).
      apply (IH (edit ed (text ed ++ [c]) (length (text ed ++ [c])))); try done. cbn. rewrite length_app. cbn. lia.
Qed.
(** An editor that waits for a line, after the lines [h]. *)
Record ready (ed : editor) (h : list (list Z)) : Prop := {
  rd_text : text ed = []; rd_pos : pos ed = 0%nat; rd_esc : esc ed = IS_NORM; rd_param : param ed < 2 ^ 31; rd_open : secret ed = false;
  rd_past : past ed = h; rd_browse : browse ed = None; rd_entries : Forall entry_ok h; rd_once : NoDup h
}.
Definition remembered (h : list (list Z)) (s : list Z) : list (list Z) := if bool_decide (s = []) then h else remember h s.

Lemma enter_goes ed : esc ed = IS_NORM -> param ed < 2 ^ 31 -> goes ed [Byte 13] [text ed] (ed_enter ed).
Proof.
  intros He Hp. apply (goes_byte _ _ (Some (text ed))); [lia| |].
  - unfold ed_byte. by rewrite He.
  - unfold ed_enter. destruct (if _ || _ then _ else _). split; cbn; [lia|done].
Qed.
Lemma prompt_goes ed : esc ed = IS_NORM -> param ed < 2 ^ 31 -> (length (text ed) <= 4095)%nat -> goes ed [ShowPrompt] [] ed.
Proof.
  intros He Hp Hl. split; [|split; [done|]]; cbn [all_fit foldl]; [unfold event_fits|]; cbn [ed_event]; rewrite in_mode_same by done; [|done].
  by rewrite (proj2 (Nat.leb_le _ _) Hl), (proj2 (Z.ltb_lt _ _) Hp).
Qed.

Lemma typed_goes ed h s : ready ed h -> Forall printable s -> (length s <= 4095)%nat -> exists ed', goes ed (typed s) [s] ed' /\ ready ed' (remembered h s).
Proof.
  intros [Ht Hpos He Hp Ho Hh Hb Hen Hn] Hs Hl. pose proof (typing s Hs ed He Hp) as T. rewrite Ht in T. cbn [app length] in T. specialize (T Hpos ltac:(lia)). set (ed1 := edit ed s (length s)) in *.
  assert (Forall char_ok s) as Hc by (eapply Forall_impl; [exact Hs|unfold printable, char_ok; lia]). assert (ready (ed_enter ed1) (remembered h s)) as R.
  { unfold ed_enter, remembered. change (secret ed1) with (secret ed). change (text ed1) with s. rewrite Ho. cbn [orb]. destruct (bool_decide_reflect (s = [])) as [E|N]; [by split|].
    destruct (remember_ok h s Hen (conj N (conj Hl Hc)) Hn) as (_ & R2 & R3). change (past ed1) with (past ed). rewrite Hh. by split. }
  exists (ed_enter ed1). split; [|done]. unfold typed. apply (goes_app _ _ [] ed1 _ [s]); [done|]. apply (goes_app _ [Byte 13] [s] (ed_enter ed1) [ShowPrompt] []).
  - by apply (enter_goes ed1).
  - destruct R as [Rt Rp Re Rpa _ _ _ _ _]. apply prompt_goes; [done|done|]. rewrite Rt. cbn. lia.
Qed.
Lemma all_typed_goes ls : forall ed h, ready ed h -> Forall (fun s => Forall printable s /\ (length s <= 4095)%nat) ls ->
  exists ed', goes ed (concat (map typed ls)) ls ed' /\ ready ed' (foldl remembered h ls).
Proof.
  induction ls as [|s ls IH]; intros ed h R H; [exists ed; split; [apply goes_nil|done]|]. apply Forall_cons in H as [[Hs Hl] H]. destruct (typed_goes _ _ _ R Hs Hl) as (ed1 & G1 & R1).
  destruct (IH _ _ R1 H) as (ed2 & G2 & R2). exists ed2. split; [|done]. exact (goes_app _ _ _ _ _ _ _ G1 G2).
Qed.

(** ** The arrow *)
Lemma up_goes ed i s : esc ed = IS_NORM -> ed_up (in_mode ed IS_CSI 0) = ed_recall (in_mode ed IS_CSI 0) i -> fits ed -> past ed !! i = Some s -> (length s <= 4095)%nat ->
  goes ed ARROW_UP [] (mkEd s (length s) (past ed) (Some i) IS_NORM 0 (cidx ed) (secret ed)).
Proof.
  intros He Hu [Hl Hp] Hi Hs. apply (goes_app _ [Byte 27] [] (in_mode ed IS_ESC (param ed)) _ []).
  { apply (goes_byte _ _ None); [lia| |by split]. unfold ed_byte. by rewrite He. }
  apply (goes_app _ [Byte 91] [] (in_mode ed IS_CSI 0) [Byte 65] []).
  { by apply (goes_byte _ _ None). }
  apply (goes_byte _ _ None); [lia| |split; cbn; [done|lia]].
  change (ed_byte finder (in_mode ed IS_CSI 0) 65) with (@None (list Z), in_mode (ed_up (in_mode ed IS_CSI 0)) IS_NORM 0). rewrite Hu. unfold ed_recall. cbn [in_mode past]. by rewrite Hi.
Qed.
Lemma ups_go ed h n : ready ed h -> (n < length h)%nat ->
  exists s, h !! (length h - S n)%nat = Some s /\ goes ed (concat (repeat ARROW_UP (S n))) [] (mkEd s (length s) h (Some (length h - S n)%nat) IS_NORM 0 (cidx ed) false).
Proof.
  intros R. pose proof R as [Ht Hpos He Hp Ho Hh Hb Hen Hnd]. induction n as [|n IH]; intros Hn.
  - destruct (lookup_lt_is_Some_2 h (length h - 1)) as [s Es]; [lia|]. exists s. split; [done|]. destruct (proj1 (Forall_lookup _ _) Hen _ _ Es) as (_ & Hl & _).
    cbn [repeat concat]. rewrite app_nil_r, <- Hh, <- Ho. apply up_goes; try done; [|split; [rewrite Ht; cbn; lia|done]|by rewrite Hh].
    unfold ed_up. cbn [in_mode browse past]. rewrite Hb, Hh. destruct (length h) as [|k] eqn:Ek; [lia|]. f_equal. lia.
  - destruct IH as (s0 & E0 & G0); [lia|]. destruct (lookup_lt_is_Some_2 h (length h - S (S n))) as [s Es]; [lia|]. exists s. split; [done|].
    destruct (proj1 (Forall_lookup _ _) Hen _ _ Es) as (_ & Hl & _). destruct (proj1 (Forall_lookup _ _) Hen _ _ E0) as (_ & Hl0 & _).
    change (repeat ARROW_UP (S (S n))) with (ARROW_UP :: repeat ARROW_UP (S n)). rewrite repeat_cons, concat_app. cbn [concat]. rewrite app_nil_r. apply (goes_app _ _ [] _ _ [] _ G0). apply (up_goes (mkEd s0 _ h _ IS_NORM 0 _ _) _ s); try done.
    unfold ed_up. cbn [in_mode browse]. replace (length h - S n)%nat with (S (length h - S (S n))) by lia. done.
Qed.
End Typing.

(** C33. Lines that are typed become the commands, in their order; and after them [n] arrow
    keys up and the return key give the [n]-th last of the lines entered, where a line that
    was entered again counts at its last place, empty lines do not count and 64 lines are
    remembered. *)
Theorem typed_lines finder bits p ls n : (forall line, Forall call_ok (finder line)) -> Forall (fun s => Forall printable s /\ (length s <= 4095)%nat) ls ->
  let h := foldl remembered [] ls in (1 <= n <= length h)%nat ->
  exists s shown, h !! (length h - n)%nat = Some s /\ omap fst shown = ls ++ [s] /\
    session finder (readline_init bits) (Start p false :: concat (map typed ls) ++ concat (repeat ARROW_UP n) ++ [Byte 13]) = Ret shown.
Proof.
  intros Hf Hls h Hn. set (ed0 := mkEd [] 0 [] None IS_NORM 0 0 false). assert (ready ed0 []) as R0 by (split; cbn; (done || lia || constructor)).
  destruct (all_typed_goes finder ls _ _ R0 Hls) as (ed1 & G1 & R1). fold h in R1. destruct n as [|n]; [lia|]. destruct (ups_go finder _ _ n R1) as (s & Es & G2); [lia|].
  pose proof (enter_goes finder (mkEd s (length s) h (Some (length h - S n)%nat) IS_NORM 0 (cidx ed1) false) eq_refl ltac:(cbn; lia)) as G3.
  destruct (goes_app _ _ _ _ _ _ _ _ G1 (goes_app _ _ _ _ _ _ _ _ G2 G3)) as (A & C & _). exists s. eexists. split; [done|]. split; [exact C|].
  destruct (init_models bits) as [H HS]. rewrite (session_runs finder _ _ ed_init Hf H HS); [done|]. cbn [all_fit]. apply andb_true_iff. by split.
Qed.

Lemma typed_lines_witness : exists s shown, [[97]; [98]] !! 0%nat = Some s /\ omap fst shown = [[98]; [97]; []; [98]; [97]; [98]; [98]] ++ [s] /\
  session info_finder (readline_init 0) (Start [58] false :: concat (map typed [[98]; [97]; []; [98]; [97]; [98]; [98]]) ++ concat (repeat ARROW_UP 2) ++ [Byte 13]) = Ret shown.
Proof.
  apply (typed_lines info_finder 0 [58] [[98]; [97]; []; [98]; [97]; [98]; [98]] 2).
  - intros line. constructor; [|constructor; [|done]]; cbn; [repeat constructor; unfold char_ok; lia|lia].
  - repeat (apply Forall_cons_2; [split; [repeat (apply Forall_cons_2; [unfold printable; lia|]); apply Forall_nil_2|cbn; lia]|]). apply Forall_nil_2.
  - vm_compute. lia.
Defined.

(** ** Where it does not fit *)
Definition no_finder (line : list Z) : list finder_call := [].

(** A character inserted before the end of a full line: the end of the string is written
    behind the buffer. *)
Lemma full_line_faults rs ed c : models rs ed -> esc ed = IS_NORM -> length (text ed) = 4095%nat -> (pos ed < 4095)%nat -> printable c -> readline_handle_byte no_finder rs c = Fault.
Proof.
  intros H He Hl Hp Hc. destruct (line_of _ _ H) as [Hm Hi Hn _ _ _]. destruct (md_last _ _ H) as (Hll & _ & Hls). unfold readline_handle_byte. destruct (md_esc _ _ H) as [-> _]. rewrite He.
  assert (norm_byte no_finder rs c = plain (readline_insert_char rs c)) as ->.
  { destruct Hc as ((H1 & H2) & H3 & H4). unfold norm_byte.
    by no_key c. }
  unfold readline_insert_char, READLINE_CMD_BUF_SIZE. rewrite (proj2 (Z.ltb_lt (cmd_buf_index rs) 4095)) by lia. destruct (insert_memory _ _ (pos ed) c Hm) as (m' & E & [Hm' _]); [lia|lia|].
  rewrite Hi, Hn. destruct (memmove _ _ _ _) as [m1| |]; cbn [obind] in E |- *; try done. rewrite E. cbn [obind plain]. unfold readline_update, redraw. cbn [set_line cmd_buf cmd_buf_size last_cmd_buf last_cmd_buf_size].
  rewrite !load_ok by lia. cbn [oget obind]. rewrite (proj2 (Z.eqb_neq (Z.of_nat (length (text ed)) + 1) (last_cmd_buf_size rs))) by lia. cbn [negb orb emit set_line cmd_buf cmd_buf_size].
  destruct (store m' _ _) as [m2|] eqn:E2; [|done]. apply store_Some in E2 as (_ & E2 & _). cbn [length] in E2. lia.
Qed.
(** It is reached by typing. *)
Lemma full_line_reached : session no_finder (readline_init 0) (map Byte (repeat 97 4095) ++ [Byte 1] ++ [Byte 97]) = Fault.
Proof.
  destruct (init_models 0) as [H HS]. assert (Forall printable (repeat 97 4095)) as Hs. { apply Forall_forall. intros x Hx. apply list_elem_of_In, repeat_spec in Hx as ->. unfold printable. lia. }
  assert (length (repeat 97 4095) = 4095%nat) as Hl by apply repeat_length. set (s := repeat 97 4095) in *. clearbody s.
  pose proof (typing no_finder s Hs ed_init eq_refl ltac:(cbn; lia) eq_refl ltac:(cbn [ed_init text length]; lia)) as G. cbn [ed_init text app] in G.
  assert (goes no_finder ed_init (map Byte s ++ [Byte 1]) [] (edit ed_init s 0)) as (A & _ & E).
  { apply (goes_app _ _ _ [] _ _ [] _ G). apply (goes_byte _ _ _ None); [lia|done|]. split; cbn; [by rewrite Hl|lia]. }
  destruct (session_lands no_finder _ (fun _ => Forall_nil_2 _) _ _ H HS A) as (rs' & H' & S' & Es). rewrite E in H'. rewrite app_assoc, Es. cbn [session].
  rewrite (full_line_faults rs' (edit ed_init s 0)); done || (unfold printable; lia) || (cbn; lia).
Qed.

(** The number of an escape sequence overflows. *)
Lemma esc_param_overflows : session no_finder (readline_init 0) (map Byte [27; 91; 57; 57; 57; 57; 57; 57; 57; 57; 57; 57]) = Fault.
Proof. by vm_compute. Qed.

Definition last_screen (r : res (list (option (list Z) * screen))) : option screen := match r with Ret l => snd <$> last l | _ => None end.
(** The key home in the eight-bit form of its sequence moves the cursor at first, but not after the
    key delete: the number of the earlier sequence is still there. *)
Lemma csi_number_stays :
  last_screen (session no_finder (readline_init 0) (map Byte [97; 98; 155; 49; 126])) = Some (mkScreen [97; 98] 0) /\
  last_screen (session no_finder (readline_init 0) (map Byte [97; 98; 27; 91; 51; 126; 155; 49; 126])) = Some (mkScreen [97; 98] 2).
Proof. by vm_compute. Qed.

(** After an empty line the history does not start at its end again. *)
Lemma empty_line_keeps_place :
  last_screen (session no_finder (readline_init 0) (typed [97] ++ typed [98] ++ ARROW_UP ++ [Byte 8; Byte 13; ShowPrompt] ++ ARROW_UP)) = Some (mkScreen [97] 1).
Proof. by vm_compute. Qed.

(** An entry that is edited stays as it was; the edited line is appended. *)
Lemma edited_entry_appended : last_screen (session no_finder (readline_init 0) (typed [97] ++ ARROW_UP ++ typed [98] ++ ARROW_UP ++ ARROW_UP)) = Some (mkScreen [97] 1).
Proof. by vm_compute. Qed.
