(* ===== verification/MonitorOutput.v ===== *)
(** * What the monitor writes: monitor_flush and monitor_puts of monitor.c

    [outbuf] is memory of 1024 bytes; [chr_written] are the writes to the character device.
    Output arrives complete and in order, with a carriage return before every newline, and
    after a newline nothing is left in the buffer.  At the end, the bytes the line editor's
    terminal commands stand for. *)

From S2P Require Import Prelude CUtils Readline ReadlineSpec.
From stdpp Require Import list.

Open Scope Z_scope.

Record Monitor : Type := mkMon { mux_out : bool; outbuf : list Z; outbuf_index : Z; chr_written : list (list Z) }.

Definition monitor_flush (mon : Monitor) : res Monitor :=
  if negb (outbuf_index mon =? 0) && negb (mux_out mon) then
    let! bs := oget (load (outbuf mon) 0 (outbuf_index mon)) in
    Ret (mkMon (mux_out mon) (outbuf mon) 0 (chr_written mon ++ [bs]))
  else Ret mon.

(** [mon->outbuf[mon->outbuf_index++] = c]. *)
Definition outbuf_put (mon : Monitor) (c : Z) : res Monitor :=
  let! m := oget (store (outbuf mon) (outbuf_index mon) [c]) in
  Ret (mkMon (mux_out mon) m (outbuf_index mon + 1) (chr_written mon)).

(** [str] without its end. *)
Fixpoint monitor_puts (mon : Monitor) (str : list Z) : res Monitor :=
  match str with
  | [] => Ret mon
  | c :: str =>
      let! mon := (if c =? 10 then outbuf_put mon 13 else Ret mon) in
      let! mon := outbuf_put mon c in
      let! mon := (if (1024 - 1 <=? outbuf_index mon) || (c =? 10) then monitor_flush mon else Ret mon) in
      monitor_puts mon str
  end.

(** ** Nothing is lost *)
Definition crlf (s : list Z) : list Z := s ≫= (fun c => if c =? 10 then [13; 10] else [c]).
(** The bytes [all] were written, the last of them still in the buffer. *)
Definition wrote (mon : Monitor) (all : list Z) : Prop := mux_out mon = false /\ length (outbuf mon) = 1024%nat /\
  exists pending rest, outbuf mon = pending ++ rest /\ outbuf_index mon = Z.of_nat (length pending) /\ all = concat (chr_written mon) ++ pending.

Lemma put_wrote mon all c : wrote mon all -> outbuf_index mon < 1024 -> exists mon', outbuf_put mon c = Ret mon' /\ wrote mon' (all ++ [c]) /\ outbuf_index mon' = outbuf_index mon + 1.
Proof.
  intros (Hm & Hl & p & r & E & Hi & ->) Hlt. rewrite E, length_app in Hl. destruct r as [|x r]; [cbn in Hl; lia|]. unfold outbuf_put. rewrite E. change (x :: r) with ([x] ++ r).
  rewrite store_mid by done. cbn [oget obind]. eexists. split; [done|]. split; [|done]. split; [done|]. cbn. cbn [length] in Hl. split; [rewrite length_app; cbn; lia|].
  exists (p ++ [c]), r. rewrite length_app, <- !app_assoc. cbn. split; [done|]. split; [lia|done].
Qed.
Lemma flush_wrote mon all : wrote mon all -> exists mon', monitor_flush mon = Ret mon' /\ wrote mon' all /\ outbuf_index mon' = 0 /\ concat (chr_written mon') = all.
Proof.
  intros (Hm & Hl & p & r & E & Hi & ->). unfold monitor_flush. rewrite Hm, andb_true_r. destruct (Z.eqb_spec (outbuf_index mon) 0) as [E0|N]; cbn [negb].
  - exists mon. assert (p = []) as -> by (apply length_zero_iff_nil; lia). rewrite app_nil_r. split; [done|]. split; [|done]. split; [done|]. split; [done|]. exists [], r. by rewrite app_nil_r.
  - rewrite E. pose proof (load_app [] p r (outbuf_index mon) Hi) as L. change (load (p ++ r) 0 (outbuf_index mon) = Some p) in L. rewrite L. cbn [oget obind]. eexists. split; [done|].
    cbn [mux_out outbuf outbuf_index chr_written]. assert (concat (chr_written mon ++ [p]) = concat (chr_written mon) ++ p) as Ec by (rewrite concat_app; cbn; by rewrite app_nil_r).
    split; [|done]. split; [done|]. cbn [outbuf outbuf_index chr_written]. split; [by rewrite <- E|]. exists [], (p ++ r). by rewrite Ec, app_nil_r.
Qed.

(** Output is delivered, whatever its length, and the buffer never overflows. *)
Theorem monitor_puts_delivers str mon all : wrote mon all -> outbuf_index mon < 1023 ->
  exists mon', monitor_puts mon str = Ret mon' /\ wrote mon' (all ++ crlf str) /\ outbuf_index mon' < 1023 /\ (last str = Some 10 -> concat (chr_written mon') = all ++ crlf str).
Proof.
  revert mon all. induction str as [|c str IH]; intros mon all W Hi; [exists mon; cbn; rewrite app_nil_r; by split|]. cbn [monitor_puts].
  assert (exists mon1, (if c =? 10 then outbuf_put mon 13 else Ret mon) = Ret mon1 /\ wrote mon1 (all ++ (if c =? 10 then [13] else [])) /\ outbuf_index mon1 < 1024) as (mon1 & -> & W1 & I1).
  { destruct (c =? 10); [|exists mon; rewrite app_nil_r; split; [done|split; [done|lia]]]. destruct (put_wrote _ _ 13 W) as (m & E & Wm & Im); [lia|]. exists m. split; [done|]. split; [done|lia]. }
  cbn [obind]. destruct (put_wrote _ _ c W1 I1) as (mon2 & -> & W2 & I2). cbn [obind].
  replace ((all ++ (if c =? 10 then [13] else [])) ++ [c]) with (all ++ crlf [c]) in W2 by (unfold crlf; cbn; destruct (Z.eqb_spec c 10) as [->|]; by rewrite <- ?app_assoc, ?app_nil_r).
  assert (exists mon3, (if (1024 - 1 <=? outbuf_index mon2) || (c =? 10) then monitor_flush mon2 else Ret mon2) = Ret mon3 /\ wrote mon3 (all ++ crlf [c]) /\ outbuf_index mon3 < 1023 /\
    (c = 10 -> concat (chr_written mon3) = all ++ crlf [c])) as (mon3 & -> & W3 & I3 & F3).
  { destruct (flush_wrote _ _ W2) as (m & E & Wm & Im & Fm). destruct (Z.leb_spec (1024 - 1) (outbuf_index mon2)); cbn [orb]; [exists m; split; [done|split; [done|split; [lia|done]]]|].
    destruct (Z.eqb_spec c 10); [exists m; split; [done|split; [done|split; [lia|done]]]|]. exists mon2. split; [done|]. split; [done|]. split; [lia|done]. }
  cbn [obind]. destruct (IH _ _ W3 I3) as (mon4 & E4 & W4 & I4 & F4). exists mon4. split; [done|]. assert ((all ++ crlf [c]) ++ crlf str = all ++ crlf (c :: str)) as Ec.
  { rewrite <- app_assoc. f_equal. unfold crlf. cbn. by rewrite app_nil_r. }
  rewrite <- Ec. split; [done|]. split; [done|]. destruct str as [|c' str]; [|by intros; apply F4]. cbn [last]. intros [= ->]. cbn in E4. injection E4 as <-. cbn. rewrite app_nil_r. by apply F3.
Qed.

(** ** Where it is lost *)
(** While the monitor is not in the foreground of a multiplexed device nothing is flushed, and
    output runs over the buffer. *)
Lemma muxed_output_overflows : monitor_puts (mkMon true (repeat 0 1024) 0 []) (repeat 97 1025) = Fault.
Proof. by vm_compute. Qed.

(** ** The line editor's output *)
Definition term_bytes (o : term) : list Z :=
  match o with CursorLeft => [27; 91; 68] | CursorRight => [27; 91; 67] | Text s => s | EraseEol => [27; 91; 75] | Newline => [10] | Prompt s => s end.
Fixpoint print_all (mon : Monitor) (l : list term) : res Monitor :=
  match l with [] => Ret mon | o :: l => let! mon := monitor_puts mon (term_bytes o) in print_all mon l end.
Theorem terminal_receives l mon all : wrote mon all -> outbuf_index mon < 1023 ->
  exists mon', (let! mon := print_all mon l in monitor_flush mon) = Ret mon' /\ concat (chr_written mon') = all ++ crlf (concat (map term_bytes l)).
Proof.
  revert mon all. induction l as [|o l IH]; intros mon all W Hi; cbn [print_all obind].
  - destruct (flush_wrote _ _ W) as (m & -> & _ & _ & F). exists m. cbn. by rewrite app_nil_r.
  - destruct (monitor_puts_delivers (term_bytes o) mon all W Hi) as (m & -> & W1 & I1 & _). cbn [obind]. destruct (IH _ _ W1 I1) as (m' & E & F). exists m'. split; [done|].
    rewrite F, <- app_assoc. f_equal. cbn [map concat]. unfold crlf. by rewrite bind_app.
Qed.
