(* ===== verification/PcTimer.v ===== *)
(** * The timer interrupt of the PC: hw/i8254.c wired to hw/i8259.c by hw/pc.c

    The line of channel 0 of the interval timer is line 0 of the interrupt controllers.
    The levels the timer puts on it in one expiry are passed on in order. *)

From S2P Require Import Prelude I8259 I8259Proofs PicLine I8254 I8254Proofs.
From stdpp Require Import list.

Open Scope Z_scope.

(** The timer of channel 0 expires; the -rtc-td-hack option is off. *)
Definition expire (pit : PITState) (i8259 : PicState2) : outcome hw_exn (PITState * PicState2) :=
  match pit_irq_timer false pit 0 with
  | Ret pit' =>
      Ret (pit', foldl (fun p l => isa_irq_handler p 0 l) i8259 (drop (length (irq_log pit)) (irq_log pit')))
  | _ => Fault
  end.

(** The CPU's part: the acknowledge cycle and a non-specific EOI. *)
Definition acknowledge (i8259 : PicState2) : outcome hw_exn (Z * PicState2) :=
  let '(i8259, intno) := pic_read_irq i8259 in
  let! i8259 := pic_ioport_write i8259 false 0 EOI in
  Ret (intno, i8259).

(** One period: other devices change their lines, the timer raises its line, the CPU
    serves the interrupt and the timer lowers its line.  The results are the calls the
    rising edge makes on the CPU's line, and the vector. *)
Definition period (others : list (Z * Z)) (pit : PITState) (i8259 : PicState2)
    : outcome hw_exn (list irq_call * Z * (PITState * PicState2)) :=
  let i8259 := bus_levels i8259 others in
  let! '(pit, up) := expire pit i8259 in
  let calls := drop (length (parent_irq i8259)) (parent_irq up) in
  let! '(intno, i8259) := acknowledge up in
  let! m := expire pit i8259 in
  Ret (calls, intno, m).

Fixpoint periods (others : list (list (Z * Z))) (pit : PITState) (i8259 : PicState2)
    : outcome hw_exn (list (list irq_call * Z)) :=
  match others with
  | [] => Ret []
  | o :: others =>
      let! '(calls, intno, (pit, i8259)) := period o pit i8259 in
      let! r := periods others pit i8259 in
      Ret ((calls, intno) :: r)
  end.

(** ** The timer's side *)
(** Channel 0 is a rate generator with count [c] whose timer is armed for a time, at most
    [lim], when [d] ticks have passed. *)
Definition armed_for (pit : PITState) (c d lim : Z) : Prop :=
  exists s, channels pit !! 0%nat = Some s /\ chan_wf s /\ mode s = 2 /\ count s = c /\ irq_timer s <> None /\
    time_ok s (next_transition_time s) /\ next_transition_time s <= lim /\ elapsed s (next_transition_time s) = d.

(** The tick a rate generator is armed for [d] ticks after the load. *)
Definition next_aim (c d : Z) : Z := rate_aim c d (out_at 2 c d).

Lemma elapsed_set_timer s n tm t : elapsed (set_timer s n tm) t = elapsed s t.
Proof. unfold elapsed. reflexivity. Qed.

Lemma expire_timer pit c d lim :
  armed_for pit c d lim -> 2 <= c -> 0 <= d -> lim + 2 ^ 27 < 2 ^ 62 -> next_aim c d mod 596591 <> 0 ->
  exists pit', pit_irq_timer false pit 0 = Ret pit' /\ irq_log pit' = irq_log pit ++ [out_at 2 c d] /\
    armed_for pit' c (next_aim c d - 1) (lim + 2 ^ 27).
Proof.
  intros (s & Es & Hw & Hm & Hc & Hi & Ht & Hl & Hd) H2 Hd0 Hlim Haim. unfold pit_irq_timer, pit_irq_timer_update, chan.
  change (0 <? 0) with false. change (Z.to_nat 0) with 0%nat. rewrite Es. cbn [oget obind].
  destruct (irq_timer s) as [tm|]; [|done]. generalize dependent (next_transition_time s). intros t Ht Hl Hd.
  pose proof (elapsed_bound s t Ht) as [Hb _]. pose proof (proj1 Hw) as Hcw.
  pose proof (next_ticks_rate s (elapsed s t) Hw Hm Hb) as E. rewrite Hd, Hc in E.
  destruct (rate_aim_spec c d (out_at 2 c d)) as (Hn1 & Hn2 & _); [lia|done|done|].
  destruct (fires_at s t (next_aim c d)) as (e & -> & He & Hel); rewrite ?Hd; [exact Ht|lia|exact E|exact Hn1|exact Hn2|exact Haim|].
  rewrite get_out1_at, Hm, Hc, Hd by done. cbn [obind andb]. eexists. split; [done|]. split; [done|].
  exists (set_timer s e (Some (if negb (e =? -1) then Some e else None))). cbn [channels set_chan].
  rewrite list_lookup_insert_eq by (by eapply lookup_lt_Some).
  split_and!; [done|exact Hw|done|done|done| |cbn; lia|by rewrite elapsed_set_timer].
  destruct Ht. split; cbn; lia.
Qed.

(** From the rising edge at tick [k * c] to the next one. *)
Lemma rise_aim c k : 2 <= c -> 1 <= k -> out_at 2 c (k * c) = 1 /\ next_aim c (k * c) = (k + 1) * c.
Proof.
  intros Hc Hk. unfold next_aim. assert (out_at 2 c (k * c) = 1) as ->.
  { unfold out_at. rewrite Z.mod_mul by lia. by rewrite (proj2 (Z.eqb_neq (k * c) 0)) by nia. }
  split; [done|]. unfold rate_aim. change (1 =? 1) with true. cbv iota. lia.
Qed.

Lemma fall_aim c k : 2 <= c -> 1 <= k ->
  out_at 2 c (k * c - 1) = 0 /\ next_aim c (k * c - 1) = k * c + 1.
Proof.
  intros Hc Hk. assert ((k * c - 1) / c = k - 1 /\ (k * c - 1) mod c = c - 1) as [Ed Em].
  { replace (k * c - 1) with ((k - 1) * c + (c - 1)) by lia. split.
    - rewrite Z.div_add_l by lia. rewrite Z.div_small by lia. lia.
    - rewrite Z.add_comm, Z.mod_add by lia. by apply Z.mod_small; lia. }
  unfold next_aim. assert (out_at 2 c (k * c - 1) = 0) as ->.
  { unfold out_at. rewrite Em. by rewrite (proj2 (Z.eqb_neq (c - 1) 0)) by lia. }
  split; [done|]. unfold rate_aim. change (0 =? 1) with false. cbv iota. rewrite Ed. lia.
Qed.

(** ** The controllers' side *)
(** At rest, with the timer's line low. *)
Definition ready (base : Z) (st : PicState2) : Prop := settled 0 base 0 st /\ high 0 st = false.

Lemma ready_others base st others :
  Forall (fun o => 0 < fst o) others -> ready base st -> ready base (bus_levels st others).
Proof.
  intros Ho [Hs Hh]. destruct (settled_others 0 ltac:(lia) base 0 others Ho st Hs) as (Hs' & _ & Hh'). split; [done|congruence].
Qed.

(** A rising edge reaches the CPU, which gets the vector and ends the service. *)
Lemma rise_serve base st : ready base st ->
  let up := isa_irq_handler st 0 1 in
  parent_irq up = parent_irq st ++ [IrqRaise] /\ exists st', acknowledge up = Ret (base, st') /\ settled 0 base 0 st'.
Proof.
  intros [Hs Hh] up. split; [by apply (rise 0 ltac:(lia) base)|].
  destruct (settled_level 0 ltac:(lia) base 0 st 1 Hs) as (Hs1 & Hr1 & _). rewrite Hh, orb_true_r in Hr1.
  destruct (serve 0 ltac:(lia) base _ Hs1 Hr1) as (st2 & E2 & Hs2 & _). unfold acknowledge. fold up in E2. rewrite E2.
  destruct (end_service 0 ltac:(lia) base _ Hs2) as (st3 & -> & Hs3 & _). cbn [obind]. rewrite Z.add_0_r. eauto.
Qed.

(** With the line low again, the controllers are ready for the next edge. *)
Lemma fall base st : settled 0 base 0 st -> ready base (isa_irq_handler st 0 0).
Proof. intros Hs. destruct (settled_level 0 ltac:(lia) base 0 st 0 Hs) as (Hs1 & _ & Hh1). by split. Qed.

(** ** Together *)
Lemma expire_ok pit st c d lim :
  armed_for pit c d lim -> 2 <= c -> 0 <= d -> lim + 2 ^ 27 < 2 ^ 62 -> next_aim c d mod 596591 <> 0 ->
  exists pit', expire pit st = Ret (pit', isa_irq_handler st 0 (out_at 2 c d)) /\
    armed_for pit' c (next_aim c d - 1) (lim + 2 ^ 27).
Proof.
  intros Ha Hc Hd Hl Hn. destruct (expire_timer pit c d lim Ha Hc Hd Hl Hn) as (pit' & E & Elog & Ha').
  exists pit'. split; [|done]. unfold expire. by rewrite E, Elog, drop_app_length.
Qed.

(** The rising edge [j] is not one the rounding to nanoseconds loses. *)
Definition edge_kept (c j : Z) : Prop := (j * c) mod 596591 <> 0 /\ (j * c + 1) mod 596591 <> 0.

Lemma period_ok others pit st c k lim base :
  armed_for pit c (k * c) lim -> 2 <= c -> 1 <= k -> lim + 2 ^ 28 < 2 ^ 62 -> edge_kept c (k + 1) ->
  ready base st -> Forall (fun o => 0 < fst o) others ->
  exists pit' st', period others pit st = Ret ([IrqRaise], base, (pit', st')) /\
    armed_for pit' c ((k + 1) * c) (lim + 2 ^ 28) /\ ready base st'.
Proof.
  change (2 ^ 28) with 268435456. change (2 ^ 62) with 4611686018427387904.
  intros Ha Hc Hk Hl [He1 He2] Hr Ho. unfold period. set (st1 := bus_levels st others).
  pose proof (ready_others base st others Ho Hr : ready base st1) as Hr1.
  destruct (rise_aim c k Hc Hk) as [Eo Ea].
  destruct (expire_ok pit st1 c (k * c) lim Ha Hc) as (p1 & -> & Hp1); [nia|lia|by rewrite Ea|]. cbn [obind].
  rewrite Eo. destruct (rise_serve base st1 Hr1) as (-> & st3 & -> & Hs3). rewrite drop_app_length. cbn [obind]. rewrite Ea in Hp1.
  destruct (fall_aim c (k + 1) Hc ltac:(lia)) as [Eo' Ea'].
  destruct (expire_ok p1 st3 c ((k + 1) * c - 1) (lim + 2 ^ 27) Hp1 Hc) as (p4 & -> & Hp4); [nia|lia|by rewrite Ea'|].
  cbn [obind]. rewrite Eo'. exists p4, (isa_irq_handler st3 0 0). split; [done|]. split; [|by apply fall].
  rewrite Ea' in Hp4. replace ((k + 1) * c + 1 - 1) with ((k + 1) * c) in Hp4 by lia.
  by replace (lim + 2 ^ 27 + 2 ^ 27) with (lim + 268435456) in Hp4 by lia.
Qed.

(** C22. The periodic interrupt of the PC: with channel 0 of the timer a rate generator armed for
    its [k]-th edge and the interrupt controllers at rest, each period raises the CPU's
    line exactly once by the timer, the acknowledge cycle yields the vector of line 0, and
    after the EOI and the falling edge everything is ready for the next one, whatever
    other devices do to their own lines in between: [n] periods bring [n] timer
    interrupts.  The edges must not be among those whose tick is a whole number of
    nanoseconds; the count is at least 2, and times are below 2^62 ns. *)
Theorem periodic_timer_interrupts (others : list (list (Z * Z))) pit st c k lim base :
  armed_for pit c (k * c) lim -> 2 <= c -> 1 <= k -> ready base st ->
  lim + Z.of_nat (length others) * 2 ^ 28 < 2 ^ 62 ->
  (forall j, k < j <= k + Z.of_nat (length others) -> edge_kept c j) ->
  Forall (Forall (fun o => 0 < fst o)) others ->
  periods others pit st = Ret (replicate (length others) ([IrqRaise], base)).
Proof.
  change (2 ^ 28) with 268435456. change (2 ^ 62) with 4611686018427387904.
  intros Ha Hc Hk Hr Hl He Ho. revert pit st k lim Ha Hk Hr Hl He.
  induction Ho as [|o others Ho Hos IH]; intros pit st k lim Ha Hk Hr Hl He; [done|]. cbn [length] in Hl, He. cbn [periods].
  destruct (period_ok o pit st c k lim base Ha Hc Hk) as (p1 & s1 & -> & Ha1 & Hr1);
    [change (2 ^ 28) with 268435456; change (2 ^ 62) with 4611686018427387904; lia|apply He; lia|done|done|].
  cbn [obind]. rewrite (IH p1 s1 (k + 1) (lim + 268435456) Ha1); [done|lia|done|lia|]. intros j Hj. apply He. lia.
Qed.

(** A machine after its firmware: the controllers with vectors from 8 on, channel 0 a rate
    generator with count 1000 from time 5 on. *)
Definition pic_booted : PicState2 :=
  match
    (let! st := pic_ioport_write (i8259_init false) false 0 0x11 in
     let! st := pic_ioport_write st false 1 8 in
     let! st := pic_ioport_write st false 1 4 in
     pic_ioport_write st false 1 1)
  with Ret st => st | _ => i8259_init false end.

Definition pit_booted : PITState :=
  match
    (let! pit := pit_init pit_zero in
     let! pit := pit_ioport_write false pit 3 0x34 (fun _ => 3) in
     let! pit := pit_ioport_write false pit 0 0xe8 (fun _ => 4) in
     pit_ioport_write false pit 0 0x03 (fun _ => 5))
  with Ret pit => pit | _ => pit_zero end.

Lemma periodic_timer_interrupts_witness :
  periods [[(1, 1)]; []; [(12, 1); (12, 0)]] pit_booted pic_booted =
  Ret [([IrqRaise], 8); ([IrqRaise], 8); ([IrqRaise], 8)].
Proof.
  apply (periodic_timer_interrupts [[(1, 1)]; []; [(12, 1); (12, 0)]] pit_booted pic_booted 1000 1 1000000 8).
  - eexists. split; [vm_compute; reflexivity|]. split_and!;
      [unfold chan_wf, is_u; cbn; lia|done|done|done|unfold time_ok; cbn; lia|cbn; lia|vm_compute; reflexivity].
  - lia.
  - lia.
  - split; [split; try (vm_compute; done); intros; lia|done].
  - vm_compute. done.
  - cbn [length]. intros j Hj. assert (j = 2 \/ j = 3 \/ j = 4) as [->|[->| ->]] by lia; split; vm_compute; done.
  - repeat constructor; cbn; lia.
Defined.
