(* ===== verification/Ring.v ===== *)
(** * Rings

    A ring buffer as the list it holds: [n] elements of [d] from position [r] on, around its
    end.  The queues of the keyboard, the mouse and the serial port are kept in one. *)

From S2P Require Import Prelude.
From stdpp Require Import list.

Open Scope Z_scope.

Definition ring (r n : nat) (d : list Z) : list Z := take n (drop r d ++ take r d).

Lemma ring_lookup r n d i :
  (r < length d)%nat -> (i < n)%nat -> (n <= length d)%nat -> ring r n d !! i = d !! ((r + i) mod length d)%nat.
Proof.
  intros Hr Hi Hn. unfold ring. rewrite lookup_take_lt by done.
  destruct (decide (r + i < length d)%nat) as [Hlt|Hge].
  - rewrite lookup_app_l by (rewrite length_drop; lia). rewrite lookup_drop, Nat.mod_small by done. done.
  - rewrite lookup_app_r by (rewrite length_drop; lia). rewrite length_drop, lookup_take_lt by lia.
    f_equal. apply (Nat.mod_unique _ _ 1); lia.
Qed.

Lemma length_ring r n d : (n <= length d)%nat -> (r <= length d)%nat -> length (ring r n d) = n.
Proof. intros. unfold ring. rewrite length_take, length_app, length_drop, length_take. lia. Qed.

Lemma ring_push r n d b :
  (r < length d)%nat -> (n < length d)%nat ->
  ring r (S n) (<[((r + n) mod length d)%nat := b]> d) = ring r n d ++ [b].
Proof.
  intros Hr Hn. assert ((r + n) mod length d < length d)%nat as Hw by (apply Nat.mod_upper_bound; lia).
  apply (list_eq_same_length _ _ (S n)); [rewrite length_app, length_ring by lia; cbn; lia|by rewrite length_ring by (rewrite length_insert; lia)|].
  intros i x y Hi Hx Hy. rewrite ring_lookup in Hx by (rewrite ?length_insert; lia). rewrite length_insert in Hx.
  destruct (decide (i = n)) as [->|].
  - rewrite list_lookup_insert_eq in Hx by done. rewrite lookup_app_r in Hy by (rewrite length_ring; lia).
    rewrite length_ring, Nat.sub_diag in Hy by lia. cbn in Hy. congruence.
  - rewrite list_lookup_insert_ne in Hx.
    + rewrite lookup_app_l, ring_lookup in Hy by (rewrite ?length_ring; lia). congruence.
    + intros E. destruct (decide (r + n < length d)%nat); destruct (decide (r + i < length d)%nat).
      * rewrite !Nat.mod_small in E by lia. lia.
      * lia.
      * rewrite (Nat.mod_small (r + i)) in E by lia.
        rewrite <- (Nat.mod_unique (r + n) (length d) 1 (r + n - length d)) in E by lia. lia.
      * rewrite <- (Nat.mod_unique (r + n) (length d) 1 (r + n - length d)) in E by lia.
        rewrite <- (Nat.mod_unique (r + i) (length d) 1 (r + i - length d)) in E by lia. lia.
Qed.

Lemma ring_pop r n d :
  (r < length d)%nat -> (S n <= length d)%nat ->
  exists x, d !! r = Some x /\ ring r (S n) d = x :: ring (S r mod length d) n d.
Proof.
  intros Hr Hn. destruct (lookup_lt_is_Some_2 d r Hr) as [x Hx]. exists x. split; [done|].
  assert (S r mod length d < length d)%nat as Hw by (apply Nat.mod_upper_bound; lia).
  apply (list_eq_same_length _ _ (S n)); [cbn; rewrite length_ring by lia; lia|by rewrite length_ring by lia|].
  intros i a b Hi Ha Hb. rewrite ring_lookup in Ha by lia. destruct i as [|i]; cbn in Hb.
  - rewrite Nat.add_0_r, Nat.mod_small in Ha by done. congruence.
  - rewrite ring_lookup in Hb by lia. rewrite Nat.Div0.add_mod_idemp_l in Hb.
    replace (S r + i)%nat with (r + S i)%nat in Hb by lia. congruence.
Qed.

Lemma store_insert (d : list Z) p b : 0 <= p < Z.of_nat (length d) -> store d p [b] = Some (<[Z.to_nat p := b]> d).
Proof.
  intros H. rewrite store_ok by (cbn; lia). f_equal. rewrite insert_take_drop by lia. cbn [length app]. by rewrite Nat.add_1_r.
Qed.
