(* ===== verification/Ps2.v ===== *)
(** * The PS/2 keyboard and mouse: hw/ps2.c

    A device is a queue of bytes for the guest, kept in a ring, and the state of its command
    protocol.  The calls of [update_irq], code of the keyboard controller, are a log of
    levels.  An access outside the ring is a [Fault], and so is an overflow of the mouse's
    [int] deltas.  The loop of [ps2_mouse_event] that splits a large movement into packets
    takes fuel; running out of it is the exception [OutOfFuel].  Saving and loading the
    devices is not modelled. *)

From S2P Require Import Prelude.
From stdpp Require Import list.

Open Scope Z_scope.

(** ** Commands and replies *)
Definition KBD_CMD_SET_LEDS : Z := 0xed.
Definition KBD_CMD_ECHO : Z := 0xee.
Definition KBD_CMD_SCANCODE : Z := 0xf0.
Definition KBD_CMD_GET_ID : Z := 0xf2.
Definition KBD_CMD_SET_RATE : Z := 0xf3.
Definition KBD_CMD_ENABLE : Z := 0xf4.
Definition KBD_CMD_RESET_DISABLE : Z := 0xf5.
Definition KBD_CMD_RESET_ENABLE : Z := 0xf6.
Definition KBD_CMD_RESET : Z := 0xff.
Definition KBD_REPLY_POR : Z := 0xaa.
Definition KBD_REPLY_ID : Z := 0xab.
Definition KBD_REPLY_ACK : Z := 0xfa.
Definition KBD_REPLY_RESEND : Z := 0xfe.
Definition AUX_SET_SCALE11 : Z := 0xe6.
Definition AUX_SET_SCALE21 : Z := 0xe7.
Definition AUX_SET_RES : Z := 0xe8.
Definition AUX_GET_SCALE : Z := 0xe9.
Definition AUX_SET_STREAM : Z := 0xea.
Definition AUX_POLL : Z := 0xeb.
Definition AUX_RESET_WRAP : Z := 0xec.
Definition AUX_SET_WRAP : Z := 0xee.
Definition AUX_SET_REMOTE : Z := 0xf0.
Definition AUX_GET_TYPE : Z := 0xf2.
Definition AUX_SET_SAMPLE : Z := 0xf3.
Definition AUX_ENABLE_DEV : Z := 0xf4.
Definition AUX_DISABLE_DEV : Z := 0xf5.
Definition AUX_SET_DEFAULT : Z := 0xf6.
Definition AUX_RESET : Z := 0xff.
Definition AUX_ACK : Z := 0xfa.
Definition MOUSE_STATUS_REMOTE : Z := 0x40.
Definition MOUSE_STATUS_ENABLED : Z := 0x20.
Definition MOUSE_STATUS_SCALE21 : Z := 0x10.
Definition PS2_QUEUE_SIZE : Z := 256.

(** ** State *)
Record PS2Queue : Type := mkQueue { data : list Z; rptr : Z; wptr : Z; count : Z }.

(** [irqs] is the log of the levels passed to [update_irq]. *)
Record PS2State : Type := mkPs2 { queue : PS2Queue; write_cmd : Z; irqs : list Z }.

Record PS2KbdState : Type := mkKbd {
  kcommon : PS2State; scan_enabled : Z; translate : Z; scancode_set : Z
}.

Record PS2MouseState : Type := mkMouse {
  mcommon : PS2State;
  mouse_status : Z; mouse_resolution : Z; mouse_sample_rate : Z; mouse_wrap : Z;
  mouse_type : Z; mouse_detect_state : Z;
  mouse_dx : Z; mouse_dy : Z; mouse_dz : Z; mouse_buttons : Z
}.

Definition set_cmd (s : PS2State) (c : Z) : PS2State := mkPs2 (queue s) c (irqs s).
Definition set_kcommon (s : PS2KbdState) (c : PS2State) : PS2KbdState :=
  mkKbd c (scan_enabled s) (translate s) (scancode_set s).
Definition set_mcommon (s : PS2MouseState) (c : PS2State) : PS2MouseState :=
  mkMouse c (mouse_status s) (mouse_resolution s) (mouse_sample_rate s) (mouse_wrap s)
    (mouse_type s) (mouse_detect_state s) (mouse_dx s) (mouse_dy s) (mouse_dz s) (mouse_buttons s).
Definition set_status (s : PS2MouseState) (x : Z) : PS2MouseState :=
  mkMouse (mcommon s) x (mouse_resolution s) (mouse_sample_rate s) (mouse_wrap s)
    (mouse_type s) (mouse_detect_state s) (mouse_dx s) (mouse_dy s) (mouse_dz s) (mouse_buttons s).
Definition set_rates (s : PS2MouseState) (res rate : Z) : PS2MouseState :=
  mkMouse (mcommon s) (mouse_status s) res rate (mouse_wrap s)
    (mouse_type s) (mouse_detect_state s) (mouse_dx s) (mouse_dy s) (mouse_dz s) (mouse_buttons s).
Definition set_wrap (s : PS2MouseState) (x : Z) : PS2MouseState :=
  mkMouse (mcommon s) (mouse_status s) (mouse_resolution s) (mouse_sample_rate s) x
    (mouse_type s) (mouse_detect_state s) (mouse_dx s) (mouse_dy s) (mouse_dz s) (mouse_buttons s).
Definition set_type (s : PS2MouseState) (ty det : Z) : PS2MouseState :=
  mkMouse (mcommon s) (mouse_status s) (mouse_resolution s) (mouse_sample_rate s) (mouse_wrap s)
    ty det (mouse_dx s) (mouse_dy s) (mouse_dz s) (mouse_buttons s).
Definition set_deltas (s : PS2MouseState) (dx dy dz : Z) : PS2MouseState :=
  mkMouse (mcommon s) (mouse_status s) (mouse_resolution s) (mouse_sample_rate s) (mouse_wrap s)
    (mouse_type s) (mouse_detect_state s) dx dy dz (mouse_buttons s).
Definition set_buttons (s : PS2MouseState) (b : Z) : PS2MouseState :=
  mkMouse (mcommon s) (mouse_status s) (mouse_resolution s) (mouse_sample_rate s) (mouse_wrap s)
    (mouse_type s) (mouse_detect_state s) (mouse_dx s) (mouse_dy s) (mouse_dz s) b.

Definition ps2_raw_keycode : list Z :=
  [ 0;118; 22; 30; 38; 37; 46; 54; 61; 62; 70; 69; 78; 85;102; 13;
   21; 29; 36; 45; 44; 53; 60; 67; 68; 77; 84; 91; 90; 20; 28; 27;
   35; 43; 52; 51; 59; 66; 75; 76; 82; 14; 18; 93; 26; 34; 33; 42;
   50; 49; 58; 65; 73; 74; 89;124; 17; 41; 88;  5;  6;  4; 12;  3;
   11;  2; 10;  1;  9;119;126;108;117;125;123;107;115;116;121;105;
  114;122;112;113;127; 96; 97;120;  7; 15; 23; 31; 39; 47; 55; 63;
   71; 79; 86; 94;  8; 16; 24; 32; 40; 48; 56; 64; 72; 80; 87;111;
   19; 25; 57; 81; 83; 92; 95; 98; 99;100;101;103;104;106;109;110].

Inductive ps2_exn : Type := OutOfFuel.
Abbreviation res A := (outcome ps2_exn A).

(** ** The queue *)
(** The position behind [p] in the ring. *)
Definition advance (p : Z) : Z := if p + 1 =? PS2_QUEUE_SIZE then 0 else p + 1.

Definition ps2_queue (s : PS2State) (b : Z) : res PS2State :=
  let q := queue s in
  if PS2_QUEUE_SIZE <=? count q then Ret s
  else
    let! d := oget (store (data q) (wptr q) [u8 b]) in
    Ret (mkPs2 (mkQueue d (rptr q) (advance (wptr q)) (count q + 1)) (write_cmd s) (irqs s ++ [1])).

(** [q->data[i]]. *)
Definition at_index (q : PS2Queue) (i : Z) : res Z := if i <? 0 then Fault else oget (data q !! Z.to_nat i).

Definition ps2_read_data (s : PS2State) : res (Z * PS2State) :=
  let q := queue s in
  if count q =? 0 then
    let index := rptr q - 1 in
    let index := if index <? 0 then PS2_QUEUE_SIZE - 1 else index in
    let! val := at_index q index in
    Ret (val, s)
  else
    let! val := at_index q (rptr q) in
    let q := mkQueue (data q) (advance (rptr q)) (wptr q) (count q - 1) in
    Ret (val, mkPs2 q (write_cmd s) (irqs s ++ [0; Z.b2z (negb (count q =? 0))])).

(** ** The keyboard *)
Definition kqueue (s : PS2KbdState) (b : Z) : res PS2KbdState :=
  let! c := ps2_queue (kcommon s) b in Ret (set_kcommon s c).

Definition ps2_put_keycode (s : PS2KbdState) (keycode : Z) : res PS2KbdState :=
  if (translate s =? 0) && (keycode <? 0xe0) && (scancode_set s =? 2) then
    let! s := (if negb (Z.land keycode 0x80 =? 0) then kqueue s 0xf0 else Ret s) in
    let! keycode := oget (ps2_raw_keycode !! Z.to_nat (Z.land keycode 0x7f)) in
    kqueue s keycode
  else kqueue s keycode.

Definition ps2_reset_keyboard (s : PS2KbdState) : PS2KbdState := mkKbd (kcommon s) 1 (translate s) 2.
Definition set_scan (s : PS2KbdState) (e : Z) : PS2KbdState := mkKbd (kcommon s) e (translate s) (scancode_set s).
Definition kset_cmd (s : PS2KbdState) (c : Z) : PS2KbdState := set_kcommon s (set_cmd (kcommon s) c).

(** A command byte outside of a two-byte command. *)
Definition kbd_command (s : PS2KbdState) (val : Z) : res PS2KbdState :=
  if val =? 0x00 then kqueue s KBD_REPLY_ACK
  else if val =? 0x05 then kqueue s KBD_REPLY_RESEND
  else if val =? KBD_CMD_GET_ID then
    let! s := kqueue s KBD_REPLY_ACK in
    let! s := kqueue s KBD_REPLY_ID in
    kqueue s (if negb (translate s =? 0) then 0x41 else 0x83)
  else if val =? KBD_CMD_ECHO then kqueue s KBD_CMD_ECHO
  else if val =? KBD_CMD_ENABLE then kqueue (set_scan s 1) KBD_REPLY_ACK
  else if (val =? KBD_CMD_SCANCODE) || (val =? KBD_CMD_SET_LEDS) || (val =? KBD_CMD_SET_RATE) then
    kqueue (kset_cmd s val) KBD_REPLY_ACK
  else if val =? KBD_CMD_RESET_DISABLE then kqueue (set_scan (ps2_reset_keyboard s) 0) KBD_REPLY_ACK
  else if val =? KBD_CMD_RESET_ENABLE then kqueue (set_scan (ps2_reset_keyboard s) 1) KBD_REPLY_ACK
  else if val =? KBD_CMD_RESET then
    let! s := kqueue (ps2_reset_keyboard s) KBD_REPLY_ACK in
    kqueue s KBD_REPLY_POR
  else kqueue s KBD_REPLY_ACK.

Definition ps2_write_keyboard (s : PS2KbdState) (val : Z) : res PS2KbdState :=
  let cmd := write_cmd (kcommon s) in
  if cmd =? KBD_CMD_SCANCODE then
    let! s :=
      (if val =? 0 then
         if scancode_set s =? 1 then ps2_put_keycode s 0x43
         else if scancode_set s =? 2 then ps2_put_keycode s 0x41
         else if scancode_set s =? 3 then ps2_put_keycode s 0x3f
         else Ret s
       else
         let s := if (1 <=? val) && (val <=? 3) then mkKbd (kcommon s) (scan_enabled s) (translate s) val else s in
         kqueue s KBD_REPLY_ACK) in
    Ret (kset_cmd s (-1))
  else if (cmd =? KBD_CMD_SET_LEDS) || (cmd =? KBD_CMD_SET_RATE) then
    let! s := kqueue s KBD_REPLY_ACK in
    Ret (kset_cmd s (-1))
  else kbd_command s val.

Definition ps2_keyboard_set_translation (s : PS2KbdState) (mode : Z) : PS2KbdState :=
  mkKbd (kcommon s) (scan_enabled s) mode (scancode_set s).

(** ** The mouse *)
Definition mqueue (s : PS2MouseState) (b : Z) : res PS2MouseState :=
  let! c := ps2_queue (mcommon s) b in Ret (set_mcommon s c).

Definition clamp (lim z : Z) : Z := if lim <? z then lim else if z <? - lim then - lim else z.

Definition ps2_mouse_send_packet (s : PS2MouseState) : res PS2MouseState :=
  let dx1 := clamp 127 (mouse_dx s) in
  let dy1 := clamp 127 (mouse_dy s) in
  let dz1 := mouse_dz s in
  let b := Z.lor (Z.lor (Z.lor 0x08 (Z.shiftl (Z.b2z (dx1 <? 0)) 4)) (Z.shiftl (Z.b2z (dy1 <? 0)) 5))
             (Z.land (mouse_buttons s) 0x07) in
  let! s := mqueue s b in
  let! s := mqueue s (Z.land dx1 0xff) in
  let! s := mqueue s (Z.land dy1 0xff) in
  let! '(dz1, s) :=
    (if mouse_type s =? 3 then
       let dz1 := clamp 127 dz1 in
       let! s := mqueue s (Z.land dz1 0xff) in Ret (dz1, s)
     else if mouse_type s =? 4 then
       let dz1 := clamp 7 dz1 in
       let! s := mqueue s (Z.lor (Z.land dz1 0x0f) (Z.shiftl (Z.land (mouse_buttons s) 0x18) 1)) in Ret (dz1, s)
     else Ret (dz1, s)) in
  Ret (set_deltas s (mouse_dx s - dx1) (mouse_dy s - dy1) (mouse_dz s - dz1)).

Definition at_rest (s : PS2MouseState) : bool := (mouse_dx s =? 0) && (mouse_dy s =? 0) && (mouse_dz s =? 0).

(** The loop of [ps2_mouse_event]. *)
Fixpoint send_packets (fuel : nat) (s : PS2MouseState) : res PS2MouseState :=
  match fuel with
  | O => Throw OutOfFuel
  | S fuel =>
      let! s := ps2_mouse_send_packet s in
      if at_rest s then Ret s else send_packets fuel s
  end.

Definition ps2_mouse_event (fuel : nat) (s : PS2MouseState) (dx dy dz buttons_state : Z) : res PS2MouseState :=
  if Z.land (mouse_status s) MOUSE_STATUS_ENABLED =? 0 then Ret s
  else
    let! x := cadd (mouse_dx s) dx in
    let! y := csub (mouse_dy s) dy in
    let! z := cadd (mouse_dz s) dz in
    let s := set_deltas s x y z in
    if at_rest s && (mouse_buttons s =? buttons_state) then Ret s
    else
      let s := set_buttons s (u8 buttons_state) in
      if (Z.land (mouse_status s) MOUSE_STATUS_REMOTE =? 0) && (count (queue (mcommon s)) <? PS2_QUEUE_SIZE - 16)
      then send_packets fuel s
      else Ret s.

Definition ps2_mouse_fake_event (fuel : nat) (s : PS2MouseState) : res PS2MouseState := ps2_mouse_event fuel s 1 0 0 0.

Definition mset_cmd (s : PS2MouseState) (c : Z) : PS2MouseState := set_mcommon s (set_cmd (mcommon s) c).
Definition mask_status (s : PS2MouseState) (bit : Z) (on : bool) : PS2MouseState :=
  set_status s (u8 (if on then Z.lor (mouse_status s) bit else Z.land (mouse_status s) (Z.lnot bit))).

(** The commands, outside of wrap mode. *)
Definition mouse_command (s : PS2MouseState) (val : Z) : res PS2MouseState :=
  if val =? AUX_SET_SCALE11 then mqueue (mask_status s MOUSE_STATUS_SCALE21 false) AUX_ACK
  else if val =? AUX_SET_SCALE21 then mqueue (mask_status s MOUSE_STATUS_SCALE21 true) AUX_ACK
  else if val =? AUX_SET_STREAM then mqueue (mask_status s MOUSE_STATUS_REMOTE false) AUX_ACK
  else if val =? AUX_SET_WRAP then mqueue (set_wrap s 1) AUX_ACK
  else if val =? AUX_SET_REMOTE then mqueue (mask_status s MOUSE_STATUS_REMOTE true) AUX_ACK
  else if val =? AUX_GET_TYPE then
    let! s := mqueue s AUX_ACK in
    mqueue s (mouse_type s)
  else if (val =? AUX_SET_RES) || (val =? AUX_SET_SAMPLE) then mqueue (mset_cmd s val) AUX_ACK
  else if val =? AUX_GET_SCALE then
    let! s := mqueue s AUX_ACK in
    let! s := mqueue s (mouse_status s) in
    let! s := mqueue s (mouse_resolution s) in
    mqueue s (mouse_sample_rate s)
  else if val =? AUX_POLL then
    let! s := mqueue s AUX_ACK in
    ps2_mouse_send_packet s
  else if val =? AUX_ENABLE_DEV then mqueue (mask_status s MOUSE_STATUS_ENABLED true) AUX_ACK
  else if val =? AUX_DISABLE_DEV then mqueue (mask_status s MOUSE_STATUS_ENABLED false) AUX_ACK
  else if val =? AUX_SET_DEFAULT then mqueue (set_status (set_rates s 2 100) 0) AUX_ACK
  else if val =? AUX_RESET then
    let s := set_type (set_status (set_rates s 2 100) 0) 0 (mouse_detect_state s) in
    let! s := mqueue s AUX_ACK in
    let! s := mqueue s 0xaa in
    mqueue s (mouse_type s)
  else Ret s.

(** The detection of the wheel protocols by the sample rates. *)
Definition detect (s : PS2MouseState) (val : Z) : PS2MouseState :=
  match mouse_detect_state s with
  | 1 => set_type s (mouse_type s) (if val =? 100 then 2 else if val =? 200 then 3 else 0)
  | 2 => set_type s (if val =? 80 then 3 else mouse_type s) 0
  | 3 => set_type s (if val =? 80 then 4 else mouse_type s) 0
  | _ => if val =? 200 then set_type s (mouse_type s) 1 else s
  end.

Definition ps2_write_mouse (s : PS2MouseState) (val : Z) : res PS2MouseState :=
  let cmd := write_cmd (mcommon s) in
  if cmd =? AUX_SET_SAMPLE then
    let! s := mqueue (detect (set_rates s (mouse_resolution s) (u8 val)) val) AUX_ACK in
    Ret (mset_cmd s (-1))
  else if cmd =? AUX_SET_RES then
    let! s := mqueue (set_rates s (u8 val) (mouse_sample_rate s)) AUX_ACK in
    Ret (mset_cmd s (-1))
  else if negb (mouse_wrap s =? 0) && (val =? AUX_RESET_WRAP) then mqueue (set_wrap s 0) AUX_ACK
  else if negb (mouse_wrap s =? 0) && negb (val =? AUX_RESET) then mqueue s val
  else mouse_command s val.

(** ** Reset and creation *)
Definition ps2_common_reset (s : PS2State) : PS2State :=
  mkPs2 (mkQueue (data (queue s)) 0 0 0) (-1) (irqs s ++ [0]).

Definition ps2_kbd_reset (s : PS2KbdState) : PS2KbdState := mkKbd (ps2_common_reset (kcommon s)) 0 0 0.
Definition ps2_mouse_reset (s : PS2MouseState) : PS2MouseState :=
  mkMouse (ps2_common_reset (mcommon s)) 0 0 0 0 0 0 0 0 0 0.

(** The memory of a new device is zero. *)
Definition ps2_zero : PS2State := mkPs2 (mkQueue (replicate 256 0) 0 0 0) 0 [].
Definition ps2_kbd_init : PS2KbdState := mkKbd ps2_zero 0 0 2.
Definition ps2_mouse_init : PS2MouseState := mkMouse ps2_zero 0 0 0 0 0 0 0 0 0 0.
