(* ===== verification/Ps2Proofs.v ===== *)
(** * The PS/2 devices: what they compute

    The ring as a bounded queue; the answers to commands; the guest's view of the keyboard,
    which decodes to the keys pressed, and of the mouse, whose packets add up to the
    movement; the two devices in every reachable state. *)

From S2P Require Import Prelude Ring Ps2.
From stdpp Require Import list.

Open Scope Z_scope.

(** ** The devices' queues *)
Record queue_wf (s : PS2State) : Prop := {
  qw_data : length (data (queue s)) = 256%nat; qw_rptr : 0 <= rptr (queue s) < 256; qw_count : 0 <= count (queue s) <= 256;
  qw_wptr : wptr (queue s) = (rptr (queue s) + count (queue s)) mod 256;
  qw_bytes : Forall is_byte (data (queue s));
  qw_irq : default 0 (last (irqs s)) = Z.b2z (negb (count (queue s) =? 0))
}.

(** The bytes the guest has not read yet. *)
Definition contents (s : PS2State) : list Z :=
  ring (Z.to_nat (rptr (queue s))) (Z.to_nat (count (queue s))) (data (queue s)).

Lemma contents_length s : queue_wf s -> Z.of_nat (length (contents s)) = count (queue s).
Proof. intros []. unfold contents. rewrite length_ring by lia. lia. Qed.

Lemma advance_mod p : 0 <= p < 256 -> advance p = (p + 1) mod 256.
Proof.
  intros H. unfold advance, PS2_QUEUE_SIZE. destruct (Z.eqb_spec (p + 1) 256) as [->|]; [done|].
  by rewrite Z.mod_small by lia.
Qed.

(** Bytes offered to a queue of 256: those that find no room are dropped. *)
Definition offer (l bs : list Z) : list Z := take 256 (l ++ bs).

Lemma offer_offer l a b : offer (offer l a) b = offer l (a ++ b).
Proof.
  unfold offer. rewrite app_assoc. generalize (l ++ a). intros m. destruct (decide (length m <= 256)%nat).
  - by rewrite (take_ge m) by done.
  - rewrite !take_app_le by (rewrite ?length_take; lia). by rewrite take_take.
Qed.

Lemma offer_nil l : (length l <= 256)%nat -> offer l [] = l.
Proof. intros. unfold offer. rewrite app_nil_r. by apply take_ge. Qed.

Lemma offer_fits l bs : (length l + length bs <= 256)%nat -> offer l bs = l ++ bs.
Proof. intros. unfold offer. apply take_ge. rewrite length_app. lia. Qed.

(** The byte in front of the read position, and that it stays there while bytes are queued,
    unless they fill the ring; the log of the interrupt line goes on. *)
Definition before (s : PS2State) : option Z := data (queue s) !! Z.to_nat ((rptr (queue s) - 1) mod 256).
Definition onward (s s' : PS2State) : Prop :=
  irqs s `prefix_of` irqs s' /\ count (queue s) <= count (queue s') /\ (count (queue s') < 256 -> before s' = before s).

#[global] Instance onward_preorder : PreOrder onward.
Proof.
  split.
  - intros s. by split_and!.
  - intros s1 s2 s3 (H1 & H2 & H3) (H4 & H5 & H6). split_and!; [by trans (irqs s2)|lia|]. intros Hc. rewrite H6, H3 by lia. done.
Qed.

(** [s'] is [s] after the bytes [bs] were offered to it, the command in progress kept. *)
Definition queued (bs : list Z) (s s' : PS2State) : Prop :=
  queue_wf s' /\ contents s' = offer (contents s) bs /\ write_cmd s' = write_cmd s /\ onward s s'.

Lemma queued_nil s : queue_wf s -> queued [] s s.
Proof. intros H. split_and!; [done| |done|done]. pose proof (contents_length s H). destruct H. by rewrite offer_nil by lia. Qed.

Lemma queued_trans a b s1 s2 s3 : queued a s1 s2 -> queued b s2 s3 -> queued (a ++ b) s1 s3.
Proof.
  intros (_ & H1 & H2 & H6) (H3 & H4 & H5 & H7). split_and!; [done|by rewrite H4, H1, offer_offer|congruence|by trans s2].
Qed.

Lemma ps2_queue_spec s b : queue_wf s -> exists s', ps2_queue s b = Ret s' /\ queued [u8 b] s s'.
Proof.
  intros Hw. pose proof (contents_length s Hw) as Hlen. pose proof Hw as [Hd Hr Hc Hwp Hb _].
  unfold ps2_queue, PS2_QUEUE_SIZE. destruct (Z.leb_spec 256 (count (queue s))) as [Hfull|Hroom].
  { exists s. split; [done|]. split_and!; [done| |done|done]. unfold offer. by rewrite take_app_length' by lia. }
  pose proof (Z.mod_pos_bound (rptr (queue s) + count (queue s)) 256 ltac:(lia)) as Hm. rewrite <- Hwp in Hm.
  rewrite store_insert by lia. cbn [oget obind]. eexists. split; [done|]. split_and!; [|unfold contents; cbn|done|].
  3: { split_and!; [by apply prefix_app_r|cbn; lia|]. unfold before. cbn. intros Hc1. rewrite list_lookup_insert_ne; [done|].
       pose proof (Z.mod_pos_bound (rptr (queue s) - 1) 256 ltac:(lia)). intros E. apply Z2Nat.inj in E; [|lia|lia].
       rewrite Hwp in E. apply (f_equal (fun z => (z - rptr (queue s) + 1) mod 256)) in E.
       revert E. rewrite <- !Z.add_sub_swap, <- !Z.add_sub_assoc, !Zplus_mod_idemp_l.
       replace (rptr (queue s) + count (queue s) + (1 - rptr (queue s))) with (count (queue s) + 1) by lia.
       replace (rptr (queue s) - 1 + (1 - rptr (queue s))) with 0 by lia. rewrite !Z.mod_small by lia. lia. }
  - split; cbn [queue data rptr wptr count irqs]; [by rewrite length_insert|lia|lia| | |].
    + rewrite advance_mod, Hwp by lia. rewrite Zplus_mod_idemp_l. f_equal. lia.
    + apply Forall_insert; [done|]. apply wrap_range. lia.
    + rewrite last_snoc. by rewrite (proj2 (Z.eqb_neq (count (queue s) + 1) 0)) by lia.
  - replace (Z.to_nat (count (queue s) + 1)) with (S (Z.to_nat (count (queue s)))) by lia.
    replace (Z.to_nat (wptr (queue s))) with ((Z.to_nat (rptr (queue s)) + Z.to_nat (count (queue s))) mod length (data (queue s)))%nat
      by (rewrite Hd, Hwp, <- Z2Nat.inj_add, Z2Nat.inj_mod by lia; done).
    rewrite ring_push by lia. rewrite offer_fits; [done|]. fold (contents s). cbn. lia.
Qed.

(** Reading takes the first byte; with nothing to read the last one is read again. *)
Lemma ps2_read_spec s : queue_wf s ->
  exists v s', ps2_read_data s = Ret (v, s') /\ is_byte v /\ queue_wf s' /\ write_cmd s' = write_cmd s /\ irqs s `prefix_of` irqs s' /\
    match contents s with [] => s' = s | x :: l => v = x /\ contents s' = l end.
Proof.
  intros Hw. pose proof (contents_length s Hw) as Hlen. pose proof Hw as [Hd Hr Hc Hwp Hb _]. unfold ps2_read_data.
  assert (forall i, 0 <= i < 256 -> exists x, at_index (queue s) i = Ret x /\ data (queue s) !! Z.to_nat i = Some x /\ is_byte x) as Hat.
  { intros i Hi. unfold at_index. rewrite (proj2 (Z.ltb_ge i 0)) by lia.
    destruct (lookup_lt_is_Some_2 (data (queue s)) (Z.to_nat i)) as [x Hx]; [lia|]. exists x. rewrite Hx.
    split_and!; [done|done|]. rewrite Forall_forall in Hb. apply Hb. by eapply list_elem_of_lookup_2. }
  destruct (Z.eqb_spec (count (queue s)) 0) as [E|E].
  - destruct (Hat (if rptr (queue s) - 1 <? 0 then PS2_QUEUE_SIZE - 1 else rptr (queue s) - 1)) as (x & -> & _ & Hx).
    { unfold PS2_QUEUE_SIZE. destruct (Z.ltb_spec (rptr (queue s) - 1) 0); lia. }
    cbn [obind]. exists x, s. split_and!; [done..|]. destruct (contents s); [done|]. cbn in Hlen. lia.
  - destruct (Hat (rptr (queue s)) Hr) as (x & -> & Ex & Hx). cbn [obind]. eexists _, _. split; [done|].
    destruct (ring_pop (Z.to_nat (rptr (queue s))) (Z.to_nat (count (queue s) - 1)) (data (queue s))) as (y & Ey & Er); [lia..|].
    replace (S (Z.to_nat (count (queue s) - 1))) with (Z.to_nat (count (queue s))) in Er by lia.
    unfold contents in *. rewrite Er. assert (y = x) as -> by congruence.
    split_and!; [done| |done|by apply prefix_app_r|done|]; cbn [queue data rptr wptr count irqs].
    + split; cbn [queue data rptr wptr count irqs]; [done| |lia| |done|].
      * rewrite advance_mod by done. apply Z.mod_pos_bound. lia.
      * rewrite advance_mod, Zplus_mod_idemp_l, Hwp by done. f_equal. lia.
      * by rewrite last_app.
    + f_equal. rewrite advance_mod, Hd by done. rewrite Z2Nat.inj_mod, Z2Nat.inj_add by lia. f_equal. lia.
Qed.

(** The byte a read returns is the one in front of the read position after it. *)
Lemma ps2_read_before s v s' : queue_wf s -> ps2_read_data s = Ret (v, s') -> before s' = Some v.
Proof.
  intros [Hd Hr Hc Hwp Hb _]. unfold ps2_read_data, at_index, before, PS2_QUEUE_SIZE.
  destruct (count (queue s) =? 0).
  - assert ((if rptr (queue s) - 1 <? 0 then 256 - 1 else rptr (queue s) - 1) = (rptr (queue s) - 1) mod 256) as ->.
    { destruct (Z.ltb_spec (rptr (queue s) - 1) 0) as [Hn|Hn]; [|by rewrite Z.mod_small by lia].
      replace (rptr (queue s)) with 0 by lia. done. }
    pose proof (Z.mod_pos_bound (rptr (queue s) - 1) 256 ltac:(lia)). rewrite (proj2 (Z.ltb_ge _ 0)) by lia.
    destruct (_ !! _) as [x|] eqn:E; [|done]. cbn. intros [= <- <-]. done.
  - rewrite (proj2 (Z.ltb_ge _ 0)) by lia. destruct (_ !! _) as [x|] eqn:E; [|done]. cbn. intros [= <- <-]. cbn.
    rewrite advance_mod by done. rewrite Zminus_mod_idemp_l, Z.add_simpl_r, Z.mod_small by lia. done.
Qed.

(** ** The keyboard's operations on its queue *)
Lemma kqueue_spec s b : queue_wf (kcommon s) ->
  exists s', kqueue s b = Ret s' /\ queued [u8 b] (kcommon s) (kcommon s') /\
    scan_enabled s' = scan_enabled s /\ translate s' = translate s /\ scancode_set s' = scancode_set s.
Proof.
  intros Hw. unfold kqueue. destruct (ps2_queue_spec (kcommon s) b Hw) as (c & -> & Hq). cbn [obind].
  eexists. split; [done|]. done.
Qed.

(** The bytes sent for a keycode. *)
Definition raw_of (k : Z) : Z := default 0 (ps2_raw_keycode !! Z.to_nat (Z.land k 0x7f)).
Definition key_bytes (raw : bool) (k : Z) : list Z :=
  if raw && (k <? 0xe0) then (if negb (Z.land k 0x80 =? 0) then [0xf0] else []) ++ [raw_of k] else [u8 k].
Definition raw_mode (s : PS2KbdState) : bool := (translate s =? 0) && (scancode_set s =? 2).

Lemma raw_keycode_range : forallb (fun c => (0 <=? c) && (c <? 128)) ps2_raw_keycode = true.
Proof. reflexivity. Qed.

Lemma land_7f k : 0 <= Z.land k 0x7f < 128.
Proof. change 0x7f with (Z.ones 7). rewrite Z.land_ones by lia. apply Z.mod_pos_bound. lia. Qed.

Lemma raw_of_spec k : ps2_raw_keycode !! Z.to_nat (Z.land k 0x7f) = Some (raw_of k) /\ 0 <= raw_of k < 128.
Proof.
  pose proof (land_7f k). destruct (lookup_lt_is_Some_2 ps2_raw_keycode (Z.to_nat (Z.land k 0x7f))) as [c Hc].
  { change (length ps2_raw_keycode) with 128%nat. lia. }
  unfold raw_of. rewrite Hc. split; [done|]. cbn [default]. pose proof raw_keycode_range as Hr.
  rewrite forallb_forall in Hr. specialize (Hr c). rewrite <- list_elem_of_In in Hr.
  apply list_elem_of_lookup_2 in Hc. specialize (Hr Hc).
  apply andb_true_iff in Hr as [?%Z.leb_le ?%Z.ltb_lt]. unfold id. lia.
Qed.

Lemma put_keycode_spec s k : queue_wf (kcommon s) ->
  exists s', ps2_put_keycode s k = Ret s' /\ queued (key_bytes (raw_mode s) k) (kcommon s) (kcommon s') /\
    scan_enabled s' = scan_enabled s /\ translate s' = translate s /\ scancode_set s' = scancode_set s.
Proof.
  intros Hw. unfold ps2_put_keycode, key_bytes, raw_mode. destruct (raw_of_spec k) as [-> Hr].
  assert (u8 (raw_of k) = raw_of k) as Eu by (apply wrap_small; unfold is_u; lia).
  destruct (translate s =? 0), (scancode_set s =? 2), (k <? 0xe0); cbn [andb]; try by apply kqueue_spec.
  destruct (negb (Z.land k 0x80 =? 0)); cbn [obind oget].
  - destruct (kqueue_spec s 0xf0 Hw) as (s1 & -> & Hq1 & H1 & H2 & H3). cbn [obind].
    destruct (kqueue_spec s1 (raw_of k) (proj1 Hq1)) as (s2 & -> & Hq2 & H4 & H5 & H6). rewrite Eu in Hq2.
    exists s2. split; [done|]. split; [exact (queued_trans _ _ _ _ _ Hq1 Hq2)|]. split_and!; congruence.
  - destruct (kqueue_spec s (raw_of k) Hw) as (s2 & -> & Hq2 & ?). rewrite Eu in Hq2. eauto.
Qed.

(** The translation to raw codes is one to one, so the guest can undo it. *)
Definition key_of_raw (c : Z) : Z :=
  match list_find (fun x => x = c) ps2_raw_keycode with Some (i, _) => Z.of_nat i | None => 0 end.

Lemma key_of_raw_of k : key_of_raw (raw_of k) = Z.land k 0x7f.
Proof.
  pose proof (land_7f k) as Hk.
  pose proof (range_check (fun k => key_of_raw (raw_of k) =? k) 0 128 ltac:(vm_compute; reflexivity) (Z.land k 0x7f) ltac:(lia)) as H.
  cbv beta in H. apply Z.eqb_eq in H. rewrite <- H. f_equal. unfold raw_of. f_equal. f_equal. f_equal.
  rewrite <- Z.land_assoc. done.
Qed.

(** ** Answers to commands *)
(** The bytes [bs] were offered, whatever happened to the command in progress. *)
Definition answered (bs : list Z) (s s' : PS2State) : Prop :=
  queue_wf s' /\ contents s' = offer (contents s) bs /\ onward s s'.

Lemma queued_answered bs s s' : queued bs s s' -> answered bs s s'.
Proof. intros (H1 & H2 & _ & H3). by split_and!. Qed.

Lemma set_cmd_wf s c : queue_wf s -> queue_wf (set_cmd s c).
Proof. intros []. by split. Qed.

Lemma answered_cmd bs s s' c : answered bs s s' -> answered bs s (set_cmd s' c).
Proof. intros (H1 & H2 & H3). split_and!; [by apply set_cmd_wf|done|done]. Qed.

(** What a keyboard may answer to [val] while [cmd] is in progress. *)
Definition kbd_answer (cmd val : Z) (bs : list Z) : Prop :=
  (head bs = Some KBD_REPLY_ACK /\ (length bs <= 3)%nat) \/
  (val = KBD_CMD_ECHO /\ bs = [KBD_CMD_ECHO]) \/ (val = 0x05 /\ bs = [KBD_REPLY_RESEND]) \/
  (cmd = KBD_CMD_SCANCODE /\ val = 0 /\ (length bs <= 2)%nat).

Lemma key_bytes_length raw k : (length (key_bytes raw k) <= 2)%nat.
Proof. unfold key_bytes. destruct (raw && (k <? 0xe0)), (negb (Z.land k 0x80 =? 0)); cbn; lia. Qed.

Lemma kanswer1 s s0 b :
  queue_wf (kcommon s) -> queue (kcommon s) = queue (kcommon s0) -> irqs (kcommon s) = irqs (kcommon s0) ->
  translate s = translate s0 -> is_byte b ->
  exists s', kqueue s b = Ret s' /\ answered [b] (kcommon s0) (kcommon s') /\ translate s' = translate s0.
Proof.
  intros Hw Hc Hi Ht Hb. destruct (kqueue_spec s b Hw) as (s' & -> & Hq & _ & Ht' & _).
  rewrite wrap_small in Hq by done. apply queued_answered in Hq as (H1 & H2 & H3). unfold contents, onward, before in *. rewrite Hc in H2, H3. rewrite Hi in H3.
  exists s'. split; [done|]. split; [by split_and!|congruence].
Qed.

Lemma kanswer_more s s0 bs b :
  answered bs (kcommon s0) (kcommon s) -> translate s = translate s0 -> is_byte b ->
  exists s', kqueue s b = Ret s' /\ answered (bs ++ [b]) (kcommon s0) (kcommon s') /\ translate s' = translate s0.
Proof.
  intros (Hw & Hc & Hi) Ht Hb. destruct (kqueue_spec s b Hw) as (s' & -> & Hq & _ & Ht' & _).
  rewrite wrap_small in Hq by done. apply queued_answered in Hq as (H1 & H2 & H3). rewrite Hc, offer_offer in H2.
  exists s'. split; [done|]. split; [split_and!; [done|done|by trans (kcommon s)]|congruence].
Qed.

Ltac byte_const := unfold is_byte; vm_compute; intuition congruence.

(** Closes a branch that queues one reply. *)
Ltac ack1 s :=
  match goal with
  | |- exists s' bs, kqueue ?x ?b = Ret s' /\ _ =>
      let s1 := fresh "s1" in let E := fresh "E" in let Ha := fresh "Ha" in let Ht := fresh "Ht" in
      destruct (kanswer1 x s b) as (s1 & E & Ha & Ht); [by try apply set_cmd_wf|done|done|done|byte_const|];
      exists s1, [b]; split; [exact E|]; split; [exact Ha|]; split; [|exact Ht]
  end.

Lemma kbd_command_spec s val : queue_wf (kcommon s) ->
  exists s' bs, kbd_command s val = Ret s' /\ answered bs (kcommon s) (kcommon s') /\
    kbd_answer (-1) val bs /\ translate s' = translate s.
Proof.
  intros Hw. unfold kbd_command. repeat if_case; subst; try (ack1 s; unfold kbd_answer; cbn; auto with lia; fail).
  - destruct (kanswer1 s s KBD_REPLY_ACK) as (s1 & -> & Ha1 & Ht1); [done|done|done|done|byte_const|]. cbn [obind].
    destruct (kanswer_more s1 s _ KBD_REPLY_ID Ha1 Ht1) as (s2 & -> & Ha2 & Ht2); [byte_const|]. cbn [obind].
    destruct (kanswer_more s2 s _ (if negb (translate s2 =? 0) then 65 else 131) Ha2 Ht2) as (s3 & -> & Ha3 & Ht3);
      [destruct (negb _); byte_const|]. eexists _, _. split; [done|]. split; [exact Ha3|]. split; [|done]. left. cbn. auto with lia.
  - destruct (kanswer1 (ps2_reset_keyboard s) s KBD_REPLY_ACK) as (s1 & -> & Ha1 & Ht1); [done|done|done|done|byte_const|]. cbn [obind].
    destruct (kanswer_more s1 s _ KBD_REPLY_POR Ha1 Ht1) as (s2 & -> & Ha2 & Ht2); [byte_const|].
    eexists _, _. split; [done|]. split; [exact Ha2|]. split; [|done]. left. cbn. auto with lia.
Qed.

Lemma kbd_write_spec s val : queue_wf (kcommon s) ->
  exists s' bs, ps2_write_keyboard s val = Ret s' /\ answered bs (kcommon s) (kcommon s') /\
    kbd_answer (write_cmd (kcommon s)) val bs /\ translate s' = translate s.
Proof.
  intros Hw. unfold ps2_write_keyboard.
  assert (forall x, queue_wf (kcommon x) -> queue (kcommon x) = queue (kcommon s) ->
    irqs (kcommon x) = irqs (kcommon s) -> translate x = translate s ->
    exists s' bs, (let! s := kqueue x KBD_REPLY_ACK in Ret (kset_cmd s (-1))) = Ret s' /\
      answered bs (kcommon s) (kcommon s') /\ kbd_answer (write_cmd (kcommon s)) val bs /\ translate s' = translate s) as Hack.
  { intros x Hx Hc Hi Ht. destruct (kanswer1 x s KBD_REPLY_ACK Hx Hc Hi Ht) as (s1 & -> & Ha & Ht1); [byte_const|]. cbn [obind].
    eexists _, _. split; [done|]. split; [by apply answered_cmd|]. split; [|done]. left. cbn. auto with lia. }
  destruct (Z.eqb_spec (write_cmd (kcommon s)) KBD_CMD_SCANCODE) as [Ecmd|].
  - destruct (Z.eqb_spec val 0) as [->|].
    + assert (forall k, exists s' bs, (let! s := ps2_put_keycode s k in Ret (kset_cmd s (-1))) = Ret s' /\
        answered bs (kcommon s) (kcommon s') /\ kbd_answer (write_cmd (kcommon s)) 0 bs /\ translate s' = translate s) as Hput.
      { intros k. destruct (put_keycode_spec s k Hw) as (s1 & -> & Hq & _ & Ht & _). cbn [obind]. eexists _, _.
        split; [done|]. split; [by apply answered_cmd, queued_answered|]. split; [|done].
        right. right. right. split_and!; [done|done|apply key_bytes_length]. }
      repeat if_case; try apply Hput. cbn [obind]. exists (kset_cmd s (-1)), []. split; [done|].
      split; [apply (answered_cmd [] (kcommon s) (kcommon s)), queued_answered, queued_nil, Hw|]. split; [|done].
      right. right. right. cbn. auto with lia.
    + destruct ((1 <=? val) && (val <=? 3)); apply Hack; done.
  - destruct ((write_cmd (kcommon s) =? KBD_CMD_SET_LEDS) || (write_cmd (kcommon s) =? KBD_CMD_SET_RATE)); [by apply Hack|].
    destruct (kbd_command_spec s val Hw) as (s' & bs & -> & Ha & Hk & Ht). exists s', bs. split_and!; try done.
    destruct Hk as [?|[?|[?|[Hk _]]]]; [by left|right; by left|do 2 right; by left|]. discriminate Hk.
Qed.

(** ** What the guest makes of the keyboard's bytes *)
(** A guest's decoder for scancode set 2: 0xf0 announces a release, 0xe0 and above are
    prefixes, everything else is a key. *)
Fixpoint decode_keys (bs : list Z) : list Z :=
  match bs with
  | [] => []
  | b :: bs =>
      if b =? 0xf0 then
        match bs with
        | [] => []
        | c :: bs => Z.lor (key_of_raw c) 0x80 :: decode_keys bs
        end
      else if 0xe0 <=? b then b :: decode_keys bs
      else key_of_raw b :: decode_keys bs
  end.

(** Keys, releases of keys below 0x60, and the two prefixes. *)
Definition key_ok (k : Z) : Prop := 0 <= k < 0xe2.

Lemma byte_split k : 0 <= k < 0xe0 ->
  (Z.land k 0x80 = 0 /\ Z.land k 0x7f = k) \/ (Z.land k 0x80 <> 0 /\ Z.lor (Z.land k 0x7f) 0x80 = k).
Proof.
  intros Hk. pose proof (range_check (fun k =>
    ((Z.land k 0x80 =? 0) && (Z.land k 0x7f =? k)) || (negb (Z.land k 0x80 =? 0) && (Z.lor (Z.land k 0x7f) 0x80 =? k)))
    0 224 eq_refl k ltac:(lia)) as H. cbv beta in H.
  apply orb_true_iff in H as [H|H]; apply andb_true_iff in H as [H1 H2]; [left|right]; apply Z.eqb_eq in H2; split; try done.
  - by apply Z.eqb_eq.
  - by apply Z.eqb_neq, negb_true_iff.
Qed.

Lemma decode_key k bs : key_ok k -> decode_keys (key_bytes true k ++ bs) = k :: decode_keys bs.
Proof.
  intros Hk. unfold key_ok in Hk. unfold key_bytes. cbn [andb]. destruct (raw_of_spec k) as [_ Hr].
  destruct (Z.ltb_spec k 0xe0) as [Hlt|Hge].
  - destruct (byte_split k ltac:(lia)) as [[E1 E2]|[E1 E2]].
    + rewrite (proj2 (Z.eqb_eq _ _) E1). cbn [negb app decode_keys]. rewrite (proj2 (Z.eqb_neq (raw_of k) 0xf0)) by lia.
      rewrite (proj2 (Z.leb_gt 0xe0 (raw_of k))) by lia. by rewrite key_of_raw_of, E2.
    + rewrite (proj2 (Z.eqb_neq _ _) E1). cbn [negb app decode_keys]. change (0xf0 =? 0xf0) with true. cbv iota.
      by rewrite key_of_raw_of, E2.
  - cbn [app]. rewrite wrap_small by (unfold is_u; lia). cbn [decode_keys].
    rewrite (proj2 (Z.eqb_neq k 0xf0)), (proj2 (Z.leb_le 0xe0 k)) by lia. done.
Qed.

(** Key events and reads of the data port, in any order. *)
Inductive kev : Type := Key (k : Z) | Read.

Definition keys (evs : list kev) : list Z := omap (fun e => match e with Key k => Some k | Read => None end) evs.

(** The bytes read; a read that finds the queue empty yields no new byte. *)
Fixpoint kbd_session (s : PS2KbdState) (evs : list kev) : res (list Z * PS2KbdState) :=
  match evs with
  | [] => Ret ([], s)
  | Key k :: evs => let! s := ps2_put_keycode s k in kbd_session s evs
  | Read :: evs =>
      let fresh := negb (count (queue (kcommon s)) =? 0) in
      let! '(v, c) := ps2_read_data (kcommon s) in
      let! '(out, s) := kbd_session (set_kcommon s c) evs in
      Ret ((if fresh then [v] else []) ++ out, s)
  end.

(** With [n] bytes unread, there is room for two bytes at every key event. *)
Fixpoint roomy (raw : bool) (n : nat) (evs : list kev) : bool :=
  match evs with
  | [] => true
  | Key k :: evs => (n + 2 <=? 256)%nat && roomy raw (n + length (key_bytes raw k)) evs
  | Read :: evs => roomy raw (n - 1) evs
  end.

Lemma session_stream evs : forall s, queue_wf (kcommon s) -> roomy (raw_mode s) (length (contents (kcommon s))) evs = true ->
  exists out s', kbd_session s evs = Ret (out, s') /\ queue_wf (kcommon s') /\
    out ++ contents (kcommon s') = contents (kcommon s) ++ concat (map (key_bytes (raw_mode s)) (keys evs)).
Proof.
  induction evs as [|[k|] evs IH]; intros s Hw Hr; cbn [kbd_session].
  - eexists _, _. split; [done|]. split; [done|]. by rewrite app_nil_r.
  - cbn [roomy] in Hr. apply andb_true_iff in Hr as [Hroom Hr]. apply Nat.leb_le in Hroom.
    destruct (put_keycode_spec s k Hw) as (s1 & -> & (Hw1 & Hc1 & _) & _ & Ht & Hs). cbn [obind].
    pose proof (key_bytes_length (raw_mode s) k) as Hkl. rewrite offer_fits in Hc1 by lia.
    assert (raw_mode s1 = raw_mode s) as Hm by (unfold raw_mode; by rewrite Ht, Hs).
    destruct (IH s1 Hw1) as (out & s2 & -> & Hw2 & E); [by rewrite Hm, Hc1, length_app|].
    exists out, s2. split_and!; [done|done|]. rewrite E, Hc1, Hm. cbn [keys omap list_omap map concat]. by rewrite <- app_assoc.
  - cbn [roomy] in Hr. pose proof (contents_length _ Hw) as Hl.
    destruct (ps2_read_spec (kcommon s) Hw) as (v & c & -> & _ & Hw1 & _ & _ & Hm). cbn [obind].
    destruct (contents (kcommon s)) as [|x l] eqn:Ec.
    + subst c. rewrite (proj2 (Z.eqb_eq _ 0)) by (cbn in Hl; lia). cbn [negb].
      destruct (IH (set_kcommon s (kcommon s)) Hw1) as (out & s2 & -> & Hw2 & E); [cbn [kcommon set_kcommon]; rewrite Ec; exact Hr|].
      exists out, s2. split_and!; [done|done|]. rewrite E. cbn [kcommon set_kcommon]. by rewrite Ec.
    + destruct Hm as [-> Hc1]. rewrite (proj2 (Z.eqb_neq _ 0)) by (cbn in Hl; lia). cbn [negb].
      destruct (IH (set_kcommon s c) Hw1) as (out & s2 & -> & Hw2 & E).
      { cbn [kcommon set_kcommon]. rewrite Hc1. cbn [length] in Hr. by rewrite Nat.sub_1_r in Hr. }
      exists (x :: out), s2. split_and!; [done|done|]. cbn [app]. rewrite E. cbn [kcommon set_kcommon]. by rewrite Hc1.
Qed.

Lemma decode_stream ks : Forall key_ok ks -> decode_keys (concat (map (key_bytes true) ks)) = ks.
Proof. induction 1 as [|k ks Hk Hks IH]; [done|]. cbn [map concat]. by rewrite decode_key, IH. Qed.

(** Keys arrive: for a keyboard in raw set 2 with nothing unread, any interleaving of key
    events and reads by the guest that leaves room for two bytes at each key event returns, and the bytes the
    guest has read together with those still queued decode to exactly the key events, in
    order: the translation table is one to one and presses, releases and prefixes are not
    confused. *)
Theorem ps2_keys_arrive s evs :
  queue_wf (kcommon s) -> contents (kcommon s) = [] -> translate s = 0 -> scancode_set s = 2 ->
  Forall key_ok (keys evs) -> roomy true 0 evs = true ->
  exists out s', kbd_session s evs = Ret (out, s') /\ decode_keys (out ++ contents (kcommon s')) = keys evs.
Proof.
  intros Hw Hc Ht Hs Hk Hr. assert (raw_mode s = true) as Hm by (unfold raw_mode; by rewrite Ht, Hs).
  destruct (session_stream evs s Hw) as (out & s' & E & _ & Hd); [by rewrite Hm, Hc|].
  exists out, s'. split; [done|]. rewrite Hd, Hc, Hm. by apply decode_stream.
Qed.

Lemma ps2_zero_wf : queue_wf ps2_zero.
Proof. split; try done. cbn [ps2_zero queue data]. apply Forall_replicate. unfold is_byte. lia. Qed.

Lemma ps2_keys_arrive_witness :
  exists out s', kbd_session ps2_kbd_init [Key 0x1e; Read; Key 0x9e; Key 0xe0; Read; Key 0xcb; Read; Read] = Ret (out, s') /\
    decode_keys (out ++ contents (kcommon s')) = [0x1e; 0x9e; 0xe0; 0xcb].
Proof.
  apply (ps2_keys_arrive ps2_kbd_init [Key 0x1e; Read; Key 0x9e; Key 0xe0; Read; Key 0xcb; Read; Read]).
  - exact ps2_zero_wf.
  - reflexivity.
  - reflexivity.
  - reflexivity.
  - repeat constructor; cbn; unfold key_ok; lia.
  - reflexivity.
Defined.

(** Without room for both bytes of a release, only the announcement is queued: the next
    key pressed is then taken for a release. *)
Definition nearly_full : PS2KbdState :=
  mkKbd (mkPs2 (mkQueue (replicate 256 0x1c) 0 255 255) (-1) [1]) 1 0 2.

Lemma ps2_release_torn :
  exists s', ps2_put_keycode nearly_full 0x9e = Ret s' /\
    contents (kcommon s') = contents (kcommon nearly_full) ++ [0xf0].
Proof. eexists. split; vm_compute; reflexivity. Qed.

(** ** Mouse packets *)
Record packet : Type := mkPacket { px : Z; py : Z; pz : Z; pb : Z }.

Definition wheel (ty : Z) : bool := (ty =? 3) || (ty =? 4).
Definition zlimit (ty : Z) : Z := if ty =? 3 then 127 else 7.
Definition button_mask (ty : Z) : Z := if ty =? 4 then 0x1f else 0x07.

(** The bytes of a packet in the three protocols. *)
Definition encode (ty : Z) (p : packet) : list Z :=
  [Z.lor (Z.lor (Z.lor 0x08 (Z.shiftl (Z.b2z (px p <? 0)) 4)) (Z.shiftl (Z.b2z (py p <? 0)) 5)) (Z.land (pb p) 0x07);
   Z.land (px p) 0xff; Z.land (py p) 0xff] ++
  (if ty =? 3 then [Z.land (pz p) 0xff]
   else if ty =? 4 then [Z.lor (Z.land (pz p) 0x0f) (Z.shiftl (Z.land (pb p) 0x18) 1)]
   else []).

(** A guest's decoder: nine-bit deltas with their signs in the first byte, an eight-bit or
    four-bit wheel. *)
Definition signed (neg : bool) (v : Z) : Z := if neg then v - 256 else v.
Definition decode1 (ty b x y w : Z) : packet :=
  mkPacket (signed (Z.testbit b 4) x) (signed (Z.testbit b 5) y)
    (if ty =? 3 then signed (Z.testbit w 7) w
     else if ty =? 4 then (let n := Z.land w 0x0f in if Z.testbit n 3 then n - 16 else n) else 0)
    (Z.lor (Z.land b 0x07) (if ty =? 4 then Z.land (Z.shiftr w 1) 0x18 else 0)).

Fixpoint decode_packets (ty : Z) (bs : list Z) : option (list packet) :=
  match bs with
  | [] => Some []
  | b :: x :: y :: bs =>
      if wheel ty then
        match bs with
        | w :: bs => cons (decode1 ty b x y w) <$> decode_packets ty bs
        | [] => None
        end
      else cons (decode1 ty b x y 0) <$> decode_packets ty bs
  | _ => None
  end.

Definition packet_ok (ty : Z) (p : packet) : Prop :=
  -127 <= px p <= 127 /\ -127 <= py p <= 127 /\ (if wheel ty then - zlimit ty <= pz p <= zlimit ty else pz p = 0) /\
  0 <= pb p <= button_mask ty.

Lemma land_ff_mod z : Z.land z 0xff = z mod 256.
Proof. change 0xff with (Z.ones 8). by rewrite Z.land_ones by lia. Qed.

Lemma signed_byte z : -127 <= z <= 127 -> signed (z <? 0) (Z.land z 0xff) = z.
Proof.
  intros Hz. rewrite land_ff_mod. unfold signed. destruct (Z.ltb_spec z 0).
  - rewrite <- (Z.mod_add z 1 256), Z.mod_small by lia. lia.
  - by rewrite Z.mod_small by lia.
Qed.

(** The first byte, for every sign and button state. *)
Lemma head_byte (sx sy : bool) (b : Z) : 0 <= b <= 0x1f ->
  let h := Z.lor (Z.lor (Z.lor 0x08 (Z.shiftl (Z.b2z sx) 4)) (Z.shiftl (Z.b2z sy) 5)) (Z.land b 0x07) in
  Z.testbit h 4 = sx /\ Z.testbit h 5 = sy /\ Z.land h 0x07 = Z.land b 0x07 /\ is_byte h.
Proof.
  intros Hb h. pose proof (range_check (fun b =>
    let h := Z.lor (Z.lor (Z.lor 0x08 (Z.shiftl (Z.b2z sx) 4)) (Z.shiftl (Z.b2z sy) 5)) (Z.land b 0x07) in
    eqb (Z.testbit h 4) sx && eqb (Z.testbit h 5) sy && (Z.land h 0x07 =? Z.land b 0x07) && (0 <=? h) && (h <? 256))
    0 32 ltac:(destruct sx, sy; reflexivity) b ltac:(lia)) as H. cbv beta zeta in H. fold h in H.
  rewrite !andb_true_iff in H. destruct H as ((((H1 & H2) & H3) & H4) & H5).
  apply eqb_prop in H1, H2. apply Z.eqb_eq in H3. apply Z.leb_le in H4. apply Z.ltb_lt in H5. by split_and!.
Qed.

Lemma wheel_byte z : -127 <= z <= 127 ->
  signed (Z.testbit (Z.land z 0xff) 7) (Z.land z 0xff) = z /\ is_byte (Z.land z 0xff).
Proof.
  intros Hz. pose proof (range_check (fun z => (signed (Z.testbit (Z.land z 0xff) 7) (Z.land z 0xff) =? z) &&
    (0 <=? Z.land z 0xff) && (Z.land z 0xff <? 256)) (-127) 255 ltac:(vm_compute; reflexivity) z ltac:(lia)) as H. cbv beta in H.
  rewrite !andb_true_iff in H. destruct H as ((H1%Z.eqb_eq & H2%Z.leb_le) & H3%Z.ltb_lt). by split_and!.
Qed.

Lemma nibble_byte z b : -7 <= z <= 7 -> 0 <= b <= 0x1f ->
  let w := Z.lor (Z.land z 0x0f) (Z.shiftl (Z.land b 0x18) 1) in
  (let n := Z.land w 0x0f in if Z.testbit n 3 then n - 16 else n) = z /\
  Z.lor (Z.land b 0x07) (Z.land (Z.shiftr w 1) 0x18) = b /\ is_byte w.
Proof.
  intros Hz Hb w. pose proof (range_check (fun z => forallZ (fun b =>
    let w := Z.lor (Z.land z 0x0f) (Z.shiftl (Z.land b 0x18) 1) in
    ((let n := Z.land w 0x0f in if Z.testbit n 3 then n - 16 else n) =? z) &&
    (Z.lor (Z.land b 0x07) (Z.land (Z.shiftr w 1) 0x18) =? b) && (0 <=? w) && (w <? 256)) 0 (Z.to_nat 32))
    (-7) 15 ltac:(vm_compute; reflexivity) z ltac:(lia)) as H. cbv beta in H.
  apply (range_check _ 0 32) with (c := b) in H; [|lia]. cbv beta zeta in H. fold w in H.
  rewrite !andb_true_iff in H. destruct H as (((H1%Z.eqb_eq & H2%Z.eqb_eq) & H3%Z.leb_le) & H4%Z.ltb_lt). by split_and!.
Qed.

Lemma button_mask_le ty : button_mask ty <= 0x1f.
Proof. unfold button_mask. destruct (ty =? 4); lia. Qed.

Lemma low_buttons b : 0 <= b <= 7 -> Z.land b 0x07 = b.
Proof. intros. change 0x07 with (Z.ones 3). rewrite Z.land_ones by lia. by apply Z.mod_small; lia. Qed.

(** Decoding a packet gives it back. *)
Lemma decode_encode ty p bs : packet_ok ty p ->
  decode_packets ty (encode ty p ++ bs) = cons p <$> decode_packets ty bs /\ Forall is_byte (encode ty p).
Proof.
  intros (Hx & Hy & Hz & Hb). pose proof (button_mask_le ty) as Hm. destruct p as [x y z b]. cbn [px py pz pb] in *.
  destruct (head_byte (x <? 0) (y <? 0) b ltac:(lia)) as (H4 & H5 & H7 & Hh).
  destruct (wheel_byte x Hx) as [_ Hbx]. destruct (wheel_byte y Hy) as [_ Hby].
  unfold encode, wheel, zlimit, button_mask, decode1 in *. cbn [px py pz pb app] in *.
  set (h := Z.lor _ (Z.land b 7)) in *.
  destruct (Z.eqb_spec ty 3) as [->|H3]; [|destruct (Z.eqb_spec ty 4) as [->|Ht4]]; cbn [orb app decode_packets] in *.
  - change (3 =? 4) with false in Hb. cbv iota in Hb. destruct (wheel_byte z Hz) as [Ez Hbz].
    change (wheel 3) with true. cbv iota. split; [|by rewrite !Forall_cons, Forall_nil].
    unfold decode1. change (3 =? 3) with true. change (3 =? 4) with false. cbv iota.
    rewrite H4, H5, H7, Ez, !signed_byte, Z.lor_0_r by done.
    by rewrite low_buttons by lia.
  - change (4 =? 3) with false in *. cbv iota in Hb, Hz. destruct (nibble_byte z b Hz Hb) as (Ez & Eb & Hbw).
    set (w := Z.lor (Z.land z 15) _) in *. change (wheel 4) with true. cbv iota. split; [|by rewrite !Forall_cons, Forall_nil].
    unfold decode1. change (4 =? 3) with false. change (4 =? 4) with true. cbv iota.
    cbv zeta in Ez |- *. by rewrite H4, H5, H7, Ez, Eb, !signed_byte by done.
  - assert (wheel ty = false) as -> by (unfold wheel; by rewrite (proj2 (Z.eqb_neq ty 3)), (proj2 (Z.eqb_neq ty 4))).
    split; [|by rewrite !Forall_cons, Forall_nil]. unfold decode1. rewrite (proj2 (Z.eqb_neq ty 3)), (proj2 (Z.eqb_neq ty 4)) by done.
    rewrite H4, H5, H7, !signed_byte, Z.lor_0_r, low_buttons by (done || lia). by rewrite Hz.
Qed.

(** ** Splitting a movement into packets *)
Lemma mqueue_spec s b : queue_wf (mcommon s) -> is_byte b ->
  exists c, mqueue s b = Ret (set_mcommon s c) /\ queued [b] (mcommon s) c.
Proof.
  intros Hw Hb. unfold mqueue. destruct (ps2_queue_spec (mcommon s) b Hw) as (c & -> & Hq).
  rewrite wrap_small in Hq by done. cbn [obind]. by exists c.
Qed.

Lemma mqueue_more s c bs b : queued bs (mcommon s) c -> is_byte b ->
  exists c', mqueue (set_mcommon s c) b = Ret (set_mcommon s c') /\ queued (bs ++ [b]) (mcommon s) c'.
Proof.
  intros Hq Hb. destruct (mqueue_spec (set_mcommon s c) b (proj1 Hq) Hb) as (c' & -> & Hq').
  exists c'. split; [done|]. by apply (queued_trans _ _ _ c).
Qed.

(** The packet for the deltas of [s]. *)
Definition next_packet (s : PS2MouseState) : packet :=
  mkPacket (clamp 127 (mouse_dx s)) (clamp 127 (mouse_dy s))
    (if wheel (mouse_type s) then clamp (zlimit (mouse_type s)) (mouse_dz s) else 0)
    (Z.land (mouse_buttons s) (button_mask (mouse_type s))).

Lemma clamp_range lim z : 0 <= lim -> - lim <= clamp lim z <= lim.
Proof. intros. unfold clamp. destruct (Z.ltb_spec lim z); [lia|]. destruct (Z.ltb_spec z (- lim)); lia. Qed.

Lemma land_low z m n : 0 <= n -> m = Z.ones n -> 0 <= Z.land z m <= m.
Proof.
  intros Hn ->. rewrite Z.land_ones by done. pose proof (Z.mod_pos_bound z (2 ^ n) ltac:(lia)). rewrite Z.ones_equiv. lia.
Qed.

Lemma next_packet_ok s : packet_ok (mouse_type s) (next_packet s).
Proof.
  unfold packet_ok, next_packet. cbn [px py pz pb]. split; [apply (clamp_range 127); lia|]. split; [apply (clamp_range 127); lia|]. split.
  - destruct (wheel (mouse_type s)); [|done]. apply clamp_range. unfold zlimit. destruct (mouse_type s =? 3); lia.
  - unfold button_mask. destruct (mouse_type s =? 4); [apply (land_low _ _ 5)|apply (land_low _ _ 3)]; done.
Qed.

(** The deltas that remain after it. *)
Definition rest_of (s : PS2MouseState) : Z * Z * Z :=
  (mouse_dx s - clamp 127 (mouse_dx s), mouse_dy s - clamp 127 (mouse_dy s),
   if wheel (mouse_type s) then mouse_dz s - clamp (zlimit (mouse_type s)) (mouse_dz s) else 0).

Lemma land_mask z ty m : (m = 7 \/ (m = 24 /\ ty = 4)) -> Z.land (Z.land z (button_mask ty)) m = Z.land z m.
Proof. intros H. rewrite <- Z.land_assoc. f_equal. unfold button_mask. destruct H as [->|[-> ->]]; [by destruct (ty =? 4)|done]. Qed.

Lemma send_packet_spec s : queue_wf (mcommon s) ->
  exists c, ps2_mouse_send_packet s =
      Ret (let '(x, y, z) := rest_of s in set_deltas (set_mcommon s c) x y z) /\
    queued (encode (mouse_type s) (next_packet s)) (mcommon s) c.
Proof.
  intros Hw. pose proof (next_packet_ok s) as Hp. destruct (decode_encode _ _ [] Hp) as [_ Hb].
  unfold ps2_mouse_send_packet, rest_of, wheel, zlimit in *. unfold encode, next_packet, wheel, zlimit in *. cbn [px py pz pb] in *.
  rewrite land_mask in * by auto. cbn [app] in *. set (h := Z.lor _ (Z.land (mouse_buttons s) 7)) in *.
  apply Forall_cons in Hb as [Hb1 Hb]. apply Forall_cons in Hb as [Hb2 Hb]. apply Forall_cons in Hb as [Hb3 Hb].
  destruct (mqueue_spec s h Hw Hb1) as (c1 & -> & Q1). cbn [obind].
  destruct (mqueue_more s c1 _ _ Q1 Hb2) as (c2 & -> & Q2). cbn [obind].
  destruct (mqueue_more s c2 _ _ Q2 Hb3) as (c3 & -> & Q3). cbn [obind]. cbn [mouse_type set_mcommon mouse_buttons].
  destruct (Z.eqb_spec (mouse_type s) 3) as [E3|]; [|destruct (Z.eqb_spec (mouse_type s) 4) as [E4|]]; cbn [orb app] in *.
  - apply Forall_cons in Hb as [Hb4 _]. destruct (mqueue_more s c3 _ _ Q3 Hb4) as (c4 & -> & Q4). cbn [obind]. by exists c4.
  - rewrite E4, land_mask in * by auto. apply Forall_cons in Hb as [Hb4 _].
    destruct (mqueue_more s c3 _ _ Q3 Hb4) as (c4 & E & Q4). rewrite E. cbn [obind]. by exists c4.
  - cbn [obind]. exists c3. split; [|done]. cbn. by rewrite Z.sub_diag.
Qed.

(** The packets a movement takes. *)
Definition ceil (lim a : Z) : Z := (Z.abs a + lim - 1) / lim.
Definition rounds (ty x y z : Z) : Z :=
  Z.max (Z.max (ceil 127 x) (ceil 127 y)) (if wheel ty then ceil (zlimit ty) z else 0).

Lemma ceil_clamp lim a : 0 < lim -> ceil lim (a - clamp lim a) = Z.max 0 (ceil lim a - 1).
Proof.
  intros Hl. unfold ceil. assert (Z.abs a <= lim /\ a - clamp lim a = 0 \/ lim < Z.abs a /\ Z.abs (a - clamp lim a) = Z.abs a - lim)
    as [[Ha ->]|[Ha ->]].
  { unfold clamp. destruct (Z.ltb_spec lim a); [lia|]. destruct (Z.ltb_spec a (- lim)); lia. }
  - rewrite Z.div_small by lia. assert ((Z.abs a + lim - 1) / lim < 2) by (apply Z.div_lt_upper_bound; lia). lia.
  - replace (Z.abs a + lim - 1) with (Z.abs a - 1 + 1 * lim) by lia. rewrite Z.div_add by lia.
    replace (Z.abs a - lim + lim - 1) with (Z.abs a - 1) by lia.
    assert (0 <= (Z.abs a - 1) / lim) by (apply Z.div_pos; lia). lia.
Qed.

Lemma ceil_zero lim a : 0 < lim -> 0 <= ceil lim a /\ (ceil lim a = 0 -> a = 0).
Proof.
  intros Hl. unfold ceil. split; [apply Z.div_pos; lia|]. intros E. apply Z.div_small_iff in E; lia.
Qed.

Lemma zlimit_pos ty : 0 < zlimit ty.
Proof. unfold zlimit. destruct (ty =? 3); lia. Qed.

Lemma rounds_rest s : let '(x, y, z) := rest_of s in
  rounds (mouse_type s) x y z = Z.max 0 (rounds (mouse_type s) (mouse_dx s) (mouse_dy s) (mouse_dz s) - 1) /\
  (rounds (mouse_type s) x y z = 0 -> x = 0 /\ y = 0 /\ z = 0).
Proof.
  unfold rest_of, rounds. pose proof (zlimit_pos (mouse_type s)) as Hz.
  destruct (wheel (mouse_type s)); rewrite !ceil_clamp by lia; (split; [lia|]); intros E;
    split_and!; try reflexivity; (apply (ceil_zero 127); [lia|]; rewrite ceil_clamp by lia; lia) ||
    (apply (ceil_zero (zlimit (mouse_type s))); [lia|]; rewrite ceil_clamp by lia; lia).
Qed.

Definition total (f : packet -> Z) (ps : list packet) : Z := foldr (fun p n => f p + n) 0 ps.

(** [ps] carries the whole movement of [s]. *)
Definition carries (s : PS2MouseState) (ps : list packet) : Prop :=
  total px ps = mouse_dx s /\ total py ps = mouse_dy s /\ total pz ps = (if wheel (mouse_type s) then mouse_dz s else 0) /\
  Forall (fun p => packet_ok (mouse_type s) p /\ pb p = Z.land (mouse_buttons s) (button_mask (mouse_type s))) ps /\
  Z.of_nat (length ps) = Z.max 1 (rounds (mouse_type s) (mouse_dx s) (mouse_dy s) (mouse_dz s)).

Lemma carries_cons s c ps x y z :
  rest_of s = (x, y, z) -> carries (set_deltas (set_mcommon s c) x y z) ps -> 1 <= rounds (mouse_type s) x y z ->
  carries s (next_packet s :: ps).
Proof.
  intros E (Hx & Hy & Hz & Hf & Hl) H1. pose proof (rounds_rest s) as Hr. rewrite E in Hr. destruct Hr as [Hr _].
  unfold rest_of in E. injection E as Ex Ey Ez.
  cbn [mouse_type set_deltas set_mcommon mouse_dx mouse_dy mouse_dz mouse_buttons] in Hx, Hy, Hz, Hf, Hl.
  unfold carries, total in *. cbn [foldr next_packet px py pz pb length]. split_and!; [lia|lia| | |lia].
  - destruct (wheel (mouse_type s)); lia.
  - constructor; [split; [apply next_packet_ok|done]|exact Hf].
Qed.

Lemma carries_one s : rest_of s = (0, 0, 0) -> carries s [next_packet s].
Proof.
  intros E. pose proof (rounds_rest s) as Hr. rewrite E in Hr. destruct Hr as [Hr _].
  assert (rounds (mouse_type s) 0 0 0 = 0) as E0.
  { unfold rounds. destruct (wheel (mouse_type s)); [|done]. unfold zlimit. by destruct (mouse_type s =? 3). }
  unfold rest_of in E. injection E as Ex Ey Ez.
  unfold carries, total. cbn [foldr next_packet px py pz pb length]. split_and!; [lia|lia| | |lia].
  - destruct (wheel (mouse_type s)); lia.
  - constructor; [split; [apply next_packet_ok|done]|constructor].
Qed.

Lemma send_packets_spec n : forall s, queue_wf (mcommon s) ->
  rounds (mouse_type s) (mouse_dx s) (mouse_dy s) (mouse_dz s) <= Z.of_nat (S n) ->
  exists c ps, send_packets (S n) s = Ret (set_deltas (set_mcommon s c) 0 0 0) /\
    queued (concat (map (encode (mouse_type s)) ps)) (mcommon s) c /\ carries s ps.
Proof.
  induction n as [|n IH]; intros s Hw Hr; cbn [send_packets];
    destruct (send_packet_spec s Hw) as (c1 & -> & Hq1); pose proof (rounds_rest s) as Hrest; cbn [obind];
    destruct (rest_of s) as [[x y] z] eqn:Er; cbv iota beta in Hrest |- *; destruct Hrest as [Hr' Hz].
  - destruct Hz as (-> & -> & ->); [lia|]. exists c1, [next_packet s]. split; [done|].
    split; [cbn [map concat]; by rewrite app_nil_r|]. by apply carries_one.
  - destruct (at_rest _) eqn:Ea.
    + unfold at_rest in Ea. rewrite !andb_true_iff, !Z.eqb_eq in Ea. cbn in Ea. destruct Ea as ((-> & ->) & ->).
      exists c1, [next_packet s]. split; [done|]. split; [cbn [map concat]; by rewrite app_nil_r|]. by apply carries_one.
    + set (s1 := set_deltas (set_mcommon s c1) x y z) in *.
      assert (1 <= rounds (mouse_type s) x y z) as H1.
      { destruct (Z.le_gt_cases 1 (rounds (mouse_type s) x y z)); [done|]. destruct Hz as (-> & -> & ->); [lia|]. done. }
      destruct (IH s1 (proj1 Hq1)) as (c2 & ps & E2 & Hq2 & Hc2); [cbn; lia|]. fold (send_packets (S n) s1).
      exists c2, (next_packet s :: ps). split; [exact E2|].
      split; [exact (queued_trans _ _ _ _ _ Hq1 Hq2)|]. exact (carries_cons s c1 ps x y z Er Hc2 H1).
Qed.

Lemma decode_packets_all ty ps : Forall (packet_ok ty) ps -> decode_packets ty (concat (map (encode ty) ps)) = Some ps.
Proof.
  induction 1 as [|p ps Hp Hps IH]; [done|]. cbn [map concat]. by rewrite (proj1 (decode_encode ty p _ Hp)), IH.
Qed.

Lemma encode_length ty p : (length (encode ty p) <= 4)%nat.
Proof. unfold encode. rewrite length_app. destruct (ty =? 3), (ty =? 4); cbn; lia. Qed.

Lemma encodes_length ty ps : (length (concat (map (encode ty) ps)) <= 4 * length ps)%nat.
Proof.
  induction ps as [|p ps IH]; [done|]. cbn [map concat length]. rewrite length_app. pose proof (encode_length ty p). lia.
Qed.

(** An event in stream mode, as the packets it sends. *)
Lemma mouse_event_spec fuel s dx dy dz b :
  let x := mouse_dx s + dx in let y := mouse_dy s - dy in let z := mouse_dz s + dz in
  queue_wf (mcommon s) -> Z.land (mouse_status s) MOUSE_STATUS_ENABLED <> 0 -> Z.land (mouse_status s) MOUSE_STATUS_REMOTE = 0 ->
  count (queue (mcommon s)) < 240 -> int_ok x = true -> int_ok y = true -> int_ok z = true ->
  (x, y, z, mouse_buttons s) <> (0, 0, 0, b) -> rounds (mouse_type s) x y z <= Z.of_nat (S fuel) ->
  exists c ps, ps2_mouse_event (S fuel) s dx dy dz b = Ret (set_deltas (set_mcommon (set_buttons (set_deltas s x y z) (u8 b)) c) 0 0 0) /\
    queued (concat (map (encode (mouse_type s)) ps)) (mcommon s) c /\
    carries (set_buttons (set_deltas s x y z) (u8 b)) ps.
Proof.
  intros x y z Hw Hen Hrem Hcnt Hx Hy Hz Hne Hr. unfold ps2_mouse_event, cadd, csub, cint. fold x y z.
  rewrite (proj2 (Z.eqb_neq _ _) Hen), Hx, Hy, Hz. cbn [obind].
  destruct (at_rest (set_deltas s x y z) && (mouse_buttons (set_deltas s x y z) =? b)) eqn:Ea.
  { exfalso. unfold at_rest in Ea. rewrite !andb_true_iff, !Z.eqb_eq in Ea. cbn in Ea. destruct Ea as (((E1 & E2) & E3) & E4).
    apply Hne. by rewrite E1, E2, E3, E4. }
  cbn [mouse_status set_buttons set_deltas mcommon]. rewrite (proj2 (Z.eqb_eq _ _) Hrem).
  change (PS2_QUEUE_SIZE - 16) with 240. rewrite (proj2 (Z.ltb_lt _ _) Hcnt). cbn [andb].
  exact (send_packets_spec fuel (set_buttons (set_deltas s x y z) (u8 b)) Hw Hr).
Qed.

(** Motion is conserved: an event of an enabled mouse in stream mode, with more than
    sixteen bytes of room, ends after the packets the movement takes; what it queues
    decodes to packets whose deltas add up to the whole movement (the wheel's in the two
    wheel protocols), each with the new buttons, and no movement is left behind.  If the
    movement takes at most four packets nothing is dropped from the queue. *)
Theorem ps2_mouse_motion fuel s dx dy dz b :
  let x := mouse_dx s + dx in let y := mouse_dy s - dy in let z := mouse_dz s + dz in
  queue_wf (mcommon s) -> Z.land (mouse_status s) MOUSE_STATUS_ENABLED <> 0 -> Z.land (mouse_status s) MOUSE_STATUS_REMOTE = 0 ->
  count (queue (mcommon s)) < 240 -> int_ok x = true -> int_ok y = true -> int_ok z = true ->
  (x, y, z, mouse_buttons s) <> (0, 0, 0, b) -> rounds (mouse_type s) x y z <= Z.of_nat (S fuel) ->
  exists s' bytes ps, ps2_mouse_event (S fuel) s dx dy dz b = Ret s' /\ at_rest s' = true /\ queue_wf (mcommon s') /\
    contents (mcommon s') = offer (contents (mcommon s)) bytes /\ decode_packets (mouse_type s) bytes = Some ps /\
    total px ps = x /\ total py ps = y /\ (wheel (mouse_type s) = true -> total pz ps = z) /\
    Forall (fun p => pb p = Z.land (u8 b) (button_mask (mouse_type s))) ps /\
    (rounds (mouse_type s) x y z <= 4 -> contents (mcommon s') = contents (mcommon s) ++ bytes).
Proof.
  intros x y z Hw Hen Hrem Hcnt Hx Hy Hz Hne Hr.
  destruct (mouse_event_spec fuel s dx dy dz b Hw Hen Hrem Hcnt Hx Hy Hz Hne Hr) as (c & ps & E & (Hwc & Hcc & _) & Hca).
  fold x y z in E, Hca. destruct Hca as (Sx & Sy & Sz & Hf & Hl).
  cbn [mouse_type set_buttons set_deltas mouse_dx mouse_dy mouse_dz mouse_buttons] in Sx, Sy, Sz, Hf, Hl.
  eexists _, _, ps. split; [exact E|]. split_and!; [done|exact Hwc|exact Hcc| |done|done| | |].
  - apply decode_packets_all. eapply Forall_impl; [exact Hf|]. by intros p [? _].
  - intros Ew. by rewrite Sz, Ew.
  - eapply Forall_impl; [exact Hf|]. by intros p [_ ?].
  - intros H4. cbn [mcommon set_deltas set_mcommon]. rewrite Hcc. apply offer_fits.
    pose proof (contents_length _ Hw). pose proof (encodes_length (mouse_type s) ps). lia.
Qed.

Definition wheel_mouse : PS2MouseState := mkMouse (ps2_common_reset ps2_zero) 0x20 2 100 0 3 0 5 (-3) 0 0.

Lemma ps2_mouse_motion_witness :
  exists s' bytes ps, ps2_mouse_event 3 wheel_mouse 300 20 (-2) 1 = Ret s' /\ at_rest s' = true /\ queue_wf (mcommon s') /\
    contents (mcommon s') = offer (contents (mcommon wheel_mouse)) bytes /\ decode_packets 3 bytes = Some ps /\
    total px ps = 305 /\ total py ps = -23 /\ (wheel 3 = true -> total pz ps = -2) /\
    Forall (fun p => pb p = Z.land (u8 1) (button_mask 3)) ps /\
    (rounds 3 305 (-23) (-2) <= 4 -> contents (mcommon s') = contents (mcommon wheel_mouse) ++ bytes).
Proof.
  apply (ps2_mouse_motion 2 wheel_mouse 300 20 (-2) 1).
  - split; try done. apply ps2_zero_wf.
  - done.
  - done.
  - cbn. lia.
  - done.
  - done.
  - done.
  - done.
  - vm_compute. done.
Defined.

(** A movement of more packets than the sixteen bytes hold can fill the queue in the
    middle of a packet: what the guest reads is then no sequence of packets. *)
Definition busy_mouse : PS2MouseState :=
  mkMouse (mkPs2 (mkQueue (replicate 256 0) 0 239 239) (-1) [1]) 0x20 2 100 0 3 0 0 0 0 0.

Lemma ps2_packet_torn :
  exists s', ps2_mouse_event 100 busy_mouse 1000 0 0 0 = Ret s' /\
    length (contents (mcommon s')) = 256%nat /\ decode_packets 3 (drop 239 (contents (mcommon s'))) = None.
Proof. eexists. split; [vm_compute; reflexivity|]. split; vm_compute; reflexivity. Qed.

(** ** The devices in every reachable state *)
(** [s'] is the mouse after at most [n] bytes were offered to the queue of [s]. *)
Definition offers (n : nat) (s s' : PS2MouseState) : Prop :=
  exists bs, answered bs (mcommon s) (mcommon s') /\ (length bs <= n)%nat.

Lemma mqueue_offers n s0 s b : offers n s0 s -> exists s', mqueue s b = Ret s' /\ offers (S n) s0 s'.
Proof.
  intros (bs & (Hw & Hc & Hi) & Hn). unfold mqueue. destruct (ps2_queue_spec (mcommon s) b Hw) as (c & -> & Hwc & Hcc & _ & Hic). cbn [obind].
  eexists. split; [done|]. exists (bs ++ [u8 b]). split; [|rewrite length_app; cbn; lia].
  split_and!; [done| |by trans (mcommon s)]. cbn [mcommon set_mcommon]. by rewrite Hcc, Hc, offer_offer.
Qed.

Lemma offers_self n s s' :
  queue_wf (mcommon s') -> queue (mcommon s') = queue (mcommon s) -> irqs (mcommon s') = irqs (mcommon s) -> offers n s s'.
Proof.
  intros Hw Hc Hi. exists []. split; [|cbn; lia]. split_and!; [done| |unfold onward, before; by rewrite Hi, Hc].
  assert (contents (mcommon s') = contents (mcommon s)) as <- by (unfold contents; by rewrite Hc). rewrite offer_nil; [done|].
  pose proof (contents_length _ Hw). destruct Hw. lia.
Qed.

Lemma offers_weaken n m s s' : offers n s s' -> (n <= m)%nat -> offers m s s'.
Proof. intros (bs & Ha & Hn) H. exists bs. split; [done|lia]. Qed.

Lemma send_offers n s0 s : offers n s0 s -> exists s', ps2_mouse_send_packet s = Ret s' /\ offers (4 + n) s0 s'.
Proof.
  intros (bs & (Hw & Hc & Hi) & Hn). destruct (send_packet_spec s Hw) as (c & -> & Hwc & Hcc & _ & Hic).
  destruct (rest_of s) as [[x y] z]. eexists. split; [done|]. exists (bs ++ encode (mouse_type s) (next_packet s)).
  split; [|rewrite length_app; pose proof (encode_length (mouse_type s) (next_packet s)); lia].
  split_and!; [done| |by trans (mcommon s)]. cbn [mcommon set_deltas set_mcommon]. by rewrite Hcc, Hc, offer_offer.
Qed.

(** Runs the replies of a branch one after the other. *)
Ltac mreply :=
  repeat match goal with
  | H : offers ?n ?s0 ?s |- context [mqueue ?s ?b] =>
      let s' := fresh "s" in let E := fresh "E" in let H' := fresh "H" in
      destruct (mqueue_offers n s0 s b H) as (s' & E & H'); rewrite E; cbn [obind]; clear H E
  | H : offers ?n ?s0 ?s |- context [ps2_mouse_send_packet ?s] =>
      let s' := fresh "s" in let E := fresh "E" in let H' := fresh "H" in
      destruct (send_offers n s0 s H) as (s' & E & H'); rewrite E; cbn [obind]; clear H E
  end;
  match goal with
  | H : offers ?n ?s0 ?s |- exists s', Ret ?s = Ret s' /\ _ =>
      exists s; split; [reflexivity|apply (offers_weaken n 5 s0 s H); lia]
  end.

Lemma mouse_command_spec s0 s val : offers 0 s0 s -> exists s', mouse_command s val = Ret s' /\ offers 5 s0 s'.
Proof.
  intros H. assert (forall x, queue_wf (mcommon x) -> queue (mcommon x) = queue (mcommon s) ->
    irqs (mcommon x) = irqs (mcommon s) -> offers 0 s0 x) as Hsame.
  { intros x Hw Hc Hi. destruct H as (bs & (_ & Ha & Hp) & Hn). exists bs. split; [|done]. unfold answered, contents, onward, before in *.
    rewrite Hc, Hi. split; [done|]. by split. }
  assert (queue_wf (mcommon s)) as Hw by (by destruct H as (bs & [Hw _] & _)).
  unfold mouse_command.
  repeat match goal with |- context [if ?b then _ else _] => destruct b end;
    first [ mreply
          | match goal with |- context [mqueue ?x ?b] =>
              let Hx := fresh in assert (offers 0 s0 x) as Hx by (apply Hsame; [first [exact Hw|by apply set_cmd_wf]|done|done]); mreply
            end ].
Qed.

Lemma mouse_write_spec s val : queue_wf (mcommon s) -> exists s', ps2_write_mouse s val = Ret s' /\ offers 5 s s'.
Proof.
  intros Hw. unfold ps2_write_mouse.
  assert (forall x, mcommon x = mcommon s -> offers 0 s x) as Hsame by (intros x Hx; apply offers_self; by rewrite Hx).
  assert (forall x b, mcommon x = mcommon s -> exists s', mqueue x b = Ret s' /\ offers 1 s s') as Hone.
  { intros x b Hx. exact (mqueue_offers 0 s x b (Hsame x Hx)). }
  assert (forall x b, mcommon x = mcommon s -> exists s', (let! s := mqueue x b in Ret (mset_cmd s (-1))) = Ret s' /\ offers 5 s s') as Harg.
  { intros x b Hx. destruct (Hone x b Hx) as (s1 & -> & bs & Ha & Hn). eexists. split; [done|]. exists bs.
    split; [by apply answered_cmd|lia]. }
  repeat if_case; try (apply Harg; unfold detect; repeat case_match; done).
  - destruct (Hone (set_wrap s 0) AUX_ACK eq_refl) as (s1 & -> & Ho). exists s1. split; [done|]. apply (offers_weaken 1); [exact Ho|lia].
  - destruct (Hone s val eq_refl) as (s1 & -> & Ho). exists s1. split; [done|]. apply (offers_weaken 1); [exact Ho|lia].
  - apply mouse_command_spec. by apply Hsame.
Qed.

(** What a movement does: nothing to a disabled mouse; the accumulated movement and the
    buttons are kept when the guest polls or the queue has not more than sixteen bytes of
    room; otherwise packets that carry the accumulated movement are queued. *)
Definition motion_effect (m : PS2MouseState) (dx dy dz b : Z) (m' : PS2MouseState) : Prop :=
  let x := mouse_dx m + dx in let y := mouse_dy m - dy in let z := mouse_dz m + dz in
  if Z.land (mouse_status m) MOUSE_STATUS_ENABLED =? 0 then m' = m
  else if (x =? 0) && (y =? 0) && (z =? 0) && (mouse_buttons m =? b) then m' = set_deltas m 0 0 0
  else
    let m1 := set_buttons (set_deltas m x y z) (u8 b) in
    if (Z.land (mouse_status m) MOUSE_STATUS_REMOTE =? 0) && (count (queue (mcommon m)) <? 240) then
      exists c bytes ps, m' = set_deltas (set_mcommon m1 c) 0 0 0 /\ queued bytes (mcommon m) c /\
        decode_packets (mouse_type m) bytes = Some ps /\ carries m1 ps
    else m' = m1.

Lemma motion_spec s dx dy dz b :
  let x := mouse_dx s + dx in let y := mouse_dy s - dy in let z := mouse_dz s + dz in
  queue_wf (mcommon s) -> int_ok x = true -> int_ok y = true -> int_ok z = true ->
  exists s', ps2_mouse_event (S (Z.to_nat (rounds (mouse_type s) x y z))) s dx dy dz b = Ret s' /\ motion_effect s dx dy dz b s'.
Proof.
  intros x y z Hw Hx Hy Hz. unfold ps2_mouse_event, motion_effect, cadd, csub, cint. fold x y z. rewrite Hx, Hy, Hz. cbn [obind].
  destruct (Z.land (mouse_status s) MOUSE_STATUS_ENABLED =? 0); [eauto|]. unfold at_rest.
  cbn [mouse_dx mouse_dy mouse_dz mouse_buttons set_deltas].
  destruct ((x =? 0) && (y =? 0) && (z =? 0) && (mouse_buttons s =? b)) eqn:E.
  { rewrite !andb_true_iff, !Z.eqb_eq in E. destruct E as (((-> & ->) & ->) & _). eauto. }
  clear E. cbn [mouse_status set_buttons set_deltas mcommon]. change (PS2_QUEUE_SIZE - 16) with 240. destruct (_ && _); [|eauto].
  set (m1 := set_buttons (set_deltas s x y z) (u8 b)).
  destruct (send_packets_spec (Z.to_nat (rounds (mouse_type s) x y z)) m1 Hw) as (c & ps & -> & Hq & Hca).
  { cbn [mouse_type m1 set_buttons set_deltas mouse_dx mouse_dy mouse_dz]. lia. }
  eexists. split; [done|]. eexists c, _, ps. split_and!; [done|exact Hq| |done]. apply decode_packets_all.
  destruct Hca as (_ & _ & _ & Hf & _). eapply Forall_impl; [exact Hf|]. by intros p [? _].
Qed.

Lemma motion_onward m dx dy dz b m' : queue_wf (mcommon m) -> motion_effect m dx dy dz b m' ->
  queue_wf (mcommon m') /\ onward (mcommon m) (mcommon m').
Proof.
  intros Hw. unfold motion_effect. cbv zeta. destruct (_ =? 0); [by intros ->|]. destruct (_ && _); [by intros ->|].
  destruct (_ && _); [|by intros ->]. by intros (c & bytes & ps & -> & (Hwc & _ & _ & Ho) & _).
Qed.

Lemma mouse_event_returns s dx dy dz b :
  let x := mouse_dx s + dx in let y := mouse_dy s - dy in let z := mouse_dz s + dz in
  queue_wf (mcommon s) -> int_ok x = true -> int_ok y = true -> int_ok z = true ->
  exists s', ps2_mouse_event (S (Z.to_nat (rounds (mouse_type s) x y z))) s dx dy dz b = Ret s' /\ queue_wf (mcommon s') /\
    irqs (mcommon s) `prefix_of` irqs (mcommon s').
Proof.
  intros x y z Hw Hx Hy Hz. destruct (motion_spec s dx dy dz b Hw Hx Hy Hz) as (s' & E & He).
  apply motion_onward in He as [Hw' [Hi _]]; [|done]. by exists s'.
Qed.

(** What the host's input, the guest and the machine's reset do to the two devices. *)
Inductive ps2_op : Type :=
| OpKey (keycode : Z) | OpKbdWrite (val : Z) | OpKbdRead | OpTranslate (mode : Z) | OpKbdReset
| OpMotion (dx dy dz buttons : Z) | OpMouseWrite (val : Z) | OpMouseRead | OpMouseReset.

Definition motion_fuel (m : PS2MouseState) (dx dy dz : Z) : nat :=
  S (Z.to_nat (rounds (mouse_type m) (mouse_dx m + dx) (mouse_dy m - dy) (mouse_dz m + dz))).

(** The value is that of a read, and 0 for the other operations. *)
Definition ps2_step (op : ps2_op) (k : PS2KbdState) (m : PS2MouseState) : res (Z * PS2KbdState * PS2MouseState) :=
  match op with
  | OpKey c => let! k := ps2_put_keycode k c in Ret (0, k, m)
  | OpKbdWrite v => let! k := ps2_write_keyboard k v in Ret (0, k, m)
  | OpKbdRead => let! '(v, c) := ps2_read_data (kcommon k) in Ret (v, set_kcommon k c, m)
  | OpTranslate mode => Ret (0, ps2_keyboard_set_translation k mode, m)
  | OpKbdReset => Ret (0, ps2_kbd_reset k, m)
  | OpMotion dx dy dz b => let! m := ps2_mouse_event (motion_fuel m dx dy dz) m dx dy dz b in Ret (0, k, m)
  | OpMouseWrite v => let! m := ps2_write_mouse m v in Ret (0, k, m)
  | OpMouseRead => let! '(v, c) := ps2_read_data (mcommon m) in Ret (v, k, set_mcommon m c)
  | OpMouseReset => Ret (0, k, ps2_mouse_reset m)
  end.

(** The accumulated movement fits an [int]. *)
Definition op_ok (m : PS2MouseState) (op : ps2_op) : Prop :=
  match op with
  | OpMotion dx dy dz _ => int_ok (mouse_dx m + dx) = true /\ int_ok (mouse_dy m - dy) = true /\ int_ok (mouse_dz m + dz) = true
  | _ => True
  end.

(** The last byte the guest read from each device since the device's reset. *)
Definition next_last (op : ps2_op) (v : Z) (last : option Z * option Z) : option Z * option Z :=
  match op with
  | OpKbdRead => (Some v, snd last)
  | OpKbdReset => (None, snd last)
  | OpMouseRead => (fst last, Some v)
  | OpMouseReset => (fst last, None)
  | _ => last
  end.

Inductive ps2_reach : option Z * option Z -> PS2KbdState -> PS2MouseState -> Prop :=
| reach_init : ps2_reach (None, None) ps2_kbd_init ps2_mouse_init
| reach_step last k m op v k' m' :
    ps2_reach last k m -> op_ok m op -> ps2_step op k m = Ret (v, k', m') -> ps2_reach (next_last op v last) k' m'.

(** A read of [s] that gives [v] and leaves [s'], [last] having been read before it. *)
Definition read_effect (last : option Z) (s : PS2State) (v : Z) (s' : PS2State) : Prop :=
  is_byte v /\
  match contents s with
  | [] => s' = s /\ (forall x, last = Some x -> v = x)
  | x :: l => v = x /\ contents s' = l
  end.

(** What an operation does to the devices. *)
Definition effect (last : option Z * option Z) (op : ps2_op) (k : PS2KbdState) (m : PS2MouseState) (v : Z)
    (k' : PS2KbdState) (m' : PS2MouseState) : Prop :=
  match op with
  | OpKey c => queued (key_bytes (raw_mode k) c) (kcommon k) (kcommon k') /\ m' = m
  | OpKbdWrite val => (exists bs, answered bs (kcommon k) (kcommon k') /\ kbd_answer (write_cmd (kcommon k)) val bs) /\ m' = m
  | OpKbdRead => read_effect (fst last) (kcommon k) v (kcommon k') /\ m' = m
  | OpTranslate _ => contents (kcommon k') = contents (kcommon k) /\ m' = m
  | OpKbdReset => contents (kcommon k') = [] /\ m' = m
  | OpMotion dx dy dz b => motion_effect m dx dy dz b m' /\ k' = k
  | OpMouseWrite _ => offers 5 m m' /\ k' = k
  | OpMouseRead => read_effect (snd last) (mcommon m) v (mcommon m') /\ k' = k
  | OpMouseReset => contents (mcommon m') = [] /\ k' = k
  end.

Lemma reset_wf s : queue_wf s -> queue_wf (ps2_common_reset s).
Proof.
  intros []. split; cbn [ps2_common_reset queue data rptr wptr count irqs]; try done; try lia.
  by rewrite last_snoc.
Qed.

Lemma reset_contents s : contents (ps2_common_reset s) = [].
Proof. done. Qed.

(** The byte last read is still in front of the read position, unless the ring is full. *)
Definition remembers (last : option Z) (s : PS2State) : Prop :=
  queue_wf s /\ forall x, last = Some x -> count (queue s) < 256 -> before s = Some x.

Lemma remembers_onward last s s' : queue_wf s' -> onward s s' -> remembers last s -> remembers last s'.
Proof. intros Hw (_ & Hc & Hb) [_ H]. split; [done|]. intros x Hx Hf. rewrite Hb by done. apply H; [done|lia]. Qed.

Lemma remembers_reset s : queue_wf s -> remembers None (ps2_common_reset s).
Proof. intros Hw. by split; [apply reset_wf|]. Qed.

Lemma remembers_read last s : remembers last s ->
  exists v s', ps2_read_data s = Ret (v, s') /\ remembers (Some v) s' /\ read_effect last s v s'.
Proof.
  intros [Hw Hl]. destruct (ps2_read_spec s Hw) as (v & s' & E & Hv & Hw' & _ & _ & Hm). exists v, s'.
  pose proof (ps2_read_before s v s' Hw E) as Hb. split; [done|]. split; [split; [done|]; by intros x [= <-] _|].
  split; [done|]. pose proof (contents_length s Hw) as Hn. destruct (contents s); [|done]. subst s'. split; [done|].
  intros x Hx. cbn in Hn. specialize (Hl x Hx ltac:(lia)). congruence.
Qed.

Lemma ps2_step_spec last op k m : remembers (fst last) (kcommon k) -> remembers (snd last) (mcommon m) -> op_ok m op ->
  exists v k' m', ps2_step op k m = Ret (v, k', m') /\ remembers (fst (next_last op v last)) (kcommon k') /\
    remembers (snd (next_last op v last)) (mcommon m') /\ effect last op k m v k' m'.
Proof.
  intros Hk Hm Hok. pose proof (proj1 Hk) as Hkw. pose proof (proj1 Hm) as Hmw.
  destruct op as [c|val| |mode| |dx dy dz b|val| |]; cbn [ps2_step effect next_last fst snd].
  - destruct (put_keycode_spec k c Hkw) as (k' & -> & Hq & _). do 3 eexists. split; [done|].
    split; [by eapply remembers_onward, Hk; apply Hq|]. done.
  - destruct (kbd_write_spec k val Hkw) as (k' & bs & -> & Ha & Hb & _). do 3 eexists. split; [done|].
    split; [by eapply remembers_onward, Hk; apply Ha|]. eauto.
  - destruct (remembers_read _ _ Hk) as (v & c & -> & Hr & He). do 3 eexists. split; [done|]. done.
  - do 3 eexists. split; [done|]. done.
  - do 3 eexists. split; [done|]. split; [by apply remembers_reset|]. done.
  - destruct Hok as (Hx & Hy & Hz). destruct (motion_spec m dx dy dz b Hmw Hx Hy Hz) as (m' & E & He).
    unfold motion_fuel. rewrite E. do 3 eexists. split; [done|]. split; [done|]. split; [|done].
    apply motion_onward in He as [Hw' Ho]; [|done]. by eapply remembers_onward.
  - destruct (mouse_write_spec m val Hmw) as (m' & -> & Ho). do 3 eexists. split; [done|]. split; [done|]. split; [|done].
    destruct Ho as (bs & (Hw & _ & Ho) & _). by eapply remembers_onward.
  - destruct (remembers_read _ _ Hm) as (v & c & -> & Hr & He). do 3 eexists. split; [done|]. done.
  - do 3 eexists. split; [done|]. split; [done|]. split; [by apply remembers_reset|]. done.
Qed.

Lemma reach_queues last k m : ps2_reach last k m -> remembers (fst last) (kcommon k) /\ remembers (snd last) (mcommon m).
Proof.
  induction 1 as [|last k m op v k' m' _ [Hk Hm] Hok E]; [split; split; (exact ps2_zero_wf || done)|].
  destruct (ps2_step_spec last op k m Hk Hm Hok) as (v1 & k1 & m1 & E1 & Hk1 & Hm1 & _). rewrite E in E1.
  apply Ret_inj in E1. injection E1 as <- <- <-. done.
Qed.


(** The keyboard after a key that the guest has read. *)
Definition read_kbd : PS2KbdState :=
  match ps2_put_keycode ps2_kbd_init 0x1e with
  | Ret k => match ps2_read_data (kcommon k) with Ret (_, c) => set_kcommon k c | _ => k end
  | _ => ps2_kbd_init
  end.


(** The command that resets the keyboard and disables scanning stores the flag, and no code
    looks at it: keys pressed afterwards are sent all the same. *)
Lemma ps2_disabled_keys_sent :
  exists k1 k2, ps2_write_keyboard ps2_kbd_init KBD_CMD_RESET_DISABLE = Ret k1 /\ scan_enabled k1 = 0 /\
    ps2_put_keycode k1 0x1e = Ret k2 /\ contents (kcommon k2) = [KBD_REPLY_ACK; 28].
Proof. do 2 eexists. split; [vm_compute; reflexivity|]. split_and!; vm_compute; reflexivity. Qed.

(** After a machine reset the scancode set is none of the three: a guest that asks for it
    gets no answer. *)
Lemma ps2_reset_scancode_silent :
  exists k1 k2, ps2_write_keyboard (ps2_kbd_reset ps2_kbd_init) KBD_CMD_SCANCODE = Ret k1 /\
    ps2_write_keyboard k1 0 = Ret k2 /\ contents (kcommon k2) = [KBD_REPLY_ACK].
Proof. do 2 eexists. split; [vm_compute; reflexivity|]. split; vm_compute; reflexivity. Qed.
