(* ===== verification/Pckbd.v ===== *)
(** * The keyboard controller: hw/pckbd.c

    The i8042 between the guest and the two PS/2 devices of Ps2.v.  The devices call
    [kbd_update_kbd_irq] and [kbd_update_aux_irq] with the levels of their logs; the
    controller passes those on when the operation of the device is done, which is the same
    since the callbacks do not touch the devices.  The calls of [qemu_set_irq] are a log of
    (ISA line, level).  The A20 gate, a field of the CPU here, and the requests to reset
    the machine are part of the state.  The build is the one for x86; the memory mapped
    interface, the vmmouse and saving state are not modelled. *)

From S2P Require Import Prelude Ps2.
From stdpp Require Import list.

Open Scope Z_scope.

Definition KBD_CCMD_READ_MODE : Z := 0x20.
Definition KBD_CCMD_WRITE_MODE : Z := 0x60.
Definition KBD_CCMD_MOUSE_DISABLE : Z := 0xa7.
Definition KBD_CCMD_MOUSE_ENABLE : Z := 0xa8.
Definition KBD_CCMD_TEST_MOUSE : Z := 0xa9.
Definition KBD_CCMD_SELF_TEST : Z := 0xaa.
Definition KBD_CCMD_KBD_TEST : Z := 0xab.
Definition KBD_CCMD_KBD_DISABLE : Z := 0xad.
Definition KBD_CCMD_KBD_ENABLE : Z := 0xae.
Definition KBD_CCMD_READ_INPORT : Z := 0xc0.
Definition KBD_CCMD_READ_OUTPORT : Z := 0xd0.
Definition KBD_CCMD_WRITE_OUTPORT : Z := 0xd1.
Definition KBD_CCMD_WRITE_OBUF : Z := 0xd2.
Definition KBD_CCMD_WRITE_AUX_OBUF : Z := 0xd3.
Definition KBD_CCMD_WRITE_MOUSE : Z := 0xd4.
Definition KBD_CCMD_DISABLE_A20 : Z := 0xdd.
Definition KBD_CCMD_ENABLE_A20 : Z := 0xdf.
Definition KBD_CCMD_RESET : Z := 0xfe.
Definition KBD_STAT_OBF : Z := 0x01.
Definition KBD_STAT_SELFTEST : Z := 0x04.
Definition KBD_STAT_CMD : Z := 0x08.
Definition KBD_STAT_UNLOCKED : Z := 0x10.
Definition KBD_STAT_MOUSE_OBF : Z := 0x20.
Definition KBD_MODE_KBD_INT : Z := 0x01.
Definition KBD_MODE_MOUSE_INT : Z := 0x02.
Definition KBD_MODE_DISABLE_KBD : Z := 0x10.
Definition KBD_MODE_DISABLE_MOUSE : Z := 0x20.
Definition KBD_MODE_KCC : Z := 0x40.
Definition KBD_PENDING_KBD : Z := 1.
Definition KBD_PENDING_AUX : Z := 2.

Record KBDState : Type := mkKBD {
  ctl_write_cmd : Z; status : Z; mode : Z; pending : Z;
  kbd : PS2KbdState; mouse : PS2MouseState;
  lines : list (Z * Z); a20 : Z; reset_requests : nat
}.

Definition set_regs (s : KBDState) (cmd st md pe : Z) : KBDState :=
  mkKBD cmd st md pe (kbd s) (mouse s) (lines s) (a20 s) (reset_requests s).
Definition set_devices (s : KBDState) (k : PS2KbdState) (m : PS2MouseState) : KBDState :=
  mkKBD (ctl_write_cmd s) (status s) (mode s) (pending s) k m (lines s) (a20 s) (reset_requests s).
Definition set_a20 (s : KBDState) (a : Z) : KBDState :=
  mkKBD (ctl_write_cmd s) (status s) (mode s) (pending s) (kbd s) (mouse s) (lines s) a (reset_requests s).
Definition request_reset (s : KBDState) : KBDState :=
  mkKBD (ctl_write_cmd s) (status s) (mode s) (pending s) (kbd s) (mouse s) (lines s) (a20 s) (S (reset_requests s)).

(** [qemu_set_irq] on the line of the device. *)
Definition IRQ_KBD : Z := 1.
Definition IRQ_MOUSE : Z := 12.
Definition put_lines (s : KBDState) (l : list (Z * Z)) : KBDState :=
  mkKBD (ctl_write_cmd s) (status s) (mode s) (pending s) (kbd s) (mouse s) (lines s ++ l) (a20 s) (reset_requests s).

Definition kbd_update_irq (s : KBDState) : KBDState :=
  let st := u8 (Z.land (status s) (Z.lnot (Z.lor KBD_STAT_OBF KBD_STAT_MOUSE_OBF))) in
  let '(st, irq_kbd_level, irq_mouse_level) :=
    if negb (pending s =? 0) then
      let st := Z.lor st KBD_STAT_OBF in
      if pending s =? KBD_PENDING_AUX then
        (Z.lor st KBD_STAT_MOUSE_OBF, 0, if negb (Z.land (mode s) KBD_MODE_MOUSE_INT =? 0) then 1 else 0)
      else
        (st, if negb (Z.land (mode s) KBD_MODE_KBD_INT =? 0) && (Z.land (mode s) KBD_MODE_DISABLE_KBD =? 0) then 1 else 0, 0)
    else (st, 0, 0) in
  put_lines (set_regs s (ctl_write_cmd s) st (mode s) (pending s)) [(IRQ_KBD, irq_kbd_level); (IRQ_MOUSE, irq_mouse_level)].

Definition set_pending (s : KBDState) (bit level : Z) : KBDState :=
  set_regs s (ctl_write_cmd s) (status s) (mode s)
    (u8 (if negb (level =? 0) then Z.lor (pending s) bit else Z.land (pending s) (Z.lnot bit))).
Definition kbd_update_kbd_irq (s : KBDState) (level : Z) : KBDState := kbd_update_irq (set_pending s KBD_PENDING_KBD level).
Definition kbd_update_aux_irq (s : KBDState) (level : Z) : KBDState := kbd_update_irq (set_pending s KBD_PENDING_AUX level).

Definition kbd_read_status (s : KBDState) : Z := status s.

(** ** The devices, with their callbacks *)
Definition levels (s s' : PS2State) : list Z := drop (length (irqs s)) (irqs s').

Definition with_kbd (s : KBDState) (k : PS2KbdState) : KBDState :=
  foldl kbd_update_kbd_irq (set_devices s k (mouse s)) (levels (kcommon (kbd s)) (kcommon k)).
Definition with_mouse (s : KBDState) (m : PS2MouseState) : KBDState :=
  foldl kbd_update_aux_irq (set_devices s (kbd s) m) (levels (mcommon (mouse s)) (mcommon m)).

Definition kbd_queue (s : KBDState) (b : Z) (aux : bool) : res KBDState :=
  if aux then let! c := ps2_queue (mcommon (mouse s)) b in Ret (with_mouse s (set_mcommon (mouse s) c))
  else let! c := ps2_queue (kcommon (kbd s)) b in Ret (with_kbd s (set_kcommon (kbd s) c)).

Definition set_mode (s : KBDState) (m : Z) : KBDState := set_regs s (ctl_write_cmd s) (status s) (u8 m) (pending s).

Definition kbd_write_command (s : KBDState) (val : Z) : res KBDState :=
  if val =? KBD_CCMD_READ_MODE then kbd_queue s (mode s) false
  else if (val =? KBD_CCMD_WRITE_MODE) || (val =? KBD_CCMD_WRITE_OBUF) || (val =? KBD_CCMD_WRITE_AUX_OBUF)
          || (val =? KBD_CCMD_WRITE_MOUSE) || (val =? KBD_CCMD_WRITE_OUTPORT) then
    Ret (set_regs s (u8 val) (status s) (mode s) (pending s))
  else if val =? KBD_CCMD_MOUSE_DISABLE then Ret (set_mode s (Z.lor (mode s) KBD_MODE_DISABLE_MOUSE))
  else if val =? KBD_CCMD_MOUSE_ENABLE then Ret (set_mode s (Z.land (mode s) (Z.lnot KBD_MODE_DISABLE_MOUSE)))
  else if val =? KBD_CCMD_TEST_MOUSE then kbd_queue s 0x00 false
  else if val =? KBD_CCMD_SELF_TEST then
    kbd_queue (set_regs s (ctl_write_cmd s) (Z.lor (status s) KBD_STAT_SELFTEST) (mode s) (pending s)) 0x55 false
  else if val =? KBD_CCMD_KBD_TEST then kbd_queue s 0x00 false
  else if val =? KBD_CCMD_KBD_DISABLE then Ret (kbd_update_irq (set_mode s (Z.lor (mode s) KBD_MODE_DISABLE_KBD)))
  else if val =? KBD_CCMD_KBD_ENABLE then Ret (kbd_update_irq (set_mode s (Z.land (mode s) (Z.lnot KBD_MODE_DISABLE_KBD))))
  else if val =? KBD_CCMD_READ_INPORT then kbd_queue s 0x00 false
  else if val =? KBD_CCMD_READ_OUTPORT then
    let val := Z.lor 0x01 (Z.shiftl (a20 s) 1) in
    let val := if negb (Z.land (status s) KBD_STAT_OBF =? 0) then Z.lor val 0x10 else val in
    let val := if negb (Z.land (status s) KBD_STAT_MOUSE_OBF =? 0) then Z.lor val 0x20 else val in
    kbd_queue s val false
  else if val =? KBD_CCMD_ENABLE_A20 then Ret (set_a20 s 1)
  else if val =? KBD_CCMD_DISABLE_A20 then Ret (set_a20 s 0)
  else if val =? KBD_CCMD_RESET then Ret (request_reset s)
  else Ret s.

Definition kbd_read_data (s : KBDState) : res (Z * KBDState) :=
  if pending s =? KBD_PENDING_AUX then
    let! '(val, c) := ps2_read_data (mcommon (mouse s)) in Ret (val, with_mouse s (set_mcommon (mouse s) c))
  else
    let! '(val, c) := ps2_read_data (kcommon (kbd s)) in Ret (val, with_kbd s (set_kcommon (kbd s) c)).

(** The switch of [kbd_write_data] on the command in progress. *)
Definition data_byte (s : KBDState) (val : Z) : res KBDState :=
  let cmd := ctl_write_cmd s in
  if cmd =? 0 then let! k := ps2_write_keyboard (kbd s) val in Ret (with_kbd s k)
  else if cmd =? KBD_CCMD_WRITE_MODE then
    let s := set_mode s val in
    let s := set_devices s (ps2_keyboard_set_translation (kbd s) (Z.b2z (negb (Z.land (mode s) KBD_MODE_KCC =? 0)))) (mouse s) in
    Ret (kbd_update_irq s)
  else if cmd =? KBD_CCMD_WRITE_OBUF then kbd_queue s val false
  else if cmd =? KBD_CCMD_WRITE_AUX_OBUF then kbd_queue s val true
  else if cmd =? KBD_CCMD_WRITE_OUTPORT then
    let s := set_a20 s (Z.land (Z.shiftr val 1) 1) in
    Ret (if Z.land val 1 =? 0 then request_reset s else s)
  else if cmd =? KBD_CCMD_WRITE_MOUSE then let! m := ps2_write_mouse (mouse s) val in Ret (with_mouse s m)
  else Ret s.

Definition kbd_write_data (s : KBDState) (val : Z) : res KBDState :=
  let! s := data_byte s val in
  Ret (set_regs s 0 (status s) (mode s) (pending s)).

(** ** Input from the host, reset, creation *)
Definition kbd_event (s : KBDState) (keycode : Z) : res KBDState :=
  let! k := ps2_put_keycode (kbd s) keycode in Ret (with_kbd s k).
Definition mouse_event (fuel : nat) (s : KBDState) (dx dy dz buttons : Z) : res KBDState :=
  let! m := ps2_mouse_event fuel (mouse s) dx dy dz buttons in Ret (with_mouse s m).

Definition kbd_reset (s : KBDState) : KBDState :=
  set_regs s (ctl_write_cmd s) (Z.lor KBD_STAT_CMD KBD_STAT_UNLOCKED) (Z.lor KBD_MODE_KBD_INT KBD_MODE_MOUSE_INT) (pending s).

(** The reset handlers in the order [i8042_initfn] registers them. *)
Definition machine_reset (s : KBDState) : KBDState :=
  let s := with_kbd s (ps2_kbd_reset (kbd s)) in
  let s := with_mouse s (ps2_mouse_reset (mouse s)) in
  kbd_reset s.

Definition i8042_initfn : KBDState := mkKBD 0 0 0 0 ps2_kbd_init ps2_mouse_init [] 1 0.
