(* ===== verification/PckbdProofs.v ===== *)
(** * The keyboard controller: what the guest sees

    The status register and the interrupt lines agree with the queues of the two devices
    in every reachable state, every access returns, and a guest that polls the status
    register gets all bytes, the keyboard's before the mouse's. *)

From S2P Require Import Prelude Ps2 Ps2Proofs Pckbd.
From stdpp Require Import list.

Open Scope Z_scope.

(** ** What the registers should say *)
Definition nonempty (s : PS2State) : bool := negb (count (queue s) =? 0).
Definition kfull (s : KBDState) : bool := nonempty (kcommon (kbd s)).
Definition mfull (s : KBDState) : bool := nonempty (mcommon (mouse s)).

(** The pending mask of a keyboard with data ([a]) and a mouse with data ([b]). *)
Definition pend (a b : bool) : Z := Z.b2z a + 2 * Z.b2z b.

Definition flag (x m : Z) : bool := negb (Z.land x m =? 0).

(** The levels of the two lines. *)
Definition kbd_level (s : KBDState) : bool :=
  kfull s && flag (mode s) KBD_MODE_KBD_INT && negb (flag (mode s) KBD_MODE_DISABLE_KBD).
Definition mouse_level (s : KBDState) : bool := negb (kfull s) && mfull s && flag (mode s) KBD_MODE_MOUSE_INT.

(** The last level put on an ISA line. *)
Definition on_line (n : Z) (l : list (Z * Z)) : list Z := omap (fun e => if fst e =? n then Some (snd e) else None) l.
Definition line_level (n : Z) (l : list (Z * Z)) : Z := default 0 (last (on_line n l)).

Lemma on_line_app n a b : on_line n (a ++ b) = on_line n a ++ on_line n b.
Proof. apply omap_app. Qed.

(** What [kbd_update_irq] makes of the pending mask and the mode. *)
Record view_wf (s : KBDState) : Prop := {
  vw_status : is_byte (status s); vw_mode : is_byte (mode s);
  vw_obf : flag (status s) KBD_STAT_OBF = negb (pending s =? 0);
  vw_mobf : flag (status s) KBD_STAT_MOUSE_OBF = (pending s =? 2);
  vw_kbd : line_level IRQ_KBD (lines s) =
    Z.b2z (negb (pending s =? 0) && negb (pending s =? 2) && flag (mode s) KBD_MODE_KBD_INT && negb (flag (mode s) KBD_MODE_DISABLE_KBD));
  vw_mouse : line_level IRQ_MOUSE (lines s) = Z.b2z ((pending s =? 2) && flag (mode s) KBD_MODE_MOUSE_INT)
}.

(** The pending mask says which device has data. *)
Record dev_wf (s : KBDState) : Prop := {
  dw_kbd : queue_wf (kcommon (kbd s)); dw_mouse : queue_wf (mcommon (mouse s));
  dw_pending : pending s = pend (kfull s) (mfull s)
}.

Definition ctl_wf (s : KBDState) : Prop := dev_wf s /\ view_wf s.

(** ** kbd_update_irq *)
Lemma status_bits st : is_byte st ->
  let c := u8 (Z.land st (Z.lnot (Z.lor KBD_STAT_OBF KBD_STAT_MOUSE_OBF))) in
  is_byte c /\ flag c KBD_STAT_OBF = false /\ flag c KBD_STAT_MOUSE_OBF = false /\
  is_byte (Z.lor c KBD_STAT_OBF) /\ flag (Z.lor c KBD_STAT_OBF) KBD_STAT_OBF = true /\
  flag (Z.lor c KBD_STAT_OBF) KBD_STAT_MOUSE_OBF = false /\
  is_byte (Z.lor (Z.lor c KBD_STAT_OBF) KBD_STAT_MOUSE_OBF) /\
  flag (Z.lor (Z.lor c KBD_STAT_OBF) KBD_STAT_MOUSE_OBF) KBD_STAT_OBF = true /\
  flag (Z.lor (Z.lor c KBD_STAT_OBF) KBD_STAT_MOUSE_OBF) KBD_STAT_MOUSE_OBF = true.
Proof.
  intros H c. pose proof (range_check (fun st =>
    let c := u8 (Z.land st (Z.lnot (Z.lor KBD_STAT_OBF KBD_STAT_MOUSE_OBF))) in
    let byte x := (0 <=? x) && (x <? 256) in
    byte c && negb (flag c KBD_STAT_OBF) && negb (flag c KBD_STAT_MOUSE_OBF) &&
    byte (Z.lor c KBD_STAT_OBF) && flag (Z.lor c KBD_STAT_OBF) KBD_STAT_OBF &&
    negb (flag (Z.lor c KBD_STAT_OBF) KBD_STAT_MOUSE_OBF) &&
    byte (Z.lor (Z.lor c KBD_STAT_OBF) KBD_STAT_MOUSE_OBF) &&
    flag (Z.lor (Z.lor c KBD_STAT_OBF) KBD_STAT_MOUSE_OBF) KBD_STAT_OBF &&
    flag (Z.lor (Z.lor c KBD_STAT_OBF) KBD_STAT_MOUSE_OBF) KBD_STAT_MOUSE_OBF) 0 256 ltac:(vm_compute; reflexivity) st H) as E.
  cbv beta zeta in E. fold c in E. rewrite !andb_true_iff, !negb_true_iff, !Z.leb_le, !Z.ltb_lt in E.
  unfold is_byte. tauto.
Qed.

Lemma line_level_two s a b :
  line_level IRQ_KBD (lines (put_lines s [(IRQ_KBD, a); (IRQ_MOUSE, b)])) = a /\
  line_level IRQ_MOUSE (lines (put_lines s [(IRQ_KBD, a); (IRQ_MOUSE, b)])) = b.
Proof. unfold line_level. cbn [lines put_lines]. rewrite !on_line_app. cbn. by rewrite !last_snoc. Qed.

Lemma update_view s : is_byte (status s) -> is_byte (mode s) -> view_wf (kbd_update_irq s).
Proof.
  intros Hs Hmode. destruct (status_bits _ Hs) as (H1 & H2 & H3 & H4 & H5 & H6 & H7 & H8 & H9).
  unfold kbd_update_irq, KBD_PENDING_AUX. set (c := u8 _) in *.
  destruct (Z.eqb_spec (pending s) 0) as [E0|E0]; cbn [negb]; [|destruct (Z.eqb_spec (pending s) 2) as [E2|E2]];
    match goal with |- view_wf (put_lines ?x [(_, ?a); (_, ?b)]) => destruct (line_level_two x a b) as [L1 L2] end;
    split; rewrite ?L1, ?L2; cbn [status pending mode set_regs put_lines];
    rewrite ?(proj2 (Z.eqb_neq _ _) E0), ?(proj2 (Z.eqb_neq _ _) E2), ?E2, ?E0; try done; unfold flag;
    by repeat match goal with |- context [Z.land ?x ?m =? 0] => destruct (Z.land x m =? 0) end.
Qed.

(** It touches nothing but the status and the lines. *)
Definition same_regs (s s' : KBDState) : Prop :=
  kbd s' = kbd s /\ mouse s' = mouse s /\ mode s' = mode s /\ ctl_write_cmd s' = ctl_write_cmd s /\
  a20 s' = a20 s /\ reset_requests s' = reset_requests s.

Lemma update_regs s : same_regs s (kbd_update_irq s) /\ pending (kbd_update_irq s) = pending s.
Proof. unfold kbd_update_irq. by repeat case_match. Qed.

(** ** Passing a device's levels on *)
Lemma set_pending_kbd s a b level :
  pending s = pend a b -> pending (set_pending s KBD_PENDING_KBD level) = pend (negb (level =? 0)) b.
Proof. intros E. unfold set_pending. cbn [pending set_regs]. rewrite E. by destruct a, b, (level =? 0). Qed.

Lemma set_pending_aux s a b level :
  pending s = pend a b -> pending (set_pending s KBD_PENDING_AUX level) = pend a (negb (level =? 0)).
Proof. intros E. unfold set_pending. cbn [pending set_regs]. rewrite E. by destruct a, b, (level =? 0). Qed.

Lemma same_regs_trans a b c : same_regs a b -> same_regs b c -> same_regs a c.
Proof. unfold same_regs. intros. intuition congruence. Qed.

Section Levels.
(** One of the two callbacks, and the bit it drives. *)
Variables (update : KBDState -> Z -> KBDState) (mask : bool -> bool -> Z).
Hypothesis Hup : forall s other here level, is_byte (status s) -> is_byte (mode s) -> pending s = mask other here ->
  same_regs s (update s level) /\ pending (update s level) = mask other (negb (level =? 0)) /\ view_wf (update s level).

Lemma fold_levels ls : forall s other here, is_byte (status s) -> is_byte (mode s) -> pending s = mask other here ->
  same_regs s (foldl update s ls) /\ is_byte (status (foldl update s ls)) /\ is_byte (mode (foldl update s ls)) /\
  pending (foldl update s ls) = mask other (default here (negb <$> ((fun l => l =? 0) <$> last ls))) /\
  (ls <> [] -> view_wf (foldl update s ls)).
Proof.
  induction ls as [|l ls IH] using rev_ind; intros s other here Hs Hmd Hp; [by split_and!|].
  destruct (IH s other here Hs Hmd Hp) as (Hr & Hs' & Hmd' & Hp' & _). rewrite foldl_app. cbn [foldl].
  destruct (Hup _ _ _ l Hs' Hmd' Hp') as (Hr2 & Hp2 & Hv). split_and!; [by eapply same_regs_trans|apply Hv|apply Hv| |done].
  by rewrite Hp2, last_snoc.
Qed.
End Levels.

Lemma kbd_up s other here level : is_byte (status s) -> is_byte (mode s) -> pending s = pend here other ->
  same_regs s (kbd_update_kbd_irq s level) /\ pending (kbd_update_kbd_irq s level) = pend (negb (level =? 0)) other /\
  view_wf (kbd_update_kbd_irq s level).
Proof.
  intros Hs Hmd Hp. unfold kbd_update_kbd_irq. destruct (update_regs (set_pending s KBD_PENDING_KBD level)) as [Hr Hp'].
  split_and!; [exact Hr|by rewrite Hp', (set_pending_kbd s here other)|by apply update_view].
Qed.

Lemma aux_up s other here level : is_byte (status s) -> is_byte (mode s) -> pending s = pend other here ->
  same_regs s (kbd_update_aux_irq s level) /\ pending (kbd_update_aux_irq s level) = pend other (negb (level =? 0)) /\
  view_wf (kbd_update_aux_irq s level).
Proof.
  intros Hs Hmd Hp. unfold kbd_update_aux_irq. destruct (update_regs (set_pending s KBD_PENDING_AUX level)) as [Hr Hp'].
  split_and!; [exact Hr|by rewrite Hp', (set_pending_aux s other here)|by apply update_view].
Qed.

(** The level the log of a device ends with is whether it has data. *)
Lemma levels_nonempty c c' : queue_wf c -> queue_wf c' -> irqs c `prefix_of` irqs c' ->
  default (nonempty c) (negb <$> ((fun l => l =? 0) <$> last (levels c c'))) = nonempty c'.
Proof.
  intros [_ _ _ _ _ Hi] [_ _ _ _ _ Hi'] [ls E]. unfold levels, nonempty. rewrite E, drop_app_length in *.
  destruct ls as [|l ls _] using rev_ind.
  - rewrite app_nil_r in Hi'. rewrite Hi in Hi'. by destruct (count (queue c) =? 0), (count (queue c') =? 0).
  - rewrite last_snoc. rewrite app_assoc, last_snoc in Hi'. cbn in Hi' |- *. rewrite Hi'. by destruct (count (queue c') =? 0).
Qed.

Lemma view_devices s k m : view_wf s -> view_wf (set_devices s k m).
Proof. by intros []; split. Qed.

Lemma with_kbd_wf s k : ctl_wf s -> queue_wf (kcommon k) -> irqs (kcommon (kbd s)) `prefix_of` irqs (kcommon k) ->
  ctl_wf (with_kbd s k) /\ same_regs (set_devices s k (mouse s)) (with_kbd s k).
Proof.
  intros [[Hk Hm Hp] Hv] Hk' Hi. unfold with_kbd.
  destruct (fold_levels kbd_update_kbd_irq (fun other here => pend here other) kbd_up (levels (kcommon (kbd s)) (kcommon k))
    (set_devices s k (mouse s)) (mfull s) (kfull s)) as (Hr & Hs & _ & Hp' & Hview); [apply Hv|apply Hv|done|].
  unfold kfull in Hp' at 1. rewrite levels_nonempty in Hp' by done. split; [|exact Hr]. split.
  - destruct Hr as (Ek & Em & _). split; unfold kfull, mfull; rewrite ?Ek, ?Em; done.
  - destruct (levels (kcommon (kbd s)) (kcommon k)) as [|l ls]; [|by apply Hview]. by apply view_devices.
Qed.

Lemma with_mouse_wf s m : ctl_wf s -> queue_wf (mcommon m) -> irqs (mcommon (mouse s)) `prefix_of` irqs (mcommon m) ->
  ctl_wf (with_mouse s m) /\ same_regs (set_devices s (kbd s) m) (with_mouse s m).
Proof.
  intros [[Hk Hm Hp] Hv] Hm' Hi. unfold with_mouse.
  destruct (fold_levels kbd_update_aux_irq pend aux_up (levels (mcommon (mouse s)) (mcommon m))
    (set_devices s (kbd s) m) (kfull s) (mfull s)) as (Hr & Hs & _ & Hp' & Hview); [apply Hv|apply Hv|done|].
  unfold mfull in Hp' at 1. rewrite levels_nonempty in Hp' by done. split; [|exact Hr]. split.
  - destruct Hr as (Ek & Em & _). split; unfold kfull, mfull; rewrite ?Ek, ?Em; done.
  - destruct (levels (mcommon (mouse s)) (mcommon m)) as [|l ls]; [|by apply Hview]. by apply view_devices.
Qed.

(** Registers the views do not depend on may change. *)
Lemma ctl_wf_cmd s c : ctl_wf s -> ctl_wf (set_regs s c (status s) (mode s) (pending s)).
Proof. intros [[] []]. by split; split. Qed.

Lemma update_wf s : dev_wf s -> is_byte (status s) -> is_byte (mode s) -> ctl_wf (kbd_update_irq s).
Proof.
  intros [Hk Hm Hp] Hs Hmd. destruct (update_regs s) as [(Ek & Em & _) Ep]. split; [|by apply update_view].
  split; unfold kfull, mfull; rewrite ?Ek, ?Em, ?Ep; done.
Qed.

Lemma kbd_queue_wf s b aux : ctl_wf s -> exists s', kbd_queue s b aux = Ret s' /\ ctl_wf s'.
Proof.
  intros Hw. pose proof Hw as [[Hk Hm _] _]. unfold kbd_queue. destruct aux.
  - destruct (ps2_queue_spec _ b Hm) as (c & -> & Hc & _ & _ & Hi & _). cbn [obind]. eexists. split; [done|].
    by apply with_mouse_wf.
  - destruct (ps2_queue_spec _ b Hk) as (c & -> & Hc & _ & _ & Hi & _). cbn [obind]. eexists. split; [done|].
    by apply with_kbd_wf.
Qed.

(** The mouse interface bit does not reach the lines. *)
Lemma mouse_bit m : is_byte m ->
  forall x, x = u8 (Z.lor m KBD_MODE_DISABLE_MOUSE) \/ x = u8 (Z.land m (Z.lnot KBD_MODE_DISABLE_MOUSE)) ->
  is_byte x /\ flag x KBD_MODE_KBD_INT = flag m KBD_MODE_KBD_INT /\
  flag x KBD_MODE_DISABLE_KBD = flag m KBD_MODE_DISABLE_KBD /\ flag x KBD_MODE_MOUSE_INT = flag m KBD_MODE_MOUSE_INT.
Proof.
  intros Hm x Hx. split; [destruct Hx as [-> | ->]; apply wrap_range; lia|].
  pose proof (range_check (fun m => forallb (fun x =>
    eqb (flag x KBD_MODE_KBD_INT) (flag m KBD_MODE_KBD_INT) && eqb (flag x KBD_MODE_DISABLE_KBD) (flag m KBD_MODE_DISABLE_KBD) &&
    eqb (flag x KBD_MODE_MOUSE_INT) (flag m KBD_MODE_MOUSE_INT))
    [u8 (Z.lor m KBD_MODE_DISABLE_MOUSE); u8 (Z.land m (Z.lnot KBD_MODE_DISABLE_MOUSE))])
    0 256 ltac:(vm_compute; reflexivity) m Hm) as H. cbv beta in H. rewrite forallb_forall in H.
  assert (In x [u8 (Z.lor m KBD_MODE_DISABLE_MOUSE); u8 (Z.land m (Z.lnot KBD_MODE_DISABLE_MOUSE))]) as Hin
    by (cbn [In]; destruct Hx; auto).
  specialize (H x Hin). cbv beta in H. rewrite !andb_true_iff in H.
  destruct H as ((H1%eqb_prop & H2%eqb_prop) & H3%eqb_prop). done.
Qed.

Lemma set_mode_wf s x : ctl_wf s ->
  x = Z.lor (mode s) KBD_MODE_DISABLE_MOUSE \/ x = Z.land (mode s) (Z.lnot KBD_MODE_DISABLE_MOUSE) -> ctl_wf (set_mode s x).
Proof.
  intros [[Hk Hm Hp] [H1 H2 H3 H4 H5 H6]] Hx. split; [by split|].
  destruct (mouse_bit (mode s) H2 (u8 x)) as (B & F1 & F2 & F3); [by destruct Hx as [-> | ->]; auto|].
  split; cbn [set_mode set_regs status mode pending lines]; rewrite ?F1, ?F2, ?F3; done.
Qed.

Lemma selftest_wf s : ctl_wf s -> ctl_wf (set_regs s (ctl_write_cmd s) (Z.lor (status s) KBD_STAT_SELFTEST) (mode s) (pending s)).
Proof.
  intros [[Hk Hm Hp] [H1 H2 H3 H4 H5 H6]]. split; [by split|].
  pose proof (range_check (fun st => let x := Z.lor st KBD_STAT_SELFTEST in
    (0 <=? x) && (x <? 256) && eqb (flag x KBD_STAT_OBF) (flag st KBD_STAT_OBF) &&
    eqb (flag x KBD_STAT_MOUSE_OBF) (flag st KBD_STAT_MOUSE_OBF)) 0 256 ltac:(vm_compute; reflexivity) (status s) H1) as H.
  cbv beta zeta in H. rewrite !andb_true_iff in H. destruct H as (((B1%Z.leb_le & B2%Z.ltb_lt) & F1%eqb_prop) & F2%eqb_prop).
  split; cbn [set_regs status mode pending lines]; rewrite ?F1, ?F2; done.
Qed.

Lemma a20_wf s a : ctl_wf s -> ctl_wf (set_a20 s a).
Proof. intros [[] []]. by split; split. Qed.

Lemma request_reset_wf s : ctl_wf s -> ctl_wf (request_reset s).
Proof. intros [[] []]. by split; split. Qed.

#[local] Hint Resolve a20_wf request_reset_wf selftest_wf ctl_wf_cmd set_mode_wf kbd_queue_wf : vm.

(** ** Every access returns *)
Lemma write_command_wf s val : ctl_wf s -> exists s', kbd_write_command s val = Ret s' /\ ctl_wf s'.
Proof.
  intros Hw. unfold kbd_write_command.
  assert (forall x, is_byte (u8 x)) as Hu by (intros; apply wrap_range; lia).
  assert (forall x, ctl_wf (kbd_update_irq (set_mode s x))) as Hup.
  { intros x. destruct Hw as [[Hk Hm Hp] Hv]. apply update_wf; [by split|apply Hv|apply Hu]. }
  assert (forall c, ctl_wf (set_regs s c (status s) (mode s) (pending s))) by auto with vm.
  repeat match goal with |- context [if ?b then _ else _] =>
    lazymatch b with | _ =? _ => destruct b | _ || _ => destruct b | _ => fail end end; eauto 6 with vm.
Qed.

Lemma data_byte_wf s val : ctl_wf s -> exists s', data_byte s val = Ret s' /\ ctl_wf s'.
Proof.
  intros Hw. pose proof Hw as [[Hk Hm Hp] Hv]. unfold data_byte.
  destruct (ctl_write_cmd s =? 0).
  { destruct (kbd_write_spec (kbd s) val Hk) as (k & bs & -> & (Hk' & _ & Hi & _) & _). cbn [obind]. eexists. split; [done|]. by apply with_kbd_wf. }
  destruct (ctl_write_cmd s =? KBD_CCMD_WRITE_MODE).
  { eexists. split; [done|]. apply update_wf; [by split|apply Hv|apply wrap_range; lia]. }
  destruct (ctl_write_cmd s =? KBD_CCMD_WRITE_OBUF); [by apply kbd_queue_wf|].
  destruct (ctl_write_cmd s =? KBD_CCMD_WRITE_AUX_OBUF); [by apply kbd_queue_wf|].
  destruct (ctl_write_cmd s =? KBD_CCMD_WRITE_OUTPORT); [destruct (Z.land val 1 =? 0); eauto with vm|].
  destruct (ctl_write_cmd s =? KBD_CCMD_WRITE_MOUSE); [|eauto].
  destruct (mouse_write_spec (mouse s) val Hm) as (m & -> & bs & (Hm' & _ & Hi & _) & _). cbn [obind]. eexists. split; [done|]. by apply with_mouse_wf.
Qed.

Lemma write_data_wf s val : ctl_wf s -> exists s', kbd_write_data s val = Ret s' /\ ctl_wf s'.
Proof.
  intros Hw. unfold kbd_write_data. destruct (data_byte_wf s val Hw) as (s' & -> & Hw'). cbn [obind]. eauto with vm.
Qed.

Lemma nonempty_contents c : queue_wf c -> nonempty c = negb (bool_decide (contents c = [])).
Proof.
  intros Hc. pose proof (contents_length c Hc) as Hl. unfold nonempty. f_equal.
  destruct (contents c) as [|x l]; cbn in Hl |- *; [by apply Z.eqb_eq|apply Z.eqb_neq; lia].
Qed.

(** A read takes the oldest byte of the keyboard, or of the mouse when only that has data. *)
Lemma read_data_spec s : ctl_wf s ->
  exists v s', kbd_read_data s = Ret (v, s') /\ ctl_wf s' /\ is_byte v /\ mode s' = mode s /\
    match contents (kcommon (kbd s)), contents (mcommon (mouse s)) with
    | x :: l, _ => v = x /\ contents (kcommon (kbd s')) = l /\ mouse s' = mouse s
    | [], x :: l => v = x /\ contents (mcommon (mouse s')) = l /\ kbd s' = kbd s
    | [], [] => kbd s' = kbd s /\ mouse s' = mouse s
    end.
Proof.
  intros Hw. pose proof Hw as [[Hk Hm Hp] Hv]. unfold kbd_read_data.
  assert ((pending s =? KBD_PENDING_AUX) = negb (kfull s) && mfull s) as -> by (rewrite Hp; by destruct (kfull s), (mfull s)).
  unfold kfull, mfull. rewrite !nonempty_contents by done.
  destruct (contents (kcommon (kbd s))) as [|x l] eqn:Ek; [destruct (contents (mcommon (mouse s))) as [|y l'] eqn:Em|]; cbn [bool_decide negb andb].
  - destruct (ps2_read_spec _ Hk) as (v & c & -> & Hb & Hc & _ & Hi & He). cbn [obind]. rewrite Ek in He. subst c.
    destruct (with_kbd_wf s (set_kcommon (kbd s) (kcommon (kbd s))) Hw Hc Hi) as [Hw' (E1 & E2 & E3 & _)].
    do 2 eexists. split; [done|]. split_and!; [done|done|done|rewrite E1; by destruct (kbd s)|by rewrite E2].
  - destruct (ps2_read_spec _ Hm) as (v & c & -> & Hb & Hc & _ & Hi & He). cbn [obind]. rewrite Em in He.
    destruct (with_mouse_wf s (set_mcommon (mouse s) c) Hw Hc Hi) as [Hw' (E1 & E2 & E3 & _)].
    do 2 eexists. split; [done|]. rewrite E2. by destruct He as [-> He].
  - destruct (ps2_read_spec _ Hk) as (v & c & -> & Hb & Hc & _ & Hi & He). cbn [obind]. rewrite Ek in He.
    destruct (with_kbd_wf s (set_kcommon (kbd s) c) Hw Hc Hi) as [Hw' (E1 & E2 & E3 & _)].
    do 2 eexists. split; [done|]. rewrite E1. by destruct He as [-> He].
Qed.

Lemma reset_wf_ctl s : ctl_wf s -> ctl_wf (machine_reset s) /\ contents (kcommon (kbd (machine_reset s))) = [] /\
  contents (mcommon (mouse (machine_reset s))) = [].
Proof.
  intros Hw. pose proof Hw as [[Hk Hm _] _]. unfold machine_reset.
  destruct (with_kbd_wf s (ps2_kbd_reset (kbd s)) Hw) as [Hw1 (E1 & E2 & _)]; [by apply reset_wf|by apply prefix_app_r|].
  set (s1 := with_kbd s (ps2_kbd_reset (kbd s))) in *. assert (queue_wf (mcommon (mouse s1))) as Hm1 by (by rewrite E2).
  destruct (with_mouse_wf s1 (ps2_mouse_reset (mouse s1)) Hw1) as [[[Hk2 Hm2 Hp2] Hv2] (F1 & F2 & _)]; [by apply reset_wf|by apply prefix_app_r|].
  set (s2 := with_mouse s1 (ps2_mouse_reset (mouse s1))) in *.
  assert (kbd s2 = ps2_kbd_reset (kbd s)) as Ek by (rewrite F1; exact E1).
  assert (mouse s2 = ps2_mouse_reset (mouse s1)) as Em by (rewrite F2; done).
  assert (pending s2 = 0) as Ep by (rewrite Hp2; unfold kfull, mfull; by rewrite Ek, Em).
  destruct Hv2 as [H1 H2 H3 H4 H5 H6]. rewrite Ep in H3, H4, H5, H6.
  change (kbd (kbd_reset s2)) with (kbd s2). change (mouse (kbd_reset s2)) with (mouse s2). rewrite Ek, Em.
  split; [|done]. split; [by split|]. split; cbn [kbd_reset set_regs status mode pending lines]; rewrite ?Ep; try done.
Qed.

(** ** Reachable states *)
Inductive ctl_op : Type :=
| CtlKey (keycode : Z) | CtlMotion (dx dy dz buttons : Z) | CtlCommand (val : Z) | CtlData (val : Z) | CtlRead | CtlReset.

Definition ctl_step (op : ctl_op) (s : KBDState) : res (Z * KBDState) :=
  match op with
  | CtlKey c => let! s := kbd_event s c in Ret (0, s)
  | CtlMotion dx dy dz b => let! s := mouse_event (motion_fuel (mouse s) dx dy dz) s dx dy dz b in Ret (0, s)
  | CtlCommand v => let! s := kbd_write_command s v in Ret (0, s)
  | CtlData v => let! s := kbd_write_data s v in Ret (0, s)
  | CtlRead => kbd_read_data s
  | CtlReset => Ret (0, machine_reset s)
  end.

(** A movement fits the [int] it is accumulated in. *)
Definition ctl_op_ok (s : KBDState) (op : ctl_op) : Prop :=
  match op with CtlMotion dx dy dz b => op_ok (mouse s) (OpMotion dx dy dz b) | _ => True end.

Inductive ctl_reach : KBDState -> Prop :=
| ctl_start : ctl_reach i8042_initfn
| ctl_next s op v s' : ctl_reach s -> ctl_op_ok s op -> ctl_step op s = Ret (v, s') -> ctl_reach s'.

Lemma ctl_step_wf op s : ctl_wf s -> ctl_op_ok s op -> exists v s', ctl_step op s = Ret (v, s') /\ ctl_wf s'.
Proof.
  intros Hw Hok. pose proof Hw as [[Hk Hm Hp] Hv]. destruct op as [c|dx dy dz b|v|v| |]; cbn [ctl_step].
  - unfold kbd_event. destruct (put_keycode_spec (kbd s) c Hk) as (k & -> & (Hk' & _ & _ & Hi & _) & _). cbn [obind].
    do 2 eexists. split; [done|]. by apply with_kbd_wf.
  - destruct Hok as (Hx & Hy & Hz). unfold mouse_event, motion_fuel.
    destruct (mouse_event_returns (mouse s) dx dy dz b Hm Hx Hy Hz) as (m & -> & Hm' & Hi). cbn [obind].
    do 2 eexists. split; [done|]. by apply with_mouse_wf.
  - destruct (write_command_wf s v Hw) as (s' & -> & Hw'). cbn [obind]. eauto.
  - destruct (write_data_wf s v Hw) as (s' & -> & Hw'). cbn [obind]. eauto.
  - destruct (read_data_spec s Hw) as (v & s' & -> & Hw' & _). eauto.
  - do 2 eexists. split; [done|]. by apply reset_wf_ctl.
Qed.

Lemma init_ctl_wf : ctl_wf i8042_initfn.
Proof. split; split; try exact ps2_zero_wf; try done; unfold is_byte; cbn; lia. Qed.

Lemma ctl_reach_wf s : ctl_reach s -> ctl_wf s.
Proof.
  induction 1 as [|s op v s' _ IH Hok E]; [exact init_ctl_wf|].
  destruct (ctl_step_wf op s IH Hok) as (v1 & s1 & E1 & H1). rewrite E in E1. apply Ret_inj in E1. congruence.
Qed.

(** C24. The controller is consistent: in every state reached by key and mouse events, port
    accesses and resets, the output-buffer-full bit of the status register says whether
    either device has a byte for the guest, the mouse bit whether that byte is the mouse's
    (the keyboard's go first), line 1 is high exactly when the keyboard has data and the
    mode enables its interface and interrupt, line 12 exactly when only the mouse has data
    and its interrupt is enabled, and every further access returns. *)
Theorem kbd_controller_consistent s :
  ctl_reach s ->
  flag (kbd_read_status s) KBD_STAT_OBF = (kfull s || mfull s) /\
  flag (kbd_read_status s) KBD_STAT_MOUSE_OBF = (negb (kfull s) && mfull s) /\
  line_level IRQ_KBD (lines s) = Z.b2z (kbd_level s) /\ line_level IRQ_MOUSE (lines s) = Z.b2z (mouse_level s) /\
  forall op, ctl_op_ok s op -> exists v s', ctl_step op s = Ret (v, s').
Proof.
  intros Hw%ctl_reach_wf. pose proof Hw as [[Hk Hm Hp] [H1 H2 H3 H4 H5 H6]]. rewrite Hp in H3, H4, H5, H6.
  unfold kbd_read_status, kbd_level, mouse_level. rewrite H3, H4, H5, H6.
  split_and!; try (by destruct (kfull s), (mfull s)).
  intros op Hok. destruct (ctl_step_wf op s Hw Hok) as (v & s' & E & _). eauto.
Qed.

Definition both_waiting : KBDState :=
  match
    (let! '(_, s) := ctl_step CtlReset i8042_initfn in
     let! '(_, s) := ctl_step (CtlCommand KBD_CCMD_WRITE_AUX_OBUF) s in
     let! '(_, s) := ctl_step (CtlData 0x11) s in
     ctl_step (CtlKey 0x1e) s)
  with Ret (_, s) => s | _ => i8042_initfn end.

Lemma both_waiting_reach : ctl_reach both_waiting.
Proof.
  pose (s1 := machine_reset i8042_initfn).
  pose (s2 := match kbd_write_command s1 KBD_CCMD_WRITE_AUX_OBUF with Ret s => s | _ => s1 end).
  pose (s3 := match kbd_write_data s2 0x11 with Ret s => s | _ => s1 end).
  apply (ctl_next s3 (CtlKey 0x1e) 0); [|exact I|vm_compute; reflexivity].
  apply (ctl_next s2 (CtlData 0x11) 0); [|exact I|vm_compute; reflexivity].
  apply (ctl_next s1 (CtlCommand KBD_CCMD_WRITE_AUX_OBUF) 0); [|exact I|vm_compute; reflexivity].
  apply (ctl_next i8042_initfn CtlReset 0); [exact ctl_start|exact I|reflexivity].
Qed.

Lemma kbd_controller_consistent_witness :
  flag (kbd_read_status both_waiting) KBD_STAT_OBF = true /\ line_level IRQ_KBD (lines both_waiting) = 1.
Proof.
  destruct (kbd_controller_consistent both_waiting both_waiting_reach) as (E1 & _ & E2 & _).
  rewrite E1, E2. split; vm_compute; reflexivity.
Defined.

(** ** Polling *)
(** A guest that reads the data port as long as the status says so, with the source the
    status names for each byte. *)
Fixpoint drain (fuel : nat) (s : KBDState) : res (list (bool * Z) * KBDState) :=
  if flag (kbd_read_status s) KBD_STAT_OBF then
    match fuel with
    | O => Throw OutOfFuel
    | S fuel =>
        let! '(v, s') := kbd_read_data s in
        let! '(out, s'') := drain fuel s' in
        Ret ((flag (kbd_read_status s) KBD_STAT_MOUSE_OBF, v) :: out, s'')
    end
  else Ret ([], s).

Definition unread (s : KBDState) : list (bool * Z) :=
  map (pair false) (contents (kcommon (kbd s))) ++ map (pair true) (contents (mcommon (mouse s))).

(** The flags the status shows, from what is unread. *)
Lemma status_unread s : ctl_wf s ->
  flag (kbd_read_status s) KBD_STAT_OBF = negb (bool_decide (unread s = [])) /\
  flag (kbd_read_status s) KBD_STAT_MOUSE_OBF = match unread s with (src, _) :: _ => src | [] => false end.
Proof.
  intros [[Hk Hm Hp] [H1 H2 H3 H4 H5 H6]]. unfold kbd_read_status, unread. rewrite H3, H4, Hp.
  unfold kfull, mfull. rewrite !nonempty_contents by done.
  by destruct (contents (kcommon (kbd s))), (contents (mcommon (mouse s))).
Qed.

Lemma read_unread s src v l : ctl_wf s -> unread s = (src, v) :: l ->
  exists s', kbd_read_data s = Ret (v, s') /\ ctl_wf s' /\ unread s' = l.
Proof.
  intros Hw E. destruct (read_data_spec s Hw) as (v' & s' & -> & Hw' & _ & _ & He). exists s'.
  revert E He. unfold unread.
  destruct (contents (kcommon (kbd s))) as [|x k] eqn:Ek; [destruct (contents (mcommon (mouse s))) as [|y k'] eqn:Em; [done|]|];
    cbn [map app]; intros E He; simplify_eq; destruct He as (-> & -> & Eo).
  - by rewrite Eo, Ek.
  - by rewrite Eo.
Qed.

Lemma drain_spec fuel : forall s, ctl_wf s -> (length (unread s) <= fuel)%nat ->
  exists s', drain fuel s = Ret (unread s, s') /\ ctl_wf s' /\ unread s' = [].
Proof.
  induction fuel as [|fuel IH]; intros s Hw Hf; cbn [drain]; destruct (status_unread s Hw) as [E1 E2]; rewrite E1, ?E2;
    destruct (unread s) as [|[src v] l] eqn:Eu; cbn [bool_decide negb]; cbn in Hf; try lia; eauto.
  destruct (read_unread s src v l Hw Eu) as (s' & -> & Hw' & <-). cbn [obind].
  destruct (IH s' Hw' ltac:(lia)) as (s'' & -> & Hw'' & E''). cbn [obind]. eauto.
Qed.

(** Polling delivers everything: in every reachable state, a guest that reads the data
    port while the status register says there is a byte, and takes the source of each byte
    from the mouse bit, gets exactly the keyboard's bytes, oldest first, then exactly the
    mouse's, within as many reads as there are bytes; after that the status shows an empty
    buffer and both interrupt lines are low. *)
Theorem kbd_polling_delivers s fuel :
  ctl_reach s -> (length (unread s) <= fuel)%nat ->
  exists s', drain fuel s = Ret (unread s, s') /\
    flag (kbd_read_status s') KBD_STAT_OBF = false /\
    line_level IRQ_KBD (lines s') = 0 /\ line_level IRQ_MOUSE (lines s') = 0.
Proof.
  intros Hw%ctl_reach_wf Hf. destruct (drain_spec fuel s Hw Hf) as (s' & E & Hw' & Eu). exists s'. split; [exact E|].
  destruct (status_unread s' Hw') as [Eo _]. rewrite Eo, Eu. split; [done|].
  destruct Hw' as [[Hk Hm Hp] [_ _ H3 H4 H5 H6]]. unfold kbd_read_status in Eo. rewrite Eo, Eu in H3. cbn in H3.
  symmetry in H3. rewrite negb_false_iff, Z.eqb_eq in H3. rewrite H5, H6, H3. done.
Qed.

Lemma kbd_polling_delivers_witness :
  exists s', drain 2 both_waiting = Ret ([(false, 0x1e); (true, 0x11)], s') /\ line_level IRQ_KBD (lines s') = 0.
Proof.
  destruct (kbd_polling_delivers both_waiting 2 both_waiting_reach) as (s' & E & _ & L & _); [vm_compute; lia|].
  exists s'. split; [|exact L]. rewrite E. vm_compute. reflexivity.
Defined.

(** ** Reset in the middle of a command *)
(** The reset handlers leave the command in progress as it is. *)
Lemma reset_keeps_command s : ctl_wf s -> ctl_write_cmd (machine_reset s) = ctl_write_cmd s.
Proof.
  intros Hw. pose proof Hw as [[Hk Hm _] _]. unfold machine_reset.
  destruct (with_kbd_wf s (ps2_kbd_reset (kbd s)) Hw) as [Hw1 (E1 & E2 & _ & E3 & _)]; [by apply reset_wf|by apply prefix_app_r|].
  set (s1 := with_kbd s (ps2_kbd_reset (kbd s))) in *. assert (queue_wf (mcommon (mouse s1))) as Hm1 by (by rewrite E2).
  destruct (with_mouse_wf s1 (ps2_mouse_reset (mouse s1)) Hw1) as [_ (_ & _ & _ & F3 & _)]; [by apply reset_wf|by apply prefix_app_r|].
  change (ctl_write_cmd (with_mouse s1 (ps2_mouse_reset (mouse s1))) = ctl_write_cmd s). rewrite F3. exact E3.
Qed.

(** So the first data byte after a reset can be taken as the parameter of a command given
    before it: the keyboard's self test command, 0xff, goes into the mode instead. *)
Lemma reset_inside_command :
  let s := match kbd_write_command (machine_reset i8042_initfn) KBD_CCMD_WRITE_MODE with Ret s => s | _ => i8042_initfn end in
  exists s', kbd_write_data (machine_reset s) 0xff = Ret s' /\ mode s' = 0xff /\ unread s' = [].
Proof. eexists. split; [vm_compute; reflexivity|]. split; vm_compute; reflexivity. Qed.
