(* ===== verification/PcKeyboard.v ===== *)
(** * The keyboard interrupt of the PC: hw/ps2.c, hw/pckbd.c and hw/i8259.c together

    The keyboard controller's first line is line 1 of the interrupt controllers, its second
    line 12.  The levels of one access are passed on in order.  The guest's interrupt
    routine acknowledges, reads the data port and ends the interrupt. *)

From S2P Require Import Prelude I8259 I8259Proofs PicLine Ps2 Ps2Proofs Pckbd PckbdProofs.
From stdpp Require Import list.

Open Scope Z_scope.

(** The levels an access to the controller puts on the bus. *)
Definition new_lines (k k' : KBDState) : list (Z * Z) := drop (length (lines k)) (lines k').

(** Whether the CPU's line was raised between two states. *)
Definition raised (p p' : PicState2) : bool :=
  existsb (fun c => match c with IrqRaise => true | IrqLower => false end) (drop (length (parent_irq p)) (parent_irq p')).

(** The machine: the controller, the interrupt controllers, and whether the CPU has been
    interrupted and has not acknowledged yet. *)
Record machine : Type := mkMachine { ctl : KBDState; i8259 : PicState2; irq_asserted : bool }.

(** A key on the host, a level on a line of another device, and the interrupt routine. *)
Inductive event : Type := Press (keycode : Z) | Level (n level : Z) | Serve.

Definition step (m : machine) (e : event) : res (list (Z * Z) * machine) :=
  let p := i8259 m in
  match e with
  | Press c =>
      let! k := kbd_event (ctl m) c in
      let p' := bus_levels p (new_lines (ctl m) k) in
      Ret ([], mkMachine k p' (irq_asserted m || raised p p'))
  | Level n level => let p' := isa_irq_handler p n level in Ret ([], mkMachine (ctl m) p' (irq_asserted m || raised p p'))
  | Serve =>
      if irq_asserted m then
        let '(p1, intno) := pic_read_irq p in
        let! '(v, k) := kbd_read_data (ctl m) in
        match pic_ioport_write (bus_levels p1 (new_lines (ctl m) k)) false 0 EOI with
        | Ret p2 => Ret ([(intno, v)], mkMachine k p2 (raised p p2))
        | _ => Fault
        end
      else Ret ([], m)
  end.

Fixpoint run (m : machine) (evs : list event) : res (list (Z * Z) * machine) :=
  match evs with
  | [] => Ret ([], m)
  | e :: evs => let! '(o, m) := step m e in let! '(out, m) := run m evs in Ret (o ++ out, m)
  end.

(** ** What the controller puts on the bus *)
(** The keyboard's interface and interrupt are enabled. *)
Definition enabled (k : KBDState) : Prop :=
  flag (mode k) KBD_MODE_KBD_INT = true /\ flag (mode k) KBD_MODE_DISABLE_KBD = false.

Definition kbd_lines (ls : list Z) : list (Z * Z) := flat_map (fun l => [(IRQ_KBD, Z.b2z (negb (l =? 0))); (IRQ_MOUSE, 0)]) ls.

Lemma fold_lines ls : forall k here, enabled k -> pending k = pend here false ->
  lines (foldl kbd_update_kbd_irq k ls) = lines k ++ kbd_lines ls.
Proof.
  induction ls as [|l ls IH]; intros k here He Hp; cbn [foldl kbd_lines flat_map]; [by rewrite app_nil_r|].
  unfold kbd_update_kbd_irq at 2. pose proof (set_pending_kbd k here false l Hp) as Hp1.
  destruct (update_regs (set_pending k KBD_PENDING_KBD l)) as [(_ & _ & Hm & _) Hp2]. rewrite Hp1 in Hp2.
  rewrite (IH _ (negb (l =? 0))); [|unfold enabled; rewrite Hm; exact He|exact Hp2]. fold (kbd_lines ls).
  destruct He as [He1 He2]. unfold flag in He1, He2. rewrite negb_false_iff in He2.
  unfold kbd_update_irq. rewrite Hp1.
  change (mode (set_pending k KBD_PENDING_KBD l)) with (mode k). rewrite He1, He2.
  destruct (l =? 0); cbn [negb andb];
    [change (pend false false =? 0) with true|change (pend true false =? 0) with false;
     change (pend true false =? KBD_PENDING_AUX) with false];
    cbn [negb]; cbn [put_lines lines set_regs set_pending]; by rewrite <- app_assoc.
Qed.

Lemma with_kbd_lines k kb ls : ctl_wf k -> mfull k = false -> enabled k ->
  irqs (kcommon kb) = irqs (kcommon (kbd k)) ++ ls -> new_lines k (with_kbd k kb) = kbd_lines ls.
Proof.
  intros [[_ _ Hp] _] Hm He Hi. unfold new_lines, with_kbd, levels. rewrite Hi, drop_app_length.
  rewrite (fold_lines ls _ (kfull k)); [by rewrite drop_app_length|exact He|]. change (pending k = pend (kfull k) false). by rewrite Hp, Hm.
Qed.

(** ** The levels on the bus *)
Lemma kbd_level_line base sv p l : settled 1 base sv p ->
  let p' := bus_levels p (kbd_lines [l]) in
  settled 1 base sv p' /\ request 1 p' = request 1 p || (negb (high 1 p) && negb (l =? 0)) /\ high 1 p' = negb (l =? 0).
Proof.
  intros Hs p'. destruct (settled_level 1 ltac:(lia) base sv p (Z.b2z (negb (l =? 0))) Hs) as (Hs1 & Hr1 & Hh1).
  destruct (settled_other 1 ltac:(lia) base sv _ 12 0 ltac:(lia) Hs1) as (Hs2 & Hr2 & Hh2).
  assert (p' = isa_irq_handler (isa_irq_handler p 1 (Z.b2z (negb (l =? 0)))) 12 0) as -> by done.
  rewrite Hr2, Hh2, Hr1, Hh1. by destruct (l =? 0).
Qed.

Lemma kbd_lines_cons l ls : kbd_lines (l :: ls) = kbd_lines [l] ++ kbd_lines ls.
Proof. done. Qed.

(** Bytes arriving: the line is high and requested as soon as there is one. *)
Lemma kbd_arrivals base n p : settled 1 base 0 p -> request 1 p = high 1 p ->
  let p' := bus_levels p (kbd_lines (replicate n 1)) in
  settled 1 base 0 p' /\ request 1 p' = high 1 p' /\ high 1 p' = high 1 p || negb (n =? 0)%nat.
Proof.
  revert p. induction n as [|n IH]; intros p Hs Hr; [split_and!; [done|done|by rewrite orb_false_r]|].
  destruct (kbd_level_line base 0 p 1 Hs) as (Hs1 & Hr1 & Hh1). change (replicate (S n) 1) with (1 :: replicate n 1).
  rewrite kbd_lines_cons, bus_levels_app. change (negb (1 =? 0)) with true in *.
  destruct (IH _ Hs1) as (Hs2 & Hr2 & Hh2).
  { rewrite Hr1, Hh1, Hr. by destruct (high 1 p). }
  split_and!; [done|done|]. cbv zeta in Hh2. rewrite Hh2, Hh1. cbn. by rewrite orb_true_r.
Qed.

(** ** Interrupting the CPU *)
Lemma raised_trans a b c : parent_irq a `prefix_of` parent_irq b -> parent_irq b `prefix_of` parent_irq c ->
  raised a c = raised a b || raised b c.
Proof.
  intros [l1 E1] [l2 E2]. unfold raised. rewrite E2, E1, <- app_assoc, !drop_app_length.
  by rewrite app_assoc, drop_app_length, existsb_app.
Qed.

Lemma raised_snoc a b : parent_irq b = parent_irq a ++ [IrqRaise] -> raised a b = true.
Proof. intros E. unfold raised. by rewrite E, drop_app_length. Qed.

Lemma arrivals_raise base n p : settled 1 base 0 p -> high 1 p = false ->
  raised p (bus_levels p (kbd_lines (replicate (S n) 1))) = true.
Proof.
  intros Hs Hh. change (kbd_lines (replicate (S n) 1)) with ([(1, 1)] ++ (IRQ_MOUSE, 0) :: kbd_lines (replicate n 1)).
  rewrite bus_levels_app. change (bus_levels p [(1, 1)]) with (isa_irq_handler p 1 1).
  rewrite (raised_trans p (isa_irq_handler p 1 1)); [|apply isa_irq_log|apply bus_levels_log].
  by rewrite (raised_snoc p (isa_irq_handler p 1 1)) by (by apply (rise 1 ltac:(lia) base)).
Qed.

(** ** The devices' logs *)
Lemma queue_levels s b s' : ps2_queue s b = Ret s' -> exists n, irqs s' = irqs s ++ replicate n 1.
Proof.
  unfold ps2_queue. destruct (_ <=? _); [intros ->%Ret_inj; exists 0%nat; by rewrite app_nil_r|].
  destruct (store _ _ _); [|done]. cbn [oget obind]. intros <-%Ret_inj. by exists 1%nat.
Qed.

Lemma kqueue_levels s b s' : kqueue s b = Ret s' -> exists n, irqs (kcommon s') = irqs (kcommon s) ++ replicate n 1.
Proof.
  unfold kqueue. destruct (ps2_queue (kcommon s) b) as [c| |] eqn:E; [|done..]. cbn [obind]. intros <-%Ret_inj.
  by apply (queue_levels _ b).
Qed.

Lemma put_keycode_levels s c s' : ps2_put_keycode s c = Ret s' ->
  exists n, irqs (kcommon s') = irqs (kcommon s) ++ replicate n 1.
Proof.
  unfold ps2_put_keycode. destruct (_ && _ && _); [|apply kqueue_levels].
  destruct (ps2_raw_keycode !! _) as [x|]; cbn [oget]; [|by destruct (negb _), (kqueue s 0xf0)].
  destruct (negb _); [|apply kqueue_levels].
  destruct (kqueue s 0xf0) as [s1| |] eqn:E; cbn [obind]; [|done..]. intros E2.
  destruct (kqueue_levels _ _ _ E) as [n H1], (kqueue_levels _ _ _ E2) as [n2 H2].
  exists (n + n2)%nat. by rewrite H2, H1, replicate_add, app_assoc.
Qed.

Lemma read_levels s v s' : ps2_read_data s = Ret (v, s') -> count (queue s) <> 0 ->
  irqs s' = irqs s ++ [0; Z.b2z (nonempty s')].
Proof.
  unfold ps2_read_data. destruct (Z.eqb_spec (count (queue s)) 0); [done|]. intros H _. revert H.
  destruct (at_index _ _); [|done..]. cbn [obind]. intros [= <- <-]%Ret_inj. done.
Qed.

(** The level the log ends with is whether there are bytes. *)
Lemma arrivals_nonempty s s' n : queue_wf s -> queue_wf s' -> irqs s' = irqs s ++ replicate n 1 ->
  nonempty s' = nonempty s || negb (n =? 0)%nat.
Proof.
  intros [_ _ _ _ _ Hi] [_ _ _ _ _ Hi'] E. unfold nonempty. destruct n as [|n].
  - rewrite E, app_nil_r, Hi in Hi'. rewrite orb_false_r. by destruct (count (queue s) =? 0), (count (queue s') =? 0).
  - rewrite E, replicate_S_end, app_assoc, last_snoc in Hi'. rewrite orb_true_r. cbn in Hi'.
    by destruct (count (queue s') =? 0).
Qed.

(** ** The invariant *)
(** Keyboard enabled and mouse idle, nothing in service, line 1 high and requested exactly
    when the keyboard has bytes, and the CPU interrupted if so. *)
Record linked (base : Z) (m : machine) : Prop := {
  ln_ctl : ctl_wf (ctl m); ln_mouse : mfull (ctl m) = false; ln_enabled : enabled (ctl m);
  ln_pic : settled 1 base 0 (i8259 m);
  ln_request : request 1 (i8259 m) = high 1 (i8259 m); ln_high : high 1 (i8259 m) = kfull (ctl m);
  ln_irq : kfull (ctl m) = true -> irq_asserted m = true
}.

(** The bytes the keyboard holds. *)
Definition held (m : machine) : list Z := contents (kcommon (kbd (ctl m))).

Lemma press_linked base m c : linked base m ->
  let bs := key_bytes (raw_mode (kbd (ctl m))) c in
  exists m', step m (Press c) = Ret ([], m') /\ linked base m' /\ held m' = offer (held m) bs /\
    raw_mode (kbd (ctl m')) = raw_mode (kbd (ctl m)).
Proof.
  intros [Hw Hm He Hs Hr Hh Hi] bs. pose proof Hw as [[Hk _ _] _]. cbn [step]. unfold kbd_event.
  destruct (put_keycode_spec (kbd (ctl m)) c Hk) as (kb & E & (Hkb & Hc & _ & Hpre & _) & _ & Ht & Hsc). rewrite E. cbn [obind].
  destruct (put_keycode_levels _ _ _ E) as [n Hn]. rewrite (with_kbd_lines _ _ _ Hw Hm He Hn).
  destruct (with_kbd_wf (ctl m) kb Hw Hkb Hpre) as [Hw' (Ek & Em & Emd & _)]. cbn [set_devices kbd mouse mode] in Ek, Em, Emd.
  pose proof (arrivals_nonempty _ _ n Hk Hkb Hn) as Hne. fold (kfull (ctl m)) in Hne.
  destruct (kbd_arrivals base n (i8259 m) Hs Hr) as (Hs' & Hr' & Hh'). eexists. split; [done|]. split.
  - split; cbn [ctl i8259 irq_asserted]; [exact Hw'|unfold mfull; by rewrite Em|unfold enabled; by rewrite Emd|exact Hs'|exact Hr'| |];
      unfold kfull at 1; rewrite Ek, Hne; [by rewrite Hh', Hh|].
    destruct (kfull (ctl m)) eqn:Ef; [by rewrite Hi|]. destruct n as [|n]; [done|]. intros _.
    by rewrite (arrivals_raise base), orb_true_r.
  - unfold held, raw_mode. cbn [ctl]. rewrite Ek, Ht, Hsc. done.
Qed.

Lemma level_linked base m n v : linked base m -> 1 < n ->
  exists m', step m (Level n v) = Ret ([], m') /\ linked base m' /\ ctl m' = ctl m.
Proof.
  intros [Hw Hm He Hs Hr Hh Hi] Hn. eexists. split; [done|]. split; [|done].
  destruct (settled_other 1 ltac:(lia) base 0 _ n v Hn Hs) as (Hs' & Hr' & Hh').
  split; cbn [ctl i8259 irq_asserted]; try done; [congruence|congruence|]. intros Hf. by rewrite Hi.
Qed.

Lemma serve_linked base m b l : linked base m -> held m = b :: l ->
  exists m', step m Serve = Ret ([(base + 1, b)], m') /\ linked base m' /\ held m' = l /\
    raw_mode (kbd (ctl m')) = raw_mode (kbd (ctl m)).
Proof.
  intros [Hw Hm He Hs Hr Hh Hi] Hl. pose proof Hw as [[Hk _ _] _]. unfold held in Hl.
  assert (kfull (ctl m) = true) as Hf by (unfold kfull; rewrite nonempty_contents by done; by rewrite Hl).
  cbn [step]. rewrite (Hi Hf). rewrite Hf in Hh. rewrite Hh in Hr.
  destruct (serve 1 ltac:(lia) base _ Hs Hr) as (p1 & -> & Hs1 & Hr1 & Hh1 & Hl1). rewrite Hh in Hh1.
  unfold kbd_read_data. assert ((pending (ctl m) =? KBD_PENDING_AUX) = false) as ->.
  { destruct Hw as [[_ _ Hp] _]. by rewrite Hp, Hf, Hm. }
  destruct (ps2_read_spec _ Hk) as (v & c & E & _ & Hc & _ & Hpre & Hv). rewrite Hl in Hv. destruct Hv as [-> Hv].
  rewrite E. cbn [obind]. apply read_levels in E; [|by unfold kfull, nonempty in Hf; rewrite negb_true_iff, Z.eqb_neq in Hf].
  set (kb := set_kcommon (kbd (ctl m)) c). rewrite (with_kbd_lines _ kb _ Hw Hm He E).
  destruct (with_kbd_wf (ctl m) kb Hw Hc Hpre) as [Hw' (Ek & Em & Emd & _)]. cbn [set_devices kbd mouse mode] in Ek, Em, Emd.
  destruct (kbd_level_line base 2 p1 0 Hs1) as (Hs2 & Hr2 & Hh2).
  destruct (kbd_level_line base 2 _ (Z.b2z (nonempty c)) Hs2) as (Hs3 & Hr3 & Hh3).
  rewrite <- bus_levels_app in Hs3, Hr3, Hh3. set (p3 := bus_levels p1 _) in Hs3, Hr3, Hh3.
  assert (request 1 p3 = nonempty c /\ high 1 p3 = nonempty c) as [Hr3' Hh3'].
  { rewrite Hr3, Hh3, Hh2, Hr2, Hr1, Hh1. by destruct (nonempty c). }
  destruct (end_service 1 ltac:(lia) base p3 Hs3) as (p4 & E4 & Hs4 & Hr4 & Hh4 & Hl4 & Hup).
  change (bus_levels p1 (kbd_lines _)) with p3. rewrite E4. eexists. split; [done|].
  split; [|unfold held; cbn [ctl]; by rewrite Ek].
  split; cbn [ctl i8259 irq_asserted]; [exact Hw'|unfold mfull; by rewrite Em|unfold enabled; by rewrite Emd|exact Hs4|congruence| |];
    unfold kfull; rewrite Ek; change (kcommon kb) with c; [congruence|]. intros Hn. rewrite Hn in Hr3'.
  rewrite (raised_trans _ p3); [|etrans; [exact Hl1|apply bus_levels_log]|exact Hl4]. by rewrite (raised_snoc p3 p4 (Hup Hr3')), orb_true_r.
Qed.

(** ** Sessions *)
(** With [n] bytes in the keyboard: a key finds room, the CPU serves the keyboard only when
    there is a byte, and the other devices' lines come after the keyboard's. *)
Fixpoint playable (raw : bool) (n : nat) (evs : list event) : Prop :=
  match evs with
  | [] => True
  | Press c :: evs => (n + length (key_bytes raw c) <= 256)%nat /\ playable raw (n + length (key_bytes raw c)) evs
  | Level l _ :: evs => 1 < l /\ playable raw n evs
  | Serve :: evs => (0 < n)%nat /\ playable raw (n - 1) evs
  end.

Definition presses (evs : list event) : list Z := omap (fun e => match e with Press c => Some c | _ => None end) evs.
Definition serves (evs : list event) : nat := length (omap (fun e => match e with Serve => Some tt | _ => None end) evs).

Lemma run_linked base evs : forall m, linked base m -> playable (raw_mode (kbd (ctl m))) (length (held m)) evs ->
  exists out m', run m evs = Ret (out, m') /\ linked base m' /\ map fst out = replicate (serves evs) (base + 1) /\
    map snd out ++ held m' = held m ++ concat (map (key_bytes (raw_mode (kbd (ctl m)))) (presses evs)).
Proof.
  induction evs as [|e evs IH]; intros m Hl Hp; cbn [run].
  { exists [], m. split_and!; [done..|]. cbn. by rewrite app_nil_r. }
  destruct e as [c|n v|]; cbn [playable] in Hp; destruct Hp as [Hb Hp].
  - destruct (press_linked base m c Hl) as (m1 & -> & Hl1 & Eh & Er). cbn [obind]. rewrite offer_fits in Eh by done.
    destruct (IH m1 Hl1) as (out & m2 & -> & Hl2 & Hv & Hs); [by rewrite Er, Eh, length_app|]. cbn [obind app].
    exists out, m2. split_and!; [done..|]. rewrite Hs, Eh, Er. cbn [presses omap list_omap map concat]. by rewrite <- app_assoc.
  - destruct (level_linked base m n v Hl Hb) as (m1 & -> & Hl1 & Ec). cbn [obind].
    destruct (IH m1 Hl1) as (out & m2 & -> & Hl2 & Hv & Hs); unfold held in *; rewrite ?Ec in *; [done|]. cbn [obind app].
    by exists out, m2.
  - destruct (held m) as [|b l] eqn:Eh; [cbn in Hb; lia|]. destruct (serve_linked base m b l Hl Eh) as (m1 & -> & Hl1 & El & Er).
    cbn [obind]. cbn [length] in Hp. rewrite Nat.sub_1_r in Hp.
    destruct (IH m1 Hl1) as (out & m2 & -> & Hl2 & Hv & Hs); [by rewrite Er, El|]. cbn [obind app].
    exists ((base + 1, b) :: out), m2. split_and!; [done|done| |].
    + cbn [map fst]. rewrite Hv. done.
    + cbn [map snd app]. rewrite Hs, El, Er. done.
Qed.

(** C25. Keys reach the guest by interrupt: with the keyboard enabled and empty, the mouse
    idle and the interrupt controllers at rest, in any interleaving of key presses (that
    fit the keyboard's queue), changes of the lines of lower priority (any line above 1;
    line 0, the timer's, whose interrupts come before the keyboard's, must not change) and
    runs of the guest's interrupt routine while bytes are waiting, the CPU is interrupted for
    every single byte: each run of the routine gets line 1's vector and the next byte, and the bytes
    got so far followed by those still in the keyboard are exactly the bytes of the keys
    pressed, in order; in raw set 2 they decode to the keys. *)
Theorem keyboard_interrupts base m evs :
  linked base m -> held m = [] -> playable (raw_mode (kbd (ctl m))) 0 evs ->
  exists out m', run m evs = Ret (out, m') /\ map fst out = replicate (serves evs) (base + 1) /\
    map snd out ++ held m' = concat (map (key_bytes (raw_mode (kbd (ctl m)))) (presses evs)) /\
    (raw_mode (kbd (ctl m)) = true -> Forall key_ok (presses evs) -> decode_keys (map snd out ++ held m') = presses evs).
Proof.
  intros Hl Hh Hp. destruct (run_linked base evs m Hl) as (out & m' & E & _ & Hv & Hs); [by rewrite Hh|].
  rewrite Hh in Hs. exists out, m'. split_and!; [done..|]. intros Hr Hk. rewrite Hs, Hr. by apply decode_stream.
Qed.

(** The machine after the firmware has set the interrupt controllers up. *)
Definition pic_at_rest : PicState2 :=
  match
    (let! st := pic_ioport_write (i8259_init false) false 0 0x11 in
     let! st := pic_ioport_write st false 1 8 in
     let! st := pic_ioport_write st false 1 4 in
     pic_ioport_write st false 1 1)
  with Ret st => st | _ => i8259_init false end.
Definition pc_booted : machine := mkMachine (machine_reset i8042_initfn) pic_at_rest false.

Lemma pc_booted_linked : linked 8 pc_booted.
Proof.
  split; try (vm_compute; done).
  - apply reset_wf_ctl, init_ctl_wf.
  - split; try (vm_compute; done). intros j Hj. assert (j = 0) as -> by lia. done.
Qed.

Lemma keyboard_interrupts_witness :
  exists m', run pc_booted [Press 0x1e; Press 0x9e; Level 7 1; Serve; Press 0x30; Serve; Serve] =
    Ret ([(9, 0x1e); (9, 0x9e); (9, 0x30)], m').
Proof.
  destruct (keyboard_interrupts 8 pc_booted [Press 0x1e; Press 0x9e; Level 7 1; Serve; Press 0x30; Serve; Serve])
    as (out & m' & E & _); [exact pc_booted_linked|reflexivity|repeat split; first [apply Nat.leb_le; vm_compute; reflexivity | lia]|].
  exists m'. rewrite E. vm_compute in E. apply Ret_inj in E. injection E as <- <-. reflexivity.
Defined.
