(* ===== verification/Rtc.v ===== *)
(** * The real-time clock: hw/mc146818rtc.c

    The clock with its CMOS memory, its calendar and its timers, as the PC build has it.  A
    timer is the time it is armed for; the timer for interrupts the guest missed exists only
    with the -rtc-td-hack option.  What an operation learns from the rest of the machine (the
    clock, whether the HPET has taken over the interrupt, whether the local APIC delivered an
    interrupt just raised) is its argument [env].  The calls on the interrupt line and on
    the square wave output are logs of levels.  The fields of the calendar are [int]s the
    code keeps small and the time of the next second is an [int64_t] far from overflow; they
    are unbounded here. *)

From S2P Require Import Prelude CUtils I8254.
From stdpp Require Import list.

Open Scope Z_scope.

Definition RTC_REINJECT_ON_ACK_COUNT : Z := 20.
Definition RTC_SECONDS : nat := 0.
Definition RTC_SECONDS_ALARM : nat := 1.
Definition RTC_MINUTES : nat := 2.
Definition RTC_MINUTES_ALARM : nat := 3.
Definition RTC_HOURS : nat := 4.
Definition RTC_HOURS_ALARM : nat := 5.
Definition RTC_DAY_OF_WEEK : nat := 6.
Definition RTC_DAY_OF_MONTH : nat := 7.
Definition RTC_MONTH : nat := 8.
Definition RTC_YEAR : nat := 9.
Definition RTC_REG_A : nat := 10.
Definition RTC_REG_B : nat := 11.
Definition RTC_REG_C : nat := 12.
Definition RTC_REG_D : nat := 13.
Definition REG_A_UIP : Z := 0x80.
Definition REG_B_SET : Z := 0x80.
Definition REG_B_PIE : Z := 0x40.
Definition REG_B_AIE : Z := 0x20.
Definition REG_B_UIE : Z := 0x10.
Definition REG_B_SQWE : Z := 0x08.
Definition REG_B_DM : Z := 0x04.
Definition REG_C_UF : Z := 0x10.
Definition REG_C_IRQF : Z := 0x80.
Definition REG_C_PF : Z := 0x40.
Definition REG_C_AF : Z := 0x20.

(** The calendar: a date with its day of the week. *)
Record rtc_tm : Type := mkRtm { date : tm; tm_wday : Z }.

(** [timer] is [None] for a timer that does not exist. *)
Abbreviation timer := (option (option Z)).

Record RTCState : Type := mkRtc {
  cmos_data : list Z; cmos_index : Z; current_tm : rtc_tm; base_year : Z;
  irq : list Z; sqw_irq : option (list Z);
  periodic_timer : option Z; next_periodic_time : Z; next_second_time : Z;
  irq_reinject_on_ack_count : Z; irq_coalesced : Z; period : Z;
  coalesced_timer : timer; second_timer : option Z; second_timer2 : option Z;
  rtc_td_hack : bool
}.

Record env : Type := mkEnv { clock : Z; hpet_in_legacy_mode : bool; apic_irq_delivered : bool }.

Abbreviation res A := (outcome Empty_set A).

(** The fields the operations assign. *)
Definition set_cmos (s : RTCState) (d : list Z) : RTCState :=
  mkRtc d (cmos_index s) (current_tm s) (base_year s) (irq s) (sqw_irq s) (periodic_timer s) (next_periodic_time s)
    (next_second_time s) (irq_reinject_on_ack_count s) (irq_coalesced s) (period s) (coalesced_timer s)
    (second_timer s) (second_timer2 s) (rtc_td_hack s).
Definition set_index (s : RTCState) (i : Z) : RTCState :=
  mkRtc (cmos_data s) i (current_tm s) (base_year s) (irq s) (sqw_irq s) (periodic_timer s) (next_periodic_time s)
    (next_second_time s) (irq_reinject_on_ack_count s) (irq_coalesced s) (period s) (coalesced_timer s)
    (second_timer s) (second_timer2 s) (rtc_td_hack s).
Definition set_tm (s : RTCState) (t : rtc_tm) : RTCState :=
  mkRtc (cmos_data s) (cmos_index s) t (base_year s) (irq s) (sqw_irq s) (periodic_timer s) (next_periodic_time s)
    (next_second_time s) (irq_reinject_on_ack_count s) (irq_coalesced s) (period s) (coalesced_timer s)
    (second_timer s) (second_timer2 s) (rtc_td_hack s).
Definition set_lines (s : RTCState) (i : list Z) (q : option (list Z)) : RTCState :=
  mkRtc (cmos_data s) (cmos_index s) (current_tm s) (base_year s) i q (periodic_timer s) (next_periodic_time s)
    (next_second_time s) (irq_reinject_on_ack_count s) (irq_coalesced s) (period s) (coalesced_timer s)
    (second_timer s) (second_timer2 s) (rtc_td_hack s).
Definition set_periodic (s : RTCState) (t : option Z) (next : Z) : RTCState :=
  mkRtc (cmos_data s) (cmos_index s) (current_tm s) (base_year s) (irq s) (sqw_irq s) t next
    (next_second_time s) (irq_reinject_on_ack_count s) (irq_coalesced s) (period s) (coalesced_timer s)
    (second_timer s) (second_timer2 s) (rtc_td_hack s).
Definition set_second (s : RTCState) (next : Z) (t t2 : option Z) : RTCState :=
  mkRtc (cmos_data s) (cmos_index s) (current_tm s) (base_year s) (irq s) (sqw_irq s) (periodic_timer s)
    (next_periodic_time s) next (irq_reinject_on_ack_count s) (irq_coalesced s) (period s) (coalesced_timer s)
    t t2 (rtc_td_hack s).
Definition set_coalesced (s : RTCState) (acks n p : Z) : RTCState :=
  mkRtc (cmos_data s) (cmos_index s) (current_tm s) (base_year s) (irq s) (sqw_irq s) (periodic_timer s)
    (next_periodic_time s) (next_second_time s) acks n p (coalesced_timer s) (second_timer s) (second_timer2 s) (rtc_td_hack s).
Definition set_ctimer (s : RTCState) (t : timer) : RTCState :=
  mkRtc (cmos_data s) (cmos_index s) (current_tm s) (base_year s) (irq s) (sqw_irq s) (periodic_timer s)
    (next_periodic_time s) (next_second_time s) (irq_reinject_on_ack_count s) (irq_coalesced s) (period s) t
    (second_timer s) (second_timer2 s) (rtc_td_hack s).

(** [s->cmos_data[i]] and the assignment to it, for the registers the code names. *)
Definition cmos (s : RTCState) (i : nat) : Z := default 0 (cmos_data s !! i).
Definition put (s : RTCState) (i : nat) (v : Z) : RTCState := set_cmos s (<[i := u8 v]> (cmos_data s)).
Definition cmos_has (s : RTCState) (i : nat) (mask : Z) : bool := negb (Z.land (cmos s i) mask =? 0).

(** ** Interrupts *)
Definition irq_raise (s : RTCState) : RTCState := set_lines s (irq s ++ [1]) (sqw_irq s).
Definition irq_lower (s : RTCState) : RTCState := set_lines s (irq s ++ [0]) (sqw_irq s).
Definition sqw_raise (s : RTCState) : RTCState := set_lines s (irq s) (option_map (fun l => l ++ [1]) (sqw_irq s)).
Definition rtc_irq_raise (e : env) (s : RTCState) : RTCState := if negb (hpet_in_legacy_mode e) then irq_raise s else s.

Definition rtc_coalesced_timer_update (e : env) (s : RTCState) : res RTCState :=
  match coalesced_timer s with
  | None => Fault
  | Some _ =>
      if irq_coalesced s =? 0 then Ret (set_ctimer s (Some None))
      else
        let c := Z.min (irq_coalesced s) 7 + 1 in
        let next_clock := s64 (u64 (clock e) + muldiv64 (period s / c) get_ticks_per_sec 32768) in
        Ret (set_ctimer s (Some (Some next_clock)))
  end.

Definition rtc_coalesced_timer (e : env) (s : RTCState) : res RTCState :=
  let s := if negb (irq_coalesced s =? 0) then
             let s := put s RTC_REG_C (Z.lor (cmos s RTC_REG_C) 0xc0) in
             let s := rtc_irq_raise e s in
             if apic_irq_delivered e
             then set_coalesced s (irq_reinject_on_ack_count s) (irq_coalesced s - 1) (period s) else s
           else s in
  rtc_coalesced_timer_update e s.

(** ** The periodic interrupt *)
Definition rtc_timer_update (e : env) (s : RTCState) (current_time : Z) : RTCState :=
  let period_code := Z.land (cmos s RTC_REG_A) 0x0f in
  let enable_pie := negb (hpet_in_legacy_mode e) in
  let sqw := match sqw_irq s with Some _ => true | None => false end in
  if negb (period_code =? 0) && ((cmos_has s RTC_REG_B REG_B_PIE && enable_pie) || (cmos_has s RTC_REG_B REG_B_SQWE && sqw)) then
    let period_code := if period_code <=? 2 then period_code + 7 else period_code in
    let p := Z.shiftl 1 (period_code - 1) in
    let n := if negb (p =? period s) then u32 (irq_coalesced s * period s) / p else irq_coalesced s in
    let s := set_coalesced s (irq_reinject_on_ack_count s) n p in
    let cur_clock := s64 (muldiv64 (u64 current_time) 32768 get_ticks_per_sec) in
    let next_irq_clock := Z.land cur_clock (Z.lnot (p - 1)) + p in
    let next := s64 (u64 (muldiv64 (u64 next_irq_clock) get_ticks_per_sec 32768 + 1)) in
    set_periodic s (Some next) next
  else
    let s := set_coalesced s (irq_reinject_on_ack_count s) 0 (period s) in
    set_periodic s None (next_periodic_time s).

Definition rtc_periodic_timer (e : env) (s : RTCState) : res RTCState :=
  let s := rtc_timer_update e s (next_periodic_time s) in
  let! s :=
    if cmos_has s RTC_REG_B REG_B_PIE then
      let s := put s RTC_REG_C (Z.lor (cmos s RTC_REG_C) 0xc0) in
      if rtc_td_hack s then
        let s := if RTC_REINJECT_ON_ACK_COUNT <=? irq_reinject_on_ack_count s
                 then set_coalesced s 0 (irq_coalesced s) (period s) else s in
        let s := rtc_irq_raise e s in
        if negb (apic_irq_delivered e) then
          rtc_coalesced_timer_update e (set_coalesced s (irq_reinject_on_ack_count s) (u32 (irq_coalesced s + 1)) (period s))
        else Ret s
      else Ret (rtc_irq_raise e s)
    else Ret s in
  Ret (if cmos_has s RTC_REG_B REG_B_SQWE then sqw_raise s else s).

(** ** The calendar registers *)
Definition rtc_to_bcd (s : RTCState) (a : Z) : Z :=
  if cmos_has s RTC_REG_B REG_B_DM then a else Z.lor (Z.shiftl (Z.quot a 10) 4) (Z.rem a 10).
Definition rtc_from_bcd (s : RTCState) (a : Z) : Z :=
  if cmos_has s RTC_REG_B REG_B_DM then a else Z.shiftr a 4 * 10 + Z.land a 0x0f.

Definition rtc_set_time (s : RTCState) : RTCState :=
  let sec := rtc_from_bcd s (cmos s RTC_SECONDS) in
  let min := rtc_from_bcd s (cmos s RTC_MINUTES) in
  let hour := rtc_from_bcd s (Z.land (cmos s RTC_HOURS) 0x7f) in
  let hour := if negb (cmos_has s RTC_REG_B 0x02) && cmos_has s RTC_HOURS 0x80 then hour + 12 else hour in
  let wday := rtc_from_bcd s (cmos s RTC_DAY_OF_WEEK) - 1 in
  let mday := rtc_from_bcd s (cmos s RTC_DAY_OF_MONTH) in
  let mon := rtc_from_bcd s (cmos s RTC_MONTH) - 1 in
  let year := rtc_from_bcd s (cmos s RTC_YEAR) + base_year s - 1900 in
  set_tm s (mkRtm (mkTm sec min hour mday mon year) wday).

Definition rtc_copy_date (s : RTCState) : RTCState :=
  let t := date (current_tm s) in
  let s := put s RTC_SECONDS (rtc_to_bcd s (tm_sec t)) in
  let s := put s RTC_MINUTES (rtc_to_bcd s (tm_min t)) in
  let s := if cmos_has s RTC_REG_B 0x02 then put s RTC_HOURS (rtc_to_bcd s (tm_hour t))
           else
             let s := put s RTC_HOURS (rtc_to_bcd s (Z.rem (tm_hour t) 12)) in
             if 12 <=? tm_hour t then put s RTC_HOURS (Z.lor (cmos s RTC_HOURS) 0x80) else s in
  let s := put s RTC_DAY_OF_WEEK (rtc_to_bcd s (tm_wday (current_tm s) + 1)) in
  let s := put s RTC_DAY_OF_MONTH (rtc_to_bcd s (tm_mday t)) in
  let s := put s RTC_MONTH (rtc_to_bcd s (tm_mon t + 1)) in
  let year := Z.rem (tm_year t - base_year s) 100 in
  let year := if year <? 0 then year + 100 else year in
  put s RTC_YEAR (rtc_to_bcd s year).

(** ** The calendar *)
Definition days_tab : list Z := [31; 28; 31; 30; 31; 30; 31; 31; 30; 31; 30; 31].

Definition get_days_in_month (month year : Z) : Z :=
  if 12 <=? u32 month then 31
  else
    let d := default 0 (days_tab !! Z.to_nat month) in
    if (month =? 1) && ((Z.rem year 4 =? 0) && (negb (Z.rem year 100 =? 0) || (Z.rem year 400 =? 0))) then d + 1 else d.

(** The day after, at midnight. *)
Definition next_day (t : rtc_tm) : rtc_tm :=
  let d := date t in
  let wday := tm_wday t + 1 in
  let wday := if 7 <=? u32 wday then 0 else wday in
  let days_in_month := get_days_in_month (tm_mon d) (tm_year d + 1900) in
  let mday := tm_mday d + 1 in
  if mday <? 1 then mkRtm (mkTm 0 0 0 1 (tm_mon d) (tm_year d)) wday
  else if days_in_month <? mday then
    let mon := tm_mon d + 1 in
    if 12 <=? mon then mkRtm (mkTm 0 0 0 1 0 (tm_year d + 1)) wday
    else mkRtm (mkTm 0 0 0 1 mon (tm_year d)) wday
  else mkRtm (mkTm 0 0 0 mday (tm_mon d) (tm_year d)) wday.

Definition rtc_next_second (t : rtc_tm) : rtc_tm :=
  let d := date t in
  let set sec min hour := mkRtm (mkTm sec min hour (tm_mday d) (tm_mon d) (tm_year d)) (tm_wday t) in
  let sec := tm_sec d + 1 in
  if 60 <=? u32 sec then
    let min := tm_min d + 1 in
    if 60 <=? u32 min then
      let hour := tm_hour d + 1 in
      if 24 <=? u32 hour then next_day t else set 0 0 hour
    else set 0 min (tm_hour d)
  else set sec (tm_min d) (tm_hour d).

(** ** The update cycle *)
Definition rtc_update_second (s : RTCState) : RTCState :=
  if negb (Z.land (cmos s RTC_REG_A) 0x70 =? 0x20) then
    let next := next_second_time s + get_ticks_per_sec in
    set_second s next (Some next) (second_timer2 s)
  else
    let s := set_tm s (rtc_next_second (current_tm s)) in
    let s := if negb (cmos_has s RTC_REG_B REG_B_SET) then put s RTC_REG_A (Z.lor (cmos s RTC_REG_A) REG_A_UIP) else s in
    let delay := get_ticks_per_sec * 1 / 100 in
    let delay := if delay <? 1 then 1 else delay in
    set_second s (next_second_time s) (second_timer s) (Some (next_second_time s + delay)).

Definition alarm_match (s : RTCState) (r : nat) (v : Z) : bool :=
  (Z.land (cmos s r) 0xc0 =? 0xc0) || (cmos s r =? v).

(** The alarm check of the update, and its end-of-update interrupt. *)
Definition check_alarm (e : env) (s : RTCState) : RTCState :=
  let t := date (current_tm s) in
  if cmos_has s RTC_REG_B REG_B_AIE then
    if alarm_match s RTC_SECONDS_ALARM (tm_sec t) && alarm_match s RTC_MINUTES_ALARM (tm_mon t) &&
       alarm_match s RTC_HOURS_ALARM (tm_hour t)
    then rtc_irq_raise e (put s RTC_REG_C (Z.lor (cmos s RTC_REG_C) 0xa0)) else s
  else s.

Definition update_ended (e : env) (s : RTCState) : RTCState :=
  let s := put s RTC_REG_C (Z.lor (cmos s RTC_REG_C) REG_C_UF) in
  if cmos_has s RTC_REG_B REG_B_UIE
  then rtc_irq_raise e (put s RTC_REG_C (Z.lor (cmos s RTC_REG_C) REG_C_IRQF)) else s.

Definition rtc_update_second2 (e : env) (s : RTCState) : RTCState :=
  let s := if negb (cmos_has s RTC_REG_B REG_B_SET) then rtc_copy_date s else s in
  let s := check_alarm e s in
  let s := update_ended e s in
  let s := put s RTC_REG_A (Z.land (cmos s RTC_REG_A) (Z.lnot REG_A_UIP)) in
  let next := next_second_time s + get_ticks_per_sec in
  set_second s next (Some next) (second_timer2 s).

(** ** The ports *)
Definition cmos_ioport_write (e : env) (s : RTCState) (addr data : Z) : res RTCState :=
  if Z.land addr 1 =? 0 then Ret (set_index s (Z.land data 0x7f))
  else
    let i := Z.to_nat (cmos_index s) in
    if existsb (Nat.eqb i) [RTC_SECONDS_ALARM; RTC_MINUTES_ALARM; RTC_HOURS_ALARM] then Ret (put s i data)
    else if existsb (Nat.eqb i) [RTC_SECONDS; RTC_MINUTES; RTC_HOURS; RTC_DAY_OF_WEEK; RTC_DAY_OF_MONTH; RTC_MONTH; RTC_YEAR] then
      let s := put s i data in
      Ret (if negb (cmos_has s RTC_REG_B REG_B_SET) then rtc_set_time s else s)
    else if Nat.eqb i RTC_REG_A then
      let s := put s RTC_REG_A (Z.lor (Z.land data (Z.lnot REG_A_UIP)) (Z.land (cmos s RTC_REG_A) REG_A_UIP)) in
      Ret (rtc_timer_update e s (clock e))
    else if Nat.eqb i RTC_REG_B then
      let '(s, data) :=
        if negb (Z.land data REG_B_SET =? 0) then
          (put s RTC_REG_A (Z.land (cmos s RTC_REG_A) (Z.lnot REG_A_UIP)), Z.land data (Z.lnot REG_B_UIE))
        else (if cmos_has s RTC_REG_B REG_B_SET then rtc_set_time s else s, data) in
      Ret (rtc_timer_update e (put s RTC_REG_B data) (clock e))
    else if Nat.eqb i RTC_REG_C || Nat.eqb i RTC_REG_D then Ret s
    else if (i <? length (cmos_data s))%nat then Ret (put s i data) else Fault.

Definition cmos_ioport_read (e : env) (s : RTCState) (addr : Z) : res (Z * RTCState) :=
  if Z.land addr 1 =? 0 then Ret (0xff, s)
  else
    let i := Z.to_nat (cmos_index s) in
    let! ret := oget (cmos_data s !! i) in
    if Nat.eqb i RTC_REG_C then
      let s := irq_lower s in
      if negb (irq_coalesced s =? 0) && (irq_reinject_on_ack_count s <? RTC_REINJECT_ON_ACK_COUNT) then
        let s := irq_raise (set_coalesced s (irq_reinject_on_ack_count s + 1) (irq_coalesced s) (period s)) in
        Ret (ret, if apic_irq_delivered e then set_coalesced s (irq_reinject_on_ack_count s) (irq_coalesced s - 1) (period s) else s)
      else Ret (ret, put s RTC_REG_C 0x00)
    else Ret (ret, s).

(** ** Set-up *)
Definition rtc_set_memory (s : RTCState) (addr val : Z) : RTCState :=
  if (0 <=? addr) && (addr <=? 127) then put s (Z.to_nat addr) val else s.

Definition rtc_set_date (s : RTCState) (t : rtc_tm) : RTCState := rtc_copy_date (set_tm s t).

Definition REG_IBM_CENTURY_BYTE : Z := 0x32.
Definition REG_IBM_PS2_CENTURY_BYTE : Z := 0x37.

(** [host] is the host's date. *)
Definition rtc_set_date_from_host (s : RTCState) (host : rtc_tm) : RTCState :=
  let s := rtc_set_date s host in
  let val := rtc_to_bcd s (Z.quot (tm_year (date host)) 100 + 19) in
  rtc_set_memory (rtc_set_memory s REG_IBM_CENTURY_BYTE val) REG_IBM_PS2_CENTURY_BYTE val.

Definition rtc_reset (s : RTCState) : RTCState :=
  let s := put s RTC_REG_B (Z.land (cmos s RTC_REG_B) (Z.lnot (Z.lor (Z.lor REG_B_PIE REG_B_AIE) REG_B_SQWE))) in
  let s := put s RTC_REG_C (Z.land (cmos s RTC_REG_C)
             (Z.lnot (Z.lor (Z.lor (Z.lor REG_C_UF REG_C_IRQF) REG_C_PF) REG_C_AF))) in
  let s := irq_lower s in
  if rtc_td_hack s then set_coalesced s (irq_reinject_on_ack_count s) 0 (period s) else s.

(** [rtc_init] with the device's property; the object starts zeroed. *)
Definition rtc_zero (td : bool) (base : Z) : RTCState :=
  mkRtc (replicate 128 0) 0 (mkRtm (mkTm 0 0 0 0 0 0) 0) base [] None None 0 0 0 0 0 None None None td.

Definition rtc_initfn (e : env) (s : RTCState) (host : rtc_tm) : RTCState :=
  let s := put s RTC_REG_A 0x26 in
  let s := put s RTC_REG_B 0x02 in
  let s := put s RTC_REG_C 0x00 in
  let s := put s RTC_REG_D 0x80 in
  let s := rtc_set_date_from_host s host in
  let s := if rtc_td_hack s then set_ctimer s (Some None) else s in
  let next := clock e + get_ticks_per_sec * 99 / 100 in
  set_second s next None (Some next).

Definition rtc_init (e : env) (td : bool) (base_year : Z) (host : rtc_tm) : RTCState :=
  rtc_initfn e (rtc_zero td base_year) host.
