(* ===== verification/RtcProofs.v ===== *)
(** * The real-time clock: the calendar and its registers

    The calendar advances as [mktimegm] counts, the registers hold the calendar in all four
    formats, and the guest reads back the date it has set, as many seconds later as there
    were update cycles. *)

From S2P Require Import Prelude CUtils I8254 I8254Proofs Rtc.
From stdpp Require Import sets list.

Open Scope Z_scope.

(** ** Registers *)
Lemma put_data s i v : cmos_data (put s i v) = <[i := u8 v]> (cmos_data s).
Proof. done. Qed.

Lemma length_put s i v : length (cmos_data (put s i v)) = length (cmos_data s).
Proof. cbn. by rewrite length_insert. Qed.

Lemma cmos_put_eq s i v : (i < length (cmos_data s))%nat -> cmos (put s i v) i = u8 v.
Proof. intros Hi. unfold cmos. rewrite put_data, list_lookup_insert_eq by done. done. Qed.

Lemma cmos_put_ne s i j v : i <> j -> cmos (put s i v) j = cmos s j.
Proof. intros Hi. unfold cmos. rewrite put_data, list_lookup_insert_ne by done. done. Qed.

Lemma has_put_ne s i j v m : i <> j -> cmos_has (put s i v) j m = cmos_has s j m.
Proof. intros. unfold cmos_has. by rewrite cmos_put_ne. Qed.

(** ** The calendar *)
(** A date of the calendar, the weekday that of the day counted from Thursday, 1 January
    1970. *)
Definition date_days (t : rtc_tm) : Z := calendar_days (Z.to_nat (tm_year (date t) - 70)) (Z.to_nat (tm_mon (date t) + 1)) (tm_mday (date t)).

Record tm_wf (t : rtc_tm) : Prop := {
  tw_sec : 0 <= tm_sec (date t) < 60; tw_min : 0 <= tm_min (date t) < 60; tw_hour : 0 <= tm_hour (date t) < 24;
  tw_mon : 0 <= tm_mon (date t) < 12; tw_year : 70 <= tm_year (date t);
  tw_mday : 1 <= tm_mday (date t) <= month_len (tm_year (date t) + 1900) (Z.to_nat (tm_mon (date t) + 1));
  tw_wday : tm_wday t = (date_days t + 4) mod 7
}.

(** The seconds since 1 January 1970. *)
Definition seconds (t : rtc_tm) : Z :=
  86400 * date_days t + (3600 * tm_hour (date t) + 60 * tm_min (date t) + tm_sec (date t)).

Lemma days_in_month_len m y : 0 <= m < 12 -> 0 <= y -> get_days_in_month m y = month_len y (Z.to_nat (m + 1)).
Proof.
  intros Hm Hy. unfold get_days_in_month. rewrite wrap_small by (unfold is_u; lia).
  rewrite (proj2 (Z.leb_gt 12 m)) by lia. rewrite !Z.rem_mod_nonneg by lia.
  assert (m = 0 \/ m = 1 \/ m = 2 \/ m = 3 \/ m = 4 \/ m = 5 \/ m = 6 \/ m = 7 \/ m = 8 \/ m = 9 \/ m = 10 \/ m = 11) as Hc by lia.
  destruct Hc as [->|[->|[->|[->|[->|[->|[->|[->|[->|[->|[->| ->]]]]]]]]]]]; try reflexivity.
Qed.

Lemma month_len_range y m : 28 <= month_len y m <= 31.
Proof. unfold month_len, leap. repeat case_match; lia. Qed.

(** The first of the next month, and of the next year. *)
Lemma calendar_next_month n m d : (1 <= m <= 11)%nat -> d = month_len (1970 + Z.of_nat n) m ->
  calendar_days n (S m) 1 = calendar_days n m d + 1.
Proof.
  intros Hm ->. unfold calendar_days. destruct m as [|m]; [lia|]. cbn [Nat.sub]. rewrite Nat.sub_0_r. cbn [month_days]. lia.
Qed.

Lemma calendar_next_year n : calendar_days (S n) 1 1 = calendar_days n 12 31 + 1.
Proof.
  unfold calendar_days. change (1 - 1)%nat with 0%nat. change (12 - 1)%nat with 11%nat. cbn [year_days].
  set (y := 1970 + Z.of_nat n). change (month_days (1970 + Z.of_nat (S n)) 0) with 0.
  assert (month_days y 11 = year_len y - 31) as -> by (unfold year_len; cbn; destruct (leap y); reflexivity). lia.
Qed.

Lemma wday_next w : 0 <= w < 7 -> (if 7 <=? u32 (w + 1) then 0 else w + 1) = (w + 1) mod 7.
Proof.
  intros Hw. rewrite wrap_small by (unfold is_u; lia). destruct (Z.leb_spec 7 (w + 1)).
  - by replace w with 6 by lia.
  - by rewrite Z.mod_small by lia.
Qed.

Lemma next_day_days t : tm_wf t -> date_days (next_day t) = date_days t + 1.
Proof.
  intros [Hs Hmi Hh Hm Hy Hd Hw]. unfold next_day. rewrite days_in_month_len by lia.
  rewrite (proj2 (Z.ltb_ge (tm_mday (date t) + 1) 1)) by lia.
  assert (tm_year (date t) + 1900 = 1970 + Z.of_nat (Z.to_nat (tm_year (date t) - 70))) as Ey by lia.
  unfold date_days. destruct (Z.ltb_spec (month_len (tm_year (date t) + 1900) (Z.to_nat (tm_mon (date t) + 1))) (tm_mday (date t) + 1));
    [destruct (Z.leb_spec 12 (tm_mon (date t) + 1))|]; cbn [date tm_year tm_mon tm_mday].
  - assert (tm_mon (date t) = 11) as Em by lia. rewrite Em in *. change (month_len _ (Z.to_nat (11 + 1))) with 31 in *.
    replace (Z.to_nat (tm_year (date t) + 1 - 70)) with (S (Z.to_nat (tm_year (date t) - 70))) by lia.
    change (Z.to_nat (0 + 1)) with 1%nat. rewrite calendar_next_year. f_equal. f_equal. lia.
  - replace (Z.to_nat (tm_mon (date t) + 1 + 1)) with (S (Z.to_nat (tm_mon (date t) + 1))) by lia.
    apply calendar_next_month; [lia|]. rewrite <- Ey. lia.
  - unfold calendar_days. lia.
Qed.

Lemma next_day_wf t : tm_wf t -> tm_wf (next_day t).
Proof.
  intros Hwf. pose proof (next_day_days t Hwf) as Hn. pose proof Hwf as [Hs Hmi Hh Hm Hy Hd Hw].
  assert (tm_wday (next_day t) = (date_days (next_day t) + 4) mod 7) as Hwd.
  { rewrite Hn. pose proof (Z.mod_pos_bound (date_days t + 4) 7 ltac:(lia)).
    assert (tm_wday (next_day t) = if 7 <=? u32 (tm_wday t + 1) then 0 else tm_wday t + 1) as -> by (unfold next_day; by repeat case_match).
    rewrite Hw, wday_next by lia. rewrite Zplus_mod_idemp_l. f_equal. lia. }
  split; [..|exact Hwd]; clear Hwd Hn; unfold next_day; rewrite days_in_month_len by lia;
    rewrite (proj2 (Z.ltb_ge (tm_mday (date t) + 1) 1)) by lia;
    match goal with |- context [if ?a <? ?b then _ else _] => destruct (Z.ltb_spec a b) end;
    try match goal with |- context [if ?a <=? _ + 1 then _ else mkRtm _ _] => destruct (Z.leb_spec a (tm_mon (date t) + 1)) end;
    cbn [date tm_sec tm_min tm_hour tm_mday tm_mon tm_year]; try lia;
    match goal with |- _ <= _ <= month_len ?y ?m => pose proof (month_len_range y m); lia end.
Qed.

Lemma next_second_wf t : tm_wf t -> tm_wf (rtc_next_second t) /\ seconds (rtc_next_second t) = seconds t + 1.
Proof.
  intros Hwf. pose proof Hwf as [Hs Hmi Hh Hm Hy Hd Hw]. unfold rtc_next_second. rewrite !wrap_small by (unfold is_u; lia).
  destruct (Z.leb_spec 60 (tm_sec (date t) + 1)); [destruct (Z.leb_spec 60 (tm_min (date t) + 1)); [destruct (Z.leb_spec 24 (tm_hour (date t) + 1))|]|].
  - split; [by apply next_day_wf|]. unfold seconds. rewrite next_day_days by done.
    assert (tm_hour (date (next_day t)) = 0 /\ tm_min (date (next_day t)) = 0 /\ tm_sec (date (next_day t)) = 0) as (-> & -> & ->)
      by (unfold next_day; by repeat case_match). lia.
  - split; [split; cbn; try lia; done|]. unfold seconds. cbn [date tm_sec tm_min tm_hour]. change (date_days _) with (date_days t). lia.
  - split; [split; cbn; try lia; done|]. unfold seconds. cbn [date tm_sec tm_min tm_hour]. change (date_days _) with (date_days t). lia.
  - split; [split; cbn; try lia; done|]. unfold seconds. cbn [date tm_sec tm_min tm_hour]. change (date_days _) with (date_days t). lia.
Qed.

(** [n] seconds later. *)
Definition after (n : nat) (t : rtc_tm) : rtc_tm := Nat.iter n rtc_next_second t.

Lemma after_wf n t : tm_wf t -> tm_wf (after n t) /\ seconds (after n t) = seconds t + Z.of_nat n.
Proof.
  intros Hw. induction n as [|n [IH1 IH2]]; [split; [done|cbn; lia]|]. unfold after in *. cbn [Nat.iter].
  destruct (next_second_wf _ IH1) as [H1 H2]. split; [done|]. change (Nat.iter (S n) rtc_next_second t) with (rtc_next_second (Nat.iter n rtc_next_second t)).
  rewrite H2, IH2. lia.
Qed.

(** The seconds are those of [mktimegm], as far as that reaches. *)
Lemma mktimegm_seconds t : tm_wf t -> tm_year (date t) < 5000000 ->
  mktimegm (date t) = if 86400 * date_days t <? 2 ^ 31 then Ret (seconds t) else Fault.
Proof.
  intros [Hs Hmi Hh Hm Hy Hd Hw] Hy2. pose proof (month_len_range (tm_year (date t) + 1900) (Z.to_nat (tm_mon (date t) + 1))) as Hl.
  pose proof (mktimegm_calendar (Z.to_nat (tm_year (date t) - 70)) (Z.to_nat (tm_mon (date t) + 1)) (tm_mday (date t))
    (tm_hour (date t)) (tm_min (date t)) (tm_sec (date t)) ltac:(lia) ltac:(lia) ltac:(lia)) as E.
  rewrite !Z2Nat.id in E by lia. replace (1970 + (tm_year (date t) - 70) - 1900) with (tm_year (date t)) in E by lia.
  replace (tm_mon (date t) + 1 - 1) with (tm_mon (date t)) in E by lia.
  unfold seconds, date_days. rewrite <- E. by destruct (date t).
Qed.

(** C27. The clock keeps the calendar: from any date from 1970 on with its right weekday,
    [n] steps of [rtc_next_second] reach the date that is [n] seconds later, counted year
    by year and month by month with the Gregorian leap years, with its right weekday; and
    [mktimegm] turns that date back into its seconds since 1 January 1970, as long as the
    seconds of its whole days fit an [int] (it overflows after that). *)
Theorem rtc_calendar t n :
  tm_wf t ->
  tm_wf (after n t) /\ seconds (after n t) = seconds t + Z.of_nat n /\
  (tm_year (date (after n t)) < 5000000 ->
   mktimegm (date (after n t)) = if 86400 * date_days (after n t) <? 2 ^ 31 then Ret (seconds t + Z.of_nat n) else Fault).
Proof.
  intros Hw. destruct (after_wf n t Hw) as [Hw' Es]. split_and!; [done|done|]. intros Hy. rewrite <- Es. by apply mktimegm_seconds.
Qed.

(** The last second of 1999. *)
Definition millennium : rtc_tm := mkRtm (mkTm 59 59 23 31 11 99) 5.

Lemma millennium_wf : tm_wf millennium.
Proof. split; vm_compute; intuition discriminate. Qed.

Lemma rtc_calendar_witness :
  tm_wf (after 5 millennium) /\ mktimegm (date (after 5 millennium)) = Ret (seconds millennium + 5).
Proof.
  destruct (rtc_calendar millennium 5 millennium_wf) as (H & _ & E). split; [exact H|].
  rewrite E; vm_compute; reflexivity.
Defined.

(** ** The formats of the registers *)
Definition dm (s : RTCState) : bool := cmos_has s RTC_REG_B REG_B_DM.
Definition h24 (s : RTCState) : bool := cmos_has s RTC_REG_B 0x02.

Definition enc (dm : bool) (a : Z) : Z := if dm then a else Z.lor (Z.shiftl (Z.quot a 10) 4) (Z.rem a 10).
Definition dec (dm : bool) (a : Z) : Z := if dm then a else Z.shiftr a 4 * 10 + Z.land a 0x0f.
Definition enc_hour (dm h24 : bool) (h : Z) : Z :=
  if h24 then enc dm h else if 12 <=? h then Z.lor (u8 (enc dm (Z.rem h 12))) 0x80 else enc dm (Z.rem h 12).
Definition dec_hour (dm h24 : bool) (x : Z) : Z :=
  if negb h24 && negb (Z.land x 0x80 =? 0) then dec dm (Z.land x 0x7f) + 12 else dec dm (Z.land x 0x7f).

Lemma dec_enc d a : 0 <= a < 100 -> dec d (u8 (enc d a)) = a.
Proof.
  intros Ha. apply Z.eqb_eq. by apply (range_check (fun a => dec d (u8 (enc d a)) =? a) 0 100);
    [destruct d; vm_compute; reflexivity|].
Qed.

Lemma dec_enc_hour d f h : 0 <= h < 24 -> dec_hour d f (u8 (enc_hour d f h)) = h.
Proof.
  intros Hh. apply Z.eqb_eq. by apply (range_check (fun h => dec_hour d f (u8 (enc_hour d f h)) =? h) 0 24);
    [destruct d, f; vm_compute; reflexivity|].
Qed.

(** The registers of a date. *)
Definition year2 (base y : Z) : Z := let r := Z.rem (y - base) 100 in if r <? 0 then r + 100 else r.
Definition date_regs (s : RTCState) (d : list Z) : list Z :=
  let t := date (current_tm s) in
  <[RTC_YEAR := u8 (enc (dm s) (year2 (base_year s) (tm_year t)))]> (
  <[RTC_MONTH := u8 (enc (dm s) (tm_mon t + 1))]> (
  <[RTC_DAY_OF_MONTH := u8 (enc (dm s) (tm_mday t))]> (
  <[RTC_DAY_OF_WEEK := u8 (enc (dm s) (tm_wday (current_tm s) + 1))]> (
  <[RTC_HOURS := u8 (enc_hour (dm s) (h24 s) (tm_hour t))]> (
  <[RTC_MINUTES := u8 (enc (dm s) (tm_min t))]> (
  <[RTC_SECONDS := u8 (enc (dm s) (tm_sec t))]> d)))))).

(** A register write on the way: the format bits stay. *)
Definition fmt_kept (s : RTCState) (d : list Z) : Prop := d !! RTC_REG_B = cmos_data s !! RTC_REG_B.

Lemma put_bcd s d i a : fmt_kept s d -> put (set_cmos s d) i (rtc_to_bcd (set_cmos s d) a) = set_cmos s (<[i := u8 (enc (dm s) a)]> d).
Proof. intros H. unfold put, rtc_to_bcd, enc, dm, cmos_has, cmos. cbn [cmos_data set_cmos]. by rewrite H. Qed.

Lemma h24_kept s d : fmt_kept s d -> cmos_has (set_cmos s d) RTC_REG_B 0x02 = h24 s.
Proof. intros H. unfold h24, cmos_has, cmos. cbn [cmos_data set_cmos]. by rewrite H. Qed.

Lemma fmt_insert s d i v : fmt_kept s d -> i <> RTC_REG_B -> fmt_kept s (<[i := v]> d).
Proof. intros H Hi. unfold fmt_kept. by rewrite list_lookup_insert_ne. Qed.

Lemma put_hours s d h : fmt_kept s d -> (14 <= length d)%nat ->
  (if cmos_has (set_cmos s d) RTC_REG_B 0x02 then put (set_cmos s d) RTC_HOURS (rtc_to_bcd (set_cmos s d) h)
   else
     let s' := put (set_cmos s d) RTC_HOURS (rtc_to_bcd (set_cmos s d) (Z.rem h 12)) in
     if 12 <=? h then put s' RTC_HOURS (Z.lor (cmos s' RTC_HOURS) 0x80) else s') =
  set_cmos s (<[RTC_HOURS := u8 (enc_hour (dm s) (h24 s) h)]> d).
Proof.
  intros Hf Hl. rewrite h24_kept, !put_bcd by done. unfold enc_hour. cbv zeta. destruct (h24 s); [done|].
  destruct (12 <=? h); [|done]. unfold put, cmos. cbn [cmos_data set_cmos].
  rewrite list_lookup_insert_eq by (unfold RTC_HOURS; lia). cbn [default]. unfold id. by rewrite list_insert_insert_eq.
Qed.

(** Enter the first of a chain of assignments, the state reached abstracted. *)
Ltac enter H :=
  rewrite H by assumption;
  lazymatch goal with
  | |- (let x := set_cmos ?s ?d in @?b x) = ?r =>
      change (b (set_cmos s d) = r); cbv beta;
      let d' := fresh "d" in let Hd := fresh "Hd" in set (d' := d);
      assert (fmt_kept s d') as Hd by (apply fmt_insert; [assumption|discriminate])
  end.

Lemma copy_date_at s d : fmt_kept s d -> (14 <= length d)%nat -> rtc_copy_date (set_cmos s d) = set_cmos s (date_regs s d).
Proof.
  intros H0 Hl. cbv beta delta [rtc_copy_date].
  lazymatch goal with |- (let t := _ in @?b t) = ?r => change (b (date (current_tm s)) = r); cbv beta end.
  enter put_bcd. enter put_bcd.
  assert (14 <= length d1)%nat as Hl1 by (subst d0 d1; by rewrite !length_insert).
  enter put_hours. change (tm_wday (current_tm (set_cmos s d2))) with (tm_wday (current_tm s)).
  enter put_bcd. enter put_bcd. enter put_bcd.
  change (base_year (set_cmos s d5)) with (base_year s). cbv zeta. fold (year2 (base_year s) (tm_year (date (current_tm s)))).
  rewrite put_bcd by assumption. reflexivity.
Qed.

Lemma copy_date_regs s : (14 <= length (cmos_data s))%nat -> rtc_copy_date s = set_cmos s (date_regs s (cmos_data s)).
Proof.
  intros Hl. assert (set_cmos s (cmos_data s) = s) as Es by (by destruct s).
  pose proof (copy_date_at s (cmos_data s) eq_refl Hl) as E. by rewrite Es in E.
Qed.

(** ** Reading the date back *)
Definition regs7 : list nat := [RTC_SECONDS; RTC_MINUTES; RTC_HOURS; RTC_DAY_OF_WEEK; RTC_DAY_OF_MONTH; RTC_MONTH; RTC_YEAR].
Definition enc_date (d f : bool) (base : Z) (t : rtc_tm) : list Z :=
  map u8 [enc d (tm_sec (date t)); enc d (tm_min (date t)); enc_hour d f (tm_hour (date t)); enc d (tm_wday t + 1);
          enc d (tm_mday (date t)); enc d (tm_mon (date t) + 1); enc d (year2 base (tm_year (date t)))].
Definition dec_date (d f : bool) (base : Z) (r : list Z) : option rtc_tm :=
  match r with
  | [sec; mi; h; wd; md; mo; y] =>
      Some (mkRtm (mkTm (dec d sec) (dec d mi) (dec_hour d f h) (dec d md) (dec d mo - 1) (dec d y + base - 1900)) (dec d wd - 1))
  | _ => None
  end.

(** The hundred years two digits can tell apart. *)
Definition in_window (base : Z) (t : rtc_tm) : Prop := base <= tm_year (date t) + 1900 < base + 100.

Lemma year2_window base y : base <= y + 1900 < base + 100 -> year2 base y = y + 1900 - base.
Proof.
  intros H. unfold year2. destruct (Z.ltb_spec (Z.rem (y - base) 100) 0); Z.to_euclidean_division_equations; lia.
Qed.

Lemma dec_enc_date d f base t : tm_wf t -> in_window base t -> dec_date d f base (enc_date d f base t) = Some t.
Proof.
  intros [Hs Hmi Hh Hm Hy Hd Hw] Hb. unfold enc_date, dec_date. cbn [map].
  pose proof (month_len_range (tm_year (date t) + 1900) (Z.to_nat (tm_mon (date t) + 1))).
  pose proof (Z.mod_pos_bound (date_days t + 4) 7 ltac:(lia)).
  pose proof (year2_window base (tm_year (date t)) Hb) as Ey. unfold in_window in Hb.
  rewrite !dec_enc, dec_enc_hour by lia. rewrite Ey. destruct t as [[] wd]. cbn. repeat f_equal; lia.
Qed.

Definition regs_of (l : list Z) (rs : list nat) : list Z := map (fun i => default 0 (l !! i)) rs.

Lemma date_regs_of s d : (14 <= length d)%nat -> regs_of (date_regs s d) regs7 = enc_date (dm s) (h24 s) (base_year s) (current_tm s).
Proof.
  intros Hl. unfold regs_of, regs7, date_regs, enc_date. cbv zeta. cbn [map].
  repeat first [rewrite list_lookup_insert_ne by discriminate
               |rewrite list_lookup_insert_eq by (rewrite ?length_insert; unfold RTC_SECONDS, RTC_MINUTES, RTC_HOURS, RTC_DAY_OF_WEEK, RTC_DAY_OF_MONTH, RTC_MONTH, RTC_YEAR; lia)].
  reflexivity.
Qed.

Lemma set_time_regs s : option_map (set_tm s) (dec_date (dm s) (h24 s) (base_year s) (regs_of (cmos_data s) regs7)) = Some (rtc_set_time s).
Proof. reflexivity. Qed.

Lemma date_regs_fmt s d : fmt_kept s d -> fmt_kept s (date_regs s d).
Proof. intros H. unfold date_regs. cbv zeta. by repeat (apply fmt_insert; [|discriminate]). Qed.

Lemma date_regs_length s d : length (date_regs s d) = length d.
Proof. unfold date_regs. cbv zeta. by rewrite !length_insert. Qed.

(** The registers hold the date: whatever the format (BCD or binary, 12 or 24 hours), writing
    a date of the hundred years from the base year into the registers and reading it back
    yields the same date and weekday, and nothing else of the clock changes. *)
Theorem rtc_date_roundtrip s :
  (14 <= length (cmos_data s))%nat -> tm_wf (current_tm s) -> in_window (base_year s) (current_tm s) ->
  current_tm (rtc_set_time (rtc_copy_date s)) = current_tm s /\
  rtc_set_time (rtc_copy_date s) = rtc_copy_date s /\
  forall i, i ∉ regs7 -> cmos (rtc_copy_date s) i = cmos s i.
Proof.
  intros Hl Ht Hb. rewrite copy_date_regs by done. set (d := date_regs s (cmos_data s)).
  assert (fmt_kept s d) as Hf by (by apply date_regs_fmt).
  pose proof (set_time_regs (set_cmos s d)) as E. cbn [set_cmos cmos_data base_year] in E.
  assert (dm (set_cmos s d) = dm s) as Ed by (unfold dm, cmos_has, cmos; cbn [set_cmos cmos_data]; by rewrite Hf).
  assert (h24 (set_cmos s d) = h24 s) as Eh by (by apply h24_kept).
  rewrite Ed, Eh in E. unfold d in E at 2. rewrite date_regs_of, dec_enc_date in E by done. cbn [option_map] in E.
  apply (inj Some) in E. rewrite <- E. split; [done|]. split; [by destruct s|].
  intros i Hi. unfold cmos. cbn [set_cmos cmos_data]. unfold d, date_regs. cbv zeta.
  by rewrite !list_lookup_insert_ne by (intros <-; apply Hi; unfold regs7; set_solver).
Qed.

(** A clock set on 28 February 2000 at 23:59:59 in BCD and 12 hours. *)
Definition leap_clock : RTCState :=
  let s := rtc_init (mkEnv 0 false false) false 2000 (mkRtm (mkTm 59 59 23 28 1 100) 1) in put s RTC_REG_B 0x00.

Lemma leap_clock_wf : tm_wf (current_tm leap_clock).
Proof. split; vm_compute; intuition discriminate. Qed.

Lemma rtc_date_roundtrip_witness :
  current_tm (rtc_set_time (rtc_copy_date leap_clock)) = current_tm leap_clock /\ cmos (rtc_copy_date leap_clock) RTC_HOURS = 0x91.
Proof.
  destruct (rtc_date_roundtrip leap_clock) as (E & _); [apply Nat.leb_le; vm_compute; reflexivity|exact leap_clock_wf|split; vm_compute; congruence|].
  split; [exact E|]. vm_compute. reflexivity.
Defined.

(** ** The guest's view *)
(** The guest sets the date: set mode on, the seven registers, set mode off, with [b] the
    other bits of register B. *)
Definition guest_write (e : env) (s : RTCState) (r : nat) (v : Z) : res RTCState :=
  let! s := cmos_ioport_write e s 0x70 (Z.of_nat r) in cmos_ioport_write e s 0x71 v.
Definition guest_read (e : env) (s : RTCState) (r : nat) : res (Z * RTCState) :=
  let! s := cmos_ioport_write e s 0x70 (Z.of_nat r) in cmos_ioport_read e s 0x71.

Fixpoint guest_writes (e : env) (s : RTCState) (l : list (nat * Z)) : res RTCState :=
  match l with [] => Ret s | (r, v) :: l => let! s := guest_write e s r v in guest_writes e s l end.
Fixpoint guest_reads (e : env) (s : RTCState) (l : list nat) : res (list Z * RTCState) :=
  match l with
  | [] => Ret ([], s)
  | r :: l => let! '(v, s) := guest_read e s r in let! '(vs, s) := guest_reads e s l in Ret (v :: vs, s)
  end.

Definition bit_of (b m : Z) : bool := negb (Z.land b m =? 0).
Definition guest_set (e : env) (s : RTCState) (b : Z) (t : rtc_tm) : res RTCState :=
  let! s := guest_write e s RTC_REG_B (Z.lor REG_B_SET b) in
  let! s := guest_writes e s (zip regs7 (enc_date (bit_of b REG_B_DM) (bit_of b 0x02) (base_year s) t)) in
  guest_write e s RTC_REG_B b.
Definition guest_get (e : env) (s : RTCState) (b : Z) : res (option rtc_tm) :=
  let! '(l, _) := guest_reads e s regs7 in Ret (dec_date (bit_of b REG_B_DM) (bit_of b 0x02) (base_year s) l).

(** One second: the two callbacks of the update cycle. *)
Definition tick (e : env) (s : RTCState) : RTCState := rtc_update_second2 e (rtc_update_second s).

(** The fields the interrupt side of the clock does not touch. *)
Definition same_clock (s s' : RTCState) : Prop :=
  cmos_data s' = cmos_data s /\ current_tm s' = current_tm s /\ base_year s' = base_year s /\
  next_second_time s' = next_second_time s /\ second_timer s' = second_timer s /\ second_timer2 s' = second_timer2 s.

Lemma timer_update_clock e s t : same_clock s (rtc_timer_update e s t).
Proof. unfold rtc_timer_update. by case_match. Qed.

Lemma irq_raise_clock e s : same_clock s (rtc_irq_raise e s).
Proof. unfold rtc_irq_raise. by case_match. Qed.

(** A write to a date register in set mode. *)
Lemma index_back r : (r < 128)%nat -> Z.to_nat (Z.land (Z.of_nat r) 0x7f) = r.
Proof. intros Hr. change 0x7f with (Z.ones 7). rewrite Z.land_ones, Z.mod_small by lia. lia. Qed.

Lemma write_date_reg e s r v : r ∈ regs7 -> cmos_index s = Z.of_nat r -> cmos_has s RTC_REG_B REG_B_SET = true ->
  cmos_ioport_write e s 0x71 v = Ret (put s r v).
Proof.
  intros Hr Hi Hset. unfold cmos_ioport_write. change (Z.land 0x71 1 =? 0) with false. cbv iota. rewrite Hi, Nat2Z.id.
  assert (r <> RTC_REG_B) as Hne by (intros ->; unfold regs7 in Hr; set_solver).
  rewrite has_put_ne, Hset by done. unfold regs7 in Hr.
  repeat (apply elem_of_cons in Hr as [->|Hr]; [reflexivity|]). by apply not_elem_of_nil in Hr.
Qed.

(** What the guest sees of a running clock: register B is [b], the oscillator is on, and the
    registers show the date [t]; [n] is the time of the next second. *)
Record showing (b base : Z) (t : rtc_tm) (n : Z) (s : RTCState) : Prop := {
  sh_len : length (cmos_data s) = 128%nat; sh_b : cmos s RTC_REG_B = b; sh_a : Z.land (cmos s RTC_REG_A) 0x70 = 0x20;
  sh_tm : current_tm s = t; sh_base : base_year s = base; sh_next : next_second_time s = n;
  sh_regs : regs_of (cmos_data s) regs7 = enc_date (bit_of b REG_B_DM) (bit_of b 0x02) base t
}.

Lemma regs_put s r v : r ∉ regs7 -> regs_of (cmos_data (put s r v)) regs7 = regs_of (cmos_data s) regs7.
Proof.
  intros Hr. unfold regs_of. apply map_ext_in. intros i Hi%list_elem_of_In. cbn. rewrite list_lookup_insert_ne; [done|]. by intros <-.
Qed.

Lemma showing_put_c b base t n s v : showing b base t n s -> showing b base t n (put s RTC_REG_C v).
Proof.
  intros []. split; rewrite ?length_put, ?cmos_put_ne by discriminate; try done.
  rewrite regs_put; [done|]. unfold regs7. set_solver.
Qed.

Lemma showing_put_a b base t n s v : showing b base t n s -> Z.land (u8 v) 0x70 = 0x20 -> showing b base t n (put s RTC_REG_A v).
Proof.
  intros [] Hv. split; rewrite ?length_put, ?(cmos_put_ne _ RTC_REG_A RTC_REG_B) by discriminate; try done.
  - rewrite cmos_put_eq; [done|]. unfold RTC_REG_A. lia.
  - rewrite regs_put; [done|]. unfold regs7. set_solver.
Qed.

Lemma showing_clock b base t n s s' : same_clock s s' -> showing b base t n s -> showing b base t n s'.
Proof. intros (E1 & E2 & E3 & E4 & _) []. split; unfold cmos in *; rewrite ?E1, ?E2, ?E3, ?E4; done. Qed.

(** The masks of register A. *)
Lemma a_masks a : is_byte a -> Z.land a 0x70 = 0x20 ->
  Z.land (u8 (Z.lor a REG_A_UIP)) 0x70 = 0x20 /\ Z.land (u8 (Z.land a (Z.lnot REG_A_UIP))) 0x70 = 0x20.
Proof.
  intros Ha H. pose proof (range_check (fun a => implb (Z.land a 0x70 =? 0x20)
    ((Z.land (u8 (Z.lor a REG_A_UIP)) 0x70 =? 0x20) && (Z.land (u8 (Z.land a (Z.lnot REG_A_UIP))) 0x70 =? 0x20)))
    0 256 ltac:(vm_compute; reflexivity) a Ha) as E. cbv beta in E. rewrite H in E. change (0x20 =? 0x20) with true in E.
  cbn [implb] in E. by apply andb_true_iff in E as [?%Z.eqb_eq ?%Z.eqb_eq].
Qed.

Definition cmos_bytes (s : RTCState) : Prop := bytes (cmos_data s).

Lemma cmos_byte s i : cmos_bytes s -> is_byte (cmos s i).
Proof.
  intros H. unfold cmos. destruct (cmos_data s !! i) as [v|] eqn:E; [|unfold is_byte; cbn; lia].
  unfold cmos_bytes in H. rewrite Forall_forall in H. apply H. by eapply list_elem_of_lookup_2.
Qed.

Lemma put_bytes s i v : cmos_bytes s -> cmos_bytes (put s i v).
Proof. intros H. apply Forall_insert; [done|]. apply wrap_range. lia. Qed.

(** The update: the date goes to the registers. *)
Lemma copy_showing b base t n s : length (cmos_data s) = 128%nat -> cmos s RTC_REG_B = b ->
  Z.land (cmos s RTC_REG_A) 0x70 = 0x20 -> current_tm s = t -> base_year s = base -> next_second_time s = n ->
  showing b base t n (rtc_copy_date s) /\ (cmos_bytes s -> cmos_bytes (rtc_copy_date s)).
Proof.
  intros Hl Hb Ha Ht Hbase Hn. rewrite copy_date_regs by lia. split.
  - split; try done; cbn [set_cmos cmos_data].
    + by rewrite date_regs_length.
    + rewrite <- Hb. unfold cmos. cbn [set_cmos cmos_data]. by rewrite (date_regs_fmt s (cmos_data s) eq_refl).
    + rewrite <- Ha. f_equal. unfold cmos. cbn [set_cmos cmos_data]. unfold date_regs. cbv zeta.
      by rewrite !list_lookup_insert_ne by discriminate.
    + rewrite date_regs_of by lia. unfold dm, h24, cmos_has. by rewrite Hb, Ht, Hbase.
  - intros H. unfold cmos_bytes. cbn [set_cmos cmos_data]. unfold date_regs. cbv zeta.
    repeat (apply Forall_insert; [|apply wrap_range; lia]). exact H.
Qed.

#[local] Hint Resolve showing_put_c put_bytes : vm.

Lemma raise_showing e b base t n s : showing b base t n s -> cmos_bytes s ->
  showing b base t n (rtc_irq_raise e s) /\ cmos_bytes (rtc_irq_raise e s).
Proof.
  intros Hs Hb. pose proof (irq_raise_clock e s) as Hc. split; [by eapply showing_clock|].
  destruct Hc as [E _]. unfold cmos_bytes. by rewrite E.
Qed.

Lemma raise_c_showing e b base t n s v : showing b base t n s -> cmos_bytes s ->
  showing b base t n (rtc_irq_raise e (put s RTC_REG_C v)) /\ cmos_bytes (rtc_irq_raise e (put s RTC_REG_C v)).
Proof. intros. apply raise_showing; auto with vm. Qed.

Lemma check_alarm_showing e b base t n s : showing b base t n s -> cmos_bytes s ->
  showing b base t n (check_alarm e s) /\ cmos_bytes (check_alarm e s).
Proof. intros. unfold check_alarm. repeat if_case; auto. by apply raise_c_showing. Qed.

Lemma update_ended_showing e b base t n s : showing b base t n s -> cmos_bytes s ->
  showing b base t n (update_ended e s) /\ cmos_bytes (update_ended e s).
Proof. intros. unfold update_ended. if_case; [apply raise_c_showing|]; auto with vm. Qed.

(** The second half of the update cycle. *)
Lemma second2_showing e b base t n s : bit_of b REG_B_SET = false -> cmos_bytes s -> length (cmos_data s) = 128%nat ->
  cmos s RTC_REG_B = b -> Z.land (cmos s RTC_REG_A) 0x70 = 0x20 -> current_tm s = t -> base_year s = base -> next_second_time s = n ->
  let s' := rtc_update_second2 e s in
  showing b base t (n + get_ticks_per_sec) s' /\ cmos_bytes s' /\ second_timer s' = Some (n + get_ticks_per_sec).
Proof.
  intros Hset Hby Hl Hb Ha Ht Hbase Hn. destruct (copy_showing b base t n s) as [Hs2 Hby2]; [done..|]. specialize (Hby2 Hby).
  destruct (check_alarm_showing e _ _ _ _ _ Hs2 Hby2) as [Hs3 Hby3]. destruct (update_ended_showing e _ _ _ _ _ Hs3 Hby3) as [Hs4 Hby4].
  unfold rtc_update_second2. assert (cmos_has s RTC_REG_B REG_B_SET = false) as -> by (unfold cmos_has; by rewrite Hb).
  cbn [negb]. generalize dependent (update_ended e (check_alarm e (rtc_copy_date s))). intros s4 Hs4 Hby4.
  destruct (a_masks _ (cmos_byte s4 RTC_REG_A Hby4) (sh_a _ _ _ _ _ Hs4)) as [_ Ha4].
  pose proof (showing_put_a _ _ _ _ s4 _ Hs4 Ha4) as Hs5. pose proof (put_bytes s4 RTC_REG_A (Z.land (cmos s4 RTC_REG_A) (Z.lnot REG_A_UIP)) Hby4) as Hby5.
  generalize dependent (put s4 RTC_REG_A (Z.land (cmos s4 RTC_REG_A) (Z.lnot REG_A_UIP))). intros s5 [? ? ? ? ? Hn5 ?] Hby5.
  split; [split; try done; cbn [set_second next_second_time]; by rewrite Hn5|].
  split; [done|]. cbn [set_second second_timer]. by rewrite Hn5.
Qed.

Lemma tick_showing e b base t n s : bit_of b REG_B_SET = false -> showing b base t n s -> cmos_bytes s ->
  showing b base (rtc_next_second t) (n + get_ticks_per_sec) (tick e s) /\ cmos_bytes (tick e s) /\
  second_timer (tick e s) = Some (n + get_ticks_per_sec).
Proof.
  intros Hset Hsh Hby. pose proof Hsh as [Hl Hb Ha Ht Hbase Hn Hr]. unfold tick, rtc_update_second.
  rewrite Ha. change (negb (0x20 =? 0x20)) with false. cbv iota. destruct (a_masks _ (cmos_byte s RTC_REG_A Hby) Ha) as [Ha1 _].
  assert (cmos_has (set_tm s (rtc_next_second (current_tm s))) RTC_REG_B REG_B_SET = false) as ->.
  { unfold cmos_has. change (cmos (set_tm s _) RTC_REG_B) with (cmos s RTC_REG_B). by rewrite Hb. }
  cbn [negb]. cbv iota zeta. set (s0 := set_tm s (rtc_next_second (current_tm s))).
  set (s1 := put s0 RTC_REG_A (Z.lor (cmos s0 RTC_REG_A) REG_A_UIP)).
  apply second2_showing; [done|exact (put_bytes s0 RTC_REG_A _ Hby)| | | |cbn; by rewrite Ht|done|done].
  - by unfold s1; cbn [set_second cmos_data]; rewrite length_put.
  - change (cmos s1 RTC_REG_B = b). rewrite <- Hb. apply (cmos_put_ne s0). discriminate.
  - change (Z.land (cmos s1 RTC_REG_A) 0x70 = 0x20). unfold s1. rewrite cmos_put_eq; [done|]. change (cmos_data s0) with (cmos_data s). unfold RTC_REG_A. lia.
Qed.

Lemma ticks_showing e b base k : bit_of b REG_B_SET = false -> forall t n s, showing b base t n s -> cmos_bytes s ->
  showing b base (after k t) (n + Z.of_nat k * get_ticks_per_sec) (Nat.iter k (tick e) s) /\ cmos_bytes (Nat.iter k (tick e) s).
Proof.
  intros Hb t n s Hs Hby. induction k as [|k [IH1 IH2]].
  - cbn [Nat.iter]. unfold after. cbn [Nat.iter]. replace (n + Z.of_nat 0 * get_ticks_per_sec) with n by lia. done.
  - destruct (tick_showing e b base _ _ _ Hb IH1 IH2) as (H1 & H2 & _). unfold after. rewrite !Nat.iter_succ. split; [|done].
    replace (n + Z.of_nat (S k) * get_ticks_per_sec) with (n + Z.of_nat k * get_ticks_per_sec + get_ticks_per_sec) by lia. exact H1.
Qed.

(** ** Setting the date *)
Definition writes (d : list Z) (l : list (nat * Z)) : list Z := foldl (fun d w => <[fst w := u8 (snd w)]> d) d l.

Lemma guest_writes_date e l : Forall (fun w => fst w ∈ regs7) l -> forall s, cmos_has s RTC_REG_B REG_B_SET = true ->
  exists s', guest_writes e s l = Ret s' /\ cmos_data s' = writes (cmos_data s) l /\ base_year s' = base_year s /\
    next_second_time s' = next_second_time s.
Proof.
  induction 1 as [|[r v] l Hr Hl IH]; intros s Hset; [by exists s|]. cbn [guest_writes fst] in *. unfold guest_write.
  change (cmos_ioport_write e s 0x70 (Z.of_nat r)) with (Ret (E:=Empty_set) (set_index s (Z.land (Z.of_nat r) 0x7f))). cbn [obind].
  assert (r < 128)%nat as Hr2.
  { unfold regs7 in Hr. repeat (apply elem_of_cons in Hr as [->|Hr]; [apply Nat.ltb_lt; reflexivity|]). by apply not_elem_of_nil in Hr. }
  assert (r <> RTC_REG_B) as Hne by (intros ->; unfold regs7 in Hr; set_solver).
  rewrite (write_date_reg e _ r v) by (done || (cbn [set_index cmos_index]; pose proof (index_back r Hr2);
    change 0x7f with (Z.ones 7); rewrite Z.land_ones, Z.mod_small by lia; done)). cbn [obind].
  destruct (IH (put (set_index s (Z.land (Z.of_nat r) 0x7f)) r v)) as (s' & E & Hd & Hb & Hn); [by rewrite has_put_ne|].
  exists s'. split; [exact E|]. split; [by rewrite Hd|]. done.
Qed.

Lemma writes_length l : forall d, length (writes d l) = length d.
Proof. induction l as [|w l IH]; intros d; [done|]. unfold writes in *. cbn [foldl]. by rewrite IH, length_insert. Qed.

Lemma writes_other l r : forall d, r ∉ l.*1 -> writes d l !! r = d !! r.
Proof.
  induction l as [|w l IH]; intros d Hr; [done|]. unfold writes in *. cbn [foldl]. rewrite fmap_cons in Hr.
  rewrite IH by set_solver. by rewrite list_lookup_insert_ne by set_solver.
Qed.

Lemma writes_bytes l : forall d, bytes d -> bytes (writes d l).
Proof.
  induction l as [|w l IH]; intros d Hd; [done|]. unfold writes in *. cbn [foldl]. apply IH. apply Forall_insert; [done|].
  apply wrap_range. lia.
Qed.

Lemma writes_regs7 d a b c x y z w : (14 <= length d)%nat ->
  regs_of (writes d (zip regs7 [a; b; c; x; y; z; w])) regs7 = map u8 [a; b; c; x; y; z; w].
Proof.
  intros Hl. unfold writes, regs7, regs_of. cbn [zip zip_with foldl fst snd map].
  repeat first [rewrite list_lookup_insert_ne by discriminate
               |rewrite list_lookup_insert_eq by (rewrite ?length_insert; unfold RTC_SECONDS, RTC_MINUTES, RTC_HOURS, RTC_DAY_OF_WEEK, RTC_DAY_OF_MONTH, RTC_MONTH, RTC_YEAR; lia)].
  reflexivity.
Qed.

(** The bits of register B in set mode. *)
Lemma b_masks b : 0 <= b < 128 ->
  let v := u8 (Z.land (Z.lor REG_B_SET b) (Z.lnot REG_B_UIE)) in
  bit_of (Z.lor REG_B_SET b) REG_B_SET = true /\ bit_of v REG_B_SET = true /\ bit_of v REG_B_DM = bit_of b REG_B_DM /\
  bit_of v 0x02 = bit_of b 0x02 /\ bit_of b REG_B_SET = false.
Proof.
  intros Hb v. pose proof (range_check (fun b => let v := u8 (Z.land (Z.lor REG_B_SET b) (Z.lnot REG_B_UIE)) in
    bit_of (Z.lor REG_B_SET b) REG_B_SET && bit_of v REG_B_SET && eqb (bit_of v REG_B_DM) (bit_of b REG_B_DM) &&
    eqb (bit_of v 0x02) (bit_of b 0x02) && negb (bit_of b REG_B_SET)) 0 128 ltac:(vm_compute; reflexivity) b Hb) as E.
  cbv beta zeta in E. fold v in E. rewrite !andb_true_iff, negb_true_iff in E.
  destruct E as ((((H1 & H2) & H3%eqb_prop) & H4%eqb_prop) & H5). done.
Qed.

Lemma guest_write_b e s v : guest_write e s RTC_REG_B v =
  (let '(s, data) :=
     if bit_of v REG_B_SET then
       (put (set_index s 11) RTC_REG_A (Z.land (cmos s RTC_REG_A) (Z.lnot REG_A_UIP)), Z.land v (Z.lnot REG_B_UIE))
     else (if cmos_has s RTC_REG_B REG_B_SET then rtc_set_time (set_index s 11) else set_index s 11, v) in
   Ret (rtc_timer_update e (put s RTC_REG_B data) (clock e))).
Proof. reflexivity. Qed.

Lemma enter_set_mode e s b : 0 <= b < 128 -> length (cmos_data s) = 128%nat -> cmos_bytes s ->
  exists s', guest_write e s RTC_REG_B (Z.lor REG_B_SET b) = Ret s' /\ length (cmos_data s') = 128%nat /\ cmos_bytes s' /\
    cmos s' RTC_REG_B = u8 (Z.land (Z.lor REG_B_SET b) (Z.lnot REG_B_UIE)) /\
    cmos s' RTC_REG_A = u8 (Z.land (cmos s RTC_REG_A) (Z.lnot REG_A_UIP)) /\
    base_year s' = base_year s /\ next_second_time s' = next_second_time s.
Proof.
  intros Hb Hl Hby. destruct (b_masks b Hb) as (H1 & _). rewrite guest_write_b, H1. eexists. split; [done|].
  set (s1 := put _ RTC_REG_B _). destruct (timer_update_clock e s1 (clock e)) as (E1 & _ & E3 & E4 & _).
  unfold cmos_bytes, cmos. rewrite E1, E3, E4. fold (cmos s1 RTC_REG_B) (cmos s1 RTC_REG_A) (cmos s RTC_REG_A).
  unfold s1. rewrite !length_put. split_and!; [done|by apply (put_bytes (put (set_index s 11) _ _)), (put_bytes (set_index s 11))| | |done|done].
  - apply cmos_put_eq. rewrite length_put. cbn [set_index cmos_data]. unfold RTC_REG_B. lia.
  - rewrite cmos_put_ne by discriminate. apply (cmos_put_eq (set_index s 11)). cbn [set_index cmos_data]. unfold RTC_REG_A. lia.
Qed.

Lemma enc_date_u8 d f base t : map u8 (enc_date d f base t) = enc_date d f base t.
Proof. unfold enc_date. cbn [map]. by rewrite !wrap_wrap by lia. Qed.

Lemma zip_regs7 (vs : list Z) : Forall (fun w => fst w ∈ regs7) (zip regs7 vs).
Proof. apply Forall_forall. intros [r v] H. by eapply elem_of_zip_l. Qed.

Lemma guest_set_showing e s b t : 0 <= b < 128 -> length (cmos_data s) = 128%nat -> cmos_bytes s ->
  Z.land (cmos s RTC_REG_A) 0x70 = 0x20 -> tm_wf t -> in_window (base_year s) t ->
  exists s', guest_set e s b t = Ret s' /\ showing b (base_year s) t (next_second_time s) s' /\ cmos_bytes s'.
Proof.
  intros Hb Hl Hby Ha Ht Hw. destruct (b_masks b Hb) as (_ & Hv1 & Hv2 & Hv3 & Hv4). unfold guest_set.
  destruct (enter_set_mode e s b Hb Hl Hby) as (s1 & -> & Hl1 & Hby1 & Hb1 & Ha1 & Hbase1 & Hn1). cbn [obind].
  destruct (a_masks _ (cmos_byte s RTC_REG_A Hby) Ha) as [_ Ha']. rewrite <- Ha1 in Ha'.
  set (vs := enc_date (bit_of b REG_B_DM) (bit_of b 2) (base_year s1) t).
  destruct (guest_writes_date e (zip regs7 vs) (zip_regs7 vs) s1) as (s2 & -> & Hd2 & Hbase2 & Hn2).
  { unfold cmos_has. by rewrite Hb1. }
  cbn [obind]. assert (regs_of (cmos_data s2) regs7 = vs) as Hr2.
  { rewrite Hd2. unfold vs at 1, enc_date. cbn [map]. rewrite writes_regs7 by lia. change (map u8 vs = vs). apply enc_date_u8. }
  assert (forall r, r ∉ regs7 -> cmos s2 r = cmos s1 r) as Hk2.
  { intros r Hr. unfold cmos. rewrite Hd2, writes_other; [done|]. by rewrite fst_zip by (cbn; lia). }
  assert (cmos s2 RTC_REG_B = cmos s1 RTC_REG_B) as Hkb by (apply Hk2; unfold regs7; set_solver).
  assert (cmos s2 RTC_REG_A = cmos s1 RTC_REG_A) as Hka by (apply Hk2; unfold regs7; set_solver).
  rewrite guest_write_b, Hv4. assert (cmos_has s2 RTC_REG_B REG_B_SET = true) as -> by (unfold cmos_has; by rewrite Hkb, Hb1).
  eexists. split; [done|]. pose proof (set_time_regs (set_index s2 11)) as Es.
  change (cmos_data (set_index s2 11)) with (cmos_data s2) in Es. change (base_year (set_index s2 11)) with (base_year s2) in Es.
  assert (dm (set_index s2 11) = bit_of b REG_B_DM) as Ed by (rewrite <- Hv2, <- Hb1, <- Hkb; reflexivity).
  assert (h24 (set_index s2 11) = bit_of b 2) as Eh by (rewrite <- Hv3, <- Hb1, <- Hkb; reflexivity).
  rewrite Ed, Eh, Hr2, Hbase2 in Es. unfold vs in Es. rewrite dec_enc_date in Es by (done || by rewrite Hbase1).
  cbn [option_map] in Es. apply (inj Some) in Es. rewrite <- Es.
  set (s3 := put (set_tm (set_index s2 11) t) RTC_REG_B b).
  assert (length (cmos_data s2) = 128%nat) as Hl2 by (rewrite Hd2, writes_length; exact Hl1).
  assert (cmos_bytes s3) as Hby3 by (apply (put_bytes (set_tm (set_index s2 11) t)); unfold cmos_bytes; cbn [set_tm set_index cmos_data]; rewrite Hd2; by apply writes_bytes).
  pose proof (timer_update_clock e s3 (clock e)) as Hc. split; [|destruct Hc as [Ec _]; unfold cmos_bytes; by rewrite Ec].
  eapply showing_clock; [exact Hc|]. split; [by unfold s3; rewrite length_put| | |done|cbn; congruence|cbn; congruence|].
  - unfold s3. rewrite cmos_put_eq by (cbn [set_tm set_index cmos_data]; rewrite Hl2; unfold RTC_REG_B; lia). apply wrap_small. unfold is_u. lia.
  - unfold s3. rewrite cmos_put_ne by discriminate. change (cmos (set_tm (set_index s2 11) t) RTC_REG_A) with (cmos s2 RTC_REG_A). by rewrite Hka.
  - unfold s3. rewrite regs_put by (unfold regs7; set_solver). change (cmos_data (set_tm (set_index s2 11) t)) with (cmos_data s2). rewrite Hr2. unfold vs. by rewrite Hbase1.
Qed.

Lemma guest_read_date e s r v : r ∈ regs7 -> cmos_data s !! r = Some v ->
  exists s', guest_read e s r = Ret (v, s') /\ cmos_data s' = cmos_data s /\ base_year s' = base_year s.
Proof.
  intros Hr Hv. unfold guest_read.
  change (cmos_ioport_write e s 0x70 (Z.of_nat r)) with (Ret (E:=Empty_set) (set_index s (Z.land (Z.of_nat r) 0x7f))). cbn [obind].
  unfold cmos_ioport_read. change (Z.land 0x71 1 =? 0) with false. cbv iota. cbn [set_index cmos_index cmos_data].
  assert (r <> RTC_REG_C /\ (r < 128)%nat) as [Hne Hlt].
  { unfold regs7 in Hr. repeat (apply elem_of_cons in Hr as [->|Hr]; [split; [discriminate|apply Nat.ltb_lt; reflexivity]|]). by apply not_elem_of_nil in Hr. }
  rewrite index_back, Hv by done. cbn [oget obind]. rewrite (proj2 (Nat.eqb_neq r RTC_REG_C)) by done. eauto.
Qed.

Lemma guest_reads_date e l : Forall (fun r => r ∈ regs7) l -> forall s, length (cmos_data s) = 128%nat ->
  exists s', guest_reads e s l = Ret (regs_of (cmos_data s) l, s') /\ base_year s' = base_year s.
Proof.
  induction 1 as [|r l Hr Hl IH]; intros s Hlen; [by exists s|]. cbn [guest_reads regs_of map].
  destruct (lookup_lt_is_Some_2 (cmos_data s) r) as [v Hv].
  { rewrite Hlen. unfold regs7 in Hr. repeat (apply elem_of_cons in Hr as [->|Hr]; [apply Nat.ltb_lt; reflexivity|]). by apply not_elem_of_nil in Hr. }
  destruct (guest_read_date e s r v Hr Hv) as (s1 & -> & Hd1 & Hb1). cbn [obind]. rewrite Hv.
  destruct (IH s1) as (s' & E & Hb'); [by rewrite Hd1|]. rewrite E. cbn [obind]. exists s'. rewrite Hd1. split; [done|congruence].
Qed.

(** The clock as the guest sees it: with the oscillator on, a guest that writes a date and time to
    the registers in set mode, in any format, and leaves set mode, reads from them after
    [k] update cycles the date and time [k] seconds later, in the same format, and the
    next update is due exactly [k] seconds of the host's clock after the one that was. *)
Theorem rtc_guest_time e s b t k :
  length (cmos_data s) = 128%nat -> cmos_bytes s -> Z.land (cmos s RTC_REG_A) 0x70 = 0x20 ->
  0 <= b < 128 -> tm_wf t -> in_window (base_year s) t -> in_window (base_year s) (after k t) ->
  exists s1, guest_set e s b t = Ret s1 /\
    let s2 := Nat.iter k (tick e) s1 in
    guest_get e s2 b = Ret (Some (after k t)) /\ seconds (after k t) = seconds t + Z.of_nat k /\
    next_second_time s2 = next_second_time s + Z.of_nat k * get_ticks_per_sec.
Proof.
  intros Hl Hby Ha Hb Ht Hw Hwk. destruct (guest_set_showing e s b t Hb Hl Hby Ha Ht Hw) as (s1 & E & Hs1 & Hby1).
  exists s1. split; [exact E|]. intros s2. destruct (b_masks b Hb) as (_ & _ & _ & _ & Hset).
  destruct (ticks_showing e b (base_year s) k Hset _ _ _ Hs1 Hby1) as [[Hl2 Hb2 Ha2 Ht2 Hbase2 Hn2 Hr2] _]. fold s2 in Hl2, Hb2, Ha2, Ht2, Hbase2, Hn2, Hr2.
  destruct (after_wf k t Ht) as [Htk Es]. split; [|done]. unfold guest_get.
  destruct (guest_reads_date e regs7 ltac:(by apply Forall_forall) s2 Hl2) as (s3 & -> & Hb3). cbn [obind]. rewrite Hr2, Hbase2.
  by rewrite dec_enc_date.
Qed.

Lemma rtc_guest_time_witness :
  exists s1, guest_set (mkEnv 7 false false) leap_clock 0x00 (current_tm leap_clock) = Ret s1 /\
    guest_get (mkEnv 7 false false) (Nat.iter 2 (tick (mkEnv 7 false false)) s1) 0x00 = Ret (Some (mkRtm (mkTm 1 0 0 29 1 100) 2)).
Proof.
  destruct (rtc_guest_time (mkEnv 7 false false) leap_clock 0x00 (current_tm leap_clock) 2) as (s1 & E & G & _);
    [reflexivity| |reflexivity|lia|exact leap_clock_wf|split; vm_compute; congruence|split; vm_compute; congruence|].
  - unfold cmos_bytes. vm_compute. repeat constructor; discriminate.
  - exists s1. split; [exact E|]. rewrite G. vm_compute. reflexivity.
Defined.
