(* ===== verification/RtcTimers.v ===== *)
(** * The real-time clock: its timers and its memory

    The periodic interrupt does not drift, the update cycle never stops, no access leaves
    the CMOS memory, and the bits the guest cannot write keep their meaning. *)

From S2P Require Import Prelude CUtils I8254 I8254Proofs Rtc RtcProofs.
From stdpp Require Import sets list.

Open Scope Z_scope.

(** ** The periodic interrupt *)
(** The 32 kHz cycle at a time, and the time just after a cycle has begun. *)
Definition cycle (t : Z) : Z := t * 32768 / get_ticks_per_sec.
Definition cycle_time (n : Z) : Z := n * get_ticks_per_sec / 32768 + 1.

Lemma cycle_of_time n : 0 <= n -> cycle (cycle_time n) = n.
Proof.
  intros Hn. unfold cycle, cycle_time, get_ticks_per_sec.
  Z.to_euclidean_division_equations. nia.
Qed.

Lemma cycle_muldiv t : 0 <= t < 2 ^ 62 -> s64 (muldiv64 (u64 t) 32768 get_ticks_per_sec) = cycle t /\ 0 <= cycle t < 2 ^ 48.
Proof.
  intros Ht. assert (0 <= cycle t < 2 ^ 48) as Hc.
  { unfold cycle, get_ticks_per_sec. split; [apply Z.div_pos; lia|]. apply Z.div_lt_upper_bound; [lia|]. lia. }
  split; [|done]. rewrite wrap_small by (unfold is_u; lia). rewrite muldiv64_correct; unfold is_u, get_ticks_per_sec in *; try lia.
  - fold get_ticks_per_sec. change (t * 32768 / get_ticks_per_sec) with (cycle t). apply swrap_small; [lia|unfold is_s; lia].
  - change (t * 32768 / 1000000000) with (cycle t). lia.
Qed.

Lemma time_muldiv n : 0 <= n < 2 ^ 48 -> s64 (u64 (muldiv64 (u64 n) get_ticks_per_sec 32768 + 1)) = cycle_time n.
Proof.
  intros Hn. rewrite (wrap_small 64 n) by (unfold is_u; lia).
  assert (0 <= n * get_ticks_per_sec / 32768 < 2 ^ 63 - 1) as Hq.
  { unfold get_ticks_per_sec. split; [apply Z.div_pos; lia|]. apply Z.div_lt_upper_bound; lia. }
  rewrite muldiv64_correct; unfold is_u; try (unfold get_ticks_per_sec; lia); try lia.
  unfold cycle_time. rewrite wrap_small by (unfold is_u; lia). apply swrap_small; [lia|unfold is_s; lia].
Qed.

(** The period, in 32 kHz cycles, that register A selects. *)
Definition period_of (code : Z) : Z := Z.shiftl 1 ((if code <=? 2 then code + 7 else code) - 1).

Lemma period_of_pow code : 1 <= code < 16 -> exists k, 2 <= k <= 14 /\ period_of code = 2 ^ k.
Proof.
  intros Hc. exists ((if code <=? 2 then code + 7 else code) - 1). unfold period_of. rewrite Z.shiftl_1_l.
  split; [|done]. destruct (Z.leb_spec code 2); lia.
Qed.

Lemma period_of_range code : 1 <= code < 16 -> 4 <= period_of code <= 16384.
Proof.
  intros Hc. destruct (period_of_pow code Hc) as (k & Hk & ->). change 4 with (2 ^ 2). change 16384 with (2 ^ 14).
  split; apply Z.pow_le_mono_r; lia.
Qed.

Lemma align_down c code : 1 <= code < 16 -> Z.land c (Z.lnot (period_of code - 1)) = c / period_of code * period_of code.
Proof.
  intros Hc. destruct (period_of_pow code Hc) as (k & Hk & ->). replace (2 ^ k - 1) with (Z.ones k) by (rewrite Z.ones_equiv; lia).
  rewrite <- Z.ldiff_land, Z.ldiff_ones_r by lia. by rewrite Z.shiftr_div_pow2, Z.shiftl_mul_pow2 by lia.
Qed.

(** The periodic interrupt is selected and enabled. *)
Definition code_of (s : RTCState) : Z := Z.land (cmos s RTC_REG_A) 0x0f.
Definition periodic_on (s : RTCState) : Prop := code_of s <> 0 /\ cmos_has s RTC_REG_B REG_B_PIE = true.

Lemma code_range s : code_of s <> 0 -> 1 <= code_of s < 16.
Proof.
  intros H. unfold code_of in *. change 0x0f with (Z.ones 4) in *. rewrite Z.land_ones in * by lia.
  pose proof (Z.mod_pos_bound (cmos s RTC_REG_A) (2 ^ 4) ltac:(lia)). change (2 ^ 4) with 16 in *. lia.
Qed.

(** The interrupts missed under a new period. *)
Definition rescale (n old new : Z) : Z := if negb (new =? old) then u32 (n * old) / new else n.

Lemma timer_update_on e s t : periodic_on s -> hpet_in_legacy_mode e = false -> 0 <= t < 2 ^ 62 ->
  let p := period_of (code_of s) in
  let n := cycle t / p + 1 in
  n * p < 2 ^ 48 ->
  rtc_timer_update e s t =
    set_periodic (set_coalesced s (irq_reinject_on_ack_count s) (rescale (irq_coalesced s) (period s) p) p)
      (Some (cycle_time (n * p))) (cycle_time (n * p)).
Proof.
  intros [Hc Hpie] Hh Ht p n Hn. pose proof (code_range s Hc) as Hr. pose proof (period_of_range _ Hr) as Hp.
  destruct (cycle_muldiv t Ht) as [Ec Hcy]. unfold rtc_timer_update. fold (code_of s). rewrite (proj2 (Z.eqb_neq _ _) Hc), Hpie, Hh.
  cbn [negb andb orb]. rewrite Ec. fold (period_of (code_of s)).
  rewrite align_down by done. fold p. replace (cycle t / p * p + p) with (n * p) by (unfold n; lia).
  rewrite time_muldiv; [done|]. split; [|done]. unfold n. pose proof (Z.div_pos (cycle t) p). nia.
Qed.

(** ** Expiry after expiry *)
Fixpoint expiries (es : list env) (s : RTCState) : res RTCState :=
  match es with [] => Ret s | e :: es => let! s := rtc_periodic_timer e s in expiries es s end.

Definition missed (es : list env) : Z := Z.of_nat (length (filter (fun e => apic_irq_delivered e = false) es)).

(** The periodic timer set for cycle [n * p]. *)
Record ticking (p n : Z) (s : RTCState) : Prop := {
  tk_on : periodic_on s; tk_p : period_of (code_of s) = p; tk_period : period s = p;
  tk_next : next_periodic_time s = cycle_time (n * p); tk_len : length (cmos_data s) = 128%nat;
  tk_td : rtc_td_hack s = true -> coalesced_timer s <> None
}.

Lemma ticking_eq p n s s' : ticking p n s -> cmos s' RTC_REG_A = cmos s RTC_REG_A -> cmos s' RTC_REG_B = cmos s RTC_REG_B ->
  period s' = period s -> next_periodic_time s' = next_periodic_time s -> length (cmos_data s') = length (cmos_data s) ->
  rtc_td_hack s' = rtc_td_hack s -> (coalesced_timer s <> None -> coalesced_timer s' <> None) -> ticking p n s'.
Proof.
  intros [[H1 H1'] H2 H3 H4 H5 H6] Ea Eb Ep En El Et Ec. split; unfold periodic_on, code_of, cmos_has in *; rewrite ?Ea, ?Eb, ?Ep, ?En, ?El, ?Et; auto.
Qed.

Lemma cycle_time_bound n : 0 <= n < 2 ^ 47 -> 0 <= cycle_time n < 2 ^ 62.
Proof. intros Hn. unfold cycle_time, get_ticks_per_sec. Z.to_euclidean_division_equations. lia. Qed.

Lemma expiry_update e p n s : ticking p n s -> hpet_in_legacy_mode e = false -> 0 <= n -> (n + 1) * p < 2 ^ 47 ->
  let s' := rtc_timer_update e s (next_periodic_time s) in
  ticking p (n + 1) s' /\ irq s' = irq s /\ irq_coalesced s' = irq_coalesced s /\ rtc_td_hack s' = rtc_td_hack s.
Proof.
  intros Ht Hh Hn Hb s'. pose proof Ht as [Hon Hp Hper Hnext Hlen Htd].
  pose proof (period_of_range _ (code_range s (proj1 Hon))) as Hpr. rewrite Hp in Hpr.
  assert (cycle (cycle_time (n * p)) / p + 1 = n + 1) as Ec.
  { rewrite cycle_of_time by nia. rewrite Z.div_mul by lia. done. }
  pose proof (cycle_time_bound (n * p) ltac:(nia)) as Htb.
  pose proof (timer_update_on e s (cycle_time (n * p)) Hon Hh Htb) as E. cbv zeta in E. rewrite Hp, Ec in E.
  rewrite <- Hnext in E at 1. fold s' in E. rewrite E by lia. unfold rescale. rewrite Hper, Z.eqb_refl. cbn [negb].
  split; [|done]. by split.
Qed.

(** What the interrupt itself does. *)
Definition periodic_irq (e : env) (s : RTCState) : res RTCState :=
  let s := put s RTC_REG_C (Z.lor (cmos s RTC_REG_C) 0xc0) in
  if rtc_td_hack s then
    let s := if RTC_REINJECT_ON_ACK_COUNT <=? irq_reinject_on_ack_count s
             then set_coalesced s 0 (irq_coalesced s) (period s) else s in
    let s := rtc_irq_raise e s in
    if negb (apic_irq_delivered e) then
      rtc_coalesced_timer_update e (set_coalesced s (irq_reinject_on_ack_count s) (u32 (irq_coalesced s + 1)) (period s))
    else Ret s
  else Ret (rtc_irq_raise e s).

Lemma lor_c0 c : Z.land (u8 (Z.lor c 0xc0)) 0xc0 = 0xc0.
Proof.
  apply Z.bits_inj'. intros i Hi. unfold wrap. rewrite Z.land_spec. change (0xc0) with (Z.shiftl 3 6).
  destruct (Z.ltb_spec i 8).
  - rewrite Z.mod_pow2_bits_low, Z.lor_spec by lia. by destruct (Z.testbit c i), (Z.testbit (Z.shiftl 3 6) i).
  - rewrite Z.mod_pow2_bits_high by lia. symmetry. apply Z.bits_above_log2; [done|]. change (Z.log2 (Z.shiftl 3 6)) with 7. lia.
Qed.

Lemma periodic_irq_spec e p n s : ticking p n s -> hpet_in_legacy_mode e = false ->
  exists s', periodic_irq e s = Ret s' /\ ticking p n s' /\ irq s' = irq s ++ [1] /\ rtc_td_hack s' = rtc_td_hack s /\
    irq_coalesced s' = (if rtc_td_hack s && negb (apic_irq_delivered e) then u32 (irq_coalesced s + 1) else irq_coalesced s) /\
    Z.land (cmos s' RTC_REG_C) 0xc0 = 0xc0.
Proof.
  intros Ht Hh. pose proof Ht as [_ _ _ _ Hlen Htd]. unfold periodic_irq, rtc_irq_raise. rewrite Hh. cbn [negb].
  set (s1 := put s RTC_REG_C _).
  assert (ticking p n s1) as Ht1 by (apply (ticking_eq p n s); try done; [apply cmos_put_ne; discriminate..|by unfold s1; rewrite length_put]).
  assert (Z.land (cmos s1 RTC_REG_C) 0xc0 = 0xc0) as Hc1 by (unfold s1; rewrite cmos_put_eq by (rewrite Hlen; unfold RTC_REG_C; lia); apply lor_c0).
  assert (irq s1 = irq s /\ irq_coalesced s1 = irq_coalesced s /\ rtc_td_hack s1 = rtc_td_hack s /\ coalesced_timer s1 = coalesced_timer s) as (Ei & En & Etd & Ect) by done.
  clearbody s1. rewrite Etd. destruct (rtc_td_hack s); [|].
  2: { eexists. split; [done|]. cbn [irq_raise set_lines irq irq_coalesced rtc_td_hack]. rewrite Ei. by split_and!; [apply (ticking_eq p n s1)|..]. }
  cbn [andb]. set (s2 := if RTC_REINJECT_ON_ACK_COUNT <=? _ then _ else s1).
  assert (ticking p n s2 /\ irq s2 = irq s /\ irq_coalesced s2 = irq_coalesced s /\ coalesced_timer s2 = coalesced_timer s /\ rtc_td_hack s2 = true /\
          cmos s2 RTC_REG_C = cmos s1 RTC_REG_C) as (Ht2 & Ei2 & En2 & Ect2 & Etd2 & Ec2).
  { unfold s2. if_case; [|by split_and!]. by split_and!; [apply (ticking_eq p n s1)|..]. }
  clearbody s2. destruct (apic_irq_delivered e); cbn [negb].
  - eexists. split; [done|]. cbn [irq_raise set_lines irq irq_coalesced rtc_td_hack]. rewrite Ei2, En2. rewrite <- Ec2 in Hc1.
    by split_and!; [apply (ticking_eq p n s2)|..].
  - unfold rtc_coalesced_timer_update. cbn [set_coalesced irq_raise set_lines coalesced_timer irq_coalesced]. rewrite Ect2.
    destruct (coalesced_timer s); [|by destruct (Htd eq_refl)]. rewrite En2. rewrite <- Ec2 in Hc1.
    destruct (u32 (irq_coalesced s + 1) =? 0); (eexists; split; [done|]); cbn [set_ctimer set_coalesced irq_raise set_lines irq irq_coalesced rtc_td_hack]; rewrite Ei2;
      by split_and!; [apply (ticking_eq p n s2)|..].
Qed.

Lemma expiry e p n s : ticking p n s -> hpet_in_legacy_mode e = false -> 0 <= n -> (n + 1) * p < 2 ^ 47 ->
  exists s', rtc_periodic_timer e s = Ret s' /\ ticking p (n + 1) s' /\ irq s' = irq s ++ [1] /\ rtc_td_hack s' = rtc_td_hack s /\
    irq_coalesced s' = (if rtc_td_hack s && negb (apic_irq_delivered e) then u32 (irq_coalesced s + 1) else irq_coalesced s) /\
    Z.land (cmos s' RTC_REG_C) 0xc0 = 0xc0.
Proof.
  intros Ht Hh Hn Hb. destruct (expiry_update e p n s Ht Hh Hn Hb) as (Ht1 & Ei1 & En1 & Etd1).
  unfold rtc_periodic_timer. set (s1 := rtc_timer_update e s (next_periodic_time s)) in *.
  rewrite (proj2 (tk_on _ _ _ Ht1)). fold (periodic_irq e s1).
  destruct (periodic_irq_spec e p (n + 1) s1 Ht1 Hh) as (s2 & -> & Ht2 & Ei2 & Etd2 & En2 & Ec2). cbn [obind].
  rewrite Ei1 in Ei2. rewrite Etd1, En1 in En2. rewrite Etd1 in Etd2. eexists. split; [done|].
  destruct (cmos_has s2 RTC_REG_B REG_B_SQWE); [|by split_and!]. by split_and!; [apply (ticking_eq p (n + 1) s2)|..].
Qed.

Lemma u32_add_u32 a b : u32 (u32 a + b) = u32 (a + b).
Proof. apply wrap_add_l. Qed.

Lemma expiries_spec p es : Forall (fun e => hpet_in_legacy_mode e = false) es -> forall n s,
  ticking p n s -> 0 <= n -> 0 <= irq_coalesced s < 2 ^ 32 -> (n + Z.of_nat (length es)) * p < 2 ^ 47 -> 0 < p ->
  exists s', expiries es s = Ret s' /\ ticking p (n + Z.of_nat (length es)) s' /\ irq s' = irq s ++ replicate (length es) 1 /\
    irq_coalesced s' = if rtc_td_hack s then u32 (irq_coalesced s + missed es) else irq_coalesced s.
Proof.
  induction 1 as [|e es Hh Hes IH]; intros n s Ht Hn Hc Hb Hp.
  - exists s. cbn [length]. rewrite Z.add_0_r, app_nil_r. split_and!; [done..|]. change (missed []) with 0.
    rewrite Z.add_0_r. by rewrite wrap_small by (unfold is_u; lia); destruct (rtc_td_hack s).
  - cbn [expiries length] in *. destruct (expiry e p n s Ht Hh Hn) as (s1 & -> & Ht1 & Ei1 & Etd1 & Ec1 & _); [nia|]. cbn [obind].
    assert (0 <= irq_coalesced s1 < 2 ^ 32) as Hc1.
    { rewrite Ec1. destruct (_ && _); [|done]. apply (wrap_range 32). lia. }
    destruct (IH (n + 1) s1 Ht1) as (s2 & -> & Ht2 & Ei2 & Ec2); [lia|done|nia|done|].
    exists s2. replace (n + Z.of_nat (S (length es))) with (n + 1 + Z.of_nat (length es)) by lia. split_and!; [done|done| |].
    + rewrite Ei2, Ei1, <- app_assoc. done.
    + rewrite Ec2, Etd1, Ec1. destruct (rtc_td_hack s); [|done]. cbn [andb].
      unfold missed. rewrite filter_cons. destruct (apic_irq_delivered e); cbn [negb decide_rel].
      * by rewrite decide_False.
      * rewrite decide_True by done. rewrite u32_add_u32. cbn [length]. f_equal. lia.
Qed.

(** C28. The periodic interrupt does not drift: with the interrupt selected and enabled and the
    HPET not in charge, arming the timer at time [t] sets it for the beginning of the next
    whole period of the 32 kHz clock, after [t], and however many expiries follow, the
    timer is set for the beginning of the period that is that many periods later, to the
    nanosecond: the rounding to nanoseconds never accumulates.  Each expiry raises the
    line once; with the time drift fix on, the counter of interrupts to reinject grows by
    exactly those the APIC did not deliver. *)
Theorem rtc_periodic_no_drift e s t es :
  periodic_on s -> hpet_in_legacy_mode e = false -> Forall (fun e => hpet_in_legacy_mode e = false) es ->
  length (cmos_data s) = 128%nat -> 0 <= irq_coalesced s < 2 ^ 32 -> 0 <= period s -> (rtc_td_hack s = true -> coalesced_timer s <> None) ->
  let p := period_of (code_of s) in
  let n := cycle t / p + 1 in
  0 <= t < 2 ^ 62 -> (n + Z.of_nat (length es)) * p < 2 ^ 47 ->
  let s0 := rtc_timer_update e s t in
  t < cycle_time (n * p) /\ periodic_timer s0 = Some (cycle_time (n * p)) /\
  exists s', expiries es s0 = Ret s' /\ next_periodic_time s' = cycle_time ((n + Z.of_nat (length es)) * p) /\
    irq s' = irq s ++ replicate (length es) 1 /\
    irq_coalesced s' = if rtc_td_hack s then u32 (irq_coalesced s0 + missed es) else irq_coalesced s0.
Proof.
  intros Hon Hh Hes Hlen Hc Hper Htd p n Ht Hb s0. pose proof (period_of_range _ (code_range s (proj1 Hon))) as Hp. fold p in Hp.
  destruct (cycle_muldiv t Ht) as [_ Hcy]. pose proof (Z.div_pos (cycle t) p ltac:(lia) ltac:(lia)) as Hd.
  pose proof (timer_update_on e s t Hon Hh Ht) as E. cbv zeta in E. fold p n s0 in E. rewrite E by (unfold n in *; nia).
  assert (0 <= rescale (irq_coalesced s) (period s) p < 2 ^ 32) as Hres.
  { unfold rescale. destruct (_ =? _); cbn [negb]; [done|]. pose proof (wrap_range 32 (irq_coalesced s * period s) ltac:(lia)) as [W1 W2].
    split; [apply Z.div_pos; lia|]. apply Z.div_lt_upper_bound; [lia|]. nia. }
  split; [|split; [done|]].
  - assert (cycle t < n * p) as Hlt by (unfold n; pose proof (Z.mod_pos_bound (cycle t) p ltac:(lia)); pose proof (Z.div_mod (cycle t) p ltac:(lia)); nia).
    unfold cycle, cycle_time, get_ticks_per_sec in *. Z.to_euclidean_division_equations. nia.
  - set (s1 := set_periodic _ _ _). destruct (expiries_spec p es Hes n s1) as (s' & E' & Ht' & Ei & Ec); [by split|unfold n; lia|exact Hres|exact Hb|lia|].
    exists s'. split_and!; [exact E'|apply Ht'|exact Ei|exact Ec].
Qed.

(** 1024 interrupts a second with the time drift fix on. *)
Definition busy_clock : RTCState :=
  put (rtc_init (mkEnv 5 false false) true 2000 millennium) RTC_REG_B 0x42.

Lemma rtc_periodic_no_drift_witness :
  exists s', expiries [mkEnv 976563 false true; mkEnv 1953126 false false; mkEnv 2929688 false true]
      (rtc_timer_update (mkEnv 5 false false) busy_clock 5) = Ret s' /\
    next_periodic_time s' = 3906251 /\ irq_coalesced s' = 1.
Proof.
  destruct (rtc_periodic_no_drift (mkEnv 5 false false) busy_clock 5 [mkEnv 976563 false true; mkEnv 1953126 false false; mkEnv 2929688 false true])
    as (_ & _ & s' & E & En & _ & Ec);
    [split; [vm_compute; discriminate|reflexivity]|reflexivity|by rewrite !Forall_cons, Forall_nil|reflexivity|vm_compute; intuition discriminate|vm_compute; discriminate|discriminate|lia|vm_compute; reflexivity|].
  exists s'. split; [exact E|]. rewrite En, Ec. split; vm_compute; reflexivity.
Defined.

(** ** The state of the device *)
Definition irqf (s : RTCState) : bool := cmos_has s RTC_REG_C REG_C_IRQF.

(** The memory, the counters and the interrupt flag. *)
Record core_wf (s : RTCState) : Prop := {
  co_len : length (cmos_data s) = 128%nat; co_bytes : cmos_bytes s; co_index : 0 <= cmos_index s < 128;
  co_td : rtc_td_hack s = true -> coalesced_timer s <> None; co_notd : rtc_td_hack s = false -> irq_coalesced s = 0;
  co_missed : 0 <= irq_coalesced s < 2 ^ 32; co_period : 0 <= period s; co_d : cmos s RTC_REG_D = 0x80;
  co_irq : last (irq s) = Some 1 -> irqf s = true;
  co_reinject : irq_coalesced s <> 0 -> irq_reinject_on_ack_count s < RTC_REINJECT_ON_ACK_COUNT -> irqf s = true
}.

(** The update cycle: exactly one of its two timers is armed, and an update is shown in
    progress only while the second one is, and outside set mode. *)
Record cycle_wf (s : RTCState) : Prop := {
  cy_timers : (second_timer s <> None /\ second_timer2 s = None) \/ (second_timer s = None /\ second_timer2 s <> None);
  cy_uip : cmos_has s RTC_REG_A REG_A_UIP = true -> second_timer2 s <> None /\ cmos_has s RTC_REG_B REG_B_SET = false
}.

Lemma core_data s d : core_wf s -> length d = 128%nat -> bytes d -> d !! RTC_REG_C = cmos_data s !! RTC_REG_C ->
  d !! RTC_REG_D = cmos_data s !! RTC_REG_D -> core_wf (set_cmos s d).
Proof.
  intros [] Hl Hb Hc Hd. assert (irqf (set_cmos s d) = irqf s) as E by (unfold irqf, cmos_has, cmos; cbn [set_cmos cmos_data]; by rewrite Hc).
  split; try done; rewrite ?E; try done. unfold cmos in *. cbn [set_cmos cmos_data]. by rewrite Hd.
Qed.

Lemma core_put s i v : core_wf s -> i <> RTC_REG_C -> i <> RTC_REG_D -> core_wf (put s i v).
Proof.
  intros Hs Hc Hd. apply core_data; [done|rewrite length_insert; apply (co_len s Hs)| |by apply list_lookup_insert_ne..].
  apply put_bytes, (co_bytes s Hs).
Qed.

Lemma or_irqf c m : is_byte m -> is_byte c -> Z.land c REG_C_IRQF <> 0 -> Z.land (u8 (Z.lor c m)) REG_C_IRQF <> 0.
Proof.
  intros Hm Hc H E. apply H. apply Z.bits_inj'. intros i Hi. rewrite Z.land_spec, Z.bits_0.
  assert (Z.testbit (Z.land (u8 (Z.lor c m)) REG_C_IRQF) i = false) as Hb by (by rewrite E, Z.bits_0).
  rewrite Z.land_spec in Hb. destruct (Z.testbit REG_C_IRQF i) eqn:Ei; [|by rewrite andb_false_r].
  rewrite andb_true_r in *. destruct (Z.ltb_spec i 8).
  - unfold wrap in Hb. rewrite Z.mod_pow2_bits_low, Z.lor_spec in Hb by lia. by apply orb_false_iff in Hb as [-> _].
  - assert (Z.testbit REG_C_IRQF i = false) by (apply Z.bits_above_log2; [done|]; change (Z.log2 REG_C_IRQF) with 7; lia). congruence.
Qed.

Lemma core_or_c s m : core_wf s -> is_byte m -> core_wf (put s RTC_REG_C (Z.lor (cmos s RTC_REG_C) m)).
Proof.
  intros Hs Hm. pose proof Hs as []. set (s' := put s RTC_REG_C _).
  assert (irqf s = true -> irqf s' = true) as Hi.
  { unfold irqf, cmos_has, s'. rewrite cmos_put_eq by (rewrite co_len0; unfold RTC_REG_C; lia). rewrite !negb_true_iff, !Z.eqb_neq.
    apply or_irqf; [done|]. by apply cmos_byte. }
  split; try done; [by unfold s'; rewrite length_put|by apply put_bytes|by unfold s'; rewrite cmos_put_ne by discriminate|auto|auto].
Qed.

Lemma core_raise s : core_wf s -> irqf s = true -> core_wf (irq_raise s).
Proof. intros [] Hi. by split. Qed.

Lemma core_rtc_raise e s : core_wf s -> irqf s = true -> core_wf (rtc_irq_raise e s).
Proof. intros. unfold rtc_irq_raise. if_case; [by apply core_raise|done]. Qed.

Lemma core_lower s : core_wf s -> core_wf (irq_lower s).
Proof. intros []. split; try done. cbn [irq_lower set_lines irq]. by rewrite last_snoc. Qed.

Lemma core_tm s t : core_wf s -> core_wf (set_tm s t).
Proof. by intros []; split. Qed.
Lemma core_second s n a b : core_wf s -> core_wf (set_second s n a b).
Proof. by intros []; split. Qed.
Lemma core_periodic s a n : core_wf s -> core_wf (set_periodic s a n).
Proof. by intros []; split. Qed.
Lemma core_index s i : core_wf s -> 0 <= i < 128 -> core_wf (set_index s i).
Proof. by intros [] ?; split. Qed.
Lemma core_sqw s : core_wf s -> core_wf (sqw_raise s).
Proof. by intros []; split. Qed.
Lemma core_ctimer s t : core_wf s -> core_wf (set_ctimer s (Some t)).
Proof. by intros []; split. Qed.

Lemma irqf_or s m : core_wf s -> is_byte m -> Z.land m REG_C_IRQF <> 0 -> irqf (put s RTC_REG_C (Z.lor (cmos s RTC_REG_C) m)) = true.
Proof.
  intros Hs Hm Hi. unfold irqf, cmos_has. rewrite cmos_put_eq by (rewrite (co_len s Hs); unfold RTC_REG_C; lia).
  rewrite negb_true_iff, Z.eqb_neq, Z.lor_comm. apply or_irqf; [apply cmos_byte, Hs|done|done].
Qed.

#[local] Hint Resolve core_put core_tm core_second core_periodic core_index core_sqw core_ctimer core_lower core_rtc_raise core_raise core_or_c irqf_or : vm.

Lemma core_coalesced s a n p : core_wf s -> 0 <= n < 2 ^ 32 -> 0 <= p -> (rtc_td_hack s = false -> n = 0) ->
  (n <> 0 -> a < RTC_REINJECT_ON_ACK_COUNT -> irqf s = true) -> core_wf (set_coalesced s a n p).
Proof. by intros [] ????; split. Qed.

Lemma rescale_range c old p : 0 <= c < 2 ^ 32 -> 0 <= old -> 0 < p -> 0 <= rescale c old p < 2 ^ 32 /\ (c = 0 -> rescale c old p = 0).
Proof.
  intros Hc Ho Hp. unfold rescale. destruct (_ =? _); cbn [negb]; [done|].
  pose proof (wrap_range 32 (c * old) ltac:(lia)) as [W1 W2]. split; [|intros ->; reflexivity || by rewrite Z.mul_0_l].
  split; [apply Z.div_pos; lia|]. apply Z.div_lt_upper_bound; [lia|]. nia.
Qed.

Lemma core_timer_update e s t : core_wf s -> core_wf (rtc_timer_update e s t).
Proof.
  intros Hs. pose proof Hs as []. unfold rtc_timer_update. fold (code_of s). destruct (Z.eqb_spec (code_of s) 0) as [|Hc]; cbn [negb andb].
  { apply core_periodic, core_coalesced; done || lia. }
  destruct (_ || _); [|apply core_periodic, core_coalesced; done || lia].
  pose proof (period_of_range _ (code_range s Hc)) as Hp. fold (period_of (code_of s)).
  change (if negb (period_of (code_of s) =? period s) then u32 (irq_coalesced s * period s) / period_of (code_of s) else irq_coalesced s)
    with (rescale (irq_coalesced s) (period s) (period_of (code_of s))).
  destruct (rescale_range (irq_coalesced s) (period s) (period_of (code_of s))) as [Hr Hz]; [done..|lia|].
  apply core_periodic, core_coalesced; [done|done|lia|auto|]. intros Hn. apply co_reinject0. intros E. by apply Hn, Hz.
Qed.

(** The cycle's timers and registers are left alone. *)
Definition cycle_kept (s s' : RTCState) : Prop :=
  second_timer s' = second_timer s /\ second_timer2 s' = second_timer2 s /\
  cmos s' RTC_REG_A = cmos s RTC_REG_A /\ cmos s' RTC_REG_B = cmos s RTC_REG_B.

Lemma cycle_kept_trans a b c : cycle_kept a b -> cycle_kept b c -> cycle_kept a c.
Proof. unfold cycle_kept. intuition congruence. Qed.

Lemma cycle_kept_c s v : cycle_kept s (put s RTC_REG_C v).
Proof. unfold cycle_kept. by rewrite !cmos_put_ne by discriminate. Qed.

Lemma cycle_kept_raise e s : cycle_kept s (rtc_irq_raise e s).
Proof. unfold rtc_irq_raise. by if_case. Qed.

Lemma core_ctimer_update e s : core_wf s -> coalesced_timer s <> None ->
  exists s', rtc_coalesced_timer_update e s = Ret s' /\ core_wf s' /\ cycle_kept s s'.
Proof.
  intros Hs Htd. unfold rtc_coalesced_timer_update. destruct (coalesced_timer s); [|done].
  destruct (_ =? _); eexists; split_and!; try done; auto with vm.
Qed.

Lemma core_coalesced_timer e s : core_wf s -> coalesced_timer s <> None ->
  exists s', rtc_coalesced_timer e s = Ret s' /\ core_wf s' /\ cycle_kept s s'.
Proof.
  intros Hs Htd. unfold rtc_coalesced_timer. destruct (Z.eqb_spec (irq_coalesced s) 0) as [|Hn]; cbn [negb]; [by apply core_ctimer_update|].
  assert (is_byte 0xc0) as Hb by (unfold is_byte; lia).
  pose proof (core_or_c s 0xc0 Hs Hb) as H1. pose proof (irqf_or s 0xc0 Hs Hb ltac:(discriminate)) as H2.
  set (s1 := put s RTC_REG_C _) in *. assert (irqf (rtc_irq_raise e s1) = true) as H3 by (unfold rtc_irq_raise; by if_case).
  pose proof (core_rtc_raise e s1 H1 H2) as H4.
  assert (irq_coalesced (rtc_irq_raise e s1) = irq_coalesced s /\ rtc_td_hack (rtc_irq_raise e s1) = rtc_td_hack s /\
    coalesced_timer (rtc_irq_raise e s1) = coalesced_timer s) as (E1 & E2 & E3) by (unfold rtc_irq_raise; by if_case).
  assert (cycle_kept s (rtc_irq_raise e s1)) as K by (eapply cycle_kept_trans; [apply cycle_kept_c|apply cycle_kept_raise]).
  pose proof (co_missed s Hs). set (s2 := if apic_irq_delivered e then _ else _).
  assert (core_wf s2 /\ coalesced_timer s2 <> None /\ cycle_kept s s2) as (H5 & H6 & H7).
  { unfold s2. destruct (apic_irq_delivered e); [|by rewrite E3]. split; [|by rewrite <- E3 in Htd].
    apply core_coalesced; rewrite ?E1, ?E2; try done; [lia|apply H4|]. intros Hf. by rewrite (co_notd s Hs Hf) in Hn. }
  destruct (core_ctimer_update e s2 H5 H6) as (s3 & E & H8 & H9). exists s3. split_and!; [exact E|done|by eapply cycle_kept_trans].
Qed.

Lemma core_periodic_irq e s : core_wf s -> exists s', periodic_irq e s = Ret s' /\ core_wf s' /\ cycle_kept s s'.
Proof.
  intros Hs. assert (is_byte 0xc0) as Hb by (unfold is_byte; lia). unfold periodic_irq.
  pose proof (core_or_c s 0xc0 Hs Hb) as H1. pose proof (irqf_or s 0xc0 Hs Hb ltac:(discriminate)) as H2.
  pose proof (cycle_kept_c s (Z.lor (cmos s RTC_REG_C) 0xc0)) as K1.
  set (s1 := put s RTC_REG_C _) in *. clearbody s1. destruct (rtc_td_hack s1) eqn:Htd.
  2: { eexists. split; [done|]. split; [auto with vm|]. eapply cycle_kept_trans; [exact K1|apply cycle_kept_raise]. }
  set (s2 := if RTC_REINJECT_ON_ACK_COUNT <=? _ then _ else s1).
  assert (core_wf s2 /\ irqf s2 = true /\ rtc_td_hack s2 = true /\ cycle_kept s s2) as (H3 & H4 & H5 & K2).
  { unfold s2. if_case; [|done]. split; [|done]. apply core_coalesced; try done; try apply H1. }
  clearbody s2. pose proof (core_rtc_raise e s2 H3 H4) as H6.
  assert (irqf (rtc_irq_raise e s2) = true /\ rtc_td_hack (rtc_irq_raise e s2) = true) as [H7 H8] by (unfold rtc_irq_raise; by if_case).
  assert (cycle_kept s (rtc_irq_raise e s2)) as K3 by (eapply cycle_kept_trans; [exact K2|apply cycle_kept_raise]).
  destruct (apic_irq_delivered e); [eauto|]. cbn [negb]. set (s3 := set_coalesced _ _ _ _).
  assert (core_wf s3) as H9 by (apply core_coalesced; [done|apply (wrap_range 32); lia|apply H6|by rewrite H8|done]).
  destruct (core_ctimer_update e s3 H9) as (s4 & E & H10 & K4); [by apply (co_td _ H6)|].
  exists s4. split_and!; [exact E|done|eapply cycle_kept_trans; [exact K3|exact K4]].
Qed.

Lemma core_periodic_timer e s : core_wf s -> exists s', rtc_periodic_timer e s = Ret s' /\ core_wf s' /\ cycle_kept s s'.
Proof.
  intros Hs. unfold rtc_periodic_timer. pose proof (core_timer_update e s (next_periodic_time s) Hs) as H1.
  assert (cycle_kept s (rtc_timer_update e s (next_periodic_time s))) as K1.
  { destruct (timer_update_clock e s (next_periodic_time s)) as (E1 & _ & _ & _ & E5 & E6). unfold cycle_kept, cmos. by rewrite E1. }
  set (s1 := rtc_timer_update e s (next_periodic_time s)) in *. clearbody s1. fold (periodic_irq e s1).
  assert (exists s2, (if cmos_has s1 RTC_REG_B REG_B_PIE then periodic_irq e s1 else Ret s1) = Ret s2 /\ core_wf s2 /\ cycle_kept s s2) as (s2 & -> & H2 & K2).
  { destruct (cmos_has s1 RTC_REG_B REG_B_PIE); [|eauto]. destruct (core_periodic_irq e s1 H1) as (s2 & E & H2 & K2).
    exists s2. split_and!; [done|done|by eapply cycle_kept_trans]. }
  cbn [obind]. eexists. split; [done|]. if_case; split; auto with vm.
Qed.

(** ** The ports *)
Definition rtc_wf (s : RTCState) : Prop := core_wf s /\ cycle_wf s.

Lemma cycle_mono s s' : cycle_wf s -> second_timer s' = second_timer s -> second_timer2 s' = second_timer2 s ->
  (cmos_has s' RTC_REG_A REG_A_UIP = true -> cmos_has s RTC_REG_A REG_A_UIP = true) ->
  (cmos_has s' RTC_REG_B REG_B_SET = true -> cmos_has s RTC_REG_B REG_B_SET = true) -> cycle_wf s'.
Proof.
  intros [Ht Hu] E1 E2 Ha Hb. split; rewrite ?E1, ?E2; [done|]. intros Hx. destruct (Hu (Ha Hx)) as [H1 H2]. split; [done|].
  destruct (cmos_has s' RTC_REG_B REG_B_SET); [|done]. by rewrite Hb in H2.
Qed.

Lemma cycle_clock s s' : cycle_wf s -> same_clock s s' -> cycle_wf s'.
Proof. intros H (E1 & _ & _ & _ & E5 & E6). apply (cycle_mono s); try done; unfold cmos_has, cmos; by rewrite E1. Qed.

Lemma cycle_put s i v : cycle_wf s -> i <> RTC_REG_A -> i <> RTC_REG_B -> cycle_wf (put s i v).
Proof. intros H Ha Hb. apply (cycle_mono s); try done; by rewrite has_put_ne. Qed.

Lemma rtc_wf_update e s t : rtc_wf s -> rtc_wf (rtc_timer_update e s t).
Proof. intros [H1 H2]. split; [by apply core_timer_update|by apply (cycle_clock s), timer_update_clock]. Qed.

Lemma rtc_wf_put s i v : rtc_wf s -> i <> RTC_REG_A -> i <> RTC_REG_B -> i <> RTC_REG_C -> i <> RTC_REG_D -> rtc_wf (put s i v).
Proof. intros [H1 H2] ????. split; [by apply core_put|by apply cycle_put]. Qed.

Lemma rtc_wf_tm s t : rtc_wf s -> rtc_wf (set_tm s t).
Proof. intros [H1 [H2 H3]]. split; [by apply core_tm|by split]. Qed.

Lemma rtc_wf_set_time s : rtc_wf s -> rtc_wf (rtc_set_time s).
Proof. apply rtc_wf_tm. Qed.

#[local] Hint Resolve rtc_wf_update rtc_wf_put rtc_wf_tm rtc_wf_set_time : vm.

(** Register A: the update bit is the clock's. *)
Lemma write_a_uip x a : is_byte a ->
  Z.land (u8 (Z.lor (Z.land x (Z.lnot REG_A_UIP)) (Z.land a REG_A_UIP))) REG_A_UIP = Z.land a REG_A_UIP.
Proof.
  intros Ha. apply Z.bits_inj'. intros i Hi. rewrite !Z.land_spec. destruct (Z.testbit REG_A_UIP i) eqn:Eu; [|by rewrite !andb_false_r].
  rewrite !andb_true_r. destruct (Z.ltb_spec i 8).
  - unfold wrap. rewrite Z.mod_pow2_bits_low, Z.lor_spec, !Z.land_spec, Z.lnot_spec, Eu by lia. by rewrite andb_false_r, andb_true_r.
  - assert (Z.testbit REG_A_UIP i = false) by (apply Z.bits_above_log2; [done|]; change (Z.log2 REG_A_UIP) with 7; lia). congruence.
Qed.

Lemma cmos_a_put s v : core_wf s -> cmos (put s RTC_REG_A v) RTC_REG_A = u8 v.
Proof. intros Hs. apply cmos_put_eq. rewrite (co_len s Hs). unfold RTC_REG_A. lia. Qed.
Lemma cmos_b_put s v : core_wf s -> cmos (put s RTC_REG_B v) RTC_REG_B = u8 v.
Proof. intros Hs. apply cmos_put_eq. rewrite (co_len s Hs). unfold RTC_REG_B. lia. Qed.

Lemma write_a_wf s data : rtc_wf s ->
  rtc_wf (put s RTC_REG_A (Z.lor (Z.land data (Z.lnot REG_A_UIP)) (Z.land (cmos s RTC_REG_A) REG_A_UIP))).
Proof.
  intros [Hs Hc]. split; [by apply core_put|]. apply (cycle_mono s); try done; [|by rewrite has_put_ne].
  unfold cmos_has. rewrite cmos_a_put by done. rewrite write_a_uip; [done|]. apply cmos_byte, (co_bytes s Hs).
Qed.

Lemma clear_uip a : Z.land (u8 (Z.land a (Z.lnot REG_A_UIP))) REG_A_UIP = 0.
Proof.
  apply Z.bits_inj'. intros i Hi. rewrite Z.land_spec, Z.bits_0. destruct (Z.testbit REG_A_UIP i) eqn:Eu; [|by rewrite andb_false_r].
  rewrite andb_true_r. unfold wrap. destruct (Z.ltb_spec i 8); [|by rewrite Z.mod_pow2_bits_high by lia].
  rewrite Z.mod_pow2_bits_low, Z.land_spec, Z.lnot_spec, Eu by lia. by rewrite andb_false_r.
Qed.

Lemma no_uip_a s : core_wf s -> cmos_has (put s RTC_REG_A (Z.land (cmos s RTC_REG_A) (Z.lnot REG_A_UIP))) RTC_REG_A REG_A_UIP = false.
Proof. intros Hs. unfold cmos_has. by rewrite cmos_a_put, clear_uip. Qed.

(** Register B: entering set mode ends an update in progress. *)
Lemma write_b_wf s data : rtc_wf s ->
  rtc_wf (put (if negb (Z.land data REG_B_SET =? 0) then put s RTC_REG_A (Z.land (cmos s RTC_REG_A) (Z.lnot REG_A_UIP))
               else if cmos_has s RTC_REG_B REG_B_SET then rtc_set_time s else s) RTC_REG_B
              (if negb (Z.land data REG_B_SET =? 0) then Z.land data (Z.lnot REG_B_UIE) else data)).
Proof.
  intros [Hs Hc]. destruct (Z.eqb_spec (Z.land data REG_B_SET) 0) as [E|E]; cbn [negb].
  - set (s1 := if cmos_has s RTC_REG_B REG_B_SET then rtc_set_time s else s).
    assert (rtc_wf s1) as [Hs1 Hc1] by (unfold s1; if_case; [apply rtc_wf_set_time|]; done).
    split; [by apply core_put|]. apply (cycle_mono s1); try done; [by rewrite has_put_ne|].
    unfold cmos_has at 1. rewrite cmos_b_put by done.
    assert (Z.land (u8 data) REG_B_SET = 0) as ->; [|done]. apply Z.bits_inj'. intros i Hi. rewrite <- E, !Z.land_spec.
    unfold wrap. destruct (Z.ltb_spec i 8); [by rewrite Z.mod_pow2_bits_low by lia|].
    assert (Z.testbit REG_B_SET i = false) as -> by (apply Z.bits_above_log2; [done|]; change (Z.log2 REG_B_SET) with 7; lia). by rewrite !andb_false_r.
  - set (s1 := put s RTC_REG_A _). assert (core_wf s1) as Hs1 by (by apply core_put). split; [by apply core_put|].
    destruct Hc as [Ht _]. split; [exact Ht|]. rewrite has_put_ne by discriminate. unfold s1. by rewrite no_uip_a.
Qed.

Lemma write_wf e s addr data : rtc_wf s -> exists s', cmos_ioport_write e s addr data = Ret s' /\ rtc_wf s'.
Proof.
  intros Hw. pose proof Hw as [Hs Hc]. unfold cmos_ioport_write. destruct (Z.land addr 1 =? 0).
  { eexists. split; [done|]. split; [|by destruct Hc; split]. apply core_index; [done|]. change 0x7f with (Z.ones 7). rewrite Z.land_ones by lia.
    apply Z.mod_pos_bound. lia. }
  set (i := Z.to_nat (cmos_index s)).
  destruct (existsb (Nat.eqb i) [RTC_SECONDS_ALARM; RTC_MINUTES_ALARM; RTC_HOURS_ALARM]) eqn:E1.
  { apply existsb_exists in E1 as (j & Hj & ->%Nat.eqb_eq). eexists. split; [done|].
    apply rtc_wf_put; [done|..]; intros ->; cbn in Hj; intuition discriminate. }
  destruct (existsb (Nat.eqb i) [RTC_SECONDS; RTC_MINUTES; RTC_HOURS; RTC_DAY_OF_WEEK; RTC_DAY_OF_MONTH; RTC_MONTH; RTC_YEAR]) eqn:E2.
  { apply existsb_exists in E2 as (j & Hj & ->%Nat.eqb_eq). eexists. split; [done|].
    assert (rtc_wf (put s j data)) by (apply rtc_wf_put; [done|..]; intros ->; cbn in Hj; intuition discriminate). if_case; auto with vm. }
  destruct (Nat.eqb_spec i RTC_REG_A) as [Ea|Ea]; [eauto using write_a_wf with vm|].
  destruct (Nat.eqb_spec i RTC_REG_B) as [Eb|Eb].
  { pose proof (write_b_wf s data Hw) as Hb. destruct (negb (Z.land data REG_B_SET =? 0)); eauto with vm. }
  destruct (Nat.eqb_spec i RTC_REG_C), (Nat.eqb_spec i RTC_REG_D); cbn [orb]; eauto. pose proof (co_index s Hs). pose proof (co_len s Hs) as Hl.
  rewrite (proj2 (Nat.ltb_lt i (length (cmos_data s)))) by (unfold i; lia). eauto with vm.
Qed.

(** Register C is cleared when the line is low and nothing is to be reinjected. *)
Lemma core_clear_c s v : core_wf s -> last (irq s) <> Some 1 ->
  (irq_coalesced s = 0 \/ RTC_REINJECT_ON_ACK_COUNT <= irq_reinject_on_ack_count s) -> core_wf (put s RTC_REG_C v).
Proof.
  intros [] Hi Hr. split; try done; [by rewrite length_put|by apply put_bytes|by rewrite cmos_put_ne by discriminate|].
  cbn [put set_cmos irq_coalesced irq_reinject_on_ack_count]. lia.
Qed.

Lemma read_wf e s addr : rtc_wf s -> exists v s', cmos_ioport_read e s addr = Ret (v, s') /\ rtc_wf s' /\ is_byte v.
Proof.
  intros Hw. pose proof Hw as [Hs Hc]. unfold cmos_ioport_read. destruct (Z.land addr 1 =? 0); [do 2 eexists; split; [done|]; by unfold is_byte|].
  pose proof (co_index s Hs). pose proof (co_len s Hs) as Hl.
  destruct (lookup_lt_is_Some_2 (cmos_data s) (Z.to_nat (cmos_index s))) as [v Hv]; [lia|]. rewrite Hv. cbn [oget obind].
  assert (is_byte v) as Hb by (pose proof (co_bytes s Hs) as H'; unfold cmos_bytes in H'; rewrite Forall_forall in H'; apply H'; by eapply list_elem_of_lookup_2).
  destruct (Nat.eqb_spec (Z.to_nat (cmos_index s)) RTC_REG_C); [|eauto].
  pose proof (core_lower s Hs) as H1. set (s1 := irq_lower s) in *. assert (cycle_wf s1) as C1 by (by apply (cycle_mono s)).
  assert (last (irq s1) <> Some 1) as Hlow by (unfold s1; cbn [irq_lower set_lines irq]; by rewrite last_snoc).
  destruct (Z.eqb_spec (irq_coalesced s1) 0) as [|Hn]; [|destruct (Z.ltb_spec (irq_reinject_on_ack_count s1) RTC_REINJECT_ON_ACK_COUNT)]; cbn [negb andb].
  - do 2 eexists. split; [done|]. split; [|done]. split; [apply core_clear_c; auto|by apply cycle_put].
  - do 2 eexists. split; [done|]. split; [|done]. pose proof (co_reinject s1 H1 Hn ltac:(lia)) as Hi. pose proof (co_missed s1 H1) as Hm.
    assert (core_wf (irq_raise (set_coalesced s1 (irq_reinject_on_ack_count s1 + 1) (irq_coalesced s1) (period s1)))) as H2.
    { apply core_raise; [|done]. apply core_coalesced; try done; apply H1. }
    if_case; split; try done; [|by apply (cycle_mono s1)..]. apply core_coalesced; try done; cbn [irq_raise set_coalesced set_lines irq_coalesced rtc_td_hack]; [lia|apply H1|].
    intros Htd. pose proof (co_notd s1 H1 Htd). lia.
  - do 2 eexists. split; [done|]. split; [|done]. split; [apply core_clear_c; auto|by apply cycle_put].
Qed.

(** ** The update cycle *)
Lemma core_copy_date s : core_wf s -> core_wf (rtc_copy_date s).
Proof.
  intros Hs. rewrite copy_date_regs by (rewrite (co_len s Hs); lia).
  assert (bytes (date_regs s (cmos_data s))) as Hb by (unfold date_regs; cbv zeta; repeat (apply Forall_insert; [|apply wrap_range; lia]); apply (co_bytes s Hs)).
  apply core_data; [done|rewrite date_regs_length; apply (co_len s Hs)|exact Hb|unfold date_regs; cbv zeta; by rewrite !list_lookup_insert_ne by discriminate..].
Qed.

Lemma copy_date_timers s : core_wf s -> second_timer (rtc_copy_date s) = second_timer s /\ second_timer2 (rtc_copy_date s) = second_timer2 s.
Proof. intros Hs. by rewrite copy_date_regs by (rewrite (co_len s Hs); lia). Qed.

Lemma raise_timers e s : second_timer (rtc_irq_raise e s) = second_timer s /\ second_timer2 (rtc_irq_raise e s) = second_timer2 s.
Proof. unfold rtc_irq_raise. by if_case. Qed.

Lemma core_alarm e s : core_wf s -> core_wf (check_alarm e s) /\ second_timer2 (check_alarm e s) = second_timer2 s.
Proof.
  intros Hs. unfold check_alarm. destruct (cmos_has _ _ _); [|done]. if_case; [|done]. assert (is_byte 0xa0) by (unfold is_byte; lia).
  split; [apply core_rtc_raise; auto with vm; by apply irqf_or|]. by rewrite (proj2 (raise_timers _ _)).
Qed.

Lemma core_ended e s : core_wf s -> core_wf (update_ended e s) /\ second_timer2 (update_ended e s) = second_timer2 s.
Proof.
  intros Hs. unfold update_ended. assert (is_byte REG_C_UF) by (unfold is_byte, REG_C_UF; lia). assert (is_byte REG_C_IRQF) by (unfold is_byte, REG_C_IRQF; lia).
  set (s1 := put s RTC_REG_C _). assert (core_wf s1) by (by apply core_or_c). if_case; [|done].
  split; [apply core_rtc_raise; auto with vm; by apply irqf_or|]. by rewrite (proj2 (raise_timers _ _)).
Qed.

(** The timers have fired, so they are not armed when the callbacks run. *)
Lemma second_wf s : core_wf s -> second_timer s = None -> second_timer2 s = None -> cmos_has s RTC_REG_A REG_A_UIP = false ->
  rtc_wf (rtc_update_second s).
Proof.
  intros Hs H1 H2 Hu. unfold rtc_update_second. destruct (negb (_ =? 0x20)).
  - split; [by apply core_second|]. split; cbn [set_second second_timer second_timer2]; [left; by split|].
    change (cmos_has (set_second _ _ _ _) ?r ?m) with (cmos_has s r m). by rewrite Hu.
  - pose proof (core_tm s (rtc_next_second (current_tm s)) Hs) as Hs1. set (s1 := set_tm s _) in *.
    destruct (cmos_has s1 RTC_REG_B REG_B_SET) eqn:Eb; cbn [negb].
    + split; [by apply core_second|]. split; cbn [set_second second_timer second_timer2]; [right; by split|].
      change (cmos_has (set_second _ _ _ _) RTC_REG_A REG_A_UIP) with (cmos_has s RTC_REG_A REG_A_UIP). by rewrite Hu.
    + split; [by apply core_second, core_put|]. split; cbn [set_second second_timer second_timer2]; [right; by split|].
      intros _. split; [done|]. rewrite <- Eb. apply (has_put_ne s1). discriminate.
Qed.

Lemma second2_wf e s : core_wf s -> second_timer2 s = None -> rtc_wf (rtc_update_second2 e s).
Proof.
  intros Hs H2. unfold rtc_update_second2. set (s1 := if negb _ then rtc_copy_date s else s).
  assert (core_wf s1 /\ second_timer2 s1 = None) as [Hs1 H21].
  { unfold s1. if_case; [|done]. split; [by apply core_copy_date|]. by rewrite (proj2 (copy_date_timers s Hs)). }
  clearbody s1. destruct (core_alarm e s1 Hs1) as [Hs2 H22]. rewrite H21 in H22. generalize dependent (check_alarm e s1). intros s2 Hs2 H22.
  destruct (core_ended e s2 Hs2) as [Hs3 H23]. rewrite H22 in H23. generalize dependent (update_ended e s2). intros s3 Hs3 H23.
  split; [by apply core_second, core_put|]. split; cbn [set_second second_timer second_timer2]; [left; by split|].
  change (cmos_has (set_second ?x _ _ _) ?r ?m) with (cmos_has x r m). by rewrite no_uip_a.
Qed.

Lemma reset_b_set b : is_byte b -> Z.land (u8 (Z.land b (Z.lnot (Z.lor (Z.lor REG_B_PIE REG_B_AIE) REG_B_SQWE)))) REG_B_SET = Z.land b REG_B_SET.
Proof.
  intros Hb. apply Z.eqb_eq. exact (range_check (fun b => Z.land (u8 (Z.land b (Z.lnot (Z.lor (Z.lor REG_B_PIE REG_B_AIE) REG_B_SQWE)))) REG_B_SET
    =? Z.land b REG_B_SET) 0 256 ltac:(vm_compute; reflexivity) b Hb).
Qed.

Lemma reset_wf_rtc s : rtc_wf s -> rtc_wf (rtc_reset s).
Proof.
  intros [Hs Hc]. unfold rtc_reset. set (b := Z.land (cmos s RTC_REG_B) _). set (s1 := put s RTC_REG_B b).
  assert (core_wf s1) as Hs1 by (by apply core_put). set (v := Z.land (cmos s1 RTC_REG_C) _).
  assert (cycle_wf s1) as Hc1.
  { apply (cycle_mono s); try done; [by unfold s1; rewrite has_put_ne by discriminate|]. unfold cmos_has, s1. rewrite cmos_b_put by done.
    unfold b. by rewrite reset_b_set by (apply cmos_byte, (co_bytes s Hs)). }
  assert (cycle_wf (put s1 RTC_REG_C v)) as Hc2 by (by apply cycle_put). change (rtc_td_hack (irq_lower (put s1 RTC_REG_C v))) with (rtc_td_hack s).
  pose proof (core_lower s1 Hs1) as Hs2. assert (last (irq (irq_lower s1)) <> Some 1) as Hlow by (cbn [irq_lower set_lines irq]; by rewrite last_snoc).
  destruct (rtc_td_hack s) eqn:Htd; (split; [|by apply (cycle_mono (put s1 RTC_REG_C v))]).
  - change (core_wf (put (set_coalesced (irq_lower s1) (irq_reinject_on_ack_count s1) 0 (period s1)) RTC_REG_C v)).
    apply core_clear_c; [|done|by left]. apply core_coalesced; try done. apply Hs1.
  - change (core_wf (put (irq_lower s1) RTC_REG_C v)). apply core_clear_c; [done|done|]. left. by apply (co_notd s1 Hs1).
Qed.

(** Creation: setting the date touches neither the control registers nor anything but the
    memory and the calendar. *)
Lemma set_host_regs s host : length (cmos_data s) = 128%nat -> cmos_bytes s ->
  exists d, rtc_set_date_from_host s host = set_cmos (set_tm s host) d /\ length d = 128%nat /\ bytes d /\
    forall i, i ∈ [RTC_REG_A; RTC_REG_B; RTC_REG_C; RTC_REG_D] -> d !! i = cmos_data s !! i.
Proof.
  intros Hl Hb. unfold rtc_set_date_from_host, rtc_set_date. rewrite copy_date_regs by (cbn [set_tm cmos_data]; lia).
  change (cmos_data (set_tm s host)) with (cmos_data s). set (s1 := set_cmos _ _). set (v := rtc_to_bcd s1 _). clearbody v.
  exists (<[Z.to_nat REG_IBM_PS2_CENTURY_BYTE := u8 v]> (<[Z.to_nat REG_IBM_CENTURY_BYTE := u8 v]> (date_regs (set_tm s host) (cmos_data s)))).
  split; [done|]. split; [by rewrite !length_insert, date_regs_length|]. split.
  - unfold date_regs. cbv zeta. repeat (apply Forall_insert; [|apply wrap_range; lia]). exact Hb.
  - intros i Hi. unfold date_regs. cbv zeta.
    repeat (apply elem_of_cons in Hi as [->|Hi]; [by rewrite !list_lookup_insert_ne by discriminate|]). by apply not_elem_of_nil in Hi.
Qed.

Lemma init_wf_rtc e td base host : rtc_wf (rtc_init e td base host).
Proof.
  unfold rtc_init, rtc_initfn. set (s4 := put (put (put (put (rtc_zero td base) RTC_REG_A 0x26) RTC_REG_B 0x02) RTC_REG_C 0x00) RTC_REG_D 0x80).
  destruct (set_host_regs s4 host) as (d & -> & Hl & Hb & Hd); [done| |].
  { do 4 apply put_bytes. apply Forall_replicate. unfold is_byte. lia. }
  set (s5 := set_cmos (set_tm s4 host) d). change (rtc_td_hack s5) with td.
  assert (cmos s5 RTC_REG_A = 0x26 /\ cmos s5 RTC_REG_B = 0x02 /\ cmos s5 RTC_REG_D = 0x80) as (Ea & Eb & Ed).
  { unfold cmos, s5. cbn [set_cmos cmos_data]. by rewrite !Hd by set_solver. }
  set (s6 := if td then set_ctimer s5 (Some None) else s5).
  assert (cmos_data s6 = d /\ irq s6 = [] /\ irq_coalesced s6 = 0 /\ period s6 = 0 /\ cmos_index s6 = 0 /\ rtc_td_hack s6 = td /\
    (td = true -> coalesced_timer s6 <> None)) as (E1 & E2 & E3 & E4 & E5 & E6 & E7) by (unfold s6; destruct td; by split_and!).
  assert (forall r, cmos s6 r = cmos s5 r) as E8 by (unfold cmos; intros; by rewrite E1).
  clearbody s6. split.
  - apply core_second. split; unfold cmos_bytes; rewrite ?E1, ?E2, ?E3, ?E4, ?E5, ?E6, ?E8; try done; lia.
  - split; cbn [set_second second_timer second_timer2]; [by right|].
    change (cmos_has (set_second ?x _ _ _) ?r ?m) with (cmos_has x r m). unfold cmos_has. by rewrite E8, Ea.
Qed.

(** ** Everything that can happen *)
Inductive rtc_op : Type :=
| RtcWrite (addr data : Z) | RtcRead (addr : Z) | RtcPeriodic | RtcCoalesced | RtcSecond | RtcSecond2 | RtcReset.

(** A timer's callback runs when the timer is armed, and disarms it; [None] otherwise. *)
Definition rtc_step (e : env) (op : rtc_op) (s : RTCState) : option (res (Z * RTCState)) :=
  match op with
  | RtcWrite addr data => Some (let! s := cmos_ioport_write e s addr data in Ret (0, s))
  | RtcRead addr => Some (cmos_ioport_read e s addr)
  | RtcPeriodic =>
      match periodic_timer s with
      | Some _ => Some (let! s := rtc_periodic_timer e (set_periodic s None (next_periodic_time s)) in Ret (0, s))
      | None => None
      end
  | RtcCoalesced =>
      match coalesced_timer s with
      | Some (Some _) => Some (let! s := rtc_coalesced_timer e (set_ctimer s (Some None)) in Ret (0, s))
      | _ => None
      end
  | RtcSecond =>
      match second_timer s with
      | Some _ => Some (Ret (0, rtc_update_second (set_second s (next_second_time s) None (second_timer2 s))))
      | None => None
      end
  | RtcSecond2 =>
      match second_timer2 s with
      | Some _ => Some (Ret (0, rtc_update_second2 e (set_second s (next_second_time s) (second_timer s) None)))
      | None => None
      end
  | RtcReset => Some (Ret (0, rtc_reset s))
  end.

Inductive rtc_reach : RTCState -> Prop :=
| rtc_start e td base host : rtc_reach (rtc_init e td base host)
| rtc_next e op s v s' : rtc_reach s -> rtc_step e op s = Some (Ret (v, s')) -> rtc_reach s'.

Lemma cycle_kept_wf s s' : cycle_wf s -> cycle_kept s s' -> cycle_wf s'.
Proof. intros H (E1 & E2 & Ea & Eb). apply (cycle_mono s); try done; unfold cmos_has; by rewrite ?Ea, ?Eb. Qed.

Lemma rtc_step_wf e op s : rtc_wf s ->
  match rtc_step e op s with Some r => exists v s', r = Ret (v, s') /\ rtc_wf s' /\ is_byte v | None => True end.
Proof.
  intros Hw. pose proof Hw as [Hs Hc]. assert (is_byte 0) as H0 by (unfold is_byte; lia).
  destruct op as [addr data|addr| | | | |]; cbn [rtc_step].
  - destruct (write_wf e s addr data Hw) as (s' & -> & H). cbn [obind]. eauto.
  - destruct (read_wf e s addr Hw) as (v & s' & -> & H & Hv). eauto.
  - destruct (periodic_timer s); [|done]. destruct (core_periodic_timer e _ (core_periodic s None (next_periodic_time s) Hs)) as (s' & -> & H & K).
    cbn [obind]. do 2 eexists. split; [done|]. split; [|done]. split; [done|]. by apply (cycle_kept_wf s).
  - destruct (coalesced_timer s) as [[]|] eqn:Et; [|done..]. destruct (core_coalesced_timer e _ (core_ctimer s None Hs)) as (s' & -> & H & K); [done|].
    cbn [obind]. do 2 eexists. split; [done|]. split; [|done]. split; [done|]. by apply (cycle_kept_wf s).
  - destruct (second_timer s) eqn:Et; [|done]. destruct Hc as [[[_ E]|[E _]] Hu]; [|by rewrite Et in E].
    do 2 eexists. split; [done|]. split; [|done]. apply second_wf; [by apply core_second|done|done|].
    change (cmos_has (set_second _ _ _ _) ?r ?m) with (cmos_has s r m). destruct (cmos_has s RTC_REG_A REG_A_UIP); [|done]. by destruct Hu as [Hx _].
  - destruct (second_timer2 s) eqn:Et; [|done]. do 2 eexists. split; [done|]. split; [|done]. apply second2_wf; [by apply core_second|done].
  - do 2 eexists. split; [done|]. split; [|done]. by apply reset_wf_rtc.
Qed.

Lemma rtc_reach_wf s : rtc_reach s -> rtc_wf s.
Proof.
  induction 1 as [|e op s v s' _ IH E]; [apply init_wf_rtc|]. pose proof (rtc_step_wf e op s IH) as H. rewrite E in H.
  destruct H as (v1 & s1 & E1%Ret_inj & H & _). congruence.
Qed.

(** C26. The device's state is well formed: in every state reached from creation by port accesses,
    expiries of armed timers and resets, in any order and whatever the rest of the machine
    does, the memory is 128 bytes and the index within it, every further step returns and
    yields a byte, register D says the memory is valid, exactly one of the two timers of
    the update cycle is armed (the clock never stops), an update is shown in progress only
    while its second half is due and not in set mode, and whenever the interrupt line is
    high the interrupt flag of register C is set, so that the guest finds out why. *)
Theorem rtc_invariant s :
  rtc_reach s ->
  length (cmos_data s) = 128%nat /\ bytes (cmos_data s) /\ 0 <= cmos_index s < 128 /\ cmos s RTC_REG_D = 0x80 /\
  ((second_timer s <> None /\ second_timer2 s = None) \/ (second_timer s = None /\ second_timer2 s <> None)) /\
  (cmos_has s RTC_REG_A REG_A_UIP = true -> second_timer2 s <> None /\ cmos_has s RTC_REG_B REG_B_SET = false) /\
  (last (irq s) = Some 1 -> cmos_has s RTC_REG_C REG_C_IRQF = true) /\
  forall e op, match rtc_step e op s with Some r => exists v s', r = Ret (v, s') /\ is_byte v | None => True end.
Proof.
  intros Hw%rtc_reach_wf. pose proof Hw as [Hs Hc]. split_and!; try apply Hs; try apply Hc.
  intros e op. pose proof (rtc_step_wf e op s Hw) as H. destruct (rtc_step e op s); [|done]. destruct H as (v & s' & E & _ & Hv). eauto.
Qed.

(** In the middle of an update, with the interrupt line raised by the one before. *)
Definition mid_update : RTCState :=
  let e := mkEnv 5 false false in
  let s := rtc_init e false 2000 millennium in
  let step op s := match rtc_step e op s with Some (Ret (_, s)) => s | _ => s end in
  step RtcSecond (step RtcSecond2 (step (RtcWrite 0x71 0x12) (step (RtcWrite 0x70 11) s))).

Lemma mid_update_reach : rtc_reach mid_update.
Proof.
  pose (e := mkEnv 5 false false). pose (next op s := match rtc_step e op s with Some (Ret (_, s)) => s | _ => s end).
  pose (s0 := rtc_init e false 2000 millennium). pose (s1 := next (RtcWrite 0x70 11) s0).
  pose (s2 := next (RtcWrite 0x71 0x12) s1). pose (s3 := next RtcSecond2 s2).
  apply (rtc_next e RtcSecond s3 0); [|vm_compute; reflexivity]. apply (rtc_next e RtcSecond2 s2 0); [|vm_compute; reflexivity].
  apply (rtc_next e (RtcWrite 0x71 0x12) s1 0); [|vm_compute; reflexivity].
  apply (rtc_next e (RtcWrite 0x70 11) s0 0); [|vm_compute; reflexivity]. apply rtc_start.
Qed.

Lemma rtc_invariant_witness :
  cmos_has mid_update RTC_REG_A REG_A_UIP = true /\ second_timer2 mid_update <> None /\
  last (irq mid_update) = Some 1 /\ cmos_has mid_update RTC_REG_C REG_C_IRQF = true.
Proof.
  destruct (rtc_invariant mid_update mid_update_reach) as (_ & _ & _ & _ & _ & Hu & Hi & _).
  split; [vm_compute; reflexivity|]. split; [apply Hu; vm_compute; reflexivity|]. split; [vm_compute; reflexivity|]. apply Hi. vm_compute. reflexivity.
Defined.

(** ** The alarm and the 12-hour format *)
(** The minutes of the time play no part in the alarm: the minutes register is compared
    with the month. *)
Lemma alarm_ignores_minutes e s m :
  let t := current_tm s in
  let d := date t in
  let t' := mkRtm (mkTm (tm_sec d) m (tm_hour d) (tm_mday d) (tm_mon d) (tm_year d)) (tm_wday t) in
  check_alarm e (set_tm s t') = set_tm (check_alarm e s) t'.
Proof.
  intros t d t'. unfold check_alarm, rtc_irq_raise, alarm_match. change (cmos_has (set_tm s t') RTC_REG_B REG_B_AIE) with (cmos_has s RTC_REG_B REG_B_AIE).
  change (cmos (set_tm s t')) with (cmos s). cbn [set_tm current_tm date tm_sec tm_mon tm_hour].
  destruct (cmos_has s RTC_REG_B REG_B_AIE); [|done]. cbn [t' date tm_sec tm_mon tm_hour].
  destruct (_ && _); [|done]. by destruct (hpet_in_legacy_mode e).
Qed.

(** An alarm for 07:30:00 in binary mode does not go off then, in March. *)
Lemma alarm_missed :
  let s := put (put (put (put (rtc_zero false 2000) RTC_REG_B 0x26) RTC_HOURS_ALARM 7) RTC_MINUTES_ALARM 30) RTC_SECONDS_ALARM 0 in
  let s := set_tm s (mkRtm (mkTm 0 30 7 1 2 110) 1) in
  check_alarm (mkEnv 0 false false) s = s.
Proof. vm_compute. reflexivity. Qed.

(** In the 12-hour format noon is hour 0, and a guest that sets 12 o'clock noon sets
    hour 24. *)
Lemma noon_12h : enc_hour false false 12 = 0x80 /\ dec_hour false false 0x92 = 24.
Proof. split; reflexivity. Qed.
