(* ===== verification/Serial.v ===== *)
(** * The serial port: hw/serial.c

    The 16550A with its FIFOs, its interrupt identification and its timers.  A timer is the
    time it is armed for.  What an operation learns from outside (the clock, which does not
    advance inside a call; the result of writing a byte to the character device; the modem
    lines, or that the device has none) is its argument [env].  The calls on the character
    device are a log; [irq] is the level of the interrupt line.  [qemu_chr_accept_input] may
    call [serial_receive1] again, but it is the last thing a read does, so what it delivers
    is the next event.  A division by zero and an access outside a FIFO are a [Fault].
    Times are unbounded. *)

From S2P Require Import Prelude I8254.
From stdpp Require Import list.

Open Scope Z_scope.

(** ** Registers *)
Definition UART_LCR_DLAB : Z := 0x80.
Definition UART_IER_MSI : Z := 0x08.
Definition UART_IER_RLSI : Z := 0x04.
Definition UART_IER_THRI : Z := 0x02.
Definition UART_IER_RDI : Z := 0x01.
Definition UART_IIR_NO_INT : Z := 0x01.
Definition UART_IIR_MSI : Z := 0x00.
Definition UART_IIR_THRI : Z := 0x02.
Definition UART_IIR_RDI : Z := 0x04.
Definition UART_IIR_RLSI : Z := 0x06.
Definition UART_IIR_CTI : Z := 0x0C.
Definition UART_IIR_FE : Z := 0xC0.
Definition UART_MCR_LOOP : Z := 0x10.
Definition UART_MCR_OUT2 : Z := 0x08.
Definition UART_MCR_RTS : Z := 0x02.
Definition UART_MCR_DTR : Z := 0x01.
Definition UART_MSR_DCD : Z := 0x80.
Definition UART_MSR_RI : Z := 0x40.
Definition UART_MSR_DSR : Z := 0x20.
Definition UART_MSR_CTS : Z := 0x10.
Definition UART_MSR_TERI : Z := 0x04.
Definition UART_MSR_ANY_DELTA : Z := 0x0F.
Definition UART_LSR_TEMT : Z := 0x40.
Definition UART_LSR_THRE : Z := 0x20.
Definition UART_LSR_BI : Z := 0x10.
Definition UART_LSR_DR : Z := 0x01.
Definition UART_LSR_INT_ANY : Z := 0x1E.
Definition UART_FCR_ITL_1 : Z := 0x00.
Definition UART_FCR_ITL_2 : Z := 0x40.
Definition UART_FCR_ITL_3 : Z := 0x80.
Definition UART_FCR_XFR : Z := 0x04.
Definition UART_FCR_RFR : Z := 0x02.
Definition UART_FCR_FE : Z := 0x01.
Definition UART_FIFO_LENGTH : Z := 16.
Definition XMIT_FIFO : Z := 0.
Definition RECV_FIFO : Z := 1.
Definition MAX_XMIT_RETRY : Z := 4.

(** Modem lines of a character device. *)
Definition CHR_TIOCM_CTS : Z := 0x020.
Definition CHR_TIOCM_CAR : Z := 0x040.
Definition CHR_TIOCM_DSR : Z := 0x100.
Definition CHR_TIOCM_RI : Z := 0x080.
Definition CHR_TIOCM_DTR : Z := 0x002.
Definition CHR_TIOCM_RTS : Z := 0x004.

(** ** State *)
Record SerialFIFO : Type := mkFifo { data : list Z; count : Z; itl : Z; tail : Z; head : Z }.

Inductive parity_kind : Type := ParityNone | ParityOdd | ParityEven.

(** Calls on the character device. *)
Inductive chr_call : Type :=
| ChrWrite (b : Z)
| ChrSetParams (speed : Z) (parity : parity_kind) (data_bits stop_bits : Z)
| ChrSetBreak (enable : Z)
| ChrSetTiocm (flags : Z)
| ChrAcceptInput.

Record SerialState : Type := mkSerial {
  divider : Z; rbr : Z; thr : Z; tsr : Z; ier : Z; iir : Z; lcr : Z; mcr : Z; lsr : Z; msr : Z; scr : Z; fcr : Z; fcr_vmstate : Z;
  thr_ipending : Z; irq : Z; last_break_enable : Z; it_shift : Z; baudbase : Z; tsr_retry : Z; last_xmit_ts : Z;
  recv_fifo : SerialFIFO; xmit_fifo : SerialFIFO;
  fifo_timeout_timer : option Z; timeout_ipending : Z; transmit_timer : option Z;
  char_transmit_time : Z; poll_msl : Z; modem_status_poll : option Z; log : list chr_call
}.

(** [junk] is what an uninitialised variable holds. *)
Record env : Type := mkEnv { vm_clock : Z; chr_write : Z; tiocm : option Z; junk : Z }.

Abbreviation res A := (outcome Empty_set A).

(** The fields the operations assign. *)
Definition set_divider (s : SerialState) (v : Z) : SerialState :=
  mkSerial v (rbr s) (thr s) (tsr s) (ier s) (iir s) (lcr s) (mcr s) (lsr s) (msr s) (scr s) (fcr s) (fcr_vmstate s) (thr_ipending s) (irq s)
    (last_break_enable s) (it_shift s) (baudbase s) (tsr_retry s) (last_xmit_ts s) (recv_fifo s) (xmit_fifo s) (fifo_timeout_timer s)
    (timeout_ipending s) (transmit_timer s) (char_transmit_time s) (poll_msl s) (modem_status_poll s) (log s).
Definition set_rbr (s : SerialState) (v : Z) : SerialState :=
  mkSerial (divider s) v (thr s) (tsr s) (ier s) (iir s) (lcr s) (mcr s) (lsr s) (msr s) (scr s) (fcr s) (fcr_vmstate s) (thr_ipending s) (irq s)
    (last_break_enable s) (it_shift s) (baudbase s) (tsr_retry s) (last_xmit_ts s) (recv_fifo s) (xmit_fifo s) (fifo_timeout_timer s)
    (timeout_ipending s) (transmit_timer s) (char_transmit_time s) (poll_msl s) (modem_status_poll s) (log s).
Definition set_thr (s : SerialState) (v : Z) : SerialState :=
  mkSerial (divider s) (rbr s) v (tsr s) (ier s) (iir s) (lcr s) (mcr s) (lsr s) (msr s) (scr s) (fcr s) (fcr_vmstate s) (thr_ipending s) (irq s)
    (last_break_enable s) (it_shift s) (baudbase s) (tsr_retry s) (last_xmit_ts s) (recv_fifo s) (xmit_fifo s) (fifo_timeout_timer s)
    (timeout_ipending s) (transmit_timer s) (char_transmit_time s) (poll_msl s) (modem_status_poll s) (log s).
Definition set_tsr (s : SerialState) (v : Z) : SerialState :=
  mkSerial (divider s) (rbr s) (thr s) v (ier s) (iir s) (lcr s) (mcr s) (lsr s) (msr s) (scr s) (fcr s) (fcr_vmstate s) (thr_ipending s) (irq s)
    (last_break_enable s) (it_shift s) (baudbase s) (tsr_retry s) (last_xmit_ts s) (recv_fifo s) (xmit_fifo s) (fifo_timeout_timer s)
    (timeout_ipending s) (transmit_timer s) (char_transmit_time s) (poll_msl s) (modem_status_poll s) (log s).
Definition set_ier (s : SerialState) (v : Z) : SerialState :=
  mkSerial (divider s) (rbr s) (thr s) (tsr s) v (iir s) (lcr s) (mcr s) (lsr s) (msr s) (scr s) (fcr s) (fcr_vmstate s) (thr_ipending s) (irq s)
    (last_break_enable s) (it_shift s) (baudbase s) (tsr_retry s) (last_xmit_ts s) (recv_fifo s) (xmit_fifo s) (fifo_timeout_timer s)
    (timeout_ipending s) (transmit_timer s) (char_transmit_time s) (poll_msl s) (modem_status_poll s) (log s).
Definition set_iir (s : SerialState) (v : Z) : SerialState :=
  mkSerial (divider s) (rbr s) (thr s) (tsr s) (ier s) v (lcr s) (mcr s) (lsr s) (msr s) (scr s) (fcr s) (fcr_vmstate s) (thr_ipending s) (irq s)
    (last_break_enable s) (it_shift s) (baudbase s) (tsr_retry s) (last_xmit_ts s) (recv_fifo s) (xmit_fifo s) (fifo_timeout_timer s)
    (timeout_ipending s) (transmit_timer s) (char_transmit_time s) (poll_msl s) (modem_status_poll s) (log s).
Definition set_lcr (s : SerialState) (v : Z) : SerialState :=
  mkSerial (divider s) (rbr s) (thr s) (tsr s) (ier s) (iir s) v (mcr s) (lsr s) (msr s) (scr s) (fcr s) (fcr_vmstate s) (thr_ipending s) (irq s)
    (last_break_enable s) (it_shift s) (baudbase s) (tsr_retry s) (last_xmit_ts s) (recv_fifo s) (xmit_fifo s) (fifo_timeout_timer s)
    (timeout_ipending s) (transmit_timer s) (char_transmit_time s) (poll_msl s) (modem_status_poll s) (log s).
Definition set_mcr (s : SerialState) (v : Z) : SerialState :=
  mkSerial (divider s) (rbr s) (thr s) (tsr s) (ier s) (iir s) (lcr s) v (lsr s) (msr s) (scr s) (fcr s) (fcr_vmstate s) (thr_ipending s) (irq s)
    (last_break_enable s) (it_shift s) (baudbase s) (tsr_retry s) (last_xmit_ts s) (recv_fifo s) (xmit_fifo s) (fifo_timeout_timer s)
    (timeout_ipending s) (transmit_timer s) (char_transmit_time s) (poll_msl s) (modem_status_poll s) (log s).
Definition set_lsr (s : SerialState) (v : Z) : SerialState :=
  mkSerial (divider s) (rbr s) (thr s) (tsr s) (ier s) (iir s) (lcr s) (mcr s) v (msr s) (scr s) (fcr s) (fcr_vmstate s) (thr_ipending s) (irq s)
    (last_break_enable s) (it_shift s) (baudbase s) (tsr_retry s) (last_xmit_ts s) (recv_fifo s) (xmit_fifo s) (fifo_timeout_timer s)
    (timeout_ipending s) (transmit_timer s) (char_transmit_time s) (poll_msl s) (modem_status_poll s) (log s).
Definition set_msr (s : SerialState) (v : Z) : SerialState :=
  mkSerial (divider s) (rbr s) (thr s) (tsr s) (ier s) (iir s) (lcr s) (mcr s) (lsr s) v (scr s) (fcr s) (fcr_vmstate s) (thr_ipending s) (irq s)
    (last_break_enable s) (it_shift s) (baudbase s) (tsr_retry s) (last_xmit_ts s) (recv_fifo s) (xmit_fifo s) (fifo_timeout_timer s)
    (timeout_ipending s) (transmit_timer s) (char_transmit_time s) (poll_msl s) (modem_status_poll s) (log s).
Definition set_scr (s : SerialState) (v : Z) : SerialState :=
  mkSerial (divider s) (rbr s) (thr s) (tsr s) (ier s) (iir s) (lcr s) (mcr s) (lsr s) (msr s) v (fcr s) (fcr_vmstate s) (thr_ipending s) (irq s)
    (last_break_enable s) (it_shift s) (baudbase s) (tsr_retry s) (last_xmit_ts s) (recv_fifo s) (xmit_fifo s) (fifo_timeout_timer s)
    (timeout_ipending s) (transmit_timer s) (char_transmit_time s) (poll_msl s) (modem_status_poll s) (log s).
Definition set_fcr (s : SerialState) (v : Z) : SerialState :=
  mkSerial (divider s) (rbr s) (thr s) (tsr s) (ier s) (iir s) (lcr s) (mcr s) (lsr s) (msr s) (scr s) v (fcr_vmstate s) (thr_ipending s) (irq s)
    (last_break_enable s) (it_shift s) (baudbase s) (tsr_retry s) (last_xmit_ts s) (recv_fifo s) (xmit_fifo s) (fifo_timeout_timer s)
    (timeout_ipending s) (transmit_timer s) (char_transmit_time s) (poll_msl s) (modem_status_poll s) (log s).
Definition set_thr_ipending (s : SerialState) (v : Z) : SerialState :=
  mkSerial (divider s) (rbr s) (thr s) (tsr s) (ier s) (iir s) (lcr s) (mcr s) (lsr s) (msr s) (scr s) (fcr s) (fcr_vmstate s) v (irq s)
    (last_break_enable s) (it_shift s) (baudbase s) (tsr_retry s) (last_xmit_ts s) (recv_fifo s) (xmit_fifo s) (fifo_timeout_timer s)
    (timeout_ipending s) (transmit_timer s) (char_transmit_time s) (poll_msl s) (modem_status_poll s) (log s).
Definition set_irq (s : SerialState) (v : Z) : SerialState :=
  mkSerial (divider s) (rbr s) (thr s) (tsr s) (ier s) (iir s) (lcr s) (mcr s) (lsr s) (msr s) (scr s) (fcr s) (fcr_vmstate s) (thr_ipending s) v
    (last_break_enable s) (it_shift s) (baudbase s) (tsr_retry s) (last_xmit_ts s) (recv_fifo s) (xmit_fifo s) (fifo_timeout_timer s)
    (timeout_ipending s) (transmit_timer s) (char_transmit_time s) (poll_msl s) (modem_status_poll s) (log s).
Definition set_last_break_enable (s : SerialState) (v : Z) : SerialState :=
  mkSerial (divider s) (rbr s) (thr s) (tsr s) (ier s) (iir s) (lcr s) (mcr s) (lsr s) (msr s) (scr s) (fcr s) (fcr_vmstate s) (thr_ipending s)
    (irq s) v (it_shift s) (baudbase s) (tsr_retry s) (last_xmit_ts s) (recv_fifo s) (xmit_fifo s) (fifo_timeout_timer s) (timeout_ipending s)
    (transmit_timer s) (char_transmit_time s) (poll_msl s) (modem_status_poll s) (log s).
Definition set_baudbase (s : SerialState) (v : Z) : SerialState :=
  mkSerial (divider s) (rbr s) (thr s) (tsr s) (ier s) (iir s) (lcr s) (mcr s) (lsr s) (msr s) (scr s) (fcr s) (fcr_vmstate s) (thr_ipending s)
    (irq s) (last_break_enable s) (it_shift s) v (tsr_retry s) (last_xmit_ts s) (recv_fifo s) (xmit_fifo s) (fifo_timeout_timer s)
    (timeout_ipending s) (transmit_timer s) (char_transmit_time s) (poll_msl s) (modem_status_poll s) (log s).
Definition set_tsr_retry (s : SerialState) (v : Z) : SerialState :=
  mkSerial (divider s) (rbr s) (thr s) (tsr s) (ier s) (iir s) (lcr s) (mcr s) (lsr s) (msr s) (scr s) (fcr s) (fcr_vmstate s) (thr_ipending s)
    (irq s) (last_break_enable s) (it_shift s) (baudbase s) v (last_xmit_ts s) (recv_fifo s) (xmit_fifo s) (fifo_timeout_timer s) (timeout_ipending s)
    (transmit_timer s) (char_transmit_time s) (poll_msl s) (modem_status_poll s) (log s).
Definition set_last_xmit_ts (s : SerialState) (v : Z) : SerialState :=
  mkSerial (divider s) (rbr s) (thr s) (tsr s) (ier s) (iir s) (lcr s) (mcr s) (lsr s) (msr s) (scr s) (fcr s) (fcr_vmstate s) (thr_ipending s)
    (irq s) (last_break_enable s) (it_shift s) (baudbase s) (tsr_retry s) v (recv_fifo s) (xmit_fifo s) (fifo_timeout_timer s) (timeout_ipending s)
    (transmit_timer s) (char_transmit_time s) (poll_msl s) (modem_status_poll s) (log s).
Definition set_recv_fifo (s : SerialState) (v : SerialFIFO) : SerialState :=
  mkSerial (divider s) (rbr s) (thr s) (tsr s) (ier s) (iir s) (lcr s) (mcr s) (lsr s) (msr s) (scr s) (fcr s) (fcr_vmstate s) (thr_ipending s)
    (irq s) (last_break_enable s) (it_shift s) (baudbase s) (tsr_retry s) (last_xmit_ts s) v (xmit_fifo s) (fifo_timeout_timer s) (timeout_ipending s)
    (transmit_timer s) (char_transmit_time s) (poll_msl s) (modem_status_poll s) (log s).
Definition set_xmit_fifo (s : SerialState) (v : SerialFIFO) : SerialState :=
  mkSerial (divider s) (rbr s) (thr s) (tsr s) (ier s) (iir s) (lcr s) (mcr s) (lsr s) (msr s) (scr s) (fcr s) (fcr_vmstate s) (thr_ipending s)
    (irq s) (last_break_enable s) (it_shift s) (baudbase s) (tsr_retry s) (last_xmit_ts s) (recv_fifo s) v (fifo_timeout_timer s) (timeout_ipending s)
    (transmit_timer s) (char_transmit_time s) (poll_msl s) (modem_status_poll s) (log s).
Definition set_fifo_timeout_timer (s : SerialState) (v : option Z) : SerialState :=
  mkSerial (divider s) (rbr s) (thr s) (tsr s) (ier s) (iir s) (lcr s) (mcr s) (lsr s) (msr s) (scr s) (fcr s) (fcr_vmstate s) (thr_ipending s)
    (irq s) (last_break_enable s) (it_shift s) (baudbase s) (tsr_retry s) (last_xmit_ts s) (recv_fifo s) (xmit_fifo s) v (timeout_ipending s)
    (transmit_timer s) (char_transmit_time s) (poll_msl s) (modem_status_poll s) (log s).
Definition set_timeout_ipending (s : SerialState) (v : Z) : SerialState :=
  mkSerial (divider s) (rbr s) (thr s) (tsr s) (ier s) (iir s) (lcr s) (mcr s) (lsr s) (msr s) (scr s) (fcr s) (fcr_vmstate s) (thr_ipending s)
    (irq s) (last_break_enable s) (it_shift s) (baudbase s) (tsr_retry s) (last_xmit_ts s) (recv_fifo s) (xmit_fifo s) (fifo_timeout_timer s) v
    (transmit_timer s) (char_transmit_time s) (poll_msl s) (modem_status_poll s) (log s).
Definition set_transmit_timer (s : SerialState) (v : option Z) : SerialState :=
  mkSerial (divider s) (rbr s) (thr s) (tsr s) (ier s) (iir s) (lcr s) (mcr s) (lsr s) (msr s) (scr s) (fcr s) (fcr_vmstate s) (thr_ipending s)
    (irq s) (last_break_enable s) (it_shift s) (baudbase s) (tsr_retry s) (last_xmit_ts s) (recv_fifo s) (xmit_fifo s) (fifo_timeout_timer s)
    (timeout_ipending s) v (char_transmit_time s) (poll_msl s) (modem_status_poll s) (log s).
Definition set_char_transmit_time (s : SerialState) (v : Z) : SerialState :=
  mkSerial (divider s) (rbr s) (thr s) (tsr s) (ier s) (iir s) (lcr s) (mcr s) (lsr s) (msr s) (scr s) (fcr s) (fcr_vmstate s) (thr_ipending s)
    (irq s) (last_break_enable s) (it_shift s) (baudbase s) (tsr_retry s) (last_xmit_ts s) (recv_fifo s) (xmit_fifo s) (fifo_timeout_timer s)
    (timeout_ipending s) (transmit_timer s) v (poll_msl s) (modem_status_poll s) (log s).
Definition set_poll_msl (s : SerialState) (v : Z) : SerialState :=
  mkSerial (divider s) (rbr s) (thr s) (tsr s) (ier s) (iir s) (lcr s) (mcr s) (lsr s) (msr s) (scr s) (fcr s) (fcr_vmstate s) (thr_ipending s)
    (irq s) (last_break_enable s) (it_shift s) (baudbase s) (tsr_retry s) (last_xmit_ts s) (recv_fifo s) (xmit_fifo s) (fifo_timeout_timer s)
    (timeout_ipending s) (transmit_timer s) (char_transmit_time s) v (modem_status_poll s) (log s).
Definition set_modem_status_poll (s : SerialState) (v : option Z) : SerialState :=
  mkSerial (divider s) (rbr s) (thr s) (tsr s) (ier s) (iir s) (lcr s) (mcr s) (lsr s) (msr s) (scr s) (fcr s) (fcr_vmstate s) (thr_ipending s)
    (irq s) (last_break_enable s) (it_shift s) (baudbase s) (tsr_retry s) (last_xmit_ts s) (recv_fifo s) (xmit_fifo s) (fifo_timeout_timer s)
    (timeout_ipending s) (transmit_timer s) (char_transmit_time s) (poll_msl s) v (log s).
Definition set_log (s : SerialState) (v : list chr_call) : SerialState :=
  mkSerial (divider s) (rbr s) (thr s) (tsr s) (ier s) (iir s) (lcr s) (mcr s) (lsr s) (msr s) (scr s) (fcr s) (fcr_vmstate s) (thr_ipending s)
    (irq s) (last_break_enable s) (it_shift s) (baudbase s) (tsr_retry s) (last_xmit_ts s) (recv_fifo s) (xmit_fifo s) (fifo_timeout_timer s)
    (timeout_ipending s) (transmit_timer s) (char_transmit_time s) (poll_msl s) (modem_status_poll s) v.
Definition set_fcr_vmstate (s : SerialState) (v : Z) : SerialState :=
  mkSerial (divider s) (rbr s) (thr s) (tsr s) (ier s) (iir s) (lcr s) (mcr s) (lsr s) (msr s) (scr s) (fcr s) v (thr_ipending s) (irq s)
    (last_break_enable s) (it_shift s) (baudbase s) (tsr_retry s) (last_xmit_ts s) (recv_fifo s) (xmit_fifo s) (fifo_timeout_timer s)
    (timeout_ipending s) (transmit_timer s) (char_transmit_time s) (poll_msl s) (modem_status_poll s) (log s).

(** [s->x & mask], as a condition. *)
Definition has (x mask : Z) : bool := negb (Z.land x mask =? 0).
Definition set_bits (x mask : Z) : Z := Z.lor x mask.
Definition clear_bits (x mask : Z) : Z := Z.land x (Z.lnot mask).
Definition chr (s : SerialState) (c : chr_call) : SerialState := set_log s (log s ++ [c]).

(** ** The FIFOs *)
Definition get_fifo (s : SerialState) (fifo : Z) : SerialFIFO := if fifo =? 0 then xmit_fifo s else recv_fifo s.
Definition set_fifo (s : SerialState) (fifo : Z) (f : SerialFIFO) : SerialState := if fifo =? 0 then set_xmit_fifo s f else set_recv_fifo s f.

Definition fifo_clear (s : SerialState) (fifo : Z) : SerialState :=
  let f := get_fifo s fifo in set_fifo s fifo (mkFifo (repeat 0 16) 0 (itl f) 0 0).

(** The position behind [p]. *)
Definition next (p : Z) : Z := if p + 1 =? UART_FIFO_LENGTH then 0 else p + 1.

Definition fifo_put (s : SerialState) (fifo c : Z) : res SerialState :=
  let f := get_fifo s fifo in
  let! d := oget (store (data f) (head f) [c]) in
  Ret (set_fifo s fifo (mkFifo d (u8 (count f + 1)) (itl f) (tail f) (next (head f)))).

Definition fifo_get (s : SerialState) (fifo : Z) : res (Z * SerialState) :=
  let f := get_fifo s fifo in
  if count f =? 0 then Ret (0, s)
  else
    let! c := oget (data f !! Z.to_nat (tail f)) in
    Ret (c, set_fifo s fifo (mkFifo (data f) (u8 (count f - 1)) (itl f) (next (tail f)) (head f))).

(** ** Interrupts *)
(** The cause of the highest priority. *)
Definition pending_iir (s : SerialState) : Z :=
  if has (ier s) UART_IER_RLSI && has (lsr s) UART_LSR_INT_ANY then UART_IIR_RLSI
  else if has (ier s) UART_IER_RDI && negb (timeout_ipending s =? 0) then UART_IIR_CTI
  else if has (ier s) UART_IER_RDI && has (lsr s) UART_LSR_DR && (negb (has (fcr s) UART_FCR_FE) || (itl (recv_fifo s) <=? count (recv_fifo s))) then UART_IIR_RDI
  else if has (ier s) UART_IER_THRI && negb (thr_ipending s =? 0) then UART_IIR_THRI
  else if has (ier s) UART_IER_MSI && has (msr s) UART_MSR_ANY_DELTA then UART_IIR_MSI
  else UART_IIR_NO_INT.

Definition serial_update_irq (s : SerialState) : SerialState :=
  let tmp_iir := pending_iir s in
  let s := set_iir s (Z.lor tmp_iir (Z.land (iir s) 0xF0)) in
  set_irq s (if negb (tmp_iir =? UART_IIR_NO_INT) then 1 else 0).

(** ** Line parameters and modem status *)
Definition serial_update_parameters (s : SerialState) : res SerialState :=
  if divider s =? 0 then Ret s
  else
    let frame_size := 1 in
    let '(frame_size, parity) :=
      if has (lcr s) 0x08 then (frame_size + 1, if has (lcr s) 0x10 then ParityEven else ParityOdd) else (frame_size, ParityNone) in
    let stop_bits := if has (lcr s) 0x04 then 2 else 1 in
    let data_bits := Z.land (lcr s) 0x03 + 5 in
    let frame_size := frame_size + (data_bits + stop_bits) in
    let! speed := cdiv (baudbase s) (divider s) in
    if speed =? 0 then Fault
    else
      let s := set_char_transmit_time s (u64 (Z.quot get_ticks_per_sec speed * frame_size)) in
      Ret (chr s (ChrSetParams speed parity data_bits stop_bits)).

Definition set_line (flags flag x bit : Z) : Z := if has flags flag then set_bits x bit else clear_bits x bit.

Definition serial_update_msl (e : env) (s : SerialState) : SerialState :=
  let s := set_modem_status_poll s None in
  match tiocm e with
  | None => set_poll_msl s (-1)
  | Some flags =>
      let omsr := msr s in
      let s := set_msr s (set_line flags CHR_TIOCM_CTS (msr s) UART_MSR_CTS) in
      let s := set_msr s (set_line flags CHR_TIOCM_DSR (msr s) UART_MSR_DSR) in
      let s := set_msr s (set_line flags CHR_TIOCM_CAR (msr s) UART_MSR_DCD) in
      let s := set_msr s (set_line flags CHR_TIOCM_RI (msr s) UART_MSR_RI) in
      let s :=
        if negb (msr s =? omsr) then
          let s := set_msr s (set_bits (msr s) (Z.lxor (Z.shiftr (msr s) 4) (Z.shiftr omsr 4))) in
          let s := if has (msr s) UART_MSR_TERI && negb (has omsr UART_MSR_RI) then set_msr s (clear_bits (msr s) UART_MSR_TERI) else s in
          serial_update_irq s
        else s in
      if negb (poll_msl s =? 0) then set_modem_status_poll s (Some (vm_clock e + get_ticks_per_sec / 100)) else s
  end.

(** ** Receiving *)
Definition serial_can_receive (s : SerialState) : Z :=
  let f := recv_fifo s in
  if has (fcr s) UART_FCR_FE then
    if count f <? UART_FIFO_LENGTH then (if count f <=? itl f then itl f - count f else 1) else 0
  else if has (lsr s) UART_LSR_DR then 0 else 1.

Definition serial_receive_break (s : SerialState) : res SerialState :=
  let s := set_rbr s 0 in
  let! s := fifo_put s RECV_FIFO 0 in
  let s := set_lsr s (set_bits (lsr s) (Z.lor UART_LSR_BI UART_LSR_DR)) in
  Ret (serial_update_irq s).

Definition fifo_timeout_int (s : SerialState) : SerialState :=
  if negb (count (recv_fifo s) =? 0) then serial_update_irq (set_timeout_ipending s 1) else s.

Fixpoint put_all (s : SerialState) (bs : list Z) : res SerialState :=
  match bs with
  | [] => Ret s
  | b :: bs => let! s := fifo_put s RECV_FIFO b in put_all s bs
  end.

Definition serial_receive1 (e : env) (s : SerialState) (buf : list Z) : res SerialState :=
  let! s :=
    if has (fcr s) UART_FCR_FE then
      let! s := put_all s buf in
      let s := set_lsr s (set_bits (lsr s) UART_LSR_DR) in
      Ret (set_fifo_timeout_timer s (Some (vm_clock e + char_transmit_time s * 4)))
    else
      let! b := oget (buf !! O) in
      let s := set_rbr s b in
      Ret (set_lsr s (set_bits (lsr s) UART_LSR_DR)) in
  Ret (serial_update_irq s).

Definition CHR_EVENT_BREAK : Z := 0.
Definition serial_event (s : SerialState) (event : Z) : res SerialState :=
  if event =? CHR_EVENT_BREAK then serial_receive_break s else Ret s.

(** ** Transmitting *)
(** The end of [serial_xmit]. *)
Definition xmit_done (e : env) (s : SerialState) : SerialState :=
  let s := set_last_xmit_ts s (vm_clock e) in
  let s := if negb (has (lsr s) UART_LSR_THRE) then set_transmit_timer s (Some (last_xmit_ts s + char_transmit_time s)) else s in
  if has (lsr s) UART_LSR_THRE then
    let s := set_lsr s (set_bits (lsr s) UART_LSR_TEMT) in
    serial_update_irq (set_thr_ipending s 1)
  else s.

(** The next byte for the shift register. *)
Definition load_tsr (s : SerialState) : res SerialState :=
  if has (fcr s) UART_FCR_FE then
    let! '(c, s) := fifo_get s XMIT_FIFO in
    let s := set_tsr s c in
    Ret (if count (xmit_fifo s) =? 0 then set_lsr s (set_bits (lsr s) UART_LSR_THRE) else s)
  else
    let s := set_tsr s (thr s) in
    Ret (set_lsr s (set_bits (lsr s) UART_LSR_THRE)).

(** Its way out. *)
Definition send_tsr (e : env) (s : SerialState) (new_xmit_ts : Z) : res SerialState :=
  if has (mcr s) UART_MCR_LOOP then
    let! s := serial_receive1 e s [tsr s] in Ret (xmit_done e s)
  else
    let s := chr s (ChrWrite (tsr s)) in
    if negb (chr_write e =? 1) then
      if (0 <? tsr_retry s) && (tsr_retry s <=? MAX_XMIT_RETRY) then
        let s := set_tsr_retry s (tsr_retry s + 1) in
        Ret (set_transmit_timer s (Some (new_xmit_ts + char_transmit_time s)))
      else Ret (xmit_done e (if poll_msl s <? 0 then set_tsr_retry s (-1) else s))
    else Ret (xmit_done e (set_tsr_retry s 0)).

Definition serial_xmit (e : env) (s : SerialState) : res SerialState :=
  let new_xmit_ts := vm_clock e in
  let! s := if tsr_retry s <=? 0 then load_tsr s else Ret s in
  send_tsr e s new_xmit_ts.

(** ** The ports *)
Definition write_thr (e : env) (s : SerialState) (val : Z) : res SerialState :=
  let s := set_thr s (u8 val) in
  let! s :=
    if has (fcr s) UART_FCR_FE then
      let! s := fifo_put s XMIT_FIFO (thr s) in
      let s := set_thr_ipending s 0 in
      let s := set_lsr s (clear_bits (lsr s) UART_LSR_TEMT) in
      let s := set_lsr s (clear_bits (lsr s) UART_LSR_THRE) in
      Ret (serial_update_irq s)
    else
      let s := set_thr_ipending s 0 in
      let s := set_lsr s (clear_bits (lsr s) UART_LSR_THRE) in
      Ret (serial_update_irq s) in
  serial_xmit e s.

Definition write_ier (e : env) (s : SerialState) (val : Z) : SerialState :=
  let s := set_ier s (Z.land val 0x0f) in
  let s :=
    if 0 <=? poll_msl s then
      if has (ier s) UART_IER_MSI then serial_update_msl e (set_poll_msl s 1)
      else set_poll_msl (set_modem_status_poll s None) 0
    else s in
  if has (lsr s) UART_LSR_THRE then serial_update_irq (set_thr_ipending s 1) else s.

Definition trigger_level (val : Z) : Z :=
  let sel := Z.land val 0xC0 in
  if sel =? UART_FCR_ITL_1 then 1 else if sel =? UART_FCR_ITL_2 then 4 else if sel =? UART_FCR_ITL_3 then 8 else 14.

Definition set_itl (s : SerialState) (n : Z) : SerialState :=
  let f := recv_fifo s in set_recv_fifo s (mkFifo (data f) (count f) n (tail f) (head f)).

Definition write_fcr (s : SerialState) (val : Z) : SerialState :=
  let val := Z.land val 0xFF in
  if fcr s =? val then s
  else
    let val := if has (Z.lxor val (fcr s)) UART_FCR_FE then Z.lor val (Z.lor UART_FCR_XFR UART_FCR_RFR) else val in
    let s := if has val UART_FCR_RFR then fifo_clear (set_timeout_ipending (set_fifo_timeout_timer s None) 0) RECV_FIFO else s in
    let s := if has val UART_FCR_XFR then fifo_clear s XMIT_FIFO else s in
    let s :=
      if has val UART_FCR_FE then set_itl (set_iir s (set_bits (iir s) UART_IIR_FE)) (trigger_level val)
      else set_iir s (clear_bits (iir s) UART_IIR_FE) in
    serial_update_irq (set_fcr s (Z.land val 0xC9)).

Definition write_lcr (s : SerialState) (val : Z) : res SerialState :=
  let s := set_lcr s (u8 val) in
  let! s := serial_update_parameters s in
  let break_enable := Z.land (Z.shiftr val 6) 1 in
  Ret (if negb (break_enable =? last_break_enable s) then chr (set_last_break_enable s break_enable) (ChrSetBreak break_enable) else s).

Definition write_mcr (e : env) (s : SerialState) (val : Z) : SerialState :=
  let old_mcr := mcr s in
  let s := set_mcr s (Z.land val 0x1f) in
  if has val UART_MCR_LOOP then s
  else if (0 <=? poll_msl s) && negb (old_mcr =? mcr s) then
    let flags := default (junk e) (tiocm e) in
    let flags := clear_bits flags (Z.lor CHR_TIOCM_RTS CHR_TIOCM_DTR) in
    let flags := if has val UART_MCR_RTS then set_bits flags CHR_TIOCM_RTS else flags in
    let flags := if has val UART_MCR_DTR then set_bits flags CHR_TIOCM_DTR else flags in
    let s := chr s (ChrSetTiocm flags) in
    set_modem_status_poll s (Some (vm_clock e + char_transmit_time s))
  else s.

Definition serial_ioport_write (e : env) (s : SerialState) (addr val : Z) : res SerialState :=
  let addr := Z.land addr 7 in
  if addr =? 1 then
    if has (lcr s) UART_LCR_DLAB then
      serial_update_parameters (set_divider s (u16 (Z.lor (Z.land (divider s) 0x00ff) (u32 (Z.shiftl val 8)))))
    else Ret (write_ier e s val)
  else if addr =? 2 then Ret (write_fcr s val)
  else if addr =? 3 then write_lcr s val
  else if addr =? 4 then Ret (write_mcr e s val)
  else if addr =? 5 then Ret s
  else if addr =? 6 then Ret s
  else if addr =? 7 then Ret (set_scr s (u8 val))
  else if has (lcr s) UART_LCR_DLAB then
    serial_update_parameters (set_divider s (u16 (Z.lor (Z.land (divider s) 0xff00) val)))
  else write_thr e s val.

Definition read_rbr (e : env) (s : SerialState) : res (Z * SerialState) :=
  let! '(ret, s) :=
    if has (fcr s) UART_FCR_FE then
      let! '(ret, s) := fifo_get s RECV_FIFO in
      let s :=
        if count (recv_fifo s) =? 0 then set_lsr s (clear_bits (lsr s) (Z.lor UART_LSR_DR UART_LSR_BI))
        else set_fifo_timeout_timer s (Some (vm_clock e + char_transmit_time s * 4)) in
      Ret (ret, set_timeout_ipending s 0)
    else Ret (rbr s, set_lsr s (clear_bits (lsr s) (Z.lor UART_LSR_DR UART_LSR_BI))) in
  let s := serial_update_irq s in
  Ret (ret, if negb (has (mcr s) UART_MCR_LOOP) then chr s ChrAcceptInput else s).

Definition read_msr (e : env) (s : SerialState) : Z * SerialState :=
  if has (mcr s) UART_MCR_LOOP then
    let ret := Z.shiftl (Z.land (mcr s) 0x0c) 4 in
    let ret := Z.lor ret (Z.shiftl (Z.land (mcr s) 0x02) 3) in
    (Z.lor ret (Z.shiftl (Z.land (mcr s) 0x01) 5), s)
  else
    let s := if 0 <=? poll_msl s then serial_update_msl e s else s in
    let ret := msr s in
    (ret, if has (msr s) UART_MSR_ANY_DELTA then serial_update_irq (set_msr s (Z.land (msr s) 0xF0)) else s).

Definition serial_ioport_read (e : env) (s : SerialState) (addr : Z) : res (Z * SerialState) :=
  let addr := Z.land addr 7 in
  if addr =? 1 then
    if has (lcr s) UART_LCR_DLAB then Ret (Z.land (Z.shiftr (divider s) 8) 0xff, s) else Ret (ier s, s)
  else if addr =? 2 then Ret (iir s, serial_update_irq (set_thr_ipending s 0))
  else if addr =? 3 then Ret (lcr s, s)
  else if addr =? 4 then Ret (mcr s, s)
  else if addr =? 5 then
    Ret (lsr s, if has (lsr s) UART_LSR_BI then serial_update_irq (set_lsr s (clear_bits (lsr s) UART_LSR_BI)) else s)
  else if addr =? 6 then Ret (read_msr e s)
  else if addr =? 7 then Ret (scr s, s)
  else if has (lcr s) UART_LCR_DLAB then Ret (Z.land (divider s) 0xff, s)
  else read_rbr e s.

(** The memory mapped interface of a little-endian target. *)
Definition serial_mm_readb (e : env) (s : SerialState) (addr : Z) : res (Z * SerialState) :=
  let! '(v, s) := serial_ioport_read e s (Z.shiftr addr (it_shift s)) in Ret (Z.land v 0xFF, s).
Definition serial_mm_writeb (e : env) (s : SerialState) (addr value : Z) : res SerialState :=
  serial_ioport_write e s (Z.shiftr addr (it_shift s)) (Z.land value 0xFF).
Definition serial_mm_readw (e : env) (s : SerialState) (addr : Z) : res (Z * SerialState) :=
  let! '(v, s) := serial_ioport_read e s (Z.shiftr addr (it_shift s)) in Ret (Z.land v 0xFFFF, s).
Definition serial_mm_writew (e : env) (s : SerialState) (addr value : Z) : res SerialState :=
  serial_ioport_write e s (Z.shiftr addr (it_shift s)) (Z.land value 0xFFFF).
Definition serial_mm_readl (e : env) (s : SerialState) (addr : Z) : res (Z * SerialState) :=
  serial_ioport_read e s (Z.shiftr addr (it_shift s)).
Definition serial_mm_writel (e : env) (s : SerialState) (addr value : Z) : res SerialState :=
  serial_ioport_write e s (Z.shiftr addr (it_shift s)) value.

(** ** Saving, reset, creation *)
Definition serial_pre_save (s : SerialState) : SerialState := set_fcr_vmstate s (fcr s).

Definition serial_post_load (e : env) (s : SerialState) (version_id : Z) : res (Z * SerialState) :=
  let s := if version_id <? 3 then set_fcr_vmstate s 0 else s in
  let! s := serial_ioport_write e s 0x02 (fcr_vmstate s) in Ret (0, s).

Definition serial_reset (e : env) (s : SerialState) : SerialState :=
  let s := set_rbr s 0 in
  let s := set_ier s 0 in
  let s := set_iir s UART_IIR_NO_INT in
  let s := set_lcr s 0 in
  let s := set_lsr s (Z.lor UART_LSR_TEMT UART_LSR_THRE) in
  let s := set_msr s (Z.lor UART_MSR_DCD (Z.lor UART_MSR_DSR UART_MSR_CTS)) in
  let s := set_divider s 0x0C in
  let s := set_mcr s UART_MCR_OUT2 in
  let s := set_scr s 0 in
  let s := set_tsr_retry s 0 in
  let s := set_char_transmit_time s (get_ticks_per_sec / 9600 * 10) in
  let s := set_poll_msl s 0 in
  let s := fifo_clear s RECV_FIFO in
  let s := fifo_clear s XMIT_FIFO in
  let s := set_last_xmit_ts s (vm_clock e) in
  let s := set_thr_ipending s 0 in
  let s := set_last_break_enable s 0 in
  set_irq s 0.

(** The state as it is allocated, with its timers. *)
Definition empty_fifo : SerialFIFO := mkFifo (repeat 0 16) 0 0 0 0.
Definition serial_init_core (shift base : Z) : SerialState :=
  mkSerial 0 0 0 0 0 0 0 0 0 0 0 0 0 0 0 0 shift base 0 0 empty_fifo empty_fifo None 0 None 0 0 None [].

Definition serial_set_frequency (s : SerialState) (frequency : Z) : res SerialState :=
  serial_update_parameters (set_baudbase s (s32 frequency)).

Definition serial_init (base : Z) : SerialState := serial_init_core 0 base.
Definition serial_mm_init (e : env) (shift base : Z) : SerialState := serial_update_msl e (serial_init_core shift base).

(** ** On the ISA bus *)
Definition MAX_SERIAL_PORTS : Z := 4.
Definition isa_serial_io : list Z := [0x3f8; 0x2f8; 0x3e8; 0x2e8].
Definition isa_serial_irq : list Z := [4; 3; 4; 3].

Record ISASerialState : Type := mkIsa { index : Z; iobase : Z; isairq : Z; state : option SerialState }.

(** [next] is the static counter of the source; [0xffffffff] is its -1. *)
Definition serial_isa_initfn (next : Z) (isa : ISASerialState) : res (Z * Z * ISASerialState) :=
  let unset := 0xffffffff in
  let index := if index isa =? unset then u32 next else index isa in
  if MAX_SERIAL_PORTS <=? index then Ret (-1, next, mkIsa index (iobase isa) (isairq isa) (state isa))
  else
    let! io := (if iobase isa =? unset then oget (isa_serial_io !! Z.to_nat index) else Ret (iobase isa)) in
    let! line := (if isairq isa =? unset then oget (isa_serial_irq !! Z.to_nat index) else Ret (isairq isa)) in
    Ret (0, next + 1, mkIsa index io line (Some (serial_init_core 0 115200))).
