(* ===== verification/SerialProofs.v ===== *)
(** * The serial port in every reachable state

    Events are the guest's accesses to the ports, what the character device delivers, the
    timers and the reset.  No event is a fault; between events the transmitter is ready, its
    FIFO empty and its timer idle; the interrupt identification is the pending cause of the
    highest priority, and the interrupt line follows it; and the bytes the guest sends reach
    the character device in order. *)

From stdpp Require Import list.
From S2P Require Import Prelude Ring I8254 Serial.

Open Scope Z_scope.

#[local] Arguments set_bits : simpl never.
#[local] Arguments clear_bits : simpl never.
#[local] Arguments has : simpl never.
#[local] Arguments Z.testbit : simpl never.
#[local] Arguments Z.land : simpl never.
#[local] Arguments Z.lor : simpl never.

(** ** Bits *)
Lemma has_bit x k : 0 <= k -> has x (2 ^ k) = Z.testbit x k.
Proof.
  intros Hk. unfold has. destruct (Z.testbit x k) eqn:E.
  - apply negb_true_iff, Z.eqb_neq. intros H. apply (f_equal (fun z => Z.testbit z k)) in H.
    by rewrite Z.land_spec, E, Z.pow2_bits_true, Z.bits_0 in H by done.
  - apply negb_false_iff, Z.eqb_eq. apply Z.bits_inj'. intros n Hn. rewrite Z.land_spec, Z.bits_0, Z.pow2_bits_eqb by done.
    destruct (Z.eqb_spec k n) as [<-|]; [by rewrite E|apply andb_false_r].
Qed.

Lemma has_thre x : has x UART_LSR_THRE = Z.testbit x 5.
Proof. by apply (has_bit x 5). Qed.
Lemma has_dr x : has x UART_LSR_DR = Z.testbit x 0.
Proof. by apply (has_bit x 0). Qed.
Lemma has_loop x : has x UART_MCR_LOOP = Z.testbit x 4.
Proof. by apply (has_bit x 4). Qed.
Lemma has_dlab x : has x UART_LCR_DLAB = Z.testbit x 7.
Proof. by apply (has_bit x 7). Qed.
Lemma has_fe x : has x UART_FCR_FE = Z.testbit x 0.
Proof. by apply (has_bit x 0). Qed.

Lemma testbit_set x m k : Z.testbit (set_bits x m) k = Z.testbit x k || Z.testbit m k.
Proof. apply Z.lor_spec. Qed.
Lemma testbit_clear x m k : 0 <= k -> Z.testbit (clear_bits x m) k = Z.testbit x k && negb (Z.testbit m k).
Proof. intros Hk. unfold clear_bits. by rewrite Z.land_spec, Z.lnot_spec. Qed.
Lemma set_byte x m : is_byte x -> is_byte m -> is_byte (set_bits x m).
Proof. apply lor_byte. Qed.
Lemma clear_byte x m : is_byte x -> is_byte (clear_bits x m).
Proof. apply land_byte. Qed.
#[export] Hint Resolve set_byte clear_byte : vm.
(** Constants are bytes by evaluation. *)
#[export] Hint Extern 1 (is_byte ?c) => (first [is_const c | lazymatch c with Zpos _ => idtac | Z0 => idtac end]; split; by vm_compute) : vm.

(** ** The FIFOs *)
Record fifo_ok (f : SerialFIFO) : Prop := {
  fo_data : length (data f) = 16%nat; fo_bytes : Forall is_byte (data f);
  fo_count : is_byte (count f); fo_tail : 0 <= tail f < 16; fo_head : 0 <= head f < 16
}.

Definition pushed (f : SerialFIFO) (c : Z) : SerialFIFO :=
  mkFifo (<[Z.to_nat (head f) := c]> (data f)) (u8 (count f + 1)) (itl f) (tail f) (next (head f)).
Definition front (f : SerialFIFO) : Z := default 0 (data f !! Z.to_nat (tail f)).
Definition popped (f : SerialFIFO) : SerialFIFO := mkFifo (data f) (u8 (count f - 1)) (itl f) (next (tail f)) (head f).

Lemma next_range p : 0 <= p < 16 -> 0 <= next p < 16.
Proof. intros H. unfold next, UART_FIFO_LENGTH. destruct (Z.eqb_spec (p + 1) 16); lia. Qed.
Lemma next_mod p : 0 <= p < 16 -> next p = (p + 1) mod 16.
Proof. intros H. unfold next, UART_FIFO_LENGTH. destruct (Z.eqb_spec (p + 1) 16) as [->|]; [done|]. by rewrite Z.mod_small by lia. Qed.

Lemma pushed_ok f c : fifo_ok f -> is_byte c -> fifo_ok (pushed f c).
Proof.
  intros [H1 H2 H3 H4 H5] Hc. split; cbn; auto using next_range with vm.
  - by rewrite length_insert.
  - by apply Forall_insert.
Qed.
Lemma popped_ok f : fifo_ok f -> fifo_ok (popped f).
Proof. intros []. split; cbn; auto using next_range with vm. Qed.
Lemma front_byte f : fifo_ok f -> is_byte (front f).
Proof.
  intros [H1 H2 H3 H4 H5]. unfold front. destruct (lookup_lt_is_Some_2 (data f) (Z.to_nat (tail f))) as [x E]; [lia|].
  rewrite E. cbn. eapply Forall_lookup_1; eauto.
Qed.
Lemma cleared_ok n : fifo_ok (mkFifo (repeat 0 16) 0 n 0 0).
Proof. split; cbn; [done|repeat constructor; unfold is_byte; lia|unfold is_byte; lia|lia|lia]. Qed.

Lemma fifo_put_eq s fifo c : fifo_ok (get_fifo s fifo) -> fifo_put s fifo c = Ret (set_fifo s fifo (pushed (get_fifo s fifo) c)).
Proof. intros []. unfold fifo_put. by rewrite store_insert by lia. Qed.
Lemma fifo_get_eq s fifo : fifo_ok (get_fifo s fifo) ->
  fifo_get s fifo = Ret (if count (get_fifo s fifo) =? 0 then (0, s) else (front (get_fifo s fifo), set_fifo s fifo (popped (get_fifo s fifo)))).
Proof.
  intros []. unfold fifo_get. if_case; [done|]. unfold front. destruct (lookup_lt_is_Some_2 (data (get_fifo s fifo)) (Z.to_nat (tail (get_fifo s fifo)))) as [x ->]; [lia|done].
Qed.

(** ** Registers of their widths *)
Record regs_ok (s : SerialState) : Prop := {
  ro_recv : fifo_ok (recv_fifo s); ro_xmit : fifo_ok (xmit_fifo s);
  ro_divider : 0 <= divider s < 65536; ro_baudbase : 65536 <= baudbase s < 2 ^ 31;
  ro_rbr : is_byte (rbr s); ro_thr : is_byte (thr s); ro_tsr : is_byte (tsr s); ro_ier : is_byte (ier s); ro_iir : is_byte (iir s);
  ro_lcr : is_byte (lcr s); ro_mcr : 0 <= mcr s < 32; ro_lsr : is_byte (lsr s); ro_msr : is_byte (msr s); ro_scr : is_byte (scr s); ro_fcr : is_byte (fcr s);
  ro_retry : tsr_retry s <= 0; ro_timer : transmit_timer s = None
}.

(** Assigning registers: what remains to show are the new values. *)
Ltac regs :=
  match goal with H : regs_ok _ |- _ => destruct H end; split; cbn; auto with vm; try done; try lia; try (unfold is_byte; lia).

Lemma pending_byte s : 0 <= pending_iir s < 16.
Proof. unfold pending_iir. repeat if_case; done. Qed.

Lemma update_irq_regs s : regs_ok s -> regs_ok (serial_update_irq s).
Proof. intros H. pose proof (pending_byte s). regs. apply lor_byte; [unfold is_byte; lia|auto with vm]. Qed.
#[export] Hint Resolve update_irq_regs : vm.

(** ** The interrupt line *)
Record coherent (s : SerialState) : Prop := {
  co_iir : Z.land (iir s) 0x0F = pending_iir s; co_irq : irq s = if pending_iir s =? UART_IIR_NO_INT then 0 else 1
}.

Lemma update_irq_coherent s : coherent (serial_update_irq s).
Proof.
  pose proof (pending_byte s). split.
  - change (pending_iir (serial_update_irq s)) with (pending_iir s). cbn. rewrite Z.land_lor_distr_l, <- Z.land_assoc. change (Z.land 0xF0 0x0F) with 0.
    rewrite Z.land_0_r, Z.lor_0_r. change 0x0F with (Z.ones 4). rewrite Z.land_ones by lia. by apply Z.mod_small.
  - change (pending_iir (serial_update_irq s)) with (pending_iir s). cbn. by destruct (_ =? _).
Qed.
#[export] Hint Resolve update_irq_coherent : vm.

(** ** Receiving *)
Lemma set_recv_same s : set_recv_fifo s (recv_fifo s) = s.
Proof. by destruct s. Qed.

Lemma foldl_pushed_ok bs : forall f, fifo_ok f -> bytes bs -> fifo_ok (foldl pushed f bs).
Proof. induction bs as [|b bs IH]; intros f Hf Hb; [done|]. inversion_clear Hb. by apply IH; [apply pushed_ok|]. Qed.

Lemma put_all_eq bs : forall s, fifo_ok (recv_fifo s) -> bytes bs -> put_all s bs = Ret (set_recv_fifo s (foldl pushed (recv_fifo s) bs)).
Proof.
  induction bs as [|b bs IH]; intros s Hf Hb; cbn [put_all foldl]; [by rewrite set_recv_same|]. inversion_clear Hb.
  rewrite fifo_put_eq by done. cbn [obind]. rewrite IH; [done|by apply pushed_ok|done].
Qed.

(** A delivery, before the interrupt line is updated. *)
Definition received (e : env) (s : SerialState) (buf : list Z) : SerialState :=
  let s := set_lsr s (set_bits (lsr s) UART_LSR_DR) in
  if has (fcr s) UART_FCR_FE then set_fifo_timeout_timer (set_recv_fifo s (foldl pushed (recv_fifo s) buf)) (Some (vm_clock e + char_transmit_time s * 4))
  else set_rbr s (default 0 (buf !! O)).

Lemma receive1_eq e s buf : regs_ok s -> buf <> [] -> bytes buf -> serial_receive1 e s buf = Ret (serial_update_irq (received e s buf)).
Proof.
  intros H Hne Hb. unfold serial_receive1, received. cbn [fcr set_lsr]. destruct (has (fcr s) UART_FCR_FE).
  - rewrite put_all_eq by (done || apply H). done.
  - destruct buf; done.
Qed.

Lemma received_regs e s buf : regs_ok s -> buf <> [] -> bytes buf -> regs_ok (received e s buf).
Proof.
  intros H Hne Hb. unfold received. if_case; regs; [by apply foldl_pushed_ok|]. destruct buf; [done|]. by inversion Hb.
Qed.
#[export] Hint Resolve received_regs : vm.

(** ** Transmitting *)
Record ready (s : SerialState) : Prop := {
  rd_empty : count (xmit_fifo s) = 0; rd_pos : head (xmit_fifo s) = tail (xmit_fifo s);
  rd_thre : Z.testbit (lsr s) 5 = true; rd_temt : Z.testbit (lsr s) 6 = true
}.

Record serial_ok (s : SerialState) : Prop := { so_regs : regs_ok s; so_ready : ready s; so_coherent : coherent s }.

(** The bytes written to the character device. *)
Definition written (l : list chr_call) : list Z := omap (fun c => match c with ChrWrite b => Some b | _ => None end) l.
Definition dlab (s : SerialState) : bool := Z.testbit (lcr s) 7.
Definition loop (s : SerialState) : bool := Z.testbit (mcr s) 4.

(** What receiving works on. *)
Definition recv_view (s : SerialState) : Z * SerialFIFO * Z * bool * Z * option Z :=
  (fcr s, recv_fifo s, rbr s, Z.testbit (lsr s) 0, timeout_ipending s, fifo_timeout_timer s).

(** A state on whose way nothing went to the character device, and the line was kept. *)
Definition same_line (s s' : SerialState) : Prop := lcr s' = lcr s /\ mcr s' = mcr s /\ written (log s') = written (log s).

Lemma written_other l c : match c with ChrWrite _ => False | _ => True end -> written (l ++ [c]) = written l.
Proof. intros H. unfold written. rewrite omap_app. destruct c; [done|by rewrite app_nil_r..]. Qed.

Lemma testbit_flag x m k b : Z.testbit m k = b -> Z.testbit (set_bits x m) k = Z.testbit x k || b.
Proof. intros <-. apply testbit_set. Qed.

(** Everything is out: the end of a transmission. *)
Lemma xmit_done_spec e s : regs_ok s -> count (xmit_fifo s) = 0 -> head (xmit_fifo s) = tail (xmit_fifo s) -> Z.testbit (lsr s) 5 = true ->
  serial_ok (xmit_done e s) /\ recv_view (xmit_done e s) = recv_view s /\ same_line s (xmit_done e s).
Proof.
  intros H H1 H2 H3. unfold xmit_done. rewrite !has_thre. cbn [lsr set_last_xmit_ts]. rewrite H3. cbn [negb]. cbv iota.
  cbn [lsr set_last_xmit_ts]. rewrite H3.
  set (s1 := set_thr_ipending _ 1). assert (regs_ok s1) as Hr by (subst s1; regs).
  split; [split; [auto with vm| |auto with vm]|]; [split|split].
  - done.
  - done.
  - cbn. by rewrite testbit_set, H3.
  - cbn. by rewrite testbit_set, orb_true_r.
  - unfold recv_view. cbn. by rewrite testbit_set, orb_false_r.
  - done.
Qed.

Lemma received_frame e s buf : xmit_fifo (received e s buf) = xmit_fifo s /\ lsr (received e s buf) = set_bits (lsr s) UART_LSR_DR /\ same_line s (received e s buf).
Proof. unfold received, same_line. by if_case. Qed.

(** The byte in the shift register leaves the port, or is received in loopback mode. *)
Lemma send_tsr_spec e s ts : regs_ok s -> count (xmit_fifo s) = 0 -> head (xmit_fifo s) = tail (xmit_fifo s) -> Z.testbit (lsr s) 5 = true ->
  exists s', send_tsr e s ts = Ret s' /\ serial_ok s' /\ lcr s' = lcr s /\ mcr s' = mcr s /\
    written (log s') = written (log s) ++ (if loop s then [] else [tsr s]) /\ (loop s = false -> recv_view s' = recv_view s).
Proof.
  intros H H1 H2 H3. unfold send_tsr, loop. rewrite has_loop. destruct (Z.testbit (mcr s) 4).
  - assert (bytes [tsr s]) as Hb by (constructor; [apply H|done]). rewrite receive1_eq by done. cbn [obind].
    destruct (received_frame e s [tsr s]) as (F1 & F2 & F3 & F4 & F5).
    destruct (xmit_done_spec e (serial_update_irq (received e s [tsr s]))) as (Hok & _ & L1 & L2 & L3);
      [auto with vm|cbn; by rewrite F1|cbn; by rewrite F1|cbn; by rewrite F2, testbit_set, H3|].
    eexists. split; [done|]. split; [done|]. rewrite L1, L2, L3, app_nil_r. by split_and!.
  - assert (forall t, regs_ok t -> xmit_fifo t = xmit_fifo s -> lsr t = lsr s -> lcr t = lcr s -> mcr t = mcr s -> log t = log s ++ [ChrWrite (tsr s)] ->
      recv_view t = recv_view s -> exists s', Ret (xmit_done e t) = Ret (E:=Empty_set) s' /\ serial_ok s' /\ lcr s' = lcr s /\ mcr s' = mcr s /\
      written (log s') = written (log s) ++ [tsr s] /\ (false = false -> recv_view s' = recv_view s)) as Hdone.
    { intros t Ht Ex El Ec Em Eg Er. destruct (xmit_done_spec e t Ht) as (Hok & Hv & L1 & L2 & L3); [by rewrite Ex..|by rewrite El|].
      eexists. split; [done|]. rewrite L1, L2, L3, Ec, Em, Eg, Hv, Er. split_and!; try done. unfold written. by rewrite omap_app. }
    pose proof (ro_retry _ H) as Hr. cbn [tsr_retry poll_msl chr set_log]. destruct (negb _).
    + rewrite (proj2 (Z.ltb_ge 0 (tsr_retry s))) by done. cbn [andb]. if_case; apply Hdone; try done; regs.
    + apply Hdone; try done; regs.
Qed.

(** The byte just written is the next one out. *)
Lemma front_pushed f c : fifo_ok f -> head f = tail f -> front (pushed f c) = c.
Proof. intros [] E. unfold front. cbn. rewrite <- E, list_lookup_insert_eq by lia. done. Qed.

Lemma pop_pushed f c : fifo_ok f -> count f = 0 -> head f = tail f -> count (popped (pushed f c)) = 0 /\ head (popped (pushed f c)) = tail (popped (pushed f c)).
Proof. intros [] E1 E2. cbn. by rewrite E1, E2. Qed.

Lemma write_thr_spec e s v : serial_ok s -> is_byte v ->
  exists s', write_thr e s v = Ret s' /\ serial_ok s' /\ lcr s' = lcr s /\ mcr s' = mcr s /\
    written (log s') = written (log s) ++ (if loop s then [] else [v]) /\ (loop s = false -> recv_view s' = recv_view s).
Proof.
  intros [H [R1 R2 R3 R4] _] Hv. pose proof (ro_retry _ H) as Hr. unfold write_thr. rewrite (wrap_small 8 v) by done. cbn [fcr set_thr].
  destruct (has (fcr s) UART_FCR_FE) eqn:Efe.
  - rewrite fifo_put_eq by apply H. cbn [obind get_fifo XMIT_FIFO Z.eqb set_fifo thr set_thr xmit_fifo]. set (s1 := serial_update_irq _).
    assert (regs_ok s1) as Hs1 by (apply update_irq_regs; regs; by apply pushed_ok).
    unfold serial_xmit. rewrite (proj2 (Z.leb_le (tsr_retry s1) 0)) by (cbn; done). unfold load_tsr. change (fcr s1) with (fcr s). rewrite Efe.
    rewrite fifo_get_eq by apply Hs1. change (get_fifo s1 XMIT_FIFO) with (pushed (xmit_fifo s) v). cbn [count pushed]. rewrite R1. change (u8 (0 + 1) =? 0) with false.
    cbv iota. cbn [obind]. rewrite front_pushed by (done || apply H). destruct (pop_pushed (xmit_fifo s) v) as [P1 P2]; [apply H|done|done|].
    set (f := popped (pushed (xmit_fifo s) v)) in *. cbn [set_fifo XMIT_FIFO Z.eqb xmit_fifo set_tsr set_xmit_fifo]. rewrite P1. cbv iota. set (s2 := set_lsr _ _).
    destruct (send_tsr_spec e s2 (vm_clock e)) as (s' & E & Hok & L1 & L2 & L3 & L4).
    + assert (fifo_ok f) by (apply popped_ok, pushed_ok; [apply H|done]). clear H. subst s2. clearbody s1 f. regs.
    + done.
    + done.
    + cbn. by rewrite testbit_set, orb_true_r.
    + exists s'. split_and!; try done. intros Hl. rewrite L4 by done. unfold recv_view, s2, s1. cbn. rewrite !testbit_set, !testbit_clear by lia.
      by rewrite orb_false_r, !andb_true_r.
  - cbn [obind]. set (s1 := serial_update_irq _). assert (regs_ok s1) as Hs1 by (apply update_irq_regs; regs).
    unfold serial_xmit. rewrite (proj2 (Z.leb_le (tsr_retry s1) 0)) by (cbn; done). unfold load_tsr. change (fcr s1) with (fcr s). rewrite Efe. cbn [obind].
    set (s2 := set_lsr _ _). destruct (send_tsr_spec e s2 (vm_clock e)) as (s' & E & Hok & L1 & L2 & L3 & L4).
    + clear H. subst s2. clearbody s1. regs.
    + done.
    + done.
    + cbn. by rewrite testbit_set, orb_true_r.
    + exists s'. split_and!; try done. intros Hl. rewrite L4 by done. unfold recv_view, s2, s1. cbn. rewrite testbit_set, testbit_clear by lia.
      by rewrite orb_false_r, andb_true_r.
Qed.

(** ** The other registers *)
Lemma ready_frame s s' : xmit_fifo s' = xmit_fifo s -> Z.testbit (lsr s') 5 = Z.testbit (lsr s) 5 -> Z.testbit (lsr s') 6 = Z.testbit (lsr s) 6 -> ready s -> ready s'.
Proof. intros E1 E2 E3 []. split; congruence. Qed.

Lemma coherent_frame s s' : pending_iir s' = pending_iir s -> iir s' = iir s -> irq s' = irq s -> coherent s -> coherent s'.
Proof. intros E1 E2 E3 []. split; by rewrite E1, ?E2, ?E3. Qed.

(** The speed is set from registers of their widths without a fault. *)
Lemma update_parameters_eq s : regs_ok s -> exists t c, serial_update_parameters s = Ret (set_log (set_char_transmit_time s t) (log s ++ c)) /\ written (log s ++ c) = written (log s).
Proof.
  intros H. pose proof (ro_divider _ H) as Hd. pose proof (ro_baudbase _ H) as Hb. unfold serial_update_parameters. destruct (Z.eqb_spec (divider s) 0) as [|Hne].
  - exists (char_transmit_time s), []. rewrite app_nil_r. split; [by destruct s|done].
  - assert (1 <= Z.quot (baudbase s) (divider s) < 2 ^ 31) as Hq.
    { rewrite Z.quot_div_nonneg by lia. split; [apply Z.div_le_lower_bound; lia|]. apply Z.div_lt_upper_bound; nia. }
    set (p := if has (lcr s) 0x08 then _ else _). destruct p as [frame parity].
    unfold cdiv. rewrite (proj2 (Z.eqb_neq (divider s) 0)), cint_ret by lia. cbn [obind]. rewrite (proj2 (Z.eqb_neq _ 0)) by lia.
    eexists _, [ChrSetParams _ _ _ _]. split; [done|]. by apply written_other.
Qed.

Lemma set_line_byte flags flag x bit : is_byte x -> is_byte bit -> is_byte (set_line flags flag x bit).
Proof. intros. unfold set_line. if_case; auto with vm. Qed.
#[local] Hint Resolve set_line_byte shiftr_byte : vm.

(** The modem lines change only the modem status, and with it the interrupt. *)
Lemma update_msl_spec e s : regs_ok s -> regs_ok (serial_update_msl e s) /\ (coherent s -> coherent (serial_update_msl e s)) /\
  xmit_fifo (serial_update_msl e s) = xmit_fifo s /\ lsr (serial_update_msl e s) = lsr s /\ same_line s (serial_update_msl e s) /\ recv_view (serial_update_msl e s) = recv_view s.
Proof.
  intros H. unfold serial_update_msl. destruct (tiocm e) as [flags|].
  2: { split; [regs|]. split; [|done]. by apply coherent_frame. }
  cbn [msr set_msr set_modem_status_poll]. set (m := set_line flags CHR_TIOCM_RI _ _).
  assert (is_byte m) as Hm by (pose proof (ro_msr _ H); subst m; auto 8 with vm).
  assert (forall t, regs_ok t /\ (coherent s -> coherent t) /\ xmit_fifo t = xmit_fifo s /\ lsr t = lsr s /\ same_line s t /\ recv_view t = recv_view s ->
    let t' := if negb (poll_msl t =? 0) then set_modem_status_poll t (Some (vm_clock e + get_ticks_per_sec / 100)) else t in
    regs_ok t' /\ (coherent s -> coherent t') /\ xmit_fifo t' = xmit_fifo s /\ lsr t' = lsr s /\ same_line s t' /\ recv_view t' = recv_view s) as Hpoll.
  { intros t (Ht & Hc & Hf). cbv zeta. if_case; [split; [|split; [|exact Hf]]|done]; [clear H; regs|]. intros Hs. by apply (coherent_frame t), Hc. }
  apply Hpoll. destruct (Z.eqb_spec m (msr s)) as [Em|Hne]; cbn [negb].
  - split; [regs|]. split; [|done]. apply coherent_frame; [|done|done]. unfold pending_iir. cbn. by rewrite Em.
  - set (m2 := set_bits m _). assert (is_byte m2) as Hm2 by (pose proof (ro_msr _ H); subst m2; apply set_byte; auto with vm lia).
    if_case; (split; [apply update_irq_regs; regs|]); (split; [auto with vm|done]).
Qed.

Lemma write_ier_spec e s v : serial_ok s -> serial_ok (write_ier e s v) /\ same_line s (write_ier e s v) /\ recv_view (write_ier e s v) = recv_view s.
Proof.
  intros [H Hrd _]. unfold write_ier. set (s1 := set_ier s _).
  assert (regs_ok s1) as H1 by (subst s1; regs; apply land_byte_r; auto with vm).
  assert (exists t, (if 0 <=? poll_msl s1 then if has (ier s1) UART_IER_MSI then serial_update_msl e (set_poll_msl s1 1)
    else set_poll_msl (set_modem_status_poll s1 None) 0 else s1) = t /\ regs_ok t /\ xmit_fifo t = xmit_fifo s /\ lsr t = lsr s /\ same_line s t /\ recv_view t = recv_view s)
    as (t & -> & Ht & Ex & El & Hl & Hv).
  { eexists. split; [done|]. if_case; [|done]. if_case.
    - destruct (update_msl_spec e (set_poll_msl s1 1)) as (M1 & _ & M2); [clear H; clearbody s1; regs|]. done.
    - split; [clear H; clearbody s1; regs|done]. }
  rewrite has_thre, El, (rd_thre _ Hrd). split; [|done]. split; [|by apply (ready_frame s); [|cbn; by rewrite El..|]|auto with vm].
  apply update_irq_regs. clear H H1. regs.
Qed.

(** A new value makes the interrupt coherent whatever it was. *)
Lemma write_fcr_changed s v : regs_ok s -> ready s -> fcr s <> Z.land v 0xFF -> serial_ok (write_fcr s v) /\ same_line s (write_fcr s v).
Proof.
  intros H Hrd Hne. unfold write_fcr. rewrite (proj2 (Z.eqb_neq _ _) Hne). cbv zeta. set (v1 := if has _ UART_FCR_FE then Z.lor _ _ else _).
  set (s1 := if has v1 UART_FCR_RFR then _ else s). set (s2 := if has v1 UART_FCR_XFR then _ else s1). set (s3 := if has v1 UART_FCR_FE then _ else _).
  assert (regs_ok s1 /\ ready s1 /\ same_line s s1) as (H1 & R1 & L1).
  { subst s1. if_case; [|done]. split; [regs; apply cleared_ok|]. split; [by apply (ready_frame s)|done]. }
  assert (regs_ok s2 /\ ready s2 /\ same_line s s2) as (H2 & R2 & L2).
  { subst s2. if_case; [|done]. clear H. clearbody s1. split; [regs; apply cleared_ok|]. split; [|done]. by destruct R1. }
  assert (regs_ok s3 /\ ready s3 /\ same_line s s3) as (H3 & R3 & L3).
  { subst s3. clear H H1. clearbody s2. if_case; (split; [|split; [by apply (ready_frame s2)|done]]); [|regs].
    pose proof (ro_recv _ H2) as []. regs. }
  clear H H1 H2. clearbody s3. split; [|done]. split; [apply update_irq_regs; regs; apply land_byte_r; auto with vm|by apply (ready_frame s3)|auto with vm].
Qed.

Lemma write_fcr_spec s v : serial_ok s -> serial_ok (write_fcr s v) /\ same_line s (write_fcr s v).
Proof.
  intros Hok. destruct (decide (fcr s = Z.land v 0xFF)) as [E|Hne]; [|apply write_fcr_changed; [apply Hok..|done]].
  unfold write_fcr. by rewrite E, Z.eqb_refl.
Qed.

(** A change of the speed. *)
Lemma parameters_spec s : serial_ok s -> exists s', serial_update_parameters s = Ret s' /\ serial_ok s' /\ same_line s s' /\ recv_view s' = recv_view s.
Proof.
  intros [H Hrd Hc]. destruct (update_parameters_eq s H) as (t & c & -> & Hw). eexists. split; [done|]. split; [|done].
  split; [regs|by apply (ready_frame s)|by apply (coherent_frame s)].
Qed.

Lemma write_lcr_spec s v : serial_ok s -> is_byte v ->
  exists s', write_lcr s v = Ret s' /\ serial_ok s' /\ lcr s' = v /\ mcr s' = mcr s /\ written (log s') = written (log s) /\ recv_view s' = recv_view s.
Proof.
  intros [H Hrd Hc] Hv. unfold write_lcr. rewrite (wrap_small 8 v) by done.
  destruct (parameters_spec (set_lcr s v)) as (s1 & -> & [H1 R1 C1] & (L1 & L2 & L3) & V1).
  { split; [regs|by apply (ready_frame s)|by apply (coherent_frame s)]. }
  cbn [obind]. eexists. split; [done|]. if_case; [|done].
  split; [|split_and!; [done|done|trans (written (log s1)); [by apply (written_other (log s1))|done]|done]].
  clear H. split; [regs|by apply (ready_frame s1)|by apply (coherent_frame s1)].
Qed.

Lemma write_divider_spec s v : serial_ok s -> exists s', serial_update_parameters (set_divider s (u16 v)) = Ret s' /\ serial_ok s' /\ same_line s s' /\ recv_view s' = recv_view s.
Proof.
  intros [H Hrd Hc]. pose proof (wrap_range 16 v ltac:(lia)) as Hd. unfold is_u in Hd. apply (parameters_spec (set_divider s (u16 v))).
  split; [regs|by apply (ready_frame s)|by apply (coherent_frame s)].
Qed.

Lemma land_31 v : 0 <= Z.land v 0x1f < 32.
Proof. change 0x1f with (Z.ones 5). rewrite Z.land_ones by lia. by apply Z.mod_pos_bound. Qed.

Lemma write_mcr_spec e s v : serial_ok s ->
  serial_ok (write_mcr e s v) /\ lcr (write_mcr e s v) = lcr s /\ mcr (write_mcr e s v) = Z.land v 0x1f /\ written (log (write_mcr e s v)) = written (log s) /\
  recv_view (write_mcr e s v) = recv_view s.
Proof.
  intros [H Hrd Hc]. pose proof (land_31 v). unfold write_mcr.
  assert (forall t p l, written l = written (log s) -> t = set_modem_status_poll (set_log (set_mcr s (Z.land v 0x1f)) l) p ->
    serial_ok t /\ lcr t = lcr s /\ mcr t = Z.land v 0x1f /\ written (log t) = written (log s) /\ recv_view t = recv_view s) as Hgo.
  { intros t p l Hl ->. split; [|done]. split; [regs|by apply (ready_frame s)|by apply (coherent_frame s)]. }
  if_case; [by apply (Hgo _ (modem_status_poll s) (log s))|]. if_case; [|by apply (Hgo _ (modem_status_poll s) (log s))].
  eapply Hgo; [|reflexivity]. by apply written_other.
Qed.

(** ** Reads *)
Lemma clear_dr_bits x k : (k = 5 \/ k = 6) -> Z.testbit (clear_bits x (Z.lor UART_LSR_DR UART_LSR_BI)) k = Z.testbit x k.
Proof. intros [-> | ->]; by rewrite testbit_clear, andb_true_r. Qed.

(** Reading the receiver, in its two modes. *)
Definition read_fifo (e : env) (s : SerialState) : SerialState :=
  let f := if count (recv_fifo s) =? 0 then recv_fifo s else popped (recv_fifo s) in
  let s := set_recv_fifo s f in
  set_timeout_ipending
    (if count f =? 0 then set_lsr s (clear_bits (lsr s) (Z.lor UART_LSR_DR UART_LSR_BI))
     else set_fifo_timeout_timer s (Some (vm_clock e + char_transmit_time s * 4))) 0.
Definition read_holding (s : SerialState) : SerialState := set_lsr s (clear_bits (lsr s) (Z.lor UART_LSR_DR UART_LSR_BI)).
Definition accept (s : SerialState) : SerialState := if loop s then s else chr s ChrAcceptInput.

Lemma read_rbr_eq e s : fifo_ok (recv_fifo s) ->
  read_rbr e s = Ret (if has (fcr s) UART_FCR_FE then (if count (recv_fifo s) =? 0 then 0 else front (recv_fifo s)) else rbr s,
                      accept (serial_update_irq (if has (fcr s) UART_FCR_FE then read_fifo e s else read_holding s))).
Proof.
  intros Hf. unfold read_rbr, accept, loop. destruct (has (fcr s) UART_FCR_FE).
  - rewrite fifo_get_eq by done. change (get_fifo s RECV_FIFO) with (recv_fifo s). unfold read_fifo. destruct (count (recv_fifo s) =? 0) eqn:Ec.
    + cbn [obind]. rewrite Ec, has_loop, set_recv_same. cbv zeta. by destruct (Z.testbit _ 4).
    + cbn [obind]. rewrite has_loop. cbv zeta. by destruct (Z.testbit _ 4).
  - cbn [obind]. rewrite has_loop. by destruct (Z.testbit _ 4).
Qed.

Lemma accept_ok s : serial_ok s -> serial_ok (accept s) /\ same_line s (accept s) /\ recv_view (accept s) = recv_view s.
Proof.
  intros [H R C]. unfold accept. if_case; [done|]. split; [split; [regs|by apply (ready_frame s)|by apply (coherent_frame s)]|].
  split; [|done]. split_and!; [done|done|]. by apply (written_other (log s)).
Qed.

Lemma read_rbr_spec e s : serial_ok s -> exists v s', read_rbr e s = Ret (v, s') /\ is_byte v /\ serial_ok s' /\ same_line s s'.
Proof.
  intros [H Hrd Hc]. rewrite read_rbr_eq by apply H. eexists _, _. split; [done|]. split.
  { if_case; [|apply H]. if_case; [unfold is_byte; lia|apply front_byte, H]. }
  set (s1 := if has _ _ then _ else _).
  assert (regs_ok s1 /\ ready s1 /\ same_line s s1) as (H1 & R1 & L1).
  { subst s1. if_case.
    - unfold read_fifo. set (f := if count _ =? 0 then recv_fifo s else _).
      assert (fifo_ok f) by (subst f; pose proof (ro_recv _ H); if_case; [done|by apply popped_ok]). clearbody f.
      if_case; (split; [regs|split; [|done]]); (apply (ready_frame s); [done| | |done]; cbn; auto using clear_dr_bits).
    - split; [unfold read_holding; regs|]. split; [|done]. apply (ready_frame s); [done| | |done]; cbn; auto using clear_dr_bits. }
  destruct (accept_ok (serial_update_irq s1)) as (Ho & L & _); [split; [auto with vm|by apply (ready_frame s1)|auto with vm]|].
  split; [done|]. destruct L as (E1 & E2 & E3). destruct L1 as (F1 & F2 & F3). split_and!; etrans; eauto.
Qed.

Lemma loopback_msr m : 0 <= m < 32 -> is_byte (Z.lor (Z.lor (Z.shiftl (Z.land m 0x0c) 4) (Z.shiftl (Z.land m 0x02) 3)) (Z.shiftl (Z.land m 0x01) 5)).
Proof.
  intros Hm. set (g := fun m => Z.lor (Z.lor (Z.shiftl (Z.land m 0x0c) 4) (Z.shiftl (Z.land m 0x02) 3)) (Z.shiftl (Z.land m 0x01) 5)). change (is_byte (g m)).
  assert ((0 <=? g m) && (g m <? 256) = true) as E by (apply (range_check (fun m => (0 <=? g m) && (g m <? 256)) 0 32); [by vm_compute|lia]).
  bool_hyps. done.
Qed.

Lemma read_msr_spec e s : serial_ok s -> is_byte (fst (read_msr e s)) /\ serial_ok (snd (read_msr e s)) /\ same_line s (snd (read_msr e s)) /\
  recv_view (snd (read_msr e s)) = recv_view s.
Proof.
  intros Hok. pose proof Hok as [H Hrd Hc]. unfold read_msr. if_case; [split; [apply loopback_msr, H|done]|].
  assert (exists t, (if 0 <=? poll_msl s then serial_update_msl e s else s) = t /\ serial_ok t /\ same_line s t /\ recv_view t = recv_view s) as (t & -> & Ht & Hl & Hv).
  { eexists. split; [done|]. if_case; [|done]. destruct (update_msl_spec e s H) as (M1 & M2 & M3 & M4 & M5 & M6). split; [|done].
    split; [done|by apply (ready_frame s); [|rewrite M4..|]|auto]. }
  clear H Hrd Hc. pose proof Ht as [H Hrd Hc]. cbn [fst snd]. split; [apply H|]. if_case; [|done]. split; [|done].
  split; [apply update_irq_regs; regs|by apply (ready_frame t)|auto with vm].
Qed.

(** ** What comes from outside *)
Lemma receive_spec e s buf : serial_ok s -> buf <> [] -> bytes buf -> exists s', serial_receive1 e s buf = Ret s' /\ serial_ok s' /\ same_line s s'.
Proof.
  intros [H Hrd Hc] Hne Hb. rewrite receive1_eq by done. eexists. split; [done|]. destruct (received_frame e s buf) as (F1 & F2 & F3). split; [|done].
  split; [auto with vm| |auto with vm]. apply (ready_frame s); [done|cbn; by rewrite F2, testbit_set, orb_false_r..|done].
Qed.

Lemma event_spec s n : serial_ok s -> exists s', serial_event s n = Ret s' /\ serial_ok s' /\ same_line s s'.
Proof.
  intros Hok. pose proof Hok as [H Hrd Hc]. unfold serial_event. if_case; [|by exists s]. unfold serial_receive_break. rewrite fifo_put_eq by apply H.
  cbn [obind]. eexists. split; [done|]. split; [|done]. change (get_fifo (set_rbr s 0) RECV_FIFO) with (recv_fifo s).
  assert (fifo_ok (pushed (recv_fifo s) 0)) by (apply pushed_ok; [apply H|unfold is_byte; lia]).
  split; [apply update_irq_regs; unfold set_fifo, RECV_FIFO; cbn [Z.eqb]; regs| |auto with vm]. apply (ready_frame s); [done|cbn; by rewrite testbit_set, orb_false_r..|done].
Qed.

Lemma timeout_spec s : serial_ok s -> serial_ok (fifo_timeout_int s) /\ same_line s (fifo_timeout_int s).
Proof.
  intros Hok. pose proof Hok as [H Hrd Hc]. unfold fifo_timeout_int. if_case; [|done]. split; [|done]. split; [apply update_irq_regs; regs|by apply (ready_frame s)|auto with vm].
Qed.

Lemma reset_spec e s : regs_ok s -> serial_ok (serial_reset e s) /\ lcr (serial_reset e s) = 0 /\ mcr (serial_reset e s) = UART_MCR_OUT2 /\ log (serial_reset e s) = log s.
Proof.
  intros H. split; [|done]. split; [unfold serial_reset; regs; apply cleared_ok|done|done].
Qed.

(** ** Events *)
Inductive event : Type :=
| Out (addr val : Z) | In (addr : Z)
| Receive (bs : list Z) | ChrEvent (n : Z)
| FifoTimer | ModemTimer | TransmitTimer
| Reset.

Definition due (t : option Z) (e : env) : bool := match t with Some t => t <=? vm_clock e | None => false end.

(** A timer runs when it is due, and is disarmed by it.  The result is what a read returns. *)
Definition serial_step (e : env) (ev : event) (s : SerialState) : res (option Z * SerialState) :=
  match ev with
  | Out addr val => let! s := serial_ioport_write e s addr val in Ret (None, s)
  | In addr => let! '(v, s) := serial_ioport_read e s addr in Ret (Some v, s)
  | Receive bs => let! s := serial_receive1 e s bs in Ret (None, s)
  | ChrEvent n => let! s := serial_event s n in Ret (None, s)
  | FifoTimer => Ret (None, if due (fifo_timeout_timer s) e then fifo_timeout_int (set_fifo_timeout_timer s None) else s)
  | ModemTimer => Ret (None, if due (modem_status_poll s) e then serial_update_msl e (set_modem_status_poll s None) else s)
  | TransmitTimer => if due (transmit_timer s) e then let! s := serial_xmit e (set_transmit_timer s None) in Ret (None, s) else Ret (None, s)
  | Reset => Ret (None, serial_reset e s)
  end.

Fixpoint serial_run (es : list (env * event)) (s : SerialState) : res (list (option Z) * SerialState) :=
  match es with
  | [] => Ret ([], s)
  | (e, ev) :: es => let! '(r, s) := serial_step e ev s in let! '(rs, s) := serial_run es s in Ret (r :: rs, s)
  end.

(** Ports are a byte wide, and the character device delivers something when it delivers. *)
Definition valid (ev : event) : Prop :=
  match ev with Out _ val => is_byte val | Receive bs => bs <> [] /\ bytes bs | _ => True end.

(** The sending side as the guest sees it: whether the divisor latch is selected, whether the
    port is in loopback mode, and the bytes that leave the port. *)
Definition line_step (l : bool * bool) (ev : event) : bool * bool * list Z :=
  match ev with
  | Out addr val =>
      let p := Z.land addr 7 in
      if p =? 0 then (l, if fst l || snd l then [] else [val])
      else if p =? 3 then (Z.testbit val 7, snd l, [])
      else if p =? 4 then (fst l, Z.testbit val 4, [])
      else (l, [])
  | Reset => (false, false, [])
  | _ => (l, [])
  end.
Fixpoint line_run (l : bool * bool) (es : list (env * event)) : list Z :=
  match es with
  | [] => []
  | (_, ev) :: es => let '(l, bs) := line_step l ev in bs ++ line_run l es
  end.
Definition line (s : SerialState) : bool * bool := (dlab s, loop s).

(** [s] goes to [s'], of which the line is [l], by sending [bs]. *)
Definition goes (s s' : SerialState) (l : bool * bool * list Z) : Prop :=
  serial_ok s' /\ line s' = fst l /\ written (log s') = written (log s) ++ snd l.

Lemma goes_same s s' : serial_ok s' -> same_line s s' -> goes s s' (line s, []).
Proof. intros H (E1 & E2 & E3). split; [done|]. unfold line, dlab, loop. cbn [fst snd]. by rewrite E1, E2, E3, app_nil_r. Qed.

Lemma land_7 addr : 0 <= Z.land addr 7 < 8.
Proof. change 7 with (Z.ones 3). rewrite Z.land_ones by lia. by apply Z.mod_pos_bound. Qed.

Lemma write_goes e s addr v : serial_ok s -> is_byte v -> exists s', serial_ioport_write e s addr v = Ret s' /\ goes s s' (line_step (line s) (Out addr v)) /\
  (Z.land addr 7 <> 2 -> loop s = false -> recv_view s' = recv_view s).
Proof.
  intros Hok Hv. unfold serial_ioport_write, line_step. rewrite has_dlab. pose proof (land_7 addr) as Hp. set (p := Z.land addr 7) in *. clearbody p.
  destruct (Z.eqb_spec p 1) as [->|H1].
  { change (Z.testbit (lcr s) 7) with (dlab s). destruct (dlab s).
    - destruct (write_divider_spec s (Z.lor (Z.land (divider s) 0x00ff) (u32 (Z.shiftl v 8))) Hok) as (s' & -> & H & L & Hr). eexists. split; [done|]. split; [by apply goes_same|done].
    - destruct (write_ier_spec e s v Hok) as (H & L & Hr). eexists. split; [done|]. split; [by apply goes_same|done]. }
  destruct (Z.eqb_spec p 2) as [->|H2]; [destruct (write_fcr_spec s v Hok) as [H L]; eexists; split; [done|]; split; [by apply goes_same|done]|].
  destruct (Z.eqb_spec p 3) as [->|H3].
  { destruct (write_lcr_spec s v Hok Hv) as (s' & -> & H & L1 & L2 & L3 & Hr). eexists. split; [done|]. split; [|done]. split; [done|]. unfold line, dlab, loop. cbn [fst snd Z.eqb].
    by rewrite L1, L2, L3, app_nil_r. }
  destruct (Z.eqb_spec p 4) as [->|H4].
  { destruct (write_mcr_spec e s v Hok) as (H & L1 & L2 & L3 & Hr). eexists. split; [done|]. split; [|done]. split; [done|]. unfold line, dlab, loop. cbn [fst snd Z.eqb].
    rewrite L1, L2, L3, app_nil_r, Z.land_spec, andb_true_r. done. }
  destruct (Z.eqb_spec p 5) as [->|H5]; [eexists; split; [done|]; split; [by apply goes_same|done]|].
  destruct (Z.eqb_spec p 6) as [->|H6]; [eexists; split; [done|]; split; [by apply goes_same|done]|].
  destruct (Z.eqb_spec p 7) as [->|H7].
  { destruct Hok as [H R C]. eexists. split; [done|]. split; [|done]. apply goes_same; [|done]. split; [regs|by apply (ready_frame s)|by apply (coherent_frame s)]. }
  assert (p = 0) as -> by lia. change (Z.testbit (lcr s) 7) with (dlab s). cbn [Z.eqb line fst snd]. destruct (dlab s) eqn:Ed; cbn [orb].
  - destruct (write_divider_spec s (Z.lor (Z.land (divider s) 0xff00) v) Hok) as (s' & -> & H & L & Hr). eexists. split; [done|]. split; [by apply goes_same|done].
  - destruct (write_thr_spec e s v Hok Hv) as (s' & -> & H & L1 & L2 & L3 & Hr). eexists. split; [done|]. split; [|auto]. split; [done|]. unfold line, dlab, loop in *.
    cbn [fst snd]. by rewrite L1, L2, L3, Ed.
Qed.

Lemma read_goes e s addr : serial_ok s -> exists v s', serial_ioport_read e s addr = Ret (v, s') /\ is_byte v /\ goes s s' (line s, []) /\
  (Z.land addr 7 <> 0 \/ dlab s = true -> recv_view s' = recv_view s).
Proof.
  intros Hok. pose proof Hok as [H R C]. pose proof (ro_mcr _ H). assert (is_byte (mcr s)) by (unfold is_byte; lia). unfold serial_ioport_read. rewrite has_dlab.
  change (Z.testbit (lcr s) 7) with (dlab s). pose proof (land_7 addr) as Hp. set (p := Z.land addr 7) in *. clearbody p.
  assert (goes s s (line s, []) /\ (p <> 0 \/ dlab s = true -> recv_view s = recv_view s)) as Hs by (split; [by apply goes_same|done]).
  destruct (Z.eqb_spec p 1); [destruct (dlab s); eexists _, _; (split; [done|]); split; auto using land_byte_r, ro_ier with vm|].
  destruct (Z.eqb_spec p 2).
  { eexists _, _. split; [done|]. split; [apply H|]. split; [|done]. apply goes_same; [|done]. split; [apply update_irq_regs; regs|by apply (ready_frame s)|auto with vm]. }
  destruct (Z.eqb_spec p 3); [eexists _, _; split; [done|]; split; [apply H|done]|].
  destruct (Z.eqb_spec p 4); [eexists _, _; split; [done|]; split; [done|done]|].
  destruct (Z.eqb_spec p 5).
  { eexists _, _. split; [done|]. split; [apply H|]. if_case; [|done]. split; [|unfold recv_view; cbn; by rewrite testbit_clear, andb_true_r]. apply goes_same; [|done].
    split; [apply update_irq_regs; regs| |auto with vm]. apply (ready_frame s); [done|cbn; by rewrite testbit_clear, andb_true_r..|done]. }
  destruct (Z.eqb_spec p 6).
  { destruct (read_msr_spec e s Hok) as (Hb & Ho & L & Hr). destruct (read_msr e s) as [v s']. eexists _, _. split; [done|]. split; [done|]. split; [by apply goes_same|done]. }
  destruct (Z.eqb_spec p 7); [eexists _, _; split; [done|]; split; [apply H|done]|].
  destruct (dlab s) eqn:Ed; [eexists _, _; split; [done|]; split; [apply land_byte_r; auto with vm|done]|].
  destruct (read_rbr_spec e s Hok) as (v & s' & -> & Hb & Ho & L). eexists _, _. split; [done|]. split; [done|]. split; [by apply goes_same|]. intros [?|?]; [lia|done].
Qed.

Lemma step_goes e ev s : serial_ok s -> valid ev ->
  exists r s', serial_step e ev s = Ret (r, s') /\ from_option is_byte True r /\ goes s s' (line_step (line s) ev).
Proof.
  intros Hok Hv. pose proof Hok as [H R C]. destruct ev as [addr v|addr|bs|n| | | |]; cbn [serial_step line_step].
  - destruct (write_goes e s addr v Hok Hv) as (s' & -> & Hg & _). by eexists _, _.
  - destruct (read_goes e s addr Hok) as (v & s' & -> & Hb & Hg & _). by eexists _, _.
  - destruct Hv as [Hne Hb]. destruct (receive_spec e s bs Hok Hne Hb) as (s' & -> & Ho & L). eexists _, _. split; [done|]. split; [done|]. by apply goes_same.
  - destruct (event_spec s n Hok) as (s' & -> & Ho & L). eexists _, _. split; [done|]. split; [done|]. by apply goes_same.
  - eexists _, _. split; [done|]. split; [done|]. if_case; [|by apply goes_same].
    destruct (timeout_spec (set_fifo_timeout_timer s None)) as [Ho L]; [split; [regs|by apply (ready_frame s)|by apply (coherent_frame s)]|]. by apply goes_same.
  - eexists _, _. split; [done|]. split; [done|]. if_case; [|by apply goes_same]. destruct (update_msl_spec e (set_modem_status_poll s None)) as (M1 & M2 & M3 & M4 & M5 & _);
      [regs|]. apply goes_same; [|done]. split; [done|by apply (ready_frame s); [|rewrite M4..|]|]. apply M2. by apply (coherent_frame s).
  - rewrite (ro_timer _ H). cbn [due]. eexists _, _. split; [done|]. split; [done|]. by apply goes_same.
  - destruct (reset_spec e s H) as (Ho & L1 & L2 & L3). eexists _, _. split; [done|]. split; [done|]. split; [done|]. unfold line, dlab, loop.
    by rewrite L1, L2, L3, app_nil_r.
Qed.

Lemma run_goes es : forall s, serial_ok s -> Forall (fun x => valid (snd x)) es ->
  exists rs s', serial_run es s = Ret (rs, s') /\ Forall (from_option is_byte True) rs /\ serial_ok s' /\ written (log s') = written (log s) ++ line_run (line s) es.
Proof.
  induction es as [|[e ev] es IH]; intros s Hok Hv; cbn [serial_run line_run]; [exists [], s; by rewrite app_nil_r|]. inversion_clear Hv as [|? ? Hv1 Hv2].
  destruct (step_goes e ev s Hok Hv1) as (r & s1 & -> & Hr & Ho & El & Ew). cbn [obind]. destruct (IH s1 Ho Hv2) as (rs & s2 & -> & Hrs & Ho2 & Ew2). cbn [obind].
  eexists _, _. split; [done|]. split; [by constructor|]. split; [done|]. rewrite Ew2, Ew, El. destruct (line_step (line s) ev) as [l bs]. cbn [fst snd]. by rewrite app_assoc.
Qed.

(** The port of a PC, after its first reset. *)
Definition started (e : env) : SerialState := serial_reset e (serial_init_core 0 115200).
Lemma started_ok e : serial_ok (started e).
Proof.
  assert (regs_ok (serial_init_core 0 115200)) as H by (split; cbn; try done; try (unfold is_byte; lia); try lia; apply cleared_ok).
  exact (proj1 (reset_spec e _ H)).
Qed.

(** C29. The serial port is safe and its interrupts are coherent: through any sequence of
    port accesses of the guest, deliveries and events of the character device, expiring
    timers and resets, no access leaves a FIFO and no division is by zero, every read
    returns a byte, the registers keep their widths, the transmitter is ready again after
    every access (its FIFO empty, both of its status bits set, its timer idle and no byte
    waiting for a retry), the low bits of the interrupt identification are the enabled cause
    of the highest priority and the interrupt line is high exactly when there is one. *)
Theorem serial_invariant e es : Forall (fun x => valid (snd x)) es ->
  exists rs s, serial_run es (started e) = Ret (rs, s) /\ Forall (from_option is_byte True) rs /\ serial_ok s.
Proof. intros Hv. destruct (run_goes es (started e) (started_ok e) Hv) as (rs & s & H & Hr & Ho & _). eauto. Qed.

(** C31. What the guest sends leaves the port: with a character device that takes every byte
    it is given (for which [qemu_chr_write] returns 1), the bytes it gets are those the guest
    writes to the transmitter with the divisor latch off and loopback mode off, each once and
    in order, in FIFO mode as without it, whatever else happens; no retry is ever under way.
    A byte that the device refuses is offered once and lost, though MAX_XMIT_RETRY and the
    comment in [serial_xmit] mean it to be tried again: [refused_byte_dropped] in SerialSave. *)
Theorem serial_transmits e es : Forall (fun x => valid (snd x) /\ chr_write (fst x) = 1) es ->
  exists rs s, serial_run es (started e) = Ret (rs, s) /\ written (log s) = line_run (false, false) es /\ tsr_retry s <= 0.
Proof.
  intros Hv. destruct (run_goes es (started e) (started_ok e)) as (rs & s & H & Hr & Ho & E); [eapply Forall_impl; [|exact Hv]; by intros x []|].
  eexists _, _. split; [done|]. split; [exact E|]. apply (so_regs _ Ho).
Qed.

(** ** Examples *)
Definition env_at (t : Z) : env := mkEnv t 1 None 0.
Definition session : list (env * event) :=
  map (fun x => (env_at (fst x), snd x))
    [(1, Out 2 0x81); (2, Out 1 1); (3, Receive [65; 66]); (4, In 2); (5, FifoTimer); (20000000, FifoTimer); (20000001, In 2); (20000002, In 0); (20000003, In 0);
     (20000004, Out 0 67); (20000005, Out 3 0x83); (20000006, Out 0 1); (20000007, Out 3 3); (20000008, Out 0 68); (20000009, ModemTimer)].

Lemma session_valid : Forall (fun x => valid (snd x)) session.
Proof. repeat constructor; cbn; try done; unfold is_byte; lia. Qed.

Lemma serial_invariant_witness : exists rs s, serial_run session (started (env_at 0)) = Ret (rs, s) /\ serial_ok s.
Proof.
  destruct (serial_invariant (env_at 0) session session_valid) as (rs & s & E & _ & H). exists rs, s. split; [exact E|exact H].
Defined.

Lemma serial_transmits_witness : exists rs s, serial_run session (started (env_at 0)) = Ret (rs, s) /\ written (log s) = [67; 68] /\ tsr_retry s <= 0.
Proof.
  apply (serial_transmits (env_at 0) session). repeat constructor; cbn; try done; unfold is_byte; lia.
Defined.
