(* ===== verification/SerialReceive.v ===== *)
(** * The serial port receives

    The receiver FIFO as the list it holds.  As long as the guest does not reset the FIFOs or
    select loopback mode and no break arrives, and the character device delivers no more
    than the port says it can take, the guest reads what was delivered, in order, and is
    told of every byte it has not read. *)

From stdpp Require Import list.
From S2P Require Import Prelude Ring I8254 Serial SerialProofs.

Open Scope Z_scope.

#[local] Arguments set_bits : simpl never.
#[local] Arguments clear_bits : simpl never.
#[local] Arguments has : simpl never.
#[local] Arguments Z.testbit : simpl never.

(** ** The FIFO is a queue *)
Record fifo_wf (f : SerialFIFO) : Prop := {
  fw_ok : fifo_ok f; fw_count : count f <= 16; fw_head : head f = (tail f + count f) mod 16
}.
Definition holds (f : SerialFIFO) : list Z := ring (Z.to_nat (tail f)) (Z.to_nat (count f)) (data f).

Lemma length_holds f : fifo_wf f -> Z.of_nat (length (holds f)) = count f.
Proof. intros [[H1 _ H3 H4 _] H6 _]. unfold is_byte in H3. unfold holds. rewrite length_ring by lia. lia. Qed.

Lemma pushed_holds f c : fifo_wf f -> is_byte c -> count f < 16 -> fifo_wf (pushed f c) /\ holds (pushed f c) = holds f ++ [c].
Proof.
  intros [Hok Hc Hh] Hb Hlt. pose proof Hok as [H1 H2 H3 H4 H5]. unfold is_byte in H3.
  assert (u8 (count f + 1) = count f + 1) as Eu by (apply wrap_small; unfold is_u; lia). split.
  - split; [by apply pushed_ok|cbn; rewrite Eu; lia|]. cbn [head tail count pushed]. rewrite Eu, next_mod by done. rewrite Hh, Zplus_mod_idemp_l. f_equal. lia.
  - unfold holds. cbn [tail count data pushed]. rewrite Eu, Z2Nat.inj_add by lia. change (Z.to_nat 1) with 1%nat. rewrite Nat.add_1_r, Hh.
    rewrite Z2Nat.inj_mod, Z2Nat.inj_add by lia. change (Z.to_nat 16) with 16%nat. rewrite <- H1. apply ring_push; lia.
Qed.

Lemma popped_holds f : fifo_wf f -> count f <> 0 -> fifo_wf (popped f) /\ holds f = front f :: holds (popped f).
Proof.
  intros [Hok Hc Hh] Hne. pose proof Hok as [H1 H2 H3 H4 H5]. unfold is_byte in H3.
  assert (u8 (count f - 1) = count f - 1) as Eu by (apply wrap_small; unfold is_u; lia). split.
  - split; [by apply popped_ok|cbn; rewrite Eu; lia|]. cbn [head tail count popped]. rewrite Eu, next_mod by done. rewrite Hh, Zplus_mod_idemp_l. f_equal. lia.
  - unfold holds, front. cbn [tail count data popped]. rewrite Eu. replace (Z.to_nat (count f)) with (S (Z.to_nat (count f - 1))) by lia.
    destruct (ring_pop (Z.to_nat (tail f)) (Z.to_nat (count f - 1)) (data f)) as (x & -> & ->); [lia|lia|]. cbn [default]. f_equal.
    rewrite next_mod, Z2Nat.inj_mod, Z2Nat.inj_add by lia. change (Z.to_nat 16) with 16%nat. change (Z.to_nat 1) with 1%nat. by rewrite H1, Nat.add_1_r.
Qed.

Lemma foldl_pushed_holds bs : forall f, fifo_wf f -> bytes bs -> count f + Z.of_nat (length bs) <= 16 ->
  fifo_wf (foldl pushed f bs) /\ holds (foldl pushed f bs) = holds f ++ bs /\ itl (foldl pushed f bs) = itl f.
Proof.
  induction bs as [|b bs IH]; intros f Hf Hb Hl; cbn [foldl]; [by rewrite app_nil_r|]. inversion_clear Hb as [|? ? Hb1 Hb2]. cbn [length] in Hl.
  destruct (pushed_holds f b Hf Hb1 ltac:(lia)) as [Hf1 Hh1]. destruct (IH (pushed f b) Hf1 Hb2) as (Hf2 & Hh2 & Hi).
  { pose proof (length_holds _ Hf1) as E1. pose proof (length_holds _ Hf) as E0. rewrite Hh1, length_app in E1. cbn [length] in E1. lia. }
  split; [done|]. rewrite Hh2, Hh1, Hi, <- app_assoc. done.
Qed.

(** ** The bytes the guest has not read *)
Definition fifo_mode (s : SerialState) : bool := Z.testbit (fcr s) 0.
Definition data_ready (s : SerialState) : bool := Z.testbit (lsr s) 0.
Definition unread (s : SerialState) : list Z := if fifo_mode s then holds (recv_fifo s) else if data_ready s then [rbr s] else [].

(** In FIFO mode the status says whether there is something, and if so a timeout is pending
    or to come. *)
Definition fifo_watched (s : SerialState) : Prop :=
  fifo_wf (recv_fifo s) /\ 1 <= itl (recv_fifo s) <= 14 /\ data_ready s = negb (count (recv_fifo s) =? 0) /\
  (count (recv_fifo s) <> 0 -> timeout_ipending s <> 0 \/ fifo_timeout_timer s <> None).
Record recv_ok (s : SerialState) : Prop := { rk_ok : serial_ok s; rk_loop : loop s = false; rk_fifo : fifo_mode s = true -> fifo_watched s }.

Lemma recv_same s s' : recv_ok s -> serial_ok s' -> loop s' = false -> recv_view s' = recv_view s -> recv_ok s' /\ unread s' = unread s.
Proof.
  intros [Ho Hl Hf] Ho' Hl' Hv. unfold recv_view in Hv. injection Hv as E1 E2 E3 E4 E5 E6. unfold unread, fifo_mode, data_ready in *. rewrite E1, E2, E3, E4. split; [|done].
  split; [done|done|]. unfold fifo_mode, fifo_watched, data_ready in *. by rewrite E1, E2, E4, E5, E6.
Qed.

(** ** Events *)
Definition quiet (s : SerialState) (ev : event) : Prop :=
  match ev with
  | Out addr v => Z.land addr 7 <> 2 /\ (Z.land addr 7 = 4 -> Z.testbit v 4 = false)
  | Receive bs => Z.of_nat (length bs) <= serial_can_receive s
  | ChrEvent n => n <> CHR_EVENT_BREAK
  | Reset => False
  | _ => True
  end.
Definition delivered (ev : event) : list Z := match ev with Receive bs => bs | _ => [] end.
(** What a read takes from the receiver; the guest looks at the status first. *)
Definition taken (s : SerialState) (ev : event) (r : option Z) : list Z :=
  match ev, r with In addr, Some v => if (Z.land addr 7 =? 0) && negb (dlab s) && data_ready s then [v] else [] | _, _ => [] end.

Lemma can_receive_room s (bs : list Z) : fifo_watched s -> fifo_mode s = true -> Z.of_nat (length bs) <= serial_can_receive s -> count (recv_fifo s) + Z.of_nat (length bs) <= 16.
Proof.
  intros ([_ Hc _] & Hi & _) Hm. unfold serial_can_receive, UART_FIFO_LENGTH. rewrite has_fe. unfold fifo_mode in Hm. rewrite Hm. repeat if_case; lia.
Qed.

Lemma receive_step e s bs s' : recv_ok s -> bs <> [] -> bytes bs -> Z.of_nat (length bs) <= serial_can_receive s -> serial_receive1 e s bs = Ret s' ->
  recv_ok s' /\ unread s' = unread s ++ bs.
Proof.
  intros [Ho Hl Hf] Hne Hb Hlen E. destruct (receive_spec e s bs Ho Hne Hb) as (s1 & E1 & Ho1 & L1 & L2 & _). rewrite E in E1. apply Ret_inj in E1 as <-.
  rewrite receive1_eq in E by (done || apply Ho). apply Ret_inj in E as <-. assert (loop (serial_update_irq (received e s bs)) = false) as Hl1 by (unfold loop; by rewrite L2).
  destruct (fifo_mode s) eqn:Em.
  - pose proof (Hf eq_refl) as Hw. pose proof (can_receive_room s bs Hw Em Hlen) as Hroom. destruct Hw as (Hw & Hi & Hd & Ht).
    destruct (foldl_pushed_holds bs (recv_fifo s) Hw Hb Hroom) as (Hw1 & Hh1 & Hi1). pose proof (length_holds _ Hw1) as Hc1. rewrite Hh1, length_app in Hc1.
    assert (count (foldl pushed (recv_fifo s) bs) <> 0) as Hnz by (destruct bs; [done|cbn [length] in Hc1; lia]).
    unfold received in *. cbn [fcr set_lsr] in *. rewrite has_fe in *. unfold fifo_mode in Em. rewrite Em in *. split.
    + split; [done|done|]. intros _. unfold fifo_watched, data_ready. cbn. rewrite Hi1, testbit_set, orb_true_r, (proj2 (Z.eqb_neq _ 0) Hnz). split_and!; try done; try lia. by right.
    + unfold unread, fifo_mode. cbn. by rewrite Em.
  - unfold serial_can_receive in Hlen. rewrite has_fe in Hlen. unfold fifo_mode in Em. rewrite Em, has_dr in Hlen. unfold received in *. cbn [fcr set_lsr] in *. rewrite has_fe in *. rewrite Em in *.
    split; [split; [done|done|]; unfold fifo_mode; cbn; by rewrite Em|]. unfold unread, fifo_mode, data_ready. cbn. rewrite Em, testbit_set, orb_true_r.
    destruct bs as [|b [|]]; [done| |cbn [length] in Hlen; destruct (Z.testbit (lsr s) 0); lia]. cbn [length] in Hlen. destruct (Z.testbit (lsr s) 0); [lia|done].
Qed.

Lemma clear_dr_ready x : Z.testbit (clear_bits x (Z.lor UART_LSR_DR UART_LSR_BI)) 0 = false.
Proof. by rewrite testbit_clear, andb_false_r. Qed.

(** What [read_rbr] leaves, up to what [accept] changes. *)
Lemma read_fifo_step e s : fifo_mode s = true -> fifo_watched s ->
  let v := if count (recv_fifo s) =? 0 then 0 else front (recv_fifo s) in
  fifo_watched (read_fifo e s) /\ (if data_ready s then [v] else []) ++ holds (recv_fifo (read_fifo e s)) = holds (recv_fifo s).
Proof.
  intros Em (Hw & Hi & Hd & Ht). cbv zeta. pose proof (fo_count _ (fw_ok _ Hw)) as Hc. rewrite Hd. unfold read_fifo, fifo_watched, data_ready. destruct (Z.eqb_spec (count (recv_fifo s)) 0) as [E0|Hne].
  - rewrite (proj2 (Z.eqb_eq _ 0) E0). cbn. rewrite clear_dr_ready, (proj2 (Z.eqb_eq _ 0) E0). done.
  - destruct (popped_holds _ Hw Hne) as [Hw1 Hh]. destruct (Z.eqb_spec (count (popped (recv_fifo s))) 0) as [E1|Hne1].
    + cbn. rewrite clear_dr_ready, Hh. cbn in E1. rewrite E1. done.
    + cbn. rewrite Hh. cbn in Hne1. rewrite (proj2 (Z.eqb_neq _ 0) Hne1). unfold data_ready in Hd. rewrite Hd. split_and!; try done; try lia. by right.
Qed.

Lemma accept_view s : recv_view (accept s) = recv_view s.
Proof. unfold accept. by if_case. Qed.

Lemma read_step e s v s' : recv_ok s -> read_rbr e s = Ret (v, s') -> recv_ok s' /\ (if data_ready s then [v] else []) ++ unread s' = unread s.
Proof.
  intros [Ho Hl Hf] E. destruct (read_rbr_spec e s Ho) as (v1 & s1 & E1 & _ & Ho1 & L1 & L2 & _). rewrite E in E1. apply Ret_inj in E1 as [= <- <-].
  rewrite read_rbr_eq in E by apply Ho. apply Ret_inj in E as [= Ev Es]. assert (loop s' = false) as Hl1 by (unfold loop; by rewrite L2).
  set (s2 := if has _ _ then _ else _) in Es. assert (recv_view s' = recv_view s2) as Hv by (rewrite <- Es; exact (accept_view (serial_update_irq s2))).
  unfold recv_view in Hv. injection Hv as E1 E2 E3 E4 E5 E6. subst s2. rewrite has_fe in *. fold (fifo_mode s) in *.
  unfold unread. unfold fifo_mode, data_ready, fifo_watched in *. destruct (Z.testbit (fcr s) 0) eqn:Em.
  - assert (Z.testbit (fcr s') 0 = true) as Em' by (rewrite E1; unfold read_fifo; repeat if_case; done).
    destruct (read_fifo_step e s Em (Hf eq_refl)) as [Hw Hh]. rewrite Em', E2, <- Ev. split; [|exact Hh]. split; [done|done|]. intros _.
    unfold fifo_watched, data_ready in *. by rewrite E2, E4, E5, E6.
  - assert (Z.testbit (fcr s') 0 = false) as Em' by (by rewrite E1). rewrite Em', E4, E3. cbn [read_holding lsr set_lsr rbr]. rewrite clear_dr_ready. split.
    + split; [done|done|]. unfold fifo_mode. by rewrite Em'.
    + rewrite <- Ev. by destruct (Z.testbit (lsr s) 0).
Qed.

Lemma timeout_step s : recv_ok s -> recv_ok (fifo_timeout_int (set_fifo_timeout_timer s None)) /\ unread (fifo_timeout_int (set_fifo_timeout_timer s None)) = unread s.
Proof.
  intros [Ho Hl Hf]. assert (serial_ok (set_fifo_timeout_timer s None)) as Ho1.
  { destruct Ho as [H R C]. split; [regs|by apply (ready_frame s)|by apply (coherent_frame s)]. }
  destruct (timeout_spec _ Ho1) as [Ho2 (L1 & L2 & _)]. unfold fifo_timeout_int in *. cbn [recv_fifo set_fifo_timeout_timer] in *.
  destruct (Z.eqb_spec (count (recv_fifo s)) 0) as [E0|Hne]; cbn [negb] in *; (split; [|done]); (split; [done|done|]); intros Hm; destruct (Hf Hm) as (Hw & Hi & Hd & Ht);
    (split; [done|]); (split; [done|]); (split; [done|]); cbn; [done|by left].
Qed.

Lemma step_receives e ev s r s' : recv_ok s -> valid ev -> quiet s ev -> serial_step e ev s = Ret (r, s') ->
  recv_ok s' /\ taken s ev r ++ unread s' = unread s ++ delivered ev.
Proof.
  intros Hk Hv Hq E. pose proof Hk as [Ho Hl Hf].  destruct ev as [addr v|addr|bs|n| | | |]; cbn [serial_step delivered taken] in *.
  - destruct Hq as [Hq1 Hq2]. destruct (write_goes e s addr v Ho Hv) as (s1 & E1 & (Ho1 & El & _) & Hr). rewrite E1 in E. apply Ret_inj in E as [= <- <-].
    rewrite app_nil_r. cbn [app]. apply recv_same; auto. unfold line, line_step in El. cbn [fst snd] in El.
    destruct (Z.eqb_spec (Z.land addr 7) 0); [by injection El as _ ->|]. destruct (Z.eqb_spec (Z.land addr 7) 3); [by injection El as _ ->|].
    destruct (Z.eqb_spec (Z.land addr 7) 4) as [E4|]; [injection El as _ ->; auto|by injection El as _ ->].
  - rewrite app_nil_r. destruct (read_goes e s addr Ho) as (v & s1 & E1 & _ & (Ho1 & El & _) & Hr). rewrite E1 in E. apply Ret_inj in E as [= <- <-].
    injection El as _ El. destruct (Z.eqb_spec (Z.land addr 7) 0) as [Ea|Ha]; cbn [andb]; [|apply recv_same; auto; by rewrite El].
    destruct (dlab s) eqn:Ed; cbn [negb andb]; [apply recv_same; auto; by rewrite El|]. apply (read_step e); [done|]. unfold serial_ioport_read in E1.
    rewrite Ea, has_dlab in E1. unfold dlab in Ed. by rewrite Ed in E1.
  - destruct Hv as [Hne Hb]. apply obind_ret_inv in E as (s1 & E & [= <- <-]%Ret_inj). by apply (receive_step e).
  - rewrite app_nil_r. unfold serial_event in E. rewrite (proj2 (Z.eqb_neq _ _)) in E by done. by apply Ret_inj in E as [= <- <-].
  - rewrite app_nil_r. apply Ret_inj in E as [= <- <-]. if_case; [by apply timeout_step|done].
  - rewrite app_nil_r. apply Ret_inj in E as [= <- <-]. if_case; [|done]. destruct (step_goes e ModemTimer s Ho I) as (r & s1 & E1 & _ & Ho1 & El & _). cbn [serial_step] in E1.
    rewrite E in E1. apply Ret_inj in E1 as [= <- <-]. injection El as _ El. apply recv_same; auto; [by rewrite El|].
    destruct (update_msl_spec e (set_modem_status_poll s None)) as (_ & _ & _ & _ & _ & Hr); [destruct Ho as [H _ _]; regs|]. exact Hr.
  - rewrite app_nil_r. rewrite (ro_timer _ (so_regs _ Ho)) in E. by apply Ret_inj in E as [= <- <-].
  - done.
Qed.

(** ** What the guest is told *)
Lemma rdi_pending s : Z.testbit (ier s) 0 = true ->
  timeout_ipending s <> 0 \/ data_ready s = true /\ (fifo_mode s = false \/ itl (recv_fifo s) <= count (recv_fifo s)) -> pending_iir s <> UART_IIR_NO_INT.
Proof.
  intros Hr H. unfold pending_iir. change UART_IER_RDI with (2 ^ 0). rewrite (has_bit (ier s) 0), Hr, has_dr, has_fe by lia. fold (data_ready s). fold (fifo_mode s).
  if_case; [done|]. destruct (Z.eqb_spec (timeout_ipending s) 0) as [E0|]; cbn [negb andb]; [|done].
  destruct H as [?|(-> & [-> | Hi])]; [done|done|]. rewrite (proj2 (Z.leb_le _ _) Hi), orb_true_r. done.
Qed.

(** A byte that was not read interrupts the guest, if it wants that, or will do so when the
    timeout for a short FIFO is over. *)
Lemma guest_told s : recv_ok s -> Z.testbit (ier s) 0 = true -> unread s <> [] ->
  irq s = 1 \/ fifo_mode s = true /\ Z.of_nat (length (unread s)) < itl (recv_fifo s) /\ fifo_timeout_timer s <> None.
Proof.
  intros [[_ _ C] _ Hf] Hr Hne. assert (pending_iir s <> UART_IIR_NO_INT -> irq s = 1) as Hirq.
  { intros H. rewrite (co_irq _ C). by rewrite (proj2 (Z.eqb_neq _ _) H). }
  unfold unread in *. destruct (fifo_mode s) eqn:Em.
  - destruct (Hf eq_refl) as (Hw & Hi & Hd & Ht). pose proof (length_holds _ Hw) as Hlen. assert (count (recv_fifo s) <> 0) as Hc.
    { intros E. apply Hne. destruct (holds (recv_fifo s)); [done|cbn [length] in Hlen; lia]. }
    rewrite Hlen. destruct (decide (itl (recv_fifo s) <= count (recv_fifo s))) as [Hge|Hlt].
    + left. apply Hirq, rdi_pending; [done|]. right. rewrite Hd, (proj2 (Z.eqb_neq _ _) Hc). auto.
    + destruct (Ht Hc) as [Hp|Ha]; [left; apply Hirq, rdi_pending; auto|]. right. split_and!; [done|lia|done].
  - left. apply Hirq, rdi_pending; [done|]. right. split; [|by left]. by destruct (data_ready s).
Qed.

(** ** Sessions *)
(** The bytes delivered and those the guest took from the receiver, over a sequence of quiet
    events. *)
Inductive receives : SerialState -> list Z -> list Z -> SerialState -> Prop :=
| rc_done s : receives s [] [] s
| rc_step s e ev r s1 ds ts s2 : valid ev -> quiet s ev -> serial_step e ev s = Ret (r, s1) -> receives s1 ds ts s2 ->
    receives s (delivered ev ++ ds) (taken s ev r ++ ts) s2.

Lemma receives_spec s ds ts s' : recv_ok s -> receives s ds ts s' -> recv_ok s' /\ ts ++ unread s' = unread s ++ ds.
Proof.
  intros Hk H. induction H as [s|s e ev r s1 ds ts s2 Hv Hq E _ IH]; [by rewrite app_nil_r|]. destruct (step_receives e ev s r s1 Hk Hv Hq E) as [Hk1 Hs].
  destruct (IH Hk1) as [Hk2 Hs2]. split; [done|]. by rewrite <- app_assoc, Hs2, app_assoc, Hs, <- app_assoc.
Qed.

(** The first write to the FIFO control register selects the mode. *)
Lemma fcr_fifo s v : fcr s = 0 -> fifo_mode (write_fcr s v) = true -> exists n, 1 <= n <= 14 /\ recv_fifo (write_fcr s v) = mkFifo (repeat 0 16) 0 n 0 0.
Proof.
  intros Hc. unfold fifo_mode, write_fcr. rewrite !Hc. if_case; [by rewrite Hc|]. rewrite Z.lxor_0_r, !has_fe, Z.land_spec, andb_true_r. cbn [fcr serial_update_irq set_irq set_iir set_fcr].
  rewrite Z.land_spec, andb_true_r. destruct (Z.testbit v 0) eqn:E0; [intros _|by rewrite Z.land_spec, E0].
  set (v1 := Z.lor _ (Z.lor _ _)). assert (has v1 UART_FCR_RFR = true) as -> by (subst v1; change UART_FCR_RFR with (2 ^ 1); rewrite has_bit, Z.lor_spec by lia; apply orb_true_r).
  assert (Z.testbit v1 0 = true) as -> by (subst v1; by rewrite Z.lor_spec, Z.land_spec, E0). exists (trigger_level v1). split; [|by if_case].
  unfold trigger_level. clear. repeat if_case; lia.
Qed.

Lemma fcr_frame s v : let t := write_fcr s v in
  lsr t = lsr s /\ divider t = divider s /\ ier t = ier s /\ lcr t = lcr s /\ mcr t = mcr s /\ msr t = msr s /\ scr t = scr s.
Proof. unfold write_fcr. cbv zeta. repeat if_case; done. Qed.

Lemma enabled_recv s v : serial_ok s -> loop s = false -> fcr s = 0 -> data_ready s = false -> recv_ok (write_fcr s v) /\ unread (write_fcr s v) = [].
Proof.
  intros Hok Hl Hc Hd. destruct (write_fcr_spec s v Hok) as [Ho (_ & L & _)]. pose proof (fcr_fifo s v Hc) as Hm.
  assert (data_ready (write_fcr s v) = false) as Hd1 by (unfold data_ready; by rewrite (proj1 (fcr_frame s v))). split.
  - split; [done|unfold loop; by rewrite L|]. intros H. destruct (Hm H) as (n & Hn & Ef). unfold fifo_watched. rewrite Ef, Hd1.
    split; [split; [apply cleared_ok|done|done]|]. by split.
  - unfold unread. rewrite Hd1. destruct (fifo_mode _); [|done]. destruct (Hm eq_refl) as (n & _ & ->). done.
Qed.

(** C30. The guest reads what arrives: once the guest has selected the mode of the receiver,
    with any trigger level or without FIFOs, as long as the character device delivers no
    more bytes at a time than [serial_can_receive] offers (nothing checks this: [fifo_put]
    overwrites), the guest does not write the FIFO control register again, does not go to
    loopback mode and does not reset the device, and no break arrives, every event returns;
    what the guest takes from the receiver followed by what it has not read yet are the bytes
    delivered, none lost, repeated or reordered; the status register says whether something
    is left; what is left never exceeds the FIFO; and if receiver interrupts are enabled, an
    interrupt is pending while something is left, or less than the trigger level is and the
    timeout is armed.  A read with nothing left takes nothing. *)
Theorem serial_receives e v ds ts s : is_byte v -> receives (write_fcr (started e) v) ds ts s ->
  ts ++ unread s = ds /\ data_ready s = bool_decide (unread s <> []) /\ (length (unread s) <= 16)%nat /\
  (Z.testbit (ier s) 0 = true -> unread s <> [] ->
     irq s = 1 \/ fifo_mode s = true /\ Z.of_nat (length (unread s)) < itl (recv_fifo s) /\ fifo_timeout_timer s <> None) /\
  forall e' ev, valid ev -> exists r s', serial_step e' ev s = Ret (r, s').
Proof.
  intros Hv H. destruct (enabled_recv (started e) v (started_ok e) eq_refl eq_refl eq_refl) as [Hk0 E0]. destruct (receives_spec _ ds ts s Hk0 H) as [Hk Hs]. rewrite E0 in Hs. split; [done|].
  pose proof (guest_told s Hk) as Ht. destruct Hk as [Ho Hl Hf].
  assert (data_ready s = bool_decide (unread s <> []) /\ (length (unread s) <= 16)%nat) as [Hd Hlen].
  { unfold unread in *. destruct (fifo_mode s).
    - destruct (Hf eq_refl) as (Hw & Hi & Hd & _). pose proof (length_holds _ Hw) as Hc. pose proof (fw_count _ Hw). split; [|lia]. rewrite Hd.
      destruct (holds (recv_fifo s)); cbn [length] in Hc; [by rewrite <- Hc|]. rewrite (proj2 (Z.eqb_neq _ _)) by lia. by rewrite bool_decide_eq_true_2.
    - destruct (data_ready s); cbn; split; try done; lia. }
  split_and!; [done|done|exact Ht|]. intros e' ev Hev. destruct (step_goes e' ev s Ho Hev) as (r & s' & E & _). eauto.
Qed.

(** Three bytes arrive at a FIFO that interrupts at four; the timeout tells the guest, which
    reads two of them. *)
Definition inbox : list (env * event) :=
  map (fun x => (env_at (fst x), snd x)) [(1, Out 1 1); (2, Receive [65; 66; 67]); (5, FifoTimer); (20000000, FifoTimer); (20000001, In 2); (20000002, In 0); (20000003, In 0)].

Fixpoint took (es : list (env * event)) (s : SerialState) : option (list Z * list Z * SerialState) :=
  match es with
  | [] => Some ([], [], s)
  | (e, ev) :: es =>
      match serial_step e ev s with
      | Ret (r, s1) => match took es s1 with Some (ds, ts, s2) => Some (delivered ev ++ ds, taken s ev r ++ ts, s2) | None => None end
      | _ => None
      end
  end.

Lemma rc_next s e ev r s1 ds ts s2 ds' ts' : valid ev -> quiet s ev -> serial_step e ev s = Ret (r, s1) -> ds' = delivered ev ++ ds -> ts' = taken s ev r ++ ts ->
  receives s1 ds ts s2 -> receives s ds' ts' s2.
Proof. intros ? ? ? -> ->. by apply (rc_step s e ev r s1). Qed.

Lemma inbox_valid : valid (Receive [65; 66; 67]).
Proof. split; [done|]. repeat constructor; done. Qed.

Lemma serial_receives_witness : exists s, unread s = [67] /\ [65; 66] ++ unread s = [65; 66; 67] /\ data_ready s = true.
Proof.
  destruct (took inbox (write_fcr (started (env_at 0)) 0x41)) as [[[ds ts] s]|] eqn:E; [|by vm_compute in E].
  assert (ds = [65; 66; 67] /\ ts = [65; 66] /\ unread s = [67] /\ data_ready s = true) as (-> & -> & Eu & Ed) by (vm_compute in E; injection E as <- <- <-; vm_compute; auto).
  exists s. split; [exact Eu|]. split; [|exact Ed]. refine (proj1 (serial_receives (env_at 0) 0x41 [65; 66; 67] [65; 66] s ltac:(unfold is_byte; lia) _)).
  vm_compute in E. injection E as <-.
  eapply (rc_next _ (env_at 1) (Out 1 1) None _ [65; 66; 67] [65; 66]); [by vm_compute|by vm_compute|vm_compute; reflexivity|reflexivity|reflexivity|].
  eapply (rc_next _ (env_at 2) (Receive [65; 66; 67]) None _ [] [65; 66]); [exact inbox_valid|by vm_compute|vm_compute; reflexivity|reflexivity|reflexivity|].
  eapply (rc_next _ (env_at 5) FifoTimer None _ [] [65; 66]); [done|done|vm_compute; reflexivity|reflexivity|reflexivity|].
  eapply (rc_next _ (env_at 20000000) FifoTimer None _ [] [65; 66]); [done|done|vm_compute; reflexivity|reflexivity|reflexivity|].
  eapply (rc_next _ (env_at 20000001) (In 2) (Some 0xCC) _ [] [65; 66]); [done|done|vm_compute; reflexivity|reflexivity|reflexivity|].
  eapply (rc_next _ (env_at 20000002) (In 0) (Some 65) _ [] [66]); [done|done|vm_compute; reflexivity|reflexivity|reflexivity|].
  eapply (rc_next _ (env_at 20000003) (In 0) (Some 66) _ [] []); [done|done|vm_compute; reflexivity|reflexivity|reflexivity|]. apply rc_done.
Defined.
