(* ===== verification/QemuFile.v ===== *)
(** * Buffered files of saved states: the QEMUFile of savevm.c

    A file is a buffer in front of a transport whose handlers, [put_buffer] and
    [get_buffer], are parameters over the state [W] of the transport; a missing handler is
    [None].  [buf] holds the bytes of the buffer that are in use: those put so far when
    writing, those got from the transport when reading.  [abort] is a [Fault].  The class
    [Transport] states what the code relies on: in a good state ([tr_ok], which persists)
    bytes handed over are appended to what was handed over before, and what is got are the
    next bytes of what is left.  Then a file that is written is a list that is appended to,
    and a file that is read is a list that is consumed, whatever the sizes of the pieces. *)

From S2P Require Import Prelude.
From stdpp Require Import list.

Open Scope Z_scope.

Definition IO_BUF_SIZE : Z := 32768.
Definition EAGAIN : Z := 11.
Definition EINVAL : Z := 22.

Record handlers (W : Type) : Type := mkHandlers {
  put_buffer : option (W -> list Z -> Z -> Z * W);
  get_buffer : option (W -> Z -> Z -> Z * list Z * W);
  close : option (W -> Z * W); rate_limit : option (W -> Z);
  set_rate_limit : option (W -> Z -> Z * W); get_rate_limit : option (W -> Z)
}.
Arguments put_buffer {W}. Arguments get_buffer {W}. Arguments close {W}. Arguments rate_limit {W}.
Arguments set_rate_limit {W}. Arguments get_rate_limit {W}.
Arguments mkHandlers {W}.

Record QEMUFile (W : Type) : Type := mkFile {
  ops : handlers W; opaque : W; is_write : bool;
  buf_offset : Z; buf_index : Z; buf_size : Z; buf : list Z; has_error : bool
}.
Arguments mkFile {W}.
Arguments ops {W}. Arguments opaque {W}. Arguments is_write {W}. Arguments buf_offset {W}.
Arguments buf_index {W}. Arguments buf_size {W}. Arguments buf {W}. Arguments has_error {W}.

Abbreviation res A := (outcome Empty_set A).

Section File.
Context {W : Type}.
Implicit Types f : QEMUFile W.

Definition qemu_fopen_ops (w : W) (h : handlers W) : QEMUFile W := mkFile h w false 0 0 0 [] false.

Definition qemu_file_has_error f : bool := has_error f.
Definition qemu_file_set_error f : QEMUFile W :=
  mkFile (ops f) (opaque f) (is_write f) (buf_offset f) (buf_index f) (buf_size f) (buf f) true.

Definition qemu_fflush f : QEMUFile W :=
  match put_buffer (ops f) with
  | None => f
  | Some put =>
      if is_write f && (0 <? buf_index f) then
        let '(len, w) := put (opaque f) (take (Z.to_nat (buf_index f)) (buf f)) (buf_offset f) in
        if 0 <? len then mkFile (ops f) w (is_write f) (buf_offset f + buf_index f) 0 (buf_size f) (buf f) (has_error f)
        else mkFile (ops f) w (is_write f) (buf_offset f) 0 (buf_size f) (buf f) true
      else f
  end.

Definition qemu_fill_buffer f : res (QEMUFile W) :=
  match get_buffer (ops f) with
  | None => Ret f
  | Some get =>
      if is_write f then Fault
      else
        let '(len, bs, w) := get (opaque f) (buf_offset f) IO_BUF_SIZE in
        if 0 <? len then Ret (mkFile (ops f) w (is_write f) (buf_offset f + len) 0 len bs (has_error f))
        else Ret (mkFile (ops f) w (is_write f) (buf_offset f) (buf_index f) (buf_size f) (buf f)
                    (has_error f || negb (len =? - EAGAIN)))
  end.

(** The file is freed: what is left is the transport. *)
Definition qemu_fclose f : Z * W :=
  let f := qemu_fflush f in
  match close (ops f) with Some c => c (opaque f) | None => (0, opaque f) end.

Definition set_opaque f (w : W) : QEMUFile W :=
  mkFile (ops f) w (is_write f) (buf_offset f) (buf_index f) (buf_size f) (buf f) (has_error f).

Definition qemu_file_put_notify f : res (QEMUFile W) :=
  match put_buffer (ops f) with Some put => Ret (set_opaque f (snd (put (opaque f) [] 0))) | None => Fault end.

Definition qemu_ftell f : Z := buf_offset f - buf_size f + buf_index f.

Inductive seek_from : Type := SEEK_SET | SEEK_CUR | SEEK_END.
Definition qemu_fseek f (pos : Z) (whence : seek_from) : Z * QEMUFile W :=
  let pos := match whence with SEEK_SET => Some pos | SEEK_CUR => Some (pos + qemu_ftell f) | SEEK_END => None end in
  match pos with
  | None => (-1, f)
  | Some pos =>
      match put_buffer (ops f) with
      | Some _ => let f := qemu_fflush f in (pos, mkFile (ops f) (opaque f) (is_write f) pos (buf_index f) (buf_size f) (buf f) (has_error f))
      | None => (pos, mkFile (ops f) (opaque f) (is_write f) pos 0 0 (buf f) (has_error f))
      end
  end.

Definition qemu_file_rate_limit f : Z := match rate_limit (ops f) with Some h => h (opaque f) | None => 0 end.
Definition qemu_file_get_rate_limit f : Z := match get_rate_limit (ops f) with Some h => h (opaque f) | None => 0 end.
Definition qemu_file_set_rate_limit (f : option (QEMUFile W)) (new_rate : Z) : Z * option (QEMUFile W) :=
  match f with
  | None => (0, None)
  | Some f => match set_rate_limit (ops f) with Some h => let '(r, w) := h (opaque f) new_rate in (r, Some (set_opaque f w)) | None => (0, Some f) end
  end.

(** ** Writing *)
(** Writing is refused while bytes that were read are in the buffer. *)
Definition write_refused f : bool := negb (has_error f) && negb (is_write f) && (0 <? buf_index f).

(** [memcpy] of the bytes to the position in the buffer, inside of it. *)
Definition buf_append f (bs : list Z) : res (QEMUFile W) :=
  if IO_BUF_SIZE <? buf_index f + Z.of_nat (length bs) then Fault
  else Ret (mkFile (ops f) (opaque f) true (buf_offset f) (buf_index f + Z.of_nat (length bs)) (buf_size f)
              (take (Z.to_nat (buf_index f)) (buf f) ++ bs) (has_error f)).

Fixpoint put_loop (fuel : nat) f (bs : list Z) : res (QEMUFile W) :=
  if negb (has_error f) && (0 <? Z.of_nat (length bs)) then
    match fuel with
    | O => Fault
    | S fuel =>
        let l := Z.min (IO_BUF_SIZE - buf_index f) (Z.of_nat (length bs)) in
        if l <? 0 then Fault
        else
          let! f := buf_append f (take (Z.to_nat l) bs) in
          let f := if IO_BUF_SIZE <=? buf_index f then qemu_fflush f else f in
          put_loop fuel f (drop (Z.to_nat l) bs)
    end
  else Ret f.

(** The buffer is flushed when it is full, so a round of the loop copies at least one byte. *)
Definition qemu_put_buffer f (bs : list Z) : res (QEMUFile W) :=
  if write_refused f then Fault else put_loop (length bs) f bs.

Definition qemu_put_byte f (v : Z) : res (QEMUFile W) :=
  if write_refused f then Fault
  else
    let! f := buf_append f [u8 v] in
    Ret (if IO_BUF_SIZE <=? buf_index f then qemu_fflush f else f).

Definition qemu_put_be16 f (v : Z) : res (QEMUFile W) :=
  let! f := qemu_put_byte f (Z.shiftr v 8) in qemu_put_byte f v.
Definition qemu_put_be32 f (v : Z) : res (QEMUFile W) :=
  let! f := qemu_put_byte f (Z.shiftr v 24) in
  let! f := qemu_put_byte f (Z.shiftr v 16) in
  let! f := qemu_put_byte f (Z.shiftr v 8) in
  qemu_put_byte f v.
Definition qemu_put_be64 f (v : Z) : res (QEMUFile W) :=
  let! f := qemu_put_be32 f (u32 (Z.shiftr v 32)) in qemu_put_be32 f (u32 v).

(** ** Reading *)
Definition qemu_get_byte f : res (Z * QEMUFile W) :=
  if is_write f then Fault
  else
    let! f := (if buf_size f <=? buf_index f then qemu_fill_buffer f else Ret f) in
    if buf_size f <=? buf_index f then Ret (0, f)
    else
      let! v := oget (buf f !! Z.to_nat (buf_index f)) in
      Ret (v, mkFile (ops f) (opaque f) (is_write f) (buf_offset f) (buf_index f + 1) (buf_size f) (buf f) (has_error f)).

(** The loop of [qemu_get_buffer]: the bytes copied from here on. *)
Fixpoint get_loop (fuel : nat) f (size : Z) : res (list Z * QEMUFile W) :=
  match fuel with
  | O => Ret ([], f)
  | S fuel =>
      if 0 <? size then
        let! f := (if buf_size f - buf_index f =? 0 then qemu_fill_buffer f else Ret f) in
        let l := buf_size f - buf_index f in
        if l =? 0 then Ret ([], f)
        else
          let l := Z.min l size in
          let! bs := oget (load (buf f) (buf_index f) l) in
          let f := mkFile (ops f) (opaque f) (is_write f) (buf_offset f) (buf_index f + l) (buf_size f) (buf f) (has_error f) in
          let! '(more, f) := get_loop fuel f (size - l) in
          Ret (bs ++ more, f)
      else Ret ([], f)
  end.

(** A round copies at least one byte. *)
Definition qemu_get_buffer f (size : Z) : res (list Z * QEMUFile W) :=
  if is_write f then Fault else get_loop (Z.to_nat size) f size.

Definition qemu_get_be16 f : res (Z * QEMUFile W) :=
  let! '(a, f) := qemu_get_byte f in
  let! '(b, f) := qemu_get_byte f in
  Ret (Z.lor (u32 (Z.shiftl a 8)) b, f).
Definition qemu_get_be32 f : res (Z * QEMUFile W) :=
  let! '(a, f) := qemu_get_byte f in
  let! '(b, f) := qemu_get_byte f in
  let! '(c, f) := qemu_get_byte f in
  let! '(d, f) := qemu_get_byte f in
  Ret (Z.lor (Z.lor (Z.lor (u32 (Z.shiftl a 24)) (Z.shiftl b 16)) (Z.shiftl c 8)) d, f).
Definition qemu_get_be64 f : res (Z * QEMUFile W) :=
  let! '(a, f) := qemu_get_be32 f in
  let! '(b, f) := qemu_get_be32 f in
  Ret (Z.lor (u64 (Z.shiftl a 32)) b, f).
End File.

(** ** What the transport promises *)
Class Transport {W : Type} (h : handlers W) : Type := {
  tr_ok : W -> Prop;
  sunk : W -> list Z;
  left : W -> list Z;
  put_law : forall put w bs pos, put_buffer h = Some put -> tr_ok w -> bs <> [] ->
    exists len w', put w bs pos = (len, w') /\ tr_ok w' /\ 0 < len /\ sunk w' = sunk w ++ bs;
  get_law : forall get w pos size, get_buffer h = Some get -> tr_ok w -> 0 < size -> left w <> [] ->
    exists len bs w', get w pos size = (len, bs, w') /\ tr_ok w' /\ 0 < len <= size /\ Z.of_nat (length bs) = len /\
      left w = bs ++ left w'
}.

Section Streams.
Context {W : Type} {h : handlers W} {T : Transport h}.
Implicit Types f : QEMUFile W.

(** A file to which exactly the bytes [l] have been written. *)
Record written f (l : list Z) : Prop := {
  wr_ops : ops f = h; wr_dev : tr_ok (opaque f); wr_put : put_buffer h <> None; wr_ok : has_error f = false;
  wr_mode : is_write f = true \/ buf_index f = 0;
  wr_index : 0 <= buf_index f < IO_BUF_SIZE; wr_buf : buf_index f <= Z.of_nat (length (buf f));
  wr_bytes : l = sunk (opaque f) ++ take (Z.to_nat (buf_index f)) (buf f)
}.

Lemma written_accepts f l : written f l -> write_refused f = false.
Proof.
  intros [_ _ _ Hok Hm _ _ _]. unfold write_refused. rewrite Hok. destruct Hm as [-> | ->]; [done|]. by rewrite andb_false_r.
Qed.

Lemma append_written f l bs : written f l -> bs <> [] -> buf_index f + Z.of_nat (length bs) <= IO_BUF_SIZE ->
  exists f1, buf_append f bs = Ret f1 /\ written (if IO_BUF_SIZE <=? buf_index f1 then qemu_fflush f1 else f1) (l ++ bs).
Proof.
  intros [Ho Hd Hp Hok Hm Hi Hb Hl] Hne Hfit. unfold buf_append. rewrite (proj2 (Z.ltb_ge _ _)) by lia. eexists. split; [done|].
  cbn [buf_index]. assert (length (take (Z.to_nat (buf_index f)) (buf f)) = Z.to_nat (buf_index f)) as Ht by (rewrite length_take; lia).
  assert (0 < length bs)%nat by (destruct bs; [done|cbn; lia]).
  destruct (Z.leb_spec IO_BUF_SIZE (buf_index f + Z.of_nat (length bs))) as [Hfull|Hroom].
  - unfold qemu_fflush. cbn [ops is_write buf_index opaque buf buf_offset buf_size has_error]. rewrite Ho.
    destruct (put_buffer h) as [put|] eqn:Eput; [|done]. cbn [andb]. rewrite (proj2 (Z.ltb_lt 0 _)) by lia.
    set (all := take (Z.to_nat (buf_index f)) (buf f) ++ bs).
    rewrite take_ge by (unfold all; rewrite length_app, Ht; lia).
    destruct (put_law put (opaque f) all (buf_offset f) Eput Hd) as (len & w' & -> & Hd' & Hlen & Hs); [unfold all; by destruct (take _ _)|].
    rewrite (proj2 (Z.ltb_lt 0 len)) by lia. split; cbn [ops is_write buf_index opaque buf has_error]; try done; try (by rewrite Eput); try (by left); try (unfold IO_BUF_SIZE; lia).
    rewrite Hl, Hs. cbn [take Z.to_nat]. by rewrite app_nil_r, <- app_assoc.
  - split; cbn [ops is_write buf_index opaque buf has_error]; try done; [by left|lia|rewrite length_app, Ht; lia|].
    rewrite Hl, <- app_assoc. f_equal. symmetry. apply take_ge. rewrite length_app, Ht. lia.
Qed.

Lemma put_byte_spec f l v : written f l -> exists f', qemu_put_byte f v = Ret f' /\ written f' (l ++ [u8 v]).
Proof.
  intros Hw. unfold qemu_put_byte. rewrite (written_accepts f l Hw).
  destruct (append_written f l [u8 v] Hw) as (f1 & -> & Hw1); [done|pose proof (wr_index f l Hw); cbn; lia|]. cbn [obind]. eauto.
Qed.

Lemma put_loop_spec n : forall f l bs, written f l -> (length bs <= n)%nat -> exists f', put_loop n f bs = Ret f' /\ written f' (l ++ bs).
Proof.
  induction n as [|n IH]; intros f l bs Hw Hn.
  { destruct bs; [|cbn in Hn; lia]. exists f. rewrite app_nil_r. split; [|done]. cbn. by rewrite andb_false_r. }
  destruct bs as [|b bs]; [exists f; rewrite app_nil_r; split; [|done]; cbn; by rewrite andb_false_r|].
  cbn [put_loop]. pose proof Hw as [_ _ _ Hok _ Hi _ _]. rewrite Hok. cbn [negb andb].
  rewrite (proj2 (Z.ltb_lt 0 (Z.of_nat (length (b :: bs))))) by (cbn; lia).
  set (k := Z.min (IO_BUF_SIZE - buf_index f) (Z.of_nat (length (b :: bs)))).
  assert (1 <= k <= Z.of_nat (length (b :: bs))) as Hk by (unfold k; cbn [length]; lia).
  rewrite (proj2 (Z.ltb_ge k 0)) by lia.
  assert (length (take (Z.to_nat k) (b :: bs)) = Z.to_nat k) as Ht by (rewrite length_take; lia).
  destruct (append_written f l (take (Z.to_nat k) (b :: bs)) Hw) as (f1 & -> & Hw1); [intros E; rewrite E in Ht; cbn in Ht; lia|unfold k in *; lia|].
  cbn [obind]. destruct (IH _ _ (drop (Z.to_nat k) (b :: bs)) Hw1) as (f' & -> & Hw'); [rewrite length_drop; lia|].
  exists f'. split; [done|]. by rewrite <- app_assoc, take_drop in Hw'.
Qed.

Lemma put_buffer_spec f l bs : written f l -> exists f', qemu_put_buffer f bs = Ret f' /\ written f' (l ++ bs).
Proof. intros Hw. unfold qemu_put_buffer. rewrite (written_accepts f l Hw). by apply put_loop_spec. Qed.

(** After a flush everything is in the transport. *)
Lemma fflush_written f l : written f l -> written (qemu_fflush f) l /\ sunk (opaque (qemu_fflush f)) = l.
Proof.
  intros Hw. pose proof Hw as [Ho Hd Hp Hok Hm Hi Hb Hl]. unfold qemu_fflush. rewrite Ho. destruct (put_buffer h) as [put|] eqn:Eput; [|done].
  destruct (Z.ltb_spec 0 (buf_index f)) as [Hpos|Hz].
  - destruct Hm as [Hm|?]; [|lia]. rewrite Hm. cbn [andb].
    destruct (put_law put (opaque f) (take (Z.to_nat (buf_index f)) (buf f)) (buf_offset f) Eput Hd) as (len & w' & -> & Hd' & Hlen & Hs).
    { intros E. apply (f_equal length) in E. rewrite length_take in E. cbn in E. lia. }
    rewrite (proj2 (Z.ltb_lt 0 len)) by lia. cbn [opaque]. split; [|by rewrite Hs, Hl].
    split; cbn [ops is_write buf_index opaque buf has_error]; try done; [by rewrite Eput|by left|lia|]. cbn. by rewrite Hs, Hl, app_nil_r.
  - rewrite andb_false_r. split; [done|]. replace (buf_index f) with 0 in Hl by lia. cbn in Hl. by rewrite app_nil_r in Hl.
Qed.

Lemma fflush_spec f l : written f l -> sunk (opaque (qemu_fflush f)) = l /\ has_error (qemu_fflush f) = false.
Proof. intros [Hw Hs]%fflush_written. split; [done|]. apply (wr_ok _ _ Hw). Qed.

Lemma set_opaque_written f l w : written f l -> tr_ok w -> sunk w = sunk (opaque f) -> written (set_opaque f w) l.
Proof. intros [] Hw Hs. split; try done. cbn. by rewrite Hs. Qed.

Lemma fopen_written w : put_buffer h <> None -> tr_ok w -> written (qemu_fopen_ops w h) (sunk w).
Proof. intros Hp Hd. split; cbn; try done; [by right|by rewrite app_nil_r]. Qed.

(** A file from which the bytes [l] are still to be read. *)
Record pending f (l : list Z) : Prop := {
  pn_ops : ops f = h; pn_dev : tr_ok (opaque f); pn_get : get_buffer h <> None; pn_ok : has_error f = false; pn_mode : is_write f = false;
  pn_index : 0 <= buf_index f <= buf_size f; pn_buf : Z.of_nat (length (buf f)) = buf_size f;
  pn_bytes : l = drop (Z.to_nat (buf_index f)) (buf f) ++ left (opaque f)
}.

Lemma fopen_pending w : get_buffer h <> None -> tr_ok w -> pending (qemu_fopen_ops w h) (left w).
Proof. by intros Hg Hd; split. Qed.

Lemma fill_spec f l : pending f l -> buf_index f = buf_size f -> l <> [] ->
  exists f1, qemu_fill_buffer f = Ret f1 /\ pending f1 l /\ buf_index f1 < buf_size f1.
Proof.
  intros [Ho Hd Hg Hok Hm Hi Hb Hl] He Hne. unfold qemu_fill_buffer. rewrite Ho, Hm. destruct (get_buffer h) as [get|] eqn:Eget; [|done].
  rewrite drop_ge in Hl by lia. cbn [app] in Hl.
  destruct (get_law get (opaque f) (buf_offset f) IO_BUF_SIZE Eget Hd) as (len & bs & w' & -> & Hd' & Hlen & Hbs & Hleft); [unfold IO_BUF_SIZE; lia|by rewrite <- Hl|].
  rewrite (proj2 (Z.ltb_lt 0 len)) by lia. eexists. split; [done|]. cbn [buf_index buf_size]. split; [|lia].
  split; cbn [ops is_write buf_index buf_size opaque buf has_error]; try done; [by rewrite Eget|lia|].
  cbn [Z.to_nat drop]. by rewrite Hl, Hleft.
Qed.

Lemma get_byte_spec f v l : pending f (v :: l) -> exists f', qemu_get_byte f = Ret (v, f') /\ pending f' l.
Proof.
  intros Hp. unfold qemu_get_byte. rewrite (pn_mode f _ Hp).
  assert (exists f1, (if buf_size f <=? buf_index f then qemu_fill_buffer f else Ret f) = Ret f1 /\ pending f1 (v :: l) /\ buf_index f1 < buf_size f1)
    as (f1 & -> & [Ho Hd Hg Hok Hm Hi Hb Hl] & Hlt).
  { pose proof (pn_index f _ Hp). destruct (Z.leb_spec (buf_size f) (buf_index f)); [|by exists f]. apply fill_spec; [done|lia|done]. }
  cbn [obind]. rewrite (proj2 (Z.leb_gt _ _)) by lia.
  destruct (lookup_lt_is_Some_2 (buf f1) (Z.to_nat (buf_index f1))) as [x Hx]; [lia|]. rewrite Hx. cbn [oget obind].
  rewrite (drop_S _ x) in Hl by done. cbn [app] in Hl. injection Hl as -> Hl. eexists. split; [done|].
  split; cbn [ops is_write buf_index buf_size opaque buf has_error]; try done; [lia|].
  by replace (Z.to_nat (buf_index f1 + 1)) with (S (Z.to_nat (buf_index f1))) by lia.
Qed.

Lemma get_loop_spec n : forall f bs l, pending f (bs ++ l) -> (length bs <= n)%nat ->
  exists f', get_loop n f (Z.of_nat (length bs)) = Ret (bs, f') /\ pending f' l.
Proof.
  induction n as [|n IH]; intros f bs l Hp Hn; (destruct bs as [|b bs]; [exists f; split; [done|exact Hp]|]); [cbn in Hn; lia|].
  cbn [get_loop]. rewrite (proj2 (Z.ltb_lt 0 (Z.of_nat (length (b :: bs))))) by (cbn; lia).
  assert (exists f1, (if buf_size f - buf_index f =? 0 then qemu_fill_buffer f else Ret f) = Ret f1 /\ pending f1 ((b :: bs) ++ l) /\ buf_index f1 < buf_size f1)
    as (f1 & -> & [Ho Hd Hg Hok Hm Hi Hb Hl] & Hlt).
  { pose proof (pn_index f _ Hp). destruct (Z.eqb_spec (buf_size f - buf_index f) 0); [|exists f; split_and!; [done|done|lia]]. apply fill_spec; [done|lia|done]. }
  cbn [obind]. rewrite (proj2 (Z.eqb_neq _ _)) by lia. set (k := Z.min (buf_size f1 - buf_index f1) (Z.of_nat (length (b :: bs)))).
  assert (1 <= k <= Z.of_nat (length (b :: bs)) /\ k <= buf_size f1 - buf_index f1) as [Hk1 Hk2] by (unfold k; cbn [length]; lia).
  assert (take (Z.to_nat k) (drop (Z.to_nat (buf_index f1)) (buf f1)) = take (Z.to_nat k) (b :: bs)) as Et.
  { apply (f_equal (take (Z.to_nat k))) in Hl. rewrite !take_app_le in Hl by (rewrite ?length_drop; lia). done. }
  rewrite load_ok by lia. cbn [oget obind]. rewrite Et.
  set (f2 := mkFile _ _ _ _ _ _ _ _). assert (pending f2 (drop (Z.to_nat k) (b :: bs) ++ l)) as Hp2.
  { split; cbn [f2 ops is_write buf_index buf_size opaque buf has_error]; try done; [lia|].
    apply (f_equal (drop (Z.to_nat k))) in Hl. rewrite !drop_app_le in Hl by (rewrite ?length_drop; lia). rewrite Hl, drop_drop.
    by replace (Z.to_nat (buf_index f1 + k)) with (Z.to_nat (buf_index f1) + Z.to_nat k)%nat by lia. }
  destruct (IH f2 (drop (Z.to_nat k) (b :: bs)) l Hp2) as (f' & E & Hp'); [rewrite length_drop; lia|].
  rewrite length_drop in E. replace (Z.of_nat (length (b :: bs) - Z.to_nat k)) with (Z.of_nat (length (b :: bs)) - k) in E by lia.
  rewrite E. cbn [obind]. exists f'. split; [|done]. by rewrite take_drop.
Qed.

Lemma get_buffer_spec f bs l : pending f (bs ++ l) -> exists f', qemu_get_buffer f (Z.of_nat (length bs)) = Ret (bs, f') /\ pending f' l.
Proof. intros Hp. unfold qemu_get_buffer. rewrite (pn_mode f _ Hp), Nat2Z.id. by apply get_loop_spec. Qed.
End Streams.

(** ** Big-endian integers *)
Definition be16 (v : Z) : list Z := [u8 (Z.shiftr v 8); u8 v].
Definition be32 (v : Z) : list Z := [u8 (Z.shiftr v 24); u8 (Z.shiftr v 16); u8 (Z.shiftr v 8); u8 v].
Definition be64 (v : Z) : list Z := be32 (u32 (Z.shiftr v 32)) ++ be32 (u32 v).

Lemma lor_low a b k : 0 <= k -> 0 <= b < 2 ^ k -> Z.lor (Z.shiftl a k) b = a * 2 ^ k + b.
Proof.
  intros Hk Hb. rewrite <- Z.add_lor_land, <- (Z.shiftl_mul_pow2 a k) by lia.
  assert (Z.land (Z.shiftl a k) b = 0) as ->; [|lia]. apply Z.bits_inj'. intros i Hi. rewrite Z.land_spec, Z.bits_0.
  destruct (Z.ltb_spec i k); [by rewrite Z.shiftl_spec_low|].
  assert (Z.testbit b i = false) as ->; [|by rewrite andb_false_r].
  rewrite <- (Z.mod_small b (2 ^ k)) by lia. by apply Z.mod_pow2_bits_high.
Qed.

Lemma byte_range x : 0 <= u8 x < 2 ^ 8.
Proof. apply (wrap_range 8). lia. Qed.

(** The low bytes of a number, one by one. *)
Lemma byte_step x k : 0 <= k -> wrap (8 + k) x = wrap 8 x + 2 ^ 8 * wrap k (Z.shiftr x 8).
Proof. intros Hk. unfold wrap. rewrite Z.pow_add_r, Z.shiftr_div_pow2 by lia. apply Z.rem_mul_r; lia. Qed.

Lemma be16_value v : Z.lor (u32 (Z.shiftl (u8 (Z.shiftr v 8)) 8)) (u8 v) = u16 v.
Proof.
  pose proof (byte_range (Z.shiftr v 8)). rewrite (wrap_small 32) by (unfold is_u; rewrite Z.shiftl_mul_pow2 by lia; lia).
  rewrite lor_low by (lia || apply byte_range). pose proof (byte_step v 8 ltac:(lia)) as E. change (8 + 8) with 16 in E. lia.
Qed.

Lemma be32_value v :
  Z.lor (Z.lor (Z.lor (u32 (Z.shiftl (u8 (Z.shiftr v 24)) 24)) (Z.shiftl (u8 (Z.shiftr v 16)) 16)) (Z.shiftl (u8 (Z.shiftr v 8)) 8)) (u8 v) = u32 v.
Proof.
  pose proof (byte_range (Z.shiftr v 24)). pose proof (byte_range (Z.shiftr v 16)). pose proof (byte_range (Z.shiftr v 8)).
  pose proof (byte_range v). rewrite (wrap_small 32) by (unfold is_u; rewrite Z.shiftl_mul_pow2 by lia; lia).
  rewrite <- !Z.lor_assoc, (lor_low (u8 (Z.shiftr v 8))), (lor_low (u8 (Z.shiftr v 16))), lor_low by lia.
  pose proof (byte_step v 24 ltac:(lia)) as E1. pose proof (byte_step (Z.shiftr v 8) 16 ltac:(lia)) as E2.
  pose proof (byte_step (Z.shiftr (Z.shiftr v 8) 8) 8 ltac:(lia)) as E3. rewrite ?Z.shiftr_shiftr in E2, E3 by lia.
  change (8 + 8) with 16 in E3. rewrite ?Z.shiftr_shiftr in E3 by lia.
  change (8 + 24) with 32 in E1. change (8 + 16) with 24 in E2. change (8 + 8) with 16 in *. change (16 + 8) with 24 in *. lia.
Qed.

Lemma be64_value v : Z.lor (u64 (Z.shiftl (u32 (u32 (Z.shiftr v 32))) 32)) (u32 (u32 v)) = u64 v.
Proof.
  rewrite !wrap_wrap. pose proof (wrap_range 32 (Z.shiftr v 32) ltac:(lia)) as H. unfold is_u in H.
  rewrite (wrap_small 64) by (unfold is_u; rewrite Z.shiftl_mul_pow2 by lia; lia).
  rewrite lor_low by (lia || apply (wrap_range 32); lia). unfold wrap. rewrite Z.shiftr_div_pow2 by lia.
  replace (2 ^ 64) with (2 ^ 32 * 2 ^ 32) by reflexivity. rewrite Z.rem_mul_r by lia. lia.
Qed.

Section Integers.
Context {W : Type} {h : handlers W} {T : Transport h}.
Implicit Types f : QEMUFile W.

Lemma put_be16_spec f l v : written f l -> exists f', qemu_put_be16 f v = Ret f' /\ written f' (l ++ be16 v).
Proof.
  intros Hw. unfold qemu_put_be16. destruct (put_byte_spec f l (Z.shiftr v 8) Hw) as (f1 & -> & H1). cbn [obind].
  destruct (put_byte_spec _ _ v H1) as (f2 & -> & H2). exists f2. split; [done|]. by rewrite <- app_assoc in H2.
Qed.

Lemma put_be32_spec f l v : written f l -> exists f', qemu_put_be32 f v = Ret f' /\ written f' (l ++ be32 v).
Proof.
  intros Hw. unfold qemu_put_be32. destruct (put_byte_spec f l (Z.shiftr v 24) Hw) as (f1 & -> & H1). cbn [obind].
  destruct (put_byte_spec _ _ (Z.shiftr v 16) H1) as (f2 & -> & H2). cbn [obind].
  destruct (put_byte_spec _ _ (Z.shiftr v 8) H2) as (f3 & -> & H3). cbn [obind].
  destruct (put_byte_spec _ _ v H3) as (f4 & -> & H4). exists f4. split; [done|]. by rewrite <- !app_assoc in H4.
Qed.

Lemma put_be64_spec f l v : written f l -> exists f', qemu_put_be64 f v = Ret f' /\ written f' (l ++ be64 v).
Proof.
  intros Hw. unfold qemu_put_be64. destruct (put_be32_spec f l (u32 (Z.shiftr v 32)) Hw) as (f1 & -> & H1). cbn [obind].
  destruct (put_be32_spec _ _ (u32 v) H1) as (f2 & -> & H2). exists f2. split; [done|]. by rewrite <- app_assoc in H2.
Qed.

Lemma get_be16_spec f v l : pending f (be16 v ++ l) -> exists f', qemu_get_be16 f = Ret (u16 v, f') /\ pending f' l.
Proof.
  intros Hp. unfold qemu_get_be16. destruct (get_byte_spec _ _ _ Hp) as (f1 & -> & H1). cbn [obind].
  destruct (get_byte_spec _ _ _ H1) as (f2 & -> & H2). cbn [obind]. rewrite be16_value. eauto.
Qed.

Lemma get_be32_spec f v l : pending f (be32 v ++ l) -> exists f', qemu_get_be32 f = Ret (u32 v, f') /\ pending f' l.
Proof.
  intros Hp. unfold qemu_get_be32. destruct (get_byte_spec _ _ _ Hp) as (f1 & -> & H1). cbn [obind].
  destruct (get_byte_spec _ _ _ H1) as (f2 & -> & H2). cbn [obind]. destruct (get_byte_spec _ _ _ H2) as (f3 & -> & H3). cbn [obind].
  destruct (get_byte_spec _ _ _ H3) as (f4 & -> & H4). cbn [obind]. rewrite be32_value. eauto.
Qed.

Lemma get_be64_spec f v l : pending f (be64 v ++ l) -> exists f', qemu_get_be64 f = Ret (u64 v, f') /\ pending f' l.
Proof.
  intros Hp. unfold qemu_get_be64, be64 in *. rewrite <- app_assoc in Hp. destruct (get_be32_spec _ _ _ Hp) as (f1 & -> & H1). cbn [obind].
  destruct (get_be32_spec _ _ _ H1) as (f2 & -> & H2). cbn [obind]. rewrite be64_value. eauto.
Qed.
End Integers.

(** ** A transport in memory *)
Definition mem_file : handlers (list Z) :=
  mkHandlers (Some (fun w bs _ => (Z.of_nat (length bs), w ++ bs)))
    (Some (fun w _ size => let bs := take (Z.to_nat size) w in (Z.of_nat (length bs), bs, drop (Z.to_nat size) w))) None None None None.

#[export] Instance mem_transport : Transport mem_file.
Proof.
  refine {| tr_ok _ := True; sunk w := w; left w := w |}.
  - intros put w bs pos [= <-] _ Hne. exists (Z.of_nat (length bs)), (w ++ bs). split; [done|]. split; [done|]. split; [|done]. destruct bs; [done|cbn; lia].
  - intros get w pos size [= <-] _ Hs Hne. eexists _, _, _. split; [done|]. rewrite take_drop. split_and!; try done.
    + destruct w; [done|]. rewrite length_take. cbn. lia.
    + rewrite length_take. lia.
Defined.

(** A transport that takes two bytes of every block: the rest of what was put is dropped, and
    the file reports no error. *)
Definition short_file : handlers (list Z) := mkHandlers (Some (fun w bs _ => (2, w ++ take 2 bs))) None None None None None.
Lemma short_write_lost :
  exists f, qemu_put_be32 (qemu_fopen_ops [] short_file) 0x01020304 = Ret f /\
    opaque (qemu_fflush f) = [1; 2] /\ has_error (qemu_fflush f) = false /\ buf_index (qemu_fflush f) = 0.
Proof. eexists. split; [vm_compute; reflexivity|]. split_and!; vm_compute; reflexivity. Qed.
