(* ===== verification/VmState.v ===== *)
(** * Saved device state: the vmstate part of savevm.c and hw/hw.h

    A description of a device's state is a list of fields.  Where the source has an offset
    into the device's structure, a field here has the pair of functions that read and write
    its elements ([fa_get] and [fa_set], by index; [None] is an address outside the
    object); arrays whose length or buffers whose size is kept in the structure compute it
    from the state ([fa_num], [fa_size]).  A timer is the time it is armed for.  Hooks are
    functions on the state.  The class [InfoLaw] is what a field's codec promises to the
    functions that walk the description. *)

From S2P Require Import Prelude QemuFile.
From stdpp Require Import list.

Open Scope Z_scope.

(** ** Field codecs *)
Section Infos.
Context {W : Type}.

Record VMStateInfo (A : Type) : Type := mkInfo {
  info_get : QEMUFile W -> A -> Z -> res (Z * A * QEMUFile W);
  info_put : QEMUFile W -> A -> Z -> res (QEMUFile W)
}.

(** The [get] and [put] of the integer types; [f] is the conversion to the field's type. *)
Definition get_scalar (g : QEMUFile W -> res (Z * QEMUFile W)) (c : Z -> Z) (f : QEMUFile W) (pv : Z) (size : Z) : res (Z * Z * QEMUFile W) :=
  let! '(v, f) := g f in Ret (0, c v, f).

Definition s8 (z : Z) : Z := swrap 8 z.
Definition s16 (z : Z) : Z := swrap 16 z.

Definition vmstate_info_int8 : VMStateInfo Z := mkInfo Z (get_scalar qemu_get_byte s8) (fun f v _ => qemu_put_byte f (u8 v)).
Definition vmstate_info_int16 : VMStateInfo Z := mkInfo Z (get_scalar qemu_get_be16 s16) (fun f v _ => qemu_put_be16 f (u16 v)).
Definition vmstate_info_int32 : VMStateInfo Z := mkInfo Z (get_scalar qemu_get_be32 s32) (fun f v _ => qemu_put_be32 f (u32 v)).
Definition vmstate_info_int64 : VMStateInfo Z := mkInfo Z (get_scalar qemu_get_be64 s64) (fun f v _ => qemu_put_be64 f (u64 v)).
Definition vmstate_info_uint8 : VMStateInfo Z := mkInfo Z (get_scalar qemu_get_byte u8) (fun f v _ => qemu_put_byte f v).
Definition vmstate_info_uint16 : VMStateInfo Z := mkInfo Z (get_scalar qemu_get_be16 u16) (fun f v _ => qemu_put_be16 f v).
Definition vmstate_info_uint32 : VMStateInfo Z := mkInfo Z (get_scalar qemu_get_be32 u32) (fun f v _ => qemu_put_be32 f v).
Definition vmstate_info_uint64 : VMStateInfo Z := mkInfo Z (get_scalar qemu_get_be64 u64) (fun f v _ => qemu_put_be64 f v).

(** The received value must be the one in the field, or ([get_int32_le]) not below it; the
    comment above [get_int32_le] says the opposite of the latter. *)
Definition get_checked (g : QEMUFile W -> res (Z * QEMUFile W)) (c : Z -> Z) (ok : Z -> Z -> bool) (f : QEMUFile W) (pv : Z) (size : Z)
    : res (Z * Z * QEMUFile W) :=
  let! '(v, f) := g f in Ret (if ok pv (c v) then 0 else - EINVAL, pv, f).

Definition vmstate_info_int32_equal : VMStateInfo Z := mkInfo Z (get_checked qemu_get_be32 s32 Z.eqb) (fun f v _ => qemu_put_be32 f (u32 v)).
Definition vmstate_info_int32_le : VMStateInfo Z := mkInfo Z (get_checked qemu_get_be32 s32 Z.leb) (fun f v _ => qemu_put_be32 f (u32 v)).
Definition vmstate_info_uint8_equal : VMStateInfo Z := mkInfo Z (get_checked qemu_get_byte u8 Z.eqb) (fun f v _ => qemu_put_byte f v).
Definition vmstate_info_uint16_equal : VMStateInfo Z := mkInfo Z (get_checked qemu_get_be16 u16 Z.eqb) (fun f v _ => qemu_put_be16 f v).

(** Timers: the all-ones time stands for a timer that is not armed. *)
Definition put_timer (f : QEMUFile W) (t : option Z) (size : Z) : res (QEMUFile W) :=
  qemu_put_be64 f (match t with Some expire_time => u64 expire_time | None => u64 (-1) end).
Definition get_timer (f : QEMUFile W) (t : option Z) (size : Z) : res (Z * option Z * QEMUFile W) :=
  let! '(expire_time, f) := qemu_get_be64 f in
  Ret (0, if negb (expire_time =? u64 (-1)) then Some (s64 expire_time) else None, f).
Definition vmstate_info_timer : VMStateInfo (option Z) := mkInfo _ get_timer put_timer.

(** Buffers; a short read leaves the end of the buffer as it was. *)
Definition get_buffer_info (f : QEMUFile W) (v : list Z) (size : Z) : res (Z * list Z * QEMUFile W) :=
  let! '(bs, f) := qemu_get_buffer f size in
  let! v := oget (store v 0 bs) in
  Ret (0, v, f).
Definition put_buffer_info (f : QEMUFile W) (v : list Z) (size : Z) : res (QEMUFile W) :=
  let! bs := oget (load v 0 size) in qemu_put_buffer f bs.
Definition vmstate_info_buffer : VMStateInfo (list Z) := mkInfo _ get_buffer_info put_buffer_info.

(** Space of fields that are gone, in blocks of 1024 bytes. *)
Fixpoint get_unused (fuel : nat) (f : QEMUFile W) (size : Z) : res (QEMUFile W) :=
  match fuel with
  | O => Ret f
  | S fuel =>
      if 0 <? size then
        let block_len := Z.min 1024 size in
        let! '(_, f) := qemu_get_buffer f block_len in
        get_unused fuel f (size - block_len)
      else Ret f
  end.
Fixpoint put_unused (fuel : nat) (f : QEMUFile W) (size : Z) : res (QEMUFile W) :=
  match fuel with
  | O => Ret f
  | S fuel =>
      if 0 <? size then
        let block_len := Z.min 1024 size in
        let! f := qemu_put_buffer f (replicate (Z.to_nat block_len) 0) in
        put_unused fuel f (size - block_len)
      else Ret f
  end.
Definition vmstate_info_unused_buffer : VMStateInfo unit :=
  mkInfo _ (fun f pv size => let! f := get_unused (Z.to_nat size) f size in Ret (0, pv, f)) (fun f _ size => put_unused (Z.to_nat size) f size).

(** What a codec promises: a value [fits] its field; then its bytes are [enc], and reading
    them over an old value that has [room] for them gives [xfer]: the result code and the new value. *)
Class InfoLaw {A : Type} (info : VMStateInfo A) : Type := {
  enc : A -> Z -> list Z;
  fits : A -> Z -> bool;
  room : A -> Z -> bool;
  xfer : A -> A -> Z -> Z * A;
  put_info : forall (h : handlers W) (T : Transport h) (f : QEMUFile W) l a size, written f l -> fits a size = true ->
    exists f', info_put A info f a size = Ret f' /\ written f' (l ++ enc a size);
  get_info : forall (h : handlers W) (T : Transport h) (f : QEMUFile W) l a b size, pending f (enc a size ++ l) ->
    fits a size = true -> room b size = true ->
    exists f', info_get A info f b size = Ret (fst (xfer a b size), snd (xfer a b size), f') /\ pending f' l
}.

(** The integers of the wire, by width. *)
Class Wire (w : Z) (put : QEMUFile W -> Z -> res (QEMUFile W)) (get : QEMUFile W -> res (Z * QEMUFile W)) : Type := {
  wire : Z -> list Z;
  wire_put (h : handlers W) (T : Transport h) f l v : written f l -> exists f', put f v = Ret f' /\ written f' (l ++ wire v);
  wire_get (h : handlers W) (T : Transport h) f v l : pending f (wire v ++ l) -> exists f', get f = Ret (wrap w v, f') /\ pending f' l
}.
#[export] Instance wire8 : Wire 8 qemu_put_byte qemu_get_byte.
Proof. refine {| wire v := [u8 v] |}; intros h T f; [apply (put_byte_spec (h:=h))|intros v l; apply (get_byte_spec (h:=h))]. Defined.
#[export] Instance wire16 : Wire 16 qemu_put_be16 qemu_get_be16.
Proof. refine {| wire := be16 |}; intros h T f; [apply (put_be16_spec (h:=h))|apply (get_be16_spec (h:=h))]. Defined.
#[export] Instance wire32 : Wire 32 qemu_put_be32 qemu_get_be32.
Proof. refine {| wire := be32 |}; intros h T f; [apply (put_be32_spec (h:=h))|apply (get_be32_spec (h:=h))]. Defined.
#[export] Instance wire64 : Wire 64 qemu_put_be64 qemu_get_be64.
Proof. refine {| wire := be64 |}; intros h T f; [apply (put_be64_spec (h:=h))|apply (get_be64_spec (h:=h))]. Defined.

(** Values that the C types of the fields hold. *)
Definition fits_u (w a : Z) : bool := (0 <=? a) && (a <? 2 ^ w).
Definition fits_s (w a : Z) : bool := (- 2 ^ (w - 1) <=? a) && (a <? 2 ^ (w - 1)).

Lemma fits_u_back w a : fits_u w a = true -> wrap w (wrap w a) = a.
Proof. unfold fits_u. intros [?%Z.leb_le ?%Z.ltb_lt]%andb_prop. rewrite wrap_wrap. by apply wrap_small. Qed.
Lemma fits_s_back w a : 0 < w -> fits_s w a = true -> swrap w (wrap w (wrap w a)) = a.
Proof. unfold fits_s. intros Hw [?%Z.leb_le ?%Z.ltb_lt]%andb_prop. rewrite wrap_wrap, swrap_wrap by lia. by apply swrap_small. Qed.

(** A plain integer replaces the old value. *)
Definition scalar_law {w put get} (X : Wire w put get) (c d : Z -> Z) (ok : Z -> bool) (back : forall a, ok a = true -> c (wrap w (d a)) = a)
  : InfoLaw (mkInfo Z (get_scalar get c) (fun f v _ => put f (d v))).
Proof.
  refine {| enc a _ := wire (d a); fits a _ := ok a; room _ _ := true; xfer a _ _ := (0, a) |}.
  - intros h T f l a size Hf _. cbn [info_put]. by apply (wire_put h T f l (d a)).
  - intros h T f l a b size Hp Ha _. cbn [info_get]. unfold get_scalar. destruct (wire_get h T f (d a) l Hp) as (f' & -> & Hp'). cbn [obind fst snd].
    rewrite back by done. eauto.
Defined.

(** A checked integer keeps the old value and reports a mismatch. *)
Definition checked_law {w put get} (X : Wire w put get) (c d : Z -> Z) (okf : Z -> Z -> bool) (ok : Z -> bool)
    (back : forall a, ok a = true -> c (wrap w (d a)) = a)
  : InfoLaw (mkInfo Z (get_checked get c okf) (fun f v _ => put f (d v))).
Proof.
  refine {| enc a _ := wire (d a); fits a _ := ok a; room _ _ := true; xfer a b _ := (if okf b a then 0 else - EINVAL, b) |}.
  - intros h T f l a size Hf _. cbn [info_put]. by apply (wire_put h T f l (d a)).
  - intros h T f l a b size Hp Ha _. cbn [info_get]. unfold get_checked. destruct (wire_get h T f (d a) l Hp) as (f' & -> & Hp'). cbn [obind fst snd].
    rewrite back by done. eauto.
Defined.

#[export] Instance int8_law : InfoLaw vmstate_info_int8 := scalar_law wire8 s8 (wrap 8) (fits_s 8) (fun a => fits_s_back 8 a eq_refl).
#[export] Instance int16_law : InfoLaw vmstate_info_int16 := scalar_law wire16 s16 (wrap 16) (fits_s 16) (fun a => fits_s_back 16 a eq_refl).
#[export] Instance int32_law : InfoLaw vmstate_info_int32 := scalar_law wire32 s32 (wrap 32) (fits_s 32) (fun a => fits_s_back 32 a eq_refl).
#[export] Instance int64_law : InfoLaw vmstate_info_int64 := scalar_law wire64 s64 (wrap 64) (fits_s 64) (fun a => fits_s_back 64 a eq_refl).
#[export] Instance uint8_law : InfoLaw vmstate_info_uint8 := scalar_law wire8 u8 (fun a => a) (fits_u 8) (fits_u_back 8).
#[export] Instance uint16_law : InfoLaw vmstate_info_uint16 := scalar_law wire16 u16 (fun a => a) (fits_u 16) (fits_u_back 16).
#[export] Instance uint32_law : InfoLaw vmstate_info_uint32 := scalar_law wire32 u32 (fun a => a) (fits_u 32) (fits_u_back 32).
#[export] Instance uint64_law : InfoLaw vmstate_info_uint64 := scalar_law wire64 u64 (fun a => a) (fits_u 64) (fits_u_back 64).
#[export] Instance int32_equal_law : InfoLaw vmstate_info_int32_equal :=
  checked_law wire32 s32 (wrap 32) Z.eqb (fits_s 32) (fun a => fits_s_back 32 a eq_refl).
#[export] Instance int32_le_law : InfoLaw vmstate_info_int32_le :=
  checked_law wire32 s32 (wrap 32) Z.leb (fits_s 32) (fun a => fits_s_back 32 a eq_refl).
#[export] Instance uint8_equal_law : InfoLaw vmstate_info_uint8_equal := checked_law wire8 u8 (fun a => a) Z.eqb (fits_u 8) (fits_u_back 8).
#[export] Instance uint16_equal_law : InfoLaw vmstate_info_uint16_equal := checked_law wire16 u16 (fun a => a) Z.eqb (fits_u 16) (fits_u_back 16).

(** A timer: any time but the one that stands for a timer that is not armed. *)
Definition timer_fits (t : option Z) : bool := match t with Some e => fits_s 64 e && negb (e =? -1) | None => true end.

#[export] Instance timer_law : InfoLaw vmstate_info_timer.
Proof.
  refine {| enc t _ := be64 (match t with Some e => u64 e | None => u64 (-1) end); fits t _ := timer_fits t; room _ _ := true; xfer a _ _ := (0, a) |}.
  - intros h T f l a size Hf _. cbn [info_put vmstate_info_timer]. unfold put_timer. by apply (put_be64_spec (h:=h)).
  - intros h T f l a b size Hp Ha _. cbn [info_get vmstate_info_timer]. unfold get_timer.
    destruct (get_be64_spec (h:=h) _ _ _ Hp) as (f' & -> & Hp'). cbn [obind fst snd]. exists f'. split; [|done]. do 3 f_equal.
    destruct a as [e|]; [|by rewrite wrap_wrap]. apply andb_prop in Ha as [Ha Hne]. rewrite wrap_wrap.
    assert (s64 (u64 e) = e) as Hb by (rewrite <- (wrap_wrap 64 e); by apply fits_s_back).
    rewrite Hb. destruct (Z.eqb_spec (u64 e) (u64 (-1))) as [E|]; [|done].
    rewrite E in Hb. change (s64 (u64 (-1))) with (-1) in Hb. by subst e.
Defined.

(** A buffer of [size] bytes at the start of an array. *)
Lemma length_takeZ (l : list Z) (n : Z) : 0 <= n <= Z.of_nat (length l) -> Z.of_nat (length (take (Z.to_nat n) l)) = n.
Proof. intros. rewrite length_take. lia. Qed.

#[export] Instance buffer_law : InfoLaw vmstate_info_buffer.
Proof.
  refine {| enc v size := take (Z.to_nat size) v; fits v size := (0 <=? size) && (size <=? Z.of_nat (length v)); room v size := (size <=? Z.of_nat (length v));
            xfer a b size := (0, take (Z.to_nat size) a ++ drop (Z.to_nat size) b) |}.
  - intros h T f l a size Hf [?%Z.leb_le ?%Z.leb_le]%andb_prop. cbn [info_put vmstate_info_buffer]. unfold put_buffer_info.
    rewrite load_ok by lia. cbn [oget obind]. by apply (put_buffer_spec (h:=h)).
  - intros h T f l a b size Hp [?%Z.leb_le ?%Z.leb_le]%andb_prop ?%Z.leb_le. cbn [info_get vmstate_info_buffer]. unfold get_buffer_info.
    destruct (get_buffer_spec (h:=h) _ _ _ Hp) as (f' & E & Hp'). rewrite length_takeZ in E by lia. rewrite E. cbn [obind].
    rewrite store_ok by (rewrite ?length_takeZ by lia; lia). cbn [oget obind fst snd]. exists f'. split; [|done]. do 3 f_equal. change (Z.to_nat 0) with 0%nat.
    rewrite take_0, app_nil_l, length_take, Nat.add_0_l, Nat.min_l by lia. done.
Defined.

(** Space of fields that are gone. *)
Lemma put_unused_spec (h : handlers W) (T : Transport h) n : forall f l size, written f l -> size <= Z.of_nat n ->
  exists f', put_unused n f size = Ret f' /\ written f' (l ++ replicate (Z.to_nat size) 0).
Proof.
  induction n as [|n IH]; intros f l size Hf Hn; cbn [put_unused].
  { exists f. replace (Z.to_nat size) with O by lia. cbn. by rewrite app_nil_r. }
  destruct (Z.ltb_spec 0 size); [|exists f; replace (Z.to_nat size) with O by lia; cbn; by rewrite app_nil_r].
  set (k := Z.min 1024 size). destruct (put_buffer_spec (h:=h) f l (replicate (Z.to_nat k) 0) Hf) as (f1 & -> & H1). cbn [obind].
  destruct (IH f1 _ (size - k) H1) as (f' & -> & H'); [lia|]. exists f'. split; [done|].
  rewrite <- app_assoc, <- replicate_add in H'. by replace (Z.to_nat k + Z.to_nat (size - k))%nat with (Z.to_nat size) in H' by lia.
Qed.

Lemma get_unused_spec (h : handlers W) (T : Transport h) n : forall f l size, pending f (replicate (Z.to_nat size) 0 ++ l) -> size <= Z.of_nat n ->
  exists f', get_unused n f size = Ret f' /\ pending f' l.
Proof.
  induction n as [|n IH]; intros f l size Hf Hn; cbn [get_unused].
  { exists f. replace (Z.to_nat size) with O in Hf by lia. done. }
  destruct (Z.ltb_spec 0 size); [|exists f; replace (Z.to_nat size) with O in Hf by lia; done].
  set (k := Z.min 1024 size) in *. replace (Z.to_nat size) with (Z.to_nat k + Z.to_nat (size - k))%nat in Hf by lia.
  rewrite replicate_add, <- app_assoc in Hf. destruct (get_buffer_spec (h:=h) f _ _ Hf) as (f1 & E & H1).
  rewrite length_replicate, Z2Nat.id in E by lia. rewrite E. cbn [obind]. apply IH; [done|lia].
Qed.

#[export] Instance unused_law : InfoLaw vmstate_info_unused_buffer.
Proof.
  refine {| enc _ size := replicate (Z.to_nat size) 0; fits _ _ := true; room _ _ := true; xfer _ b _ := (0, b) |}.
  - intros h T f l a size Hf _. cbn [info_put vmstate_info_unused_buffer]. apply (put_unused_spec h T); [done|lia].
  - intros h T f l a b size Hp _ _. cbn [info_get vmstate_info_unused_buffer].
    destruct (get_unused_spec h T (Z.to_nat size) f l size Hp) as (f' & -> & Hp'); [lia|]. cbn [obind fst snd]. eauto.
Defined.
End Infos.
Arguments VMStateInfo W A : clear implicits.
Arguments info_get {W A}.
Arguments info_put {W A}.

(** ** Descriptions *)
Record FieldAt (S A : Type) : Type := mkAt {
  fa_version : Z; fa_exists : option (S -> Z -> bool);
  fa_num : S -> Z; fa_size : S -> Z;
  fa_get : S -> nat -> option A; fa_set : S -> nat -> A -> S
}.
Arguments mkAt {S A}.
Arguments fa_version {S A}. Arguments fa_exists {S A}. Arguments fa_num {S A}.
Arguments fa_size {S A}. Arguments fa_get {S A}. Arguments fa_set {S A}.

Record VMStateHooks (W S : Type) : Type := mkHooks {
  load_state_old : option (QEMUFile W -> S -> Z -> res (Z * S * QEMUFile W));
  pre_load : option (S -> Z * S); post_load : option (S -> Z -> res (Z * S));
  pre_save : option (S -> S); post_save : option (S -> S)
}.
Arguments mkHooks {W S}.
Arguments load_state_old {W S}. Arguments pre_load {W S}. Arguments post_load {W S}.
Arguments pre_save {W S}. Arguments post_save {W S}.

Inductive VMStateDescription (W S : Type) : Type :=
| Vmsd (name : list Z) (version_id minimum_version_id minimum_version_id_old : Z) (hooks : VMStateHooks W S) (fields : VMStateFields W S)
with VMStateFields (W S : Type) : Type :=
| FEnd
| FInfo (A : Type) (at_ : FieldAt S A) (info : VMStateInfo W A) (law : InfoLaw info) (rest : VMStateFields W S)
| FStruct (A : Type) (at_ : FieldAt S A) (vmsd : VMStateDescription W A) (rest : VMStateFields W S).
Arguments Vmsd {W S}.
Arguments FEnd {W S}.
Arguments FInfo {W S A} at_ info {law} rest.
Arguments FStruct {W S A} at_ vmsd rest.

Definition vmsd_version {W S} (d : VMStateDescription W S) : Z := match d with Vmsd _ v _ _ _ _ => v end.

(** ** Walking a description *)
Section Walk.
Context {W : Type}.

Definition field_exists_load {S A} (at_ : FieldAt S A) (s : S) (version_id : Z) : bool :=
  match fa_exists at_ with Some test => test s version_id | None => fa_version at_ <=? version_id end.
Definition field_exists_save {S A} (at_ : FieldAt S A) (s : S) (version_id : Z) : bool :=
  match fa_exists at_ with Some test => test s version_id | None => true end.

(** The loop over the elements of a field, from element [i] on. *)
Fixpoint load_elems {S A} (get : QEMUFile W -> A -> res (Z * A * QEMUFile W)) (at_ : FieldAt S A) (n i : nat) (f : QEMUFile W) (s : S)
    : res (Z * S * QEMUFile W) :=
  match n with
  | O => Ret (0, s, f)
  | S n =>
      let! a := oget (fa_get at_ s i) in
      let! '(ret, a, f) := get f a in
      let s := fa_set at_ s i a in
      if ret <? 0 then Ret (ret, s, f) else load_elems get at_ n (i + 1) f s
  end.
Fixpoint save_elems {S A} (put : QEMUFile W -> A -> res (A * QEMUFile W)) (at_ : FieldAt S A) (n i : nat) (f : QEMUFile W) (s : S)
    : res (S * QEMUFile W) :=
  match n with
  | O => Ret (s, f)
  | S n =>
      let! a := oget (fa_get at_ s i) in
      let! '(a, f) := put f a in
      save_elems put at_ n (i + 1) f (fa_set at_ s i a)
  end.

Fixpoint vmstate_load_state {S} (vmsd : VMStateDescription W S) (f : QEMUFile W) (opaque : S) (version_id : Z) {struct vmsd} : res (Z * S * QEMUFile W) :=
  match vmsd with
  | Vmsd _ vmsd_version_id minimum minimum_old hooks fields =>
      if vmsd_version_id <? version_id then Ret (- EINVAL, opaque, f)
      else if version_id <? minimum_old then Ret (- EINVAL, opaque, f)
      else if version_id <? minimum then
        match load_state_old hooks with Some load => load f opaque version_id | None => Fault end
      else
        let '(ret, opaque) := match pre_load hooks with Some h => h opaque | None => (0, opaque) end in
        if negb (ret =? 0) then Ret (ret, opaque, f)
        else
          let! '(ret, opaque, f) := load_fields fields f opaque version_id in
          if ret <? 0 then Ret (ret, opaque, f)
          else
            match post_load hooks with
            | Some h => let! '(ret, opaque) := h opaque version_id in Ret (ret, opaque, f)
            | None => Ret (0, opaque, f)
            end
  end
with load_fields {S} (fields : VMStateFields W S) (f : QEMUFile W) (opaque : S) (version_id : Z) {struct fields} : res (Z * S * QEMUFile W) :=
  match fields with
  | FEnd => Ret (0, opaque, f)
  | FInfo at_ info rest =>
      let size := fa_size at_ opaque in
      let! '(ret, opaque, f) :=
        if field_exists_load at_ opaque version_id
        then load_elems (fun f a => info_get info f a size) at_ (Z.to_nat (fa_num at_ opaque)) 0 f opaque
        else Ret (0, opaque, f) in
      if ret <? 0 then Ret (ret, opaque, f) else load_fields rest f opaque version_id
  | FStruct at_ vmsd rest =>
      let! '(ret, opaque, f) :=
        if field_exists_load at_ opaque version_id
        then load_elems (fun f a => vmstate_load_state vmsd f a (vmsd_version vmsd)) at_ (Z.to_nat (fa_num at_ opaque)) 0 f opaque
        else Ret (0, opaque, f) in
      if ret <? 0 then Ret (ret, opaque, f) else load_fields rest f opaque version_id
  end.

Fixpoint vmstate_save_state {S} (vmsd : VMStateDescription W S) (f : QEMUFile W) (opaque : S) {struct vmsd} : res (S * QEMUFile W) :=
  match vmsd with
  | Vmsd _ vmsd_version_id _ _ hooks fields =>
      let opaque := match pre_save hooks with Some h => h opaque | None => opaque end in
      let! '(opaque, f) := save_fields fields f opaque vmsd_version_id in
      Ret (match post_save hooks with Some h => h opaque | None => opaque end, f)
  end
with save_fields {S} (fields : VMStateFields W S) (f : QEMUFile W) (opaque : S) (version_id : Z) {struct fields} : res (S * QEMUFile W) :=
  match fields with
  | FEnd => Ret (opaque, f)
  | FInfo at_ info rest =>
      let size := fa_size at_ opaque in
      let! '(opaque, f) :=
        if field_exists_save at_ opaque version_id
        then save_elems (fun f a => let! f := info_put info f a size in Ret (a, f)) at_ (Z.to_nat (fa_num at_ opaque)) 0 f opaque
        else Ret (opaque, f) in
      save_fields rest f opaque version_id
  | FStruct at_ vmsd rest =>
      let! '(opaque, f) :=
        if field_exists_save at_ opaque version_id
        then save_elems (fun f a => vmstate_save_state vmsd f a) at_ (Z.to_nat (fa_num at_ opaque)) 0 f opaque
        else Ret (opaque, f) in
      save_fields rest f opaque version_id
  end.
End Walk.
