(* ===== verification/VmCopy.v ===== *)
(** * What saving and loading a state amounts to

    [copy d s t] is the specification of saving the state [s] with the description [d] and
    loading the bytes over the state [t] with the same description: a direct copy, field by
    field, together with the bytes that stand between the two.  It is [None] when the two
    sides would not agree: a value does not fit its field, a check fails, a field exists on
    one side only, a count or a size differs.  [copy_implements] shows that
    [vmstate_save_state] and [vmstate_load_state] implement it over every transport. *)

From S2P Require Import Prelude QemuFile VmState.
From stdpp Require Import list.

Open Scope Z_scope.

Section Copy.
Context {W : Type}.

Fixpoint copy_elems {S A} (x : A -> A -> option (list Z * A * A)) (at_ : FieldAt S A) (n i : nat) (s t : S) : option (list Z * S * S) :=
  match n with
  | O => Some ([], s, t)
  | S n =>
      a ← fa_get at_ s i; b ← fa_get at_ t i;
      '(bs, a, b) ← x a b;
      '(more, s, t) ← copy_elems x at_ n (i + 1) (fa_set at_ s i a) (fa_set at_ t i b);
      Some (bs ++ more, s, t)
  end.

Definition copy_info {A} (info : VMStateInfo W A) {L : InfoLaw info} (size : Z) (a b : A) : option (list Z * A * A) :=
  if fits a size && room b size && (0 <=? (xfer a b size).1) then Some (enc a size, a, (xfer a b size).2) else None.

(** The sides agree that the field is there, and on how much there is of it. *)
Definition agree {S A} (at_ : FieldAt S A) (s t : S) (v : Z) : bool :=
  eqb (field_exists_save at_ s v) (field_exists_load at_ t v) && (fa_num at_ s =? fa_num at_ t) && (fa_size at_ s =? fa_size at_ t).

Definition copy_field {S A} (at_ : FieldAt S A) (x : A -> A -> option (list Z * A * A)) (s t : S) (v : Z) : option (list Z * S * S) :=
  if agree at_ s t v then
    if field_exists_save at_ s v then copy_elems x at_ (Z.to_nat (fa_num at_ s)) 0 s t else Some ([], s, t)
  else None.

Definition copy_hooks {S} (hooks : VMStateHooks W S) (version_id : Z) (body : S -> S -> option (list Z * S * S)) (s t : S)
    : option (list Z * S * S) :=
  let '(ret, t) := match pre_load hooks with Some h => h t | None => (0, t) end in
  if negb (ret =? 0) then None
  else
    '(bs, s, t) ← body (match pre_save hooks with Some h => h s | None => s end) t;
    match (match post_load hooks with Some h => h t version_id | None => Ret (0, t) end) with
    | Ret (ret, t) => if ret =? 0 then Some (bs, match post_save hooks with Some h => h s | None => s end, t) else None
    | _ => None
    end.

Fixpoint copy {S} (d : VMStateDescription W S) (s t : S) {struct d} : option (list Z * S * S) :=
  match d with
  | Vmsd _ version_id minimum minimum_old hooks fields =>
      if (minimum_old <=? version_id) && (minimum <=? version_id)
      then copy_hooks hooks version_id (fun s t => copy_fields fields s t version_id) s t
      else None
  end
with copy_fields {S} (fields : VMStateFields W S) (s t : S) (v : Z) {struct fields} : option (list Z * S * S) :=
  match fields with
  | FEnd => Some ([], s, t)
  | FInfo at_ info rest =>
      '(bs, s, t) ← copy_field at_ (copy_info info (fa_size at_ s)) s t v;
      '(more, s, t) ← copy_fields rest s t v;
      Some (bs ++ more, s, t)
  | FStruct at_ vmsd rest =>
      '(bs, s, t) ← copy_field at_ (copy vmsd) s t v;
      '(more, s, t) ← copy_fields rest s t v;
      Some (bs ++ more, s, t)
  end.

(** ** The functions of the source implement it *)
Context {h : handlers W} {T : Transport h}.
Implicit Types f : QEMUFile W.

(** A writer, and a reader, that carry out one side of a copy. *)
Definition saves_as {A} (put : QEMUFile W -> A -> res (A * QEMUFile W)) (a a' : A) (bs : list Z) : Prop :=
  forall f l, written f l -> exists f', put f a = Ret (a', f') /\ written f' (l ++ bs).
Definition loads_as {A} (get : QEMUFile W -> A -> res (Z * A * QEMUFile W)) (b b' : A) (bs : list Z) : Prop :=
  forall f l, pending f (bs ++ l) -> exists r f', get f b = Ret (r, b', f') /\ 0 <= r /\ pending f' l.

Definition implements {A} (x : A -> A -> option (list Z * A * A)) (put : QEMUFile W -> A -> res (A * QEMUFile W))
    (get : QEMUFile W -> A -> res (Z * A * QEMUFile W)) : Prop :=
  forall a b bs a' b', x a b = Some (bs, a', b') -> saves_as put a a' bs /\ loads_as get b b' bs.

Lemma elems_implement {S A} x put get (at_ : FieldAt S A) : implements x put get -> forall n i,
  implements (copy_elems x at_ n i) (fun f s => save_elems put at_ n i f s) (fun f t => load_elems get at_ n i f t).
Proof.
  intros Hx. induction n as [|n IH]; intros i s t bs s' t' E; cbn [copy_elems save_elems load_elems] in *.
  { injection E as <- <- <-. split; intros f l Hf; cbn; [exists f; by rewrite app_nil_r|eauto with lia]. }
  apply bind_Some in E as (a & Ea & E). apply bind_Some in E as (b & Eb & E). apply bind_Some in E as ([[b1 a'] b'] & Ex & E).
  apply bind_Some in E as ([[more s1] t1] & E1 & E). injection E as <- <- <-.
  apply Hx in Ex as [Hs Hl]. apply IH in E1 as [Hs1 Hl1]. split; intros f l Hf.
  - rewrite Ea. cbn [oget obind]. destruct (Hs f l Hf) as (f1 & -> & H1). cbn [obind].
    destruct (Hs1 f1 _ H1) as (f2 & -> & H2). exists f2. by rewrite <- app_assoc in H2.
  - rewrite Eb. cbn [oget obind]. rewrite <- app_assoc in Hf. destruct (Hl f _ Hf) as (r & f1 & -> & Hr & H1). cbn [obind].
    rewrite (proj2 (Z.ltb_ge r 0)) by lia. apply (Hl1 f1 l H1).
Qed.

Lemma info_implements {A} (info : VMStateInfo W A) {L : InfoLaw info} size :
  implements (copy_info info size) (fun f a => let! f := info_put info f a size in Ret (a, f)) (fun f b => info_get info f b size).
Proof.
  intros a b bs a' b' E. unfold copy_info in E. destruct (fits a size) eqn:Ea, (room b size) eqn:Eb; try done. cbn [andb] in E.
  destruct (Z.leb_spec 0 (xfer a b size).1); [|done]. injection E as <- <- <-. split; intros f l Hf.
  - destruct (put_info h T f l a size Hf Ea) as (f' & -> & Hf'). cbn. eauto.
  - destruct (get_info h T f l a b size Hf Ea Eb) as (f' & -> & Hf'). eauto.
Qed.

Lemma saves_app {A} put1 put2 (a a1 a2 : A) b1 b2 : saves_as put1 a a1 b1 -> saves_as put2 a1 a2 b2 ->
  saves_as (fun f a => let! '(a, f) := put1 f a in put2 f a) a a2 (b1 ++ b2).
Proof.
  intros H1 H2 f l Hf. destruct (H1 f l Hf) as (f1 & -> & Hf1). cbn [obind]. destruct (H2 f1 _ Hf1) as (f2 & -> & Hf2).
  exists f2. by rewrite <- app_assoc in Hf2.
Qed.

Lemma loads_app {A} get1 get2 (a a1 a2 : A) b1 b2 : loads_as get1 a a1 b1 -> loads_as get2 a1 a2 b2 ->
  loads_as (fun f a => let! '(r, a, f) := get1 f a in if r <? 0 then Ret (r, a, f) else get2 f a) a a2 (b1 ++ b2).
Proof.
  intros H1 H2 f l Hf. rewrite <- app_assoc in Hf. destruct (H1 f _ Hf) as (r & f1 & -> & Hr & Hf1). cbn [obind].
  rewrite (proj2 (Z.ltb_ge r 0)) by lia. apply (H2 f1 l Hf1).
Qed.

Lemma field_implements {S A} (at_ : FieldAt S A) x put get s t v bs s' t' : implements x put get -> copy_field at_ x s t v = Some (bs, s', t') ->
  saves_as (fun f s => if field_exists_save at_ s v then save_elems put at_ (Z.to_nat (fa_num at_ s)) 0 f s else Ret (s, f)) s s' bs /\
  loads_as (fun f t => if field_exists_load at_ t v then load_elems get at_ (Z.to_nat (fa_num at_ t)) 0 f t else Ret (0, t, f)) t t' bs /\
  fa_size at_ s = fa_size at_ t.
Proof.
  intros Hx E. unfold copy_field in E. destruct (agree at_ s t v) eqn:Ha; [|done]. unfold agree in Ha.
  apply andb_prop in Ha as [[He%eqb_prop Hn%Z.eqb_eq]%andb_prop Hs%Z.eqb_eq].
  unfold saves_as, loads_as. rewrite <- He, <- Hn. destruct (field_exists_save at_ s v).
  - apply (elems_implement x put get at_ Hx) in E as [H1 H2]. split; [exact H1|]. split; [exact H2|done].
  - injection E as <- <- <-. split; [|split; [|done]]; intros f l Hf; [exists f; by rewrite app_nil_r|eauto with lia].
Qed.

Scheme vmsd_ind2 := Induction for VMStateDescription Sort Prop
  with fields_ind2 := Induction for VMStateFields Sort Prop.

(** The hooks around the fields. *)
Lemma hooks_implement {S} name v mn mo (hooks : VMStateHooks W S) fields :
  implements (fun s t => copy_fields fields s t v) (fun f s => save_fields fields f s v) (fun f t => load_fields fields f t v) ->
  implements (copy (Vmsd name v mn mo hooks fields)) (fun f s => vmstate_save_state (Vmsd name v mn mo hooks fields) f s)
    (fun f t => vmstate_load_state (Vmsd name v mn mo hooks fields) f t v).
Proof.
  intros Hb s t bs s' t' E. cbn [copy] in E. destruct (mo <=? v) eqn:Hmo, (mn <=? v) eqn:Hmn; try done. cbn [andb] in E. unfold copy_hooks in E.
  apply Z.leb_le in Hmo, Hmn. destruct (match pre_load hooks with Some h => h t | None => (0, t) end) as [ret t1] eqn:Epre.
  destruct (Z.eqb_spec ret 0) as [->|]; [|done]. cbn [negb] in E. apply bind_Some in E as ([[b2 s2] t2] & E2 & E).
  destruct (match post_load hooks with Some h => h t2 v | None => Ret (0, t2) end) as [[ret t3]| |] eqn:Epost; try done.
  destruct (Z.eqb_spec ret 0) as [->|]; [|done]. injection E as <- <- <-. apply Hb in E2 as [H1 H2]. split; intros f l Hf.
  - cbn [vmstate_save_state]. destruct (H1 f l Hf) as (f' & -> & Hf'). cbn [obind]. eauto.
  - cbn [vmstate_load_state]. rewrite (proj2 (Z.ltb_ge v v)), (proj2 (Z.ltb_ge v mo)), (proj2 (Z.ltb_ge v mn)) by lia.
    rewrite Epre. cbn [Z.eqb negb]. destruct (H2 f l Hf) as (r & f' & -> & Hr & Hf'). cbn [obind]. rewrite (proj2 (Z.ltb_ge r 0)) by lia.
    destruct (post_load hooks); [rewrite Epost; cbn [obind]|injection Epost as ->]; eauto with lia.
Qed.

Lemma copy_implements S (d : VMStateDescription W S) :
  implements (copy d) (fun f s => vmstate_save_state d f s) (fun f t => vmstate_load_state d f t (vmsd_version d)).
Proof.
  revert S d.
  apply (vmsd_ind2 W (fun S d => implements (copy d) (fun f s => vmstate_save_state d f s) (fun f t => vmstate_load_state d f t (vmsd_version d)))
    (fun S fs => forall v, implements (fun s t => copy_fields fs s t v) (fun f s => save_fields fs f s v) (fun f t => load_fields fs f t v))).
  - intros S name v mn mo hooks fields IH. apply hooks_implement, IH.
  - intros S v s t bs s' t' [= <- <- <-]. split; intros f l Hf; cbn; [exists f; by rewrite app_nil_r|eauto with lia].
  - intros S A at_ info law rest IH v s t bs s' t' E. cbn [copy_fields] in E.
    apply bind_Some in E as ([[b1 s1] t1] & E1 & E). apply bind_Some in E as ([[b2 s2] t2] & E2 & E). injection E as <- <- <-.
    apply (field_implements _ _ _ _ _ _ _ _ _ _ (info_implements info (fa_size at_ s))) in E1 as (H1 & H2 & Hs). apply IH in E2 as [H3 H4].
    split; intros f l Hf; [apply (saves_app _ _ _ _ _ _ _ H1 H3 f l Hf)|].
    cbn [load_fields]. rewrite <- Hs. apply (loads_app _ _ _ _ _ _ _ H2 H4 f l Hf).
  - intros S A at_ d IHd rest IH v s t bs s' t' E. cbn [copy_fields] in E.
    apply bind_Some in E as ([[b1 s1] t1] & E1 & E). apply bind_Some in E as ([[b2 s2] t2] & E2 & E). injection E as <- <- <-.
    apply (field_implements _ _ _ _ _ _ _ _ _ _ IHd) in E1 as (H1 & H2 & Hs). apply IH in E2 as [H3 H4].
    split; intros f l Hf; [apply (saves_app _ _ _ _ _ _ _ H1 H3 f l Hf)|apply (loads_app _ _ _ _ _ _ _ H2 H4 f l Hf)].
Qed.

(** C36. Saving a described state and loading it over another one is the direct copy: whenever
    [copy] says that the two sides agree, [vmstate_save_state] appends exactly its bytes and
    leaves the source in its source state, and [vmstate_load_state] at the description's
    version, given these bytes, consumes exactly them, succeeds and gives the target its
    target state: through nested structures, arrays, buffers, timers, checked fields, fields
    of later versions and all hooks.  The sides agree on a checked field when the target
    holds the value sent, and on one of type int32_le when it holds no more than the value
    sent; this is what [get_int32_le] compares, while its comment says that the value sent
    must be the smaller one ([int32_le_reversed]). *)
Theorem vmstate_transfer {S} (d : VMStateDescription W S) s t bs s' t' : copy d s t = Some (bs, s', t') ->
  (forall f l, written f l -> exists f', vmstate_save_state d f s = Ret (s', f') /\ written f' (l ++ bs)) /\
  (forall f l, pending f (bs ++ l) -> exists r f', vmstate_load_state d f t (vmsd_version d) = Ret (r, t', f') /\ 0 <= r /\ pending f' l).
Proof. intros E. exact (copy_implements S d s t bs s' t' E). Qed.
End Copy.

(** ** A description with a nested structure, an array and a checked field *)
Definition sample_inner {W} : VMStateDescription W Z :=
  Vmsd [105] 1 1 1 (mkHooks None None None (Some (fun z => z + 1)) None)
    (FInfo (mkAt 0 None (fun _ => 1) (fun _ => 4) (fun s _ => Some s) (fun _ _ a => a)) vmstate_info_int32 FEnd).
Definition sample {W} : VMStateDescription W (list Z * Z) :=
  Vmsd [115] 3 2 2 (mkHooks None None (Some (fun s v => Ret (0, (fst s, snd s * v)))) None None)
    (FInfo (mkAt 0 None (fun _ => 2) (fun _ => 2) (fun s i => fst s !! i) (fun s i a => (<[i := a]> (fst s), snd s))) vmstate_info_uint16
      (FStruct (mkAt 3 None (fun _ => 1) (fun _ => 0) (fun s _ => Some (snd s)) (fun s _ a => (fst s, a))) sample_inner
        (FInfo (mkAt 0 None (fun _ => 1) (fun _ => 1) (fun s _ => fst s !! 2%nat) (fun s _ a => (<[2%nat := a]> (fst s), snd s))) vmstate_info_uint8_equal FEnd))).

Lemma vmstate_transfer_witness :
  exists f', vmstate_load_state sample (qemu_fopen_ops [1; 44; 0; 7; 255; 255; 255; 254; 9] mem_file) ([0; 0; 9], 0) 3 = Ret (0, ([300; 7; 9], -6), f') /\ pending f' [].
Proof.
  destruct (vmstate_transfer (h:=mem_file) sample ([300; 7; 9], -3) ([0; 0; 9], 0) [1; 44; 0; 7; 255; 255; 255; 254; 9] ([300; 7; 9], -2) ([300; 7; 9], -6) eq_refl)
    as [_ Hl].
  destruct (Hl (qemu_fopen_ops [1; 44; 0; 7; 255; 255; 255; 254; 9] mem_file) []) as (r & f' & E & Hr & Hp).
  { exact (fopen_pending (h:=mem_file) [1; 44; 0; 7; 255; 255; 255; 254; 9] ltac:(discriminate) I). }
  exists f'. split; [|exact Hp]. vm_compute in E |- *. congruence.
Defined.

(** The comment of [get_int32_le] wants the received value to be at most the field's: 3 into
    a field that holds 5 is refused, 5 into one that holds 3 is accepted. *)
Lemma int32_le_reversed :
  let load received field := match info_get vmstate_info_int32_le (qemu_fopen_ops (be32 received) mem_file) field 4 with Ret (r, _, _) => r | _ => 1 end in
  load 3 5 = - EINVAL /\ load 5 3 = 0.
Proof. split; vm_compute; reflexivity. Qed.
