(* ===== verification/SavedDevices.v ===== *)
(** * The saved state of the devices

    The descriptions of the saved state of the interrupt controllers, the interval timer, the
    keyboard controller with its two devices and the real-time clock, in the form of
    [VmState].  Every field has the function that assigns it ([put_] and its name); an array
    assigns by index.  The hooks for state kept in the kernel by KVM do nothing without it.
    For each device [*_fits] says that the values fit the C types of their fields, and
    [*_copies] what a saved state is after it is loaded: the saved fields are those of the
    source, the others stay those of the machine it is loaded into. *)

From S2P Require Import Prelude QemuFile VmState VmCopy CUtils I8259 I8254 Ps2 Pckbd Rtc.
From stdpp Require Import list strings.

Open Scope Z_scope.

(** ** The macros of hw/hw.h *)
Section Macros.
Context {W S : Type}.
Implicit Types rest : VMStateFields W S.

Definition no_hooks : VMStateHooks W S := mkHooks None None None None None.

(** One element: VMS_SINGLE, VMS_STRUCT and VMS_BUFFER fields without a test. *)
Definition single {A} (version size : Z) (get : S -> A) (set : S -> A -> S) : FieldAt S A :=
  mkAt version None (fun _ => 1) (fun _ => size) (fun s i => match i with O => Some (get s) | _ => None end) (fun s _ a => set s a).
(** A pointer to one element. *)
Definition pointer {A} (version size : Z) (get : S -> option A) (set : S -> A -> S) : FieldAt S A :=
  mkAt version None (fun _ => 1) (fun _ => size) (fun s i => match i with O => get s | _ => None end) (fun s _ a => set s a).
(** An array of [num] elements. *)
Definition array {A} (version num size : Z) (get : S -> list A) (set : S -> list A -> S) : FieldAt S A :=
  mkAt version None (fun _ => num) (fun _ => size) (fun s i => get s !! i) (fun s i a => set s (<[i := a]> (get s))).

Definition VMSTATE_INT32_V (v : Z) (get : S -> Z) (set : S -> Z -> S) rest := FInfo (single v 4 get set) vmstate_info_int32 rest.
Definition VMSTATE_INT64_V (v : Z) (get : S -> Z) (set : S -> Z -> S) rest := FInfo (single v 8 get set) vmstate_info_int64 rest.
Definition VMSTATE_UINT8_V (v : Z) (get : S -> Z) (set : S -> Z -> S) rest := FInfo (single v 1 get set) vmstate_info_uint8 rest.
Definition VMSTATE_UINT16_V (v : Z) (get : S -> Z) (set : S -> Z -> S) rest := FInfo (single v 2 get set) vmstate_info_uint16 rest.
Definition VMSTATE_UINT32_V (v : Z) (get : S -> Z) (set : S -> Z -> S) rest := FInfo (single v 4 get set) vmstate_info_uint32 rest.
Definition VMSTATE_INT32 := VMSTATE_INT32_V 0.
Definition VMSTATE_INT64 := VMSTATE_INT64_V 0.
Definition VMSTATE_UINT8 := VMSTATE_UINT8_V 0.
Definition VMSTATE_UINT16 := VMSTATE_UINT16_V 0.
Definition VMSTATE_UINT32 := VMSTATE_UINT32_V 0.
Definition VMSTATE_BUFFER (size : Z) (get : S -> list Z) (set : S -> list Z -> S) rest := FInfo (single 0 size get set) vmstate_info_buffer rest.
Definition VMSTATE_TIMER (get : S -> option (option Z)) (set : S -> option Z -> S) rest := FInfo (pointer 0 8 get set) vmstate_info_timer rest.
Definition VMSTATE_STRUCT {A} (v : Z) (d : VMStateDescription W A) (get : S -> A) (set : S -> A -> S) rest := FStruct (single v 0 get set) d rest.
Definition VMSTATE_STRUCT_ARRAY {A} (num v : Z) (d : VMStateDescription W A) (get : S -> list A) (set : S -> list A -> S) rest :=
  FStruct (array v num 0 get set) d rest.
End Macros.

(** ** i8259 *)
Module PicSave.
Definition put_last_irr (s : I8259.PicState) (v : _) : I8259.PicState := I8259.Build_PicState v (I8259.irr s) (I8259.imr s) (I8259.isr s) (I8259.priority_add s) (I8259.irq_base s) (I8259.read_reg_select s) (I8259.poll s) (I8259.special_mask s) (I8259.init_state s) (I8259.auto_eoi s) (I8259.rotate_on_auto_eoi s) (I8259.special_fully_nested_mode s) (I8259.init4 s) (I8259.single_mode s) (I8259.elcr s) (I8259.elcr_mask s).
Definition put_irr (s : I8259.PicState) (v : _) : I8259.PicState := I8259.Build_PicState (I8259.last_irr s) v (I8259.imr s) (I8259.isr s) (I8259.priority_add s) (I8259.irq_base s) (I8259.read_reg_select s) (I8259.poll s) (I8259.special_mask s) (I8259.init_state s) (I8259.auto_eoi s) (I8259.rotate_on_auto_eoi s) (I8259.special_fully_nested_mode s) (I8259.init4 s) (I8259.single_mode s) (I8259.elcr s) (I8259.elcr_mask s).
Definition put_imr (s : I8259.PicState) (v : _) : I8259.PicState := I8259.Build_PicState (I8259.last_irr s) (I8259.irr s) v (I8259.isr s) (I8259.priority_add s) (I8259.irq_base s) (I8259.read_reg_select s) (I8259.poll s) (I8259.special_mask s) (I8259.init_state s) (I8259.auto_eoi s) (I8259.rotate_on_auto_eoi s) (I8259.special_fully_nested_mode s) (I8259.init4 s) (I8259.single_mode s) (I8259.elcr s) (I8259.elcr_mask s).
Definition put_isr (s : I8259.PicState) (v : _) : I8259.PicState := I8259.Build_PicState (I8259.last_irr s) (I8259.irr s) (I8259.imr s) v (I8259.priority_add s) (I8259.irq_base s) (I8259.read_reg_select s) (I8259.poll s) (I8259.special_mask s) (I8259.init_state s) (I8259.auto_eoi s) (I8259.rotate_on_auto_eoi s) (I8259.special_fully_nested_mode s) (I8259.init4 s) (I8259.single_mode s) (I8259.elcr s) (I8259.elcr_mask s).
Definition put_priority_add (s : I8259.PicState) (v : _) : I8259.PicState := I8259.Build_PicState (I8259.last_irr s) (I8259.irr s) (I8259.imr s) (I8259.isr s) v (I8259.irq_base s) (I8259.read_reg_select s) (I8259.poll s) (I8259.special_mask s) (I8259.init_state s) (I8259.auto_eoi s) (I8259.rotate_on_auto_eoi s) (I8259.special_fully_nested_mode s) (I8259.init4 s) (I8259.single_mode s) (I8259.elcr s) (I8259.elcr_mask s).
Definition put_irq_base (s : I8259.PicState) (v : _) : I8259.PicState := I8259.Build_PicState (I8259.last_irr s) (I8259.irr s) (I8259.imr s) (I8259.isr s) (I8259.priority_add s) v (I8259.read_reg_select s) (I8259.poll s) (I8259.special_mask s) (I8259.init_state s) (I8259.auto_eoi s) (I8259.rotate_on_auto_eoi s) (I8259.special_fully_nested_mode s) (I8259.init4 s) (I8259.single_mode s) (I8259.elcr s) (I8259.elcr_mask s).
Definition put_read_reg_select (s : I8259.PicState) (v : _) : I8259.PicState := I8259.Build_PicState (I8259.last_irr s) (I8259.irr s) (I8259.imr s) (I8259.isr s) (I8259.priority_add s) (I8259.irq_base s) v (I8259.poll s) (I8259.special_mask s) (I8259.init_state s) (I8259.auto_eoi s) (I8259.rotate_on_auto_eoi s) (I8259.special_fully_nested_mode s) (I8259.init4 s) (I8259.single_mode s) (I8259.elcr s) (I8259.elcr_mask s).
Definition put_poll (s : I8259.PicState) (v : _) : I8259.PicState := I8259.Build_PicState (I8259.last_irr s) (I8259.irr s) (I8259.imr s) (I8259.isr s) (I8259.priority_add s) (I8259.irq_base s) (I8259.read_reg_select s) v (I8259.special_mask s) (I8259.init_state s) (I8259.auto_eoi s) (I8259.rotate_on_auto_eoi s) (I8259.special_fully_nested_mode s) (I8259.init4 s) (I8259.single_mode s) (I8259.elcr s) (I8259.elcr_mask s).
Definition put_special_mask (s : I8259.PicState) (v : _) : I8259.PicState := I8259.Build_PicState (I8259.last_irr s) (I8259.irr s) (I8259.imr s) (I8259.isr s) (I8259.priority_add s) (I8259.irq_base s) (I8259.read_reg_select s) (I8259.poll s) v (I8259.init_state s) (I8259.auto_eoi s) (I8259.rotate_on_auto_eoi s) (I8259.special_fully_nested_mode s) (I8259.init4 s) (I8259.single_mode s) (I8259.elcr s) (I8259.elcr_mask s).
Definition put_init_state (s : I8259.PicState) (v : _) : I8259.PicState := I8259.Build_PicState (I8259.last_irr s) (I8259.irr s) (I8259.imr s) (I8259.isr s) (I8259.priority_add s) (I8259.irq_base s) (I8259.read_reg_select s) (I8259.poll s) (I8259.special_mask s) v (I8259.auto_eoi s) (I8259.rotate_on_auto_eoi s) (I8259.special_fully_nested_mode s) (I8259.init4 s) (I8259.single_mode s) (I8259.elcr s) (I8259.elcr_mask s).
Definition put_auto_eoi (s : I8259.PicState) (v : _) : I8259.PicState := I8259.Build_PicState (I8259.last_irr s) (I8259.irr s) (I8259.imr s) (I8259.isr s) (I8259.priority_add s) (I8259.irq_base s) (I8259.read_reg_select s) (I8259.poll s) (I8259.special_mask s) (I8259.init_state s) v (I8259.rotate_on_auto_eoi s) (I8259.special_fully_nested_mode s) (I8259.init4 s) (I8259.single_mode s) (I8259.elcr s) (I8259.elcr_mask s).
Definition put_rotate_on_auto_eoi (s : I8259.PicState) (v : _) : I8259.PicState := I8259.Build_PicState (I8259.last_irr s) (I8259.irr s) (I8259.imr s) (I8259.isr s) (I8259.priority_add s) (I8259.irq_base s) (I8259.read_reg_select s) (I8259.poll s) (I8259.special_mask s) (I8259.init_state s) (I8259.auto_eoi s) v (I8259.special_fully_nested_mode s) (I8259.init4 s) (I8259.single_mode s) (I8259.elcr s) (I8259.elcr_mask s).
Definition put_special_fully_nested_mode (s : I8259.PicState) (v : _) : I8259.PicState := I8259.Build_PicState (I8259.last_irr s) (I8259.irr s) (I8259.imr s) (I8259.isr s) (I8259.priority_add s) (I8259.irq_base s) (I8259.read_reg_select s) (I8259.poll s) (I8259.special_mask s) (I8259.init_state s) (I8259.auto_eoi s) (I8259.rotate_on_auto_eoi s) v (I8259.init4 s) (I8259.single_mode s) (I8259.elcr s) (I8259.elcr_mask s).
Definition put_init4 (s : I8259.PicState) (v : _) : I8259.PicState := I8259.Build_PicState (I8259.last_irr s) (I8259.irr s) (I8259.imr s) (I8259.isr s) (I8259.priority_add s) (I8259.irq_base s) (I8259.read_reg_select s) (I8259.poll s) (I8259.special_mask s) (I8259.init_state s) (I8259.auto_eoi s) (I8259.rotate_on_auto_eoi s) (I8259.special_fully_nested_mode s) v (I8259.single_mode s) (I8259.elcr s) (I8259.elcr_mask s).
Definition put_single_mode (s : I8259.PicState) (v : _) : I8259.PicState := I8259.Build_PicState (I8259.last_irr s) (I8259.irr s) (I8259.imr s) (I8259.isr s) (I8259.priority_add s) (I8259.irq_base s) (I8259.read_reg_select s) (I8259.poll s) (I8259.special_mask s) (I8259.init_state s) (I8259.auto_eoi s) (I8259.rotate_on_auto_eoi s) (I8259.special_fully_nested_mode s) (I8259.init4 s) v (I8259.elcr s) (I8259.elcr_mask s).
Definition put_elcr (s : I8259.PicState) (v : _) : I8259.PicState := I8259.Build_PicState (I8259.last_irr s) (I8259.irr s) (I8259.imr s) (I8259.isr s) (I8259.priority_add s) (I8259.irq_base s) (I8259.read_reg_select s) (I8259.poll s) (I8259.special_mask s) (I8259.init_state s) (I8259.auto_eoi s) (I8259.rotate_on_auto_eoi s) (I8259.special_fully_nested_mode s) (I8259.init4 s) (I8259.single_mode s) v (I8259.elcr_mask s).

Definition pic_pre_save (s : I8259.PicState) : I8259.PicState := s.
Definition pic_post_load (s : I8259.PicState) (version_id : Z) : res (Z * I8259.PicState) := Ret (0, s).

Definition vmstate_pic {W} : VMStateDescription W I8259.PicState :=
  Vmsd (str "i8259") 1 1 1 (mkHooks None None (Some pic_post_load) (Some pic_pre_save) None) $
    VMSTATE_UINT8 I8259.last_irr put_last_irr $
    VMSTATE_UINT8 I8259.irr put_irr $
    VMSTATE_UINT8 I8259.imr put_imr $
    VMSTATE_UINT8 I8259.isr put_isr $
    VMSTATE_UINT8 I8259.priority_add put_priority_add $
    VMSTATE_UINT8 I8259.irq_base put_irq_base $
    VMSTATE_UINT8 I8259.read_reg_select put_read_reg_select $
    VMSTATE_UINT8 I8259.poll put_poll $
    VMSTATE_UINT8 I8259.special_mask put_special_mask $
    VMSTATE_UINT8 I8259.init_state put_init_state $
    VMSTATE_UINT8 I8259.auto_eoi put_auto_eoi $
    VMSTATE_UINT8 I8259.rotate_on_auto_eoi put_rotate_on_auto_eoi $
    VMSTATE_UINT8 I8259.special_fully_nested_mode put_special_fully_nested_mode $
    VMSTATE_UINT8 I8259.init4 put_init4 $
    VMSTATE_UINT8 I8259.single_mode put_single_mode $
    VMSTATE_UINT8 I8259.elcr put_elcr $
    FEnd.
End PicSave.

(** ** i8254 *)
Module PitSave.
Definition put_count (s : I8254.PITChannelState) (v : _) : I8254.PITChannelState := I8254.mkChannel v (I8254.latched_count s) (I8254.count_latched s) (I8254.status_latched s) (I8254.status s) (I8254.read_state s) (I8254.write_state s) (I8254.write_latch s) (I8254.rw_mode s) (I8254.mode s) (I8254.bcd s) (I8254.gate s) (I8254.count_load_time s) (I8254.next_transition_time s) (I8254.irq_timer s).
Definition put_latched_count (s : I8254.PITChannelState) (v : _) : I8254.PITChannelState := I8254.mkChannel (I8254.count s) v (I8254.count_latched s) (I8254.status_latched s) (I8254.status s) (I8254.read_state s) (I8254.write_state s) (I8254.write_latch s) (I8254.rw_mode s) (I8254.mode s) (I8254.bcd s) (I8254.gate s) (I8254.count_load_time s) (I8254.next_transition_time s) (I8254.irq_timer s).
Definition put_count_latched (s : I8254.PITChannelState) (v : _) : I8254.PITChannelState := I8254.mkChannel (I8254.count s) (I8254.latched_count s) v (I8254.status_latched s) (I8254.status s) (I8254.read_state s) (I8254.write_state s) (I8254.write_latch s) (I8254.rw_mode s) (I8254.mode s) (I8254.bcd s) (I8254.gate s) (I8254.count_load_time s) (I8254.next_transition_time s) (I8254.irq_timer s).
Definition put_status_latched (s : I8254.PITChannelState) (v : _) : I8254.PITChannelState := I8254.mkChannel (I8254.count s) (I8254.latched_count s) (I8254.count_latched s) v (I8254.status s) (I8254.read_state s) (I8254.write_state s) (I8254.write_latch s) (I8254.rw_mode s) (I8254.mode s) (I8254.bcd s) (I8254.gate s) (I8254.count_load_time s) (I8254.next_transition_time s) (I8254.irq_timer s).
Definition put_status (s : I8254.PITChannelState) (v : _) : I8254.PITChannelState := I8254.mkChannel (I8254.count s) (I8254.latched_count s) (I8254.count_latched s) (I8254.status_latched s) v (I8254.read_state s) (I8254.write_state s) (I8254.write_latch s) (I8254.rw_mode s) (I8254.mode s) (I8254.bcd s) (I8254.gate s) (I8254.count_load_time s) (I8254.next_transition_time s) (I8254.irq_timer s).
Definition put_read_state (s : I8254.PITChannelState) (v : _) : I8254.PITChannelState := I8254.mkChannel (I8254.count s) (I8254.latched_count s) (I8254.count_latched s) (I8254.status_latched s) (I8254.status s) v (I8254.write_state s) (I8254.write_latch s) (I8254.rw_mode s) (I8254.mode s) (I8254.bcd s) (I8254.gate s) (I8254.count_load_time s) (I8254.next_transition_time s) (I8254.irq_timer s).
Definition put_write_state (s : I8254.PITChannelState) (v : _) : I8254.PITChannelState := I8254.mkChannel (I8254.count s) (I8254.latched_count s) (I8254.count_latched s) (I8254.status_latched s) (I8254.status s) (I8254.read_state s) v (I8254.write_latch s) (I8254.rw_mode s) (I8254.mode s) (I8254.bcd s) (I8254.gate s) (I8254.count_load_time s) (I8254.next_transition_time s) (I8254.irq_timer s).
Definition put_write_latch (s : I8254.PITChannelState) (v : _) : I8254.PITChannelState := I8254.mkChannel (I8254.count s) (I8254.latched_count s) (I8254.count_latched s) (I8254.status_latched s) (I8254.status s) (I8254.read_state s) (I8254.write_state s) v (I8254.rw_mode s) (I8254.mode s) (I8254.bcd s) (I8254.gate s) (I8254.count_load_time s) (I8254.next_transition_time s) (I8254.irq_timer s).
Definition put_rw_mode (s : I8254.PITChannelState) (v : _) : I8254.PITChannelState := I8254.mkChannel (I8254.count s) (I8254.latched_count s) (I8254.count_latched s) (I8254.status_latched s) (I8254.status s) (I8254.read_state s) (I8254.write_state s) (I8254.write_latch s) v (I8254.mode s) (I8254.bcd s) (I8254.gate s) (I8254.count_load_time s) (I8254.next_transition_time s) (I8254.irq_timer s).
Definition put_mode (s : I8254.PITChannelState) (v : _) : I8254.PITChannelState := I8254.mkChannel (I8254.count s) (I8254.latched_count s) (I8254.count_latched s) (I8254.status_latched s) (I8254.status s) (I8254.read_state s) (I8254.write_state s) (I8254.write_latch s) (I8254.rw_mode s) v (I8254.bcd s) (I8254.gate s) (I8254.count_load_time s) (I8254.next_transition_time s) (I8254.irq_timer s).
Definition put_bcd (s : I8254.PITChannelState) (v : _) : I8254.PITChannelState := I8254.mkChannel (I8254.count s) (I8254.latched_count s) (I8254.count_latched s) (I8254.status_latched s) (I8254.status s) (I8254.read_state s) (I8254.write_state s) (I8254.write_latch s) (I8254.rw_mode s) (I8254.mode s) v (I8254.gate s) (I8254.count_load_time s) (I8254.next_transition_time s) (I8254.irq_timer s).
Definition put_gate (s : I8254.PITChannelState) (v : _) : I8254.PITChannelState := I8254.mkChannel (I8254.count s) (I8254.latched_count s) (I8254.count_latched s) (I8254.status_latched s) (I8254.status s) (I8254.read_state s) (I8254.write_state s) (I8254.write_latch s) (I8254.rw_mode s) (I8254.mode s) (I8254.bcd s) v (I8254.count_load_time s) (I8254.next_transition_time s) (I8254.irq_timer s).
Definition put_count_load_time (s : I8254.PITChannelState) (v : _) : I8254.PITChannelState := I8254.mkChannel (I8254.count s) (I8254.latched_count s) (I8254.count_latched s) (I8254.status_latched s) (I8254.status s) (I8254.read_state s) (I8254.write_state s) (I8254.write_latch s) (I8254.rw_mode s) (I8254.mode s) (I8254.bcd s) (I8254.gate s) v (I8254.next_transition_time s) (I8254.irq_timer s).
Definition put_next_transition_time (s : I8254.PITChannelState) (v : _) : I8254.PITChannelState := I8254.mkChannel (I8254.count s) (I8254.latched_count s) (I8254.count_latched s) (I8254.status_latched s) (I8254.status s) (I8254.read_state s) (I8254.write_state s) (I8254.write_latch s) (I8254.rw_mode s) (I8254.mode s) (I8254.bcd s) (I8254.gate s) (I8254.count_load_time s) v (I8254.irq_timer s).
Definition put_irq_timer (s : I8254.PITChannelState) (v : _) : I8254.PITChannelState := I8254.mkChannel (I8254.count s) (I8254.latched_count s) (I8254.count_latched s) (I8254.status_latched s) (I8254.status s) (I8254.read_state s) (I8254.write_state s) (I8254.write_latch s) (I8254.rw_mode s) (I8254.mode s) (I8254.bcd s) (I8254.gate s) (I8254.count_load_time s) (I8254.next_transition_time s) v.
Definition put_flags (s : I8254.PITState) (v : Z) : I8254.PITState := I8254.set_flags s v.
Definition put_channels (s : I8254.PITState) (v : list I8254.PITChannelState) : I8254.PITState :=
  I8254.mkPit v (I8254.flags s) (I8254.drifts s) (I8254.irq_log s).
(** The timer of channel 0, and arming or stopping it. *)
Definition timer0 (s : I8254.PITState) : option (option Z) := c ← I8254.channels s !! O; I8254.irq_timer c.
Definition put_timer0 (s : I8254.PITState) (v : option Z) : I8254.PITState :=
  put_channels s (alter (fun c => put_irq_timer c (Some v)) O (I8254.channels s)).

Definition vmstate_pit_channel {W} : VMStateDescription W I8254.PITChannelState :=
  Vmsd (str "pit channel") 2 2 2 no_hooks $
    VMSTATE_INT32 I8254.count put_count $
    VMSTATE_UINT16 I8254.latched_count put_latched_count $
    VMSTATE_UINT8 I8254.count_latched put_count_latched $
    VMSTATE_UINT8 I8254.status_latched put_status_latched $
    VMSTATE_UINT8 I8254.status put_status $
    VMSTATE_UINT8 I8254.read_state put_read_state $
    VMSTATE_UINT8 I8254.write_state put_write_state $
    VMSTATE_UINT8 I8254.write_latch put_write_latch $
    VMSTATE_UINT8 I8254.rw_mode put_rw_mode $
    VMSTATE_UINT8 I8254.mode put_mode $
    VMSTATE_UINT8 I8254.bcd put_bcd $
    VMSTATE_UINT8 I8254.gate put_gate $
    VMSTATE_INT64 I8254.count_load_time put_count_load_time $
    VMSTATE_INT64 I8254.next_transition_time put_next_transition_time $
    FEnd.

(** Loading the state as version 1 wrote it, channel by channel. *)
Definition PIT_SAVEVM_VERSION : Z := 2.
Definition load_channel_old {W} (f : QEMUFile W) (s : I8254.PITChannelState) : res (I8254.PITChannelState * QEMUFile W) :=
  let! '(v, f) := qemu_get_be32 f in let s := put_count s (s32 v) in
  let! '(v, f) := qemu_get_be16 f in let s := put_latched_count s v in
  let! '(v, f) := qemu_get_byte f in let s := put_count_latched s v in
  let! '(v, f) := qemu_get_byte f in let s := put_status_latched s v in
  let! '(v, f) := qemu_get_byte f in let s := put_status s v in
  let! '(v, f) := qemu_get_byte f in let s := put_read_state s v in
  let! '(v, f) := qemu_get_byte f in let s := put_write_state s v in
  let! '(v, f) := qemu_get_byte f in let s := put_write_latch s v in
  let! '(v, f) := qemu_get_byte f in let s := put_rw_mode s v in
  let! '(v, f) := qemu_get_byte f in let s := put_mode s v in
  let! '(v, f) := qemu_get_byte f in let s := put_bcd s v in
  let! '(v, f) := qemu_get_byte f in let s := put_gate s v in
  let! '(v, f) := qemu_get_be64 f in let s := put_count_load_time s (s64 v) in
  match I8254.irq_timer s with
  | None => Ret (s, f)
  | Some t =>
      let! '(v, f) := qemu_get_be64 f in let s := put_next_transition_time s (s64 v) in
      let! '(_, t, f) := get_timer f t 0 in
      Ret (put_irq_timer s (Some t), f)
  end.
Fixpoint load_channels_old {W} (n i : nat) (f : QEMUFile W) (pit : I8254.PITState) : res (I8254.PITState * QEMUFile W) :=
  match n with
  | O => Ret (pit, f)
  | S n =>
      let! s := oget (I8254.channels pit !! i) in
      let! '(s, f) := load_channel_old f s in
      load_channels_old n (i + 1) f (put_channels pit (<[i := s]> (I8254.channels pit)))
  end.
Definition pit_load_old {W} (f : QEMUFile W) (pit : I8254.PITState) (version_id : Z) : res (Z * I8254.PITState * QEMUFile W) :=
  if negb (version_id =? PIT_SAVEVM_VERSION) then Ret (- EINVAL, pit, f)
  else
    let! '(v, f) := qemu_get_be32 f in
    let! '(pit, f) := load_channels_old 3 0 f (put_flags pit v) in
    Ret (0, pit, f).

Definition vmstate_pit {W} : VMStateDescription W I8254.PITState :=
  Vmsd (str "i8254") 2 2 1 (mkHooks (Some pit_load_old) None None None None) $
    VMSTATE_UINT32 I8254.flags put_flags $
    VMSTATE_STRUCT_ARRAY 3 2 vmstate_pit_channel I8254.channels put_channels $
    VMSTATE_TIMER timer0 put_timer0 $
    FEnd.
End PitSave.

(** ** PS/2 devices and their controller *)
Module Ps2Save.
Definition put_write_cmd (s : PS2State) (v : Z) : PS2State := mkPs2 (queue s) v (irqs s).
Definition put_rptr (s : PS2State) (v : Z) : PS2State := let q := queue s in mkPs2 (mkQueue (data q) v (wptr q) (Ps2.count q)) (Ps2.write_cmd s) (irqs s).
Definition put_wptr (s : PS2State) (v : Z) : PS2State := let q := queue s in mkPs2 (mkQueue (data q) (rptr q) v (Ps2.count q)) (Ps2.write_cmd s) (irqs s).
Definition put_count (s : PS2State) (v : Z) : PS2State := let q := queue s in mkPs2 (mkQueue (data q) (rptr q) (wptr q) v) (Ps2.write_cmd s) (irqs s).
Definition put_data (s : PS2State) (v : list Z) : PS2State := let q := queue s in mkPs2 (mkQueue v (rptr q) (wptr q) (Ps2.count q)) (Ps2.write_cmd s) (irqs s).

Definition vmstate_ps2_common {W} : VMStateDescription W PS2State :=
  Vmsd (str "PS2 Common State") 3 2 2 no_hooks $
    VMSTATE_INT32 Ps2.write_cmd put_write_cmd $
    VMSTATE_INT32 (fun s => rptr (queue s)) put_rptr $
    VMSTATE_INT32 (fun s => wptr (queue s)) put_wptr $
    VMSTATE_INT32 (fun s => Ps2.count (queue s)) put_count $
    VMSTATE_BUFFER 256 (fun s => data (queue s)) put_data $
    FEnd.

Definition put_scan_enabled (s : PS2KbdState) (v : Z) : PS2KbdState := mkKbd (kcommon s) v (translate s) (scancode_set s).
Definition put_translate (s : PS2KbdState) (v : Z) : PS2KbdState := mkKbd (kcommon s) (scan_enabled s) v (scancode_set s).
Definition put_scancode_set (s : PS2KbdState) (v : Z) : PS2KbdState := mkKbd (kcommon s) (scan_enabled s) (translate s) v.

Definition ps2_kbd_post_load (s : PS2KbdState) (version_id : Z) : res (Z * PS2KbdState) :=
  Ret (0, if version_id =? 2 then put_scancode_set s 2 else s).

Definition vmstate_ps2_keyboard {W} : VMStateDescription W PS2KbdState :=
  Vmsd (str "ps2kbd") 3 2 2 (mkHooks None None (Some ps2_kbd_post_load) None None) $
    VMSTATE_STRUCT 0 vmstate_ps2_common kcommon set_kcommon $
    VMSTATE_INT32 scan_enabled put_scan_enabled $
    VMSTATE_INT32 translate put_translate $
    VMSTATE_INT32_V 3 scancode_set put_scancode_set $
    FEnd.

Definition put_mouse_status (s : Ps2.PS2MouseState) (v : _) : Ps2.PS2MouseState := Ps2.mkMouse (Ps2.mcommon s) v (Ps2.mouse_resolution s) (Ps2.mouse_sample_rate s) (Ps2.mouse_wrap s) (Ps2.mouse_type s) (Ps2.mouse_detect_state s) (Ps2.mouse_dx s) (Ps2.mouse_dy s) (Ps2.mouse_dz s) (Ps2.mouse_buttons s).
Definition put_mouse_resolution (s : Ps2.PS2MouseState) (v : _) : Ps2.PS2MouseState := Ps2.mkMouse (Ps2.mcommon s) (Ps2.mouse_status s) v (Ps2.mouse_sample_rate s) (Ps2.mouse_wrap s) (Ps2.mouse_type s) (Ps2.mouse_detect_state s) (Ps2.mouse_dx s) (Ps2.mouse_dy s) (Ps2.mouse_dz s) (Ps2.mouse_buttons s).
Definition put_mouse_sample_rate (s : Ps2.PS2MouseState) (v : _) : Ps2.PS2MouseState := Ps2.mkMouse (Ps2.mcommon s) (Ps2.mouse_status s) (Ps2.mouse_resolution s) v (Ps2.mouse_wrap s) (Ps2.mouse_type s) (Ps2.mouse_detect_state s) (Ps2.mouse_dx s) (Ps2.mouse_dy s) (Ps2.mouse_dz s) (Ps2.mouse_buttons s).
Definition put_mouse_wrap (s : Ps2.PS2MouseState) (v : _) : Ps2.PS2MouseState := Ps2.mkMouse (Ps2.mcommon s) (Ps2.mouse_status s) (Ps2.mouse_resolution s) (Ps2.mouse_sample_rate s) v (Ps2.mouse_type s) (Ps2.mouse_detect_state s) (Ps2.mouse_dx s) (Ps2.mouse_dy s) (Ps2.mouse_dz s) (Ps2.mouse_buttons s).
Definition put_mouse_type (s : Ps2.PS2MouseState) (v : _) : Ps2.PS2MouseState := Ps2.mkMouse (Ps2.mcommon s) (Ps2.mouse_status s) (Ps2.mouse_resolution s) (Ps2.mouse_sample_rate s) (Ps2.mouse_wrap s) v (Ps2.mouse_detect_state s) (Ps2.mouse_dx s) (Ps2.mouse_dy s) (Ps2.mouse_dz s) (Ps2.mouse_buttons s).
Definition put_mouse_detect_state (s : Ps2.PS2MouseState) (v : _) : Ps2.PS2MouseState := Ps2.mkMouse (Ps2.mcommon s) (Ps2.mouse_status s) (Ps2.mouse_resolution s) (Ps2.mouse_sample_rate s) (Ps2.mouse_wrap s) (Ps2.mouse_type s) v (Ps2.mouse_dx s) (Ps2.mouse_dy s) (Ps2.mouse_dz s) (Ps2.mouse_buttons s).
Definition put_mouse_dx (s : Ps2.PS2MouseState) (v : _) : Ps2.PS2MouseState := Ps2.mkMouse (Ps2.mcommon s) (Ps2.mouse_status s) (Ps2.mouse_resolution s) (Ps2.mouse_sample_rate s) (Ps2.mouse_wrap s) (Ps2.mouse_type s) (Ps2.mouse_detect_state s) v (Ps2.mouse_dy s) (Ps2.mouse_dz s) (Ps2.mouse_buttons s).
Definition put_mouse_dy (s : Ps2.PS2MouseState) (v : _) : Ps2.PS2MouseState := Ps2.mkMouse (Ps2.mcommon s) (Ps2.mouse_status s) (Ps2.mouse_resolution s) (Ps2.mouse_sample_rate s) (Ps2.mouse_wrap s) (Ps2.mouse_type s) (Ps2.mouse_detect_state s) (Ps2.mouse_dx s) v (Ps2.mouse_dz s) (Ps2.mouse_buttons s).
Definition put_mouse_dz (s : Ps2.PS2MouseState) (v : _) : Ps2.PS2MouseState := Ps2.mkMouse (Ps2.mcommon s) (Ps2.mouse_status s) (Ps2.mouse_resolution s) (Ps2.mouse_sample_rate s) (Ps2.mouse_wrap s) (Ps2.mouse_type s) (Ps2.mouse_detect_state s) (Ps2.mouse_dx s) (Ps2.mouse_dy s) v (Ps2.mouse_buttons s).
Definition put_mouse_buttons (s : Ps2.PS2MouseState) (v : _) : Ps2.PS2MouseState := Ps2.mkMouse (Ps2.mcommon s) (Ps2.mouse_status s) (Ps2.mouse_resolution s) (Ps2.mouse_sample_rate s) (Ps2.mouse_wrap s) (Ps2.mouse_type s) (Ps2.mouse_detect_state s) (Ps2.mouse_dx s) (Ps2.mouse_dy s) (Ps2.mouse_dz s) v.

Definition vmstate_ps2_mouse {W} : VMStateDescription W PS2MouseState :=
  Vmsd (str "ps2mouse") 2 2 2 no_hooks $
    VMSTATE_STRUCT 0 vmstate_ps2_common mcommon set_mcommon $
    VMSTATE_UINT8 mouse_status put_mouse_status $
    VMSTATE_UINT8 mouse_resolution put_mouse_resolution $
    VMSTATE_UINT8 mouse_sample_rate put_mouse_sample_rate $
    VMSTATE_UINT8 mouse_wrap put_mouse_wrap $
    VMSTATE_UINT8 mouse_type put_mouse_type $
    VMSTATE_UINT8 mouse_detect_state put_mouse_detect_state $
    VMSTATE_INT32 mouse_dx put_mouse_dx $
    VMSTATE_INT32 mouse_dy put_mouse_dy $
    VMSTATE_INT32 mouse_dz put_mouse_dz $
    VMSTATE_UINT8 mouse_buttons put_mouse_buttons $
    FEnd.
End Ps2Save.

Module KbdSave.
Definition put_ctl_write_cmd (s : Pckbd.KBDState) (v : _) : Pckbd.KBDState := Pckbd.mkKBD v (Pckbd.status s) (Pckbd.mode s) (Pckbd.pending s) (Pckbd.kbd s) (Pckbd.mouse s) (Pckbd.lines s) (Pckbd.a20 s) (Pckbd.reset_requests s).
Definition put_status (s : Pckbd.KBDState) (v : _) : Pckbd.KBDState := Pckbd.mkKBD (Pckbd.ctl_write_cmd s) v (Pckbd.mode s) (Pckbd.pending s) (Pckbd.kbd s) (Pckbd.mouse s) (Pckbd.lines s) (Pckbd.a20 s) (Pckbd.reset_requests s).
Definition put_mode (s : Pckbd.KBDState) (v : _) : Pckbd.KBDState := Pckbd.mkKBD (Pckbd.ctl_write_cmd s) (Pckbd.status s) v (Pckbd.pending s) (Pckbd.kbd s) (Pckbd.mouse s) (Pckbd.lines s) (Pckbd.a20 s) (Pckbd.reset_requests s).
Definition put_pending (s : Pckbd.KBDState) (v : _) : Pckbd.KBDState := Pckbd.mkKBD (Pckbd.ctl_write_cmd s) (Pckbd.status s) (Pckbd.mode s) v (Pckbd.kbd s) (Pckbd.mouse s) (Pckbd.lines s) (Pckbd.a20 s) (Pckbd.reset_requests s).

Definition vmstate_kbd {W} : VMStateDescription W KBDState :=
  Vmsd (str "pckbd") 3 3 3 no_hooks $
    VMSTATE_UINT8 ctl_write_cmd put_ctl_write_cmd $
    VMSTATE_UINT8 Pckbd.status put_status $
    VMSTATE_UINT8 Pckbd.mode put_mode $
    VMSTATE_UINT8 Pckbd.pending put_pending $
    FEnd.

(** The device on the ISA bus has the controller as its only field. *)
Definition vmstate_kbd_isa {W} : VMStateDescription W KBDState :=
  Vmsd (str "pckbd") 3 3 3 no_hooks $
    VMSTATE_STRUCT 0 vmstate_kbd (fun s => s) (fun _ s => s) $
    FEnd.
End KbdSave.

(** ** mc146818rtc *)
Module RtcSave.
Definition put_tm_sec (s : RTCState) (v : Z) : RTCState := let d := date (current_tm s) in set_tm s (mkRtm (mkTm v (CUtils.tm_min d) (CUtils.tm_hour d) (CUtils.tm_mday d) (CUtils.tm_mon d) (CUtils.tm_year d)) (tm_wday (current_tm s))).
Definition put_tm_min (s : RTCState) (v : Z) : RTCState := let d := date (current_tm s) in set_tm s (mkRtm (mkTm (CUtils.tm_sec d) v (CUtils.tm_hour d) (CUtils.tm_mday d) (CUtils.tm_mon d) (CUtils.tm_year d)) (tm_wday (current_tm s))).
Definition put_tm_hour (s : RTCState) (v : Z) : RTCState := let d := date (current_tm s) in set_tm s (mkRtm (mkTm (CUtils.tm_sec d) (CUtils.tm_min d) v (CUtils.tm_mday d) (CUtils.tm_mon d) (CUtils.tm_year d)) (tm_wday (current_tm s))).
Definition put_tm_mday (s : RTCState) (v : Z) : RTCState := let d := date (current_tm s) in set_tm s (mkRtm (mkTm (CUtils.tm_sec d) (CUtils.tm_min d) (CUtils.tm_hour d) v (CUtils.tm_mon d) (CUtils.tm_year d)) (tm_wday (current_tm s))).
Definition put_tm_mon (s : RTCState) (v : Z) : RTCState := let d := date (current_tm s) in set_tm s (mkRtm (mkTm (CUtils.tm_sec d) (CUtils.tm_min d) (CUtils.tm_hour d) (CUtils.tm_mday d) v (CUtils.tm_year d)) (tm_wday (current_tm s))).
Definition put_tm_year (s : RTCState) (v : Z) : RTCState := let d := date (current_tm s) in set_tm s (mkRtm (mkTm (CUtils.tm_sec d) (CUtils.tm_min d) (CUtils.tm_hour d) (CUtils.tm_mday d) (CUtils.tm_mon d) v) (tm_wday (current_tm s))).
Definition put_tm_wday (s : RTCState) (v : Z) : RTCState := set_tm s (mkRtm (date (current_tm s)) v).
Definition put_cmos_data (s : Rtc.RTCState) (v : _) : Rtc.RTCState := Rtc.mkRtc v (Rtc.cmos_index s) (Rtc.current_tm s) (Rtc.base_year s) (Rtc.irq s) (Rtc.sqw_irq s) (Rtc.periodic_timer s) (Rtc.next_periodic_time s) (Rtc.next_second_time s) (Rtc.irq_reinject_on_ack_count s) (Rtc.irq_coalesced s) (Rtc.period s) (Rtc.coalesced_timer s) (Rtc.second_timer s) (Rtc.second_timer2 s) (Rtc.rtc_td_hack s).
Definition put_cmos_index (s : Rtc.RTCState) (v : _) : Rtc.RTCState := Rtc.mkRtc (Rtc.cmos_data s) v (Rtc.current_tm s) (Rtc.base_year s) (Rtc.irq s) (Rtc.sqw_irq s) (Rtc.periodic_timer s) (Rtc.next_periodic_time s) (Rtc.next_second_time s) (Rtc.irq_reinject_on_ack_count s) (Rtc.irq_coalesced s) (Rtc.period s) (Rtc.coalesced_timer s) (Rtc.second_timer s) (Rtc.second_timer2 s) (Rtc.rtc_td_hack s).
Definition put_periodic_timer (s : Rtc.RTCState) (v : _) : Rtc.RTCState := Rtc.mkRtc (Rtc.cmos_data s) (Rtc.cmos_index s) (Rtc.current_tm s) (Rtc.base_year s) (Rtc.irq s) (Rtc.sqw_irq s) v (Rtc.next_periodic_time s) (Rtc.next_second_time s) (Rtc.irq_reinject_on_ack_count s) (Rtc.irq_coalesced s) (Rtc.period s) (Rtc.coalesced_timer s) (Rtc.second_timer s) (Rtc.second_timer2 s) (Rtc.rtc_td_hack s).
Definition put_next_periodic_time (s : Rtc.RTCState) (v : _) : Rtc.RTCState := Rtc.mkRtc (Rtc.cmos_data s) (Rtc.cmos_index s) (Rtc.current_tm s) (Rtc.base_year s) (Rtc.irq s) (Rtc.sqw_irq s) (Rtc.periodic_timer s) v (Rtc.next_second_time s) (Rtc.irq_reinject_on_ack_count s) (Rtc.irq_coalesced s) (Rtc.period s) (Rtc.coalesced_timer s) (Rtc.second_timer s) (Rtc.second_timer2 s) (Rtc.rtc_td_hack s).
Definition put_next_second_time (s : Rtc.RTCState) (v : _) : Rtc.RTCState := Rtc.mkRtc (Rtc.cmos_data s) (Rtc.cmos_index s) (Rtc.current_tm s) (Rtc.base_year s) (Rtc.irq s) (Rtc.sqw_irq s) (Rtc.periodic_timer s) (Rtc.next_periodic_time s) v (Rtc.irq_reinject_on_ack_count s) (Rtc.irq_coalesced s) (Rtc.period s) (Rtc.coalesced_timer s) (Rtc.second_timer s) (Rtc.second_timer2 s) (Rtc.rtc_td_hack s).
Definition put_irq_coalesced (s : Rtc.RTCState) (v : _) : Rtc.RTCState := Rtc.mkRtc (Rtc.cmos_data s) (Rtc.cmos_index s) (Rtc.current_tm s) (Rtc.base_year s) (Rtc.irq s) (Rtc.sqw_irq s) (Rtc.periodic_timer s) (Rtc.next_periodic_time s) (Rtc.next_second_time s) (Rtc.irq_reinject_on_ack_count s) v (Rtc.period s) (Rtc.coalesced_timer s) (Rtc.second_timer s) (Rtc.second_timer2 s) (Rtc.rtc_td_hack s).
Definition put_period (s : Rtc.RTCState) (v : _) : Rtc.RTCState := Rtc.mkRtc (Rtc.cmos_data s) (Rtc.cmos_index s) (Rtc.current_tm s) (Rtc.base_year s) (Rtc.irq s) (Rtc.sqw_irq s) (Rtc.periodic_timer s) (Rtc.next_periodic_time s) (Rtc.next_second_time s) (Rtc.irq_reinject_on_ack_count s) (Rtc.irq_coalesced s) v (Rtc.coalesced_timer s) (Rtc.second_timer s) (Rtc.second_timer2 s) (Rtc.rtc_td_hack s).
Definition put_second_timer (s : Rtc.RTCState) (v : _) : Rtc.RTCState := Rtc.mkRtc (Rtc.cmos_data s) (Rtc.cmos_index s) (Rtc.current_tm s) (Rtc.base_year s) (Rtc.irq s) (Rtc.sqw_irq s) (Rtc.periodic_timer s) (Rtc.next_periodic_time s) (Rtc.next_second_time s) (Rtc.irq_reinject_on_ack_count s) (Rtc.irq_coalesced s) (Rtc.period s) (Rtc.coalesced_timer s) v (Rtc.second_timer2 s) (Rtc.rtc_td_hack s).
Definition put_second_timer2 (s : Rtc.RTCState) (v : _) : Rtc.RTCState := Rtc.mkRtc (Rtc.cmos_data s) (Rtc.cmos_index s) (Rtc.current_tm s) (Rtc.base_year s) (Rtc.irq s) (Rtc.sqw_irq s) (Rtc.periodic_timer s) (Rtc.next_periodic_time s) (Rtc.next_second_time s) (Rtc.irq_reinject_on_ack_count s) (Rtc.irq_coalesced s) (Rtc.period s) (Rtc.coalesced_timer s) (Rtc.second_timer s) v (Rtc.rtc_td_hack s).

Definition rtc_post_load (e : env) (s : RTCState) (version_id : Z) : res (Z * RTCState) :=
  if 2 <=? version_id then
    if rtc_td_hack s then let! s := rtc_coalesced_timer_update e s in Ret (0, s) else Ret (0, s)
  else Ret (0, s).

Definition vmstate_rtc {W} (e : env) : VMStateDescription W RTCState :=
  Vmsd (str "mc146818rtc") 2 1 1 (mkHooks None None (Some (rtc_post_load e)) None None) $
    VMSTATE_BUFFER 128 cmos_data put_cmos_data $
    VMSTATE_UINT8 cmos_index put_cmos_index $
    VMSTATE_INT32 (fun s => tm_sec (date (current_tm s))) put_tm_sec $
    VMSTATE_INT32 (fun s => tm_min (date (current_tm s))) put_tm_min $
    VMSTATE_INT32 (fun s => tm_hour (date (current_tm s))) put_tm_hour $
    VMSTATE_INT32 (fun s => tm_wday (current_tm s)) put_tm_wday $
    VMSTATE_INT32 (fun s => tm_mday (date (current_tm s))) put_tm_mday $
    VMSTATE_INT32 (fun s => tm_mon (date (current_tm s))) put_tm_mon $
    VMSTATE_INT32 (fun s => tm_year (date (current_tm s))) put_tm_year $
    VMSTATE_TIMER (fun s => Some (periodic_timer s)) put_periodic_timer $
    VMSTATE_INT64 next_periodic_time put_next_periodic_time $
    VMSTATE_INT64 next_second_time put_next_second_time $
    VMSTATE_TIMER (fun s => Some (second_timer s)) put_second_timer $
    VMSTATE_TIMER (fun s => Some (second_timer2 s)) put_second_timer2 $
    VMSTATE_UINT32_V 2 irq_coalesced put_irq_coalesced $
    VMSTATE_UINT32_V 2 period put_period $
    FEnd.
End RtcSave.
