(* ===== verification/SavedDevicesProofs.v ===== *)
(** * What the devices are after a saved state is loaded

    For each device [*_fits] says that the values fit the C types of their fields, and
    [*_copies] what a saved state is after it is loaded: the saved fields are those of the
    source, the others stay those of the machine it is loaded into. *)

From S2P Require Import Prelude QemuFile VmState VmCopy CUtils I8259 I8254 Ps2 Pckbd Rtc SavedDevices.
From stdpp Require Import list.

Open Scope Z_scope.

Section Steps.
Context {W S : Type}.
Implicit Types fields rest : VMStateFields W S.

Definition fields_copy fields (s t : S) (v : Z) (s' t' : S) : Prop := exists bs, copy_fields fields s t v = Some (bs, s', t').
Definition copies (d : VMStateDescription W S) (s t s' t' : S) : Prop := exists bs, copy d s t = Some (bs, s', t').

Lemma end_copies s t v : fields_copy FEnd s t v s t.
Proof. by eexists. Qed.

(** One field whose value is simply replaced. *)
Lemma single_copies {A} v0 size get set (info : VMStateInfo W A) {L : InfoLaw info} rest s t v s' t' x :
  v0 <= v -> fits (get s) size = true -> room (get t) size = true -> xfer (get s) (get t) size = (0, x) -> set s (get s) = s ->
  fields_copy rest s (set t x) v s' t' -> fields_copy (FInfo (single v0 size get set) info rest) s t v s' t'.
Proof.
  intros Hv Hf Hr Hx Hs [bs E]. eexists. cbn [copy_fields]. unfold copy_field, agree, field_exists_save, field_exists_load, single.
  cbn [fa_exists fa_version fa_num fa_size]. rewrite (proj2 (Z.leb_le v0 v)), !Z.eqb_refl by done. cbn [eqb andb].
  change (Z.to_nat 1) with 1%nat. cbn [copy_elems fa_get mbind option_bind]. unfold copy_info. rewrite Hf, Hr, Hx. cbn. rewrite Hs, E. done.
Qed.

Lemma pointer_copies {A} v0 size get set (info : VMStateInfo W A) {L : InfoLaw info} rest s t v s' t' a b x :
  v0 <= v -> get s = Some a -> get t = Some b -> fits a size = true -> room b size = true -> xfer a b size = (0, x) -> set s a = s ->
  fields_copy rest s (set t x) v s' t' -> fields_copy (FInfo (pointer v0 size get set) info rest) s t v s' t'.
Proof.
  intros Hv Ha Hb Hf Hr Hx Hs [bs E]. eexists. cbn [copy_fields]. unfold copy_field, agree, field_exists_save, field_exists_load, pointer.
  cbn [fa_exists fa_version fa_num fa_size]. rewrite (proj2 (Z.leb_le v0 v)), !Z.eqb_refl by done. cbn [eqb andb].
  change (Z.to_nat 1) with 1%nat. cbn [copy_elems fa_get mbind option_bind]. rewrite Ha, Hb. cbn [mbind option_bind].
  unfold copy_info. rewrite Hf, Hr, Hx. cbn. rewrite Hs, E. done.
Qed.
End Steps.

Lemma struct_copies {W S A} v0 (d : VMStateDescription W A) get set rest (s t : S) v s' t' b' :
  v0 <= v -> copies d (get s) (get t) (get s) b' -> set s (get s) = s ->
  fields_copy rest s (set t b') v s' t' -> fields_copy (FStruct (single v0 0 get set) d rest) s t v s' t'.
Proof.
  intros Hv [b1 Hd] Hs [bs E]. eexists. cbn [copy_fields]. unfold copy_field, agree, field_exists_save, field_exists_load, single.
  cbn [fa_exists fa_version fa_num fa_size]. rewrite (proj2 (Z.leb_le v0 v)), !Z.eqb_refl by done. cbn [eqb andb].
  change (Z.to_nat 1) with 1%nat. cbn [copy_elems fa_get mbind option_bind]. rewrite Hd. cbn. rewrite Hs, E. done.
Qed.

(** The fields of a description whose saving changes the source to [s1] at most. *)
Lemma desc_copies {W S} name v mn mo (hooks : VMStateHooks W S) fields s s1 t t1 t' :
  mo <= v -> mn <= v -> pre_load hooks = None -> match pre_save hooks with Some h => h s | None => s end = s1 -> post_save hooks = None ->
  fields_copy fields s1 t v s1 t1 -> match post_load hooks with Some h => h t1 v | None => Ret (0, t1) end = Ret (0, t') ->
  copies (Vmsd name v mn mo hooks fields) s t s1 t'.
Proof.
  intros H1 H2 Hpl Hps Hpo [bs E] Hl. exists bs. cbn [copy]. rewrite !(proj2 (Z.leb_le _ _)) by done. cbn [andb].
  unfold copy_hooks. rewrite Hpl, Hps, Hpo, Z.eqb_refl. cbn [negb]. rewrite E. cbn [mbind option_bind]. rewrite Hl. done.
Qed.

(** ** i8259 *)
Definition pic_fits (s : PicState) : bool :=
  forallb (fits_u 8) [last_irr s; irr s; imr s; isr s; priority_add s; irq_base s; read_reg_select s; poll s; special_mask s; init_state s;
    auto_eoi s; rotate_on_auto_eoi s; special_fully_nested_mode s; init4 s; single_mode s; elcr s].

(** Only the mask of the edge/level register belongs to the board. *)
Definition pic_restored (s t : PicState) : PicState :=
  {| last_irr := last_irr s; irr := irr s; imr := imr s; isr := isr s; priority_add := priority_add s; irq_base := irq_base s;
     read_reg_select := read_reg_select s; poll := poll s; special_mask := special_mask s; init_state := init_state s; auto_eoi := auto_eoi s;
     rotate_on_auto_eoi := rotate_on_auto_eoi s; special_fully_nested_mode := special_fully_nested_mode s; init4 := init4 s;
     single_mode := single_mode s; elcr := elcr s; elcr_mask := elcr_mask t |}.

Ltac split_bools := repeat match goal with H : _ && _ = true |- _ => apply andb_prop in H as [? ?] | H : forallb _ (_ :: _) = true |- _ => cbn [forallb] in H end.
Ltac single_field := eapply single_copies; [lia|assumption || done|reflexivity || assumption|reflexivity|reflexivity|].

Ltac device_copies tac := eapply desc_copies; [lia|lia|done|done|done|tac|reflexivity].

Lemma pic_copies {W} s t : pic_fits s = true -> copies (W:=W) PicSave.vmstate_pic s t s (pic_restored s t).
Proof.
  intros H. unfold pic_fits in H. split_bools. destruct s, t. cbn in *.
  device_copies ltac:(do 16 single_field; apply end_copies).
Qed.

(** ** i8254 *)
Definition chan_fits (c : PITChannelState) : bool :=
  fits_s 32 (I8254.count c) && fits_u 16 (latched_count c) &&
  forallb (fits_u 8) [count_latched c; status_latched c; I8254.status c; read_state c; write_state c; write_latch c; rw_mode c; I8254.mode c; bcd c; gate c] &&
  fits_s 64 (count_load_time c) && fits_s 64 (next_transition_time c).

Lemma chan_copies {W} c d : chan_fits c = true -> copies (W:=W) PitSave.vmstate_pit_channel c d c (PitSave.put_irq_timer c (irq_timer d)).
Proof.
  intros H. unfold chan_fits in H. split_bools. destruct c, d. cbn in *. device_copies ltac:(do 14 single_field; apply end_copies).
Qed.

(** An array of structures, the target's elements replaced one by one. *)
Section Arrays.
Context {W S A : Type} (d : VMStateDescription W A) (get : S -> list A) (set : S -> list A -> S).
Hypothesis get_set : forall x y, get (set x y) = y.
Hypothesis set_set : forall x y z, set (set x y) z = set x z.
Hypothesis set_get : forall x, set x (get x) = x.

Lemma insert_step (l l' : list A) i b : length l = length l' -> l' !! i = Some b ->
  <[i := b]> (take i l' ++ drop i l) = take (i + 1) l' ++ drop (i + 1) l.
Proof.
  intros Hl Hb. pose proof (lookup_lt_Some _ _ _ Hb). rewrite Nat.add_1_r, (take_S_r _ _ b) by done.
  destruct (lookup_lt_is_Some_2 l i) as [c Hc]; [lia|]. rewrite (drop_S l c) by done.
  rewrite insert_app_r_alt by (rewrite length_take; lia). rewrite length_take, Nat.min_l, Nat.sub_diag by lia. cbn. by rewrite <- app_assoc.
Qed.

Lemma array_elems v0 num s t (l' : list A) : length (get s) = length l' -> length (get t) = length l' ->
  (forall i a b b', get s !! i = Some a -> get t !! i = Some b -> l' !! i = Some b' -> copies d a b a b') ->
  forall n i, (i + n = length l')%nat ->
  exists bs, copy_elems (copy d) (array v0 num 0 get set) n i s (set t (take i l' ++ drop i (get t))) = Some (bs, s, set t l').
Proof.
  intros Hs Ht Hc. induction n as [|n IH]; intros i Hi; cbn [copy_elems].
  { rewrite take_ge, drop_ge, app_nil_r by lia. by eexists. }
  destruct (lookup_lt_is_Some_2 (get s) i) as [a Ha]; [lia|]. destruct (lookup_lt_is_Some_2 (get t) i) as [b Hb]; [lia|].
  destruct (lookup_lt_is_Some_2 l' i) as [b' Hb']; [lia|]. destruct (Hc i a b b' Ha Hb Hb') as [b1 E].
  cbn [array fa_get fa_set]. rewrite get_set, Ha, lookup_app_r by (rewrite length_take; lia).
  rewrite length_take, Nat.min_l, Nat.sub_diag, lookup_drop, Nat.add_0_r, Hb by lia. cbn [mbind option_bind]. rewrite E. cbn [mbind option_bind].
  rewrite list_insert_id, set_get, set_set, insert_step by (done || lia). destruct (IH (i + 1)%nat) as [b2 E2]; [lia|].
  rewrite E2. cbn. by eexists.
Qed.

Lemma array_copies v0 num rest s t v s' t' l' :
  v0 <= v -> 0 <= num -> length (get s) = Z.to_nat num -> length (get t) = Z.to_nat num -> length l' = Z.to_nat num ->
  (forall i a b b', get s !! i = Some a -> get t !! i = Some b -> l' !! i = Some b' -> copies d a b a b') ->
  fields_copy rest s (set t l') v s' t' -> fields_copy (FStruct (array v0 num 0 get set) d rest) s t v s' t'.
Proof.
  intros Hv Hn H1 H2 H3 Hc [bs E]. destruct (array_elems v0 num s t l' ltac:(lia) ltac:(lia) Hc (Z.to_nat num) 0) as [b1 E1]; [lia|].
  rewrite take_0, drop_0, set_get in E1. eexists. cbn [copy_fields].
  unfold copy_field, agree, field_exists_save, field_exists_load. unfold array in E1 |- *. cbn [fa_exists fa_version fa_num fa_size].
  rewrite (proj2 (Z.leb_le v0 v)), !Z.eqb_refl by done. cbn [eqb andb]. rewrite E1. cbn. rewrite E. done.
Qed.
End Arrays.

(** The timers that exist: that of channel 0. *)
Definition timers_placed (s : PITState) : bool :=
  match map irq_timer (channels s) with [Some _; None; None] => true | _ => false end.
Definition pit_fits (s : PITState) : bool :=
  fits_u 32 (flags s) && timers_placed s && forallb chan_fits (channels s) && match PitSave.timer0 s with Some t => timer_fits t | None => false end.
Definition pit_restored (s t : PITState) : PITState := mkPit (channels s) (flags s) (drifts t) (irq_log t).

Lemma pit_copies {W} s t : pit_fits s = true -> timers_placed t = true -> copies (W:=W) PitSave.vmstate_pit s t s (pit_restored s t).
Proof.
  intros H Ht. unfold pit_fits in H. split_bools. destruct s as [cs fl dr lg], t as [ds fl' dr' lg'].
  unfold timers_placed in *. cbn [channels flags drifts irq_log] in *.
  destruct cs as [|c0 [|c1 [|c2 []]]]; try (cbn in *; repeat case_match; done).
  destruct ds as [|d0 [|d1 [|d2 []]]]; try (cbn in *; repeat case_match; done). cbn [map forallb] in *. split_bools.
  destruct (irq_timer c0) as [e|] eqn:Ec0, (irq_timer c1) eqn:Ec1, (irq_timer c2) eqn:Ec2; try done.
  destruct (irq_timer d0) as [e'|] eqn:Ed0, (irq_timer d1) eqn:Ed1, (irq_timer d2) eqn:Ed2; try done.
  assert (timer_fits e = true) as He by (unfold PitSave.timer0 in *; cbn in *; rewrite Ec0 in *; done).
  eapply desc_copies; [lia|lia|done|done|done| |reflexivity]. single_field.
  apply (array_copies _ I8254.channels PitSave.put_channels ltac:(done) ltac:(done) ltac:(by intros []) _ _ _ _ _ _ _ _ [PitSave.put_irq_timer c0 (irq_timer d0); c1; c2]); try (done || lia).
  { intros i a b b' Ha Hb Hb'. assert (b' = PitSave.put_irq_timer a (irq_timer b) /\ chan_fits a = true) as [-> ?]; [|by apply chan_copies].
    destruct i as [|[|[|]]]; cbn in *; simplify_eq; (split; [|done]); [done|rewrite Ed1|rewrite Ed2]; destruct a; cbn in *; by subst. }
  eapply (pointer_copies _ _ _ _ _ _ _ _ _ _ _ e e'); try (done || reflexivity).
  - cbn. destruct c0; cbn in *; by subst.
  - exists []. cbn. destruct c0; cbn in *; by subst.
Qed.

(** ** PS/2 *)
Definition ps2_fits (s : PS2State) : bool :=
  forallb (fits_s 32) [write_cmd s; rptr (queue s); wptr (queue s); Ps2.count (queue s)] && (256 =? Z.of_nat (length (data (queue s)))).
Definition ps2_restored (s t : PS2State) : PS2State := mkPs2 (queue s) (write_cmd s) (irqs t).

(** The buffer of the queue is replaced as a whole. *)
Lemma whole_buffer (a b : list Z) n : n = Z.of_nat (length a) -> n = Z.of_nat (length b) -> take (Z.to_nat n) a ++ drop (Z.to_nat n) b = a.
Proof. intros Ha Hb. by rewrite take_ge, drop_ge, app_nil_r by lia. Qed.

Ltac buffer_field :=
  eapply single_copies; [lia|apply andb_true_intro; split; apply Z.leb_le; cbn; lia|apply Z.leb_le; cbn; lia|cbn; rewrite whole_buffer by (cbn; lia); reflexivity|reflexivity|].

Lemma ps2_copies {W} s t : ps2_fits s = true -> length (data (queue t)) = 256%nat ->
  copies (W:=W) Ps2Save.vmstate_ps2_common s t s (ps2_restored s t).
Proof.
  intros H Ht. unfold ps2_fits in H. split_bools. match goal with H : (_ =? _) = true |- _ => apply Z.eqb_eq in H end.
  destruct s as [[] ? ?], t as [[] ? ?]. cbn in *.
  device_copies ltac:(do 4 single_field; buffer_field; apply end_copies).
Qed.

Definition ps2kbd_fits (s : PS2KbdState) : bool := ps2_fits (kcommon s) && forallb (fits_s 32) [scan_enabled s; translate s; scancode_set s].
Definition ps2kbd_restored (s t : PS2KbdState) : PS2KbdState := set_kcommon s (ps2_restored (kcommon s) (kcommon t)).

Lemma ps2kbd_copies {W} s t : ps2kbd_fits s = true -> length (data (queue (kcommon t))) = 256%nat ->
  copies (W:=W) Ps2Save.vmstate_ps2_keyboard s t s (ps2kbd_restored s t).
Proof.
  intros H Ht. unfold ps2kbd_fits in H. split_bools. destruct s, t.
  device_copies ltac:(eapply struct_copies; [lia|by apply ps2_copies|reflexivity|]; do 3 single_field; apply end_copies).
Qed.

Definition ps2mouse_fits (s : PS2MouseState) : bool :=
  ps2_fits (mcommon s) && forallb (fits_u 8) [mouse_status s; mouse_resolution s; mouse_sample_rate s; mouse_wrap s; mouse_type s; mouse_detect_state s; mouse_buttons s]
  && forallb (fits_s 32) [mouse_dx s; mouse_dy s; mouse_dz s].
Definition ps2mouse_restored (s t : PS2MouseState) : PS2MouseState := set_mcommon s (ps2_restored (mcommon s) (mcommon t)).

Lemma ps2mouse_copies {W} s t : ps2mouse_fits s = true -> length (data (queue (mcommon t))) = 256%nat ->
  copies (W:=W) Ps2Save.vmstate_ps2_mouse s t s (ps2mouse_restored s t).
Proof.
  intros H Ht. unfold ps2mouse_fits in H. split_bools. destruct s, t.
  device_copies ltac:(eapply struct_copies; [lia|by apply ps2_copies|reflexivity|]; do 10 single_field; apply end_copies).
Qed.

Definition kbd_fits (s : KBDState) : bool := forallb (fits_u 8) [ctl_write_cmd s; Pckbd.status s; Pckbd.mode s; Pckbd.pending s].
Definition kbd_restored (s t : KBDState) : KBDState := set_regs t (ctl_write_cmd s) (Pckbd.status s) (Pckbd.mode s) (Pckbd.pending s).

Lemma kbd_copies {W} s t : kbd_fits s = true -> copies (W:=W) KbdSave.vmstate_kbd s t s (kbd_restored s t).
Proof. intros H. unfold kbd_fits in H. split_bools. destruct s, t. device_copies ltac:(do 4 single_field; apply end_copies). Qed.

Lemma kbd_isa_copies {W} s t : kbd_fits s = true -> copies (W:=W) KbdSave.vmstate_kbd_isa s t s (kbd_restored s t).
Proof. intros H. device_copies ltac:(eapply struct_copies; [lia|by apply kbd_copies|reflexivity|]; apply end_copies). Qed.

(** ** mc146818rtc *)
Definition rtc_fits (s : RTCState) : bool :=
  let d := date (current_tm s) in
  (128 =? Z.of_nat (length (cmos_data s))) && fits_u 8 (cmos_index s) &&
  forallb (fits_s 32) [tm_sec d; tm_min d; tm_hour d; tm_wday (current_tm s); tm_mday d; tm_mon d; tm_year d] &&
  forallb timer_fits [periodic_timer s; second_timer s; second_timer2 s] && forallb (fits_s 64) [next_periodic_time s; next_second_time s] &&
  forallb (fits_u 32) [irq_coalesced s; Rtc.period s].
(** The timer for missed interrupts is set up again from what was saved. *)
Definition rtc_restored (s t : RTCState) : RTCState :=
  mkRtc (cmos_data s) (cmos_index s) (current_tm s) (base_year t) (Rtc.irq t) (sqw_irq t) (periodic_timer s) (next_periodic_time s) (next_second_time s)
    (irq_reinject_on_ack_count t) (irq_coalesced s) (Rtc.period s) (coalesced_timer t) (second_timer s) (second_timer2 s) (rtc_td_hack t).

Lemma rtc_copies {W} e s t t' : rtc_fits s = true -> length (cmos_data t) = 128%nat ->
  (if rtc_td_hack t then rtc_coalesced_timer_update e (rtc_restored s t) = Ret t' else t' = rtc_restored s t) ->
  copies (W:=W) (RtcSave.vmstate_rtc e) s t s t'.
Proof.
  intros H Ht Htd. unfold rtc_fits in H. split_bools. match goal with H : (_ =? _) = true |- _ => apply Z.eqb_eq in H end.
  destruct s as [? ? [[] ?]], t as [? ? [[] ?]]. cbn in *.
  eapply desc_copies; [lia|lia|done|done|done| |].
  - buffer_field. do 8 single_field. eapply pointer_copies; [lia|reflexivity..|done|reflexivity|reflexivity|reflexivity|]. do 2 single_field.
    do 2 (eapply pointer_copies; [lia|reflexivity..|done|reflexivity|reflexivity|reflexivity|]). do 2 single_field. apply end_copies.
  - destruct rtc_td_hack0; [|by rewrite Htd]. exact (f_equal (fun r => let! s := r in Ret (0, s)) Htd).
Qed.
