(* ===== verification/SerialSave.v ===== *)
(** * The saved state of the serial port

    The description of hw/serial.c, what a port is after a load, and what is wrong with it:
    neither the bytes in the FIFOs nor the interrupt line are restored. *)

From stdpp Require Import list strings.
From S2P Require Import Prelude I8254 QemuFile VmState VmCopy SavedDevices SavedDevicesProofs Serial SerialProofs SerialReceive.

Open Scope Z_scope.

Definition vmstate_serial {W} (e : env) : VMStateDescription W SerialState :=
  Vmsd (str "serial") 3 2 0 (mkHooks None None (Some (serial_post_load e)) (Some serial_pre_save) None) $
    VMSTATE_UINT16_V 2 divider set_divider $
    VMSTATE_UINT8 rbr set_rbr $
    VMSTATE_UINT8 ier set_ier $
    VMSTATE_UINT8 iir set_iir $
    VMSTATE_UINT8 lcr set_lcr $
    VMSTATE_UINT8 mcr set_mcr $
    VMSTATE_UINT8 lsr set_lsr $
    VMSTATE_UINT8 msr set_msr $
    VMSTATE_UINT8 scr set_scr $
    VMSTATE_UINT8_V 3 fcr_vmstate set_fcr_vmstate $
    FEnd.

Definition serial_fits (s : SerialState) : bool := fits_u 16 (divider s) && forallb (fits_u 8) [rbr s; ier s; iir s; lcr s; mcr s; lsr s; msr s; scr s; fcr s].

(** The saved registers of [s] in [t], before the FIFOs are set up. *)
Definition serial_restored (s t : SerialState) : SerialState :=
  let t := set_rbr (set_divider t (divider s)) (rbr s) in
  let t := set_lcr (set_iir (set_ier t (ier s)) (iir s)) (lcr s) in
  let t := set_msr (set_lsr (set_mcr t (mcr s)) (lsr s)) (msr s) in
  set_fcr_vmstate (set_scr t (scr s)) (fcr s).

Lemma serial_copies {W} e s t : serial_fits s = true ->
  copies (W:=W) (vmstate_serial e) s t (serial_pre_save s) (write_fcr (serial_restored s t) (fcr s)).
Proof.
  intros H. unfold serial_fits in H. split_bools. eapply desc_copies; [lia|lia|done|done|done|do 10 single_field; apply end_copies|reflexivity].
Qed.

Lemma serial_ok_fits s : serial_ok s -> serial_fits s = true.
Proof.
  intros [[]  _ _]. unfold serial_fits, is_byte in *. cbn [forallb]. unfold fits_u. rewrite !andb_true_iff, !Z.leb_le, !Z.ltb_lt. lia.
Qed.

Lemma restored_ok s t : serial_ok s -> serial_ok t -> regs_ok (serial_restored s t) /\ ready (serial_restored s t).
Proof. intros [[] [] _] [[] [] _]. by split; split. Qed.

(** Loading over a port whose FIFOs are off gives a working port again if they were set up,
    with an empty receiver FIFO. *)
Lemma serial_loaded {W} e s t : serial_ok s -> serial_ok t -> fcr s <> 0 -> fcr t = 0 ->
  exists t', copies (W:=W) (vmstate_serial e) s t (serial_pre_save s) t' /\ serial_ok t' /\
    (divider t', ier t', lcr t', mcr t', lsr t', msr t', scr t') = (divider s, ier s, lcr s, mcr s, lsr s, msr s, scr s) /\ (fifo_mode t' = true -> unread t' = []).
Proof.
  intros Hok Ht Hf Hz. eexists. split; [apply serial_copies, serial_ok_fits, Hok|]. destruct (restored_ok s t Hok Ht) as [Hrt Rrt].
  destruct (fcr_frame (serial_restored s t) (fcr s)) as (-> & -> & -> & -> & -> & -> & ->). split; [|split; [done|]].
  - apply write_fcr_changed; [done|done|]. change (fcr (serial_restored s t)) with (fcr t). rewrite Hz. pose proof (ro_fcr _ (so_regs _ Hok)) as Hb.
    change 0xFF with (Z.ones 8). rewrite Z.land_ones, Z.mod_small; unfold is_byte in *; lia.
  - intros Hm. unfold unread. rewrite Hm. destruct (fcr_fifo (serial_restored s t) (fcr s) Hz Hm) as (n & _ & ->). done.
Qed.

(** ** Where the code falls short *)
Definition after (es : list (Z * event)) (s : SerialState) : SerialState :=
  match serial_run (map (fun x => (env_at (fst x), snd x)) es) s with Ret (_, s) => s | _ => s end.
Definition loaded_over (s t : SerialState) : SerialState := write_fcr (serial_restored s t) (fcr s).

(** The bytes in the FIFO are gone after a load, but the status still announces them, and the
    guest reads a zero. *)
Lemma load_loses_bytes :
  let s := loaded_over (after [(1, Out 2 0x41); (2, Receive [65; 66])] (started (env_at 0))) (started (env_at 0)) in
  (unread s, data_ready s) = ([], true) /\ match serial_ioport_read (env_at 3) s 0 with Ret (v, _) => v = 0 | _ => False end.
Proof. by vm_compute. Qed.

(** Without FIFOs the interrupt line stays low after a load though an interrupt is pending. *)
Lemma load_forgets_interrupt :
  let s := loaded_over (after [(1, Out 1 1); (2, Receive [65])] (started (env_at 0))) (started (env_at 0)) in (iir s, irq s) = (UART_IIR_RDI, 0).
Proof. by vm_compute. Qed.

(** A byte the character device refuses is dropped: the retries are never started. *)
Lemma refused_byte_dropped :
  let s := match serial_ioport_write (mkEnv 1 0 None 0) (started (env_at 0)) 0 65 with Ret s => s | _ => started (env_at 0) end in
  (log s, transmit_timer s, tsr_retry s) = ([ChrWrite 65], None, 0).
Proof. by vm_compute. Qed.

(** Resetting the receiver FIFO leaves the status bit for its bytes. *)
Lemma fifo_reset_keeps_ready :
  let s := after [(1, Out 2 1); (2, Receive [65]); (3, Out 2 3)] (started (env_at 0)) in (unread s, data_ready s) = ([], true).
Proof. by vm_compute. Qed.

(** A reset leaves a timeout pending, which interrupts the guest for an empty FIFO. *)
Lemma reset_keeps_timeout :
  let s := after [(1, Out 2 0x41); (2, Receive [65]); (20000000, FifoTimer); (20000001, Reset); (20000002, Out 1 1)] (started (env_at 0)) in
  (unread s, Z.land (iir s) 0x0F, irq s) = ([], UART_IIR_CTI, 1).
Proof. by vm_compute. Qed.

(** In loopback mode a full FIFO takes more bytes: the oldest are overwritten and no overrun
    is reported. *)
Lemma loopback_overruns :
  let s := after ([(1, Out 2 1); (2, Out 4 0x10)] ++ map (fun n => (3, Out 0 (Z.of_nat n))) (seq 1 17)) (started (env_at 0)) in
  (count (recv_fifo s), lsr s, match serial_ioport_read (env_at 4) s 0 with Ret (v, _) => v | _ => 0 end) = (17, 0x61, 17).
Proof. by vm_compute. Qed.

(** Without modem lines, a write to the modem control register passes on bits of an
    uninitialised variable. *)
Lemma modem_control_junk j :
  match serial_ioport_write (mkEnv 1 1 None j) (started (env_at 0)) 4 3 with Ret s => log s | _ => [] end = [ChrSetTiocm (Z.lor (Z.lor (Z.land j (Z.lnot 6)) 4) 2)].
Proof. reflexivity. Qed.

(** The description accepts the versions 0 and 1 but has no function to load them. *)
Lemma old_version_faults {W} e (f : QEMUFile W) s v : v = 0 \/ v = 1 -> vmstate_load_state (vmstate_serial e) f s v = Fault.
Proof. by intros [-> | ->]. Qed.
