(* ===== verification/Savevm.v ===== *)
(** * Saving and loading the machine: the sections of savevm.c

    The registered entries and the counter of section ids are one state.  [M] is the state
    of the machine; where the source passes an entry's [opaque] pointer, the handlers here
    take the machine and act on their part of it, a described object is the pair of
    functions that read and write it, and the addresses of the object and of its
    description are kept for the comparisons.  Names are the bytes before the terminating
    zero.  Stopping, starting and flushing the machine are parameters.  Messages to the
    user are left out. *)

From S2P Require Import Prelude QemuFile VmState.
From stdpp Require Import list.

Open Scope Z_scope.

Definition EIO : Z := 5.
Definition ENOTSUP : Z := 95.

Definition QEMU_VM_FILE_MAGIC : Z := 0x5145564d.
Definition QEMU_VM_FILE_VERSION_COMPAT : Z := 2.
Definition QEMU_VM_FILE_VERSION : Z := 3.
Definition QEMU_VM_EOF : Z := 0.
Definition QEMU_VM_SECTION_START : Z := 1.
Definition QEMU_VM_SECTION_PART : Z := 2.
Definition QEMU_VM_SECTION_END : Z := 3.
Definition QEMU_VM_SECTION_FULL : Z := 4.

(** [pstrcpy] into an array of [size] bytes. *)
Definition stored_name (size : nat) (name : list Z) : list Z := take (size - 1) name.
(** The C string at the start of an array; bytes never written are [None]. *)
Fixpoint cstr (bs : list (option Z)) : res (list Z) :=
  match bs with Some c :: bs => if c =? 0 then Ret [] else let! s := cstr bs in Ret (c :: s) | _ => Fault end.
Definition same_name (a b : list Z) : bool := bool_decide (a = b).

(** A description together with the object it is registered for. *)
Inductive VmsdOf (W M : Type) : Type :=
| VmsdAt (address : Z) (S : Type) (vmsd : VMStateDescription W S) (obj_get : M -> S) (obj_set : M -> S -> M).
Arguments VmsdAt {W M} address {S}.

Record SaveStateEntry (W M : Type) : Type := mkSe {
  idstr : list Z; instance_id : Z; version_id : Z; section_id : Z;
  set_params : option (Z -> Z -> M -> M);
  save_live_state : option (QEMUFile W -> Z -> M -> res (Z * M * QEMUFile W));
  save_state : option (QEMUFile W -> M -> res (M * QEMUFile W));
  load_state : option (QEMUFile W -> M -> Z -> res (Z * M * QEMUFile W));
  vmsd : option (VmsdOf W M); se_opaque : Z
}.
Arguments mkSe {W M}.
Arguments idstr {W M}. Arguments instance_id {W M}. Arguments version_id {W M}. Arguments section_id {W M}. Arguments set_params {W M}.
Arguments save_live_state {W M}. Arguments save_state {W M}. Arguments load_state {W M}. Arguments vmsd {W M}. Arguments se_opaque {W M}.

Record LoadStateEntry (W M : Type) : Type := mkLe { le_se : SaveStateEntry W M; le_section_id : Z; le_version_id : Z }.
Arguments mkLe {W M}. Arguments le_se {W M}. Arguments le_section_id {W M}. Arguments le_version_id {W M}.

Record registry (W M : Type) : Type := mkReg { savevm_handlers : list (SaveStateEntry W M); global_section_id : Z }.
Arguments mkReg {W M}. Arguments savevm_handlers {W M}. Arguments global_section_id {W M}.

Section Registry.
Context {W M : Type}.
Implicit Types (r : registry W M) (hs : list (SaveStateEntry W M)).

Fixpoint new_instance_loop hs (name : list Z) (id : Z) : res Z :=
  match hs with
  | [] => Ret id
  | se :: hs =>
      if same_name name (idstr se) && (id <=? instance_id se)
      then if int_ok (instance_id se + 1) then new_instance_loop hs name (instance_id se + 1) else Fault
      else new_instance_loop hs name id
  end.
Definition calculate_new_instance_id r (name : list Z) : res Z := new_instance_loop (savevm_handlers r) name 0.

Definition insert_tail r (se : SaveStateEntry W M) : registry W M :=
  mkReg (savevm_handlers r ++ [se]) (global_section_id r + 1).

Definition register_savevm_live r (name : list Z) (instance version : Z) set_params save_live save load (opaque : Z) : res (registry W M) :=
  let! instance := (if instance =? -1 then calculate_new_instance_id r name else Ret instance) in
  Ret (insert_tail r (mkSe (stored_name 256 name) instance version (global_section_id r) set_params save_live save load None opaque)).

Definition register_savevm r (name : list Z) (instance version : Z) save load (opaque : Z) : res (registry W M) :=
  register_savevm_live r name instance version None None save load opaque.

Definition unregister_savevm r (name : list Z) (opaque : Z) : registry W M :=
  mkReg (filter (fun se => negb (same_name (idstr se) name && (se_opaque se =? opaque)) = true) (savevm_handlers r)) (global_section_id r).

Definition vmsd_name {S} (d : VMStateDescription W S) : list Z := match d with Vmsd name _ _ _ _ _ => name end.

Definition vmstate_register r (instance : Z) (d : VmsdOf W M) (opaque : Z) : res (registry W M) :=
  match d with
  | VmsdAt _ desc _ _ =>
      let! instance := (if instance =? -1 then calculate_new_instance_id r (vmsd_name desc) else Ret instance) in
      Ret (insert_tail r (mkSe (stored_name 256 (vmsd_name desc)) instance (vmsd_version desc) (global_section_id r) None None None None (Some d) opaque))
  end.

Definition at_address (d : option (VmsdOf W M)) (address : Z) : bool :=
  match d with Some (VmsdAt a _ _ _) => a =? address | None => false end.
Definition vmstate_unregister r (address opaque : Z) : registry W M :=
  mkReg (filter (fun se => negb (at_address (vmsd se) address && (se_opaque se =? opaque)) = true) (savevm_handlers r)) (global_section_id r).
End Registry.

(** ** One entry *)
Section Entries.
Context {W M : Type}.
Implicit Types (se : SaveStateEntry W M) (f : QEMUFile W) (m : M) (hs : list (SaveStateEntry W M)).

Definition vmstate_load f se m (version : Z) : res (Z * M * QEMUFile W) :=
  match vmsd se with
  | None => match load_state se with Some load => load f m version | None => Fault end
  | Some (VmsdAt _ d get set) =>
      let! '(ret, s, f) := vmstate_load_state d f (get m) version in Ret (ret, set m s, f)
  end.

Definition vmstate_save f se m : res (M * QEMUFile W) :=
  match vmsd se with
  | None => match save_state se with Some save => save f m | None => Fault end
  | Some (VmsdAt _ d get set) =>
      let! '(s, f) := vmstate_save_state d f (get m) in Ret (set m s, f)
  end.

(** ** Saving *)
(** The header of a section: its type and id, and for a new section the name, the instance
    and the version. *)
Definition put_section f se (type : Z) : res (QEMUFile W) :=
  let! f := qemu_put_byte f type in qemu_put_be32 f (u32 (section_id se)).
Definition put_section_start f se (type : Z) : res (QEMUFile W) :=
  let! f := put_section f se type in
  let len := Z.of_nat (length (idstr se)) in
  let! f := qemu_put_byte f len in
  let! f := qemu_put_buffer f (idstr se) in
  let! f := qemu_put_be32 f (u32 (instance_id se)) in
  qemu_put_be32 f (u32 (version_id se)).

Definition set_all_params hs (blk_enable shared : Z) m : M :=
  foldl (fun m se => match set_params se with Some h => h blk_enable shared m | None => m end) m hs.

Fixpoint qemu_savevm_state_cancel hs f m : res (M * QEMUFile W) :=
  match hs with
  | [] => Ret (m, f)
  | se :: hs =>
      match save_live_state se with
      | Some live => let! '(_, m, f) := live f (-1) m in qemu_savevm_state_cancel hs f m
      | None => qemu_savevm_state_cancel hs f m
      end
  end.

Fixpoint begin_loop hs f m : res (M * QEMUFile W) :=
  match hs with
  | [] => Ret (m, f)
  | se :: hs =>
      match save_live_state se with
      | None => begin_loop hs f m
      | Some live =>
          let! f := put_section_start f se QEMU_VM_SECTION_START in
          let! '(_, m, f) := live f QEMU_VM_SECTION_START m in
          begin_loop hs f m
      end
  end.
Definition qemu_savevm_state_begin hs f m (blk_enable shared : Z) : res (Z * M * QEMUFile W) :=
  let m := set_all_params hs blk_enable shared m in
  let! f := qemu_put_be32 f QEMU_VM_FILE_MAGIC in
  let! f := qemu_put_be32 f QEMU_VM_FILE_VERSION in
  let! '(m, f) := begin_loop hs f m in
  if qemu_file_has_error f then let! '(m, f) := qemu_savevm_state_cancel hs f m in Ret (- EIO, m, f)
  else Ret (0, m, f).

Fixpoint iterate_loop hs f m (ret : Z) : res (Z * M * QEMUFile W) :=
  match hs with
  | [] => Ret (ret, m, f)
  | se :: hs =>
      match save_live_state se with
      | None => iterate_loop hs f m ret
      | Some live =>
          let! f := put_section f se QEMU_VM_SECTION_PART in
          let! '(ret, m, f) := live f QEMU_VM_SECTION_PART m in
          if ret =? 0 then Ret (ret, m, f) else iterate_loop hs f m ret
      end
  end.
Definition qemu_savevm_state_iterate hs f m : res (Z * M * QEMUFile W) :=
  let! '(ret, m, f) := iterate_loop hs f m 1 in
  if negb (ret =? 0) then Ret (1, m, f)
  else if qemu_file_has_error f then let! '(m, f) := qemu_savevm_state_cancel hs f m in Ret (- EIO, m, f)
  else Ret (0, m, f).

Fixpoint end_loop hs f m : res (M * QEMUFile W) :=
  match hs with
  | [] => Ret (m, f)
  | se :: hs =>
      match save_live_state se with
      | None => end_loop hs f m
      | Some live =>
          let! f := put_section f se QEMU_VM_SECTION_END in
          let! '(_, m, f) := live f QEMU_VM_SECTION_END m in
          end_loop hs f m
      end
  end.
Definition has_state se : bool := match save_state se, vmsd se with None, None => false | _, _ => true end.
Fixpoint full_loop hs f m : res (M * QEMUFile W) :=
  match hs with
  | [] => Ret (m, f)
  | se :: hs =>
      if has_state se then
        let! f := put_section_start f se QEMU_VM_SECTION_FULL in
        let! '(m, f) := vmstate_save f se m in
        full_loop hs f m
      else full_loop hs f m
  end.
Definition qemu_savevm_state_complete hs f m : res (Z * M * QEMUFile W) :=
  let! '(m, f) := end_loop hs f m in
  let! '(m, f) := full_loop hs f m in
  let! f := qemu_put_byte f QEMU_VM_EOF in
  Ret (if qemu_file_has_error f then - EIO else 0, m, f).

(** Rounds of [qemu_savevm_state_iterate], as long as they return 0. *)
Fixpoint iterate_rounds (fuel : nat) hs f m : res (Z * M * QEMUFile W) :=
  match fuel with
  | O => Fault
  | S fuel =>
      let! '(ret, m, f) := qemu_savevm_state_iterate hs f m in
      if ret =? 0 then iterate_rounds fuel hs f m else Ret (ret, m, f)
  end.

Record machine_ops : Type := mkOps { vm_running : M -> bool; vm_stop : M -> M; vm_start : M -> M; bdrv_flush_all : M -> M }.

Definition qemu_savevm_state (fuel : nat) (o : machine_ops) hs f m : res (Z * M * QEMUFile W) :=
  let saved_vm_running := vm_running o m in
  let m := bdrv_flush_all o (vm_stop o m) in
  let! '(ret, m, f) := qemu_savevm_state_begin hs f m 0 0 in
  let! '(ret, m, f) :=
    if ret <? 0 then Ret (ret, m, f)
    else
      let! '(ret, m, f) := iterate_rounds fuel hs f m in
      if ret <? 0 then Ret (ret, m, f) else qemu_savevm_state_complete hs f m in
  let ret := if qemu_file_has_error f then - EIO else ret in
  Ret (ret, if (ret =? 0) && saved_vm_running then vm_start o m else m, f).

(** ** Loading *)
Fixpoint find_se hs (name : list Z) (instance : Z) : option (SaveStateEntry W M) :=
  match hs with
  | [] => None
  | se :: hs => if same_name (idstr se) name && (instance =? instance_id se) then Some se else find_se hs name instance
  end.

Fixpoint find_le (les : list (LoadStateEntry W M)) (section : Z) : option (LoadStateEntry W M) :=
  match les with
  | [] => None
  | le :: les => if u32 (le_section_id le) =? section then Some le else find_le les section
  end.

(** One section; a negative result ends the loading. *)
Definition load_section hs (section_type : Z) (les : list (LoadStateEntry W M)) f m : res (Z * list (LoadStateEntry W M) * M * QEMUFile W) :=
  if (section_type =? QEMU_VM_SECTION_START) || (section_type =? QEMU_VM_SECTION_FULL) then
    let! '(section, f) := qemu_get_be32 f in
    let! '(len, f) := qemu_get_byte f in
    let! '(bs, f) := qemu_get_buffer f len in
    let! buf := oget (store (replicate 257 None) 0 (map Some bs)) in
    let! buf := oget (store buf len [Some 0]) in
    let! '(instance, f) := qemu_get_be32 f in
    let! '(version, f) := qemu_get_be32 f in
    let! name := cstr buf in
    match find_se hs name (s32 instance) with
    | None => Ret (- EINVAL, les, m, f)
    | Some se =>
        if u32 (version_id se) <? version then Ret (- EINVAL, les, m, f)
        else
          let le := mkLe se (s32 section) (s32 version) in
          let! '(ret, m, f) := vmstate_load f se m (le_version_id le) in
          Ret (ret, le :: les, m, f)
    end
  else if (section_type =? QEMU_VM_SECTION_PART) || (section_type =? QEMU_VM_SECTION_END) then
    let! '(section, f) := qemu_get_be32 f in
    match find_le les section with
    | None => Ret (- EINVAL, les, m, f)
    | Some le =>
        let! '(ret, m, f) := vmstate_load f (le_se le) m (le_version_id le) in
        Ret (ret, les, m, f)
    end
  else Ret (- EINVAL, les, m, f).

Fixpoint load_sections (fuel : nat) hs (les : list (LoadStateEntry W M)) f m : res (Z * M * QEMUFile W) :=
  let! '(section_type, f) := qemu_get_byte f in
  if section_type =? QEMU_VM_EOF then Ret (0, m, f)
  else
    match fuel with
    | O => Fault
    | S fuel =>
        let! '(ret, les, m, f) := load_section hs section_type les f m in
        if ret <? 0 then Ret (ret, m, f) else load_sections fuel hs les f m
    end.

Definition qemu_loadvm_state (fuel : nat) hs f m : res (Z * M * QEMUFile W) :=
  let! '(v, f) := qemu_get_be32 f in
  if negb (v =? QEMU_VM_FILE_MAGIC) then Ret (- EINVAL, m, f)
  else
    let! '(v, f) := qemu_get_be32 f in
    if v =? QEMU_VM_FILE_VERSION_COMPAT then Ret (- ENOTSUP, m, f)
    else if negb (v =? QEMU_VM_FILE_VERSION) then Ret (- ENOTSUP, m, f)
    else
      let! '(ret, m, f) := load_sections fuel hs [] f m in
      Ret (if qemu_file_has_error f then - EIO else ret, m, f).
End Entries.
