(* ===== verification/SavevmProofs.v ===== *)
(** * A machine that is saved and loaded again

    [machine_copied] describes what the registered entries do while a machine is saved and
    what their loading counterparts make of it: the live entries' first parts, the rounds of
    parts, their last parts, then the state of the others.  [savevm_roundtrip] shows that
    the saved bytes, read by a machine with the same entries, drive exactly the loading
    counterparts, and that both functions return success. *)

From S2P Require Import Prelude QemuFile VmState VmCopy Savevm.
From stdpp Require Import list sets.

Open Scope Z_scope.

(** ** Entries that can be told apart *)
Section Entries.
Context {W M : Type}.
Implicit Types (se : SaveStateEntry W M) (hs : list (SaveStateEntry W M)).

(** The bytes of the headers. *)
Definition header (type : Z) se : list Z := [u8 type] ++ be32 (u32 (section_id se)).
Definition start_header (type : Z) se : list Z :=
  header type se ++ [u8 (Z.of_nat (length (idstr se)))] ++ idstr se ++ be32 (u32 (instance_id se)) ++ be32 (u32 (version_id se)).

Definition is_live se : bool := match save_live_state se with Some _ => true | None => false end.

(** Entries whose header can be told apart and fits its fields. *)
Record entry_wf se : Prop := {
  ew_name : Forall (fun c => c <> 0) (idstr se); ew_length : (length (idstr se) <= 255)%nat; ew_instance : is_s 32 (instance_id se);
  ew_version : 0 <= version_id se < 2 ^ 31; ew_section : 0 <= section_id se < 2 ^ 31
}.
Record entries_wf hs : Prop := {
  hw_each : Forall entry_wf hs; hw_keys : NoDup (map (fun se => (idstr se, instance_id se)) hs); hw_sections : NoDup (map section_id hs)
}.

Lemma find_se_in hs se : NoDup (map (fun se => (idstr se, instance_id se)) hs) -> se ∈ hs -> find_se hs (idstr se) (instance_id se) = Some se.
Proof.
  induction hs as [|a hs IH]; intros Hnd Hin; [by apply elem_of_nil in Hin|]. apply NoDup_cons in Hnd as [Hni Hnd]. cbn [find_se].
  apply elem_of_cons in Hin as [<-|Hin]; [unfold same_name; by rewrite bool_decide_eq_true_2, Z.eqb_refl by done|].
  destruct (same_name (idstr a) (idstr se) && (instance_id se =? instance_id a)) eqn:E; [|by apply IH].
  apply andb_prop in E as [E1%bool_decide_eq_true E2%Z.eqb_eq]. contradict Hni. apply list_elem_of_fmap. exists se. by rewrite E1, E2.
Qed.

Lemma cstr_name (name : list Z) rest : Forall (fun c => c <> 0) name -> cstr (map Some name ++ Some 0 :: rest) = Ret name.
Proof. induction 1 as [|c name Hc _ IH]; [done|]. cbn [map app cstr]. by rewrite (proj2 (Z.eqb_neq c 0) Hc), IH. Qed.

(** The array the name is read into. *)
Lemma name_read (name : list Z) : Forall (fun c => c <> 0) name -> (length name <= 255)%nat ->
  (let! buf := oget (store (replicate 257 None) 0 (map Some name)) in
   let! buf := oget (store buf (Z.of_nat (length name)) [Some 0]) in cstr buf) = (Ret name : res (list Z)).
Proof.
  intros Hn Hl. set (k := length name) in *. rewrite store_ok by (rewrite ?length_map, ?length_replicate; lia). cbn [oget obind].
  rewrite length_map. fold k. change (Z.to_nat 0) with 0%nat. rewrite take_0, app_nil_l, Nat.add_0_l.
  rewrite store_ok by (rewrite ?length_app, ?length_map, ?length_drop, ?length_replicate; cbn; lia). cbn [oget obind].
  rewrite Nat2Z.id, take_app_le by (rewrite length_map; lia). rewrite take_ge by (rewrite length_map; lia). by apply cstr_name.
Qed.

Definition le_of se : LoadStateEntry W M := mkLe se (section_id se) (version_id se).

(** An entry that a further part finds by the section id. *)
Definition known (les : list (LoadStateEntry W M)) se : Prop := find_le les (section_id se) = Some (le_of se).

Lemma known_cons hs les se se' : entries_wf hs -> se ∈ hs -> se' ∈ hs -> known les se' \/ se = se' -> known (le_of se :: les) se'.
Proof.
  intros [Hw _ Hnd] Hin Hin' Hk. unfold known. cbn [find_le le_of le_section_id]. rewrite Forall_forall in Hw.
  destruct (Hw se Hin) as [_ _ _ _ Hs]. rewrite (wrap_small 32) by (unfold is_u; lia).
  destruct (Z.eqb_spec (section_id se) (section_id se')) as [E|E]; [|destruct Hk as [Hk| ->]; done].
  assert (se = se') as ->; [|done]. clear Hw Hk Hs. revert Hin Hin' Hnd. induction hs as [|a hs IH]; intros Hin Hin' Hnd; [by apply elem_of_nil in Hin|].
  apply NoDup_cons in Hnd as [Hni Hnd]. apply elem_of_cons in Hin as [<-|Hin]; apply elem_of_cons in Hin' as [<-|Hin']; try done.
  - contradict Hni. apply list_elem_of_fmap. eauto.
  - contradict Hni. apply list_elem_of_fmap. eauto.
  - by apply IH.
Qed.
End Entries.

(** ** A saved machine and one that loads *)
(** The saving side has its machine, transport and entries, the loading side its own; entry
    by entry they are twins. *)
Section Proofs.
Context {W M W' M' : Type} {h : handlers W} {T : Transport h} {h' : handlers W'} {T' : Transport h'}.
Implicit Types (se : SaveStateEntry W M) (re : SaveStateEntry W' M') (f : QEMUFile W) (m : M) (n : M').
Implicit Types (p : SaveStateEntry W M * SaveStateEntry W' M') (ps : list (SaveStateEntry W M * SaveStateEntry W' M')).

Definition twin p : Prop :=
  idstr p.1 = idstr p.2 /\ instance_id p.1 = instance_id p.2 /\ version_id p.1 = version_id p.2 /\ section_id p.1 = section_id p.2.

Lemma twin_headers type p : twin p -> header type p.1 = header type p.2 /\ start_header type p.1 = start_header type p.2.
Proof. intros (E1 & E2 & E3 & E4). unfold start_header, header. by rewrite E1, E2, E3, E4. Qed.

Lemma put_section_spec f l se type : written f l -> exists f', put_section f se type = Ret f' /\ written f' (l ++ header type se).
Proof.
  intros Hf. unfold put_section. destruct (put_byte_spec f l type Hf) as (f1 & -> & H1). cbn [obind].
  destruct (put_be32_spec _ _ (u32 (section_id se)) H1) as (f2 & -> & H2). exists f2. by rewrite <- app_assoc in H2.
Qed.

Lemma put_section_start_spec f l se type : written f l -> exists f', put_section_start f se type = Ret f' /\ written f' (l ++ start_header type se).
Proof.
  intros Hf. unfold put_section_start. destruct (put_section_spec f l se type Hf) as (f1 & -> & H1). cbn [obind].
  destruct (put_byte_spec _ _ (Z.of_nat (length (idstr se))) H1) as (f2 & -> & H2). cbn [obind].
  destruct (put_buffer_spec _ _ (idstr se) H2) as (f3 & -> & H3). cbn [obind].
  destruct (put_be32_spec _ _ (u32 (instance_id se)) H3) as (f4 & -> & H4). cbn [obind].
  destruct (put_be32_spec _ _ (u32 (version_id se)) H4) as (f5 & -> & H5). exists f5. split; [done|]. unfold start_header. by rewrite <- !app_assoc in *.
Qed.

(** ** What the entries do *)
Definition loads re n n' (bs : list Z) : Prop := loads_as (h:=h') (fun g n => vmstate_load g re n (version_id re)) n n' bs.

(** A live entry's part: the bytes it sends, its answer, and what reading them does. *)
Definition live_part (type : Z) p m n (bs : list Z) (ret : Z) m' n' : Prop :=
  (exists live, save_live_state p.1 = Some live /\
     forall f l, written f l -> exists f', live f type m = Ret (ret, m', f') /\ written f' (l ++ bs)) /\ loads p.2 n n' bs.
Definition live_any (type : Z) p m n (bs : list Z) m' n' : Prop := exists ret, live_part type p m n bs ret m' n'.
Definition full_part p m n (bs : list Z) m' n' : Prop := saves_as (fun f m => vmstate_save f p.1 m) m m' bs /\ loads p.2 n n' bs.

(** A pass over the entries: those [on] contribute a section each. *)
Inductive pass (on : SaveStateEntry W M -> bool) (hd : SaveStateEntry W M -> list Z)
    (part : SaveStateEntry W M * SaveStateEntry W' M' -> M -> M' -> list Z -> M -> M' -> Prop)
    : list (SaveStateEntry W M * SaveStateEntry W' M') -> M -> M' -> list Z -> M -> M' -> Prop :=
| pass_nil m n : pass on hd part [] m n [] m n
| pass_skip p ps m n bs m' n' : on p.1 = false -> pass on hd part ps m n bs m' n' -> pass on hd part (p :: ps) m n bs m' n'
| pass_take p ps m n b m1 n1 bs m' n' : on p.1 = true -> part p m n b m1 n1 -> pass on hd part ps m1 n1 bs m' n' ->
    pass on hd part (p :: ps) m n (hd p.1 ++ b ++ bs) m' n'.

(** A round of parts ends with the first entry that has more to send. *)
Inductive round : list (SaveStateEntry W M * SaveStateEntry W' M') -> Z -> M -> M' -> list Z -> Z -> M -> M' -> Prop :=
| round_nil ret m n : round [] ret m n [] ret m n
| round_skip p ps ret m n bs r m' n' : is_live p.1 = false -> round ps ret m n bs r m' n' -> round (p :: ps) ret m n bs r m' n'
| round_stop p ps ret m n b m' n' : live_part QEMU_VM_SECTION_PART p m n b 0 m' n' ->
    round (p :: ps) ret m n (header QEMU_VM_SECTION_PART p.1 ++ b) 0 m' n'
| round_go p ps ret m n b r1 m1 n1 bs r m' n' : live_part QEMU_VM_SECTION_PART p m n b r1 m1 n1 -> r1 <> 0 ->
    round ps r1 m1 n1 bs r m' n' -> round (p :: ps) ret m n (header QEMU_VM_SECTION_PART p.1 ++ b ++ bs) r m' n'.

Inductive rounds ps : nat -> M -> M' -> list Z -> M -> M' -> Prop :=
| rounds_last m n bs r m' n' : round ps 1 m n bs r m' n' -> r <> 0 -> rounds ps 1 m n bs m' n'
| rounds_more k m n b m1 n1 bs m' n' : round ps 1 m n b 0 m1 n1 -> rounds ps k m1 n1 bs m' n' -> rounds ps (S k) m n (b ++ bs) m' n'.

(** The first parts, and the last ones with the state of the other entries. *)
Definition begun ps m n (bs : list Z) m' n' : Prop :=
  pass is_live (start_header QEMU_VM_SECTION_START) (live_any QEMU_VM_SECTION_START) ps m n bs m' n'.
Definition ended ps m n (bs : list Z) m' n' : Prop := exists b3 m3 n3 b4, bs = b3 ++ b4 ++ [QEMU_VM_EOF] /\
  pass is_live (header QEMU_VM_SECTION_END) (live_any QEMU_VM_SECTION_END) ps m n b3 m3 n3 /\
  pass has_state (start_header QEMU_VM_SECTION_FULL) full_part ps m3 n3 b4 m' n'.

Definition file_header : list Z := be32 QEMU_VM_FILE_MAGIC ++ be32 QEMU_VM_FILE_VERSION.

Inductive machine_copied (o : machine_ops (M:=M)) ps (k : nat) : M -> M' -> list Z -> M -> M' -> Prop :=
| machine_parts m n b1 m1 n1 b2 m2 n2 b3 m' n' :
    begun ps (set_all_params (map fst ps) 0 0 (bdrv_flush_all o (vm_stop o m))) n b1 m1 n1 -> rounds ps k m1 n1 b2 m2 n2 -> ended ps m2 n2 b3 m' n' ->
    machine_copied o ps k m n (file_header ++ b1 ++ b2 ++ b3) (if vm_running o m then vm_start o m' else m') n'.

(** ** Saving *)
Lemma begin_saves ps m n bs m' n' :
  begun ps m n bs m' n' -> saves_as (begin_loop (map fst ps)) m m' bs.
Proof.
  induction 1 as [m n|p ps m n bs m' n' Hon _ IH|p ps m n b m1 n1 bs m' n' _ (ret & (live & Hl & Hp) & _) _ IH]; intros f l Hf; cbn [map begin_loop].
  - exists f. by rewrite app_nil_r.
  - unfold is_live in Hon. destruct (save_live_state p.1); [done|]. apply (IH f l Hf).
  - rewrite Hl. destruct (put_section_start_spec f l p.1 QEMU_VM_SECTION_START Hf) as (f1 & -> & H1). cbn [obind].
    destruct (Hp f1 _ H1) as (f2 & -> & H2). cbn [obind]. destruct (IH f2 _ H2) as (f3 & -> & H3). exists f3. by rewrite <- !app_assoc in H3.
Qed.

Lemma end_saves ps m n bs m' n' :
  pass is_live (header QEMU_VM_SECTION_END) (live_any QEMU_VM_SECTION_END) ps m n bs m' n' -> saves_as (end_loop (map fst ps)) m m' bs.
Proof.
  induction 1 as [m n|p ps m n bs m' n' Hon _ IH|p ps m n b m1 n1 bs m' n' _ (ret & (live & Hl & Hp) & _) _ IH]; intros f l Hf; cbn [map end_loop].
  - exists f. by rewrite app_nil_r.
  - unfold is_live in Hon. destruct (save_live_state p.1); [done|]. apply (IH f l Hf).
  - rewrite Hl. destruct (put_section_spec f l p.1 QEMU_VM_SECTION_END Hf) as (f1 & -> & H1). cbn [obind].
    destruct (Hp f1 _ H1) as (f2 & -> & H2). cbn [obind]. destruct (IH f2 _ H2) as (f3 & -> & H3). exists f3. by rewrite <- !app_assoc in H3.
Qed.

Lemma full_saves ps m n bs m' n' : pass has_state (start_header QEMU_VM_SECTION_FULL) full_part ps m n bs m' n' -> saves_as (full_loop (map fst ps)) m m' bs.
Proof.
  induction 1 as [m n|p ps m n bs m' n' Hon _ IH|p ps m n b m1 n1 bs m' n' Hon [Hp _] _ IH]; intros f l Hf; cbn [map full_loop].
  - exists f. by rewrite app_nil_r.
  - rewrite Hon. apply (IH f l Hf).
  - rewrite Hon. destruct (put_section_start_spec f l p.1 QEMU_VM_SECTION_FULL Hf) as (f1 & -> & H1). cbn [obind].
    destruct (Hp f1 _ H1) as (f2 & -> & H2). cbn [obind]. destruct (IH f2 _ H2) as (f3 & -> & H3). exists f3. by rewrite <- !app_assoc in H3.
Qed.

Lemma round_saves ps ret m n bs r m' n' : round ps ret m n bs r m' n' ->
  forall f l, written f l -> exists f', iterate_loop (map fst ps) f m ret = Ret (r, m', f') /\ written f' (l ++ bs).
Proof.
  induction 1 as [ret m n|p ps ret m n bs r m' n' Hon _ IH|p ps ret m n b m' n' [(live & Hl & Hp) _]|p ps ret m n b r1 m1 n1 bs r m' n' [(live & Hl & Hp) _] Hr _ IH];
    intros f l Hf; cbn [map iterate_loop].
  - exists f. by rewrite app_nil_r.
  - unfold is_live in Hon. destruct (save_live_state p.1); [done|]. apply (IH f l Hf).
  - rewrite Hl. destruct (put_section_spec f l p.1 QEMU_VM_SECTION_PART Hf) as (f1 & -> & H1). cbn [obind].
    destruct (Hp f1 _ H1) as (f2 & -> & H2). cbn [obind Z.eqb]. exists f2. by rewrite <- app_assoc in H2.
  - rewrite Hl. destruct (put_section_spec f l p.1 QEMU_VM_SECTION_PART Hf) as (f1 & -> & H1). cbn [obind].
    destruct (Hp f1 _ H1) as (f2 & -> & H2). cbn [obind]. rewrite (proj2 (Z.eqb_neq r1 0)) by done.
    destruct (IH f2 _ H2) as (f3 & -> & H3). exists f3. by rewrite <- !app_assoc in H3.
Qed.

Lemma written_ok f l : written f l -> qemu_file_has_error f = false.
Proof. by intros []. Qed.

Lemma begin_spec ps f m n bs m' n' blk shared : written f [] -> begun ps (set_all_params (map fst ps) blk shared m) n bs m' n' ->
  exists f', qemu_savevm_state_begin (map fst ps) f m blk shared = Ret (0, m', f') /\ written f' (file_header ++ bs).
Proof.
  intros Hf H1. unfold qemu_savevm_state_begin.
  destruct (put_be32_spec f [] QEMU_VM_FILE_MAGIC Hf) as (f1 & -> & Hf1). cbn [obind].
  destruct (put_be32_spec _ _ QEMU_VM_FILE_VERSION Hf1) as (f2 & -> & Hf2). cbn [obind].
  destruct (begin_saves _ _ _ _ _ _ H1 _ _ Hf2) as (f3 & -> & Hf3). cbn [obind]. rewrite (written_ok _ _ Hf3). exists f3. split; [done|].
  by rewrite <- !app_assoc in *.
Qed.

Lemma iterate_spec ps f l m n bs r m' n' : written f l -> round ps 1 m n bs r m' n' ->
  exists f', qemu_savevm_state_iterate (map fst ps) f m = Ret (if r =? 0 then 0 else 1, m', f') /\ written f' (l ++ bs).
Proof.
  intros Hf Hr. unfold qemu_savevm_state_iterate. destruct (round_saves _ _ _ _ _ _ _ _ Hr f l Hf) as (f1 & -> & H1). cbn [obind].
  exists f1. split; [|done]. rewrite (written_ok _ _ H1). by destruct (r =? 0).
Qed.

Lemma complete_spec ps f l m n bs m' n' : written f l -> ended ps m n bs m' n' ->
  exists f', qemu_savevm_state_complete (map fst ps) f m = Ret (0, m', f') /\ written f' (l ++ bs).
Proof.
  intros Hf (b3 & m3 & n3 & b4 & -> & H3 & H4). unfold qemu_savevm_state_complete.
  destruct (end_saves _ _ _ _ _ _ H3 _ _ Hf) as (f5 & -> & Hf5). cbn [obind].
  destruct (full_saves _ _ _ _ _ _ H4 _ _ Hf5) as (f6 & -> & Hf6). cbn [obind].
  destruct (put_byte_spec _ _ QEMU_VM_EOF Hf6) as (f7 & -> & Hf7). cbn [obind]. rewrite (written_ok _ _ Hf7). exists f7. split; [done|].
  by rewrite <- !app_assoc in *.
Qed.

Lemma rounds_save ps k m n bs m' n' : rounds ps k m n bs m' n' ->
  forall f l, written f l -> exists f', iterate_rounds k (map fst ps) f m = Ret (1, m', f') /\ written f' (l ++ bs).
Proof.
  induction 1 as [m n bs r m' n' Hr Hne|k m n b m1 n1 bs m' n' Hr _ IH]; intros f l Hf; cbn [iterate_rounds];
    destruct (iterate_spec _ _ _ _ _ _ _ _ _ Hf Hr) as (f1 & -> & H1); cbn [obind].
  - rewrite (proj2 (Z.eqb_neq r 0)) by done. cbn. eauto.
  - cbn [Z.eqb]. destruct (IH f1 _ H1) as (f2 & -> & H2). exists f2. by rewrite <- app_assoc in H2.
Qed.

Lemma machine_saves o ps k m n bs m' n' : machine_copied o ps k m n bs m' n' ->
  forall f, written f [] -> exists f', qemu_savevm_state k o (map fst ps) f m = Ret (0, m', f') /\ written f' bs.
Proof.
  intros [m0 n0 b1 m1 n1 b2 m2 n2 b3 m3 n3 H1 H2 H3] f Hf. unfold qemu_savevm_state.
  destruct (begin_spec _ _ _ _ _ _ _ _ _ Hf H1) as (f1 & -> & Hf1). cbn [obind]. change (0 <? 0) with false.
  destruct (rounds_save _ _ _ _ _ _ _ H2 _ _ Hf1) as (f2 & -> & Hf2). cbn [obind]. change (1 <? 0) with false.
  destruct (complete_spec _ _ _ _ _ _ _ _ Hf2 H3) as (f3 & -> & Hf3). cbn [obind]. rewrite (written_ok _ _ Hf3). exists f3.
  split; [done|]. by rewrite <- !app_assoc in Hf3.
Qed.


(** ** Loading *)
Implicit Types (rs : list (SaveStateEntry W' M')) (g : QEMUFile W').

(** The loop over the sections, [k] sections further on. *)
Definition consumes rs (les : list (LoadStateEntry W' M')) n (bs : list Z) les' n' (k : nat) : Prop :=
  forall fuel g l, pending g (bs ++ l) ->
    exists g', load_sections (k + fuel) rs les g n = load_sections fuel rs les' g' n' /\ pending g' l.

Lemma consumes_trans rs les n b1 les1 n1 k1 b2 les2 n2 k2 :
  consumes rs les n b1 les1 n1 k1 -> consumes rs les1 n1 b2 les2 n2 k2 -> consumes rs les n (b1 ++ b2) les2 n2 (k1 + k2).
Proof.
  intros H1 H2 fuel f l Hf. rewrite <- app_assoc in Hf. destruct (H1 (k2 + fuel)%nat f _ Hf) as (f1 & E1 & Hf1). rewrite Nat.add_assoc in E1.
  rewrite E1. apply (H2 fuel f1 l Hf1).
Qed.

Lemma consumes_nil rs les n : consumes rs les n [] les n 0.
Proof. intros fuel f l Hf. by exists f. Qed.

Lemma id_back z : 0 <= z < 2 ^ 31 -> u32 (u32 z) = z /\ s32 z = z.
Proof. intros. rewrite wrap_wrap. split; [apply wrap_small; unfold is_u; lia|apply swrap_small; unfold is_s; lia]. Qed.

(** Reading the header of a new section, whatever it says. *)
Lemma start_read rs les (type section instance version : Z) (name l : list Z) n (g : QEMUFile W') :
  type = QEMU_VM_SECTION_START \/ type = QEMU_VM_SECTION_FULL -> Forall (fun c => c <> 0) name -> (length name <= 255)%nat ->
  pending g (be32 section ++ [u8 (Z.of_nat (length name))] ++ name ++ be32 instance ++ be32 version ++ l) ->
  exists g', pending g' l /\ load_section rs (u8 type) les g n =
    match find_se rs name (s32 instance) with
    | None => Ret (- EINVAL, les, n, g')
    | Some se =>
        if u32 (version_id se) <? u32 version then Ret (- EINVAL, les, n, g')
        else let! '(ret, n, g) := vmstate_load g' se n (s32 version) in Ret (ret, mkLe se (s32 section) (s32 version) :: les, n, g)
    end.
Proof.
  intros Ht Hn Hl H1. unfold load_section.
  assert ((u8 type =? QEMU_VM_SECTION_START) || (u8 type =? QEMU_VM_SECTION_FULL) = true) as -> by (by destruct Ht as [-> | ->]).
  destruct (get_be32_spec _ _ _ H1) as (f2 & -> & H2). cbn [obind]. destruct (get_byte_spec _ _ _ H2) as (f3 & -> & H3). cbn [obind].
  rewrite (wrap_small 8) by (unfold is_u; lia). destruct (get_buffer_spec _ _ _ H3) as (f4 & -> & H4). cbn [obind].
  destruct (get_be32_spec _ _ _ H4) as (f5 & E5 & H5). destruct (get_be32_spec _ _ _ H5) as (f6 & E6 & H6). exists f6. split; [done|].
  pose proof (name_read _ Hn Hl) as En. destruct (oget (store (replicate 257 None) 0 (map Some name))) as [buf| |]; try done. cbn [obind] in *.
  destruct (oget (store buf _ _)) as [buf2| |]; try done. cbn [obind] in *. rewrite E5. cbn [obind]. rewrite E6. cbn [obind]. rewrite En. cbn [obind].
  cbn [le_version_id]. by rewrite !swrap_wrap by lia.
Qed.

(** A new section is found by name and instance. *)
Lemma start_section rs les re type n n' b : entries_wf rs -> re ∈ rs -> type = QEMU_VM_SECTION_START \/ type = QEMU_VM_SECTION_FULL -> loads re n n' b ->
  consumes rs les n (start_header type re ++ b) (le_of re :: les) n' 1.
Proof.
  intros [Hw Hk _] Hin Ht Hld fuel g l Hf. rewrite Forall_forall in Hw. destruct (Hw re Hin) as [Hn Hl Hi Hv Hs].
  unfold start_header, header in Hf. rewrite <- !app_assoc in Hf. cbn [Nat.add load_sections].
  destruct (get_byte_spec _ _ _ Hf) as (f1 & -> & H1). cbn [obind].
  assert ((u8 type =? QEMU_VM_EOF) = false) as -> by (by destruct Ht as [-> | ->]).
  destruct (start_read rs les type _ _ _ _ _ n f1 Ht Hn Hl H1) as (f2 & H2 & ->).
  rewrite !swrap_wrap, !(swrap_small 32), (find_se_in rs re Hk Hin), wrap_wrap, Z.ltb_irrefl by (unfold is_s in *; lia).
  destruct (Hld f2 l H2) as (r & f7 & -> & Hr & H7). cbn [obind]. rewrite (proj2 (Z.ltb_ge r 0)) by lia. by exists f7.
Qed.

(** A further part is found by the section id. *)
Lemma next_section rs les re type n n' b : entry_wf re -> known les re -> type = QEMU_VM_SECTION_PART \/ type = QEMU_VM_SECTION_END -> loads re n n' b ->
  consumes rs les n (header type re ++ b) les n' 1.
Proof.
  intros [_ _ _ _ Hs] Hkn Ht Hld fuel f l Hf. destruct (id_back _ Hs) as [Es1 _]. unfold header in Hf. rewrite <- !app_assoc in Hf. cbn [Nat.add load_sections].
  destruct (get_byte_spec _ _ _ Hf) as (f1 & -> & H1). cbn [obind].
  assert ((u8 type =? QEMU_VM_EOF) = false) as -> by (by destruct Ht as [-> | ->]). unfold load_section.
  assert ((u8 type =? QEMU_VM_SECTION_START) || (u8 type =? QEMU_VM_SECTION_FULL) = false) as -> by (by destruct Ht as [-> | ->]).
  assert ((u8 type =? QEMU_VM_SECTION_PART) || (u8 type =? QEMU_VM_SECTION_END) = true) as -> by (by destruct Ht as [-> | ->]).
  destruct (get_be32_spec _ _ _ H1) as (f2 & -> & H2). cbn [obind]. rewrite Es1, Hkn. cbn [le_of le_se le_version_id].
  destruct (Hld f2 l H2) as (r & f3 & -> & Hr & H3). cbn [obind]. rewrite (proj2 (Z.ltb_ge r 0)) by lia. by exists f3.
Qed.

(** A machine whose entries are the twins of the ones that are saved. *)
Section Twins.
Context (ps0 : list (SaveStateEntry W M * SaveStateEntry W' M')) (Htw : Forall twin ps0) (Hwf : entries_wf (map snd ps0)).

Lemma twin_in p : p ∈ ps0 -> twin p /\ p.2 ∈ map snd ps0 /\ entry_wf p.2.
Proof.
  intros Hin. rewrite Forall_forall in Htw. assert (p.2 ∈ map snd ps0) as H2 by (apply list_elem_of_fmap; eauto). split_and!; [auto|done|].
  destruct Hwf as [Hw _ _]. rewrite Forall_forall in Hw. auto.
Qed.

(** The live entries seen so far. *)
Definition all_known (les : list (LoadStateEntry W' M')) ps : Prop := forall p, p ∈ ps -> is_live p.1 = true -> known les p.2.

Lemma starts_load on part type ps m n bs m' n' : type = QEMU_VM_SECTION_START \/ type = QEMU_VM_SECTION_FULL ->
  (forall p m n b m' n', part p m n b m' n' -> loads p.2 n n' b) -> pass on (start_header type) part ps m n bs m' n' -> ps ⊆ ps0 ->
  forall les, exists les' k, (k <= length bs)%nat /\ consumes (map snd ps0) les n bs les' n' k /\
    forall p, p ∈ ps0 -> known les p.2 \/ (p ∈ ps /\ on p.1 = true) -> known les' p.2.
Proof.
  intros Ht Hpart. induction 1 as [m n|p ps m n bs m' n' Hon _ IH|p ps m n b m1 n1 bs m' n' Hon Hp _ IH]; intros Hsub les.
  - exists les, 0%nat. split; [cbn; lia|]. split; [apply consumes_nil|]. intros p _ [Hk|[Hin _]]; [done|by apply elem_of_nil in Hin].
  - destruct (IH ltac:(set_solver) les) as (les' & k & Hk & Hc & Hkn). exists les', k. split; [done|]. split; [done|].
    intros x Hx [Hl|[[-> | Hin]%elem_of_cons Ho]]; [auto|congruence|auto].
  - destruct (twin_in p) as (Ht1 & Hin & Hew); [set_solver|]. destruct (twin_headers type p Ht1) as [_ Eh].
    destruct (IH ltac:(set_solver) (le_of p.2 :: les)) as (les' & k & Hk & Hc & Hkn).
    exists les', (1 + k)%nat. rewrite app_assoc. split; [rewrite !length_app; unfold start_header, header; cbn; lia|]. split.
    + eapply consumes_trans; [|done]. rewrite Eh. apply (start_section (map snd ps0) les p.2 type); eauto.
    + intros x Hx Hor. apply Hkn; [done|]. destruct (twin_in x Hx) as (_ & Hx2 & _).
      destruct Hor as [Hl|[[-> | Hix]%elem_of_cons Ho]]; [|left; apply (known_cons (map snd ps0)); eauto|auto].
      left. apply (known_cons (map snd ps0)); eauto.
Qed.

Lemma ends_load part type ps m n bs m' n' les : type = QEMU_VM_SECTION_PART \/ type = QEMU_VM_SECTION_END ->
  (forall p m n b m' n', part p m n b m' n' -> loads p.2 n n' b) -> pass is_live (header type) part ps m n bs m' n' -> ps ⊆ ps0 ->
  all_known les ps -> exists k, (k <= length bs)%nat /\ consumes (map snd ps0) les n bs les n' k.
Proof.
  intros Ht Hpart. induction 1 as [m n|p ps m n bs m' n' Hon _ IH|p ps m n b m1 n1 bs m' n' Hon Hp _ IH]; intros Hsub Hkn.
  - exists 0%nat. split; [cbn; lia|apply consumes_nil].
  - apply IH; [set_solver|]. intros x Hx. apply Hkn. by right.
  - destruct IH as (k & Hk & Hc); [set_solver|intros x Hx; apply Hkn; by right|]. exists (1 + k)%nat. rewrite app_assoc.
    split; [rewrite !length_app; unfold header; cbn; lia|]. eapply consumes_trans; [|done]. destruct (twin_in p) as (Ht1 & _ & Hew); [set_solver|].
    rewrite (proj1 (twin_headers type p Ht1)). apply next_section; [done|apply Hkn; [by left|done]|done|eauto].
Qed.

Lemma live_part_on type p m n b r m' n' : live_part type p m n b r m' n' -> is_live p.1 = true /\ loads p.2 n n' b.
Proof. intros [(live & Hl & _) Hld]. unfold is_live. by rewrite Hl. Qed.

Lemma live_any_loads type p m n b m' n' : live_any type p m n b m' n' -> loads p.2 n n' b.
Proof. by intros [? [_ ?]]. Qed.

Lemma part_loads p les m n b r m1 n1 : p ∈ ps0 -> live_part QEMU_VM_SECTION_PART p m n b r m1 n1 -> (is_live p.1 = true -> known les p.2) ->
  consumes (map snd ps0) les n (header QEMU_VM_SECTION_PART p.1 ++ b) les n1 1.
Proof.
  intros Hin Hp Hkn. apply live_part_on in Hp as [Hl Hp]. destruct (twin_in p Hin) as (Ht & _ & Hew). rewrite (proj1 (twin_headers _ p Ht)).
  apply next_section; [done|auto|by left|done].
Qed.

Lemma round_loads ps ret m n bs r m' n' les : round ps ret m n bs r m' n' -> ps ⊆ ps0 -> all_known les ps ->
  exists k, (k <= length bs)%nat /\ consumes (map snd ps0) les n bs les n' k.
Proof.
  induction 1 as [ret m n|p ps ret m n bs r m' n' Hon _ IH|p ps ret m n b m' n' Hp|p ps ret m n b r1 m1 n1 bs r m' n' Hp Hr _ IH]; intros Hsub Hkn.
  - exists 0%nat. split; [cbn; lia|apply consumes_nil].
  - apply IH; [set_solver|]. intros x Hx. apply Hkn. by right.
  - exists 1%nat. split; [rewrite length_app; cbn; lia|]. eapply part_loads; [set_solver|done|apply Hkn; by left].
  - destruct IH as (k & Hk & Hc); [set_solver|intros x Hx; apply Hkn; by right|]. exists (1 + k)%nat.
    rewrite app_assoc. split; [rewrite !length_app; unfold header; cbn; lia|]. eapply consumes_trans; [|done].
    eapply part_loads; [set_solver|done|apply Hkn; by left].
Qed.

(** What has been loaded once the bytes [l] are read: the header, the machine, and every
    live entry known. *)
Definition loaded n0 (l : list Z) n : Prop := exists body les k, l = file_header ++ body /\ (k <= length body)%nat /\
  consumes (map snd ps0) [] n0 body les n k /\ all_known les ps0.

Lemma loaded_begin m n b m' n' : begun ps0 m n b m' n' -> loaded n (file_header ++ b) n'.
Proof.
  intros Hb. destruct (starts_load _ _ _ _ _ _ _ _ _ (or_introl eq_refl) (live_any_loads _) Hb ltac:(done) []) as (les & k & Hk & C & Hkn).
  exists b, les, k. split_and!; try done. intros p Hin Hl. auto.
Qed.

Lemma loaded_round n0 l ret m n b r m' n' : loaded n0 l n -> round ps0 ret m n b r m' n' -> loaded n0 (l ++ b) n'.
Proof.
  intros (body & les & k & -> & Hk & C & Hkn) Hr. destruct (round_loads _ _ _ _ _ _ _ _ les Hr ltac:(done) Hkn) as (j & Hj & C').
  exists (body ++ b), les, (k + j)%nat. split_and!; [by rewrite app_assoc|rewrite length_app; lia|by eapply consumes_trans|done].
Qed.

Lemma loaded_rounds n0 k m n bs m' n' : rounds ps0 k m n bs m' n' -> forall l, loaded n0 l n -> loaded n0 (l ++ bs) n'.
Proof.
  induction 1 as [m n bs r m' n' Hr _|k m n b m1 n1 bs m' n' Hr _ IH]; intros l Hl; [by eapply loaded_round|].
  rewrite app_assoc. apply IH. by eapply loaded_round.
Qed.

Lemma pending_ok g l : pending g l -> qemu_file_has_error g = false.
Proof. by intros []. Qed.

Lemma loaded_end n0 l m n b m' n' fuel : loaded n0 l n -> ended ps0 m n b m' n' -> (length (l ++ b) <= fuel)%nat ->
  forall g rest, pending g ((l ++ b) ++ rest) -> exists g', qemu_loadvm_state fuel (map snd ps0) g n0 = Ret (0, n', g') /\ pending g' rest.
Proof.
  intros (body & les & k & -> & Hk & C & Hkn) (b3 & m3 & n3 & b4 & -> & H3 & H4) Hfuel g rest Hf. unfold file_header in *. rewrite <- !app_assoc in Hf.
  unfold qemu_loadvm_state. destruct (get_be32_spec _ _ _ Hf) as (f1 & -> & Hf1). cbn [obind]. change (u32 QEMU_VM_FILE_MAGIC =? QEMU_VM_FILE_MAGIC) with true. cbn [negb].
  destruct (get_be32_spec _ _ _ Hf1) as (f2 & -> & Hf2). cbn [obind].
  change (u32 QEMU_VM_FILE_VERSION =? QEMU_VM_FILE_VERSION_COMPAT) with false. change (u32 QEMU_VM_FILE_VERSION =? QEMU_VM_FILE_VERSION) with true. cbn [negb].
  destruct (ends_load _ _ _ _ _ _ _ _ les (or_intror eq_refl) (live_any_loads _) H3 ltac:(done) Hkn) as (k3 & Hk3 & C3).
  assert (forall p m n b m' n', full_part p m n b m' n' -> loads p.2 n n' b) as Hfull by (intros ? ? ? ? ? ? [_ ?]; done).
  destruct (starts_load _ _ _ _ _ _ _ _ _ (or_intror eq_refl) Hfull H4 ltac:(done) les) as (les4 & k4 & Hk4 & C4 & _).
  pose proof (consumes_trans _ _ _ _ _ _ _ _ _ _ _ C (consumes_trans _ _ _ _ _ _ _ _ _ _ _ C3 C4)) as Call.
  destruct (Call (fuel - (k + (k3 + k4)))%nat f2 (QEMU_VM_EOF :: rest)) as (f3 & E & Hf3); [by rewrite <- !app_assoc|].
  rewrite !length_app in Hfuel. replace (k + (k3 + k4) + _)%nat with fuel in E by lia. rewrite E.
  destruct (get_byte_spec _ _ _ Hf3) as (f4 & E4 & Hf4). exists f4. split; [|done].
  destruct (fuel - _)%nat; cbn [load_sections]; rewrite E4; cbn [obind]; change (QEMU_VM_EOF =? QEMU_VM_EOF) with true; cbn [obind]; by rewrite (pending_ok _ _ Hf4).
Qed.

Lemma machine_loads o k m n bs m' n' fuel : machine_copied o ps0 k m n bs m' n' -> (length bs <= fuel)%nat ->
  forall g l, pending g (bs ++ l) -> exists g', qemu_loadvm_state fuel (map snd ps0) g n = Ret (0, n', g') /\ pending g' l.
Proof.
  intros [m0 n0 b1 m1 n1 b2 m2 n2 b3 m3 n3 H1 H2 H3] Hfuel. rewrite !app_assoc in *. eapply loaded_end; [|done|done].
  eapply loaded_rounds; [done|]. by eapply loaded_begin.
Qed.
End Twins.

(** C35. Saving a machine and loading the saved bytes: the save returns 0 and writes a stream;
    a load of that stream, in a machine whose registered entries have the same names,
    instances, versions and section ids and can be told apart by name and instance and by
    section id, returns 0 and makes exactly the changes of the
    entries' loading counterparts, for every mixture of live and plain entries and every
    number of rounds, and reads no byte too many. *)
Theorem savevm_roundtrip o ps k m n bs m' n' : Forall twin ps -> entries_wf (map snd ps) -> machine_copied o ps k m n bs m' n' ->
  (forall f, written f [] -> exists f', qemu_savevm_state k o (map fst ps) f m = Ret (0, m', f') /\ written f' bs) /\
  (forall fuel g l, (length bs <= fuel)%nat -> pending g (bs ++ l) -> exists g', qemu_loadvm_state fuel (map snd ps) g n = Ret (0, n', g') /\ pending g' l).
Proof.
  intros Htw Hwf Hc. split; [by apply machine_saves with n n'|]. intros fuel g l Hfuel. by apply (machine_loads ps Htw Hwf o k m n bs m' n').
Qed.

(** A first section that a load refuses: one that starts a device, in one piece or in parts,
    under a name and instance that are not registered or in a version above the registered
    one; a further part of a section, none having been started; a section of no known type. *)
Definition refused (rs : list (SaveStateEntry W' M')) (l : list Z) : Prop :=
  (exists type section name instance v rest,
     (type = QEMU_VM_SECTION_START \/ type = QEMU_VM_SECTION_FULL) /\ Forall (fun c => c <> 0) name /\ (length name <= 255)%nat /\
     l = [u8 type] ++ be32 section ++ [u8 (Z.of_nat (length name))] ++ name ++ be32 instance ++ be32 v ++ rest /\
     match find_se rs name (s32 instance) with None => True | Some se => u32 (version_id se) < u32 v end) \/
  (exists type section rest, (type = QEMU_VM_SECTION_PART \/ type = QEMU_VM_SECTION_END) /\ l = [u8 type] ++ be32 section ++ rest) \/
  (exists type rest, Forall (fun t => type <> t)
     [QEMU_VM_EOF; QEMU_VM_SECTION_START; QEMU_VM_SECTION_PART; QEMU_VM_SECTION_END; QEMU_VM_SECTION_FULL] /\ l = type :: rest).

Lemma refused_first rs l n g : refused rs l -> pending g l ->
  exists type g1 g' rest, qemu_get_byte g = Ret (type, g1) /\ (type =? QEMU_VM_EOF) = false /\
    load_section rs type [] g1 n = Ret (- EINVAL, [], n, g') /\ pending g' rest.
Proof.
  intros [(type & section & name & instance & v & rest & Ht & Hn & Hl & -> & Hno)|[(type & section & rest & Ht & ->)|(type & rest & Ht & ->)]] Hg;
    destruct (get_byte_spec _ _ _ Hg) as (g1 & E1 & H1).
  - destruct (start_read rs [] type _ _ _ _ _ n g1 Ht Hn Hl H1) as (g2 & H2 & E2). exists (u8 type), g1, g2, rest.
    split; [done|]. split; [by destruct Ht as [-> | ->]|]. split; [|done]. rewrite E2.
    destruct (find_se rs name (s32 instance)); [by rewrite (proj2 (Z.ltb_lt _ _))|done].
  - destruct (get_be32_spec _ _ _ H1) as (g2 & E2 & H2). exists (u8 type), g1, g2, rest.
    split; [done|]. split; [by destruct Ht as [-> | ->]|]. split; [|done]. unfold load_section.
    assert ((u8 type =? QEMU_VM_SECTION_START) || (u8 type =? QEMU_VM_SECTION_FULL) = false) as -> by (by destruct Ht as [-> | ->]).
    assert ((u8 type =? QEMU_VM_SECTION_PART) || (u8 type =? QEMU_VM_SECTION_END) = true) as -> by (by destruct Ht as [-> | ->]).
    rewrite E2. done.
  - exists type, g1, g1, rest. rewrite !Forall_cons in Ht. destruct Ht as (T1 & T2 & T3 & T4 & T5 & _). split; [done|]. rewrite (proj2 (Z.eqb_neq _ _) T1).
    split; [done|]. split; [|done]. unfold load_section. by rewrite (proj2 (Z.eqb_neq _ _) T2), (proj2 (Z.eqb_neq _ _) T3), (proj2 (Z.eqb_neq _ _) T4), (proj2 (Z.eqb_neq _ _) T5).
Qed.

(** C37. What a load refuses, and that it then leaves the machine alone: a file with another
    magic number; one with another version; and one whose first section, of a device saved as
    a whole or in parts, names a device or an instance that is not registered or is of a newer
    version than the registered one, or is a further part of a section that was not started,
    or is of no known type.  Names have no NUL and at most 255 bytes, and the transport delivers
    the bytes in pieces of any sizes without an error. *)
Theorem loadvm_refuses rs fuel n g magic version l :
  pending g (be32 magic ++ be32 version ++ l) ->
  (u32 magic <> QEMU_VM_FILE_MAGIC -> exists g', qemu_loadvm_state fuel rs g n = Ret (- EINVAL, n, g')) /\
  (u32 magic = QEMU_VM_FILE_MAGIC -> u32 version <> QEMU_VM_FILE_VERSION -> exists g', qemu_loadvm_state fuel rs g n = Ret (- ENOTSUP, n, g')) /\
  (u32 magic = QEMU_VM_FILE_MAGIC -> u32 version = QEMU_VM_FILE_VERSION -> (0 < fuel)%nat -> refused rs l ->
   exists g', qemu_loadvm_state fuel rs g n = Ret (- EINVAL, n, g')).
Proof.
  intros Hf. unfold qemu_loadvm_state. destruct (get_be32_spec _ _ _ Hf) as (f1 & -> & H1). cbn [obind]. split_and!.
  - intros Hm. rewrite (proj2 (Z.eqb_neq _ _)) by done. cbn [negb]. eauto.
  - intros -> Hv. rewrite Z.eqb_refl. cbn [negb]. destruct (get_be32_spec _ _ _ H1) as (f2 & -> & H2). cbn [obind].
    rewrite (proj2 (Z.eqb_neq _ _) Hv). cbn [negb]. if_case; eauto.
  - intros -> Hv Hfuel Hr. rewrite Z.eqb_refl. cbn [negb].
    destruct (get_be32_spec _ _ _ H1) as (f2 & -> & H2). cbn [obind]. rewrite Hv. change (QEMU_VM_FILE_VERSION =? QEMU_VM_FILE_VERSION_COMPAT) with false.
    rewrite Z.eqb_refl. cbn [negb]. destruct fuel as [|fuel]; [lia|]. cbn [load_sections].
    destruct (refused_first rs l n f2 Hr H2) as (type & f3 & f4 & rest & -> & Et & E4 & H4). cbn [obind]. rewrite Et, E4. cbn [obind].
    change (- EINVAL <? 0) with true. cbn [obind]. assert (qemu_file_has_error f4 = false) as -> by (by destruct H4). eauto.
Qed.

End Proofs.

(** ** A live entry *)
(** It sends its number in every part and counts down; it is done when it has sent zero. *)
Definition counter_live {W} (f : QEMUFile W) (type : Z) (m : Z) : res (Z * Z * QEMUFile W) :=
  let! f := qemu_put_byte f m in
  Ret (if m =? 0 then 1 else 0, if type =? QEMU_VM_SECTION_PART then Z.max 0 (m - 1) else m, f).
Definition counter_load {W} (f : QEMUFile W) (n version : Z) : res (Z * Z * QEMUFile W) :=
  let! '(v, f) := qemu_get_byte f in Ret (0, n + v, f).
Definition counter {W} : SaveStateEntry W Z := mkSe [99] 0 1 0 None (Some counter_live) None (Some counter_load) None 0.

Lemma counter_part {W W'} {h : handlers W} {T : Transport h} {h' : handlers W'} {T' : Transport h'} type m n : 0 <= m < 256 ->
  live_part (h:=h) (h':=h') type (counter, counter) m n [m] (if m =? 0 then 1 else 0) (if type =? QEMU_VM_SECTION_PART then Z.max 0 (m - 1) else m) (n + m).
Proof.
  intros Hm. assert (u8 m = m) as Em by (by apply wrap_small). split.
  - exists counter_live. split; [done|]. intros f l Hf. unfold counter_live. destruct (put_byte_spec f l m Hf) as (f' & -> & Hf'). rewrite Em in Hf'.
    cbn [obind]. eauto.
  - intros f l Hf. unfold vmstate_load. cbn. unfold counter_load. destruct (get_byte_spec _ _ _ Hf) as (f' & -> & Hf'). cbn [obind]. eauto with lia.
Qed.

Lemma counter_wf {W} : entries_wf [counter (W:=W)].
Proof. split; repeat constructor; unfold is_s; cbn; try lia; set_solver. Qed.

(** Two is sent first, then two, one and zero in three rounds, and zero at the end. *)
Lemma savevm_roundtrip_witness : exists bs,
  (exists f', qemu_savevm_state 3 (mkOps (fun _ => true) (fun m => m) (fun m => m) (fun m => m)) [counter] (qemu_fopen_ops [] mem_file) 2 = Ret (0, 0, f') /\ written f' bs) /\
  exists f', qemu_loadvm_state 100 [counter] (qemu_fopen_ops bs mem_file) 0 = Ret (0, 5, f') /\ pending f' [].
Proof.
  set (o := mkOps (fun _ => true) (fun m : Z => m) (fun m => m) (fun m => m)).
  assert (exists bs, length bs = 49%nat /\ machine_copied (h:=mem_file) (h':=mem_file) o [(counter, counter)] 3 2 0 bs 0 5) as (bs & Hl & Hc).
  { eexists. split; [|refine (machine_parts o [(counter, counter)] 3 2 0 _ 2 2 _ 0 5 _ 0 5 _ _ _)].
    2: { eapply pass_take; [done|exists 0; exact (counter_part 1 2 0 ltac:(lia))|apply pass_nil]. }
    2: { eapply rounds_more; [apply round_stop; exact (counter_part 2 2 2 ltac:(lia))|].
         eapply rounds_more; [apply round_stop; exact (counter_part 2 1 4 ltac:(lia))|].
         eapply rounds_last; [eapply round_go; [exact (counter_part 2 0 5 ltac:(lia))|done|apply round_nil]|done]. }
    2: { eexists _, 0, 5, []. split; [done|]. split; [eapply pass_take; [done|exists 1; exact (counter_part 3 0 5 ltac:(lia))|apply pass_nil]|].
         eapply pass_skip; [done|apply pass_nil]. }
    reflexivity. }
  destruct (savevm_roundtrip o [(counter, counter)] 3 2 0 bs 0 5 ltac:(by repeat constructor) counter_wf Hc) as [Hs Hld]. exists bs. split.
  - apply Hs. exact (fopen_written (h:=mem_file) [] ltac:(discriminate) I).
  - apply Hld; [lia|]. rewrite app_nil_r. exact (fopen_pending (h:=mem_file) bs ltac:(discriminate) I).
Defined.

Lemma loadvm_refuses_witness :
  (exists f', qemu_loadvm_state 1 [counter] (qemu_fopen_ops (be32 7 ++ be32 3) mem_file) 0 = Ret (- EINVAL, 0, f')) /\
  (exists f', qemu_loadvm_state 1 [counter] (qemu_fopen_ops (be32 QEMU_VM_FILE_MAGIC ++ be32 3 ++
    [QEMU_VM_SECTION_START] ++ be32 0 ++ [u8 1] ++ [99] ++ be32 0 ++ be32 2) mem_file) 0 = Ret (- EINVAL, 0, f')) /\
  exists f', qemu_loadvm_state 1 [counter] (qemu_fopen_ops (be32 QEMU_VM_FILE_MAGIC ++ be32 3 ++ [QEMU_VM_SECTION_END] ++ be32 5) mem_file) 0 = Ret (- EINVAL, 0, f').
Proof.
  split_and!.
  - refine (proj1 (loadvm_refuses [counter] 1 0 _ 7 3 [] _) _); [exact (fopen_pending (h:=mem_file) _ ltac:(discriminate) I)|discriminate].
  - refine (proj2 (proj2 (loadvm_refuses [counter] 1 0 _ QEMU_VM_FILE_MAGIC 3 _ (fopen_pending (h:=mem_file) _ ltac:(discriminate) I))) eq_refl eq_refl ltac:(lia) _).
    left. exists QEMU_VM_SECTION_START, 0, [99], 0, 2, []. split_and!; [by left|by repeat constructor|cbn; lia|reflexivity|reflexivity].
  - refine (proj2 (proj2 (loadvm_refuses [counter] 1 0 _ QEMU_VM_FILE_MAGIC 3 _ (fopen_pending (h:=mem_file) _ ltac:(discriminate) I))) eq_refl eq_refl ltac:(lia) _).
    right. left. exists QEMU_VM_SECTION_END, 5, []. split; [by right|reflexivity].
Defined.

