(* ===== verification/SavevmRegistry.v ===== *)
(** * The registry of saved entries

    Registered entries can be told apart by name and instance, and by section id, whatever
    is registered and removed. *)

From S2P Require Import Prelude QemuFile VmState Savevm SavevmProofs.
From stdpp Require Import list sets.

Open Scope Z_scope.

Section Registration.
Context {W M : Type}.
Implicit Types (r : registry W M) (hs : list (SaveStateEntry W M)).

Definition keys r : list (list Z * Z) := map (fun se => (idstr se, instance_id se)) (savevm_handlers r).

Lemma new_instance_above hs name : forall id j, new_instance_loop hs name id = Ret j ->
  id <= j /\ forall se, se ∈ hs -> idstr se = name -> instance_id se < j.
Proof.
  induction hs as [|a hs IH]; intros id j E; cbn [new_instance_loop] in E.
  { apply Ret_inj in E as <-. split; [lia|]. intros se Hin. by apply elem_of_nil in Hin. }
  unfold same_name in E. destruct (decide (name = idstr a)) as [->|Hne].
  - rewrite bool_decide_eq_true_2 in E by done. cbn [andb] in E. destruct (Z.leb_spec id (instance_id a)).
    + destruct (int_ok _); [|done]. apply IH in E as [H1 H2]. split; [lia|]. intros se [-> | Hin]%elem_of_cons Hs; [lia|auto].
    + apply IH in E as [H1 H2]. split; [done|]. intros se [-> | Hin]%elem_of_cons Hs; [lia|auto].
  - rewrite bool_decide_eq_false_2 in E by done. apply IH in E as [H1 H2]. split; [done|]. intros se [-> | Hin]%elem_of_cons Hs; [congruence|auto].
Qed.

(** The instance number that is chosen is that of no entry of the name. *)
Lemma new_key_fresh r name j : (length name <= 255)%nat -> calculate_new_instance_id r name = Ret j -> (stored_name 256 name, j) ∉ keys r.
Proof.
  intros Hl E (se & Ek & Hin)%list_elem_of_fmap. apply new_instance_above in E as [_ Hj]. unfold stored_name in Ek.
  rewrite take_ge in Ek by (cbn; lia). injection Ek as Ek1 Ek2. specialize (Hj se Hin (eq_sym Ek1)). lia.
Qed.

(** The operations on the registry. *)
Inductive reg_op : Type :=
| Register (name : list Z) (instance version : Z) (params : option (Z -> Z -> M -> M))
    (live : option (QEMUFile W -> Z -> M -> res (Z * M * QEMUFile W))) (save : option (QEMUFile W -> M -> res (M * QEMUFile W)))
    (load : option (QEMUFile W -> M -> Z -> res (Z * M * QEMUFile W))) (opaque : Z)
| RegisterVmsd (instance : Z) (d : VmsdOf W M) (opaque : Z)
| Unregister (name : list Z) (opaque : Z)
| UnregisterVmsd (address opaque : Z).

Definition reg_step (op : reg_op) r : res (registry W M) :=
  match op with
  | Register name instance version params live save load opaque => register_savevm_live r name instance version params live save load opaque
  | RegisterVmsd instance d opaque => vmstate_register r instance d opaque
  | Unregister name opaque => Ret (unregister_savevm r name opaque)
  | UnregisterVmsd address opaque => Ret (vmstate_unregister r address opaque)
  end.

(** What callers see to: short names, and an instance number of their own only when it is
    not taken. *)
Definition name_ok (name : list Z) : Prop := Forall (fun c => c <> 0) name /\ (length name <= 255)%nat.
Definition instance_free r (name : list Z) (instance : Z) : Prop := instance = -1 \/ (is_s 32 instance /\ (name, instance) ∉ keys r).
Definition reg_ok r (op : reg_op) : Prop :=
  match op with
  | Register name instance version _ _ _ _ _ => name_ok name /\ instance_free r name instance /\ 0 <= version < 2 ^ 31
  | RegisterVmsd instance (VmsdAt _ d _ _) _ => name_ok (vmsd_name d) /\ instance_free r (vmsd_name d) instance /\ 0 <= vmsd_version d < 2 ^ 31
  | _ => True
  end.

Inductive reg_reach : registry W M -> Prop :=
| reg_start : reg_reach (mkReg [] 0)
| reg_next r op r' : reg_reach r -> reg_ok r op -> reg_step op r = Ret r' -> global_section_id r' < 2 ^ 31 -> reg_reach r'.

Record reg_wf r : Prop := {
  rw_entries : entries_wf (savevm_handlers r); rw_counter : 0 <= global_section_id r;
  rw_sections : Forall (fun se => section_id se < global_section_id r) (savevm_handlers r)
}.

Lemma new_instance_range hs name : forall id j, is_s 32 id -> new_instance_loop hs name id = Ret j -> is_s 32 j.
Proof.
  induction hs as [|a hs IH]; intros id j Hid E; cbn [new_instance_loop] in E; [by apply Ret_inj in E as <-|].
  destruct (_ && _); [|by eapply IH]. destruct (int_ok (instance_id a + 1)) eqn:Eo; [|done]. eapply IH; [|done].
  unfold int_ok in Eo. apply andb_prop in Eo as [?%Z.leb_le ?%Z.ltb_lt]. unfold is_s. lia.
Qed.

Lemma insert_wf r se : reg_wf r -> name_ok (idstr se) -> is_s 32 (instance_id se) -> 0 <= version_id se < 2 ^ 31 ->
  section_id se = global_section_id r -> global_section_id r + 1 < 2 ^ 31 -> (idstr se, instance_id se) ∉ keys r -> reg_wf (insert_tail r se).
Proof.
  intros [[He Hk Hs] Hc Hb] [Hn Hl] Hi Hv Es Hg Hni. split; cbn [insert_tail savevm_handlers global_section_id]; [|lia|].
  - split; [apply Forall_app; split; [done|]; apply Forall_singleton; split; try done; lia| |]; rewrite map_app; apply NoDup_app; (split; [done|]);
      (split; [|cbn; apply NoDup_singleton]).
    + intros x Hx ->%list_elem_of_singleton. done.
    + intros x (a & -> & Ha)%list_elem_of_fmap Hx%list_elem_of_singleton. rewrite Forall_forall in Hb. specialize (Hb a Ha). lia.
  - apply Forall_app. split; [eapply Forall_impl; [exact Hb|]; cbn; intros; lia|]. apply Forall_singleton. lia.
Qed.

Lemma filter_wf r (P : SaveStateEntry W M -> Prop) `{!forall x, Decision (P x)} : reg_wf r -> reg_wf (mkReg (filter P (savevm_handlers r)) (global_section_id r)).
Proof.
  assert (forall Q : SaveStateEntry W M -> Prop, Forall Q (savevm_handlers r) -> Forall Q (filter P (savevm_handlers r))) as Hf.
  { intros Q HQ. rewrite Forall_forall in *. intros x [_ Hx]%list_elem_of_filter. by apply HQ. }
  intros [[He Hk Hs] Hc Hb]. split; [|done|by apply Hf]. split; [by apply Hf| |]; cbn [savevm_handlers];
    (eapply sublist_NoDup; [|apply fmap_sublist, sublist_filter]); done.
Qed.

(** The instance number of a new entry, chosen or given. *)
Lemma instance_new r name instance j : name_ok name -> instance_free r name instance ->
  (if instance =? -1 then calculate_new_instance_id r name else Ret instance) = Ret j -> is_s 32 j /\ (stored_name 256 name, j) ∉ keys r.
Proof.
  intros [_ Hl] Hf E. destruct (Z.eqb_spec instance (-1)).
  - split; [eapply new_instance_range; [|exact E]; by unfold is_s|by apply new_key_fresh].
  - apply Ret_inj in E as <-. destruct Hf as [?|[Hi Hk]]; [done|]. split; [done|]. unfold stored_name. by rewrite take_ge by (cbn; lia).
Qed.

Lemma stored_ok name : name_ok name -> name_ok (stored_name 256 name).
Proof. intros [Hn Hl]. unfold stored_name. by rewrite take_ge by (cbn; lia). Qed.

Lemma reg_step_wf r op r' : reg_wf r -> reg_ok r op -> reg_step op r = Ret r' -> global_section_id r' < 2 ^ 31 -> reg_wf r'.
Proof.
  intros Hw Hok E Hg. destruct op as [name instance version params live save load opaque|instance [a S d get set] opaque|name opaque|address opaque]; cbn [reg_step reg_ok] in *.
  - destruct Hok as (Hn & Hi & Hv). unfold register_savevm_live in E. destruct (if instance =? -1 then _ else _) as [j| |] eqn:Ej; try done.
    cbn [obind] in E. apply Ret_inj in E as <-. apply instance_new in Ej as [Hj1 Hj2]; [|done..]. apply insert_wf; try done. by apply stored_ok.
  - destruct Hok as (Hn & Hi & Hv). unfold vmstate_register in E. destruct (if instance =? -1 then _ else _) as [j| |] eqn:Ej; try done.
    cbn [obind] in E. apply Ret_inj in E as <-. apply instance_new in Ej as [Hj1 Hj2]; [|done..]. apply insert_wf; try done. by apply stored_ok.
  - apply Ret_inj in E as <-. by apply filter_wf.
  - apply Ret_inj in E as <-. by apply filter_wf.
Qed.

(** C38. The entries a machine registers can be told apart, if their names have no NUL and at
    most 255 bytes: after any sequence of removals and of registrations, plain or described,
    under such names, with non-negative versions and with instance numbers chosen by the
    code or given by the caller and not taken under that name, and as long as fewer than 2^31
    registrations have been made (the section ids are counted in an int), no two entries have
    the same name and instance or the same section id, looking one up by its name and instance
    finds it, and its section id was given out.  Longer names are cut, and then two entries can
    have the same name and instance: [long_names_collide]. *)
Theorem registry_distinct r : reg_reach r ->
  NoDup (keys r) /\ NoDup (map section_id (savevm_handlers r)) /\
  forall se, se ∈ savevm_handlers r -> find_se (savevm_handlers r) (idstr se) (instance_id se) = Some se /\ 0 <= section_id se < global_section_id r.
Proof.
  intros Hr. assert (reg_wf r) as [[He Hk Hs] Hc Hb].
  { induction Hr as [|r op r' _ IH Hok E Hg]; [|by eapply reg_step_wf]. split; [split; constructor|cbn; lia|constructor]. }
  split; [done|]. split; [done|]. intros se Hin. rewrite Forall_forall in He, Hb. split; [by apply find_se_in|].
  split; [apply (ew_section se (He se Hin))|by apply Hb].
Qed.
End Registration.

(** Two entries without instance numbers of their own. *)
Lemma registry_distinct_witness : exists r : registry (list Z) unit,
  map instance_id (savevm_handlers r) = [0; 1] /\ NoDup (map section_id (savevm_handlers r)).
Proof.
  set (op := Register (W:=list Z) (M:=unit) [116] (-1) 1 None None None None 0).
  set (next r := match reg_step op r with Ret r' => r' | _ => r end). set (r0 := mkReg [] 0 : registry (list Z) unit). exists (next (next r0)).
  split; [reflexivity|]. assert (reg_reach (next (next r0))) as Hr.
  { assert (forall r, reg_ok r op) as Hok by (intros r; split; [split; [by repeat constructor|cbn; lia]|split; [by left|lia]]).
    apply (reg_next (next r0) op); [|done|reflexivity|reflexivity]. apply (reg_next r0 op); [constructor|done|reflexivity|reflexivity]. }
  exact (proj1 (proj2 (registry_distinct _ Hr))).
Defined.

(** Names longer than what an entry keeps: both registrations get instance 0 and cannot be
    told apart. *)
Lemma long_names_collide : exists r : registry (list Z) unit,
  (let! r := register_savevm (mkReg [] 0) (replicate 256 65) (-1) 1 None None 0 in register_savevm r (replicate 256 65) (-1) 1 None None 0) = Ret r /\
  keys r = [(replicate 255 65, 0); (replicate 255 65, 0)].
Proof. eexists. split; reflexivity. Qed.
