(* ===== verification/Snapshot.v ===== *)
(** * A snapshot of the devices of the PC

    The devices of this development on one machine, registered as hw/pc.c creates them, and
    what a snapshot of it is worth: [pc_snapshot] composes the round trips of the devices
    with that of the sections. *)

From S2P Require Import Prelude QemuFile VmState VmCopy CUtils I8259 I8254 I8254Proofs Ps2 Ps2Proofs Pckbd Rtc RtcProofs RtcTimers SavedDevices SavedDevicesProofs Savevm SavevmProofs.
From stdpp Require Import list strings.

Open Scope Z_scope.

Record pc : Type := mkPc { pics : PicState2; rtc : RTCState; pit : PITState; i8042 : KBDState }.

Definition put_pic (slave : bool) (m : pc) (s : PicState) : pc := mkPc (with_pic (pics m) slave s) (rtc m) (pit m) (i8042 m).
Definition put_rtc (m : pc) (s : RTCState) : pc := mkPc (pics m) s (pit m) (i8042 m).
Definition put_pit (m : pc) (s : PITState) : pc := mkPc (pics m) (rtc m) s (i8042 m).
Definition put_i8042 (m : pc) (s : KBDState) : pc := mkPc (pics m) (rtc m) (pit m) s.
Definition put_kbd (m : pc) (k : PS2KbdState) : pc := put_i8042 m (set_devices (i8042 m) k (mouse (i8042 m))).
Definition put_mouse (m : pc) (d : PS2MouseState) : pc := put_i8042 m (set_devices (i8042 m) (kbd (i8042 m)) d).

Section Snapshot.
Context {W : Type}.

(** The order of [pc_init1]: the two interrupt controllers, the clock, the timer, and the
    keyboard controller with its devices.  The last argument is the object's address. *)
Definition pc_register (e : env) : res (registry W pc) :=
  let! r := vmstate_register (mkReg [] 0) 0x20 (VmsdAt 1 PicSave.vmstate_pic (fun m => pics0 (pics m)) (put_pic false)) 1 in
  let! r := vmstate_register r 0xa0 (VmsdAt 1 PicSave.vmstate_pic (fun m => pics1 (pics m)) (put_pic true)) 2 in
  let! r := vmstate_register r 0x70 (VmsdAt 2 (RtcSave.vmstate_rtc e) rtc put_rtc) 3 in
  let! r := vmstate_register r 0x40 (VmsdAt 3 PitSave.vmstate_pit pit put_pit) 4 in
  let! r := vmstate_register r 0 (VmsdAt 4 Ps2Save.vmstate_ps2_keyboard (fun m => kbd (i8042 m)) put_kbd) 5 in
  let! r := vmstate_register r 0 (VmsdAt 5 Ps2Save.vmstate_ps2_mouse (fun m => mouse (i8042 m)) put_mouse) 6 in
  vmstate_register r (-1) (VmsdAt 6 KbdSave.vmstate_kbd_isa i8042 put_i8042) 7.

Definition pc_entries (e : env) : list (SaveStateEntry W pc) := match pc_register e with Ret r => savevm_handlers r | _ => [] end.
End Snapshot.

(** Stopping and starting the machine does not touch the devices. *)
Definition pc_ops (running : pc -> bool) : machine_ops := mkOps running (fun m => m) (fun m => m) (fun m => m).

(** Every value fits the C type of its field. *)
Definition pc_fits (m : pc) : bool :=
  pic_fits (pics0 (pics m)) && pic_fits (pics1 (pics m)) && rtc_fits (rtc m) && pit_fits (pit m) &&
  ps2kbd_fits (kbd (i8042 m)) && ps2mouse_fits (mouse (i8042 m)) && kbd_fits (i8042 m).
(** The machine has the timers and the arrays that the code creates. *)
Definition pc_created (n : pc) : bool :=
  (128 =? Z.of_nat (length (cmos_data (rtc n)))) && (negb (rtc_td_hack (rtc n)) || match coalesced_timer (rtc n) with Some _ => true | None => false end) &&
  timers_placed (pit n) && (256 =? Z.of_nat (length (data (queue (kcommon (kbd (i8042 n))))))) && (256 =? Z.of_nat (length (data (queue (mcommon (mouse (i8042 n))))))).

(** The clock also sets up its timer for missed interrupts again. *)
Definition rtc_loaded (e : env) (s t : RTCState) : RTCState :=
  let r := rtc_restored s t in
  if rtc_td_hack t then match rtc_coalesced_timer_update e r with Ret r' => r' | _ => r end else r.

(** What the machine [n] is after the state of [m] is loaded. *)
Definition pc_restored (e : env) (m n : pc) : pc :=
  mkPc (with_pic (with_pic (pics n) false (pic_restored (pics0 (pics m)) (pics0 (pics n)))) true (pic_restored (pics1 (pics m)) (pics1 (pics n))))
    (rtc_loaded e (rtc m) (rtc n)) (pit_restored (pit m) (pit n))
    (kbd_restored (i8042 m)
      (set_devices (i8042 n) (ps2kbd_restored (kbd (i8042 m)) (kbd (i8042 n))) (ps2mouse_restored (mouse (i8042 m)) (mouse (i8042 n))))).

Section Proofs.
Context {W : Type} {h : handlers W} {T : Transport h} {h' : handlers W} {T' : Transport h'}.
Implicit Types (e : env) (m n : pc).

Definition entry (section : Z) (name : string) (instance version : Z) (d : VmsdOf W pc) (opaque : Z) : SaveStateEntry W pc :=
  mkSe (str name) instance version section None None None None (Some d) opaque.

Lemma pc_entries_eq e : pc_entries (W:=W) e =
  [entry 0 "i8259" 0x20 1 (VmsdAt 1 PicSave.vmstate_pic (fun m => pics0 (pics m)) (put_pic false)) 1;
   entry 1 "i8259" 0xa0 1 (VmsdAt 1 PicSave.vmstate_pic (fun m => pics1 (pics m)) (put_pic true)) 2;
   entry 2 "mc146818rtc" 0x70 2 (VmsdAt 2 (RtcSave.vmstate_rtc e) rtc put_rtc) 3;
   entry 3 "i8254" 0x40 2 (VmsdAt 3 PitSave.vmstate_pit pit put_pit) 4;
   entry 4 "ps2kbd" 0 3 (VmsdAt 4 Ps2Save.vmstate_ps2_keyboard (fun m => kbd (i8042 m)) put_kbd) 5;
   entry 5 "ps2mouse" 0 2 (VmsdAt 5 Ps2Save.vmstate_ps2_mouse (fun m => mouse (i8042 m)) put_mouse) 6;
   entry 6 "pckbd" 0 3 (VmsdAt 6 KbdSave.vmstate_kbd_isa i8042 put_i8042) 7].
Proof. reflexivity. Qed.

Lemma pc_entries_wf e : entries_wf (pc_entries (W:=W) e).
Proof.
  rewrite pc_entries_eq. split; [|apply (bool_decide_unpack _); vm_compute; exact I..].
  repeat constructor; cbn; unfold is_s; try lia; repeat constructor; discriminate.
Qed.

(** Both machines register the same entries. *)
Definition both (hs : list (SaveStateEntry W pc)) : list (SaveStateEntry W pc * SaveStateEntry W pc) := map (fun se => (se, se)) hs.

Lemma both_twins hs : Forall twin (both hs) /\ map fst (both hs) = hs /\ map snd (both hs) = hs.
Proof. unfold both. rewrite Forall_map, !map_map, !map_id. split; [|done]. apply Forall_true. done. Qed.

(** A described object is saved and loaded in its place. *)
Lemma described_part (se : SaveStateEntry W pc) {S} a (d : VMStateDescription W S) get set m n b :
  vmsd se = Some (VmsdAt a d get set) -> version_id se = vmsd_version d -> copies d (get m) (get n) (get m) b -> set m (get m) = m ->
  exists bs, full_part (h:=h) (h':=h') (se, se) m n bs m (set n b).
Proof.
  intros Hd Hv [bs E] Hs. pose proof (copy_implements (h:=h) _ _ _ _ _ _ _ E) as [H1 _]. pose proof (copy_implements (h:=h') _ _ _ _ _ _ _ E) as [_ H2].
  exists bs. split; intros f l Hf; cbn [fst snd].
  - unfold vmstate_save. rewrite Hd. destruct (H1 f l Hf) as (f' & -> & Hf'). cbn [obind]. rewrite Hs. eauto.
  - unfold vmstate_load. rewrite Hd, Hv. destruct (H2 f l Hf) as (r & f' & -> & Hr & Hf'). cbn [obind]. eauto.
Qed.

Definition passes hs m n n' : Prop :=
  exists bs, pass has_state (start_header QEMU_VM_SECTION_FULL) (full_part (h:=h) (h':=h')) (both hs) m n bs m n'.

Lemma passes_cons se {S} a (d : VMStateDescription W S) get set hs m n b n' :
  vmsd se = Some (VmsdAt a d get set) -> version_id se = vmsd_version d -> copies d (get m) (get n) (get m) b -> set m (get m) = m ->
  passes hs m (set n b) n' -> passes (se :: hs) m n n'.
Proof.
  intros Hd Hv Hc Hs [bs Hp]. destruct (described_part se a d get set m n b Hd Hv Hc Hs) as [b1 H1]. eexists.
  eapply (pass_take _ _ _ (se, se)); [unfold has_state; cbn; rewrite Hd; by destruct (save_state se)|exact H1|exact Hp].
Qed.

Lemma rtc_loads e s t : rtc_fits s = true -> length (cmos_data t) = 128%nat ->
  (negb (rtc_td_hack t) || match coalesced_timer t with Some _ => true | None => false end) = true ->
  copies (W:=W) (RtcSave.vmstate_rtc e) s t s (rtc_loaded e s t).
Proof.
  intros Hs Hl Ht. apply rtc_copies; [done|done|]. unfold rtc_loaded. destruct (rtc_td_hack t); [|done]. cbn [negb orb] in Ht.
  unfold rtc_coalesced_timer_update. cbn [rtc_restored coalesced_timer]. destruct (coalesced_timer t); [|done]. by destruct (_ =? 0).
Qed.

Ltac described tac := eapply passes_cons; [reflexivity|reflexivity|tac|subst; reflexivity|].

Lemma pc_passes e m n : pc_fits m = true -> pc_created n = true -> passes (pc_entries e) m n (pc_restored e m n).
Proof.
  intros Hm Hn. unfold pc_fits, pc_created in *. split_bools. repeat match goal with H : (_ =? _) = true |- _ => apply Z.eqb_eq in H end.
  rewrite pc_entries_eq. destruct m as [[] ? ? []] eqn:Em, n as [[] ? ? []] eqn:En. rewrite <- Em, <- En in *.
  described ltac:(apply pic_copies; done). described ltac:(apply pic_copies; done).
  described ltac:(apply rtc_loads; [done|subst; cbn in *; lia|subst; assumption]).
  described ltac:(apply pit_copies; [done|subst; assumption]). described ltac:(apply ps2kbd_copies; [done|subst; cbn in *; lia]).
  described ltac:(apply ps2mouse_copies; [done|subst; cbn in *; lia]). described ltac:(apply kbd_isa_copies; done).
  exists []. subst. constructor.
Qed.

Lemma pc_copied e running m n : pc_fits m = true -> pc_created n = true ->
  exists bs, machine_copied (h:=h) (h':=h') (pc_ops running) (both (pc_entries e)) 1 m n bs m (pc_restored e m n).
Proof.
  intros Hm Hn. destruct (pc_passes e m n Hm Hn) as [b Hp]. eexists.
  assert (m = if vm_running (pc_ops running) m then vm_start (pc_ops running) m else m) as Em by (by destruct (vm_running _ _)).
  rewrite Em at 2. eapply machine_parts; [| |eexists _, m, n, b; split; [reflexivity|split; [|exact Hp]]].
  - rewrite pc_entries_eq. do 7 (apply pass_skip; [reflexivity|]). apply pass_nil.
  - rewrite pc_entries_eq. eapply rounds_last; [do 7 (apply round_skip; [reflexivity|]); apply round_nil|done].
  - rewrite pc_entries_eq. do 7 (apply pass_skip; [reflexivity|]). apply pass_nil.
Qed.

(** C34. A snapshot of the PC's interrupt controllers, interval timer, keyboard controller with
    keyboard and mouse, and clock, written to a file and read back: saving returns 0,
    changes nothing and leaves a sequence of bytes in the file's transport; loading these
    bytes into any machine that was created the same way returns 0 and gives every saved
    register, queue, counter, calendar field and timer the value it had.  The transport
    written to takes every block it is given as a whole (after a short write [qemu_fflush]
    drops the rest of the block without an error: [short_write_lost] in QemuFile); the one
    read from may deliver the bytes in pieces of any sizes. *)
Theorem pc_snapshot e running m n : pc_fits m = true -> pc_created n = true -> exists bs,
  (forall w, put_buffer h <> None -> tr_ok (h:=h) w -> sunk (h:=h) w = [] -> exists f,
     qemu_savevm_state 1 (pc_ops running) (pc_entries e) (qemu_fopen_ops w h) m = Ret (0, m, f) /\
     sunk (h:=h) (opaque (qemu_fflush f)) = bs /\ has_error (qemu_fflush f) = false) /\
  (forall w fuel, get_buffer h' <> None -> tr_ok (h:=h') w -> left (h:=h') w = bs -> (length bs <= fuel)%nat -> exists f,
     qemu_loadvm_state fuel (pc_entries e) (qemu_fopen_ops w h') n = Ret (0, pc_restored e m n, f) /\ has_error f = false).
Proof.
  intros Hm Hn. destruct (pc_copied e running m n Hm Hn) as [bs Hc]. exists bs. destruct (both_twins (pc_entries e)) as (Htw & Ef & Es). split.
  - intros w Hp Hd Hw. pose proof (fopen_written w Hp Hd) as Hf. rewrite Hw in Hf.
    destruct (machine_saves _ _ _ _ _ _ _ _ Hc _ Hf) as (f & E & Hf'). rewrite Ef in E. exists f. split; [done|]. by apply fflush_spec.
  - intros w fuel Hg Hd Hw Hfuel. pose proof (fopen_pending w Hg Hd) as Hf. rewrite Hw, <- (app_nil_r bs) in Hf.
    destruct (machine_loads (h:=h) (h':=h') (both (pc_entries e)) Htw ltac:(rewrite Es; apply pc_entries_wf) _ _ _ _ _ _ _ fuel Hc Hfuel _ _ Hf) as (f & E & Hf').
    rewrite Es in E. exists f. split; [done|]. apply (pn_ok _ _ Hf').
Qed.
End Proofs.

(** ** A machine that runs *)
Definition booted : pc :=
  mkPc (i8259_init true) (rtc_init (mkEnv 5 false false) true 2000 millennium)
    (match I8254Proofs.pit_start false (fun _ => 7) with Ret p => p | _ => mkPit [] 0 (mkDrift 0 0 0) [] end) i8042_initfn.
(** A key is waiting and an interrupt requested. *)
Definition running_pc : pc :=
  put_pic false (put_i8042 booted (match kbd_event (i8042 booted) 0x1e with Ret s => s | _ => i8042 booted end)) (set_irrs (pics0 (pics booted)) 2 2).

Lemma pc_snapshot_witness : exists bs,
  (exists f', qemu_savevm_state 1 (pc_ops (fun _ => true)) (pc_entries (mkEnv 9 false false)) (qemu_fopen_ops [] mem_file) running_pc = Ret (0, running_pc, f') /\
     opaque (qemu_fflush f') = bs) /\
  exists f', qemu_loadvm_state (length bs) (pc_entries (mkEnv 9 false false)) (qemu_fopen_ops bs mem_file) booted =
    Ret (0, pc_restored (mkEnv 9 false false) running_pc booted, f').
Proof.
  destruct (pc_snapshot (h:=mem_file) (h':=mem_file) (mkEnv 9 false false) (fun _ => true) running_pc booted ltac:(vm_compute; reflexivity) ltac:(vm_compute; reflexivity)) as (bs & Hs & Hl).
  exists bs. split.
  - destruct (Hs [] ltac:(discriminate) I eq_refl) as (f' & E & Eb & _). eauto.
  - destruct (Hl bs (length bs) ltac:(discriminate) I eq_refl ltac:(lia)) as (f' & E & _). eauto.
Defined.

(** ** Limits of the saved state *)
(** The reader of version 1 of the timer's state refuses version 1. *)
Lemma pit_version_1_refused {W} (f : QEMUFile W) pit : vmstate_load_state PitSave.vmstate_pit f pit 1 = Ret (- EINVAL, pit, f).
Proof. reflexivity. Qed.

(** The queue indices of a PS/2 device are taken as they come: a file with an index outside
    the queue is loaded, and the next byte queued is written outside the buffer. *)
Lemma ps2_index_unchecked {W} : exists s t : PS2State, Ps2Proofs.queue_wf t /\
  copies (W:=W) Ps2Save.vmstate_ps2_common s t s (ps2_restored s t) /\ ps2_queue (ps2_restored s t) 0x1e = Fault.
Proof.
  set (t := kcommon (kbd i8042_initfn)). exists (Ps2Save.put_wptr t 1000), t. split; [apply Ps2Proofs.ps2_zero_wf|].
  split; [apply ps2_copies; reflexivity|reflexivity].
Qed.

(** The count of interrupts reinjected on acknowledgement is not saved: a clock that has
    reached its limit starts again from zero after a load, and raises its interrupt without
    the flag that says why. *)
Definition exhausted : RTCState :=
  set_index (set_coalesced (rtc_init (mkEnv 5 false false) true 2000 millennium) RTC_REINJECT_ON_ACK_COUNT 3 32) 12.
Lemma rtc_reinject_not_saved :
  core_wf exhausted /\ rtc_fits exhausted = true /\
  let after s := match cmos_ioport_read (mkEnv 9 false false) s 0x71 with Ret (v, s') => (v, last (Rtc.irq s'), cmos s' RTC_REG_C) | _ => (-1, None, -1) end in
  after exhausted = (0, Some 0, 0) /\ after (rtc_loaded (mkEnv 9 false false) exhausted (rtc booted)) = (0, Some 1, 0).
Proof.
  split; [|split; [vm_compute; reflexivity|split; vm_compute; reflexivity]].
  split; vm_compute; try done; try (by intros); try (split; congruence || done); repeat constructor; done.
Qed.

(** A file that ends inside the name of a section: the rest of the name is whatever was on
    the stack. *)
Lemma truncated_name_uninitialised :
  qemu_loadvm_state 1 (pc_entries (mkEnv 9 false false))
    (qemu_fopen_ops (be32 QEMU_VM_FILE_MAGIC ++ be32 QEMU_VM_FILE_VERSION ++ [QEMU_VM_SECTION_FULL; 0; 0; 0; 0; 5; 105; 56]) mem_file) booted = Fault.
Proof. vm_compute. reflexivity. Qed.
