(* ===== verification/BufferedFile.v ===== *)
(** * The rate-limited file of a migration: buffered_file.c

    The transport of an outgoing migration: what the device below does not take at once is
    kept in a growing buffer and flushed before anything newer.  The device, [put_buffer] of
    the source, is a parameter over its state [D]; the class [Pipe] states what the code
    relies on: it takes a part of what it is given, or nothing and says so.  [buffer] is the
    used part of the source's buffer.  The call of [put_ready] at the end of a tick is left
    to the owner of the file: [buffered_rate_tick] says whether it is made.  The time of the
    timer is in milliseconds.  While it closes, the source calls [wait_for_unfreeze] with
    the buffered file itself and not with its owner, which the other callbacks get, so that
    is what the callback is given here. *)

From S2P Require Import Prelude QemuFile.
From stdpp Require Import list.

Open Scope Z_scope.

Record QEMUFileBuffered (D : Type) : Type := mkBuffered {
  b_error : bool; freeze_output : bool; bytes_xfer : Z; xfer_limit : Z;
  buffer : list Z; buffer_capacity : Z; b_timer : option Z; dev : D
}.
Arguments mkBuffered {D}. Arguments b_error {D}. Arguments freeze_output {D}. Arguments bytes_xfer {D}. Arguments xfer_limit {D}.
Arguments buffer {D}. Arguments buffer_capacity {D}. Arguments b_timer {D}. Arguments dev {D}.

(** What the owner of the file provides. *)
Record buffered_ops (D : Type) : Type := mkBufOps { dev_put : D -> list Z -> Z * D; wait_for_unfreeze : QEMUFileBuffered D -> D; dev_close : D -> Z * D }.
Arguments mkBufOps {D}. Arguments dev_put {D}. Arguments wait_for_unfreeze {D}. Arguments dev_close {D}.

Section Buffered.
Context {D : Type} (o : buffered_ops D).
Implicit Types s : QEMUFileBuffered D.

(** The fields the operations assign. *)
Definition set_status s (error freeze : bool) (d : D) : QEMUFileBuffered D :=
  mkBuffered error freeze (bytes_xfer s) (xfer_limit s) (buffer s) (buffer_capacity s) (b_timer s) d.
Definition set_xfer s (n : Z) : QEMUFileBuffered D :=
  mkBuffered (b_error s) (freeze_output s) n (xfer_limit s) (buffer s) (buffer_capacity s) (b_timer s) (dev s).
Definition set_buffer s (b : list Z) (cap : Z) : QEMUFileBuffered D :=
  mkBuffered (b_error s) (freeze_output s) (bytes_xfer s) (xfer_limit s) b cap (b_timer s) (dev s).
Definition set_limit s (n : Z) : QEMUFileBuffered D :=
  mkBuffered (b_error s) (freeze_output s) (bytes_xfer s) n (buffer s) (buffer_capacity s) (b_timer s) (dev s).
Definition set_timer s (t : option Z) : QEMUFileBuffered D :=
  mkBuffered (b_error s) (freeze_output s) (bytes_xfer s) (xfer_limit s) (buffer s) (buffer_capacity s) t (dev s).

Definition buffer_size s : Z := Z.of_nat (length (buffer s)).

Definition buffered_append s (bs : list Z) : QEMUFileBuffered D :=
  let size := Z.of_nat (length bs) in
  let cap := if buffer_capacity s - buffer_size s <? size then buffer_capacity s + (size + 1024) else buffer_capacity s in
  set_buffer s (buffer s ++ bs) cap.

(** The loop of [buffered_flush]; a round that goes on has written at least one byte. *)
Fixpoint flush_loop (fuel : nat) s (offset : nat) : nat * QEMUFileBuffered D :=
  match fuel with
  | O => (offset, s)
  | S fuel =>
      if Z.of_nat offset <? buffer_size s then
        let '(ret, d) := dev_put o (dev s) (drop offset (buffer s)) in
        if ret =? - EAGAIN then (offset, set_status s (b_error s) true d)
        else if ret <=? 0 then (offset, set_status s true (freeze_output s) d)
        else flush_loop fuel (set_status s (b_error s) (freeze_output s) d) (offset + Z.to_nat ret)
      else (offset, s)
  end.
Definition buffered_flush s : QEMUFileBuffered D :=
  if b_error s then s
  else let '(offset, s) := flush_loop (length (buffer s)) s 0 in set_buffer s (drop offset (buffer s)) (buffer_capacity s).

(** The loop of [buffered_put_buffer]; [None] is an error. *)
Fixpoint put_direct (fuel : nat) s (bs : list Z) (offset : nat) : option nat * QEMUFileBuffered D :=
  match fuel with
  | O => (Some offset, s)
  | S fuel =>
      if negb (freeze_output s) && (Z.of_nat offset <? Z.of_nat (length bs)) then
        if xfer_limit s <? bytes_xfer s then (Some offset, s)
        else
          let '(ret, d) := dev_put o (dev s) (drop offset bs) in
          if ret =? - EAGAIN then (Some offset, set_status s (b_error s) true d)
          else if ret <=? 0 then (None, set_status s true (freeze_output s) d)
          else put_direct fuel (set_xfer (set_status s (b_error s) (freeze_output s) d) (bytes_xfer s + ret)) bs (offset + Z.to_nat ret)
      else (Some offset, s)
  end.
Definition buffered_put_buffer s (bs : list Z) (pos : Z) : Z * QEMUFileBuffered D :=
  if b_error s then (- EINVAL, s)
  else
    let s := set_status s (b_error s) false (dev s) in
    let s := buffered_flush s in
    match put_direct (length bs) s bs 0 with
    | (Some offset, s) => (Z.of_nat (length bs), buffered_append s (drop offset bs))
    | (None, s) => (- EINVAL, s)
    end.

(** The loop of [buffered_close], which ends when the device has taken everything. *)
Fixpoint close_loop (fuel : nat) s : QEMUFileBuffered D :=
  match fuel with
  | O => s
  | S fuel =>
      if negb (b_error s) && negb (buffer_size s =? 0) then
        let s := buffered_flush s in
        close_loop fuel (if freeze_output s then set_status s (b_error s) (freeze_output s) (wait_for_unfreeze o s) else s)
      else s
  end.
Definition buffered_close (fuel : nat) s : Z * QEMUFileBuffered D :=
  let s := close_loop fuel s in
  let '(ret, d) := dev_close o (dev s) in
  (ret, set_timer (set_status s (b_error s) (freeze_output s) d) None).

Definition buffered_rate_limit s : Z :=
  if b_error s then 0 else if freeze_output s then 1 else if xfer_limit s <? bytes_xfer s then 1 else 0.
Definition buffered_set_rate_limit s (new_rate : Z) : Z * QEMUFileBuffered D :=
  let s := if b_error s then s else set_limit s (new_rate / 10) in (xfer_limit s, s).
Definition buffered_get_rate_limit s : Z := xfer_limit s.

(** The result says whether [put_ready] is called. *)
Definition buffered_rate_tick s (now : Z) : bool * QEMUFileBuffered D :=
  if b_error s then (false, s)
  else
    let s := set_timer s (Some (now + 100)) in
    if freeze_output s then (false, s) else (true, buffered_flush (set_xfer s 0)).

Definition buffered_handlers (fuel : nat) : handlers (QEMUFileBuffered D) :=
  mkHandlers (Some buffered_put_buffer) None (Some (buffered_close fuel)) (Some buffered_rate_limit) (Some buffered_set_rate_limit) (Some buffered_get_rate_limit).

Definition qemu_fopen_ops_buffered (fuel : nat) (d : D) (bytes_per_sec now : Z) : QEMUFile (QEMUFileBuffered D) :=
  qemu_fopen_ops (mkBuffered false false 0 (bytes_per_sec / 10) [] 0 (Some (now + 100)) d) (buffered_handlers fuel).
End Buffered.

(** ** What the device promises *)
Class Pipe {D : Type} (o : buffered_ops D) : Type := {
  sent : D -> list Z;
  pipe_put d bs : bs <> [] -> exists ret d', dev_put o d bs = (ret, d') /\
    ((ret = - EAGAIN /\ sent d' = sent d) \/ (0 < ret <= Z.of_nat (length bs) /\ sent d' = sent d ++ take (Z.to_nat ret) bs));
  pipe_wait s : sent (wait_for_unfreeze o s) = sent (dev s);
  pipe_close d : sent (snd (dev_close o d)) = sent d
}.

Section Order.
Context {D : Type} (o : buffered_ops D) {P : Pipe o}.
Implicit Types s : QEMUFileBuffered D.

(** A file without an error whose buffer has room for what it holds. *)
Record buffered_wf s : Prop := { bw_ok : b_error s = false; bw_room : buffer_size s <= buffer_capacity s; bw_limit : 0 <= bytes_xfer s }.

(** All that was put: what the device has taken, then what is kept. *)
Definition accepted s : list Z := sent (dev s) ++ buffer s.

Lemma flush_loop_spec n : forall s offset, b_error s = false -> (offset <= length (buffer s))%nat -> (length (buffer s) - offset <= n)%nat ->
  exists k s', flush_loop o n s offset = (k, s') /\ (offset <= k <= length (buffer s))%nat /\ sent (dev s') ++ drop k (buffer s) = sent (dev s) ++ drop offset (buffer s) /\
    exists fr, s' = set_status s false fr (dev s') /\ (fr = false -> k = length (buffer s)).
Proof.
  induction n as [|n IH]; intros s offset He Ho Hn; cbn [flush_loop].
  { exists offset, s. split_and!; try done. exists (freeze_output s). split; [by destruct s; cbn in *; subst|lia]. }
  unfold buffer_size. destruct (Z.ltb_spec (Z.of_nat offset) (Z.of_nat (length (buffer s)))) as [Hlt|Hge].
  2: { exists offset, s. split_and!; try done. exists (freeze_output s). split; [by destruct s; cbn in *; subst|lia]. }
  destruct (pipe_put (dev s) (drop offset (buffer s))) as (ret & d & -> & Hput).
  { intros E. apply (f_equal length) in E. rewrite length_drop in E. cbn in E. lia. }
  rewrite length_drop in Hput. destruct (Z.eqb_spec ret (- EAGAIN)) as [->|Hne].
  { destruct Hput as [[_ Hs]|[? _]]; [|unfold EAGAIN in *; lia]. exists offset, (set_status s (b_error s) true d). split_and!; try done; [cbn; by rewrite Hs|].
    exists true. rewrite He. done. }
  destruct Hput as [[? _]|[Hr Hs]]; [done|]. rewrite (proj2 (Z.leb_gt ret 0)) by lia.
  destruct (IH (set_status s (b_error s) (freeze_output s) d) (offset + Z.to_nat ret)%nat) as (k & s' & E & Hk & Hd & fr & Hst & Hfr); [done|cbn; lia|cbn; lia|].
  exists k, s'. split_and!; try done; [cbn in Hk; lia..| |by exists fr]. cbn [dev set_status buffer] in Hd.
  rewrite Hd, Hs, <- app_assoc. f_equal. by rewrite <- drop_drop, take_drop.
Qed.

Lemma buffered_flush_spec s : buffered_wf s -> buffered_wf (buffered_flush o s) /\ accepted (buffered_flush o s) = accepted s /\
  bytes_xfer (buffered_flush o s) = bytes_xfer s /\ xfer_limit (buffered_flush o s) = xfer_limit s /\
  (freeze_output (buffered_flush o s) = false -> buffer (buffered_flush o s) = []).
Proof.
  intros [He Hr Hl]. unfold buffered_flush. rewrite He.
  destruct (flush_loop_spec (length (buffer s)) s 0 He ltac:(lia) ltac:(lia)) as (k & s' & -> & Hk & Hd & fr & Hst & Hfr).
  rewrite Hst in *. cbn [dev set_status buffer] in Hd. split_and!; [|unfold accepted; cbn; by rewrite Hd, drop_0|done|done|].
  - split; cbn; [done| |done]. unfold buffer_size in *. cbn. rewrite length_drop. lia.
  - cbn. intros ->. by rewrite Hfr, drop_all by done.
Qed.

Lemma put_direct_spec n : forall s bs offset, b_error s = false -> (freeze_output s = false -> buffer s = []) -> (offset <= length bs)%nat ->
  (length bs - offset <= n)%nat -> 0 <= bytes_xfer s ->
  exists k s', put_direct o n s bs offset = (Some k, s') /\ (k <= length bs)%nat /\ b_error s' = false /\ buffer s' = buffer s /\
    buffer_capacity s' = buffer_capacity s /\ 0 <= bytes_xfer s' /\ accepted s' ++ drop k bs = accepted s ++ drop offset bs.
Proof.
  induction n as [|n IH]; intros s bs offset He Hf Ho Hn Hx; cbn [put_direct]; [by exists offset, s|].
  destruct (freeze_output s) eqn:Efr; cbn [negb andb]; [by exists offset, s|].
  destruct (Z.ltb_spec (Z.of_nat offset) (Z.of_nat (length bs))) as [Hlt|]; [|by exists offset, s].
  destruct (xfer_limit s <? bytes_xfer s); [by exists offset, s|].
  destruct (pipe_put (dev s) (drop offset bs)) as (ret & d & -> & Hput).
  { intros E. apply (f_equal length) in E. rewrite length_drop in E. cbn in E. lia. }
  rewrite length_drop in Hput. specialize (Hf eq_refl). destruct (Z.eqb_spec ret (- EAGAIN)) as [->|Hne].
  { destruct Hput as [[_ Hs]|[? _]]; [|unfold EAGAIN in *; lia]. do 2 eexists. split; [done|]. split_and!; try done. unfold accepted. cbn. by rewrite Hs. }
  destruct Hput as [[? _]|[Hr Hs]]; [done|]. rewrite (proj2 (Z.leb_gt ret 0)) by lia. set (s1 := set_xfer _ _).
  destruct (IH s1 bs (offset + Z.to_nat ret)%nat) as (k & s' & E & Hk & He' & Hb & Hc & Hx' & Ha); [by cbn|by cbn|lia|lia|cbn; lia|].
  exists k, s'. split_and!; try done. rewrite Ha. unfold accepted. cbn. rewrite Hf, Hs, !app_nil_r, <- app_assoc. f_equal.
  by rewrite <- drop_drop, take_drop.
Qed.

Lemma buffered_append_spec s bs : buffered_wf s -> buffered_wf (buffered_append s bs) /\ accepted (buffered_append s bs) = accepted s ++ bs.
Proof.
  intros [He Hr Hl]. split; [|unfold accepted; cbn; by rewrite app_assoc]. split; [done| |done].
  unfold buffered_append, buffer_size in *. cbn. rewrite length_app.
  destruct (Z.ltb_spec (buffer_capacity s - Z.of_nat (length (buffer s))) (Z.of_nat (length bs))); lia.
Qed.

(** Everything put is accepted, in order. *)
Lemma buffered_put_spec s bs pos : buffered_wf s -> exists s', buffered_put_buffer o s bs pos = (Z.of_nat (length bs), s') /\ buffered_wf s' /\ accepted s' = accepted s ++ bs.
Proof.
  intros Hw. pose proof Hw as [He Hr Hl]. unfold buffered_put_buffer. rewrite He.
  destruct (buffered_flush_spec (set_status s false false (dev s))) as ([He1 Hr1 Hl1] & Ha1 & _ & _ & Hf1); [by split|]. set (s1 := buffered_flush _ _) in *.
  destruct (put_direct_spec (length bs) s1 bs 0 He1 Hf1 ltac:(lia) ltac:(lia) Hl1) as (k & s2 & -> & Hk & He2 & Hb2 & Hc2 & Hx2 & Ha2).
  destruct (buffered_append_spec s2 (drop k bs)) as [Hw3 Ha3]; [split; [done| |done]; unfold buffer_size in *; by rewrite Hb2, Hc2|].
  eexists. split; [done|]. split; [done|]. rewrite Ha3, Ha2, Ha1. done.
Qed.

End Order.

(** ** Properties of the device that its use does not change *)
Class Stable {D : Type} (o : buffered_ops D) (Q : D -> Prop) : Prop := {
  stable_put d bs : Q d -> Q (snd (dev_put o d bs));
  stable_wait s : Q (dev s) -> Q (wait_for_unfreeze o s)
}.

Section Stability.
Context {D : Type} (o : buffered_ops D) (Q : D -> Prop) {HQ : Stable o Q}.
Implicit Types s : QEMUFileBuffered D.

Lemma flush_loop_stable n : forall s offset, Q (dev s) -> Q (dev (snd (flush_loop o n s offset))).
Proof.
  induction n as [|n IH]; intros s offset H; cbn [flush_loop]; [done|]. if_case; [|done].
  pose proof (stable_put (dev s) (drop offset (buffer s)) H) as H'. destruct (dev_put o (dev s) _) as [ret d]. cbn [snd] in H'.
  if_case; [done|]. if_case; [done|]. by apply IH.
Qed.

Lemma flush_stable s : Q (dev s) -> Q (dev (buffered_flush o s)).
Proof.
  intros H. unfold buffered_flush. if_case; [done|]. pose proof (flush_loop_stable (length (buffer s)) s 0 H) as H'.
  destruct (flush_loop o (length (buffer s)) s 0). done.
Qed.

Lemma put_direct_stable n : forall s bs offset, Q (dev s) -> Q (dev (snd (put_direct o n s bs offset))).
Proof.
  induction n as [|n IH]; intros s bs offset H; cbn [put_direct]; [done|]. if_case; [|done]. if_case; [done|].
  pose proof (stable_put (dev s) (drop offset bs) H) as H'. destruct (dev_put o (dev s) _) as [ret d]. cbn [snd] in H'.
  if_case; [done|]. if_case; [done|]. by apply IH.
Qed.

Lemma put_stable s bs pos : Q (dev s) -> Q (dev (snd (buffered_put_buffer o s bs pos))).
Proof.
  intros H. unfold buffered_put_buffer. if_case; [done|]. set (s1 := buffered_flush _ _).
  pose proof (put_direct_stable (length bs) s1 bs 0 ltac:(by apply flush_stable)) as H'. destruct (put_direct o (length bs) s1 bs 0) as [[] ?]; done.
Qed.

Lemma tick_stable s now : Q (dev s) -> Q (dev (snd (buffered_rate_tick o s now))).
Proof. intros H. unfold buffered_rate_tick. if_case; [done|]. if_case; [done|]. by apply flush_stable. Qed.

Lemma close_loop_stable n : forall s, Q (dev s) -> Q (dev (close_loop o n s)).
Proof.
  induction n as [|n IH]; intros s H; cbn [close_loop]; [done|]. if_case; [|done]. apply IH. if_case; [|by apply flush_stable].
  cbn. by apply stable_wait, flush_stable.
Qed.

(** So the file is a transport like any other. *)
Definition buffered_transport {P : Pipe o} fuel : Transport (buffered_handlers o fuel).
Proof.
  refine {| tr_ok s := buffered_wf s /\ Q (dev s); sunk := accepted o; left _ := [] |}.
  - intros put w bs pos [= <-] [Hw Hq] Hne. pose proof (put_stable w bs pos Hq) as Hq'.
    destruct (buffered_put_spec o w bs pos Hw) as (w' & E & Hw' & Ha). rewrite E in Hq'. exists (Z.of_nat (length bs)), w'.
    split; [done|]. split; [done|]. split; [destruct bs; [done|cbn; lia]|done].
  - intros get w pos size [= ?].
Defined.
End Stability.

(** ** Closing *)
(** A device that says it would block does so no more than [bound] times before it takes
    something: [stalls] are those to come. *)
Class Drains {D : Type} (o : buffered_ops D) (bound : nat) : Type := {
  stalls : D -> nat;
  stalls_bound d : (stalls d <= bound)%nat;
  stalls_put d bs : bs <> [] -> fst (dev_put o d bs) = - EAGAIN -> (stalls (snd (dev_put o d bs)) < stalls d)%nat;
  stalls_wait s : (stalls (wait_for_unfreeze o s) <= stalls (dev s))%nat
}.

Section Close.
Context {D : Type} (o : buffered_ops D) {P : Pipe o} (bound : nat) {K : Drains o bound}.
Implicit Types s : QEMUFileBuffered D.

(** The rounds closing needs at most. *)
Definition to_drain s : nat := length (buffer s) * S bound + stalls (dev s).

(** A flush takes something off the buffer, or one stall. *)
Lemma flush_progress s : buffered_wf s -> buffer s <> [] -> (to_drain (buffered_flush o s) < to_drain s)%nat.
Proof.
  intros [He Hr Hl] Hne. unfold buffered_flush, to_drain. rewrite He. destruct (length (buffer s)) as [|n] eqn:En; [by destruct (buffer s)|]. cbn [flush_loop].
  unfold buffer_size. rewrite (proj2 (Z.ltb_lt _ _)) by lia. rewrite drop_0. pose proof (stalls_put (dev s) (buffer s) Hne) as Hst.
  destruct (pipe_put (dev s) (buffer s) Hne) as (ret & d & E & Hput). rewrite E in *. cbn [fst snd] in Hst. destruct (Z.eqb_spec ret (- EAGAIN)) as [->|Hr1].
  - specialize (Hst eq_refl). cbn [set_status set_buffer buffer dev]. rewrite drop_0, En. lia.
  - destruct Hput as [[-> _]|[Hret _]]; [done|]. rewrite (proj2 (Z.leb_gt _ _)) by lia.
    destruct (flush_loop_spec o n (set_status s (b_error s) (freeze_output s) d) (0 + Z.to_nat ret)) as (k & s' & -> & Hk & Hd & fr & Hs & _); [done|cbn; lia|cbn; lia|].
    rewrite Hs. cbn [set_status set_buffer buffer dev] in *. rewrite length_drop, En. pose proof (stalls_bound (dev s')). nia.
Qed.

Lemma wait_wf s : buffered_wf s -> buffered_wf (set_status s (b_error s) (freeze_output s) (wait_for_unfreeze o s)).
Proof. intros []. by split. Qed.

(** What a loop that has ended has done. *)
Definition closed (s s' : QEMUFileBuffered D) : Prop := buffered_wf s' /\ buffer s' = [] /\ sent (dev s') = accepted o s.

Lemma closed_empty s : buffered_wf s -> buffer s = [] -> closed s s.
Proof. intros Hw Eb. unfold closed, accepted. by rewrite Eb, app_nil_r. Qed.

Lemma close_loop_end n s : buffer s = [] -> close_loop o n s = s.
Proof. intros E. destruct n; [done|]. cbn [close_loop]. unfold buffer_size. rewrite E. cbn. by rewrite andb_false_r. Qed.

Lemma close_loop_spec n : forall s, buffered_wf s -> (to_drain s <= n)%nat -> closed s (close_loop o n s).
Proof.
  induction n as [|n IH]; intros s Hw Hn; (destruct (decide (buffer s = [])) as [Eb|Hne]; [rewrite close_loop_end by done; by apply closed_empty|]).
  { unfold to_drain in Hn. destruct (buffer s); [done|cbn in Hn; lia]. }
  cbn [close_loop]. rewrite (bw_ok s Hw). cbn [negb andb]. unfold buffer_size.
  rewrite (proj2 (Z.eqb_neq _ _)) by (destruct (buffer s); [done|cbn; lia]). cbn [negb].
  pose proof (flush_progress s Hw Hne) as Hp. destruct (buffered_flush_spec o s Hw) as (Hw1 & Ha1 & _). set (s1 := buffered_flush o s) in *.
  destruct (freeze_output s1) eqn:Ef.
  - pose proof (stalls_wait s1) as Hst. pose proof (wait_wf s1 Hw1) as Hw2. rewrite Ef in Hw2. set (s2 := set_status _ _ _ _) in *.
    destruct (IH s2 Hw2) as (H1 & H2 & H3); [unfold to_drain in *; cbn; lia|]. split_and!; [done|done|]. rewrite H3. unfold accepted. cbn. by rewrite pipe_wait.
  - destruct (IH s1 Hw1) as (H1 & H2 & H3); [lia|]. split_and!; [done|done|]. by rewrite H3.
Qed.

(** Enough rounds for all that was put. *)
Lemma to_drain_fuel s l : accepted o s = l -> forall n, (S (length l) * S bound <= n)%nat -> (to_drain s <= n)%nat.
Proof. intros <- n Hn. unfold to_drain, accepted in *. rewrite length_app in Hn. pose proof (stalls_bound (dev s)). nia. Qed.

(** ** Any use of the file *)
Inductive file_op : Type := Put (bs : list Z) | Tick (now : Z) | Notify | SetRate (rate : Z).

(** The results are those of the puts. *)
Definition file_step (op : file_op) s : option Z * QEMUFileBuffered D :=
  match op with
  | Put bs => let '(r, s) := buffered_put_buffer o s bs 0 in (Some r, s)
  | Tick now => (None, snd (buffered_rate_tick o s now))
  | Notify => (None, snd (buffered_put_buffer o s [] 0))
  | SetRate rate => (None, snd (buffered_set_rate_limit s rate))
  end.
Fixpoint file_run (ops : list file_op) s : list Z * QEMUFileBuffered D :=
  match ops with
  | [] => ([], s)
  | op :: ops => let '(r, s) := file_step op s in let '(rs, s) := file_run ops s in (match r with Some r => r :: rs | None => rs end, s)
  end.
Definition puts (ops : list file_op) : list (list Z) := omap (fun op => match op with Put bs => Some bs | _ => None end) ops.

Lemma tick_spec s now : buffered_wf s -> buffered_wf (snd (buffered_rate_tick o s now)) /\ accepted o (snd (buffered_rate_tick o s now)) = accepted o s.
Proof.
  intros [He Hr Hl]. unfold buffered_rate_tick. rewrite He. cbn [freeze_output set_timer]. destruct (freeze_output s); cbn [snd]; [by split|].
  destruct (buffered_flush_spec o (set_xfer (set_timer s (Some (now + 100))) 0)) as (Hw & Ha & _); [by split|]. split; [done|]. by rewrite Ha.
Qed.

Lemma file_step_spec op s : buffered_wf s -> buffered_wf (snd (file_step op s)) /\
  match op with Put bs => fst (file_step op s) = Some (Z.of_nat (length bs)) /\ accepted o (snd (file_step op s)) = accepted o s ++ bs
              | _ => fst (file_step op s) = None /\ accepted o (snd (file_step op s)) = accepted o s end.
Proof.
  intros Hw. destruct op as [bs|now| |rate]; cbn [file_step].
  - destruct (buffered_put_spec o s bs 0 Hw) as (s' & -> & Hw' & Ha). done.
  - destruct (tick_spec s now Hw). done.
  - destruct (buffered_put_spec o s [] 0 Hw) as (s' & -> & Hw' & Ha). rewrite app_nil_r in Ha. done.
  - pose proof Hw as [He Hr Hl]. unfold buffered_set_rate_limit. rewrite He. by split; [split|].
Qed.

Lemma file_run_spec ops : forall s, buffered_wf s -> buffered_wf (snd (file_run ops s)) /\
  fst (file_run ops s) = map (fun bs => Z.of_nat (length bs)) (puts ops) /\ accepted o (snd (file_run ops s)) = accepted o s ++ concat (puts ops).
Proof.
  induction ops as [|op ops IH]; intros s Hw; cbn [file_run]; [cbn; by rewrite app_nil_r|].
  destruct (file_step_spec op s Hw) as [Hw1 Hop]. destruct (file_step op s) as [r s1]. cbn [fst snd] in *.
  destruct (IH s1 Hw1) as (Hw2 & Hr2 & Ha2). destruct (file_run ops s1) as [rs s2]. cbn [fst snd] in *.
  destruct op; destruct Hop as [-> Ha1]; rewrite Ha1 in Ha2; (split; [done|]); cbn [puts omap list_omap]; fold (puts ops); rewrite Hr2;
    [by rewrite <- app_assoc in Ha2|done..].
Qed.

(** C40. The buffered file delivers what is put into it: from its creation on, through any
    sequence of puts, ticks of its timer, notifications and changes of the rate limit, and
    with a device that takes any part of what it is offered or nothing at all, every put
    reports its whole length, the device has got a prefix of the bytes put, in order, the
    buffer stays within its capacity, and closing the file, which polls the device, ends
    with the device having got all of them: each byte kept costs at most one round and the
    stalls before it. *)
Theorem buffered_file_delivers ops d limit t : sent d = [] ->
  let '(rs, s) := file_run ops (mkBuffered false false 0 limit [] 0 t d) in
  rs = map (fun bs => Z.of_nat (length bs)) (puts ops) /\ sent (dev s) `prefix_of` concat (puts ops) /\ buffer_size s <= buffer_capacity s /\
  forall fuel, (S (length (concat (puts ops))) * S bound <= fuel)%nat -> sent (dev (snd (buffered_close o fuel s))) = concat (puts ops).
Proof.
  intros Hd. set (s0 := mkBuffered _ _ _ _ _ _ _ _). assert (buffered_wf s0) as Hw0 by (by split).
  destruct (file_run_spec ops s0 Hw0) as (Hw & Hr & Ha). destruct (file_run ops s0) as [rs s]. cbn [fst snd] in *.
  assert (accepted o s = concat (puts ops)) as Ea by (rewrite Ha; unfold accepted; cbn; by rewrite Hd). split; [done|].
  split; [exists (buffer s); by rewrite <- Ea|]. split; [apply Hw|]. intros fuel Hf.
  destruct (close_loop_spec fuel s Hw (to_drain_fuel s _ Ea fuel Hf)) as (_ & _ & Hs). unfold buffered_close. pose proof (pipe_close (dev (close_loop o fuel s))) as Hc.
  destruct (dev_close o (dev (close_loop o fuel s))) as [ret d']. cbn [snd] in *. cbn. by rewrite Hc, Hs, Ea.
Qed.
End Close.

(** ** A slow device *)
(** It takes three bytes at a time, and would block once after that. *)
Definition slow : buffered_ops (bool * list Z) :=
  mkBufOps (fun (d : bool * list Z) bs => let '(ready, got) := d in
              if ready then (Z.of_nat (length (take 3 bs)), (false, got ++ take 3 bs)) else (- EAGAIN, (true, got)))
    dev (fun d => (0, d)).

#[export] Instance slow_pipe : Pipe slow.
Proof.
  refine {| sent d := snd d |}; [|done..]. intros [[] got] bs Hne; cbn; eexists _, _; (split; [done|]); [right|by left].
  assert (0 < length bs)%nat by (destruct bs; [done|cbn; lia]). cbn [snd]. rewrite Nat2Z.id, length_take. split; [lia|]. f_equal.
  destruct (decide (3 <= length bs)%nat); [by rewrite Nat.min_l by lia|]. rewrite Nat.min_r by lia. rewrite (take_ge bs 3), take_ge by lia. done.
Defined.
#[export] Instance slow_drains : Drains slow 1.
Proof.
  refine {| stalls d := if fst d : bool then 0%nat else 1%nat |}; [by intros [[] ?]; cbn; lia| |done].
  intros [[] got] bs Hne; cbn; [unfold EAGAIN; lia|lia].
Defined.
#[export] Instance always_stable {D} (o : buffered_ops D) : Stable o (fun _ => True).
Proof. by split. Qed.

Lemma buffered_file_delivers_witness :
  let '(rs, s) := file_run slow [Put [1; 2; 3; 4; 5]; Tick 100; Put [6]; SetRate 1000; Notify; Put [7; 8]] (mkBuffered false false 0 0 [] 0 None (true, [])) in
  rs = [5; 1; 2] /\ snd (dev s) = [1; 2; 3; 4; 5; 6] /\ sent (dev (snd (buffered_close slow 18 s))) = [1; 2; 3; 4; 5; 6; 7; 8].
Proof.
  pose proof (buffered_file_delivers slow 1 [Put [1; 2; 3; 4; 5]; Tick 100; Put [6]; SetRate 1000; Notify; Put [7; 8]] (true, []) 0 None eq_refl) as H.
  destruct (file_run slow _ _) as [rs s] eqn:E. destruct H as (H1 & _ & _ & H4). split; [exact H1|]. split; [vm_compute in E; by injection E as <- <-|].
  apply (H4 18%nat). cbn. lia.
Defined.

(** ** The rate limit *)
(** Bytes that go through the buffer are not counted: with a limit of nothing at all, and no
    tick of the timer, every put lets the bytes of the one before through. *)
Definition fast : buffered_ops (list Z) := mkBufOps (fun d bs => (Z.of_nat (length bs), d ++ bs)) dev (fun d => (0, d)).
Lemma rate_limit_bypassed :
  length (dev (snd (file_run fast (repeat (Put (repeat 7 100)) 20) (mkBuffered false false 0 0 [] 0 None [])))) = 1900%nat.
Proof. vm_compute. reflexivity. Qed.
