(* ===== verification/Migration.v ===== *)
(** * Outgoing migration: migration.c over buffered_file.c and savevm.c

    The state of a migration over a file descriptor.  The buffered file's opaque pointer is
    the migration itself, so the fields its callbacks use ([status], [fd], the socket) are
    kept in [fd_state], which is the device of the buffered file while there is one.  [X] is
    the state of the socket; [sock_write] is [write] with [get_error] (a negative error
    number on failure), [sock_wait] the [select] of [migrate_fd_wait_for_unfreeze] on a
    descriptor, taken not to be interrupted.  [resumed] and [fds_closed] count the calls of [monitor_resume] and of [close] on the
    descriptor.  The registration of descriptor handlers is left out: their calls are
    events. *)

From S2P Require Import Prelude QemuFile VmState VmCopy Savevm SavevmProofs BufferedFile.
From stdpp Require Import list sets.

Open Scope Z_scope.

Definition EINTR : Z := 4.

Inductive mig_status : Type := MIG_STATE_ERROR | MIG_STATE_COMPLETED | MIG_STATE_CANCELLED | MIG_STATE_ACTIVE.
#[export] Instance mig_status_eq_dec : EqDecision mig_status.
Proof. solve_decision. Defined.

(** As the source numbers them. *)
Definition mig_code (st : mig_status) : Z := match st with MIG_STATE_ERROR => -1 | MIG_STATE_COMPLETED => 0 | MIG_STATE_CANCELLED => 1 | MIG_STATE_ACTIVE => 2 end.

Record fd_state (X : Type) : Type := mkFd { status : mig_status; fd : Z; mon : bool; resumed : nat; fds_closed : nat; sock : X }.
Arguments mkFd {X}. Arguments status {X}. Arguments fd {X}. Arguments mon {X}. Arguments resumed {X}. Arguments fds_closed {X}. Arguments sock {X}.

Record sock_ops (X : Type) : Type := mkSock { sock_write : X -> list Z -> Z * X; sock_wait : Z -> X -> X }.
Arguments mkSock {X}. Arguments sock_write {X}. Arguments sock_wait {X}.

Section Migration.
Context {X M : Type} (k : sock_ops X) (vm : machine_ops (M:=M)) (aio_flush : M -> M).
(** Bounds on interrupted writes in a row and on the rounds of closing. *)
Context (retries fuel : nat).

Definition set_fd (d : fd_state X) (st : mig_status) (n : Z) : fd_state X := mkFd st n (mon d) (resumed d) (fds_closed d) (sock d).
Definition set_sock (d : fd_state X) (x : X) : fd_state X := mkFd (status d) (fd d) (mon d) (resumed d) (fds_closed d) x.
Definition close_fd (d : fd_state X) : fd_state X := mkFd (status d) (-1) (mon d) (resumed d) (S (fds_closed d)) (sock d).

Fixpoint write_loop (n : nat) (d : fd_state X) (bs : list Z) : Z * fd_state X :=
  let '(ret, x) := sock_write k (sock d) bs in
  match n with
  | S n => if ret =? - EINTR then write_loop n (set_sock d x) bs else (ret, set_sock d x)
  | O => (ret, set_sock d x)
  end.
Definition migrate_fd_put_buffer (d : fd_state X) (bs : list Z) : Z * fd_state X := write_loop retries d bs.

(** On the fields [state] and [fd] of the structure it is given, and the socket. *)
Definition migrate_fd_wait_for_unfreeze (state fd : Z) (x : X) : X := if state =? mig_code MIG_STATE_ACTIVE then sock_wait k fd x else x.

(** The structure it is given is the buffered file (see [BufferedFile]), whatever its
    signature says.  With pointers, [size_t] and [int64_t] of eight bytes and an [int] of
    four, little endian, [state] is at byte 64, where the buffered file has the low half of
    [xfer_limit], and [fd] at byte 48, where it has [has_error]. *)
Definition misdirected_wait (b : QEMUFileBuffered (fd_state X)) : fd_state X :=
  set_sock (dev b) (migrate_fd_wait_for_unfreeze (s32 (xfer_limit b)) (if b_error b then 1 else 0) (sock (dev b))).

(** [close] of the socket kinds. *)
Definition migrate_fd_close (d : fd_state X) : Z * fd_state X := (0, if negb (fd d =? -1) then close_fd d else d).

Definition fd_ops : buffered_ops (fd_state X) := mkBufOps migrate_fd_put_buffer misdirected_wait migrate_fd_close.

Record FdMigrationState : Type := mkMig { bandwidth_limit : Z; file : option (QEMUFile (QEMUFileBuffered (fd_state X))); rest : fd_state X }.

(** The fields that are shared with the file's callbacks. *)
Definition self (s : FdMigrationState) : fd_state X := match file s with Some f => dev (opaque f) | None => rest s end.
Definition with_dev (b : QEMUFileBuffered (fd_state X)) (d : fd_state X) : QEMUFileBuffered (fd_state X) := BufferedFile.set_status b (b_error b) (freeze_output b) d.
Definition set_self (s : FdMigrationState) (d : fd_state X) : FdMigrationState :=
  match file s with
  | Some f => mkMig (bandwidth_limit s) (Some (set_opaque f (with_dev (opaque f) d))) (rest s)
  | None => mkMig (bandwidth_limit s) None d
  end.
Definition set_status (s : FdMigrationState) (st : mig_status) : FdMigrationState := set_self s (set_fd (self s) st (fd (self s))).
Definition migrate_fd_get_status (s : FdMigrationState) : mig_status := status (self s).

Definition migrate_fd_cleanup (s : FdMigrationState) : FdMigrationState :=
  let s := match file s with Some f => mkMig (bandwidth_limit s) None (dev (snd (qemu_fclose f))) | None => s end in
  let d := self s in
  let d := if negb (fd d =? -1) then close_fd d else d in
  let d := if mon d then mkFd (status d) (fd d) (mon d) (S (resumed d)) (fds_closed d) (sock d) else d in
  set_self s (set_fd d (status d) (-1)).

Definition migrate_fd_error (s : FdMigrationState) : FdMigrationState := migrate_fd_cleanup (set_status s MIG_STATE_ERROR).

Definition on_file (s : FdMigrationState) (f : QEMUFile (QEMUFileBuffered (fd_state X))) : FdMigrationState := mkMig (bandwidth_limit s) (Some f) (rest s).

Definition migrate_fd_put_ready (hs : list (SaveStateEntry (QEMUFileBuffered (fd_state X)) M)) (s : FdMigrationState) (m : M) : res (FdMigrationState * M) :=
  if negb (bool_decide (status (self s) = MIG_STATE_ACTIVE)) then Ret (s, m)
  else
    let! f := oget (file s) in
    let! '(ret, m, f) := qemu_savevm_state_iterate hs f m in
    let s := on_file s f in
    if ret =? 1 then
      let old_vm_running := vm_running vm m in
      let m := bdrv_flush_all vm (aio_flush (vm_stop vm m)) in
      let! '(ret, m, f) := qemu_savevm_state_complete hs f m in
      let s := on_file s f in
      let '(st, m) := if ret <? 0 then (MIG_STATE_ERROR, if old_vm_running then vm_start vm m else m) else (MIG_STATE_COMPLETED, m) in
      Ret (set_status (migrate_fd_cleanup s) st, m)
    else Ret (s, m).

Definition migrate_fd_connect (hs : list (SaveStateEntry (QEMUFileBuffered (fd_state X)) M)) (s : FdMigrationState) (m : M) (blk shared now : Z)
    : res (FdMigrationState * M) :=
  let f := qemu_fopen_ops_buffered fd_ops fuel (self s) (bandwidth_limit s) now in
  let! '(ret, m, f) := qemu_savevm_state_begin hs f m blk shared in
  let s := on_file s f in
  if ret <? 0 then Ret (migrate_fd_error s, m) else migrate_fd_put_ready hs s m.

Definition migrate_fd_cancel (hs : list (SaveStateEntry (QEMUFileBuffered (fd_state X)) M)) (s : FdMigrationState) (m : M) : res (FdMigrationState * M) :=
  if negb (bool_decide (status (self s) = MIG_STATE_ACTIVE)) then Ret (s, m)
  else
    let s := set_status s MIG_STATE_CANCELLED in
    let! f := oget (file s) in
    let! '(m, f) := qemu_savevm_state_cancel hs f m in
    Ret (migrate_fd_cleanup (on_file s f), m).

(** The state is freed after it. *)
Definition migrate_fd_release (s : FdMigrationState) : FdMigrationState :=
  if bool_decide (status (self s) = MIG_STATE_ACTIVE) then migrate_fd_cleanup (set_status s MIG_STATE_CANCELLED) else s.

Definition migrate_fd_put_notify (s : FdMigrationState) : res FdMigrationState :=
  let! f := oget (file s) in
  let! f := qemu_file_put_notify f in Ret (on_file s f).

(** The timer of the file, with its call of [put_ready]. *)
Definition rate_tick (hs : list (SaveStateEntry (QEMUFileBuffered (fd_state X)) M)) (s : FdMigrationState) (m : M) (now : Z) : res (FdMigrationState * M) :=
  let! f := oget (file s) in
  let '(ready, b) := buffered_rate_tick fd_ops (opaque f) now in
  let s := on_file s (set_opaque f b) in
  if ready then migrate_fd_put_ready hs s m else Ret (s, m).

(** The part of [do_migrate_set_speed] after the number is read. *)
Definition set_speed (s : FdMigrationState) (max_throttle : Z) : FdMigrationState :=
  mkMig (bandwidth_limit s) (snd (qemu_file_set_rate_limit (file s) max_throttle)) (rest s).
End Migration.
