(* ===== verification/MigrationProofs.v ===== *)
(** * A migration that runs to its end

    [SockLaw] is what the socket promises.  A migration is followed event by event
    ([migrating]): while it is active, what was put into the file is what the loading side
    has got so far in its counterpart state; when its last round is done it is completed,
    everything is in the socket, the descriptor is closed once and the monitor resumed. *)

From S2P Require Import Prelude QemuFile VmState VmCopy Savevm SavevmProofs BufferedFile Migration.
From stdpp Require Import list sets.

Open Scope Z_scope.

(** A write takes a part of what it is given, is interrupted, which it is no more than
    [retries] times in a row, or would block, which it does no more than [bound] times
    before it takes something: waiting cannot be relied on (see [misdirected_wait]). *)
Class SockLaw {X : Type} (k : sock_ops X) (retries bound : nat) : Type := {
  got : X -> list Z; patience : X -> nat; backlog : X -> nat;
  patience_bound x : (patience x <= retries)%nat;
  backlog_bound x : (backlog x <= bound)%nat;
  sock_put x bs : bs <> [] -> exists ret x', sock_write k x bs = (ret, x') /\
    ((ret = - EINTR /\ got x' = got x /\ (patience x' < patience x)%nat /\ (backlog x' <= backlog x)%nat) \/
     (ret = - EAGAIN /\ got x' = got x /\ (backlog x' < backlog x)%nat) \/
     (0 < ret <= Z.of_nat (length bs) /\ got x' = got x ++ take (Z.to_nat ret) bs));
  sock_waited n x : got (sock_wait k n x) = got x /\ (backlog (sock_wait k n x) <= backlog x)%nat
}.

Section Device.
Context {X : Type} (k : sock_ops X) (retries bound : nat) {L : SockLaw k retries bound}.
Implicit Types d : fd_state X.

Lemma write_loop_spec n : forall d bs, bs <> [] -> (patience (sock d) <= n)%nat -> exists ret x', write_loop k n d bs = (ret, set_sock d x') /\
  ((ret = - EAGAIN /\ got x' = got (sock d) /\ (backlog x' < backlog (sock d))%nat) \/
   (0 < ret <= Z.of_nat (length bs) /\ got x' = got (sock d) ++ take (Z.to_nat ret) bs)).
Proof.
  induction n as [|n IH]; intros d bs Hne Hn; cbn [write_loop]; destruct (sock_put (sock d) bs Hne) as (ret & x & -> & H).
  - exists ret, x. split; [done|]. destruct H as [(_ & _ & ? & _)|[H|H]]; [lia|by left|by right].
  - destruct H as [(-> & Hg & Hp & Hw)|H].
    + rewrite Z.eqb_refl. destruct (IH (set_sock d x) bs Hne) as (ret & x' & E & H); [cbn; lia|]. exists ret, x'. rewrite E. split; [done|].
      cbn [set_sock sock] in H. rewrite Hg in H. destruct H as [(-> & ? & Hnw)|H]; [left|by right]. split_and!; auto with lia.
    + assert (ret <> - EINTR) as Hr by (destruct H as [[-> _]|[? _]]; unfold EINTR, EAGAIN; lia). rewrite (proj2 (Z.eqb_neq _ _) Hr). eauto.
Qed.

Lemma waited_spec (b : QEMUFileBuffered (fd_state X)) : exists x, misdirected_wait k b = set_sock (dev b) x /\
  got x = got (sock (dev b)) /\ (backlog x <= backlog (sock (dev b)))%nat.
Proof. eexists. split; [done|]. unfold migrate_fd_wait_for_unfreeze. if_case; [apply sock_waited|done]. Qed.

#[export] Instance fd_pipe : Pipe (fd_ops k retries).
Proof.
  refine {| sent d := got (sock d) |}.
  - intros d bs Hne. destruct (write_loop_spec retries d bs Hne (patience_bound _)) as (ret & x & E & H). exists ret, (set_sock d x). split; [exact E|].
    destruct H as [(-> & ? & _)|?]; [by left|by right].
  - intros b. cbn [wait_for_unfreeze fd_ops]. destruct (waited_spec b) as (x & -> & H & _). exact H.
  - intros d. cbn. by destruct (negb _).
Defined.

#[export] Instance fd_drains : Drains (fd_ops k retries) bound.
Proof.
  refine {| stalls d := backlog (sock d) |}.
  - intros d. apply backlog_bound.
  - intros d bs Hne. cbn. unfold migrate_fd_put_buffer. destruct (write_loop_spec retries d bs Hne (patience_bound _)) as (ret & x & -> & H). cbn.
    intros ->. destruct H as [(_ & _ & ?)|[? _]]; [done|unfold EAGAIN in *; lia].
  - intros b. cbn [wait_for_unfreeze fd_ops]. destruct (waited_spec b) as (x & -> & _ & H). exact H.
Defined.

(** The fields the callbacks leave alone. *)
Definition frame (d : fd_state X) : mig_status * Z * bool * nat * nat := (status d, fd d, mon d, resumed d, fds_closed d).

#[export] Instance frame_stable fr : Stable (fd_ops k retries) (fun d => frame d = fr).
Proof.
  split.
  - intros d bs <-. cbn. unfold migrate_fd_put_buffer. clear L. revert d. induction retries as [|n IH]; intros d; cbn [write_loop]; destruct (sock_write k (sock d) bs); [done|].
    if_case; [by rewrite IH|done].
  - intros b <-. done.
Qed.
End Device.

Section Proofs.
Context {X M W' M' : Type} (k : sock_ops X) (vm : machine_ops (M:=M)) (aio_flush : M -> M) (retries bound fuel : nat) {L : SockLaw k retries bound}.
Context {h' : handlers W'} {T' : Transport h'}.
Context (suspended : bool) (desc : Z) (desc_open : desc <> -1).

Abbreviation entry := (SaveStateEntry (QEMUFileBuffered (fd_state X)) M).
Implicit Types (ps : list (entry * SaveStateEntry W' M')) (s : FdMigrationState (X:=X)) (m : M) (n : M').

(** An active migration: descriptor open, nothing closed or resumed yet. *)
Definition running_frame : mig_status * Z * bool * nat * nat := (MIG_STATE_ACTIVE, desc, suspended, 0%nat, 0%nat).

(** Rounds enough for closing the file after [l]. *)
Definition enough (l : list Z) : Prop := (S (length l) * S bound <= fuel)%nat.
Definition out_file : handlers (QEMUFileBuffered (fd_state X)) := buffered_handlers (fd_ops k retries) fuel.
#[local] Instance out_transport : Transport out_file := buffered_transport (fd_ops k retries) (fun d => frame d = running_frame) fuel.

Definition active s (l : list Z) : Prop := exists f, file s = Some f /\ written (h:=out_file) f l.

(** How a migration ends. *)
Record finished (st : mig_status) (l : list Z) s : Prop := {
  fin_file : file s = None; fin_status : status (self s) = st; fin_fd : fd (self s) = -1; fin_once : fds_closed (self s) = 1%nat;
  fin_monitor : resumed (self s) = (if suspended then 1 else 0)%nat; fin_sent : got (sock (self s)) = l
}.

Lemma cleanup_finishes s f l : written (h:=out_file) f l -> enough l -> finished MIG_STATE_ACTIVE l (migrate_fd_cleanup (on_file s f)).
Proof.
  intros Hw Hl. destruct (fflush_written _ _ Hw) as [Hw1 Hs]. unfold migrate_fd_cleanup. cbn [file on_file]. unfold qemu_fclose. rewrite (wr_ops _ _ Hw1).
  cbn [close out_file buffered_handlers]. destruct (wr_dev _ _ Hw1) as [Hb Hfr]. set (b := opaque (qemu_fflush f)) in *.
  destruct (close_loop_spec (fd_ops k retries) bound fuel b Hb (to_drain_fuel (fd_ops k retries) bound b l Hs fuel Hl)) as (_ & _ & Hsent).
  pose proof (close_loop_stable (fd_ops k retries) (fun d => frame d = running_frame) fuel b Hfr) as Hfr2. cbv beta in Hfr2.
  unfold buffered_close. set (c := close_loop (fd_ops k retries) fuel b) in *. cbn [dev_close fd_ops migrate_fd_close].
  injection Hfr2 as E1 E2 E3 E4 E5. rewrite E2, (proj2 (Z.eqb_neq _ _) desc_open). cbn. cbn in Hsent, Hs. rewrite Hs in Hsent.
  rewrite E3. destruct suspended eqn:Esus; split; cbn; rewrite ?E1, ?E4, ?E5, ?Esus; done.
Qed.

(** What one call of [put_ready] does, by the entries: a round that leaves more to send, or
    the last one, with the machine stopped and the rest of its state sent. *)
Inductive put_outcome ps m n : list Z -> M -> M' -> bool -> Prop :=
| goes_on b m' n' : round (h:=out_file) (h':=h') ps 1 m n b 0 m' n' -> put_outcome ps m n b m' n' false
| completes b r m1 n1 b' m' n' : round (h:=out_file) (h':=h') ps 1 m n b r m1 n1 -> r <> 0 ->
    ended (h:=out_file) (h':=h') ps (bdrv_flush_all vm (aio_flush (vm_stop vm m1))) n1 b' m' n' -> put_outcome ps m n (b ++ b') m' n' true.

(** A migration that has sent [l], of which the loading side makes [n]. *)
Definition in_state ps n0 s n (l : list Z) (fin : bool) : Prop :=
  if fin then finished MIG_STATE_COMPLETED l s /\
    forall loop g rest, (length l <= loop)%nat -> pending (h:=h') g (l ++ rest) ->
      exists g', qemu_loadvm_state loop (map snd ps) g n0 = Ret (0, n, g') /\ pending (h:=h') g' rest
  else active s l /\ loaded (h':=h') ps n0 l n.

Lemma active_status s f l : file s = Some f -> written (h:=out_file) f l -> frame (self s) = running_frame.
Proof. intros Ef Hw. unfold self. rewrite Ef. apply (wr_dev _ _ Hw). Qed.

Lemma completed s l : finished MIG_STATE_ACTIVE l s -> finished MIG_STATE_COMPLETED l (set_status s MIG_STATE_COMPLETED).
Proof. intros [H1 H2 H3 H4 H5 H6]. unfold set_status, set_self, self in *. rewrite H1 in *. by split. Qed.

Lemma put_ready_spec ps n0 s f l m n b m' n' fin : Forall twin ps -> entries_wf (map snd ps) -> file s = Some f -> written (h:=out_file) f l ->
  loaded (h':=h') ps n0 l n -> put_outcome ps m n b m' n' fin -> enough (l ++ b) ->
  exists s', migrate_fd_put_ready vm aio_flush (map fst ps) s m = Ret (s', m') /\ in_state ps n0 s' n' (l ++ b) fin.
Proof.
  intros Htw Hwf Ef Hw Hld Ho Hfuel. pose proof (active_status _ _ _ Ef Hw) as Hfr. injection Hfr as Est _ _ _ _.
  unfold migrate_fd_put_ready. rewrite Est, bool_decide_eq_true_2, Ef by done. cbn [negb oget obind].
  destruct Ho as [b m' n' Hr|b r m1 n1 b' m' n' Hr Hne He].
  - destruct (iterate_spec ps f l m n b 0 m' n' Hw Hr) as (f1 & -> & Hw1). cbn [obind Z.eqb]. eexists. split; [done|]. split; [|by eapply loaded_round].
    exists f1. done.
  - destruct (iterate_spec ps f l m n b r m1 n1 Hw Hr) as (f1 & -> & Hw1). rewrite (proj2 (Z.eqb_neq r 0)) by done. cbn [obind Z.eqb Pos.eqb].
    destruct (complete_spec ps f1 _ _ n1 b' m' n' Hw1 He) as (f2 & -> & Hw2). cbn [obind]. change (0 <? 0) with false. cbv iota.
    eexists. split; [done|]. rewrite <- app_assoc in Hw2. split; [by apply completed, cleanup_finishes|].
    intros loop g rest Hloop Hg. rewrite app_assoc in Hloop, Hg. eapply (loaded_end ps Htw Hwf); [by eapply loaded_round|done|done|done].
Qed.

(** A migration before its connection is made. *)
Record fresh s : Prop := { fr_file : file s = None; fr_frame : frame (rest s) = running_frame; fr_got : got (sock (rest s)) = [] }.

Lemma connect_spec ps s m n blk shared now b1 m1 n1 b m' n' fin : Forall twin ps -> entries_wf (map snd ps) -> fresh s ->
  begun (h:=out_file) (h':=h') ps (set_all_params (map fst ps) blk shared m) n b1 m1 n1 -> put_outcome ps m1 n1 b m' n' fin ->
  enough ((file_header ++ b1) ++ b) ->
  exists s', migrate_fd_connect k vm aio_flush retries fuel (map fst ps) s m blk shared now = Ret (s', m') /\ in_state ps n s' n' ((file_header ++ b1) ++ b) fin.
Proof.
  intros Htw Hwf [Hfile Hframe Hgot] Hb Ho Hfuel. unfold migrate_fd_connect. set (f := qemu_fopen_ops_buffered _ _ _ _ _).
  assert (written (h:=out_file) f []) as Hw.
  { pose proof (fopen_written (h:=out_file) (opaque f) ltac:(discriminate)) as H. cbn in H. unfold accepted, self in H. rewrite Hfile in H. cbn in H.
    rewrite Hgot in H. unfold f, qemu_fopen_ops_buffered, self. rewrite Hfile. apply H. split; [by split|done]. }
  destruct (begin_spec ps f m n b1 m1 n1 blk shared Hw Hb) as (f1 & -> & Hw1). cbn [obind]. change (0 <? 0) with false. cbv iota.
  eapply (put_ready_spec ps n (on_file s f1) f1); try done. by eapply loaded_begin.
Qed.

(** Events that leave the machine alone keep what was put. *)
Lemma file_touched s f l w : file s = Some f -> written (h:=out_file) f l -> buffered_wf w -> frame (dev w) = running_frame ->
  accepted (fd_ops k retries) w = accepted (fd_ops k retries) (opaque f) -> written (h:=out_file) (set_opaque f w) l.
Proof. intros Ef Hw Hb Hf Ha. by apply set_opaque_written. Qed.

(** Whether a tick of the file's timer goes on to [put_ready]. *)
Definition tick_ready s (now : Z) : bool := match file s with Some f => fst (buffered_rate_tick (fd_ops k retries) (opaque f) now) | None => false end.

Lemma tick_event ps s l m now : active s l -> exists f, file s = Some f /\ exists f', written (h:=out_file) f' l /\
  rate_tick k vm aio_flush retries (map fst ps) s m now =
  if tick_ready s now then migrate_fd_put_ready vm aio_flush (map fst ps) (on_file s f') m else Ret (on_file s f', m).
Proof.
  intros (f & Ef & Hw). exists f. split; [done|]. unfold rate_tick, tick_ready. rewrite Ef. cbn [oget obind]. destruct (wr_dev _ _ Hw) as [Hb Hfr].
  destruct (tick_spec (fd_ops k retries) (opaque f) now Hb) as [Hb1 Ha1]. pose proof (tick_stable (fd_ops k retries) (fun d => frame d = running_frame) (opaque f) now Hfr) as Hf1.
  destruct (buffered_rate_tick _ (opaque f) now) as [ready w]. cbn [fst snd] in *. exists (set_opaque f w). split; [by apply (file_touched s)|done].
Qed.

Lemma notify_event s l : active s l -> exists s', migrate_fd_put_notify s = Ret s' /\ active s' l.
Proof.
  intros (f & Ef & Hw). unfold migrate_fd_put_notify. rewrite Ef. cbn [oget obind]. unfold qemu_file_put_notify. rewrite (wr_ops _ _ Hw). cbn [put_buffer out_file buffered_handlers].
  destruct (wr_dev _ _ Hw) as [Hb Hfr]. pose proof (put_stable (fd_ops k retries) (fun d => frame d = running_frame) (opaque f) [] 0 Hfr) as Hf1.
  destruct (buffered_put_spec (fd_ops k retries) (opaque f) [] 0 Hb) as (w & E & Hb1 & Ha1). rewrite E in *. cbn [obind snd] in *.
  eexists. split; [done|]. exists (set_opaque f w). split; [done|]. rewrite app_nil_r in Ha1. by apply (file_touched s).
Qed.

Lemma speed_event s l rate : active s l -> active (set_speed s rate) l.
Proof.
  intros (f & Ef & Hw). unfold set_speed, qemu_file_set_rate_limit. rewrite Ef, (wr_ops _ _ Hw). cbn [set_rate_limit out_file buffered_handlers].
  destruct (wr_dev _ _ Hw) as [Hb Hfr]. pose proof Hb as [He Hr Hl]. unfold buffered_set_rate_limit. rewrite He. cbn [snd].
  eexists. split; [done|]. by apply (file_touched s).
Qed.

(** ** All that can happen to a migration that is not cancelled *)
Inductive migrating ps n0 : FdMigrationState (X:=X) -> M -> M' -> list Z -> bool -> Prop :=
| mig_connect s m blk shared now b1 m1 n1 b m' n' fin s' : fresh s ->
    begun (h:=out_file) (h':=h') ps (set_all_params (map fst ps) blk shared m) n0 b1 m1 n1 -> put_outcome ps m1 n1 b m' n' fin ->
    enough ((file_header ++ b1) ++ b) -> migrate_fd_connect k vm aio_flush retries fuel (map fst ps) s m blk shared now = Ret (s', m') ->
    migrating ps n0 s' m' n' ((file_header ++ b1) ++ b) fin
| mig_guest s m n l m' : migrating ps n0 s m n l false -> migrating ps n0 s m' n l false
| mig_quiet s m n l now s' : migrating ps n0 s m n l false -> tick_ready s now = false ->
    rate_tick k vm aio_flush retries (map fst ps) s m now = Ret (s', m) -> migrating ps n0 s' m n l false
| mig_ready s m n l now b m' n' fin s' : migrating ps n0 s m n l false -> tick_ready s now = true -> put_outcome ps m n b m' n' fin ->
    enough (l ++ b) -> rate_tick k vm aio_flush retries (map fst ps) s m now = Ret (s', m') -> migrating ps n0 s' m' n' (l ++ b) fin
| mig_notify s m n l s' : migrating ps n0 s m n l false -> migrate_fd_put_notify s = Ret s' -> migrating ps n0 s' m n l false
| mig_speed s m n l rate : migrating ps n0 s m n l false -> migrating ps n0 (set_speed s rate) m n l false.

Lemma migrating_state ps n0 s m n l fin : Forall twin ps -> entries_wf (map snd ps) -> migrating ps n0 s m n l fin -> in_state ps n0 s n l fin.
Proof.
  intros Htw Hwf. induction 1 as [s m blk shared now b1 m1 n1 b m' n' fin s' Hfr Hb Ho Hl E|s m n l m' _ IH|s m n l now s' _ IH Hr E|s m n l now b m' n' fin s' _ IH Hr Ho Hl E
    |s m n l s' _ IH E|s m n l rate _ IH].
  - destruct (connect_spec ps s m n0 blk shared now b1 m1 n1 b m' n' fin Htw Hwf Hfr Hb Ho Hl) as (s2 & E2 & Hin). rewrite E in E2. by apply Ret_inj in E2 as [= <-].
  - done.
  - destruct IH as [Ha Hld]. destruct (tick_event ps s l m now Ha) as (f & Ef & f' & Hw & E2). rewrite Hr, E in E2. apply Ret_inj in E2 as [= ->].
    split; [by exists f'|done].
  - destruct IH as [Ha Hld]. destruct (tick_event ps s l m now Ha) as (f & Ef & f' & Hw & E2). rewrite Hr, E in E2.
    destruct (put_ready_spec ps n0 (on_file s f') f' l m n b m' n' fin Htw Hwf eq_refl Hw Hld Ho Hl) as (s2 & E3 & Hin). rewrite E3 in E2. by apply Ret_inj in E2 as [= ->].
  - destruct IH as [Ha Hld]. destruct (notify_event s l Ha) as (s2 & E2 & Ha2). rewrite E in E2. by apply Ret_inj in E2 as ->.
  - destruct IH as [Ha Hld]. split; [by apply speed_event|done].
Qed.

(** C39. A migration over a working socket delivers the machine.  The socket keeps [SockLaw]:
    a write takes some of the bytes, is interrupted (only so often in a row) or would block
    (only so often before it takes something); no write fails for another reason, and the
    other end does not go away.  Through the connection, the ticks of the file's timer while
    the socket is free or blocked, its notifications, changes of the speed and a guest that
    runs and changes the machine between the rounds, with entries that save their rounds and
    load them again, an active migration that is not cancelled does not fail: every event
    returns and leaves it active or completed.  When it is completed, the socket has got a
    stream that a machine with twin entries loads without error into the state the entries'
    counterparts make of it, the file is gone, the descriptor was closed exactly once and the
    monitor resumed exactly once if it was suspended.  A socket that fails is outside of this:
    a migration can then be reported as completed though nothing arrived
    ([completed_but_lost]). *)
Theorem migration_delivers ps n0 s m n l fin : Forall twin ps -> entries_wf (map snd ps) -> migrating ps n0 s m n l fin ->
  if fin then finished MIG_STATE_COMPLETED l s /\
    (forall loop g rest, (length l <= loop)%nat -> pending (h:=h') g (l ++ rest) ->
       exists g', qemu_loadvm_state loop (map snd ps) g n0 = Ret (0, n, g') /\ pending (h:=h') g' rest)
  else status (self s) = MIG_STATE_ACTIVE /\ (exists s', migrate_fd_put_notify s = Ret s') /\
    forall now b m' n' fin', put_outcome ps m n b m' n' fin' -> enough (l ++ b) ->
      exists s', rate_tick k vm aio_flush retries (map fst ps) s m now = Ret (s', if tick_ready s now then m' else m).
Proof.
  intros Htw Hwf Hm. pose proof (migrating_state _ _ _ _ _ _ _ Htw Hwf Hm) as Hin. destruct fin; [exact Hin|]. destruct Hin as [Ha Hld]. split_and!.
  - destruct Ha as (f & Ef & Hw). pose proof (active_status _ _ _ Ef Hw) as Hfr. by injection Hfr.
  - destruct (notify_event s l Ha) as (s' & E & _). eauto.
  - intros now b m' n' fin' Ho Hl. destruct (tick_event ps s l m now Ha) as (f & Ef & f' & Hw & ->). destruct (tick_ready s now); [|eauto].
    destruct (put_ready_spec ps n0 (on_file s f') f' l m n b m' n' fin' Htw Hwf eq_refl Hw Hld Ho Hl) as (s' & -> & _). eauto.
Qed.
End Proofs.

(** ** A migration over a willing socket *)
Definition open_sock : sock_ops (list Z) := mkSock (fun x bs => (Z.of_nat (length bs), x ++ bs)) (fun _ x => x).
#[export] Instance open_sock_law : SockLaw open_sock 0 0.
Proof.
  refine {| got x := x; patience _ := 0%nat; backlog _ := 0%nat |}; [lia|lia| |done]. intros x bs Hne. cbn. eexists _, _. split; [done|]. right; right.
  rewrite Nat2Z.id, firstn_all. split; [destruct bs; [done|cbn; lia]|done].
Defined.

Definition steady : machine_ops (M:=Z) := mkOps (fun _ => true) (fun m => m) (fun m => m) (fun m => m).
Definition mig0 : FdMigrationState (X:=list Z) := mkMig 1000 None (mkFd MIG_STATE_ACTIVE 9 true 0 0 []).
Definition state_of {A} (d : A) (r : res (A * Z)) : A := match r with Ret (s, _) => s | _ => d end.
Definition mig1 : FdMigrationState (X:=list Z) := state_of mig0 (migrate_fd_connect open_sock steady (fun m => m) 0 100 [counter] mig0 1 0 0 5).
Definition mig2 : FdMigrationState (X:=list Z) := state_of mig1 (rate_tick open_sock steady (fun m => m) 0 [counter] mig1 0 105).

Lemma state_ran {A} (d : A) (r : res (A * Z)) m : match r with Ret (_, m') => m' =? m | _ => false end = true -> r = Ret (state_of d r, m).
Proof. destruct r as [[s m']| |]; try done. intros ->%Z.eqb_eq. done. Qed.

(** The counter of the live entry: one at the start and in the first round, zero in the
    second and at the end. *)
Lemma migration_delivers_witness : exists l, finished open_sock 0 0 true MIG_STATE_COMPLETED l mig2 /\
  exists g', qemu_loadvm_state 100 [counter] (qemu_fopen_ops l mem_file) 0 = Ret (0, 2, g').
Proof.
  assert (exists l, length l = 43%nat /\
    migrating open_sock steady (fun m => m) 0 0 100 (h':=mem_file) true 9 [(counter, counter)] 0 mig2 0 2 l true) as (l & Hl & Hm).
  { eexists. split; [|eapply mig_ready].
    2: { eapply (mig_connect _ _ _ _ _ _ _ _ _ _ mig0 1 0 0 5 _ 1 1 _ 0 2 false mig1).
         - by split.
         - eapply pass_take; [done|exists 0; exact (counter_part 1 1 0 ltac:(lia))|apply pass_nil].
         - apply goes_on. apply round_stop. exact (counter_part 2 1 1 ltac:(lia)).
         - unfold enough; cbn; lia.
         - apply state_ran. vm_compute. reflexivity. }
    2: vm_compute; reflexivity.
    2: { eapply (completes _ _ _ _ _ _ _ _ _ _ _ _ 1 0 2).
         - eapply round_go; [exact (counter_part 2 0 2 ltac:(lia))|done|apply round_nil].
         - done.
         - eexists _, 0, 2, []. split; [reflexivity|]. split; [eapply pass_take; [done|exists 1; exact (counter_part 3 0 2 ltac:(lia))|apply pass_nil]|].
           eapply pass_skip; [done|apply pass_nil]. }
    3: apply state_ran; vm_compute; reflexivity.
    2: unfold enough; cbn; lia.
    reflexivity. }
  destruct (migration_delivers open_sock steady (fun m => m) 0 0 100 true 9 ltac:(lia) [(counter, counter)] 0 mig2 0 2 l true ltac:(by repeat constructor) counter_wf Hm) as [Hf Hld].
  exists l. split; [exact Hf|]. destruct (Hld 100%nat (qemu_fopen_ops l mem_file) []) as (g' & E & _); [lia| |eauto].
  rewrite app_nil_r. exact (fopen_pending (h:=mem_file) l ltac:(discriminate) I).
Defined.

(** ** Where the code falls short *)
(** A socket that is ready once its descriptor, 9, is waited for. *)
Definition idle_sock : sock_ops (bool * list Z) :=
  mkSock (fun x bs => if fst x : bool then (Z.of_nat (length bs), (true, snd x ++ bs)) else (- EAGAIN, x)) (fun n x => if n =? 9 then (true, snd x) else x).

(** Closing never waits for it: the wait is given the wrong structure, finds its migration
    not active, and the loop spins. *)
Lemma closing_spins fuel fr :
  buffer (close_loop (fd_ops idle_sock 0) fuel (mkBuffered false fr 0 100 [1; 2; 3] 2000 None (mkFd MIG_STATE_ACTIVE 9 true 0 0 (false, [])))) = [1; 2; 3].
Proof. revert fr. induction fuel as [|fuel IH]; intros fr; [done|]. exact (IH true). Qed.

(** A socket whose other end is gone. *)
Definition broken_sock : sock_ops (list Z) := mkSock (fun x bs => (- 32, x)) (fun _ x => x).

(** A small machine is still in the file's own buffer when the migration is completed: the
    error comes from closing the file, whose result nobody looks at. *)
Lemma completed_but_lost :
  match migrate_fd_connect broken_sock steady (fun m => m) 0 100 [counter] mig0 0 0 0 5 with
  | Ret (s, _) => (status (self s), fds_closed (self s), sock (self s)) | _ => (MIG_STATE_ERROR, 0%nat, []) end = (MIG_STATE_COMPLETED, 1%nat, []).
Proof. vm_compute. reflexivity. Qed.
